(* ===== verification/_CoqProject ===== *)
-Q . S2P
Prelude.v
ByteMem.v
TmpfsTree.v
Paging.v
PagingRefine.v
Confinement.v
Uaccess.v
Tmpfs.v
TmpfsInv.v
TmpfsProps.v
FdTable.v
Cpio.v
Vfs.v
VfsProps.v
Pipe.v
Rtc.v
EnaRing.v
EnaDevice.v
Mmap.v
MmapProps.v
Sched.v
SchedInv.v
SchedProps.v
FutexProps.v
SpawnProps.v
SchedDemo.v
Virtqueue.v
VirtqueueProps.v
VirtioNet.v
VirtioNetProps.v
VirtioDemo.v
Pci.v
PciProps.v
VirtioPci.v
VirtioPciProps.v
NetInit.v
PciDemo.v
TscSync.v
Clock.v
ClockProps.v
Elf.v
Acpi.v
Socket.v
SocketInv.v
SocketProps.v
SocketDemo.v
Epoll.v
EpollProps.v
Rng.v
Syscalls.v
Dispatch.v
SyscallsInv.v
SyscallsProps.v
SyscallsDemo.v
OwningQueue.v
Vsock.v
VsockManager.v
VsockProps.v
VsockPair.v
VsockNet.v
VsockDevice.v
VsockInit.v
VsockDemo.v
