(* ===== verification/Prelude.v ===== *)
(** * Tyn kernel: verification development

    Tyn is a unikernel for the BEAM: a Rust kernel under [src/src/] that runs one
    program in ring 3 behind Linux system calls, with a vendored copy of the
    virtio drivers under [src/virtio-drivers-patched/].  This development
    translates the kernel into Rocq definitions and proves the properties its
    parts rely on.

    ** Conventions

    Machine integers are integers of [Z] with the wrap-around written out ([⊞],
    [⊟], [⊠] are the 64-bit operations of a release build); a signed result is
    read back with [i32] or [i64].  A definition returns in the monad [outcome]
    when the code can panic or fault in ring 0 ([Panic]), and in [result] when it
    returns an error number.  Static variables are records passed along.  Code
    under a lock that is taken and dropped within an operation is one step;
    where a call drops a lock and takes another, its regions are separate steps
    and the theorems quantify over their interleavings.  What is not code of the
    repository is an argument or a class: the processor's address translation and
    SMAP, the time-stamp counter, CMOS and PCI registers, network adapters and
    hypervisor pages (functions of the number of accesses made, so that they may
    change at any time), the TCP/IP stack smoltcp ([Stack] with [StackLaws]) and
    the generator rand_chacha ([Csprng] with [CsprngLaws]).  [SocketDemo] and
    [SyscallsDemo] have instances of the classes that satisfy their laws.

    ** Memory

    - [Prelude]: integers, monads, lists, the tactics and hints used throughout.
    - [ByteMem]: byte memory.
    - [Paging] ([memory/paging.rs]), [PagingRefine], [Confinement]: the page
      tables as words in physical memory; they implement a map from pages to
      leaves, boot establishes the identity map with the intended attributes,
      ring 3 reaches user regions only whatever guard pages and scratch frames
      are installed later, and [user_accessible] is exactly what the processor
      lets ring 3 touch.
    - [Uaccess] ([uaccess.rs]): guarded copies never fault, are exact and
      confined.  The class [UserMem] is the interface the rest of the kernel is
      verified against; [Uaccess] discharges its laws for the machine.
    - [Mmap], [MmapProps] ([brk], [mmap], [munmap] of [syscall.rs]): regions a
      well-behaved program holds are disjoint and inside the managed range.
    - [Elf] ([elf.rs]): loading puts exactly the segments in memory.
    - [Acpi] ([acpi.rs]): the kernel learns exactly what the tables of the
      firmware say, and the walk of the MADT ends on any bytes.

    ** Threads and time

    - [Sched] ([sched.rs]) with [SchedInv], [SchedProps], [FutexProps],
      [SpawnProps], [SchedDemo]: run queues, context switches, futexes, the
      watchdog and clone as steps interleaved between CPUs.  Every thread is in one place,
      contexts are restored, queues are FIFO, wakes are not lost, timed waits
      end, bucket locks are handed over, kernel stacks are apart and guarded.
    - [Clock], [ClockProps] ([syscall.rs], [pvclock.rs]): the clock never runs
      backwards, is exact until its product overflows and then stands still; a
      paravirtual time comes from one consistent state of the page.
    - [TscSync] ([measure_tsc_offset], [ap_tsc_sync]): the error of the measured
      offset is bounded.
    - [Rtc] ([rtc.rs], [rtc_pure.rs]): every date and mode is read correctly.
    - [Rng] ([rng.rs]): seeding, and when the generator is reseeded.

    ** Files

    - [TmpfsTree], [Tmpfs] ([tmpfs_tree.rs], [tmpfs.rs]) with [TmpfsInv],
      [TmpfsProps]: accounting, cap and tree invariants over every operation, no
      panic, the round trip of positional writes and reads.
    - [Cpio] ([cpio.rs]), [FdTable] ([fd_table.rs]), [Vfs], [VfsProps]
      ([vfs.rs]): lookup in an archive inverts its encoding and is safe on any
      bytes; the slot table is a finite map; reading an opened member delivers
      its contents.
    - [Pipe] ([pipe.rs]): the ring buffers implement bounded queues.

    ** Network

    - [EnaRing], [EnaDevice] ([net/ena/*.rs], [drivers/virtio/hal.rs]): ring
      arithmetic, admin queue and data path of the ENA driver over memory shared
      with the adapter.
    - [Virtqueue] ([queue.rs]) with [VirtqueueProps]: a virtqueue implements a
      map from tokens to outstanding requests whatever the device writes;
      [OwningQueue] ([queue/owning.rs]): queues that own their buffers, and
      blocking requests.
    - [VirtioNet], [VirtioNetProps], [VirtioDemo] ([device/net/*.rs],
      [net/device.rs]): reception and transmission over it.
    - [Pci], [PciProps] ([transport/pci/bus.rs], [net/pci_io.rs]): enumeration,
      capabilities and the sizing of BARs, over the interface
      [ConfigurationAccess], whose laws both access mechanisms satisfy.
    - [VirtioPci], [VirtioPciProps] ([transport/pci.rs], [transport/mod.rs]): the
      PCI transport of virtio and the initialisation protocol over it.
    - [NetInit], [PciDemo] ([init_networking] of [main.rs], [VirtIONetRaw::new]):
      the card is found, and after the start of the driver the device holds the
      features and queues the driver uses.
    - [Socket], [SocketInv], [SocketProps], [SocketDemo] ([net/socket.rs],
      [NetState::poll] of [net/mod.rs]): the socket calls as lock regions; one
      holder per handle, what [accept] hands out, what the reaper frees, and
      exactly which regions panic.

    ** Virtio sockets

    - [Vsock] ([protocol.rs], [vsock.rs]), [VsockManager]
      ([connectionmanager.rs]): packets, driver and connection manager over the
      class [SocketDevice] of its two queues.  [VsockProps]: against the laws
      [SocketLaws] the manager implements a map of independent connections.
    - [VsockPair], [VsockNet]: two managers with a host ([SocketHost]) between
      them; the bytes of a connection arrive in order and none is lost, and the
      credit protocol never overruns a buffer.
    - [VsockDevice]: virtqueues in memory shared with a host are an instance of
      the classes.  [VsockInit]: the start of the driver over a PCI transport
      leads there.  [VsockDemo]: a connection between two guests, evaluated.

    ** System calls

    - [Epoll], [EpollProps]: [epoll_ctl], [epoll_wait] and [ppoll].  The table is
      a map, a scan reports exactly what is ready, a timed wait ends.
    - [Syscalls]: the calls on files and descriptors, over the states of the
      components side by side; [Dispatch]: [syscall_dispatch_inner], from
      registers to handlers.
    - [SyscallsInv], [SyscallsProps], [SyscallsDemo]: over every run of the
      dispatcher and the socket regions of other threads, a descriptor number
      has one owner (while the counters are in range) and closing it ends
      it there and nowhere else; a vectored write gathers.

    ** Bounds and fuel

    Loops over a finite structure recurse on it.  Fuel, where the source has a
    loop without one, is chosen so that it cannot run out; the theorems state
    what the calls return, which they could not if it did:
    the archive scans have one unit per byte of the archive, attribute changes
    one per 2 MiB block, range checks one per page, a pipe read one per slot of
    the ring, the reaper one per entry of the closing list, [sendfile] one per
    requested byte, each and one more; the loops of the calendar run as often
    as the source's.  Loops that wait for a device (the admin queue, the CMOS
    update flag, the transmit drain, a consistent read, a reset, a blocking
    request) and the walk of a capability list take their fuel as an argument,
    and the theorems say how much is enough.  The 4096 rounds of a seqlock read and the attempts of the
    hardware generator are bounds of the code itself.  A call that waits takes a
    list of turns, each with the readings it makes and what other threads do
    meanwhile; [None] is a call still waiting when the list ends, and the
    liveness theorems say when it does not.

    ** Not modelled

    Inline assembly and what only hardware sees: the boot sequence ([main.rs]
    apart from [init_networking], [boot.rs], [multiboot.S], [stage2_shim.rs]), the system call entry stub and
    per-CPU areas ([percpu.rs]), interrupt descriptors and trap frames
    ([interrupts.rs]), APIC and AP start ([apic.rs], [smp.rs]), TLB maintenance
    and memory fences.  Port output and diagnostics ([serial.rs], statistics,
    tracing).  The older single-CPU threads ([thread.rs]), which the scheduler
    replaced, and the ring-3 probes ([confine_probe.rs]).  The heap
    ([memory/heap.rs]) is a crate over a static array.  Network
    configuration (DHCP, static addresses, the echo server) is calls of smoltcp.  The
    devices of the vendored crate the kernel has no driver for (console, gpu,
    input, sound, 9p) are not used by it.  The NIF libraries and
    Erlang code run in the guest. *)

From stdpp Require Export base numbers list gmap strings sorting.
From Stdlib Require Export ZArith Lia.
Open Scope Z_scope.

(** ** Machine integers

    [usize]/[u64] values are integers in [0, 2^64).  The kernel is built with
    the release profile, so plain [+], [-], [*] wrap around. *)

Definition wrap (w x : Z) : Z := x mod 2 ^ w.
Definition u8 (x : Z) : Z := wrap 8 x.
Definition u16 (x : Z) : Z := wrap 16 x.
Definition u32 (x : Z) : Z := wrap 32 x.
Definition u64 (x : Z) : Z := wrap 64 x.

(** Two's complement reading of a wrapped value. *)
Definition signed (w x : Z) : Z :=
  let y := wrap w x in if y <? 2 ^ (w - 1) then y else y - 2 ^ w.
Definition i32 (x : Z) : Z := signed 32 x.
Definition i64 (x : Z) : Z := signed 64 x.

Definition u64_max : Z := 2 ^ 64 - 1.
Definition i32_max : Z := 2 ^ 31 - 1.
(** [isize::MAX], the largest capacity a [Vec<u8>] may ask for. *)
Definition isize_max : Z := 2 ^ 63 - 1.

Definition checked_add (a b : Z) : option Z :=
  if a + b <? 2 ^ 64 then Some (a + b) else None.
Definition saturating_add (a b : Z) : Z := Z.min (a + b) u64_max.
Definition saturating_sub (a b : Z) : Z := Z.max (a - b) 0.

Declare Scope mach_scope.
Delimit Scope mach_scope with mach.
Notation "a ⊞ b" := (u64 (a + b)) (at level 50, left associativity) : mach_scope.
Notation "a ⊟ b" := (u64 (a - b)) (at level 50, left associativity) : mach_scope.
Notation "a ⊠ b" := (u64 (a * b)) (at level 40, left associativity) : mach_scope.
Open Scope mach_scope.

(** ** Panics

    A Rust operation that may panic (slice indexing, [unwrap], a capacity
    overflow) or take a page fault in ring 0 yields [Panic], after which the
    kernel halts; everything else yields [Ret]. *)

Inductive outcome (A : Type) : Type :=
| Ret (a : A)
| Panic.
Arguments Ret {A} a.
Arguments Panic {A}.

#[export] Instance outcome_ret : MRet outcome := @Ret.
#[export] Instance outcome_bind : MBind outcome := fun A B f m =>
  match m with Ret a => f a | Panic => Panic end.

(** [Result<A, isize>]: the error is a negative error number. *)
Inductive result (A : Type) : Type :=
| Ok (a : A)
| Err (e : Z).
Arguments Ok {A} a.
Arguments Err {A} e.

(** ** Byte strings *)

Definition len {A} (l : list A) : Z := Z.of_nat (length l).

(** [b"..."] literals. *)
Fixpoint bstr (s : string) : list Z :=
  match s with
  | EmptyString => []
  | String c s' => Z.of_N (Ascii.N_of_ascii c) :: bstr s'
  end.

(** [&l[a..b]]; panics unless [a <= b <= l.len()]. *)
Definition slice {A} (l : list A) (a b : Z) : outcome (list A) :=
  if (0 <=? a) && (a <=? b) && (b <=? len l)
  then Ret (take (Z.to_nat (b - a)) (drop (Z.to_nat a) l))
  else Panic.

(** [l[i]]; panics out of range. *)
Definition index {A} (l : list A) (i : Z) : outcome A :=
  if 0 <=? i then match l !! Z.to_nat i with Some x => Ret x | None => Panic end
  else Panic.

(** [l[at..at+bs.len()].copy_from_slice(bs)]. *)
Definition splice {A} (l : list A) (at_ : Z) (bs : list A) : outcome (list A) :=
  if (0 <=? at_) && (at_ + len bs <=? len l)
  then Ret (take (Z.to_nat at_) l ++ bs ++ drop (Z.to_nat (at_ + len bs)) l)
  else Panic.

Definition is_byte (b : Z) : bool := (0 <=? b) && (b <? 256).

(** Little-endian encodings of a [w]-byte integer. *)
Fixpoint le_bytes (n : nat) (x : Z) : list Z :=
  match n with
  | O => []
  | S n' => x mod 256 :: le_bytes n' (x / 256)
  end.
Fixpoint le_val (bs : list Z) : Z :=
  match bs with
  | [] => 0
  | b :: bs' => b + 256 * le_val bs'
  end.

(** ** Counted loops

    [for k in lo..lo+n { s = f(k, s) }]. *)
Fixpoint for_range {S} (n : nat) (lo : Z) (f : Z -> S -> S) (s : S) : S :=
  match n with
  | O => s
  | Datatypes.S n' => for_range n' (lo + 1) f (f lo s)
  end.

#[global] Arguments for_range {S} n lo f s : simpl never.

(** Function update, for arrays indexed by [Z]. *)
Definition fupd {A} (f : Z -> A) (i : Z) (v : A) : Z -> A :=
  fun j => if j =? i then v else f j.

(** [Vec::swap_remove]. *)
Definition vec_swap_remove {A} (i : nat) (l : list A) : list A :=
  match last l with
  | Some x => if (S i =? length l)%nat then take i l else <[i := x]> (removelast l)
  | None => l
  end.

(** ** Linux error numbers *)

Definition EPERM := 1.
Definition ENOENT := 2.
Definition EIO := 5.
Definition EBADF := 9.
Definition EAGAIN := 11.
Definition ENOMEM := 12.
Definition EACCES := 13.
Definition EFAULT := 14.
Definition EBUSY := 16.
Definition EEXIST := 17.
Definition ENOTDIR := 20.
Definition EISDIR := 21.
Definition EINVAL := 22.
Definition ENFILE := 23.
Definition EMFILE := 24.
Definition ENOTTY := 25.
Definition ENOSPC := 28.
Definition ESPIPE := 29.
Definition EROFS := 30.
Definition EPIPE := 32.
Definition ENOSYS := 38.
Definition ENOTEMPTY := 39.

(** ** Lemmas and automation *)

Create HintDb tyn.

(** Case analysis on the scrutinee of an [if] or [match] in the goal. *)
Ltac case_goal :=
  match goal with
  | |- context [match ?x with _ => _ end] => destruct x eqn:?
  end.
(** The same in a hypothesis. *)
Ltac case_hyp H :=
  match type of H with
  | context [match ?x with _ => _ end] => destruct x eqn:?
  end.
(** Turns boolean facts about [Z] into propositions. *)
Ltac zb :=
  repeat match goal with
  | H : _ && _ = true |- _ => apply andb_true_iff in H as [??]
  | H : _ || _ = false |- _ => apply orb_false_iff in H as [??]
  | H : negb _ = true |- _ => apply negb_true_iff in H
  | H : negb _ = false |- _ => apply negb_false_iff in H
  | H : bool_decide _ = true |- _ => apply bool_decide_eq_true in H
  | H : bool_decide _ = false |- _ => apply bool_decide_eq_false in H
  | H : (_ =? _) = true |- _ => apply Z.eqb_eq in H
  | H : (_ =? _) = false |- _ => apply Z.eqb_neq in H
  | H : (_ <? _) = true |- _ => apply Z.ltb_lt in H
  | H : (_ <? _) = false |- _ => apply Z.ltb_ge in H
  | H : (_ <=? _) = true |- _ => apply Z.leb_le in H
  | H : (_ <=? _) = false |- _ => apply Z.leb_gt in H
  end.

Lemma wrap_small w x : 0 <= x < 2 ^ w -> wrap w x = x.
Proof. apply Z.mod_small. Qed.

Lemma wrap_range w x : 0 <= w -> 0 <= wrap w x < 2 ^ w.
Proof. intros Hw. apply Z.mod_pos_bound. lia. Qed.

Lemma u64_small x : 0 <= x < 2 ^ 64 -> u64 x = x.
Proof. apply wrap_small. Qed.

Lemma u64_range x : 0 <= u64 x < 2 ^ 64.
Proof. apply wrap_range. lia. Qed.

Lemma u32_small x : 0 <= x < 2 ^ 32 -> u32 x = x.
Proof. apply wrap_small. Qed.

Lemma i32_small x : - 2 ^ 31 <= x < 2 ^ 31 -> i32 x = x.
Proof.
  intros Hx. unfold i32, signed, wrap.
  destruct (Z.ltb_spec x 0).
  - replace (x mod 2 ^ 32) with (x + 2 ^ 32).
    + destruct (Z.ltb_spec (x + 2 ^ 32) (2 ^ (32 - 1))); lia.
    + symmetry. rewrite <- (Z.mod_small (x + 2 ^ 32) (2 ^ 32)) by lia.
      rewrite <- (Z.mod_add x 1 (2 ^ 32)) by lia. f_equal.
  - rewrite Z.mod_small by lia.
    destruct (Z.ltb_spec x (2 ^ (32 - 1))); lia.
Qed.

Lemma i64_small x : - 2 ^ 63 <= x < 2 ^ 63 -> i64 x = x.
Proof.
  intros Hx. unfold i64, signed, wrap.
  destruct (Z.ltb_spec x 0).
  - replace (x mod 2 ^ 64) with (x + 2 ^ 64).
    + destruct (Z.ltb_spec (x + 2 ^ 64) (2 ^ (64 - 1))); lia.
    + symmetry. rewrite <- (Z.mod_small (x + 2 ^ 64) (2 ^ 64)) by lia.
      rewrite <- (Z.mod_add x 1 (2 ^ 64)) by lia. f_equal.
  - rewrite Z.mod_small by lia.
    destruct (Z.ltb_spec x (2 ^ (64 - 1))); lia.
Qed.

(** Removes wrap-arounds whose argument is in range by linear arithmetic. *)
Ltac unwrap64 := rewrite ?u64_small by lia.

(** Loop rule: an invariant indexed by the loop variable. *)
Lemma for_range_ind {S} (P : Z -> S -> Prop) n lo (f : Z -> S -> S) s :
  P lo s ->
  (forall k s, lo <= k < lo + Z.of_nat n -> P k s -> P (k + 1) (f k s)) ->
  P (lo + Z.of_nat n) (for_range n lo f s).
Proof.
  revert lo s. induction n as [|n IH]; intros lo s H0 Hs; cbn [for_range].
  - by rewrite Z.add_0_r.
  - replace (lo + Z.of_nat (Datatypes.S n)) with (lo + 1 + Z.of_nat n) by lia.
    apply IH; [apply Hs; [lia|done]|]. intros k s' Hk. apply Hs. lia.
Qed.

Lemma fupd_eq {A} (f : Z -> A) i v : fupd f i v i = v.
Proof. unfold fupd. by rewrite Z.eqb_refl. Qed.

Lemma fupd_ne {A} (f : Z -> A) i j v : j <> i -> fupd f i v j = f j.
Proof. intros. unfold fupd. by rewrite (proj2 (Z.eqb_neq j i)). Qed.

Lemma vec_swap_remove_perm {A} i (l : list A) x : l !! i = Some x -> l ≡ₚ x :: vec_swap_remove i l.
Proof.
  intros Hi. unfold vec_swap_remove. pose proof (lookup_lt_Some _ _ _ Hi) as Hl.
  destruct (last l) as [y|] eqn:El; [|apply last_None in El; by subst].
  apply last_Some in El as [l' ->]. rewrite length_app in *. cbn [length] in *.
  destruct (Nat.eqb_spec (S i) (length l' + 1)) as [E|E].
  - assert (i = length l') as -> by lia. rewrite list_lookup_middle in Hi by done. injection Hi as <-.
    rewrite take_app_length. solve_Permutation.
  - rewrite removelast_last. rewrite lookup_app_l in Hi by lia.
    rewrite (insert_take_drop l' i y) by lia.
    rewrite <- (take_drop_middle l' i x Hi) at 1. solve_Permutation.
Qed.

Lemma len_nonneg {A} (l : list A) : 0 <= len l.
Proof. unfold len. lia. Qed.
#[export] Hint Resolve len_nonneg : tyn.

Lemma len_app {A} (l k : list A) : len (l ++ k) = len l + len k.
Proof. unfold len. rewrite length_app. lia. Qed.

Lemma len_cons {A} (x : A) l : len (x :: l) = len l + 1.
Proof. unfold len. simpl. lia. Qed.

Lemma len_nil {A} : len (@nil A) = 0.
Proof. done. Qed.

Lemma len_take {A} n (l : list A) : 0 <= n -> len (take (Z.to_nat n) l) = Z.min n (len l).
Proof. intros. unfold len. rewrite length_take. lia. Qed.

Lemma len_drop {A} n (l : list A) : 0 <= n -> len (drop (Z.to_nat n) l) = Z.max 0 (len l - n).
Proof. intros. unfold len. rewrite length_drop. lia. Qed.

Lemma len_zero_nil {A} (l : list A) : len l = 0 -> l = [].
Proof. destruct l; [done|]. rewrite len_cons. pose proof (len_nonneg l). lia. Qed.

Lemma slice_ok {A} (l : list A) a b :
  0 <= a -> a <= b -> b <= len l ->
  slice l a b = Ret (take (Z.to_nat (b - a)) (drop (Z.to_nat a) l)).
Proof.
  intros. unfold slice.
  rewrite (proj2 (Z.leb_le 0 a)), (proj2 (Z.leb_le a b)), (proj2 (Z.leb_le b (len l))) by lia.
  done.
Qed.

Lemma slice_len {A} (l : list A) a b s : slice l a b = Ret s -> len s = b - a.
Proof.
  unfold slice. case_match; [|done]. intros [= <-]. zb.
  rewrite len_take, len_drop by lia. lia.
Qed.

Lemma splice_ok {A} (l : list A) at_ bs :
  0 <= at_ -> at_ + len bs <= len l ->
  splice l at_ bs
  = Ret (take (Z.to_nat at_) l ++ bs ++ drop (Z.to_nat (at_ + len bs)) l).
Proof.
  intros. unfold splice.
  rewrite (proj2 (Z.leb_le 0 at_)), (proj2 (Z.leb_le (at_ + len bs) (len l))) by lia.
  done.
Qed.

Lemma splice_len {A} (l : list A) at_ bs s : splice l at_ bs = Ret s -> len s = len l.
Proof.
  unfold splice. case_match; [|done]. intros [= <-]. zb. pose proof (len_nonneg bs).
  rewrite !len_app, len_take, len_drop by lia. lia.
Qed.

Lemma le_bytes_length n x : length (le_bytes n x) = n.
Proof. revert x. induction n; intros; simpl; [done|]. by rewrite IHn. Qed.

Lemma le_bytes_byte n x : Forall (fun b => is_byte b = true) (le_bytes n x).
Proof.
  revert x. induction n; intros; simpl; constructor; [|done].
  unfold is_byte. pose proof (Z.mod_pos_bound x 256). lia.
Qed.

Lemma le_val_bytes n x : le_val (le_bytes n x) = x mod 256 ^ Z.of_nat n.
Proof.
  revert x. induction n as [|n IH]; intros x; cbn [le_bytes le_val].
  - by rewrite Z.mod_1_r.
  - rewrite IH, Nat2Z.inj_succ, Z.pow_succ_r by lia.
    rewrite Z.rem_mul_r by lia. done.
Qed.

(** How a quotient moves when its dividend grows by one. *)
Lemma div_pred y n : 0 < n -> y / n = (y - 1) / n + (if y mod n =? 0 then 1 else 0).
Proof.
  intros Hn. destruct (Z.eqb_spec (y mod n) 0) as [E|E]; symmetry.
  - apply Z.div_exact in E; [|lia]. apply Z.add_move_r. symmetry. apply Z.div_unique with (n - 1); nia.
  - rewrite Z.add_0_r. symmetry. apply Z.div_unique with (y mod n - 1).
    + pose proof (Z.mod_pos_bound y n Hn). lia.
    + pose proof (Z.div_mod y n). lia.
Qed.
