(* ===== verification/ByteMem.v ===== *)
(** * Byte memory

    Physical memory as the loader and the network driver see it: a map from
    addresses to bytes in which an absent byte is zero. *)

From S2P Require Import Prelude.

Definition peek8 (m : gmap Z Z) (a : Z) : Z := default 0 (m !! a).
Definition load (m : gmap Z Z) (a n : Z) : list Z := (fun k => peek8 m (a + k)) <$> seqZ 0 n.
Fixpoint store (m : gmap Z Z) (a : Z) (bs : list Z) : gmap Z Z :=
  match bs with [] => m | b :: bs' => store (<[a := b]> m) (a + 1) bs' end.
(** [write_bytes(a, 0, n)]; absent bytes are zero. *)
Definition zero_range (m : gmap Z Z) (a n : Z) : gmap Z Z :=
  filter (fun p => ~ (a <= fst p < a + n)) m.

(** ** Lemmas *)
Lemma peek_store bs : forall m a x,
  peek8 (store m a bs) x = if (a <=? x) && (x <? a + len bs) then default 0 (bs !! Z.to_nat (x - a)) else peek8 m x.
Proof.
  induction bs as [|b bs IH]; intros m a x; cbn [store].
  - change (len (@nil Z)) with 0. rewrite Z.add_0_r. destruct (Z.leb_spec a x), (Z.ltb_spec x a); try lia; done.
  - rewrite IH, len_cons. pose proof (len_nonneg bs). unfold peek8.
    destruct (Z.eq_dec x a) as [->|Hne].
    + rewrite (proj2 (Z.leb_gt (a + 1) a)), Z.leb_refl by lia. cbn [andb].
      rewrite (proj2 (Z.ltb_lt _ _)) by lia. by rewrite lookup_insert_eq, Z.sub_diag.
    + rewrite lookup_insert_ne by done.
      destruct (Z.leb_spec (a + 1) x), (Z.leb_spec a x); try lia; cbn [andb]; [|done].
      replace (a + 1 + len bs) with (a + (len bs + 1)) by lia. case_match; [|done].
      by replace (Z.to_nat (x - a)) with (S (Z.to_nat (x - (a + 1)))) by lia.
Qed.

Lemma load_store m a bs : load (store m a bs) a (len bs) = bs.
Proof.
  unfold load. apply list_eq. intros i. rewrite list_lookup_fmap.
  destruct (decide (i < length bs)%nat) as [Hi|Hi].
  - rewrite lookup_seqZ_lt by (unfold len; lia). cbn. rewrite peek_store.
    rewrite (proj2 (Z.leb_le _ _)), (proj2 (Z.ltb_lt _ _)) by (unfold len; lia). cbn [andb].
    replace (Z.to_nat (a + (0 + Z.of_nat i) - a)) with i by lia.
    destruct (lookup_lt_is_Some_2 bs i Hi) as [x ->]. done.
  - rewrite lookup_seqZ_ge by (unfold len; lia). cbn. symmetry. apply lookup_ge_None_2. lia.
Qed.

Lemma peek_store_out m a bs x : x < a \/ a + len bs <= x -> peek8 (store m a bs) x = peek8 m x.
Proof.
  intros Hx. rewrite peek_store. destruct (Z.leb_spec a x), (Z.ltb_spec x (a + len bs)); try lia; done.
Qed.

Lemma load_ext m1 m2 a n :
  (forall x, a <= x < a + n -> peek8 m1 x = peek8 m2 x) -> load m1 a n = load m2 a n.
Proof.
  intros He. apply list_fmap_ext. intros i k Hk. apply lookup_seqZ in Hk as [-> Hi]. apply He. lia.
Qed.
