(* ===== verification/TmpfsTree.v ===== *)
(** * Pure path, membership and byte-cap logic of the RAM filesystem

    Models [src/src/tmpfs_tree.rs]: path normalisation, the parent walk, the
    mount-routing and descendant predicates, and the write byte-cap
    arithmetic.  Paths are byte strings. *)

From S2P Require Import Prelude.

Definition SLASH : Z := 47.
Definition DOT : Z := 46.
#[global] Arguments SLASH : simpl never.

Fixpoint starts_with (p pre : list Z) {struct pre} : bool :=
  match pre, p with
  | [], _ => true
  | c :: pre', d :: p' => (c =? d) && starts_with p' pre'
  | _ :: _, [] => false
  end.

(** The [while v.len() > 1 && last == '/' { v.pop() }] loop, on the vector
    with its last byte first. *)
Fixpoint pop_slashes (r : list Z) : list Z :=
  match r with
  | [] => []
  | c :: r' => if (1 <? len r) && (c =? SLASH) then pop_slashes r' else r
  end.

Definition norm (path : list Z) : list Z :=
  let p := if starts_with path [DOT; SLASH] then tail path else path in
  let v := if starts_with p [SLASH] then p else SLASH :: p in
  reverse (pop_slashes (reverse v)).

(** [path.iter().rposition(|c| c == '/')]. *)
Fixpoint rposition_slash (path : list Z) : option nat :=
  match path with
  | [] => None
  | c :: path' =>
      match rposition_slash path' with
      | Some i => Some (S i)
      | None => if c =? SLASH then Some 0%nat else None
      end
  end.

Definition parent (path : list Z) : list Z :=
  match rposition_slash path with
  | Some 0%nat => [SLASH]
  | Some i => take i path
  | None => [SLASH]
  end.

Definition TMP : list Z := bstr "/tmp".
Definition DEV_SHM : list Z := bstr "/dev/shm".

Definition is_mount_path (n : list Z) : bool :=
  bool_decide (n = TMP) || starts_with n (bstr "/tmp/")
  || bool_decide (n = DEV_SHM) || starts_with n (bstr "/dev/shm/").

(** The index is in range when the first two tests pass, so it cannot panic. *)
Definition is_under (key dir : list Z) : bool :=
  (len key >? len dir) && starts_with key dir
  && match key !! length dir with Some c => c =? SLASH | None => false end.

Definition grant_write (total cap at_ len_ count : Z) : Z :=
  let allowed_grow := saturating_sub cap total in
  let max_n :=
    if at_ >=? len_ then saturating_sub allowed_grow (at_ ⊟ len_)
    else (len_ ⊟ at_) ⊞ allowed_grow in
  Z.min count max_n.

(** ** Specifications *)

(** A path in normal form: absolute, and without a trailing slash unless it is
    the root. *)
Definition normal (p : list Z) : Prop :=
  head p = Some SLASH /\ (p = [SLASH] \/ last p <> Some SLASH).

(** [d] is reached from [k] by one or more [parent] steps. *)
Inductive ancestor (d : list Z) : list Z -> Prop :=
| ancestor_parent k : parent k = d -> ancestor d k
| ancestor_step k : ancestor d (parent k) -> ancestor d k.

(** Bytes a write of [n] bytes at [at_] adds to a file of [len_] bytes. *)
Definition grow (at_ len_ n : Z) : Z := Z.max 0 (at_ + n - len_).

(** ** Lemmas *)
Lemma starts_with_spec p pre : starts_with p pre = true <-> exists r, p = pre ++ r.
Proof.
  revert p. induction pre as [|c pre IH]; intros p; simpl.
  - split; [by exists p|done].
  - destruct p as [|d p].
    + split; [done|]. by intros [r ?].
    + rewrite andb_true_iff, Z.eqb_eq, IH. split.
      * intros [-> [r ->]]. by exists r.
      * intros [r [= -> ->]]. eauto.
Qed.

Lemma is_under_spec k d : is_under k d = true <-> exists r, k = d ++ SLASH :: r.
Proof.
  unfold is_under. rewrite !andb_true_iff, starts_with_spec. split.
  - intros [[Hl [r ->]] Hc]. exists (tail r).
    rewrite lookup_app_r, Nat.sub_diag in Hc by lia.
    destruct r as [|c r]; simpl in *; [done|]. apply Z.eqb_eq in Hc. by subst.
  - intros [r ->]. rewrite len_app, len_cons. pose proof (len_nonneg r).
    split; [split; [lia|by eexists]|].
    by rewrite lookup_app_r, Nat.sub_diag by lia.
Qed.

Lemma is_under_trans a b c :
  is_under a b = true -> is_under b c = true -> is_under a c = true.
Proof.
  rewrite !is_under_spec. intros [r ->] [q ->]. exists (q ++ SLASH :: r).
  by rewrite <- app_assoc.
Qed.

Lemma is_under_irrefl a : is_under a a = false.
Proof.
  apply not_true_iff_false. rewrite is_under_spec. intros [r Hr].
  apply (f_equal length) in Hr. rewrite length_app in Hr. simpl in Hr. lia.
Qed.

Lemma is_mount_path_spec n :
  is_mount_path n = true <->
  n = TMP \/ n = DEV_SHM \/ is_under n TMP = true \/ is_under n DEV_SHM = true.
Proof.
  unfold is_mount_path. rewrite !orb_true_iff, !bool_decide_eq_true.
  rewrite !starts_with_spec, !is_under_spec.
  assert (forall r, bstr "/tmp/" ++ r = TMP ++ SLASH :: r) as H1 by done.
  assert (forall r, bstr "/dev/shm/" ++ r = DEV_SHM ++ SLASH :: r) as H2 by done.
  setoid_rewrite H1. setoid_rewrite H2. tauto.
Qed.

Lemma pop_slashes_spec r :
  head (pop_slashes r) <> Some SLASH \/ pop_slashes r = [SLASH].
Proof.
  induction r as [|c r IH]; simpl; [by left|].
  destruct (Z.eqb_spec c SLASH) as [->|Hc].
  - destruct (Z.ltb_spec 1 (len (SLASH :: r))) as [Hl|Hl]; simpl; [done|].
    rewrite len_cons in Hl. right. f_equal. apply len_zero_nil.
    pose proof (len_nonneg r). lia.
  - rewrite andb_false_r. left. simpl. congruence.
Qed.

(** The loop only drops slashes from the end and keeps the first byte. *)
Lemma pop_slashes_last r : last (pop_slashes r) = last r.
Proof.
  induction r as [|c r IH]; simpl; [done|].
  destruct (Z.ltb_spec 1 (len (c :: r))) as [Hl|Hl]; simpl; [|done].
  case_match; [|done]. rewrite IH. destruct r; [|done].
  rewrite len_cons, len_nil in Hl. lia.
Qed.

Lemma pop_slashes_fixed r :
  head r <> Some SLASH \/ r = [SLASH] -> pop_slashes r = r.
Proof.
  intros [H| ->]; [|done]. destruct r as [|c r]; [done|]. simpl in *.
  destruct (Z.eqb_spec c SLASH); [congruence|]. by rewrite andb_false_r.
Qed.

Lemma last_reverse {A} (l : list A) : last (reverse l) = head l.
Proof. destruct l; [done|]. by rewrite reverse_cons, last_snoc. Qed.

Lemma head_reverse {A} (l : list A) : head (reverse l) = last l.
Proof. rewrite <- (reverse_involutive l) at 2. by rewrite last_reverse. Qed.

Lemma norm_normal p : normal (norm p).
Proof.
  unfold norm.
  set (q := if starts_with p [DOT; SLASH] then tail p else p).
  set (v := if starts_with q [SLASH] then q else SLASH :: q).
  assert (head v = Some SLASH) as Hv.
  { subst v. clearbody q. destruct q as [|c q]; [done|]. cbn [starts_with].
    destruct (Z.eqb_spec SLASH c); simpl; by subst. }
  split.
  - by rewrite head_reverse, pop_slashes_last, last_reverse.
  - rewrite last_reverse. destruct (pop_slashes_spec (reverse v)) as [H| ->]; [by right|by left].
Qed.

Lemma norm_fixed p : normal p -> norm p = p.
Proof.
  intros [Hh Hl]. unfold norm. destruct p as [|c p]; [done|].
  simpl in Hh. injection Hh as ->. simpl starts_with. cbn iota.
  rewrite pop_slashes_fixed; [apply reverse_involutive|].
  rewrite head_reverse. destruct Hl as [->|]; [by right|by left].
Qed.

Lemma rposition_slash_none p : rposition_slash p = None <-> SLASH ∉ p.
Proof.
  induction p as [|c p IH]; simpl; [by split; [intros _ ?%elem_of_nil|]|].
  rewrite not_elem_of_cons. destruct (rposition_slash p).
  - split; [done|]. intros [_ H]. by apply IH in H.
  - destruct (Z.eqb_spec c SLASH); split; intuition congruence.
Qed.

Lemma rposition_slash_some p i :
  rposition_slash p = Some i <-> exists a b, p = a ++ SLASH :: b /\ length a = i /\ SLASH ∉ b.
Proof.
  revert i. induction p as [|c p IH]; intros i; simpl.
  { split; [done|]. by intros (a & b & H%app_cons_not_nil & _). }
  destruct (rposition_slash p) as [j|] eqn:E.
  - destruct (IH j) as [H _]. destruct H as (a & b & -> & <- & Hb); [done|]. split.
    + intros [= <-]. by exists (c :: a), b.
    + intros (a' & b' & Heq & <- & Hb').
      destruct a' as [|x a']; simplify_eq/=; [set_solver|].
      assert (Some (length a) = Some (length a')) as [= ->]; [|done].
      apply IH. eauto.
  - apply rposition_slash_none in E. destruct (Z.eqb_spec c SLASH); split.
    + intros [= <-]. exists [], p. by subst.
    + intros (a' & b' & Heq & <- & Hb').
      destruct a' as [|x a']; simplify_eq/=; [done|set_solver].
    + done.
    + intros (a' & b' & Heq & <- & Hb').
      destruct a' as [|x a']; simplify_eq/=; set_solver.
Qed.

(** [parent] cuts at the last slash. *)
Lemma parent_cut a b : SLASH ∉ b -> a <> [] -> parent (a ++ SLASH :: b) = a.
Proof.
  intros Hb Ha. unfold parent.
  rewrite (proj2 (rposition_slash_some _ (length a))) by eauto.
  destruct a as [|x a]; [done|]. simpl length. cbn iota.
  by rewrite take_app_length'.
Qed.

Lemma parent_inv k d : parent k = d -> d <> [SLASH] ->
  exists b, k = d ++ SLASH :: b /\ SLASH ∉ b.
Proof.
  unfold parent. destruct (rposition_slash k) as [i|] eqn:E; [|congruence].
  apply rposition_slash_some in E as (a & b & -> & <- & Hb).
  destruct a as [|x a]; simpl; [congruence|]. intros <- _. exists b.
  by rewrite take_app_length.
Qed.

Lemma ancestor_is_under d k : d <> [] -> d <> [SLASH] -> ancestor d k -> is_under k d = true.
Proof.
  intros Hd Hd'. induction 1 as [k Hk|k _ IH].
  - apply parent_inv in Hk as (b & -> & _); [|done]. apply is_under_spec. eauto.
  - destruct (decide (parent k = [SLASH])) as [E|E].
    + rewrite E in IH. apply is_under_spec in IH as [r Hr].
      destruct d as [|x [|y d]]; simplify_eq/=.
    + apply (is_under_trans _ (parent k)); [|done]. apply is_under_spec.
      destruct (parent_inv k (parent k)) as (b & Hb & _); [done|done|]. by exists b.
Qed.

Lemma is_under_ancestor d k : d <> [] -> is_under k d = true -> ancestor d k.
Proof.
  intros Hd. rewrite is_under_spec. intros [r ->].
  induction r as [r IH] using (induction_ltof1 _ length). unfold ltof in IH.
  destruct (rposition_slash r) as [i|] eqn:E.
  - apply rposition_slash_some in E as (a & b & -> & <- & Hb).
    apply ancestor_step.
    rewrite app_comm_cons, app_assoc, parent_cut; [|done|by destruct d].
    apply IH. rewrite length_app. simpl. lia.
  - apply rposition_slash_none in E. apply ancestor_parent. by apply parent_cut.
Qed.

(** ** Properties *)

(** [norm] computes a canonical form: its result is always absolute and
    without trailing slash (root excepted), paths already in normal form are
    exactly its fixed points, and so it is idempotent. *)
Theorem norm_canonical p :
  normal (norm p) /\ norm (norm p) = norm p /\ (normal p <-> norm p = p).
Proof.
  split; [apply norm_normal|]. split; [apply norm_fixed, norm_normal|].
  split; [apply norm_fixed|]. intros <-. apply norm_normal.
Qed.

(** The descendant test used by rmdir and rename, a byte-prefix check, is
    exactly the ancestor relation of the [parent] walk: [is_under k d] holds
    iff [d] is reached from [k] by one or more parent steps. *)
Theorem is_under_iff_ancestor k d :
  d <> [] -> d <> [SLASH] -> is_under k d = true <-> ancestor d k.
Proof.
  split; [by apply is_under_ancestor|by apply ancestor_is_under].
Qed.

Lemma is_under_iff_ancestor_witness :
  is_under (bstr "/tmp/a/b") (bstr "/tmp") = true <-> ancestor (bstr "/tmp") (bstr "/tmp/a/b").
Proof. apply (is_under_iff_ancestor (bstr "/tmp/a/b") (bstr "/tmp")); by vm_compute. Defined.

(** [grant_write] is the optimal grant: it never exceeds the request, a
    non-zero grant fits the byte budget (the zero-filled gap of a sparse write
    included), and no larger count up to the request would fit. *)
Theorem grant_write_optimal total cap at_ len_ count :
  0 <= total < 2 ^ 64 -> 0 <= cap <= isize_max -> 0 <= at_ < 2 ^ 64 ->
  0 <= len_ <= isize_max -> 0 <= count < 2 ^ 64 ->
  let n := grant_write total cap at_ len_ count in
  let budget := saturating_sub cap total in
  0 <= n <= count
  /\ (0 < n -> grow at_ len_ n <= budget)
  /\ (forall m, 0 < m <= count -> grow at_ len_ m <= budget -> m <= n).
Proof.
  unfold isize_max. intros.
  unfold grant_write, grow, saturating_sub in *.
  destruct (Z.geb_spec at_ len_).
  - rewrite u64_small by lia. repeat split; intros; lia.
  - rewrite (u64_small (len_ - at_)), u64_small by lia. repeat split; intros; lia.
Qed.

Lemma grant_write_optimal_witness :
  grant_write 10 10 8 10 5 = 2 /\ 0 <= grant_write 10 10 8 10 5 <= 5.
Proof.
  split; [by vm_compute|].
  by apply (grant_write_optimal 10 10 8 10 5).
Defined.
