(* ===== verification/Paging.v ===== *)
(** * The splittable identity map

    Models [src/src/memory/paging.rs].  Page tables live in physical memory,
    modelled as words indexed by the physical base of a table and an entry
    number; the addresses of the static tables are fixed by the linker and are
    the fields of the class [Layout].  [hw_walk] is the processor's address
    translation (the architecture, not the kernel), against which the
    kernel's tables are judged.  TLB maintenance ([invlpg]) is not modelled:
    translations always read the current tables. *)

From S2P Require Import Prelude.

Definition PAGE_PRESENT : Z := 1.
Definition PAGE_WRITABLE : Z := 2.
Definition PAGE_USER : Z := 4.
Definition PAGE_HUGE : Z := 128.
Definition PAGE_NX : Z := 2 ^ 63.
Definition ADDR_MASK : Z := 0x000ffffffffff000.
Definition GIB : Z := 0x40000000.
Definition TWO_MIB : Z := 0x200000.
Definition FOUR_KIB : Z := 0x1000.
Definition MAX_SPLIT_PTS : Z := 16.
Definition KSTACK_ARENA_BASE : Z := 0x07000000.
Definition KSTACK_ARENA_SIZE : Z := 16 * 1024 * 1024.
Definition LOW_SCRATCH_FRAMES : Z := 16.

(** Link-time addresses of [PML4], [PDPT], [PDS], [SPLIT_PTS], [LOW_SCRATCH]. *)
Class Layout := {
  pml4_base : Z;
  pdpt_base : Z;
  pds_base : Z;
  split_base : Z;
  scratch_base : Z;
}.

(** [PDS[g]], [SPLIT_PTS[s]] and [LOW_SCRATCH[k]]: arrays of 4 KiB elements. *)
Definition PDS `{Layout} (g : Z) : Z := pds_base + 4096 * g.
Definition SPLIT `{Layout} (s : Z) : Z := split_base + 4096 * s.
Definition LOW_SCRATCH `{Layout} (k : Z) : Z := scratch_base + 4096 * k.

(** The statics of the module; [mem] holds the table words (zero in .bss). *)
Record tables := mkTables {
  mem : gmap (Z * Z) Z;
  split_next : Z;
  low_next : Z;
  cr3 : Z;
}.

Definition rd (st : tables) (tbl i : Z) : Z := default 0 (mem st !! (tbl, i)).
Definition wr (tbl i v : Z) (st : tables) : tables :=
  mkTables (<[(tbl, i) := v]> (mem st)) (split_next st) (low_next st) (cr3 st).
Definition boot_tables : tables := mkTables ∅ 0 0 0.

Notation "a .| b" := (Z.lor a b) (at level 50, left associativity) : mach_scope.
Notation "a .& b" := (Z.land a b) (at level 45, left associativity) : mach_scope.

Section Paging.
Context `{Layout}.

Definition ensure_pt (addr : Z) (st : tables) : tables * Z :=
  let gib := addr / GIB in
  let pd_idx := (addr mod GIB) / TWO_MIB in
  if gib >=? 4 then (st, 0) else
  let pd := PDS gib in
  if negb (rd st pd pd_idx .& PAGE_HUGE =? 0) then
    let slot := split_next st in
    let st := mkTables (mem st) (slot ⊞ 1) (low_next st) (cr3 st) in
    if slot >=? MAX_SPLIT_PTS then (st, 0) else
    let pt := SPLIT slot in
    let region_base := addr .& Z.lnot (TWO_MIB - 1) in
    let st := for_range 512 0
      (fun j => wr pt j ((region_base + j * FOUR_KIB) .| PAGE_PRESENT .| PAGE_WRITABLE)) st in
    let st := wr pd pd_idx (pt .| PAGE_PRESENT .| PAGE_WRITABLE) st in
    (st, rd st pd pd_idx .& ADDR_MASK)
  else (st, rd st pd pd_idx .& ADDR_MASK).

Definition apply_attrs (entry : Z) (us nx : bool) : Z :=
  let v := if us then entry .| PAGE_USER else entry .& Z.lnot PAGE_USER in
  if nx then v .| PAGE_NX else v .& Z.lnot PAGE_NX.

Definition mark_user_covering_levels (addr : Z) (st : tables) : tables :=
  let gib := addr / GIB in
  if gib >=? 4 then st else
  let st := wr pml4_base 0 (rd st pml4_base 0 .| PAGE_USER) st in
  if negb (rd st pdpt_base gib .& PAGE_HUGE =? 0) then st else
  let st := wr pdpt_base gib (rd st pdpt_base gib .| PAGE_USER) st in
  let pd := PDS gib in
  let pd_idx := (addr mod GIB) / TWO_MIB in
  if negb (rd st pd pd_idx .& PAGE_HUGE =? 0) then st else
  wr pd pd_idx (rd st pd pd_idx .| PAGE_USER) st.

(** One iteration of [set_attrs] below GiB 4, after the skip test. *)
Definition set_attrs_region (a : Z) (us nx : bool) (st : tables) : tables :=
  let gib := a / GIB in
  let st := if us then mark_user_covering_levels a st else st in
  let pd := PDS gib in
  let pd_idx := (a mod GIB) / TWO_MIB in
  let e := rd st pd pd_idx in
  if e =? 0 then st
  else if negb (e .& PAGE_HUGE =? 0) then wr pd pd_idx (apply_attrs e us nx) st
  else
    let pt := e .& ADDR_MASK in
    for_range 512 0 (fun j st =>
      if negb (rd st pt j .& PAGE_PRESENT =? 0)
      then wr pt j (apply_attrs (rd st pt j) us nx) st else st) st.

(** The [while a < end] loop; every iteration that does not break advances by
    2 MiB, so [fuel] iterations suffice when [fuel * 2 MiB >= end - a]. *)
Fixpoint set_attrs_loop (fuel : nat) (a end_ : Z) (us nx : bool) (st : tables) : tables :=
  match fuel with
  | O => st
  | S fuel' =>
      if a <? end_ then
        let gib := a / GIB in
        if gib >=? 4 then st
        else if negb (rd st pdpt_base gib .& PAGE_HUGE =? 0)
        then set_attrs_loop fuel' (a + TWO_MIB) end_ us nx st
        else set_attrs_loop fuel' (a + TWO_MIB) end_ us nx (set_attrs_region a us nx st)
      else st
  end.

Definition set_attrs (start end_ : Z) (us nx : bool) (st : tables) : tables :=
  let a := start .& Z.lnot (TWO_MIB - 1) in
  set_attrs_loop (Z.to_nat ((end_ - a) / TWO_MIB + 1)) a end_ us nx st.

(** The default build: the [stage2_shim] feature is off. *)
Definition attribute_regions (st : tables) : tables :=
  let st := set_attrs 0x00400000 0x07000000 true false st in
  let st := set_attrs 0x0E000000 0x0E200000 true true st in
  let st := set_attrs 0x1A000000 0x40000000 true false st in
  set_attrs 0x0F200000 0x1A000000 false true st.

(** The 2 MiB page directory of GiB 0. *)
Definition init_pd0 (st : tables) : tables :=
  for_range 512 0 (fun i =>
    wr (PDS 0) i ((i * TWO_MIB) .| PAGE_PRESENT .| PAGE_WRITABLE .| PAGE_HUGE)) st.

(** The 1 GiB entries of GiB 1-3. *)
Definition init_gibs (st : tables) : tables :=
  for_range 3 1 (fun gib =>
    let e := (gib * GIB) .| PAGE_PRESENT .| PAGE_WRITABLE .| PAGE_HUGE in
    wr pdpt_base gib (if gib <? 3 then e .| PAGE_USER else e)) st.

(** The [while off < KSTACK_ARENA_SIZE] pre-split: 8 regions of 2 MiB. *)
Definition init_arena (st : tables) : tables :=
  for_range (Z.to_nat (KSTACK_ARENA_SIZE / TWO_MIB)) 0 (fun k st =>
    fst (ensure_pt (KSTACK_ARENA_BASE + k * TWO_MIB) st)) st.

Definition init (st : tables) : tables :=
  let st := init_pd0 st in
  let st := wr pdpt_base 0 (PDS 0 .| PAGE_PRESENT .| PAGE_WRITABLE .| PAGE_USER) st in
  let st := init_gibs st in
  let st := wr pml4_base 0 (pdpt_base .| PAGE_PRESENT .| PAGE_WRITABLE .| PAGE_USER) st in
  let st := init_arena st in
  let st := fst (ensure_pt 0 st) in
  let st := attribute_regions st in
  mkTables (mem st) (split_next st) (low_next st) pml4_base.

Definition set_page_us (addr : Z) (us : bool) (st : tables) : tables :=
  let page := addr .& Z.lnot (FOUR_KIB - 1) in
  let '(st, pt) := ensure_pt page st in
  if pt =? 0 then st else
  let st := if us then mark_user_covering_levels page st else st in
  let idx := (page mod TWO_MIB) / FOUR_KIB in
  let e := rd st pt idx in
  wr pt idx (if us then e .| PAGE_USER else e .& Z.lnot PAGE_USER) st.

Definition map_low_scratch (addr : Z) (st : tables) : tables * bool :=
  let page := addr .& Z.lnot (FOUR_KIB - 1) in
  if page >=? TWO_MIB then (st, false) else
  let slot := low_next st in
  let st := mkTables (mem st) (split_next st) (slot ⊞ 1) (cr3 st) in
  if slot >=? LOW_SCRATCH_FRAMES then (st, false) else
  let '(st, pt) := ensure_pt page st in
  if pt =? 0 then (st, false) else
  let st := mark_user_covering_levels page st in
  let frame := LOW_SCRATCH slot in
  let idx := (page mod TWO_MIB) / FOUR_KIB in
  (wr pt idx ((frame .& ADDR_MASK) .| PAGE_PRESENT .| PAGE_WRITABLE .| PAGE_USER) st, true).

(** [e & PU == PU]. *)
Definition present_user (e : Z) : bool :=
  let PU := PAGE_PRESENT .| PAGE_USER in e .& PU =? PU.

Definition page_is_user (st : tables) (addr : Z) : bool :=
  let e := rd st pml4_base (Z.shiftr addr 39 .& 0x1ff) in
  if negb (present_user e) then false else
  let e := rd st (e .& ADDR_MASK) (Z.shiftr addr 30 .& 0x1ff) in
  if negb (present_user e) then false else
  if negb (e .& PAGE_HUGE =? 0) then true else
  let e := rd st (e .& ADDR_MASK) (Z.shiftr addr 21 .& 0x1ff) in
  if negb (present_user e) then false else
  if negb (e .& PAGE_HUGE =? 0) then true else
  let e := rd st (e .& ADDR_MASK) (Z.shiftr addr 12 .& 0x1ff) in
  present_user e.

(** The [while a < end] page loop. *)
Fixpoint user_pages_loop (fuel : nat) (st : tables) (a end_ : Z) : bool :=
  match fuel with
  | O => true
  | S fuel' =>
      if a <? end_ then
        if negb (page_is_user st a) then false
        else user_pages_loop fuel' st (a + FOUR_KIB) end_
      else true
  end.

Definition user_accessible (st : tables) (addr len_ : Z) : bool :=
  if len_ =? 0 then true else
  match checked_add addr len_ with
  | None => false
  | Some end_ =>
      if end_ >? 4 * GIB then false else
      let a := addr .& Z.lnot (FOUR_KIB - 1) in
      user_pages_loop (Z.to_nat ((end_ - a) / FOUR_KIB + 1)) st a end_
  end.

Definition map_guard_page (addr : Z) (st : tables) : tables * Z :=
  let page := addr .& Z.lnot (FOUR_KIB - 1) in
  let '(st, pt) := ensure_pt page st in
  if pt =? 0 then (st, 0) else
  let pte_idx := (page mod TWO_MIB) / FOUR_KIB in
  (wr pt pte_idx 0 st, page).

End Paging.

(** ** The processor's translation *)

(** What a successful walk yields: the physical address, and the effective
    permissions (US and W are the conjunction over the levels, NX the
    disjunction). *)
Record xlate := mkXlate { x_phys : Z; x_user : bool; x_write : bool; x_nx : bool }.

Definition e_present (e : Z) : bool := Z.testbit e 0.
Definition e_write (e : Z) : bool := Z.testbit e 1.
Definition e_user (e : Z) : bool := Z.testbit e 2.
Definition e_huge (e : Z) : bool := Z.testbit e 7.
Definition e_nx (e : Z) : bool := Z.testbit e 63.
Definition e_addr (e : Z) : Z := Z.land e ADDR_MASK.

(** The leaf of size [size]: its base field with the offset of [addr]. *)
Definition leaf_at (size addr e : Z) (u w x : bool) : xlate :=
  mkXlate (e_addr e / size * size + addr mod size) (u && e_user e) (w && e_write e) (x || e_nx e).

Definition hw_walk (st : tables) (addr : Z) : option xlate :=
  let e4 := rd st (cr3 st) ((addr / 2 ^ 39) mod 512) in
  if negb (e_present e4) then None else
  let e3 := rd st (e_addr e4) ((addr / 2 ^ 30) mod 512) in
  if negb (e_present e3) then None else
  let u3 := e_user e4 && e_user e3 in
  let w3 := e_write e4 && e_write e3 in
  let x3 := e_nx e4 || e_nx e3 in
  if e_huge e3 then Some (leaf_at GIB addr e3 (e_user e4) (e_write e4) (e_nx e4)) else
  let e2 := rd st (e_addr e3) ((addr / 2 ^ 21) mod 512) in
  if negb (e_present e2) then None else
  if e_huge e2 then Some (leaf_at TWO_MIB addr e2 u3 w3 x3) else
  let e1 := rd st (e_addr e2) ((addr / 2 ^ 12) mod 512) in
  if negb (e_present e1) then None else
  Some (leaf_at FOUR_KIB addr e1 (u3 && e_user e2) (w3 && e_write e2) (x3 || e_nx e2)).
