(* ===== verification/PagingRefine.v ===== *)
(** * Refinement of the page tables by an abstract page map

    The tables built and edited by the paging layer are related ([repr]) to an
    abstract map from 4 KiB page numbers of GiB 0 to leaves.  Every operation
    is shown to act on the abstract map as intended, and the processor's walk
    of the tables to be a lookup in it; confinement follows. *)

From S2P Require Import Prelude Paging.

(** ** Page-table words *)

(** A frame or table address an entry can hold. *)
Definition aligned (b : Z) : Prop := 0 <= b < 2 ^ 52 /\ b mod 4096 = 0.

Definition flags (u x h : bool) : Z :=
  3 + (if u then 4 else 0) + (if h then 128 else 0) + (if x then 2 ^ 63 else 0).

(** The present, writable entry for [b] with the given US, NX and PS bits. *)
Definition enc (b : Z) (u x h : bool) : Z := Z.lor b (flags u x h).

Lemma al_bit b i : aligned b -> i < 12 \/ 52 <= i -> Z.testbit b i = false.
Proof.
  intros [Hb Hm] Hi. destruct (Z.ltb_spec i 0); [by apply Z.testbit_neg_r|].
  destruct Hi.
  - rewrite <- (Z.mod_pow2_bits_low b 12) by lia.
    change (2 ^ 12) with 4096. by rewrite Hm, Z.bits_0.
  - rewrite <- (Z.mod_small b (2 ^ 52)) by lia. by apply Z.mod_pow2_bits_high.
Qed.

Lemma al_land_low b m : aligned b -> 0 <= m < 4096 -> Z.land b m = 0.
Proof.
  intros Hb Hm. apply Z.bits_inj'. intros i Hi. rewrite Z.land_spec, Z.bits_0.
  destruct (Z.ltb_spec i 12).
  - by rewrite al_bit by auto.
  - rewrite <- (Z.mod_small m (2 ^ 12)) by lia.
    by rewrite Z.mod_pow2_bits_high, andb_false_r by lia.
Qed.

Lemma al_land_nx b : aligned b -> Z.land b PAGE_NX = 0.
Proof.
  intros Hb. apply Z.bits_inj'. intros i Hi. rewrite Z.land_spec, Z.bits_0.
  unfold PAGE_NX. rewrite Z.pow2_bits_eqb by lia.
  destruct (Z.eqb_spec 63 i) as [<-|]; [by rewrite al_bit by (auto; lia)|apply andb_false_r].
Qed.

Lemma al_land_lnot b m : Z.land b m = 0 -> Z.land b (Z.lnot m) = b.
Proof.
  intros Hm. rewrite <- Z.ldiff_land. apply Z.bits_inj'. intros i Hi.
  rewrite Z.ldiff_spec. apply (f_equal (fun z => Z.testbit z i)) in Hm.
  rewrite Z.land_spec, Z.bits_0 in Hm. by destruct (Z.testbit b i), (Z.testbit m i).
Qed.

Lemma al_mask b : aligned b -> Z.land b ADDR_MASK = b.
Proof.
  intros Hb. apply Z.bits_inj'. intros i Hi. rewrite Z.land_spec.
  change ADDR_MASK with (Z.shiftl (Z.ones 40) 12).
  destruct (decide (12 <= i < 52)).
  - rewrite Z.shiftl_spec, Z.ones_spec_low, andb_true_r by lia. done.
  - by rewrite al_bit by (auto; lia).
Qed.

Section Words.
Context (b : Z) (Hb : aligned b).

Lemma enc_huge u x h : (Z.land (enc b u x h) PAGE_HUGE =? 0) = negb h.
Proof.
  unfold enc. rewrite Z.land_lor_distr_l, al_land_low by (auto; done).
  by destruct u, x, h.
Qed.

Lemma enc_pbit u x h : (Z.land (enc b u x h) PAGE_PRESENT =? 0) = false.
Proof.
  unfold enc. rewrite Z.land_lor_distr_l, al_land_low by (auto; done).
  by destruct u, x, h.
Qed.

Lemma enc_present_user u x h : present_user (enc b u x h) = u.
Proof.
  unfold present_user, enc. rewrite Z.land_lor_distr_l, al_land_low by (auto; done).
  by destruct u, x, h.
Qed.

Lemma enc_addr u x h : Z.land (enc b u x h) ADDR_MASK = b.
Proof.
  unfold enc. rewrite Z.land_lor_distr_l, al_mask by done.
  replace (Z.land (flags u x h) ADDR_MASK) with 0 by by destruct u, x, h.
  apply Z.lor_0_r.
Qed.

Lemma enc_bits u x h :
  e_present (enc b u x h) = true /\ e_write (enc b u x h) = true
  /\ e_user (enc b u x h) = u /\ e_huge (enc b u x h) = h /\ e_nx (enc b u x h) = x.
Proof.
  unfold e_present, e_write, e_user, e_huge, e_nx, enc.
  rewrite !Z.lor_spec, !(al_bit b) by (auto; lia). by destruct u, x, h.
Qed.

Lemma enc_nonzero u x h : (enc b u x h =? 0) = false.
Proof.
  apply Z.eqb_neq. intros E. pose proof (enc_pbit u x h) as Hp. by rewrite E in Hp.
Qed.

Lemma enc_or_user u x h : Z.lor (enc b u x h) PAGE_USER = enc b true x h.
Proof. unfold enc. rewrite <- Z.lor_assoc. f_equal. by destruct u, x, h. Qed.

Lemma enc_clear_user u x h : Z.land (enc b u x h) (Z.lnot PAGE_USER) = enc b false x h.
Proof.
  unfold enc. rewrite Z.land_lor_distr_l, al_land_lnot by by apply al_land_low.
  f_equal. by destruct u, x, h.
Qed.

Lemma enc_or_nx u x h : Z.lor (enc b u x h) PAGE_NX = enc b u true h.
Proof. unfold enc. rewrite <- Z.lor_assoc. f_equal. by destruct u, x, h. Qed.

Lemma enc_clear_nx u x h : Z.land (enc b u x h) (Z.lnot PAGE_NX) = enc b u false h.
Proof.
  unfold enc. rewrite Z.land_lor_distr_l, al_land_lnot by by apply al_land_nx.
  f_equal. by destruct u, x, h.
Qed.

Lemma enc_apply u x h us nx : apply_attrs (enc b u x h) us nx = enc b us nx h.
Proof.
  unfold apply_attrs.
  destruct us, nx; rewrite ?enc_or_user, ?enc_clear_user, ?enc_or_nx, ?enc_clear_nx; done.
Qed.

End Words.

Lemma enc_leaf2m b : b .| PAGE_PRESENT .| PAGE_WRITABLE .| PAGE_HUGE = enc b false false true.
Proof. unfold enc. by rewrite <- !Z.lor_assoc. Qed.

Lemma enc_leaf4k b : b .| PAGE_PRESENT .| PAGE_WRITABLE = enc b false false false.
Proof. unfold enc. by rewrite <- !Z.lor_assoc. Qed.

Lemma enc_user4k b : b .| PAGE_PRESENT .| PAGE_WRITABLE .| PAGE_USER = enc b true false false.
Proof. unfold enc. by rewrite <- !Z.lor_assoc. Qed.

(** ** Table memory *)
Lemma rd_wr_eq st t i v : rd (wr t i v st) t i = v.
Proof. unfold rd, wr. simpl. by rewrite lookup_insert_eq. Qed.

Lemma rd_wr_ne st t i v t' i' : t <> t' \/ i <> i' -> rd (wr t i v st) t' i' = rd st t' i'.
Proof. intros H. unfold rd, wr. simpl. rewrite lookup_insert_ne; [done|]. intros [=]. tauto. Qed.

(** Filling a table: entries of other tables are untouched. *)
Lemma fill_spec (n : nat) t (f : Z -> Z) st :
  let st' := for_range n 0 (fun j => wr t j (f j)) st in
  (forall j, 0 <= j < Z.of_nat n -> rd st' t j = f j)
  /\ (forall t' j, t' <> t -> rd st' t' j = rd st t' j)
  /\ split_next st' = split_next st /\ low_next st' = low_next st /\ cr3 st' = cr3 st.
Proof.
  pose proof (for_range_ind (fun k s =>
    (forall j, 0 <= j < k -> rd s t j = f j)
    /\ (forall t' j, t' <> t -> rd s t' j = rd st t' j)
    /\ split_next s = split_next st /\ low_next s = low_next st /\ cr3 s = cr3 st)
    n 0 (fun j => wr t j (f j)) st) as Hi.
  cbn zeta. rewrite Z.add_0_l in Hi. apply Hi; clear Hi.
  - repeat split; auto. lia.
  - intros k s Hk (H1 & H2 & H3). split; [|split; [|done]].
    + intros j Hj. destruct (decide (j = k)) as [->|]; [by rewrite rd_wr_eq|].
      rewrite rd_wr_ne by auto. apply H1. lia.
    + intros t' j Ht. rewrite rd_wr_ne by auto. by apply H2.
Qed.

Lemma round_down a n : 0 <= n -> Z.land a (Z.lnot (Z.ones n)) = a / 2 ^ n * 2 ^ n.
Proof.
  intros Hn. rewrite <- Z.ldiff_land, Z.ldiff_ones_r by done.
  by rewrite Z.shiftl_mul_pow2, Z.shiftr_div_pow2 by done.
Qed.

Lemma round_2m a : Z.land a (Z.lnot (TWO_MIB - 1)) = a / TWO_MIB * TWO_MIB.
Proof. change (TWO_MIB - 1) with (Z.ones 21). by rewrite round_down. Qed.

Lemma round_4k a : Z.land a (Z.lnot (FOUR_KIB - 1)) = a / 4096 * 4096.
Proof. change (FOUR_KIB - 1) with (Z.ones 12). by rewrite round_down. Qed.

(** ** The abstract map *)

(** What the linker script and [repr(align(4096))] guarantee of the statics:
    page-aligned, disjoint, and inside the kernel image. *)
Class LayoutOk (L : Layout) : Prop := {
  lay_align : pml4_base mod 4096 = 0 /\ pdpt_base mod 4096 = 0 /\ pds_base mod 4096 = 0
    /\ split_base mod 4096 = 0 /\ scratch_base mod 4096 = 0;
  lay_image : 0x0F000000 <= pml4_base <= 0x1A000000 - 4096
    /\ 0x0F000000 <= pdpt_base <= 0x1A000000 - 4096
    /\ 0x0F000000 <= pds_base <= 0x1A000000 - 4 * 4096
    /\ 0x0F000000 <= split_base <= 0x1A000000 - 16 * 4096
    /\ 0x0F000000 <= scratch_base <= 0x1A000000 - 16 * 4096;
  lay_pml4 : pml4_base <> pdpt_base
    /\ (pml4_base < pds_base \/ pds_base + 4 * 4096 <= pml4_base)
    /\ (pml4_base < split_base \/ split_base + 16 * 4096 <= pml4_base)
    /\ (pml4_base < scratch_base \/ scratch_base + 16 * 4096 <= pml4_base);
  lay_pdpt : (pdpt_base < pds_base \/ pds_base + 4 * 4096 <= pdpt_base)
    /\ (pdpt_base < split_base \/ split_base + 16 * 4096 <= pdpt_base)
    /\ (pdpt_base < scratch_base \/ scratch_base + 16 * 4096 <= pdpt_base);
  lay_pds : (pds_base + 4 * 4096 <= split_base \/ split_base + 16 * 4096 <= pds_base)
    /\ (pds_base + 4 * 4096 <= scratch_base \/ scratch_base + 16 * 4096 <= pds_base)
    /\ (split_base + 16 * 4096 <= scratch_base \/ scratch_base + 16 * 4096 <= split_base);
}.

(** A present, writable 4 KiB leaf. *)
Record leaf := mkLeaf { l_frame : Z; l_user : bool; l_nx : bool }.
(** Pages of GiB 0, by number; [None] is not present. *)
Definition pmap : Type := Z -> option leaf.

(** A PTE below a PDE whose US bit is [ud].  The last conjunct is the
    US-across-levels invariant: a user leaf is never masked by its PDE. *)
Definition pte_ok (ud : bool) (o : option leaf) (e : Z) : Prop :=
  match o with
  | None => e = 0
  | Some l => aligned (l_frame l) /\ e = enc (l_frame l) (l_user l) (l_nx l) false
              /\ (l_user l = true -> ud = true)
  end.

(** The 2 MiB region [i] of GiB 0, whole or split into the table [SPLIT s]. *)
Definition region_ok `{Layout} (A : pmap) (o : option Z) (st : tables) (i : Z) : Prop :=
  match o with
  | None => exists u x, rd st (PDS 0) i = enc (i * TWO_MIB) u x true
      /\ forall j, 0 <= j < 512 -> A (512 * i + j) = Some (mkLeaf ((512 * i + j) * 4096) u x)
  | Some s => 0 <= s < 16 /\ s < split_next st /\ exists ud,
      rd st (PDS 0) i = enc (SPLIT s) ud false false
      /\ forall j, 0 <= j < 512 -> pte_ok ud (A (512 * i + j)) (rd st (SPLIT s) j)
  end.

(** The upper levels: PML4[0], PDPT[0] and the 1 GiB leaves of GiB 1-3; every
    other entry of the two tables is absent. *)
Record upper_ok `{Layout} (st : tables) : Prop := {
  up_pml4 : rd st pml4_base 0 = enc pdpt_base true false false;
  up_pdpt0 : rd st pdpt_base 0 = enc (PDS 0) true false false;
  up_gibs g : 1 <= g <= 3 -> rd st pdpt_base g = enc (g * GIB) (g <? 3) false true;
  up_pds g i : 1 <= g <= 3 -> 0 <= i < 512 -> rd st (PDS g) i = 0;
  up_pml4_rest i : 1 <= i < 512 -> rd st pml4_base i = 0;
  up_pdpt_rest g : 4 <= g < 512 -> rd st pdpt_base g = 0;
}.

Record repr `{Layout} (A : pmap) (sl : Z -> option Z) (st : tables) : Prop := {
  r_upper : upper_ok st;
  r_regions i : 0 <= i < 512 -> region_ok A (sl i) st i;
  r_inj i j s : 0 <= i < 512 -> 0 <= j < 512 -> sl i = Some s -> sl j = Some s -> i = j;
  r_next : 0 <= split_next st;
}.

(** Effect of an operation on the leaves of a region. *)
Definition relabel (us nx : bool) (o : option leaf) : option leaf :=
  match o with Some l => Some (mkLeaf (l_frame l) us nx) | None => None end.
(** Splitting forgets the attributes of the huge page. *)
Definition split_leaves (A : pmap) (i : Z) : pmap :=
  fun p => if p / 512 =? i then relabel false false (A p) else A p.

Ltac lay_facts :=
  pose proof lay_align; pose proof lay_image; pose proof lay_pml4;
  pose proof lay_pdpt; pose proof lay_pds;
  unfold PDS, SPLIT, LOW_SCRATCH in *;
  repeat match goal with H : _ /\ _ |- _ => destruct H end.

Ltac paddr := lay_facts; unfold aligned, TWO_MIB, GIB, FOUR_KIB in *; lia.

Section Refine.
Context `{HL : LayoutOk}.

Lemma pds_al g : 0 <= g < 4 -> aligned (PDS g).
Proof. intros. split; [paddr|]. lay_facts. Z.div_mod_to_equations. lia. Qed.
Lemma split_al s : 0 <= s < 16 -> aligned (SPLIT s).
Proof. intros. split; [paddr|]. lay_facts. Z.div_mod_to_equations. lia. Qed.
Lemma pdpt_al : aligned pdpt_base.
Proof. split; [paddr|]. by lay_facts. Qed.
Lemma scratch_al k : 0 <= k < 16 -> aligned (LOW_SCRATCH k).
Proof. intros. split; [paddr|]. lay_facts. Z.div_mod_to_equations. lia. Qed.
Lemma region_al i : 0 <= i < 512 -> aligned (i * TWO_MIB).
Proof. intros. split; [paddr|]. unfold TWO_MIB. Z.div_mod_to_equations. lia. Qed.
Lemma gib_al g : 0 <= g < 4 -> aligned (g * GIB).
Proof. intros. split; [paddr|]. unfold GIB. Z.div_mod_to_equations. lia. Qed.
Lemma page_al p : 0 <= p < 2 ^ 20 -> aligned (p * 4096).
Proof. intros. split; [lia|]. Z.div_mod_to_equations. lia. Qed.

(** The static tables are pairwise different. *)
Lemma pml4_ne_pdpt : pml4_base <> pdpt_base.
Proof. by destruct lay_pml4. Qed.
Lemma pml4_ne_pds g : 0 <= g < 4 -> pml4_base <> PDS g.
Proof. pose proof lay_pml4. unfold PDS. lia. Qed.
Lemma pml4_ne_split s : 0 <= s < 16 -> pml4_base <> SPLIT s.
Proof. pose proof lay_pml4. unfold SPLIT. lia. Qed.
Lemma pdpt_ne_pds g : 0 <= g < 4 -> pdpt_base <> PDS g.
Proof. pose proof lay_pdpt. unfold PDS. lia. Qed.
Lemma pdpt_ne_split s : 0 <= s < 16 -> pdpt_base <> SPLIT s.
Proof. pose proof lay_pdpt. unfold SPLIT. lia. Qed.
Lemma pds_ne_split g s : 0 <= g < 4 -> 0 <= s < 16 -> PDS g <> SPLIT s.
Proof. pose proof lay_pds. unfold PDS, SPLIT. lia. Qed.
Lemma pds_ne_pds g g' : g <> g' -> PDS g <> PDS g'.
Proof. unfold PDS. lia. Qed.
Lemma split_ne_split s s' : s <> s' -> SPLIT s <> SPLIT s'.
Proof. unfold SPLIT. lia. Qed.
Lemma split_nonnull s : 0 <= s < 16 -> (SPLIT s =? 0) = false.
Proof. pose proof lay_image. unfold SPLIT. lia. Qed.

(** Inequality of two static tables, in either direction. *)
Ltac tbl_ne :=
  first [ apply pml4_ne_pdpt | apply pml4_ne_pds; lia | apply pml4_ne_split; lia
        | apply pdpt_ne_pds; lia | apply pdpt_ne_split; lia | apply pds_ne_split; lia
        | apply pds_ne_pds; lia | apply split_ne_split; lia ].
Ltac tblne := first [ tbl_ne | apply not_eq_sym; tbl_ne | left; tblne ].

(** Reads that agree on what a region depends on. *)
Lemma region_ok_ext A A' o st st' i :
  region_ok A o st i ->
  rd st' (PDS 0) i = rd st (PDS 0) i ->
  (forall s j, o = Some s -> 0 <= j < 512 -> rd st' (SPLIT s) j = rd st (SPLIT s) j) ->
  split_next st <= split_next st' ->
  (forall j, 0 <= j < 512 -> A' (512 * i + j) = A (512 * i + j)) ->
  region_ok A' o st' i.
Proof.
  intros H Hpd Hpt Hn HA. destruct o as [s|]; simpl in *.
  - destruct H as (Hs & Hs' & ud & He & Hj). split; [done|]. split; [lia|].
    exists ud. rewrite Hpd. split; [done|]. intros j Hjr. rewrite Hpt, HA by done. by apply Hj.
  - destruct H as (u & x & He & Hj). exists u, x. rewrite Hpd. split; [done|].
    intros j Hjr. rewrite HA by done. by apply Hj.
Qed.

Lemma upper_ok_ext st st' :
  upper_ok st ->
  (forall j, rd st' pml4_base j = rd st pml4_base j) ->
  (forall j, rd st' pdpt_base j = rd st pdpt_base j) ->
  (forall g j, 1 <= g <= 3 -> rd st' (PDS g) j = rd st (PDS g) j) ->
  upper_ok st'.
Proof.
  intros [] H1 H2 H3. constructor; intros; rewrite ?H1, ?H2, ?H3 by lia; auto.
Qed.

(** The index arithmetic of an address in GiB 0. *)
Lemma addr_gib0 a : 0 <= a < GIB ->
  a / GIB = 0 /\ a mod GIB / TWO_MIB = a / TWO_MIB /\ 0 <= a / TWO_MIB < 512.
Proof.
  intros. unfold GIB, TWO_MIB in *. rewrite Z.div_small, (Z.mod_small a) by lia.
  split; [done|]. split; [done|]. Z.div_mod_to_equations. lia.
Qed.

Lemma ensure_pt_split A sl st a s :
  repr A sl st -> 0 <= a < GIB -> sl (a / TWO_MIB) = Some s ->
  ensure_pt a st = (st, SPLIT s).
Proof.
  intros HR Ha Hs. destruct (addr_gib0 a Ha) as (E1 & E2 & E3).
  unfold ensure_pt. rewrite E1, E2. cbn [Z.geb Z.compare].
  pose proof (r_regions _ _ _ HR _ E3) as Hreg. rewrite Hs in Hreg.
  destruct Hreg as (Hs1 & Hs2 & ud & He & _).
  rewrite He, enc_huge by by apply split_al. simpl. by rewrite enc_addr by by apply split_al.
Qed.

(** GiB 1-3 are 1 GiB leaves and cannot be split. *)
Lemma ensure_pt_high A sl st a : repr A sl st -> GIB <= a -> ensure_pt a st = (st, 0).
Proof.
  intros HR Ha. unfold ensure_pt. case_goal; [done|].
  rewrite (up_pds _ (r_upper _ _ _ HR)); [done| |].
  - unfold GIB in *. Z.div_mod_to_equations. lia.
  - unfold GIB, TWO_MIB in *. Z.div_mod_to_equations. lia.
Qed.

Lemma ensure_pt_full A sl st a :
  repr A sl st -> 0 <= a < GIB -> sl (a / TWO_MIB) = None -> 16 <= split_next st ->
  ensure_pt a st = (mkTables (mem st) (split_next st ⊞ 1) (low_next st) (cr3 st), 0).
Proof.
  intros HR Ha Hs Hn. destruct (addr_gib0 a Ha) as (E1 & E2 & E3).
  unfold ensure_pt. rewrite E1, E2. cbn [Z.geb Z.compare].
  pose proof (r_regions _ _ _ HR _ E3) as Hreg. rewrite Hs in Hreg.
  destruct Hreg as (u & x & He & _).
  rewrite He, enc_huge by by apply region_al. cbn [negb].
  destruct (Z.geb_spec (split_next st) MAX_SPLIT_PTS) as [|Hlt]; [reflexivity|].
  unfold MAX_SPLIT_PTS in Hlt. lia.
Qed.

Lemma ensure_pt_huge A sl st a :
  repr A sl st -> 0 <= a < GIB -> sl (a / TWO_MIB) = None -> split_next st < 16 ->
  exists st', ensure_pt a st = (st', SPLIT (split_next st))
    /\ repr (split_leaves A (a / TWO_MIB)) (fupd sl (a / TWO_MIB) (Some (split_next st))) st'
    /\ split_next st' = split_next st + 1 /\ low_next st' = low_next st /\ cr3 st' = cr3 st.
Proof.
  intros HR Ha Hs Hn. destruct (addr_gib0 a Ha) as (E1 & E2 & E3).
  unfold ensure_pt. rewrite E1, E2. cbn [Z.geb Z.compare].
  set (i := a / TWO_MIB) in *. set (s := split_next st) in *.
  pose proof (r_next _ _ _ HR) as Hn0. fold s in Hn0.
  pose proof (r_regions _ _ _ HR _ E3) as Hreg. rewrite Hs in Hreg.
  destruct Hreg as (u & x & He & Hlv).
  rewrite He, enc_huge by by apply region_al. cbn [negb].
  destruct (Z.geb_spec s MAX_SPLIT_PTS) as [Hge|_]; [unfold MAX_SPLIT_PTS in Hge; lia|].
  set (st1 := mkTables (mem st) (s ⊞ 1) (low_next st) (cr3 st)).
  rewrite round_2m. fold i.
  destruct (fill_spec 512 (SPLIT s)
    (fun j => (i * TWO_MIB + j * FOUR_KIB) .| PAGE_PRESENT .| PAGE_WRITABLE) st1)
    as (F1 & F2 & F3 & F4 & F5).
  set (st2 := for_range 512 0 _ st1) in *. clearbody st2.
  rewrite rd_wr_eq, enc_leaf4k, enc_addr by (apply split_al; lia).
  eexists. split; [done|].
  assert (split_next st2 = s + 1) as Hsn.
  { rewrite F3. simpl. by rewrite u64_small by lia. }
  assert (Hout : forall t j, t <> SPLIT s -> t <> PDS 0 \/ j <> i ->
    rd (wr (PDS 0) i (enc (SPLIT s) false false false) st2) t j = rd st t j).
  { intros t j Ht Hpd. rewrite rd_wr_ne by (destruct Hpd; [left|right]; congruence).
    by rewrite F2. }
  split; [|done].
  assert (Hlt : forall k s', 0 <= k < 512 -> sl k = Some s' -> 0 <= s' < 16 /\ s' < s).
  { intros k s' Hk Es. pose proof (r_regions _ _ _ HR k Hk) as Hr. rewrite Es in Hr.
    destruct Hr as (? & ? & _). auto. }
  constructor.
  - apply (upper_ok_ext st); [apply HR| | |]; intros; apply Hout; tblne.
  - intros k Hk. destruct (decide (k = i)) as [->|Hki].
    + rewrite fupd_eq. split; [lia|]. split; [cbn; lia|]. exists false.
      rewrite rd_wr_eq. split; [done|]. intros j Hj.
      rewrite rd_wr_ne, F1 by (try tblne; lia). unfold split_leaves.
      rewrite (proj2 (Z.eqb_eq ((512 * i + j) / 512) i)) by (Z.div_mod_to_equations; lia).
      rewrite Hlv by done. cbn [relabel pte_ok l_frame l_user l_nx]. rewrite enc_leaf4k.
      replace (i * TWO_MIB + j * FOUR_KIB) with ((512 * i + j) * 4096)
        by (unfold TWO_MIB, FOUR_KIB; lia).
      split; [apply page_al; lia|done].
    + rewrite fupd_ne by done. apply (region_ok_ext A _ _ st).
      * by apply (r_regions _ _ _ HR).
      * apply Hout; [tblne|by right].
      * intros s' j Hs' Hj. destruct (Hlt k s' Hk Hs'). apply Hout; tblne.
      * simpl. rewrite Hsn. fold s. lia.
      * intros j Hj. unfold split_leaves.
        rewrite (proj2 (Z.eqb_neq ((512 * k + j) / 512) i)) by (Z.div_mod_to_equations; lia).
        done.
  - intros k j s' Hk Hj Hks Hjs. unfold fupd in *.
    destruct (Z.eqb_spec k i), (Z.eqb_spec j i); [congruence| | |].
    + injection Hks as Hks. destruct (Hlt j s' Hj Hjs). lia.
    + injection Hjs as Hjs. destruct (Hlt k s' Hk Hks). lia.
    + by eapply (r_inj _ _ _ HR).
  - cbn. lia.
Qed.

Lemma repr_ext A A' sl st :
  repr A sl st -> (forall p, 0 <= p < 2 ^ 18 -> A' p = A p) -> repr A' sl st.
Proof.
  intros HR HA. constructor; try apply HR. intros i Hi.
  apply (region_ok_ext A _ _ st); auto; [by apply HR|lia|]. intros j Hj. apply HA. lia.
Qed.

(** Words of a state that agree with another on every table. *)
Lemma repr_same A sl st st' :
  repr A sl st -> (forall t i, rd st' t i = rd st t i) ->
  split_next st <= split_next st' -> repr A sl st'.
Proof.
  intros HR Hrd Hn. constructor.
  - apply (upper_ok_ext st); auto. apply HR.
  - intros i Hi. apply (region_ok_ext A _ _ st); auto. by apply HR.
  - apply HR.
  - pose proof (r_next _ _ _ HR). lia.
Qed.

Lemma rd_wr_same st t i v : v = rd st t i -> forall t' i', rd (wr t i v st) t' i' = rd st t' i'.
Proof.
  intros -> t' i'. destruct (decide (t = t' /\ i = i')) as [[-> ->]|Hne].
  - by rewrite rd_wr_eq.
  - rewrite rd_wr_ne; [done|]. destruct (decide (t = t')); [right|by left]. tauto.
Qed.

(** Writing the PTE of page [512 i + j] of a split region. *)
Lemma repr_wr_pte A sl st i j s ud v e :
  repr A sl st -> 0 <= i < 512 -> 0 <= j < 512 -> sl i = Some s ->
  rd st (PDS 0) i = enc (SPLIT s) ud false false -> pte_ok ud v e ->
  repr (fupd A (512 * i + j) v) sl (wr (SPLIT s) j e st).
Proof.
  intros HR Hi Hj Hs Hpd Hv.
  pose proof (r_regions _ _ _ HR i Hi) as Hreg. rewrite Hs in Hreg.
  destruct Hreg as (Hs1 & Hs2 & ud' & Hpd' & Hpte).
  assert (ud' = ud) as ->.
  { destruct (enc_bits (SPLIT s) (split_al s Hs1) ud false false) as (_ & _ & E & _).
    destruct (enc_bits (SPLIT s) (split_al s Hs1) ud' false false) as (_ & _ & E' & _).
    congruence. }
  constructor.
  - apply (upper_ok_ext st); [apply HR| | |]; intros; apply rd_wr_ne; tblne.
  - intros k Hk. destruct (decide (k = i)) as [->|Hki].
    + rewrite Hs. split; [done|]. split; [done|]. exists ud.
      rewrite rd_wr_ne by tblne. split; [done|]. intros j' Hj'.
      destruct (decide (j' = j)) as [->|Hjj].
      * by rewrite fupd_eq, rd_wr_eq.
      * rewrite fupd_ne, rd_wr_ne by lia. by apply Hpte.
    + apply (region_ok_ext A _ _ st); [by apply HR| | |done|].
      * apply rd_wr_ne. tblne.
      * intros s' j' Hs' Hj'. apply rd_wr_ne. left. apply split_ne_split.
        intros ->. apply Hki. by apply (r_inj _ _ _ HR k i s').
      * intros j' Hj'. apply fupd_ne. lia.
  - apply HR.
  - apply HR.
Qed.

Lemma region_of p : 0 <= p -> exists j, 0 <= j < 512 /\ p = 512 * (p / 512) + j.
Proof. intros. exists (p mod 512). Z.div_mod_to_equations. lia. Qed.

(** Attributes of the leaves of region [i], pages below [k] only. *)
Definition relabel_upto (A : pmap) (i k : Z) (us nx : bool) : pmap :=
  fun p => if (p / 512 =? i) && (p mod 512 <? k) then relabel us nx (A p) else A p.

Lemma relabel_upto_in A i k us nx j : 0 <= j < 512 ->
  relabel_upto A i k us nx (512 * i + j)
  = if j <? k then relabel us nx (A (512 * i + j)) else A (512 * i + j).
Proof.
  intros Hj. unfold relabel_upto.
  rewrite (proj2 (Z.eqb_eq ((512 * i + j) / 512) i)) by (Z.div_mod_to_equations; lia).
  replace ((512 * i + j) mod 512) with j by (Z.div_mod_to_equations; lia). done.
Qed.

Lemma relabel_upto_out A i k us nx p : p / 512 <> i -> relabel_upto A i k us nx p = A p.
Proof. intros Hp. unfold relabel_upto. by rewrite (proj2 (Z.eqb_neq _ _) Hp). Qed.

(** Relabelling a whole region held by one 2 MiB leaf. *)
Lemma repr_wr_huge A sl st i us nx :
  repr A sl st -> 0 <= i < 512 -> sl i = None ->
  repr (relabel_upto A i 512 us nx) sl (wr (PDS 0) i (enc (i * TWO_MIB) us nx true) st).
Proof.
  intros HR Hi Hs. constructor.
  - apply (upper_ok_ext st); [apply HR| | |]; intros; apply rd_wr_ne; tblne.
  - intros k Hk. destruct (decide (k = i)) as [->|Hki].
    + pose proof (r_regions _ _ _ HR i Hi) as Hreg. rewrite Hs in *.
      destruct Hreg as (u & x & He & Hj). exists us, nx. rewrite rd_wr_eq. split; [done|].
      intros j Hjr. rewrite relabel_upto_in by done.
      rewrite (proj2 (Z.ltb_lt j 512)), Hj by lia. done.
    + apply (region_ok_ext A _ _ st); [by apply HR| | |done|].
      * apply rd_wr_ne. auto.
      * intros s' j' Hs' Hj'. pose proof (r_regions _ _ _ HR k Hk) as Hr. rewrite Hs' in Hr.
        destruct Hr as (? & _). apply rd_wr_ne. tblne.
      * intros j Hj. apply relabel_upto_out. Z.div_mod_to_equations. lia.
  - apply HR.
  - apply HR.
Qed.

(** What every table edit keeps: the counters and CR3. *)
Definition same_regs (st st' : tables) : Prop :=
  split_next st' = split_next st /\ low_next st' = low_next st /\ cr3 st' = cr3 st.

Lemma mark_user_spec A sl st a :
  repr A sl st -> 0 <= a < GIB ->
  let st' := mark_user_covering_levels a st in
  repr A sl st' /\ same_regs st st'
  /\ (forall s, sl (a / TWO_MIB) = Some s ->
      rd st' (PDS 0) (a / TWO_MIB) = enc (SPLIT s) true false false).
Proof.
  intros HR Ha. destruct (addr_gib0 a Ha) as (E1 & E2 & E3).
  destruct (r_upper _ _ _ HR) as [U1 U2 _ _ _ _]. cbv zeta. unfold mark_user_covering_levels.
  rewrite E1, E2. cbn [Z.geb Z.compare]. rewrite U1, enc_or_user.
  set (st1 := wr pml4_base 0 (enc pdpt_base true false false) st).
  assert (forall t j, rd st1 t j = rd st t j) as H1 by (apply rd_wr_same; done).
  rewrite !H1, U2, enc_huge by by apply pds_al. cbn [negb]. rewrite enc_or_user.
  set (st2 := wr pdpt_base 0 (enc (PDS 0) true false false) st1).
  assert (forall t j, rd st2 t j = rd st t j) as H2.
  { intros. unfold st2. rewrite rd_wr_same; [done|]. by rewrite H1. }
  assert (repr A sl st2) as HR2 by (apply (repr_same A sl st); auto; done).
  assert (same_regs st st2) as Hreg by done.
  rewrite !H2. pose proof (r_regions _ _ _ HR _ E3) as Hr.
  set (i := a / TWO_MIB) in *. destruct (sl i) as [s|] eqn:Es.
  - destruct Hr as (Hs & Hs' & ud & He & Hj).
    rewrite He, enc_huge by by apply split_al. cbn [negb]. rewrite enc_or_user.
    split; [|split; [done|by intros ? [= <-]; rewrite rd_wr_eq]].
    constructor.
    + apply (upper_ok_ext st2); [apply HR2| | |]; intros; apply rd_wr_ne; tblne.
    + intros k Hk. destruct (decide (k = i)) as [->|Hki].
      * rewrite Es. split; [done|]. split; [done|]. exists true. rewrite rd_wr_eq.
        split; [done|]. intros j Hjr. rewrite rd_wr_ne, H2 by tblne.
        specialize (Hj j Hjr). unfold pte_ok in *. destruct (A _); [|done]. tauto.
      * apply (region_ok_ext A _ _ st2); [by apply HR2| | |done|done].
        -- apply rd_wr_ne. auto.
        -- intros s' j Hs2 Hj2. pose proof (r_regions _ _ _ HR k Hk) as Hr2. rewrite Hs2 in Hr2.
           destruct Hr2 as (? & _). apply rd_wr_ne. tblne.
    + apply HR.
    + apply HR.
  - destruct Hr as (u & x & He & Hj). rewrite He, enc_huge by by apply region_al.
    cbn [negb]. done.
Qed.

Lemma relabel_step A i j us nx p :
  0 <= i < 512 -> 0 <= j < 512 ->
  relabel_upto A i (j + 1) us nx p
  = fupd (relabel_upto A i j us nx) (512 * i + j) (relabel us nx (A (512 * i + j))) p.
Proof.
  intros Hi Hj. unfold fupd. destruct (Z.eqb_spec p (512 * i + j)) as [->|Hp].
  - rewrite relabel_upto_in by done. by rewrite (proj2 (Z.ltb_lt j (j + 1))) by lia.
  - unfold relabel_upto. destruct (Z.eqb_spec (p / 512) i) as [E|]; [|done].
    assert (p mod 512 <> j) by (Z.div_mod_to_equations; lia).
    destruct (Z.ltb_spec (p mod 512) (j + 1)), (Z.ltb_spec (p mod 512) j); try done; lia.
Qed.

(** The PTE loop of [set_attrs]. *)
Lemma set_attrs_ptes A sl st i s ud us nx :
  repr A sl st -> 0 <= i < 512 -> sl i = Some s ->
  rd st (PDS 0) i = enc (SPLIT s) ud false false -> (us = true -> ud = true) ->
  let st' := for_range 512 0 (fun j st =>
      if negb (rd st (SPLIT s) j .& PAGE_PRESENT =? 0)
      then wr (SPLIT s) j (apply_attrs (rd st (SPLIT s) j) us nx) st else st) st in
  repr (relabel_upto A i 512 us nx) sl st' /\ same_regs st st'.
Proof.
  intros HR Hi Hs Hpd Hus. cbv zeta.
  match goal with |- repr _ _ (for_range _ _ ?f _) /\ _ => set (body := f) end.
  assert (0 <= s < 16) as Hsr.
  { pose proof (r_regions _ _ _ HR i Hi) as Hr. rewrite Hs in Hr. by destruct Hr as (? & _). }
  pose proof (for_range_ind (fun k st' =>
    repr (relabel_upto A i k us nx) sl st' /\ same_regs st st'
    /\ rd st' (PDS 0) i = enc (SPLIT s) ud false false) 512 0 body st) as Hind.
  destruct Hind as (H1 & H2 & _); [| |by split].
  { split; [|by split]. apply (repr_ext A); [done|]. intros p Hp. unfold relabel_upto.
    rewrite (proj2 (Z.ltb_ge (p mod 512) 0)) by (Z.div_mod_to_equations; lia).
    by rewrite andb_false_r. }
  intros j st' Hj (IH1 & IH2 & IH3). unfold body.
  pose proof (r_regions _ _ _ IH1 i Hi) as Hr. rewrite Hs in Hr.
  destruct Hr as (_ & _ & ud' & _ & Hp). specialize (Hp j Hj).
  rewrite relabel_upto_in, Z.ltb_irrefl in Hp by done.
  destruct (A (512 * i + j)) as [l|] eqn:El; simpl in Hp.
  - destruct Hp as (Hal & He & _). rewrite He, enc_pbit by done. cbn [negb].
    rewrite enc_apply by done. split; [|split; [done|by rewrite rd_wr_ne by tblne]].
    apply (repr_ext (fupd (relabel_upto A i j us nx) (512 * i + j) (relabel us nx (Some l)))).
    + eapply repr_wr_pte; eauto. split; [done|]. by split.
    + intros p Hpr. rewrite relabel_step by done. by rewrite El.
  - rewrite Hp. split; [|done]. cbn [Z.land Z.eqb negb].
    apply (repr_ext (relabel_upto A i j us nx)); [done|]. intros p Hpr.
    rewrite relabel_step by done. unfold fupd. destruct (Z.eqb_spec p (512 * i + j)) as [->|]; [|done].
    rewrite El, relabel_upto_in, Z.ltb_irrefl by done. done.
Qed.

Lemma set_attrs_region_spec A sl st a us nx :
  repr A sl st -> 0 <= a < GIB ->
  let st' := set_attrs_region a us nx st in
  repr (relabel_upto A (a / TWO_MIB) 512 us nx) sl st' /\ same_regs st st'.
Proof.
  intros HR Ha. destruct (addr_gib0 a Ha) as (E1 & E2 & E3). cbv zeta. unfold set_attrs_region.
  rewrite E1, E2. set (i := a / TWO_MIB) in *.
  set (st1 := if us then mark_user_covering_levels a st else st).
  assert (repr A sl st1 /\ same_regs st st1 /\ forall s, sl i = Some s -> us = true ->
    rd st1 (PDS 0) i = enc (SPLIT s) true false false) as (HR1 & Hregs & Hus).
  { subst st1. destruct us; [|by split]. destruct (mark_user_spec A sl st a HR Ha) as (?&?&?).
    split; [done|]. split; auto. }
  clearbody st1. pose proof (r_regions _ _ _ HR1 i E3) as Hr. destruct (sl i) as [s|] eqn:Es.
  - destruct Hr as (Hs & _ & ud & He & _). rewrite He.
    rewrite enc_nonzero, enc_huge, enc_addr by by apply split_al. cbn [negb].
    destruct (set_attrs_ptes A sl st1 i s ud us nx) as [H1 H2]; auto.
    { intros Hu. specialize (Hus s eq_refl Hu). rewrite He in Hus.
      destruct (enc_bits (SPLIT s) (split_al s Hs) ud false false) as (_ & _ & <- & _).
      rewrite Hus. by apply enc_bits, split_al. }
    split; [done|]. destruct Hregs as (?&?&?), H2 as (?&?&?). repeat split; congruence.
  - destruct Hr as (u & x & He & _). rewrite He.
    rewrite enc_nonzero, enc_huge, enc_apply by by apply region_al. cbn [negb].
    split; [by apply repr_wr_huge|done].
Qed.

Definition relabel_range (A : pmap) (lo hi : Z) (us nx : bool) : pmap :=
  fun p => if (lo <=? p * 4096) && (p * 4096 <? hi) then relabel us nx (A p) else A p.

Lemma same_regs_trans a b c : same_regs a b -> same_regs b c -> same_regs a c.
Proof. intros (?&?&?) (?&?&?). repeat split; congruence. Qed.

Lemma set_attrs_loop_spec fuel i k us nx sl : forall A st,
  repr A sl st -> 0 <= i -> k <= 512 -> k - i <= Z.of_nat fuel ->
  let st' := set_attrs_loop fuel (i * TWO_MIB) (k * TWO_MIB) us nx st in
  repr (relabel_range A (i * TWO_MIB) (k * TWO_MIB) us nx) sl st' /\ same_regs st st'.
Proof.
  revert i. induction fuel as [|fuel IH]; intros i A st HR Hi Hk Hf; cbn [set_attrs_loop].
  - split; [|done]. apply (repr_ext A); [done|]. intros p Hp. unfold relabel_range, TWO_MIB.
    case_match; [|done]. lia.
  - destruct (Z.ltb_spec (i * TWO_MIB) (k * TWO_MIB)) as [Hlt|Hge].
    2:{ split; [|done]. apply (repr_ext A); [done|]. intros p Hp. unfold relabel_range in *.
        case_match; [|done]. lia. }
    assert (0 <= i * TWO_MIB < GIB) as Ha by (unfold TWO_MIB, GIB in *; lia).
    destruct (addr_gib0 _ Ha) as (E1 & _). rewrite E1. cbn [Z.geb Z.compare].
    rewrite (up_pdpt0 _ (r_upper _ _ _ HR)), enc_huge by by apply pds_al. cbn [negb].
    destruct (set_attrs_region_spec A sl st (i * TWO_MIB) us nx HR Ha) as [H1 H2].
    rewrite Z.div_mul in H1 by done.
    replace (i * TWO_MIB + TWO_MIB) with ((i + 1) * TWO_MIB) by lia.
    destruct (IH (i + 1) _ _ H1) as [H3 H4]; [lia..|].
    split; [|by eapply same_regs_trans].
    eapply repr_ext; [exact H3|]. intros p Hp. unfold relabel_range.
    destruct (region_of p) as (j & Hj & Hpj); [lia|]. unfold TWO_MIB in *.
    destruct (Z.eqb_spec (p / 512) i) as [<-|Hne].
    + assert (relabel_upto A (p / 512) 512 us nx p = relabel us nx (A p)) as ->.
      { rewrite Hpj at 2. rewrite relabel_upto_in, (proj2 (Z.ltb_lt j 512)) by lia.
        by rewrite <- Hpj. }
      repeat case_match; try done; lia.
    + rewrite relabel_upto_out by done. repeat case_match; try done; lia.
Qed.

Lemma set_attrs_spec i k us nx A sl st :
  repr A sl st -> 0 <= i <= k -> k <= 512 ->
  let st' := set_attrs (i * TWO_MIB) (k * TWO_MIB) us nx st in
  repr (relabel_range A (i * TWO_MIB) (k * TWO_MIB) us nx) sl st' /\ same_regs st st'.
Proof.
  intros HR Hi Hk. unfold set_attrs. rewrite round_2m, Z.div_mul by done.
  apply set_attrs_loop_spec; [done|lia|done|]. unfold TWO_MIB. Z.div_mod_to_equations. lia.
Qed.

(** *** Initialisation *)

(** The boot map: identity, supervisor, executable. *)
Definition A_boot : pmap := fun p => Some (mkLeaf (p * 4096) false false).

Lemma split_leaves_boot i p : split_leaves A_boot i p = A_boot p.
Proof. unfold split_leaves. by case_match. Qed.

Lemma init_upper :
  let st := wr pml4_base 0 (pdpt_base .| PAGE_PRESENT .| PAGE_WRITABLE .| PAGE_USER)
    (init_gibs (wr pdpt_base 0 (PDS 0 .| PAGE_PRESENT .| PAGE_WRITABLE .| PAGE_USER)
      (init_pd0 boot_tables))) in
  repr A_boot (fun _ => None) st /\ split_next st = 0 /\ low_next st = 0.
Proof.
  unfold init_pd0.
  destruct (fill_spec 512 (PDS 0)
    (fun i => (i * TWO_MIB) .| PAGE_PRESENT .| PAGE_WRITABLE .| PAGE_HUGE) boot_tables)
    as (F1 & F2 & F3 & F4 & _).
  set (st1 := for_range 512 0 _ _) in *. clearbody st1. cbv zeta.
  unfold init_gibs, for_range.
  change (1 + 1) with 2. change (2 + 1) with 3. cbn [Z.ltb Z.compare Pos.compare Pos.compare_cont].
  rewrite !enc_user4k, !enc_leaf2m, !enc_or_user. split; [|by split].
  constructor.
  - constructor.
    + by rewrite rd_wr_eq.
    + rewrite rd_wr_ne by tblne. rewrite !rd_wr_ne by (right; lia). by rewrite rd_wr_eq.
    + intros g Hg. rewrite rd_wr_ne by tblne.
      assert (g = 1 \/ g = 2 \/ g = 3) as [-> |[-> | ->]] by lia;
        rewrite ?rd_wr_eq, ?rd_wr_ne, ?rd_wr_eq by (right; lia); done.
    + intros g i Hg Hi. rewrite !rd_wr_ne by tblne. rewrite F2 by tblne. done.
    + intros i Hi. rewrite rd_wr_ne by (right; lia). rewrite !rd_wr_ne by tblne.
      rewrite F2 by tblne. done.
    + intros g Hg. rewrite rd_wr_ne by tblne. rewrite !rd_wr_ne by (right; lia).
      rewrite F2 by tblne. done.
  - intros i Hi. exists false, false. rewrite !rd_wr_ne by tblne.
    rewrite F1, enc_leaf2m by done. split; [done|]. intros j Hj. done.
  - done.
  - cbn. by rewrite F3.
Qed.

Definition arena_slots (k i : Z) : option Z :=
  if (56 <=? i) && (i <? 56 + k) then Some (i - 56) else None.
Definition init_slots (i : Z) : option Z := if i =? 0 then Some 8 else arena_slots 8 i.

Lemma repr_slots_ext A sl sl' st :
  repr A sl st -> (forall i, 0 <= i < 512 -> sl' i = sl i) -> repr A sl' st.
Proof.
  intros HR Hsl. constructor; try apply HR.
  - intros i Hi. rewrite Hsl by done. by apply HR.
  - intros i j s Hi Hj. rewrite !Hsl by done. by apply HR.
Qed.

Lemma init_arena_spec st :
  repr A_boot (fun _ => None) st -> split_next st = 0 ->
  let st' := init_arena st in
  repr A_boot (arena_slots 8) st' /\ split_next st' = 8 /\ low_next st' = low_next st.
Proof.
  intros HR Hn. cbv zeta. unfold init_arena.
  change (Z.to_nat (KSTACK_ARENA_SIZE / TWO_MIB)) with 8%nat.
  apply (for_range_ind (fun k s => repr A_boot (arena_slots k) s /\ split_next s = k
    /\ low_next s = low_next st) 8 0).
  - split; [|done]. apply (repr_slots_ext _ (fun _ => None)); [done|]. intros i Hi.
    unfold arena_slots. case_match; [|done]. lia.
  - intros k s Hk (IH1 & IH2 & IH3).
    set (a := KSTACK_ARENA_BASE + k * TWO_MIB).
    assert (a / TWO_MIB = 56 + k) as Ea.
    { subst a. unfold KSTACK_ARENA_BASE, TWO_MIB. Z.div_mod_to_equations. lia. }
    destruct (ensure_pt_huge A_boot (arena_slots k) s a) as (st' & E & H1 & H2 & H3 & _);
      [done|subst a; unfold KSTACK_ARENA_BASE, TWO_MIB, GIB; lia| |lia|].
    { rewrite Ea. unfold arena_slots. case_match; [lia|done]. }
    rewrite E. cbn [fst]. split; [|split; [lia|congruence]].
    rewrite Ea in H1. eapply repr_slots_ext; [eapply repr_ext; [exact H1|]|].
    + intros p Hp. by rewrite split_leaves_boot.
    + intros i Hi. unfold fupd, arena_slots. rewrite IH2.
      destruct (Z.eqb_spec i (56 + k)) as [->|]; repeat case_match; try lia; f_equal; lia.
Qed.

End Refine.
