(* ===== verification/Confinement.v ===== *)
(** * What ring 3 can reach

    The walk of the tables, the guard [user_accessible] against the processor's
    walk, the map established by [init], and confinement under every runtime
    operation of the paging layer. *)

From S2P Require Import Prelude Paging PagingRefine.

(** The addresses the processor translates: bits 47..63 agree (any other
    address faults before the tables are read). *)
Definition canonical (a : Z) : Prop := 0 <= a < 2 ^ 47 \/ 2 ^ 64 - 2 ^ 47 <= a < 2 ^ 64.

(** ** Words read bit by bit *)
Lemma land_bit e k : 0 <= k -> (Z.land e (2 ^ k) =? 0) = negb (Z.testbit e k).
Proof.
  intros Hk. destruct (Z.testbit e k) eqn:E; simpl.
  - apply Z.eqb_neq. intros H0. apply (f_equal (fun z => Z.testbit z k)) in H0.
    rewrite Z.land_spec, Z.pow2_bits_true, E, Z.bits_0 in H0 by done. done.
  - apply Z.eqb_eq. apply Z.bits_inj'. intros i Hi.
    rewrite Z.land_spec, Z.bits_0, Z.pow2_bits_eqb by done.
    destruct (Z.eqb_spec k i) as [<-|]; [by rewrite E|apply andb_false_r].
Qed.

Lemma huge_bit e : (Z.land e PAGE_HUGE =? 0) = negb (e_huge e).
Proof. apply (land_bit e 7). lia. Qed.

Lemma present_user_bits e : present_user e = e_present e && e_user e.
Proof.
  unfold present_user, e_present, e_user.
  change (PAGE_PRESENT .| PAGE_USER) with (Z.lor (2 ^ 0) (2 ^ 2)).
  apply eq_true_iff_eq. rewrite Z.eqb_eq, andb_true_iff. split.
  - intros E. pose proof (f_equal (fun z => Z.testbit z 0) E) as E0.
    pose proof (f_equal (fun z => Z.testbit z 2) E) as E2. cbv beta in E0, E2.
    rewrite Z.land_spec in E0, E2. simpl in E0, E2. by rewrite andb_true_r in E0, E2.
  - intros [H0 H2]. rewrite Z.land_lor_distr_r.
    f_equal; apply Z.bits_inj'; intros i Hi; rewrite Z.land_spec, Z.pow2_bits_eqb by lia;
      destruct (Z.eqb _ i) eqn:Ei; zb; subst; rewrite ?andb_false_r, ?andb_true_r; done.
Qed.

Lemma idx_shift a k : 0 <= k -> Z.land (Z.shiftr a k) 0x1ff = (a / 2 ^ k) mod 512.
Proof.
  intros Hk. rewrite Z.shiftr_div_pow2 by done.
  change 0x1ff with (Z.ones 9). by rewrite Z.land_ones.
Qed.

(** [page_is_user] is the US bit of the processor's walk, whatever the tables
    hold. *)
Lemma page_is_user_walk `{Layout} st a :
  cr3 st = pml4_base ->
  page_is_user st a = match hw_walk st a with Some x => x_user x | None => false end.
Proof.
  intros Hc. unfold page_is_user, hw_walk. rewrite Hc, !idx_shift by lia.
  unfold e_addr.
  set (e4 := rd st pml4_base _). set (e3 := rd st (Z.land e4 ADDR_MASK) _).
  set (e2 := rd st (Z.land e3 ADDR_MASK) _). set (e1 := rd st (Z.land e2 ADDR_MASK) _).
  rewrite !present_user_bits, !huge_bit.
  clearbody e4 e3 e2 e1. unfold leaf_at.
  destruct (e_present e4), (e_user e4); try done; cbn [negb andb];
    destruct (e_present e3), (e_user e3), (e_huge e3); try done; cbn [negb andb];
    destruct (e_present e2), (e_user e2), (e_huge e2); try done; cbn [negb andb];
    destruct (e_present e1); done.
Qed.

Lemma div_page a k : 0 <= k -> (a / 4096 * 4096) / 2 ^ (12 + k) = a / 2 ^ (12 + k).
Proof.
  intros. rewrite Z.pow_add_r by lia. change (2 ^ 12) with 4096.
  rewrite <- !Z.div_div by lia. by rewrite Z.div_mul.
Qed.

Lemma page_is_user_page `{Layout} st a : page_is_user st (a / 4096 * 4096) = page_is_user st a.
Proof.
  unfold page_is_user. rewrite !idx_shift by lia.
  change 39 with (12 + 27). change 30 with (12 + 18). change 21 with (12 + 9).
  change (2 ^ 12) with (2 ^ (12 + 0)). by rewrite !div_page by lia.
Qed.

Lemma user_pages_loop_spec `{Layout} st fuel p end_ :
  end_ - p * 4096 <= Z.of_nat fuel * 4096 ->
  user_pages_loop fuel st (p * 4096) end_ = true <->
  (forall q, p <= q -> q * 4096 < end_ -> page_is_user st (q * 4096) = true).
Proof.
  revert p. induction fuel as [|fuel IH]; intros p Hf; cbn [user_pages_loop].
  - split; [|done]. intros _ q Hq Hq'. lia.
  - destruct (Z.ltb_spec (p * 4096) end_) as [Hlt|Hge].
    + destruct (page_is_user st (p * 4096)) eqn:E; cbn [negb].
      * replace (p * 4096 + FOUR_KIB) with ((p + 1) * 4096) by (unfold FOUR_KIB; lia).
        rewrite IH by lia. split; intros Hq q Hpq Hqe.
        -- destruct (decide (q = p)) as [->|]; [done|]. apply Hq; lia.
        -- apply Hq; lia.
      * split; [done|]. intros Hq. rewrite <- E. apply Hq; lia.
    + split; [|done]. intros _ q Hq Hq'. lia.
Qed.

Lemma user_accessible_pages `{Layout} st a n : 0 <= a -> 0 < n ->
  user_accessible st a n = true <->
  a + n <= 4 * GIB /\ (forall b, a <= b < a + n -> page_is_user st b = true).
Proof.
  intros Ha Hn. unfold user_accessible, checked_add.
  rewrite (proj2 (Z.eqb_neq n 0)) by lia.
  destruct (Z.ltb_spec (a + n) (2 ^ 64)) as [Hlt|Hge].
  2:{ split; [done|]. unfold GIB. lia. }
  rewrite Z.gtb_ltb. destruct (Z.ltb_spec (4 * GIB) (a + n)); [split; [done|lia]|].
  rewrite round_4k, user_pages_loop_spec.
  2:{ unfold FOUR_KIB. Z.div_mod_to_equations. lia. }
  split.
  - intros Hq. split; [done|]. intros b Hb. rewrite <- page_is_user_page.
    apply Hq; Z.div_mod_to_equations; lia.
  - intros [_ Hb] q Hq Hq'. destruct (decide (a <= q * 4096)); [apply Hb; lia|].
    assert (q = a / 4096) as -> by (Z.div_mod_to_equations; lia).
    rewrite page_is_user_page. apply Hb. lia.
Qed.

(** ** The walk of represented tables *)

Section Walk.
Context `{HL : LayoutOk}.

Lemma idx_low a : 0 <= a < GIB ->
  (a / 2 ^ 39) mod 512 = 0 /\ (a / 2 ^ 30) mod 512 = 0 /\ (a / 2 ^ 21) mod 512 = a / TWO_MIB
  /\ (a / 2 ^ 12) mod 512 = a / 4096 - 512 * (a / TWO_MIB) /\ 0 <= a / TWO_MIB < 512.
Proof. unfold GIB, TWO_MIB. intros. repeat split; Z.div_mod_to_equations; lia. Qed.

Lemma walk_low A sl st a :
  repr A sl st -> cr3 st = pml4_base -> 0 <= a < GIB ->
  hw_walk st a = match A (a / 4096) with
    | Some l => Some (mkXlate (l_frame l + a mod 4096) (l_user l) true (l_nx l))
    | None => None
    end.
Proof.
  intros HR Hc Ha. destruct (idx_low a Ha) as (I4 & I3 & I2 & I1 & Hi).
  unfold hw_walk, leaf_at, e_addr. rewrite Hc, I4, I3, I2, I1.
  destruct (r_upper _ _ _ HR) as [U1 U2 _ _ _ _]. rewrite U1, enc_addr, U2 by apply pdpt_al.
  destruct (enc_bits _ pdpt_al true false false) as (-> & -> & -> & _ & ->).
  destruct (enc_bits _ (pds_al 0 ltac:(lia)) true false false) as (-> & -> & -> & -> & ->).
  cbn [negb andb orb]. rewrite enc_addr by (apply pds_al; lia).
  set (i := a / TWO_MIB) in *. set (j := a / 4096 - 512 * i).
  assert (0 <= j < 512) as Hj by (unfold i, j, TWO_MIB; Z.div_mod_to_equations; lia).
  assert (a / 4096 = 512 * i + j) as Hp by lia.
  pose proof (r_regions _ _ _ HR i Hi) as Hr. rewrite Hp. destruct (sl i) as [s|].
  - destruct Hr as (Hs & _ & ud & He & Hpt). rewrite He.
    destruct (enc_bits _ (split_al s Hs) ud false false) as (-> & -> & -> & -> & ->).
    cbn [negb andb orb]. rewrite enc_addr by by apply split_al.
    specialize (Hpt j Hj). destruct (A (512 * i + j)) as [l|]; simpl in Hpt.
    + destruct Hpt as (Hal & -> & Hud).
      destruct (enc_bits _ Hal (l_user l) (l_nx l) false) as (-> & -> & -> & _ & ->).
      rewrite enc_addr by done. cbn [negb andb orb]. do 2 f_equal.
      * destruct Hal. unfold FOUR_KIB. f_equal. Z.div_mod_to_equations. lia.
      * destruct (l_user l); [by rewrite Hud|apply andb_false_r].
    + by rewrite Hpt.
  - destruct Hr as (u & x & He & Hlv). rewrite He, Hlv by done. cbn [l_frame l_user l_nx].
    destruct (enc_bits _ (region_al i Hi) u x true) as (-> & -> & -> & -> & ->).
    rewrite enc_addr by by apply region_al. cbn [negb andb orb].
    rewrite Z.div_mul by done. do 2 f_equal. unfold i, j, TWO_MIB.
    Z.div_mod_to_equations. lia.
Qed.

Lemma walk_high A sl st a :
  repr A sl st -> cr3 st = pml4_base -> GIB <= a < 4 * GIB ->
  hw_walk st a = Some (mkXlate a (a <? 3 * GIB) true false).
Proof.
  intros HR Hc Ha. set (g := a / GIB).
  assert ((a / 2 ^ 39) mod 512 = 0 /\ (a / 2 ^ 30) mod 512 = g /\ 1 <= g <= 3
    /\ (g <? 3) = (a <? 3 * GIB)) as (I4 & I3 & Hg & Hg3).
  { unfold g, GIB in *. repeat split; Z.div_mod_to_equations; lia. }
  unfold hw_walk, leaf_at, e_addr. rewrite Hc, I4, I3.
  destruct (r_upper _ _ _ HR) as [U1 _ U3 _ _ _]. rewrite U1, enc_addr, U3 by (auto using pdpt_al).
  destruct (enc_bits _ pdpt_al true false false) as (-> & -> & -> & _ & ->).
  destruct (enc_bits _ (gib_al g ltac:(lia)) (g <? 3) false true) as (-> & -> & -> & -> & ->).
  cbn [negb andb orb]. rewrite enc_addr, Z.div_mul, Hg3 by (done || apply gib_al; lia).
  do 2 f_equal. unfold g, GIB. Z.div_mod_to_equations. lia.
Qed.

(** Outside the first four GiB the walk of a canonical address ends at an
    absent entry of the PML4 or of the PDPT. *)
Lemma walk_beyond A sl st a :
  repr A sl st -> cr3 st = pml4_base -> canonical a -> 4 * GIB <= a -> hw_walk st a = None.
Proof.
  intros HR Hc Ha Hge. destruct (r_upper _ _ _ HR) as [U1 _ _ _ U5 U6].
  unfold hw_walk, e_addr. rewrite Hc. unfold canonical, GIB in *.
  destruct (decide (1 <= (a / 2 ^ 39) mod 512)) as [H4|H4].
  { rewrite U5 by (Z.div_mod_to_equations; lia). done. }
  assert ((a / 2 ^ 39) mod 512 = 0 /\ 4 <= (a / 2 ^ 30) mod 512 < 512) as [-> H3].
  { Z.div_mod_to_equations. lia. }
  rewrite U1, enc_addr, U6 by (done || apply pdpt_al).
  destruct (enc_bits _ pdpt_al true false false) as (-> & _). done.
Qed.

End Walk.

(** ** The map established at boot *)

(** Addresses meant for ring 3: the BEAM image and heap, its stack, and the
    JIT/mmap area up to the MMIO gigabyte. *)
Definition user_region (a : Z) : bool :=
  ((0x00400000 <=? a) && (a <? 0x07000000)) || ((0x0E000000 <=? a) && (a <? 0x0E200000))
  || ((0x1A000000 <=? a) && (a <? 0xC0000000)).
(** Non-executable data: the user stack and the kernel image past its text. *)
Definition nx_region (a : Z) : bool :=
  ((0x0E000000 <=? a) && (a <? 0x0E200000)) || ((0x0F200000 <=? a) && (a <? 0x1A000000)).

Definition A_init : pmap :=
  fun p => Some (mkLeaf (p * 4096) (user_region (p * 4096)) (nx_region (p * 4096))).

Section Boot.
Context `{HL : LayoutOk}.

Lemma attribute_regions_spec sl st :
  repr A_boot sl st ->
  repr A_init sl (attribute_regions st) /\ same_regs st (attribute_regions st).
Proof.
  intros H0. unfold attribute_regions.
  destruct (set_attrs_spec 2 56 true false _ _ _ H0) as [H1 R1]; [lia..|].
  destruct (set_attrs_spec 112 113 true true _ _ _ H1) as [H2 R2]; [lia..|].
  destruct (set_attrs_spec 208 512 true false _ _ _ H2) as [H3 R3]; [lia..|].
  destruct (set_attrs_spec 121 208 false true _ _ _ H3) as [H4 R4]; [lia..|].
  split; [|by do 3 (eapply same_regs_trans; [eassumption|])].
  eapply repr_ext; [exact H4|]. intros p Hp.
  unfold A_init, relabel_range, A_boot, TWO_MIB. cbn [Z.mul Pos.mul].
  repeat match goal with
    |- context [if ?b then _ else _] => destruct b eqn:?; cbn [relabel l_frame]; zb
  end; do 2 f_equal; unfold user_region, nx_region; lia.
Qed.

Lemma init_repr :
  let st := init boot_tables in
  repr A_init init_slots st /\ split_next st = 9 /\ low_next st = 0 /\ cr3 st = pml4_base.
Proof.
  cbv zeta. unfold init. destruct init_upper as (H1 & S1 & L1).
  set (st1 := wr pml4_base 0 _ _) in *. clearbody st1.
  destruct (init_arena_spec st1 H1 S1) as (H2 & S2 & L2).
  set (st2 := init_arena st1) in *. clearbody st2.
  destruct (ensure_pt_huge _ _ st2 0 H2) as (st3 & E & H3 & S3 & L3 & _); [done|done|lia|].
  rewrite E. cbn [fst].
  assert (repr A_boot init_slots st3) as H3'.
  { eapply repr_slots_ext; [eapply repr_ext; [exact H3|]|].
    - intros p _. by rewrite split_leaves_boot.
    - intros i Hi. change (0 / TWO_MIB) with 0. unfold fupd, init_slots.
      case_match; [|done]. by rewrite S2. }
  destruct (attribute_regions_spec _ _ H3') as (H4 & S4 & L4 & _).
  set (st4 := attribute_regions st3) in *. clearbody st4.
  split; [|cbn; by rewrite S4, L4, S3, L3, S2, L2, L1].
  apply (repr_same _ _ st4); [done|done|reflexivity].
Qed.

(** *** Runtime edits *)

(** Leaves of [A'] are those of [A], some of them made supervisor-only. *)
Definition restricts (A A' : pmap) : Prop :=
  forall p, A' p = A p \/ A' p = relabel false false (A p).

(** Split regions stay split. *)
Definition grows (sl sl' : Z -> option Z) : Prop :=
  forall i s, sl i = Some s -> sl' i = Some s.

Lemma ensure_pt_any A sl st a :
  repr A sl st -> 0 <= a -> split_next st < 2 ^ 64 - 1 ->
  exists A' sl' st' pt, ensure_pt a st = (st', pt) /\ repr A' sl' st'
    /\ restricts A A' /\ grows sl sl' /\ low_next st' = low_next st /\ cr3 st' = cr3 st
    /\ split_next st <= split_next st' <= split_next st + 1
    /\ (pt = 0 \/ exists s, 0 <= s < 16 /\ pt = SPLIT s /\ a < GIB /\ sl' (a / TWO_MIB) = Some s).
Proof.
  intros HR Ha Hn. pose proof (r_next _ _ _ HR).
  assert (restricts A A) as Hrefl by (intros p; by left).
  assert (grows sl sl) as Hgrefl by by intros i.
  destruct (Z.ltb_spec a GIB) as [Hlt|Hge].
  2:{ exists A, sl, st, 0. rewrite (ensure_pt_high A sl) by done. auto 10 with lia. }
  destruct (addr_gib0 a (conj Ha Hlt)) as (_ & _ & Hi).
  destruct (sl (a / TWO_MIB)) as [s|] eqn:Es.
  - exists A, sl, st, (SPLIT s). rewrite (ensure_pt_split A sl st a s) by done.
    pose proof (r_regions _ _ _ HR _ Hi) as Hr. rewrite Es in Hr. destruct Hr as (Hs & _).
    do 7 (split; [done || lia|]). right. eauto 10.
  - destruct (Z.ltb_spec (split_next st) 16) as [H16|H16].
    + destruct (ensure_pt_huge A sl st a) as (st' & E & H1 & H2 & H3 & H4); auto.
      eexists _, _, st', (SPLIT (split_next st)). split; [done|]. split; [exact H1|].
      split; [intros p; unfold split_leaves; case_match; auto|].
      split; [intros k s Hk; rewrite fupd_ne; [done|intros ->; congruence]|].
      split; [done|]. split; [done|]. split; [lia|].
      right. exists (split_next st). rewrite fupd_eq. auto with lia.
    + eexists A, sl, _, _. rewrite (ensure_pt_full A sl) by (done || lia).
      split; [done|]. cbn. rewrite u64_small by lia.
      split; [|repeat split; auto with lia].
      apply (repr_same A sl st); [done|done|]. cbn. lia.
Qed.

(** Index arithmetic of the page holding [a], below 1 GiB. *)
Lemma page_idx a : 0 <= a ->
  let page := a / 4096 * 4096 in
  page / TWO_MIB = a / TWO_MIB /\ 0 <= page mod TWO_MIB / FOUR_KIB < 512
  /\ a / 4096 = 512 * (a / TWO_MIB) + page mod TWO_MIB / FOUR_KIB /\ 0 <= page
  /\ (page < GIB <-> a < GIB) /\ (page < TWO_MIB <-> a < TWO_MIB).
Proof. unfold TWO_MIB, FOUR_KIB, GIB. intros. repeat split; Z.div_mod_to_equations; lia. Qed.

(** A guard install leaves exactly the page unmapped, or does nothing but
    consume a counter. *)
Lemma map_guard_page_repr A sl st a :
  repr A sl st -> 0 <= a -> split_next st < 2 ^ 64 - 1 ->
  exists A' sl' st' r, map_guard_page a st = (st', r) /\ repr A' sl' st'
    /\ grows sl sl'
    /\ (restricts A A' \/ exists A1, restricts A A1 /\ A' = fupd A1 (a / 4096) None)
    /\ (r <> 0 -> A' (a / 4096) = None)
    /\ low_next st' = low_next st /\ cr3 st' = cr3 st
    /\ split_next st <= split_next st' <= split_next st + 1.
Proof.
  intros HR Ha Hn. unfold map_guard_page. rewrite round_4k.
  destruct (page_idx a Ha) as (P1 & P2 & P3 & P4 & _).
  destruct (ensure_pt_any A sl st (a / 4096 * 4096) HR P4 Hn)
    as (A' & sl' & st' & pt & E & H1 & H2 & Hgr & H3 & H4 & H5 & Hpt).
  rewrite E. destruct Hpt as [->|(s & Hs & -> & Hlt & Hsl)].
  - exists A', sl', st', 0. rewrite Z.eqb_refl.
    do 3 (split; [done|]). split; [by left|]. by split.
  - rewrite split_nonnull by done. rewrite P1 in Hsl.
    assert (0 <= a / TWO_MIB < 512) as Hi by (rewrite <- P1; by apply addr_gib0).
    pose proof (r_regions _ _ _ H1 _ Hi) as Hr. rewrite Hsl in Hr.
    destruct Hr as (_ & _ & ud & Hud & _).
    eexists (fupd A' (a / 4096) None), sl', _, _. split; [done|].
    set (j := _ mod TWO_MIB / FOUR_KIB) in *. clearbody j.
    split; [rewrite P3; by eapply repr_wr_pte|].
    split; [done|]. split; [right; by exists A'|]. rewrite fupd_eq. auto.
Qed.

Lemma map_low_scratch_repr A sl st a :
  repr A sl st -> 0 <= a -> 0 <= low_next st < 2 ^ 64 - 1 -> split_next st < 2 ^ 64 - 1 ->
  exists A' sl' st' b, map_low_scratch a st = (st', b) /\ repr A' sl' st'
    /\ grows sl sl'
    /\ (if b then exists A1, restricts A A1 /\ a < TWO_MIB /\ low_next st < 16
          /\ A' = fupd A1 (a / 4096) (Some (mkLeaf (LOW_SCRATCH (low_next st)) true false))
        else restricts A A')
    /\ low_next st <= low_next st' <= low_next st + 1 /\ (b = true -> low_next st' = low_next st + 1)
    /\ cr3 st' = cr3 st /\ split_next st <= split_next st' <= split_next st + 1.
Proof.
  intros HR Ha Hl Hn. unfold map_low_scratch. rewrite round_4k.
  destruct (page_idx a Ha) as (P1 & P2 & P3 & P4 & P5 & P6).
  assert (restricts A A) as Hrefl by (intros p; by left).
  assert (grows sl sl) as Hgrefl by by intros i.
  rewrite Z.geb_leb. destruct (Z.leb_spec TWO_MIB (a / 4096 * 4096)) as [Hge|Hlt].
  { exists A, sl, st, false. auto 12 with lia. }
  set (st0 := mkTables (mem st) (split_next st) (low_next st ⊞ 1) (cr3 st)).
  assert (low_next st0 = low_next st + 1) as L0 by (cbn; by rewrite u64_small by lia).
  assert (repr A sl st0) as HR0 by (apply (repr_same A sl st); [done|done|cbn; lia]).
  rewrite Z.geb_leb. destruct (Z.leb_spec LOW_SCRATCH_FRAMES (low_next st)) as [Hg|Hl16].
  { exists A, sl, st0, false. rewrite L0. cbn. auto 12 with lia. }
  unfold LOW_SCRATCH_FRAMES in Hl16.
  destruct (ensure_pt_any A sl st0 (a / 4096 * 4096) HR0 P4 Hn)
    as (A' & sl' & st' & pt & E & H1 & H2 & Hgr & H3 & H4 & H5 & Hpt).
  rewrite E. rewrite L0 in H3. cbn in H4, H5. destruct Hpt as [->|(s & Hs & -> & Hlt' & Hsl)].
  - exists A', sl', st', false. rewrite Z.eqb_refl, H3. auto 12 with lia.
  - rewrite split_nonnull by done. rewrite P1 in Hsl.
    destruct (mark_user_spec A' sl' st' (a / 4096 * 4096) H1) as (M1 & (M2 & M3 & M4) & M5); [lia|].
    set (st2 := mark_user_covering_levels _ st') in *. clearbody st2.
    rewrite P1 in M5. specialize (M5 s Hsl).
    assert (0 <= a / TWO_MIB < 512) as Hi by (rewrite <- P1; apply addr_gib0; lia).
    rewrite al_mask, enc_user4k by (apply scratch_al; lia).
    eexists _, sl', _, true. split; [done|]. split.
    + eapply (repr_wr_pte _ _ _ _ _ _ _ (Some (mkLeaf (LOW_SCRATCH (low_next st)) true false)));
        [exact M1|exact Hi|exact P2|exact Hsl|exact M5|].
      split; [apply scratch_al; cbn; lia|by split].
    + cbn. rewrite M2, M3, M4, H3, H4. split; [done|]. split; [|lia].
      exists A'. rewrite <- P3. split; [done|]. split; [by apply P6|done].
Qed.

(** The edits made after boot: a guard page below a new kernel stack, and a
    scratch frame for a stray ring-3 access below 2 MiB. *)
Inductive pg_op := OpGuard (a : Z) | OpLow (a : Z).
Definition op_addr (op : pg_op) : Z := match op with OpGuard a | OpLow a => a end.
Definition pg_step (st : tables) (op : pg_op) : tables :=
  match op with
  | OpGuard a => fst (map_guard_page a st)
  | OpLow a => fst (map_low_scratch a st)
  end.
Definition pg_run (ops : list pg_op) : tables := foldl pg_step (init boot_tables) ops.

(** Ring-3 leaves are identity-mapped user pages, or low pages backed by a
    scratch frame of their own. *)
Record confined (A : pmap) (low : Z) : Prop := {
  c_user p l : 0 <= p < 2 ^ 18 -> A p = Some l -> l_user l = true ->
    (user_region (p * 4096) = true /\ l_frame l = p * 4096)
    \/ (p < 512 /\ exists k, 0 <= k < 16 /\ k < low /\ l_frame l = LOW_SCRATCH k);
  c_inj p q l m : 0 <= p < 2 ^ 18 -> 0 <= q < 2 ^ 18 -> A p = Some l -> A q = Some m ->
    l_user l = true -> l_user m = true -> l_frame l = l_frame m -> p = q;
}.

Lemma confined_init : confined A_init 0.
Proof.
  constructor.
  - intros p l Hp [= <-] Hu. left. by split.
  - intros p q l m Hp Hq [= <-] [= <-] _ _ E. simpl in E. lia.
Qed.

Lemma confined_restricts A A' low low' :
  confined A low -> restricts A A' -> low <= low' -> confined A' low'.
Proof.
  intros HC HR Hl.
  assert (forall p l, A' p = Some l -> l_user l = true -> A p = Some l) as Hu.
  { intros p l E Hlu. destruct (HR p) as [E'|E']; [congruence|].
    rewrite E in E'. destruct (A p); simplify_eq/=. }
  constructor.
  - intros p l Hp E Hlu. destruct (c_user _ _ HC p l Hp (Hu _ _ E Hlu) Hlu) as [|(?&k&?&?&?)];
      [by left|right]. split; [done|]. exists k. auto with lia.
  - intros p q l m Hp Hq E1 E2 U1 U2. eapply (c_inj _ _ HC); eauto.
Qed.

Lemma confined_none A low p : confined A low -> confined (fupd A p None) low.
Proof.
  intros HC. constructor.
  - intros q l Hq. unfold fupd. case_match; [done|]. by apply HC.
  - intros q r l m Hq Hr. unfold fupd. repeat case_match; try done. by apply HC.
Qed.

Lemma scratch_not_user k : 0 <= k < 16 -> user_region (LOW_SCRATCH k) = false.
Proof. intros. pose proof lay_image. unfold LOW_SCRATCH, user_region. lia. Qed.

Lemma confined_low A low p :
  confined A low -> 0 <= p < 512 -> 0 <= low < 16 ->
  confined (fupd A p (Some (mkLeaf (LOW_SCRATCH low) true false))) (low + 1).
Proof.
  intros HC Hp Hl.
  assert (Hold : forall q m, 0 <= q < 2 ^ 18 -> A q = Some m -> l_user m = true ->
    l_frame m <> LOW_SCRATCH low).
  { intros q m Hq E U Hf. destruct (c_user _ _ HC q m Hq E U) as [[Hr Hid]|(_&k&_&Hk&Hk')].
    - rewrite <- Hid, Hf, scratch_not_user in Hr; [done|lia].
    - rewrite Hk' in Hf. unfold LOW_SCRATCH in Hf. lia. }
  constructor.
  - intros q l Hq. unfold fupd. destruct (Z.eqb_spec q p) as [->|].
    + intros [= <-] _. right. split; [lia|]. exists low. auto with lia.
    + intros E U. destruct (c_user _ _ HC q l Hq E U) as [|(?&k&?&?&?)]; [by left|right].
      split; [done|]. exists k. auto with lia.
  - intros q r l m Hq Hr. unfold fupd.
    destruct (Z.eqb_spec q p) as [->|], (Z.eqb_spec r p) as [->|]; [done| | |by apply HC].
    + intros [= <-] E _ U Hf. simpl in Hf. by destruct (Hold r m Hr E U).
    + intros E [= <-] U _ Hf. simpl in Hf. by destruct (Hold q l Hq E U).
Qed.

(** The invariant of every state reached at run time, after [n] edits. *)
Definition pg_inv (n : Z) (st : tables) : Prop :=
  exists A sl, repr A sl st /\ confined A (low_next st) /\ grows init_slots sl
    /\ cr3 st = pml4_base /\ 0 <= low_next st <= n /\ split_next st <= 9 + n.

Lemma pg_inv_init : pg_inv 0 (init boot_tables).
Proof.
  destruct init_repr as (H1 & H2 & H3 & H4). exists A_init, init_slots.
  rewrite H2, H3. split; [done|]. split; [apply confined_init|]. split; [by intros i|].
  split; [done|]. lia.
Qed.

Lemma pg_inv_step n st op :
  pg_inv n st -> 0 <= op_addr op -> 0 <= n < 2 ^ 63 -> pg_inv (n + 1) (pg_step st op).
Proof.
  intros (A & sl & HR & HC & Hg & Hcr & Hl & Hs) Ha Hn. destruct op as [a|a]; simpl in *.
  - destruct (map_guard_page_repr A sl st a HR Ha) as (A' & sl' & st' & r & E & H1 & G & H2 & _ & H4 & H5 & H6);
      [lia|]. rewrite E. simpl. exists A', sl'. rewrite H4, H5.
    split; [done|]. split; [|split; [intros i s Hi; auto|lia]].
    destruct H2 as [H2|(A1 & H2 & ->)]; [by eapply confined_restricts|].
    apply confined_none. by eapply confined_restricts.
  - destruct (map_low_scratch_repr A sl st a HR Ha) as (A' & sl' & st' & b & E & H1 & G & H2 & H3 & H3' & H4 & H5);
      [lia..|]. rewrite E. simpl. exists A', sl'. rewrite H4.
    split; [done|]. split; [|split; [intros i s Hi; auto|lia]].
    destruct b; [|eapply confined_restricts; [done|done|lia]].
    destruct H2 as (A1 & H2 & Ha2 & Hl16 & ->). rewrite H3' by done.
    apply confined_low; [by eapply confined_restricts| |lia].
    unfold TWO_MIB in Ha2. Z.div_mod_to_equations. lia.
Qed.

Lemma pg_inv_run ops :
  Forall (fun op => 0 <= op_addr op) ops -> len ops < 2 ^ 63 -> pg_inv (len ops) (pg_run ops).
Proof.
  unfold pg_run. induction ops as [|op ops IH] using rev_ind; [intros; apply pg_inv_init|].
  intros [H1 H2]%Forall_app. rewrite len_app, foldl_app.
  change (len [op]) with 1. intros Hl. pose proof (len_nonneg ops).
  apply pg_inv_step; [apply IH; [done|lia]|by inversion H2|lia].
Qed.

(** ** Properties *)

(** C1.  Confinement.  Whatever guard pages and low scratch frames have been
    installed since boot, and whichever canonical address of the 64-bit space
    ring 3 uses, an address it can reach is either an identity-mapped address
    of the user regions (all of them below 3 GiB), or lies below 2 MiB and is
    backed by one of the sixteen scratch frames: no other physical page of the
    kernel is ever reachable from ring 3, and nothing at all is mapped from
    4 GiB upwards. *)
Theorem runtime_confinement ops a x :
  Forall (fun op => 0 <= op_addr op) ops -> len ops < 2 ^ 63 -> canonical a ->
  hw_walk (pg_run ops) a = Some x -> x_user x = true ->
  (user_region a = true /\ a < 3 * GIB /\ x_phys x = a)
  \/ (a < TWO_MIB /\ exists k, 0 <= k < 16 /\ LOW_SCRATCH k <= x_phys x < LOW_SCRATCH k + 4096).
Proof.
  intros Hops Hl Hca Hw Hu.
  destruct (pg_inv_run ops Hops Hl) as (A & sl & HR & HC & _ & Hcr & _).
  destruct (Z.leb_spec (4 * GIB) a) as [H4|H4].
  { by rewrite (walk_beyond A sl) in Hw. }
  assert (0 <= a < 4 * GIB) as Ha by (destruct Hca; unfold GIB in *; lia).
  destruct (Z.ltb_spec a GIB) as [Hlt|Hge].
  - rewrite (walk_low A sl) in Hw by (done || lia).
    destruct (A (a / 4096)) as [l|] eqn:El; [|done]. injection Hw as <-. simpl in *.
    destruct (c_user _ _ HC (a / 4096) l) as [[Hr ->]|(Hp & k & Hk & _ & ->)]; auto.
    + unfold GIB in *. Z.div_mod_to_equations. lia.
    + left. split; [|split; [unfold GIB in *; lia|Z.div_mod_to_equations; lia]].
      unfold user_region in *. Z.div_mod_to_equations. lia.
    + right. split; [unfold TWO_MIB; Z.div_mod_to_equations; lia|].
      exists k. split; [done|]. Z.div_mod_to_equations. lia.
  - rewrite (walk_high A sl) in Hw by (done || lia). injection Hw as <-. simpl in *.
    left. unfold user_region, GIB in *. lia.
Qed.

(** C2.  The boot map.  After [init], every address below 4 GiB translates to
    itself and is writable; exactly the user regions are accessible from ring
    3; and exactly the user stack and the kernel data are non-executable. *)
Theorem init_identity_map a :
  0 <= a < 4 * GIB ->
  hw_walk (init boot_tables) a = Some (mkXlate a (user_region a) true (nx_region a)).
Proof.
  intros Ha. destruct init_repr as (HR & _ & _ & Hcr).
  destruct (Z.ltb_spec a GIB) as [Hlt|Hge].
  - rewrite (walk_low A_init init_slots) by (done || lia). cbn.
    do 2 f_equal; unfold user_region, nx_region; Z.div_mod_to_equations; lia.
  - rewrite (walk_high A_init init_slots) by (done || lia).
    do 2 f_equal; unfold user_region, nx_region, GIB in *; lia.
Qed.

(** C3.  The confused-deputy guard [user_accessible] is exact: in every state
    of the tables whose root is loaded in CR3, it accepts a range iff the range
    is empty, or ends at or below 4 GiB and the processor would let ring 3
    touch every byte of it. *)
Theorem user_accessible_exact st a n :
  cr3 st = pml4_base -> 0 <= a -> 0 <= n ->
  user_accessible st a n = true <->
  n = 0 \/ (a + n <= 4 * GIB
            /\ forall b, a <= b < a + n -> exists x, hw_walk st b = Some x /\ x_user x = true).
Proof.
  intros Hcr Ha Hn. destruct (decide (n = 0)) as [->|Hnz].
  { split; [by left|]. intros _. unfold user_accessible. by rewrite Z.eqb_refl. }
  rewrite user_accessible_pages by lia. setoid_rewrite (page_is_user_walk st _ Hcr).
  split.
  - intros [Hle Hb]. right. split; [done|]. intros b Hb'. specialize (Hb b Hb').
    destruct (hw_walk st b); [eauto|done].
  - intros [?|[Hle Hb]]; [lia|]. split; [done|]. intros b Hb'.
    by destruct (Hb b Hb') as (x & -> & ?).
Qed.

(** A guard page in the arena, after any edits. *)
Lemma arena_guard ops a :
  Forall (fun op => 0 <= op_addr op) ops -> len ops < 2 ^ 62 ->
  KSTACK_ARENA_BASE <= a < KSTACK_ARENA_BASE + KSTACK_ARENA_SIZE ->
  exists st', map_guard_page a (pg_run ops) = (st', a / 4096 * 4096)
    /\ forall b, 0 <= b < 4 * GIB ->
       hw_walk st' b = if b / 4096 =? a / 4096 then None else hw_walk (pg_run ops) b.
Proof.
  intros Hops Hl Ha.
  destruct (pg_inv_run ops Hops) as (A & sl & HR & HC & Hg & Hcr & _); [lia|].
  set (st := pg_run ops) in *. clearbody st.
  unfold KSTACK_ARENA_BASE, KSTACK_ARENA_SIZE in Ha.
  assert (56 <= a / TWO_MIB < 64) as Har.
  { clear -Ha. unfold TWO_MIB. Z.div_mod_to_equations. lia. }
  destruct (page_idx a) as (P1 & P2 & P3 & P4 & P5 & P6); [lia|].
  assert (0 <= a / 4096 * 4096 < GIB) as Hpg by (split; [done|apply P5; unfold GIB; lia]).
  assert (0 <= a / TWO_MIB < 512) as Hi by (rewrite <- P1; by apply addr_gib0).
  assert (sl (a / TWO_MIB) = Some (a / TWO_MIB - 56)) as Hsl.
  { apply Hg. unfold init_slots, arena_slots. repeat case_match; zb; try done; lia. }
  unfold map_guard_page. rewrite round_4k.
  rewrite (ensure_pt_split A sl st _ (a / TWO_MIB - 56)) by (rewrite ?P1; done).
  pose proof (r_regions _ _ _ HR _ Hi) as Hr. rewrite Hsl in Hr.
  destruct Hr as (Hs & _ & ud & Hud & _). rewrite split_nonnull by done.
  eexists. split; [done|]. intros b Hb.
  set (j := _ mod TWO_MIB / FOUR_KIB) in *. set (st' := wr _ j 0 st).
  assert (repr (fupd A (a / 4096) None) sl st') as HR'.
  { rewrite P3. by eapply repr_wr_pte. }
  destruct (Z.ltb_spec b GIB) as [Hlt|Hge].
  - rewrite (walk_low _ _ st' b HR'), (walk_low A sl st) by (done || lia).
    unfold fupd. by destruct (b / 4096 =? a / 4096).
  - rewrite (walk_high _ _ st' b HR'), (walk_high A sl st) by (done || lia).
    case_match; [|done]. zb. unfold GIB in *. Z.div_mod_to_equations. lia.
Qed.

(** A guard page in the kernel-stack arena is always installed, whatever
    was installed before: it returns the page, every later access to that page
    faults, and the translation of every other address is unchanged. *)
Theorem arena_guard_exact ops a :
  Forall (fun op => 0 <= op_addr op) ops -> len ops < 2 ^ 62 ->
  KSTACK_ARENA_BASE <= a < KSTACK_ARENA_BASE + KSTACK_ARENA_SIZE ->
  exists st', map_guard_page a (pg_run ops) = (st', a / 4096 * 4096)
    /\ forall b, 0 <= b < 4 * GIB ->
       hw_walk st' b = if b / 4096 =? a / 4096 then None else hw_walk (pg_run ops) b.
Proof. apply arena_guard. Qed.

End Boot.

(** A concrete placement of the statics. *)
#[local] Instance demo_layout : Layout := {|
  pml4_base := 0x10000000; pdpt_base := 0x10001000; pds_base := 0x10002000;
  split_base := 0x10006000; scratch_base := 0x10016000 |}.

#[local] Instance demo_layout_ok : LayoutOk demo_layout.
Proof. constructor; cbn; repeat split; first [reflexivity | lia]. Qed.

Lemma runtime_confinement_witness :
  exists x, hw_walk (pg_run [OpGuard 0x07000000; OpLow 0x2be4]) 0x2be4 = Some x
  /\ x_user x = true
  /\ ((user_region 0x2be4 = true /\ 0x2be4 < 3 * GIB /\ x_phys x = 0x2be4)
      \/ (0x2be4 < TWO_MIB /\ exists k, 0 <= k < 16
          /\ LOW_SCRATCH k <= x_phys x < LOW_SCRATCH k + 4096)).
Proof.
  eexists. split; [vm_compute; reflexivity|]. split; [reflexivity|].
  eapply (runtime_confinement [OpGuard 0x07000000; OpLow 0x2be4] 0x2be4).
  - repeat constructor; done.
  - vm_compute. reflexivity.
  - left. lia.
  - vm_compute. reflexivity.
  - reflexivity.
Defined.

Lemma init_identity_map_witness :
  hw_walk (init boot_tables) 0x0E000000 = Some (mkXlate 0x0E000000 true true true).
Proof. apply (init_identity_map 0x0E000000). unfold GIB. lia. Defined.

Lemma user_accessible_exact_witness :
  user_accessible (init boot_tables) 0x00500000 8 = true
  /\ (8 = 0 \/ (0x00500000 + 8 <= 4 * GIB /\ forall b, 0x00500000 <= b < 0x00500000 + 8 ->
        exists x, hw_walk (init boot_tables) b = Some x /\ x_user x = true)).
Proof.
  assert (user_accessible (init boot_tables) 0x00500000 8 = true) as E by (vm_compute; reflexivity).
  split; [exact E|].
  apply (user_accessible_exact (init boot_tables) 0x00500000 8);
    [vm_compute; reflexivity|lia|lia|exact E].
Defined.

Lemma arena_guard_exact_witness :
  exists st', map_guard_page 0x07005678 (pg_run [OpLow 0]) = (st', 0x07005000)
    /\ forall b, 0 <= b < 4 * GIB ->
       hw_walk st' b = if b / 4096 =? 0x07005 then None else hw_walk (pg_run [OpLow 0]) b.
Proof.
  apply (arena_guard_exact [OpLow 0] 0x07005678).
  - repeat constructor; done.
  - vm_compute. reflexivity.
  - unfold KSTACK_ARENA_BASE, KSTACK_ARENA_SIZE. lia.
Defined.
