(* ===== verification/Uaccess.v ===== *)
(** * Guarded access to user memory

    Models [src/src/uaccess.rs] over a machine with page tables, physical
    bytes and the AC flag.  With SMAP enabled a ring-0 access faults when the
    page is a user page and AC is clear, and when the page is not mapped; a
    ring-0 fault halts the kernel ([Panic]).  The class [UserMem] is what the
    guard promises to the rest of the kernel. *)

From S2P Require Import Prelude Paging PagingRefine Confinement.

Record machine := mkMachine { tabs : tables; ram : gmap Z Z; ac : bool }.

Definition peek (m : machine) (pa : Z) : Z := default 0 (ram m !! pa).

(** A ring-0 load and store of one byte, under SMAP. *)
Definition vload (m : machine) (va : Z) : outcome Z :=
  match hw_walk (tabs m) va with
  | Some x => if x_user x && negb (ac m) then Panic else Ret (peek m (x_phys x))
  | None => Panic
  end.
Definition vstore (m : machine) (va b : Z) : outcome machine :=
  match hw_walk (tabs m) va with
  | Some x =>
      if (x_user x && negb (ac m)) || negb (x_write x) then Panic
      else Ret (mkMachine (tabs m) (<[x_phys x := b]> (ram m)) (ac m))
  | None => Panic
  end.

(** [copy_nonoverlapping] from and to virtual addresses. *)
Fixpoint vload_n (n : nat) (m : machine) (va : Z) : outcome (list Z) :=
  match n with
  | O => Ret []
  | S n' => b ← vload m va; bs ← vload_n n' m (va + 1); Ret (b :: bs)
  end.
Fixpoint vstore_n (m : machine) (va : Z) (bs : list Z) : outcome machine :=
  match bs with
  | [] => Ret m
  | b :: bs' => m' ← vstore m va b; vstore_n m' (va + 1) bs'
  end.

Definition stac (m : machine) : machine := mkMachine (tabs m) (ram m) true.
Definition clac (m : machine) : machine := mkMachine (tabs m) (ram m) false.

Section Uaccess.
Context `{Layout}.

Definition with_user_access {R} (m : machine) (ptr len_ : Z)
    (f : machine -> Z -> outcome (machine * R)) : outcome (machine * result R) :=
  if negb (user_accessible (tabs m) ptr len_) then Ret (m, Err (- EFAULT)) else
  mr ← f (stac m) ptr;
  Ret (clac (fst mr), Ok (snd mr)).

(** [dst] is returned; its length is [n]. *)
Definition copy_from_user (m : machine) (n src : Z) : outcome (machine * result (list Z)) :=
  if negb (user_accessible (tabs m) src n) then Ret (m, Err (- EFAULT)) else
  let m := stac m in
  bs ← vload_n (Z.to_nat n) m src;
  Ret (clac m, Ok bs).

Definition read_user_u32 (m : machine) (addr : Z) : outcome (machine * result Z) :=
  if negb (user_accessible (tabs m) addr 4) then Ret (m, Err (- EFAULT)) else
  let m := stac m in
  bs ← vload_n 4 m addr;
  Ret (clac m, Ok (le_val bs)).

Definition write_user_u32 (m : machine) (addr val : Z) : outcome (machine * result unit) :=
  if negb (user_accessible (tabs m) addr 4) then Ret (m, Err (- EFAULT)) else
  let m := stac m in
  m ← vstore_n m addr (le_bytes 4 val);
  Ret (clac m, Ok tt).

(** The [while n < dst.len()] loop with [left] bytes of room. *)
Fixpoint cstr_loop (left : nat) (m : machine) (src n : Z) (dst : list Z)
    : outcome (machine * result (list Z)) :=
  match left with
  | O => Ret (m, Ok dst)
  | S left' =>
      let p := src ⊞ n in
      if negb (user_accessible (tabs m) p 1) then Ret (m, Err (- EFAULT)) else
      let m := stac m in
      b ← vload m p;
      let m := clac m in
      if b =? 0 then Ret (m, Ok dst) else cstr_loop left' m src (n + 1) (dst ++ [b])
  end.

(** The bytes copied (the returned length is their number); [cap] is [dst.len()]. *)
Definition copy_user_cstr (m : machine) (cap src : Z) : outcome (machine * result (list Z)) :=
  cstr_loop (Z.to_nat cap) m src 0 [].

Definition copy_to_user (m : machine) (dst : Z) (src : list Z) : outcome (machine * result unit) :=
  if negb (user_accessible (tabs m) dst (len src)) then Ret (m, Err (- EFAULT)) else
  let m := stac m in
  m ← vstore_n m dst src;
  Ret (clac m, Ok tt).

End Uaccess.

(** ** The contract with the rest of the kernel *)

(** [um_in a n]: the [n] bytes at [a], [None] for EFAULT.  [um_out a bs]: the
    memory after storing [bs] at [a], [None] for EFAULT.  [um_raw a bs]: a
    plain store that does not go through the guard. *)
Class UserMem (M : Type) := {
  um_in : M -> Z -> Z -> option (list Z);
  um_out : M -> Z -> list Z -> option M;
  um_raw : M -> Z -> list Z -> outcome M;
}.

Class UserMemLaws (M : Type) `{UserMem M} (wf : M -> Prop) : Prop := {
  um_in_len m a n bs : wf m -> 0 <= a -> 0 <= n -> um_in m a n = Some bs -> len bs = n;
  um_out_wf m a bs m' : wf m -> 0 <= a -> um_out m a bs = Some m' -> wf m';
  um_in_out m a bs m' : wf m -> 0 <= a -> um_out m a bs = Some m' ->
    um_in m' a (len bs) = Some bs;
  um_in_same m a bs m' b n : wf m -> 0 <= a -> 0 <= b -> 0 <= n -> um_out m a bs = Some m' ->
    is_Some (um_in m' b n) <-> is_Some (um_in m b n);
  um_out_in m a bs : wf m -> 0 <= a -> is_Some (um_in m a (len bs)) <-> is_Some (um_out m a bs);
  um_in_prefix m a n k : wf m -> 0 <= a -> 0 <= k <= n -> is_Some (um_in m a n) -> is_Some (um_in m a k);
}.

#[export] Instance machine_user_mem `{Layout} : UserMem machine := {|
  um_in m a n := match copy_from_user m n a with Ret (_, Ok bs) => Some bs | _ => None end;
  um_out m a bs := match copy_to_user m a bs with Ret (m', Ok _) => Some m' | _ => None end;
  um_raw m a bs := vstore_n m a bs;
|}.

(** ** Lemmas *)

Section Lemmas.
Context `{HL : LayoutOk}.

(** Tables reached at run time, and AC clear: the state in which system calls
    start. *)
Definition wf_machine (m : machine) : Prop := (exists n, pg_inv n (tabs m)) /\ ac m = false.

(** Ring 3 may touch [va]. *)
Definition user_at (st : tables) (va pa : Z) : Prop :=
  0 <= va < 4 * GIB /\ exists x, hw_walk st va = Some x /\ x_user x = true /\ x_phys x = pa.

#[export] Instance user_at_dec st va pa : Decision (user_at st va pa).
Proof.
  unfold user_at. apply and_dec; [apply _|].
  destruct (hw_walk st va) as [x|]; [|right; by intros (? & ? & _)].
  destruct (decide (x_user x = true /\ x_phys x = pa)) as [[??]|Hn].
  - left. by exists x.
  - right. intros (y & [= <-] & ?). by apply Hn.
Defined.

Definition user_range (st : tables) (va n : Z) : Prop :=
  forall k, 0 <= k < n -> exists pa, user_at st (va + k) pa.

Lemma pg_writable n st a x :
  pg_inv n st -> 0 <= a < 4 * GIB -> hw_walk st a = Some x -> x_write x = true.
Proof.
  intros (A & sl & HR & _ & _ & Hcr & _) Ha Hw. destruct (Z.ltb_spec a GIB).
  - rewrite (walk_low A sl) in Hw by (done || lia). destruct (A _); [|done]. by injection Hw as <-.
  - rewrite (walk_high A sl) in Hw by (done || lia). by injection Hw as <-.
Qed.

(** Different user addresses never share a physical byte. *)
Lemma user_at_inj n st a b pa :
  pg_inv n st -> user_at st a pa -> user_at st b pa -> a = b.
Proof.
  intros (A & sl & HR & HC & _ & Hcr & _).
  assert (Hcase : forall a, user_at st a pa ->
    (a = pa /\ (pa < GIB -> user_region pa = true) /\ GIB <= a) \/
    (a < GIB /\ exists l, A (a / 4096) = Some l /\ l_user l = true
       /\ l_frame l + a mod 4096 = pa /\ l_frame l mod 4096 = 0 /\ pa < GIB)).
  { intros c (Hc & x & Hw & Hu & Hp). destruct (Z.ltb_spec c GIB) as [Hlt|Hge].
    - right. split; [done|]. rewrite (walk_low A sl) in Hw by (done || lia).
      destruct (A (c / 4096)) as [l|] eqn:El; [|done]. injection Hw as <-. simpl in *.
      exists l. split; [done|]. split; [done|]. split; [done|].
      destruct (c_user _ _ HC (c / 4096) l) as [[_ E]|(_ & k & Hk & _ & E)]; auto.
      + unfold GIB in *. Z.div_mod_to_equations. lia.
      + rewrite E in *. split; [apply Z_mod_mult|].
        unfold GIB in *. Z.div_mod_to_equations. lia.
      + destruct (scratch_al k Hk) as [_ Hal]. rewrite E in *. split; [done|].
        pose proof lay_image. unfold LOW_SCRATCH, GIB in *.
        pose proof (Z.mod_pos_bound c 4096). lia.
    - left. rewrite (walk_high A sl) in Hw by (done || lia). injection Hw as <-.
      simpl in *. subst. split; [done|]. split; [lia|done]. }
  intros Ha Hb. destruct (Hcase a Ha) as [(-> & _ & Ha1)|(Ha1 & l & L1 & L2 & L3 & L4 & L5)],
    (Hcase b Hb) as [(-> & _ & Hb1)|(Hb1 & l' & M1 & M2 & M3 & M4 & M5)]; try lia.
  destruct Ha as [Ha _], Hb as [Hb _].
  assert (l_frame l = l_frame l') as Hf by (clear -L3 L4 M3 M4; Z.div_mod_to_equations; lia).
  assert (a / 4096 = b / 4096) as Hp.
  { apply (c_inj _ _ HC _ _ l l'); auto; unfold GIB in *; clear -Ha1 Hb1 Ha Hb; Z.div_mod_to_equations; lia. }
  clear -L3 M3 Hf Hp. Z.div_mod_to_equations. lia.
Qed.

Lemma user_range_accessible n st a len_ :
  pg_inv n st -> 0 <= a -> 0 <= len_ -> user_accessible st a len_ = true -> user_range st a len_.
Proof.
  intros Hpg Ha Hl Hacc k Hk. pose proof Hpg as (A & sl & _ & _ & _ & Hcr & _).
  apply user_accessible_pages in Hacc as [Hle Hb]; [|done|lia].
  specialize (Hb (a + k) ltac:(lia)). rewrite page_is_user_walk in Hb by done.
  destruct (hw_walk st (a + k)) as [x|] eqn:E; [|done].
  exists (x_phys x). split; [lia|]. eauto.
Qed.

(** *** Bulk loads and stores with the window open *)
Lemma vload_user m va pa : user_at (tabs m) va pa -> ac m = true -> vload m va = Ret (peek m pa).
Proof.
  intros (_ & x & Hw & Hu & <-) Hac. unfold vload. by rewrite Hw, Hu, Hac.
Qed.

Lemma vload_n_user n m va :
  ac m = true -> user_range (tabs m) va (Z.of_nat n) ->
  exists bs, vload_n n m va = Ret bs /\ len bs = Z.of_nat n /\
    forall k pa, 0 <= k < Z.of_nat n -> user_at (tabs m) (va + k) pa ->
      bs !! Z.to_nat k = Some (peek m pa).
Proof.
  intros Hac. revert va. induction n as [|n IH]; intros va Hr; cbn [vload_n].
  - exists []. split; [done|]. split; [done|]. lia.
  - destruct (Hr 0) as [pa Hpa]; [lia|]. rewrite Z.add_0_r in Hpa.
    rewrite (vload_user m va pa) by done. cbn.
    destruct (IH (va + 1)) as (bs & E & Hl & Hk).
    { intros k Hk. destruct (Hr (k + 1)) as [pa' Hpa']; [lia|]. exists pa'.
      by replace (va + 1 + k) with (va + (k + 1)) by lia. }
    rewrite E. exists (peek m pa :: bs). split; [done|]. split; [rewrite len_cons; lia|].
    intros k pa' Hkr Hu. destruct (decide (k = 0)) as [->|Hk0].
    + rewrite Z.add_0_r in Hu. destruct Hpa as (? & x & Hw & _ & <-), Hu as (_ & x' & Hw' & _ & <-).
      simpl. congruence.
    + replace (Z.to_nat k) with (S (Z.to_nat (k - 1))) by lia. simpl. apply Hk; [lia|].
      by replace (va + 1 + (k - 1)) with (va + k) by lia.
Qed.

Lemma peek_insert m pa pa' b st a :
  peek (mkMachine st (<[pa := b]> (ram m)) a) pa' = if pa' =? pa then b else peek m pa'.
Proof.
  unfold peek. simpl. destruct (Z.eqb_spec pa' pa) as [->|]; [by rewrite lookup_insert_eq|].
  by rewrite lookup_insert_ne.
Qed.

Lemma vstore_n_user n bs : forall m va,
  pg_inv n (tabs m) -> ac m = true -> user_range (tabs m) va (len bs) ->
  exists m', vstore_n m va bs = Ret m' /\ tabs m' = tabs m /\ ac m' = true
    /\ (forall k pa, 0 <= k < len bs -> user_at (tabs m) (va + k) pa ->
        bs !! Z.to_nat k = Some (peek m' pa))
    /\ (forall pa, (forall k, 0 <= k < len bs -> ~ user_at (tabs m) (va + k) pa) ->
        peek m' pa = peek m pa).
Proof.
  induction bs as [|b bs IH]; intros m va Hpg Hac Hr; cbn [vstore_n].
  { exists m. repeat split; auto. intros k pa Hk. change (len (@nil Z)) with 0 in Hk. lia. }
  pose proof (len_nonneg bs) as Hl0. rewrite len_cons in *.
  destruct (Hr 0) as [pa Hpa]; [lia|]. rewrite Z.add_0_r in Hpa.
  pose proof Hpa as (Hva & x & Hw & Hu & Hx).
  unfold vstore at 1. rewrite Hw, Hu, Hac, (pg_writable n (tabs m) va x Hpg Hva Hw), Hx. cbn.
  set (m1 := mkMachine (tabs m) (<[pa := b]> (ram m)) true).
  destruct (IH m1 (va + 1)) as (m' & E & T & Hac' & Hin & Hout); [done|done| |].
  { intros k Hk. destruct (Hr (k + 1)) as [pa' Hpa']; [lia|]. exists pa'.
    by replace (va + 1 + k) with (va + (k + 1)) by lia. }
  exists m'. split; [done|]. split; [done|]. split; [done|]. split.
  - intros k pa' Hk Hua. destruct (decide (k = 0)) as [->|Hk0].
    + rewrite Z.add_0_r in Hua. assert (pa' = pa) as ->.
      { destruct Hua as (_ & y & Hy & _ & <-). congruence. }
      simpl. rewrite Hout; [unfold m1; by rewrite peek_insert, Z.eqb_refl|].
      intros k Hk' Hc. assert (va = va + 1 + k); [|lia].
      by eapply user_at_inj.
    + replace (Z.to_nat k) with (S (Z.to_nat (k - 1))) by lia. simpl. apply Hin; [lia|].
      by replace (va + 1 + (k - 1)) with (va + k) by lia.
  - intros pa' Hno. rewrite Hout.
    + unfold m1. rewrite peek_insert. destruct (Z.eqb_spec pa' pa) as [->|]; [|done].
      destruct (Hno 0); [lia|]. by rewrite Z.add_0_r.
    + intros k Hk Hc. apply (Hno (k + 1)); [lia|].
      by replace (va + (k + 1)) with (va + 1 + k) by lia.
Qed.

(** *** The guard *)
Lemma stac_tabs m : tabs (stac m) = tabs m.
Proof. done. Qed.

Lemma copy_from_user_spec m n src :
  wf_machine m -> 0 <= src -> 0 <= n -> user_accessible (tabs m) src n = true ->
  exists bs, copy_from_user m n src = Ret (m, Ok bs) /\ len bs = n
    /\ forall k pa, 0 <= k < n -> user_at (tabs m) (src + k) pa -> bs !! Z.to_nat k = Some (peek m pa).
Proof.
  intros [[c Hpg] Hac] Hs Hn Hacc. unfold copy_from_user. rewrite Hacc. cbn [negb].
  pose proof (user_range_accessible c _ _ _ Hpg Hs Hn Hacc) as Hr.
  destruct (vload_n_user (Z.to_nat n) (stac m) src) as (bs & E & Hl & Hk); [done| |].
  { by rewrite Z2Nat.id by done. }
  rewrite Z2Nat.id in Hl, Hk by done. rewrite E. exists bs. cbn.
  split; [|done]. destruct m; simpl in *. by subst.
Qed.

Lemma copy_to_user_spec m dst bs :
  wf_machine m -> 0 <= dst -> user_accessible (tabs m) dst (len bs) = true ->
  exists m', copy_to_user m dst bs = Ret (m', Ok tt) /\ tabs m' = tabs m /\ wf_machine m'
    /\ (forall k pa, 0 <= k < len bs -> user_at (tabs m) (dst + k) pa ->
        bs !! Z.to_nat k = Some (peek m' pa))
    /\ (forall pa, (forall k, 0 <= k < len bs -> ~ user_at (tabs m) (dst + k) pa) ->
        peek m' pa = peek m pa).
Proof.
  intros [[c Hpg] Hac] Hs Hacc. unfold copy_to_user. rewrite Hacc. cbn [negb].
  pose proof (user_range_accessible c _ _ _ Hpg Hs (len_nonneg bs) Hacc) as Hr.
  destruct (vstore_n_user c bs (stac m) dst) as (m' & E & T & Ha & Hin & Hout); [done..|].
  rewrite E. exists (clac m'). cbn. split; [done|]. split; [done|].
  split; [split; [exists c; simpl; by rewrite T|done]|]. by split.
Qed.

(** Byte lists that agree at every index. *)
Lemma bytes_eq (l k : list Z) :
  len l = len k -> (forall i, 0 <= i < len l -> l !! Z.to_nat i = k !! Z.to_nat i) -> l = k.
Proof.
  intros Hl Hi. apply list_eq. intros i. destruct (decide (i < length l)%nat) as [Hlt|Hge].
  - specialize (Hi (Z.of_nat i)). rewrite Nat2Z.id in Hi. apply Hi. unfold len. lia.
  - unfold len in Hl. rewrite !lookup_ge_None_2 by lia. done.
Qed.

Lemma um_in_accessible m a n : wf_machine m -> 0 <= a -> 0 <= n ->
  is_Some (um_in m a n) <-> user_accessible (tabs m) a n = true.
Proof.
  intros Hm Ha Hn. cbn. split.
  - unfold copy_from_user. destruct (user_accessible _ _ _); [done|]. by intros [? ?].
  - intros Hacc. destruct (copy_from_user_spec m n a) as (bs & -> & _); [done..|]. by eexists.
Qed.

Lemma um_out_accessible m a bs : wf_machine m -> 0 <= a ->
  is_Some (um_out m a bs) <-> user_accessible (tabs m) a (len bs) = true.
Proof.
  intros Hm Ha. cbn. split.
  - unfold copy_to_user. destruct (user_accessible _ _ _); [done|]. by intros [? ?].
  - intros Hacc. destruct (copy_to_user_spec m a bs) as (m' & -> & _); [done..|]. by eexists.
Qed.

Lemma um_out_inv m a bs m' : wf_machine m -> 0 <= a -> um_out m a bs = Some m' ->
  user_accessible (tabs m) a (len bs) = true /\ tabs m' = tabs m /\ wf_machine m'
  /\ (forall k pa, 0 <= k < len bs -> user_at (tabs m) (a + k) pa ->
      bs !! Z.to_nat k = Some (peek m' pa)).
Proof.
  intros Hm Ha Ho. assert (user_accessible (tabs m) a (len bs) = true) as Hacc.
  { apply um_out_accessible; [done..|]. by eexists. }
  split; [done|]. destruct (copy_to_user_spec m a bs) as (m1 & E & T & W & Hin & _); auto.
  cbn in Ho. rewrite E in Ho. by injection Ho as <-.
Qed.

#[export] Instance machine_user_mem_laws : UserMemLaws machine wf_machine.
Proof.
  constructor.
  - intros m a n bs Hm Ha Hn Hi. assert (user_accessible (tabs m) a n = true) as Hacc.
    { apply um_in_accessible; [done..|]. by eexists. }
    destruct (copy_from_user_spec m n a) as (bs' & E & Hl & _); auto.
    cbn in Hi. rewrite E in Hi. by injection Hi as <-.
  - intros m a bs m' Hm Ha Ho. by apply um_out_inv in Ho as (_ & _ & ? & _).
  - intros m a bs m' Hm Ha Ho. apply um_out_inv in Ho as (Hacc & T & W & Hin); [|done..].
    destruct (copy_from_user_spec m' (len bs) a) as (bs' & E & Hl & Hk);
      [done|done|apply len_nonneg|by rewrite T|].
    cbn. rewrite E. f_equal. apply bytes_eq; [done|]. intros i Hi. rewrite Hl in Hi.
    destruct Hm as [[c Hpg] _].
    destruct (user_range_accessible c _ _ _ Hpg Ha (len_nonneg bs) Hacc i Hi) as [pa Hpa].
    rewrite (Hin i pa Hi Hpa). apply Hk; [done|by rewrite T].
  - intros m a bs m' b n Hm Ha Hb Hn Ho. apply um_out_inv in Ho as (_ & T & W & _); [|done..].
    by rewrite !um_in_accessible, T.
  - intros m a bs Hm Ha. rewrite um_out_accessible by done.
    apply um_in_accessible; [done|done|apply len_nonneg].
  - intros m a n k Hm Ha Hk. rewrite !um_in_accessible by lia || done. intros Hn.
    destruct (decide (k = 0)) as [->|]; [done|]. destruct Hm as [[c Hpg] _].
    destruct Hpg as (A & sl & _ & _ & _ & Hcr & _).
    apply user_accessible_pages in Hn as [Hle Hb]; [|lia|lia].
    apply user_accessible_pages; [lia|lia|]. split; [lia|]. intros b Hbk. apply Hb. lia.
Qed.

(** *** Strings *)

(** The string at [src]: bytes read until NUL or [cap], each one readable. *)
Inductive cstr_at (m : machine) : nat -> Z -> list Z -> Prop :=
| cstr_full src : cstr_at m 0 src []
| cstr_nul cap src pa : user_at (tabs m) src pa -> peek m pa = 0 -> cstr_at m (S cap) src []
| cstr_byte cap src pa b bs : user_at (tabs m) src pa -> peek m pa = b -> b <> 0 ->
    cstr_at m cap (src + 1) bs -> cstr_at m (S cap) src (b :: bs).

Lemma accessible_byte c st va : pg_inv c st -> 0 <= va ->
  user_accessible st va 1 = true <-> exists pa, user_at st va pa.
Proof.
  intros Hpg Hva. pose proof Hpg as (A & sl & _ & _ & _ & Hcr & _). split.
  - intros Hacc. destruct (user_range_accessible c st va 1 Hpg Hva ltac:(lia) Hacc 0) as [pa Hpa];
      [lia|]. exists pa. by rewrite Z.add_0_r in Hpa.
  - intros [pa (Hr & x & Hw & Hu & _)]. apply user_accessible_pages; [done|lia|].
    split; [lia|]. intros b Hb. assert (b = va) as -> by lia.
    by rewrite page_is_user_walk, Hw.
Qed.

Lemma cstr_loop_spec cap m src n dst :
  wf_machine m -> 0 <= src -> 0 <= n -> src + n + Z.of_nat cap < 2 ^ 64 ->
  (exists bs, cstr_at m cap (src + n) bs /\ cstr_loop cap m src n dst = Ret (m, Ok (dst ++ bs)))
  \/ ((forall bs, ~ cstr_at m cap (src + n) bs) /\ cstr_loop cap m src n dst = Ret (m, Err (- EFAULT))).
Proof.
  intros Hm Hs. revert n dst. induction cap as [|cap IH]; intros n dst Hn Hlt; cbn [cstr_loop].
  - left. exists []. rewrite app_nil_r. split; [constructor|done].
  - rewrite u64_small by lia. pose proof Hm as [[c Hpg] Hac].
    destruct (user_accessible (tabs m) (src + n) 1) eqn:Hacc; cbn [negb].
    2:{ right. split; [|done]. intros bs Hc. apply not_true_iff_false in Hacc. apply Hacc.
        rewrite accessible_byte by (done || lia). inversion Hc; subst; eauto. }
    pose proof Hacc as Hacc'. rewrite accessible_byte in Hacc' by (done || lia).
    destruct Hacc' as [pa Hpa]. rewrite (vload_user (stac m) (src + n) pa) by done. cbn.
    replace (clac (stac m)) with m by (destruct m; simpl in *; by subst).
    change (peek (stac m) pa) with (peek m pa).
    assert (Huniq : forall pa', user_at (tabs m) (src + n) pa' -> pa' = pa).
    { intros pa' (_ & y & Hy & _ & <-). destruct Hpa as (_ & z & Hz & _ & <-). congruence. }
    destruct (Z.eqb_spec (peek m pa) 0) as [H0|H0].
    + left. exists []. rewrite app_nil_r. split; [by econstructor|done].
    + destruct (IH (n + 1) (dst ++ [peek m pa])) as [(bs & Hb & E)|(Hno & E)]; [lia|lia| |].
      * left. exists (peek m pa :: bs). rewrite E, <- app_assoc. split; [|done].
        econstructor; [done..|]. by rewrite <- Z.add_assoc.
      * right. split; [|done]. intros bs Hc. rewrite Z.add_assoc in Hno.
        inversion Hc as [|? ? pa' Hu Hz|? ? pa' b bs' Hu Hz Hb Hrest]; subst.
        -- apply Huniq in Hu. by subst.
        -- by apply (Hno bs').
Qed.

(** A store that bypasses the guard faults on the first user byte. *)
Lemma raw_store_faults m va pa b bs :
  wf_machine m -> user_at (tabs m) va pa -> vstore_n m va (b :: bs) = Panic.
Proof.
  intros [_ Hac] (_ & x & Hw & Hu & _). cbn. unfold vstore. by rewrite Hw, Hu, Hac.
Qed.

(** ** Properties *)

(** C10.  [copy_to_user] is confined and exact.  It never faults and leaves AC
    clear; it either refuses with EFAULT and changes nothing, or every byte of
    the destination was ring-3 memory and reading it back gives the source.
    The only physical bytes it can change are those ring 3 itself can reach
    through the destination range: never kernel memory. *)
Theorem copy_to_user_confined m dst bs :
  wf_machine m -> 0 <= dst ->
  exists m' r, copy_to_user m dst bs = Ret (m', r) /\ wf_machine m'
    /\ (if user_accessible (tabs m) dst (len bs)
        then r = Ok tt /\ copy_from_user m' (len bs) dst = Ret (m', Ok bs)
        else r = Err (- EFAULT) /\ m' = m)
    /\ (forall pa, peek m' pa <> peek m pa ->
        exists k, 0 <= k < len bs /\ user_at (tabs m) (dst + k) pa).
Proof.
  intros Hm Hd. destruct (user_accessible (tabs m) dst (len bs)) eqn:Hacc.
  - destruct (copy_to_user_spec m dst bs) as (m' & E & T & W & Hin & Hout); [done..|].
    exists m', (Ok tt). split; [done|]. split; [done|]. split.
    + split; [done|].
      destruct (copy_from_user_spec m' (len bs) dst) as (bs' & E' & _);
        [done|done|apply len_nonneg|by rewrite T|].
      assert (um_in m' dst (len bs) = Some bs) as Hi.
      { apply (um_in_out m); [done|done|]. cbn. by rewrite E. }
      cbn in Hi. rewrite E' in Hi |- *. by injection Hi as ->.
    + intros pa Hne.
      destruct (decide (Exists (fun k => user_at (tabs m) (dst + k) pa) (seqZ 0 (len bs))))
        as [Hex|Hno].
      * apply Exists_exists in Hex as (k & Hk & Hu). apply elem_of_seqZ in Hk. exists k. auto.
      * exfalso. apply Hne, Hout. intros k Hk Hu. apply Hno, Exists_exists. exists k.
        split; [by apply elem_of_seqZ|done].
  - exists m, (Err (- EFAULT)). unfold copy_to_user. rewrite Hacc. do 3 (split; [done|]).
    by intros pa Hne.
Qed.

(** [copy_user_cstr] returns exactly the NUL-terminated string at the
    address, cut at the capacity, when every byte up to and including the
    terminator is ring-3 memory, and EFAULT otherwise; the machine, AC
    included, is unchanged. *)
Theorem copy_user_cstr_exact m cap src :
  wf_machine m -> 0 <= src -> 0 <= cap -> src + cap < 2 ^ 64 ->
  (exists bs, cstr_at m (Z.to_nat cap) src bs /\ copy_user_cstr m cap src = Ret (m, Ok bs))
  \/ ((forall bs, ~ cstr_at m (Z.to_nat cap) src bs)
      /\ copy_user_cstr m cap src = Ret (m, Err (- EFAULT))).
Proof.
  intros Hm Hs Hc Hlt. unfold copy_user_cstr.
  destruct (cstr_loop_spec (Z.to_nat cap) m src 0 []) as [(bs & ? & ?)|(? & ?)];
    [done|done|lia|lia| |]; rewrite ?Z.add_0_r in *; eauto.
Qed.

(** Futex words and clone tids: a [u32] written through the guard is read
    back through the guard, for every accessible address and 32-bit value. *)
Theorem user_u32_roundtrip m addr v :
  wf_machine m -> 0 <= addr -> 0 <= v < 2 ^ 32 -> user_accessible (tabs m) addr 4 = true ->
  exists m', write_user_u32 m addr v = Ret (m', Ok tt) /\ read_user_u32 m' addr = Ret (m', Ok v).
Proof.
  intros Hm Ha Hv Hacc.
  assert (write_user_u32 m addr v = copy_to_user m addr (le_bytes 4 v)) as -> by done.
  destruct (copy_to_user_spec m addr (le_bytes 4 v)) as (m' & E & T & W & _); [done|done|done|].
  exists m'. split; [done|].
  assert (um_in m' addr 4 = Some (le_bytes 4 v)) as Hi.
  { apply (um_in_out m addr (le_bytes 4 v)); [done|done|]. cbn [um_out machine_user_mem]. by rewrite E. }
  cbn [um_in machine_user_mem] in Hi. unfold copy_from_user in Hi. unfold read_user_u32.
  destruct (negb _); [done|]. change (Z.to_nat 4) with 4%nat in Hi.
  destruct (vload_n 4 (stac m') addr) as [bs|]; [|done].
  unfold mbind, outcome_bind in *. assert (bs = le_bytes 4 v) as -> by congruence.
  rewrite le_val_bytes. f_equal. f_equal.
  - destruct W as [_ Hac]. destruct m'; simpl in *. by subst.
  - f_equal. apply Z.mod_small. lia.
Qed.

End Lemmas.

(** A machine booted on a concrete layout, with a string at 0x500000. *)
#[local] Instance ua_layout : Layout := {|
  pml4_base := 0x10000000; pdpt_base := 0x10001000; pds_base := 0x10002000;
  split_base := 0x10006000; scratch_base := 0x10016000 |}.
#[local] Instance ua_layout_ok : LayoutOk ua_layout.
Proof. constructor; cbn; repeat split; first [reflexivity | lia]. Qed.
Definition demo_machine : machine :=
  mkMachine (init boot_tables) (<[0x500000 := 65]> (<[0x500001 := 66]> ∅)) false.
Lemma demo_machine_wf : wf_machine demo_machine.
Proof. split; [exists 0; apply pg_inv_init|done]. Qed.

Lemma copy_to_user_confined_witness :
  exists m' r, copy_to_user demo_machine 0x500000 [1; 2] = Ret (m', r) /\ wf_machine m'
    /\ (r = Ok tt /\ copy_from_user m' (len [1; 2]) 0x500000 = Ret (m', Ok [1; 2]))
    /\ (forall pa, peek m' pa <> peek demo_machine pa ->
        exists k, 0 <= k < len [1; 2] /\ user_at (tabs demo_machine) (0x500000 + k) pa).
Proof.
  pose proof (copy_to_user_confined demo_machine 0x500000 [1; 2] demo_machine_wf ltac:(lia)) as W.
  assert (user_accessible (tabs demo_machine) 0x500000 (len [1; 2]) = true) as E
    by (vm_compute; reflexivity).
  rewrite E in W. exact W.
Defined.

Lemma copy_user_cstr_exact_witness :
  (exists bs, cstr_at demo_machine (Z.to_nat 255) 0x500000 bs
     /\ copy_user_cstr demo_machine 255 0x500000 = Ret (demo_machine, Ok bs))
  \/ ((forall bs, ~ cstr_at demo_machine (Z.to_nat 255) 0x500000 bs)
      /\ copy_user_cstr demo_machine 255 0x500000 = Ret (demo_machine, Err (- EFAULT))).
Proof.
  apply (copy_user_cstr_exact demo_machine 255 0x500000); [apply demo_machine_wf|lia..].
Defined.

Lemma user_u32_roundtrip_witness :
  exists m', write_user_u32 demo_machine 0x600000 7 = Ret (m', Ok tt)
    /\ read_user_u32 m' 0x600000 = Ret (m', Ok 7).
Proof.
  apply (user_u32_roundtrip demo_machine 0x600000 7);
    [apply demo_machine_wf|lia|lia|vm_compute; reflexivity].
Defined.
