(* ===== verification/Tmpfs.v ===== *)
(** * The RAM filesystem

    Models [src/src/tmpfs.rs]: the node map, the open-file table and every
    system-call entry point.  Byte strings are lists of bytes; the ordered map
    of the source is a finite map whose [keys] are listed in byte order.  The
    spin lock is held for a whole operation, so each operation is one atomic
    step on [state].  User memory is reached through the interface [UserMem]. *)

From S2P Require Import Prelude TmpfsTree Uaccess.

Definition CAP : Z := 4 * 1024 * 1024.
Definition TMPFS_FD_BASE : Z := 4000.
Definition MAX_OPEN : Z := 256.
Definition O_WRONLY : Z := 1.
Definition O_RDWR : Z := 2.
Definition O_CREAT : Z := 64.
Definition O_EXCL : Z := 128.
Definition O_TRUNC : Z := 512.
Definition O_APPEND : Z := 1024.
Definition O_DIRECTORY : Z := 65536.

Record Node := mkNode { n_is_dir : bool; n_data : list Z; n_mode : Z }.

Record OpenFd := mkOpenFd {
  o_fd : Z;
  o_path : list Z;
  o_pos : Z;
  o_append : bool;
  o_writable : bool;
  o_is_dir : bool;
  o_dir_pos : Z;
}.

Record Tmpfs := mkTmpfs {
  nodes : gmap (list Z) Node;
  total : Z;
  opens : list OpenFd;
}.

(** [TMPFS] and [NEXT_FD]. *)
Record state := mkState { tmpfs : option Tmpfs; next_fd : Z }.

Definition set_nodes (ns : gmap (list Z) Node) (t : Z) (fs : Tmpfs) : Tmpfs :=
  mkTmpfs ns t (opens fs).
Definition set_opens (os : list OpenFd) (fs : Tmpfs) : Tmpfs :=
  mkTmpfs (nodes fs) (total fs) os.
Definition set_pos (p : Z) (o : OpenFd) : OpenFd :=
  mkOpenFd (o_fd o) (o_path o) p (o_append o) (o_writable o) (o_is_dir o) (o_dir_pos o).
Definition set_dir_pos (p : Z) (o : OpenFd) : OpenFd :=
  mkOpenFd (o_fd o) (o_path o) (o_pos o) (o_append o) (o_writable o) (o_is_dir o) p.
Definition put (fs : Tmpfs) (st : state) : state := mkState (Some fs) (next_fd st).

(** [fs.open.iter().position(|o| o.fd == fd)], with the entry. *)
Definition find_fd (fd : Z) (os : list OpenFd) : option (nat * OpenFd) :=
  list_find (fun o => o_fd o = fd) os.

(** [v.resize(n, 0)]: a capacity above [isize::MAX] panics. *)
Definition vec_resize (v : list Z) (n : Z) : outcome (list Z) :=
  if n <=? isize_max then Ret (resize (Z.to_nat n) 0 v) else Panic.

Definition init : state -> state := fun st =>
  put (mkTmpfs (<[TMP := mkNode true [] 511]> (<[DEV_SHM := mkNode true [] 511]> ∅)) 0 []) st.

Definition owns_path (path : list Z) : bool := is_mount_path (norm path).

Definition is_tmpfs_fd (st : state) (fd : Z) : bool :=
  if fd <? TMPFS_FD_BASE then false else
  match tmpfs st with
  | Some fs => existsb (fun o => o_fd o =? fd) (opens fs)
  | None => false
  end.

Definition alloc_fd (st : state) : state * Z :=
  (mkState (tmpfs st) (i32 (next_fd st + 1)), next_fd st).

(** Opening: push a descriptor for [path] with a fresh number. *)
Definition push_open (fs : Tmpfs) (st : state) (path : list Z) (pos : Z)
    (append writable is_dir : bool) : state * Z :=
  let '(st, fd) := alloc_fd st in
  (put (set_opens (opens fs ++ [mkOpenFd fd path pos append writable is_dir 0]) fs) st, fd).

(** Byte order of [Vec<u8>] keys. *)
Fixpoint lex_leb (a b : list Z) : bool :=
  match a, b with
  | [], _ => true
  | _ :: _, [] => false
  | x :: a', y :: b' => if x =? y then lex_leb a' b' else x <? y
  end.
Definition lex_le (a b : list Z) : Prop := lex_leb a b = true.
#[export] Instance lex_le_dec : RelDecision lex_le.
Proof. intros a b. unfold lex_le. apply _. Defined.
Definition keys (ns : gmap (list Z) Node) : list (list Z) :=
  merge_sort lex_le (map fst (map_to_list ns)).

Definition flag (flags bit : Z) : bool := negb (Z.land flags bit =? 0).

Definition open (path : list Z) (flags mode : Z) (st : state) : state * Z :=
  let n := norm path in
  match tmpfs st with
  | None => (st, - ENOENT)
  | Some fs =>
  if len (opens fs) >=? MAX_OPEN then (st, - EMFILE) else
  let acc := Z.land flags 3 in
  let writable := (acc =? O_WRONLY) || (acc =? O_RDWR) in
  match nodes fs !! n with
  | Some nd =>
      if flag flags O_CREAT && flag flags O_EXCL then (st, - EEXIST)
      else if n_is_dir nd then
        if writable then (st, - EISDIR)
        else push_open fs st n 0 false false true
      else if flag flags O_DIRECTORY then (st, - ENOTDIR)
      else
        let '(fs, nd) :=
          if flag flags O_TRUNC && writable then
            let nd' := mkNode false [] (n_mode nd) in
            (set_nodes (<[n := nd']> (nodes fs)) (total fs ⊟ len (n_data nd)) fs, nd')
          else (fs, nd) in
        let append := flag flags O_APPEND in
        let pos := if append then len (n_data nd) else 0 in
        push_open fs st n pos append writable false
  | None =>
      if negb (flag flags O_CREAT) then (st, - ENOENT)
      else if flag flags O_DIRECTORY then (st, - ENOENT)
      else match nodes fs !! parent n with
      | Some p =>
          if n_is_dir p then
            let perm := Z.land (u32 mode) 4095 in
            let perm := if perm =? 0 then 420 else perm in
            let fs := set_nodes (<[n := mkNode false [] perm]> (nodes fs)) (total fs) fs in
            push_open fs st n 0 false true false
          else (st, - ENOTDIR)
      | None => (st, - ENOENT)
      end
  end
  end.

Definition lseek (fd offset whence : Z) (st : state) : state * Z :=
  match tmpfs st with
  | None => (st, - EBADF)
  | Some fs =>
  match find_fd fd (opens fs) with
  | None => (st, - EBADF)
  | Some (i, o) =>
      let len_ := match nodes fs !! o_path o with Some nd => len (n_data nd) | None => 0 end in
      let seek base :=
        let np := i64 (base + offset) in
        if np <? 0 then (st, - EINVAL)
        else (put (set_opens (<[i := set_pos np o]> (opens fs)) fs) st, np) in
      if whence =? 0 then seek 0
      else if whence =? 1 then seek (i64 (o_pos o))
      else if whence =? 2 then seek len_
      else (st, - EINVAL)
  end
  end.

Definition resize_path (fs : Tmpfs) (path : list Z) (len_ : Z) : outcome (Tmpfs * Z) :=
  match nodes fs !! path with
  | None => Ret (fs, - ENOENT)
  | Some nd =>
  if n_is_dir nd then Ret (fs, - EISDIR) else
  let cur := len (n_data nd) in
  let finish t :=
    d ← vec_resize (n_data nd) len_;
    Ret (set_nodes (<[path := mkNode (n_is_dir nd) d (n_mode nd)]> (nodes fs)) t fs, 0) in
  if len_ >? cur then
    let grow := len_ ⊟ cur in
    if total fs ⊞ grow >? CAP then Ret (fs, - ENOSPC) else finish (total fs ⊞ grow)
  else finish (total fs ⊟ (cur ⊟ len_))
  end.

(** Runs a core on the filesystem and stores the result back. *)
Definition run_core (st : state) (r : outcome (Tmpfs * Z)) : outcome (state * Z) :=
  fr ← r; Ret (put (fst fr) st, snd fr).

Definition ftruncate (fd len_ : Z) (st : state) : outcome (state * Z) :=
  match tmpfs st with
  | None => Ret (st, - EBADF)
  | Some fs =>
  match find_fd fd (opens fs) with
  | None => Ret (st, - EBADF)
  | Some (_, o) =>
      if o_is_dir o then Ret (st, - EISDIR)
      else run_core st (resize_path fs (o_path o) len_)
  end
  end.

Definition truncate (path : list Z) (len_ : Z) (st : state) : outcome (state * Z) :=
  let n := norm path in
  match tmpfs st with
  | None => Ret (st, - ENOENT)
  | Some fs =>
      match nodes fs !! n with
      | None => Ret (st, - ENOENT)
      | Some _ => run_core st (resize_path fs n len_)
      end
  end.

Definition close (fd : Z) (st : state) : state * Z :=
  if fd <? TMPFS_FD_BASE then (st, - EBADF) else
  match tmpfs st with
  | None => (st, - EBADF)
  | Some fs =>
      match find_fd fd (opens fs) with
      | Some (i, _) => (put (set_opens (delete i (opens fs)) fs) st, 0)
      | None => (st, - EBADF)
      end
  end.

Definition unlink (path : list Z) (st : state) : state * Z :=
  let n := norm path in
  match tmpfs st with
  | None => (st, - ENOENT)
  | Some fs =>
      match nodes fs !! n with
      | None => (st, - ENOENT)
      | Some nd =>
          if n_is_dir nd then (st, - EISDIR)
          else (put (set_nodes (delete n (nodes fs)) (total fs ⊟ len (n_data nd)) fs) st, 0)
      end
  end.

Definition has_children (ns : gmap (list Z) Node) (dir : list Z) : bool :=
  existsb (fun k => is_under k dir) (keys ns).

Definition rename (old new : list Z) (st : state) : state * Z :=
  let o := norm old in
  let nw := norm new in
  if bool_decide (o = nw) then (st, 0) else
  match tmpfs st with
  | None => (st, - ENOENT)
  | Some fs =>
  match nodes fs !! o with
  | None => (st, - ENOENT)
  | Some src =>
  match nodes fs !! parent nw with
  | None => (st, - ENOENT)
  | Some p =>
  if negb (n_is_dir p) then (st, - ENOTDIR) else
  let src_is_dir := n_is_dir src in
  let finish fs :=
    if src_is_dir && has_children (nodes fs) o then (put fs st, - EINVAL)
    else (put (set_nodes (<[nw := src]> (delete o (nodes fs))) (total fs) fs) st, 0) in
  match nodes fs !! nw with
  | Some dst =>
      if negb (eqb (n_is_dir dst) src_is_dir) then
        (st, if n_is_dir dst then - EISDIR else - ENOTDIR)
      else if n_is_dir dst then
        if has_children (nodes fs) nw then (st, - ENOTEMPTY)
        else finish (set_nodes (delete nw (nodes fs)) (total fs) fs)
      else finish (set_nodes (delete nw (nodes fs)) (total fs ⊟ len (n_data dst)) fs)
  | None => finish fs
  end
  end
  end
  end.

Definition mkdir (path : list Z) (mode : Z) (st : state) : state * Z :=
  let n := norm path in
  match tmpfs st with
  | None => (st, - ENOENT)
  | Some fs =>
  match nodes fs !! n with
  | Some _ => (st, - EEXIST)
  | None =>
  match nodes fs !! parent n with
  | None => (st, - ENOENT)
  | Some p =>
      if n_is_dir p then
        let perm := Z.land (u32 mode) 4095 in
        let perm := if perm =? 0 then 493 else perm in
        (put (set_nodes (<[n := mkNode true [] perm]> (nodes fs)) (total fs) fs) st, 0)
      else (st, - ENOTDIR)
  end
  end
  end.

Definition rmdir (path : list Z) (st : state) : state * Z :=
  let n := norm path in
  if bool_decide (n = TMP) || bool_decide (n = DEV_SHM) then (st, - EPERM) else
  match tmpfs st with
  | None => (st, - ENOENT)
  | Some fs =>
  match nodes fs !! n with
  | None => (st, - ENOENT)
  | Some nd =>
      if negb (n_is_dir nd) then (st, - ENOTDIR)
      else if has_children (nodes fs) n then (st, - ENOTEMPTY)
      else (put (set_nodes (delete n (nodes fs)) (total fs) fs) st, 0)
  end
  end.

Definition access (path : list Z) (st : state) : Z :=
  match tmpfs st with
  | Some fs => match nodes fs !! norm path with Some _ => 0 | None => - ENOENT end
  | None => - ENOENT
  end.

Section Mem.
Context {M : Type} `{UserMem M}.

(** The 144-byte [struct stat]. *)
Definition stat_bytes (mode size : Z) : list Z :=
  let nlink := if negb (Z.land mode 16384 =? 0) then 2 else 1 in
  replicate 16 0 ++ le_bytes 8 nlink ++ le_bytes 4 mode ++ replicate 20 0
  ++ le_bytes 8 size ++ le_bytes 8 4096 ++ replicate 80 0.

Definition write_stat (buf mode size : Z) (m : M) : M * Z :=
  if buf =? 0 then (m, 0) else
  match um_out m buf (stat_bytes mode size) with
  | Some m' => (m', 0)
  | None => (m, - EFAULT)
  end.

(** [write_stat] with the type bits of a node. *)
Definition stat_node (nd : Node) (buf : Z) (m : M) : M * Z :=
  if n_is_dir nd then write_stat buf (Z.lor 16384 (Z.land (n_mode nd) 4095)) 4096 m
  else write_stat buf (Z.lor 32768 (Z.land (n_mode nd) 4095)) (len (n_data nd)) m.

Definition stat (path : list Z) (buf : Z) (st : state) (m : M) : M * Z :=
  match tmpfs st with
  | None => (m, - ENOENT)
  | Some fs =>
      match nodes fs !! norm path with
      | Some nd => stat_node nd buf m
      | None => (m, - ENOENT)
      end
  end.

Definition fstat (fd buf : Z) (st : state) (m : M) : M * Z :=
  match tmpfs st with
  | None => (m, - EBADF)
  | Some fs =>
      match find_fd fd (opens fs) with
      | None => (m, - EBADF)
      | Some (_, o) =>
          match nodes fs !! o_path o with
          | Some nd => stat_node nd buf m
          | None => (m, - EBADF)
          end
      end
  end.

Definition write_at (fs : Tmpfs) (path : list Z) (at_ buf count : Z) (m : M)
    : outcome (Tmpfs * Z) :=
  match nodes fs !! path with
  | None => Ret (fs, - ENOENT)
  | Some nd =>
  if n_is_dir nd then Ret (fs, - EISDIR)
  else if count =? 0 then Ret (fs, 0) else
  let len_ := len (n_data nd) in
  let n := grant_write (total fs) CAP at_ len_ count in
  if n =? 0 then Ret (fs, - ENOSPC) else
  let new_end := at_ ⊞ n in
  d ← (if new_end >? len_ then vec_resize (n_data nd) new_end else Ret (n_data nd));
  let t := if new_end >? len_ then total fs ⊞ (new_end ⊟ len_) else total fs in
  let store d := set_nodes (<[path := mkNode (n_is_dir nd) d (n_mode nd)]> (nodes fs)) t fs in
  _ ← slice d at_ new_end;
  match um_in m buf (new_end ⊟ at_) with
  | None => Ret (store d, - EFAULT)
  | Some bs => d ← splice d at_ bs; Ret (store d, n)
  end
  end.

Definition write (fd buf count : Z) (st : state) (m : M) : outcome (state * Z) :=
  match tmpfs st with
  | None => Ret (st, - EBADF)
  | Some fs =>
  match find_fd fd (opens fs) with
  | None => Ret (st, - EBADF)
  | Some (i, o) =>
      if negb (o_writable o) || o_is_dir o then Ret (st, - EBADF) else
      let at_ :=
        if o_append o then
          match nodes fs !! o_path o with Some nd => len (n_data nd) | None => 0 end
        else o_pos o in
      fr ← write_at fs (o_path o) at_ buf count m;
      let '(fs, r) := fr in
      let fs := if r >? 0 then set_opens (<[i := set_pos (at_ ⊞ r) o]> (opens fs)) fs else fs in
      Ret (put fs st, r)
  end
  end.

Definition pwrite (fd buf count offset : Z) (st : state) (m : M) : outcome (state * Z) :=
  match tmpfs st with
  | None => Ret (st, - EBADF)
  | Some fs =>
  match find_fd fd (opens fs) with
  | None => Ret (st, - EBADF)
  | Some (_, o) =>
      if negb (o_writable o) || o_is_dir o then Ret (st, - EBADF)
      else run_core st (write_at fs (o_path o) offset buf count m)
  end
  end.

Definition read_at (nd : Node) (at_ buf count : Z) (m : M) : outcome (M * Z) :=
  if at_ >=? len (n_data nd) then Ret (m, 0) else
  let n := Z.min count (len (n_data nd) ⊟ at_) in
  bs ← slice (n_data nd) at_ (at_ ⊞ n);
  match um_out m buf bs with
  | None => Ret (m, - EFAULT)
  | Some m' => Ret (m', n)
  end.

Definition read (fd buf count : Z) (st : state) (m : M) : outcome (state * M * Z) :=
  match tmpfs st with
  | None => Ret (st, m, - EBADF)
  | Some fs =>
  match find_fd fd (opens fs) with
  | None => Ret (st, m, - EBADF)
  | Some (i, o) =>
      if o_is_dir o then Ret (st, m, - EISDIR) else
      match nodes fs !! o_path o with
      | None => Ret (st, m, - EBADF)
      | Some nd =>
          mr ← read_at nd (o_pos o) buf count m;
          let '(m, r) := mr in
          let st :=
            if r >? 0 then put (set_opens (<[i := set_pos (o_pos o ⊞ r) o]> (opens fs)) fs) st
            else st in
          Ret (st, m, r)
      end
  end
  end.

Definition pread (fd buf count offset : Z) (st : state) (m : M) : outcome (M * Z) :=
  match tmpfs st with
  | None => Ret (m, - EBADF)
  | Some fs =>
  match find_fd fd (opens fs) with
  | None => Ret (m, - EBADF)
  | Some (_, o) =>
      if o_is_dir o then Ret (m, - EISDIR) else
      match nodes fs !! o_path o with
      | None => Ret (m, - EBADF)
      | Some nd => read_at nd offset buf count m
      end
  end
  end.

(** Immediate children of the directory whose keys start with [prefix]. *)
Definition child_names (ns : gmap (list Z) Node) (prefix : list Z) : list (list Z) :=
  omap (fun k =>
    if (len k >? len prefix) && starts_with k prefix then
      let rest := drop (length prefix) k in
      if existsb (fun c => c =? SLASH) rest then None else Some rest
    else None) (keys ns).

Definition dirent_reclen (name : list Z) : Z := Z.land (19 + len name + 1 + 7) (Z.lnot 7).

(** One [linux_dirent64] record, in the order its bytes are stored. *)
Definition dirent (emitted : Z) (name : list Z) (dtype : Z) : list Z :=
  let reclen := dirent_reclen name in
  le_bytes 8 (emitted + 1) ++ le_bytes 8 (emitted + 1) ++ le_bytes 2 reclen ++ [dtype]
  ++ name ++ [0] ++ replicate (Z.to_nat (reclen - (19 + len name + 1))) 0.

(** The [while emitted < total] loop over the names not yet emitted.  The
    record is stored through a raw pointer, not through the guard. *)
Fixpoint dents_loop (ns : gmap (list Z) Node) (prefix : list Z) (names : list (list Z))
    (buf count off emitted : Z) (m : M) : outcome (M * Z * Z) :=
  match names with
  | [] => Ret (m, off, emitted)
  | name :: names' =>
      let reclen := dirent_reclen name in
      if off + reclen >? count then Ret (m, off, emitted) else
      let dtype :=
        match ns !! (prefix ++ name) with
        | Some nd => if n_is_dir nd then 4 else 8
        | None => 8
        end in
      m ← um_raw m (buf ⊞ off) (dirent emitted name dtype);
      dents_loop ns prefix names' buf count (off + reclen) (emitted + 1) m
  end.

Definition getdents64 (fd buf count : Z) (st : state) (m : M) : outcome (state * M * Z) :=
  match tmpfs st with
  | None => Ret (st, m, - EBADF)
  | Some fs =>
  match find_fd fd (opens fs) with
  | None => Ret (st, m, - EBADF)
  | Some (i, o) =>
      if negb (o_is_dir o) then Ret (st, m, - ENOTDIR) else
      let dir := o_path o in
      let start := o_dir_pos o in
      let prefix := if bool_decide (dir = [SLASH]) then dir else dir ++ [SLASH] in
      let names := child_names (nodes fs) prefix in
      r ← dents_loop (nodes fs) prefix (drop (Z.to_nat start) names) buf count 0 start m;
      let '(m, off, emitted) := r in
      Ret (put (set_opens (<[i := set_dir_pos emitted o]> (opens fs)) fs) st, m, off)
  end
  end.

End Mem.
