(* ===== verification/TmpfsInv.v ===== *)
(** * Invariant, safety and round trips of the RAM filesystem

    The well-formedness of the filesystem state, its preservation by every
    operation, the absence of panics, and the data round trip.  *)

From S2P Require Import Prelude TmpfsTree Uaccess Tmpfs.

(** ** Specification *)

(** Bytes held by all files. *)
Definition bytes_used (ns : gmap (list Z) Node) : Z :=
  map_fold (fun _ nd acc => len (n_data nd) + acc) 0 ns.

(** Accounting and directory data. *)
Record fs_ok (fs : Tmpfs) : Prop := {
  ok_total : total fs = bytes_used (nodes fs);
  ok_cap : total fs <= CAP;
  ok_dirs k nd : nodes fs !! k = Some nd -> n_is_dir nd = true -> n_data nd = [];
}.

(** The tree: normalised keys inside the mounts, the two roots present, and
    every other node in an existing directory. *)
Record tree_ok (ns : gmap (list Z) Node) : Prop := {
  tr_normal k nd : ns !! k = Some nd -> normal k /\ is_mount_path k = true;
  tr_tmp : exists nd, ns !! TMP = Some nd /\ n_is_dir nd = true;
  tr_shm : exists nd, ns !! DEV_SHM = Some nd /\ n_is_dir nd = true;
  tr_parent k nd : ns !! k = Some nd -> k <> TMP -> k <> DEV_SHM ->
    exists p, ns !! parent k = Some p /\ n_is_dir p = true;
}.

(** The descriptor table. *)
Record fds_ok (st : state) (os : list OpenFd) : Prop := {
  fd_nodup : NoDup (map o_fd os);
  fd_range o : o ∈ os -> TMPFS_FD_BASE <= o_fd o < next_fd st;
  fd_pos o : o ∈ os -> 0 <= o_pos o < 2 ^ 63 /\ 0 <= o_dir_pos o;
  fd_max : len os <= MAX_OPEN;
}.

Definition inv (st : state) : Prop :=
  TMPFS_FD_BASE <= next_fd st <= i32_max
  /\ forall fs, tmpfs st = Some fs -> fs_ok fs /\ fds_ok st (opens fs).
Definition tree_inv (st : state) : Prop :=
  forall fs, tmpfs st = Some fs -> tree_ok (nodes fs).

(** ** Accounting *)
Lemma bytes_used_empty : bytes_used ∅ = 0.
Proof. apply map_fold_empty. Qed.

Lemma bytes_used_insert ns k nd :
  ns !! k = None -> bytes_used (<[k := nd]> ns) = len (n_data nd) + bytes_used ns.
Proof. intros. unfold bytes_used. rewrite map_fold_insert_L; [done| |done]. intros. lia. Qed.

Lemma bytes_used_delete ns k nd :
  ns !! k = Some nd -> bytes_used (delete k ns) = bytes_used ns - len (n_data nd).
Proof.
  intros Hk. rewrite <- (insert_delete_id ns k nd Hk) at 2.
  rewrite bytes_used_insert by apply lookup_delete_eq. lia.
Qed.

Lemma bytes_used_update ns k nd nd' :
  ns !! k = Some nd ->
  bytes_used (<[k := nd']> ns) = bytes_used ns - len (n_data nd) + len (n_data nd').
Proof.
  intros Hk. rewrite <- insert_delete_eq.
  rewrite bytes_used_insert, (bytes_used_delete _ _ _ Hk) by apply lookup_delete_eq. lia.
Qed.

Lemma bytes_used_nonneg ns : 0 <= bytes_used ns.
Proof.
  induction ns as [|k nd ns Hk IH] using map_ind; [by rewrite bytes_used_empty|].
  rewrite bytes_used_insert by done. pose proof (len_nonneg (n_data nd)). lia.
Qed.

Lemma node_fits ns k nd : ns !! k = Some nd -> 0 <= len (n_data nd) <= bytes_used ns.
Proof.
  intros Hk. pose proof (bytes_used_delete ns k nd Hk).
  pose proof (bytes_used_nonneg (delete k ns)). pose proof (len_nonneg (n_data nd)). lia.
Qed.

(** The accounting bounds of one file of a well-formed filesystem. *)
Lemma file_bounds fs k nd : fs_ok fs -> nodes fs !! k = Some nd ->
  0 <= len (n_data nd) <= total fs /\ total fs <= CAP.
Proof.
  intros [Ht Hc _] Hk. pose proof (node_fits _ _ _ Hk). lia.
Qed.

(** Replacing, removing or adding a node with the matching counter. *)
Lemma fs_ok_update fs k nd nd' t :
  fs_ok fs -> nodes fs !! k = Some nd -> (n_is_dir nd' = true -> n_data nd' = []) ->
  t = total fs - len (n_data nd) + len (n_data nd') -> t <= CAP ->
  fs_ok (set_nodes (<[k := nd']> (nodes fs)) t fs).
Proof.
  intros [Ht Hc Hd] Hk Hd' -> Hcap. constructor; simpl.
  - rewrite (bytes_used_update _ _ _ _ Hk). lia.
  - done.
  - intros k' n'. rewrite lookup_insert_Some. intros [[_ <-]|[_ H]]; eauto.
Qed.

Lemma fs_ok_delete fs k nd t :
  fs_ok fs -> nodes fs !! k = Some nd -> t = total fs - len (n_data nd) ->
  fs_ok (set_nodes (delete k (nodes fs)) t fs).
Proof.
  intros [Ht Hc Hd] Hk ->. pose proof (node_fits _ _ _ Hk). constructor; simpl.
  - rewrite (bytes_used_delete _ _ _ Hk). lia.
  - lia.
  - intros k' n'. rewrite lookup_delete_Some. intros [_ H']. eauto.
Qed.

Lemma fs_ok_add fs k nd :
  fs_ok fs -> nodes fs !! k = None -> n_data nd = [] ->
  fs_ok (set_nodes (<[k := nd]> (nodes fs)) (total fs) fs).
Proof.
  intros [Ht Hc Hd] Hk Hn. constructor; simpl.
  - rewrite bytes_used_insert, Hn by done. done.
  - done.
  - intros k' n'. rewrite lookup_insert_Some. intros [[_ <-]|[_ H]]; eauto.
Qed.

Lemma fs_ok_opens fs os : fs_ok fs -> fs_ok (set_opens os fs).
Proof. by intros []. Qed.
#[export] Hint Resolve fs_ok_opens : tyn.

Lemma dir_len fs k nd : fs_ok fs -> nodes fs !! k = Some nd -> n_is_dir nd = true ->
  len (n_data nd) = 0.
Proof. intros Hok Hk Hd. by rewrite (ok_dirs _ Hok k nd). Qed.

(** ** Descriptors *)
Lemma find_fd_Some fd os i o :
  find_fd fd os = Some (i, o) -> os !! i = Some o /\ o_fd o = fd /\ o ∈ os.
Proof.
  intros (H1 & H2 & _)%list_find_Some. split; [done|]. split; [done|].
  by eapply list_elem_of_lookup_2.
Qed.

Lemma fds_ok_replace st os i o o' :
  fds_ok st os -> os !! i = Some o -> o_fd o' = o_fd o ->
  0 <= o_pos o' < 2 ^ 63 -> 0 <= o_dir_pos o' -> fds_ok st (<[i := o']> os).
Proof.
  intros [Hn Hr Hp Hm] Hi Hfd Hpos Hdp. constructor.
  - rewrite list_fmap_insert, Hfd, list_insert_id; [done|]. by rewrite list_lookup_fmap, Hi.
  - intros x [j Hj]%list_elem_of_lookup. apply list_lookup_insert_Some in Hj as [(_ & <- & _)|(_ & Hj)].
    + rewrite Hfd. apply Hr. by eapply list_elem_of_lookup_2.
    + apply Hr. by eapply list_elem_of_lookup_2.
  - intros x [j Hj]%list_elem_of_lookup. apply list_lookup_insert_Some in Hj as [(_ & <- & _)|(_ & Hj)];
      [done|]. apply Hp. by eapply list_elem_of_lookup_2.
  - unfold len in *. by rewrite length_insert.
Qed.

Lemma sublist_map {A B} (f : A -> B) l k : sublist l k -> sublist (map f l) (map f k).
Proof. induction 1; simpl; by constructor. Qed.

Lemma fds_ok_delete st os i : fds_ok st os -> fds_ok st (delete i os).
Proof.
  intros [Hn Hr Hp Hm].
  assert (sublist (delete i os) os) as Hsub by apply sublist_delete.
  constructor.
  - eapply sublist_NoDup; [exact Hn|]. by apply sublist_map.
  - intros o Ho. apply Hr. by eapply elem_of_sublist.
  - intros o Ho. apply Hp. by eapply elem_of_sublist.
  - apply sublist_length in Hsub. unfold len in *. lia.
Qed.

(** Storing a filesystem whose descriptors are those of a well-formed state. *)
Lemma inv_put st fs : inv st -> fs_ok fs -> fds_ok st (opens fs) -> inv (put fs st).
Proof.
  intros [Hn _] Hf Hd. split; [done|]. intros fs' [= <-]. split; [done|].
  destruct Hd. by constructor.
Qed.

Lemma inv_get st fs : inv st -> tmpfs st = Some fs -> fs_ok fs /\ fds_ok st (opens fs).
Proof. intros [_ H]. apply H. Qed.

Lemma push_open_inv st fs path pos ap wr isd :
  inv st -> next_fd st < i32_max -> fs_ok fs -> fds_ok st (opens fs) ->
  len (opens fs) < MAX_OPEN -> 0 <= pos < 2 ^ 63 ->
  inv (fst (push_open fs st path pos ap wr isd)).
Proof.
  intros [Hn _] Hlt Hf [Dn Dr Dp Dm] Hm Hpos. unfold push_open, alloc_fd. cbn [fst].
  split; cbn [next_fd put]; unfold i32_max, TMPFS_FD_BASE in *.
  { rewrite i32_small; lia. }
  intros fs' [= <-]. split; [by apply fs_ok_opens|].
  assert (forall o, o ∈ opens fs ++ [mkOpenFd (next_fd st) path pos ap wr isd 0] ->
    o ∈ opens fs \/ o = mkOpenFd (next_fd st) path pos ap wr isd 0) as Hin.
  { intros o [?| ->%list_elem_of_singleton]%elem_of_app; auto. }
  constructor; cbn [opens set_opens next_fd put].
  - rewrite map_app. apply NoDup_app. split; [done|]. split; [|apply NoDup_singleton].
    intros x Hx Hx'. cbn in Hx'. apply list_elem_of_singleton in Hx' as ->.
    apply list_elem_of_fmap in Hx as (o & Ho & Hin'). specialize (Dr o Hin'). lia.
  - intros o Ho. rewrite i32_small by lia.
    destruct (Hin o Ho) as [H| ->]; [specialize (Dr o H); unfold TMPFS_FD_BASE in *; lia|].
    cbn. unfold TMPFS_FD_BASE. lia.
  - intros o Ho. destruct (Hin o Ho) as [H| ->]; [auto|]. cbn. lia.
  - rewrite len_app. change (len [_]) with 1. lia.
Qed.

Lemma cap_bound : CAP = 4194304.
Proof. done. Qed.

Lemma open_inv path flags mode st :
  inv st -> next_fd st < i32_max -> inv (fst (open path flags mode st)).
Proof.
  intros Hi Hn. unfold open. destruct (tmpfs st) as [fs|] eqn:Ef; [|done].
  destruct (inv_get st fs Hi Ef) as [Hf Hd].
  rewrite Z.geb_leb. destruct (Z.leb_spec MAX_OPEN (len (opens fs))); [done|].
  destruct (nodes fs !! norm path) as [nd|] eqn:En.
  - destruct (file_bounds fs _ nd Hf En) as [Hlen Hcap]. rewrite cap_bound in Hcap.
    case_match; [done|]. destruct (n_is_dir nd) eqn:Edir.
    { case_match; [done|]. apply push_open_inv; auto; lia. }
    case_match; [done|]. destruct (flag flags O_TRUNC && _).
    + cbn [n_data]. apply push_open_inv; auto; [|case_match; change (len (@nil Z)) with 0; lia].
      eapply fs_ok_update; eauto; cbn [n_data]; rewrite u64_small by lia;
        change (len (@nil Z)) with 0; rewrite ?cap_bound; lia.
    + apply push_open_inv; auto. case_match; lia.
  - case_match; [done|]. case_match; [done|]. destruct (nodes fs !! parent _) as [p|]; [|done].
    case_match; [|done]. apply push_open_inv; auto; [|lia]. by apply fs_ok_add.
Qed.

Lemma find_put_inv st fs fd i o o' :
  inv st -> tmpfs st = Some fs -> find_fd fd (opens fs) = Some (i, o) ->
  o_fd o' = o_fd o -> 0 <= o_pos o' < 2 ^ 63 -> 0 <= o_dir_pos o' ->
  inv (put (set_opens (<[i := o']> (opens fs)) fs) st).
Proof.
  intros Hi Ef Hfd Ho Hp Hd. destruct (inv_get st fs Hi Ef) as [Hf Hds].
  apply find_fd_Some in Hfd as (Hio & _ & _).
  apply inv_put; [done|by apply fs_ok_opens|]. by eapply fds_ok_replace.
Qed.

Lemma lseek_inv fd off wh st : inv st -> inv (fst (lseek fd off wh st)).
Proof.
  intros Hi. unfold lseek. destruct (tmpfs st) as [fs|] eqn:Ef; [|done].
  destruct (find_fd fd (opens fs)) as [[i o]|] eqn:Eo; [|done].
  assert (Hs : forall base, inv (fst (let np := i64 (base + off) in
     if np <? 0 then (st, - EINVAL)
     else (put (set_opens (<[i:=set_pos np o]> (opens fs)) fs) st, np)))).
  { intros base. cbv zeta. destruct (Z.ltb_spec (i64 (base + off)) 0) as [|Hnp]; [done|].
    destruct (inv_get st fs Hi Ef) as [Hf Hds]. pose proof Eo as Eo'.
    apply find_fd_Some in Eo' as (_ & _ & Hin).
    eapply find_put_inv; eauto; cbn; [|by apply (fd_pos _ _ Hds)].
    split; [done|]. unfold i64, signed in *.
    destruct (Z.ltb_spec (wrap 64 (base + off)) (2 ^ (64 - 1))); [lia|].
    pose proof (wrap_range 64 (base + off)). lia. }
  destruct (wh =? 0); [apply Hs|]. destruct (wh =? 1); [apply Hs|].
  destruct (wh =? 2); [apply Hs|done].
Qed.

Lemma close_inv fd st : inv st -> inv (fst (close fd st)).
Proof.
  intros Hi. unfold close. case_match; [done|]. destruct (tmpfs st) as [fs|] eqn:Ef; [|done].
  destruct (inv_get st fs Hi Ef) as [Hf Hd].
  destruct (find_fd fd (opens fs)) as [[i o]|]; [|done].
  apply inv_put; [done|by apply fs_ok_opens|by apply fds_ok_delete].
Qed.

Lemma unlink_inv path st : inv st -> inv (fst (unlink path st)).
Proof.
  intros Hi. unfold unlink. destruct (tmpfs st) as [fs|] eqn:Ef; [|done].
  destruct (inv_get st fs Hi Ef) as [Hf Hd].
  destruct (nodes fs !! norm path) as [nd|] eqn:En; [|done]. case_match; [done|].
  destruct (file_bounds fs _ nd Hf En) as [Hlen Hcap]. rewrite cap_bound in Hcap.
  apply inv_put; [done| |done]. eapply fs_ok_delete; eauto. apply u64_small. lia.
Qed.

Lemma mkdir_inv path mode st : inv st -> inv (fst (mkdir path mode st)).
Proof.
  intros Hi. unfold mkdir. destruct (tmpfs st) as [fs|] eqn:Ef; [|done].
  destruct (inv_get st fs Hi Ef) as [Hf Hd].
  destruct (nodes fs !! norm path) as [nd|] eqn:En; [done|].
  destruct (nodes fs !! parent _) as [p|]; [|done]. case_match; [|done].
  apply inv_put; [done|by apply fs_ok_add|done].
Qed.

Lemma rmdir_inv path st : inv st -> inv (fst (rmdir path st)).
Proof.
  intros Hi. unfold rmdir. case_match; [done|]. destruct (tmpfs st) as [fs|] eqn:Ef; [|done].
  destruct (inv_get st fs Hi Ef) as [Hf Hd].
  destruct (nodes fs !! norm path) as [nd|] eqn:En; [|done].
  destruct (n_is_dir nd) eqn:Edir; cbn [negb]; [|done]. case_match; [done|].
  apply inv_put; [done| |done]. eapply fs_ok_delete; eauto.
  rewrite (dir_len fs (norm path) nd); auto. lia.
Qed.

Lemma rename_inv old new st : inv st -> inv (fst (rename old new st)).
Proof.
  intros Hi. unfold rename. case_match; [done|]. zb.
  destruct (tmpfs st) as [fs|] eqn:Ef; [|done]. destruct (inv_get st fs Hi Ef) as [Hf Hd].
  destruct (nodes fs !! norm old) as [src|] eqn:Es; [|done].
  destruct (nodes fs !! parent _) as [p|]; [|done]. case_match; [done|].
  (* the move itself, once the destination is free *)
  assert (Hfin : forall fs1, fs_ok fs1 -> opens fs1 = opens fs -> nodes fs1 !! norm old = Some src ->
    nodes fs1 !! norm new = None ->
    inv (fst (if n_is_dir src && has_children (nodes fs1) (norm old) then (put fs1 st, - EINVAL)
      else (put (set_nodes (<[norm new:=src]> (delete (norm old) (nodes fs1))) (total fs1) fs1) st, 0)))).
  { intros fs1 Hf1 Ho1 Hs1 Hn1. case_match; (apply inv_put; [done| |cbn; by rewrite Ho1]); [done|].
    destruct Hf1 as [Ht Hc Hdirs]. constructor; cbn.
    - rewrite bytes_used_insert, (bytes_used_delete _ _ src) by
        (try done; by rewrite lookup_delete_ne). lia.
    - done.
    - intros k nd. rewrite lookup_insert_Some, lookup_delete_Some.
      intros [[_ <-]|[_ [_ H']]]; eauto. }
  destruct (nodes fs !! norm new) as [dst|] eqn:En; [|by apply Hfin].
  destruct (file_bounds fs _ dst Hf En) as [Hlen Hcap]. rewrite cap_bound in Hcap.
  case_match; [done|]. destruct (n_is_dir dst) eqn:Edir.
  - case_match; [done|]. apply Hfin; cbn; [|done|by rewrite lookup_delete_ne|apply lookup_delete_eq].
    eapply fs_ok_delete; eauto. rewrite (dir_len fs (norm new) dst); auto. lia.
  - apply Hfin; cbn; [|done|by rewrite lookup_delete_ne|apply lookup_delete_eq].
    eapply fs_ok_delete; eauto. apply u64_small. lia.
Qed.

Lemma resize_len (v : list Z) n : 0 <= n -> len (resize (Z.to_nat n) 0 v) = n.
Proof. intros. unfold len. rewrite length_resize. lia. Qed.

(** Growing or shrinking a file within machine range never panics. *)
Lemma resize_path_spec fs path n :
  fs_ok fs -> 0 <= n <= isize_max ->
  exists fs' r, resize_path fs path n = Ret (fs', r) /\ fs_ok fs' /\ opens fs' = opens fs
    /\ (r <> 0 -> fs' = fs)
    /\ (r = 0 -> exists nd, nodes fs !! path = Some nd /\ n_is_dir nd = false
        /\ nodes fs' = <[path := mkNode false (resize (Z.to_nat n) 0 (n_data nd)) (n_mode nd)]> (nodes fs)).
Proof.
  unfold isize_max. intros Hf Hn. unfold resize_path.
  destruct (nodes fs !! path) as [nd|] eqn:En; [|by eexists _, _].
  destruct (n_is_dir nd) eqn:Edir; [by eexists _, _|].
  destruct (file_bounds fs _ nd Hf En) as [Hlen Hcap]. rewrite cap_bound in Hcap.
  unfold vec_resize, isize_max. rewrite (proj2 (Z.leb_le n (2 ^ 63 - 1))) by lia. cbn [mbind outcome_bind].
  assert (Hok : forall t, t = total fs - len (n_data nd) + n -> t <= CAP ->
    fs_ok (set_nodes (<[path:=mkNode false (resize (Z.to_nat n) 0 (n_data nd)) (n_mode nd)]>
      (nodes fs)) t fs)).
  { intros t Ht Hc. apply (fs_ok_update fs path nd); try done. cbn [n_data].
    by rewrite resize_len by lia. }
  rewrite Z.gtb_ltb. destruct (Z.ltb_spec (len (n_data nd)) n).
  - rewrite (u64_small (n - _)), u64_small by lia. rewrite Z.gtb_ltb, cap_bound.
    case_match; [by eexists _, _|]. zb. eexists _, _. split; [done|].
    split; [apply Hok; rewrite ?cap_bound; lia|]. split; [done|]. split; [done|]. eauto.
  - rewrite (u64_small (_ - n)), u64_small by lia. eexists _, _. split; [done|].
    split; [apply Hok; rewrite ?cap_bound; lia|]. split; [done|]. split; [done|]. eauto.
Qed.

(** ** Reading and writing *)

(** The contents after storing [bs] at offset [at_]: zero-filled up to
    [at_] if the file was shorter. *)
Definition overwrite (d : list Z) (at_ : Z) (bs : list Z) : list Z :=
  let d' := resize (Z.to_nat (Z.max (len d) (at_ + len bs))) 0 d in
  take (Z.to_nat at_) d' ++ bs ++ drop (Z.to_nat (at_ + len bs)) d'.

Lemma overwrite_len d at_ bs : 0 <= at_ -> len (overwrite d at_ bs) = Z.max (len d) (at_ + len bs).
Proof.
  intros Ha. unfold overwrite. pose proof (len_nonneg bs). pose proof (len_nonneg d).
  rewrite !len_app, len_take, len_drop, resize_len by lia. lia.
Qed.

Lemma overwrite_slice d at_ bs : 0 <= at_ ->
  slice (overwrite d at_ bs) at_ (at_ + len bs) = Ret bs.
Proof.
  intros Ha. pose proof (len_nonneg bs). pose proof (len_nonneg d).
  rewrite slice_ok by (rewrite ?overwrite_len; lia). f_equal. unfold overwrite.
  set (d' := resize _ 0 d).
  assert (Z.to_nat at_ = length (take (Z.to_nat at_) d')) as E.
  { rewrite length_take. subst d'. rewrite length_resize. lia. }
  rewrite E at 1. rewrite drop_app_length. replace (at_ + len bs - at_) with (len bs) by lia.
  unfold len. rewrite Nat2Z.id. apply take_app_length.
Qed.

(** At most the contents of the file at [path] differ. *)
Definition same_but_data (path : list Z) (ns ns' : gmap (list Z) Node) : Prop :=
  ns' = ns \/ exists nd d, ns !! path = Some nd /\ n_is_dir nd = false
                /\ ns' = <[path := mkNode false d (n_mode nd)]> ns.

(** A core that returns an error and leaves the filesystem alone. *)
Ltac unchanged :=
  eexists _, _; do 3 (split; [done|]); split; [by left|]; left; cbv; discriminate.

Section Mem.
Context {M : Type} {wf : M -> Prop} `{HL : UserMemLaws M wf}.

Lemma write_at_spec fs path at_ buf count m :
  fs_ok fs -> wf m -> 0 <= at_ < 2 ^ 64 -> 0 <= buf -> 0 <= count < 2 ^ 64 ->
  exists fs' r, write_at fs path at_ buf count m = Ret (fs', r) /\ fs_ok fs' /\ opens fs' = opens fs
    /\ same_but_data path (nodes fs) (nodes fs')
    /\ (r <= 0 \/ exists nd bs, nodes fs !! path = Some nd /\ n_is_dir nd = false
        /\ um_in m buf r = Some bs /\ len bs = r /\ at_ + r <= 2 * CAP /\ r <= count
        /\ nodes fs' = <[path := mkNode false (overwrite (n_data nd) at_ bs) (n_mode nd)]> (nodes fs)).
Proof.
  intros Hf Hm Ha Hb Hc. unfold write_at.
  destruct (nodes fs !! path) as [nd|] eqn:En; [|unchanged].
  destruct (n_is_dir nd) eqn:Edir; [unchanged|].
  case_match; [unchanged|]. zb.
  destruct (file_bounds fs _ nd Hf En) as [Hlen Hcap]. pose proof cap_bound as Hcb.
  set (n := grant_write (total fs) CAP at_ (len (n_data nd)) count).
  case_match eqn:En0; [unchanged|]. zb.
  assert (0 < n <= count /\ at_ + n <= 2 * CAP
    /\ total fs + grow at_ (len (n_data nd)) n <= CAP) as (Hn & Hend & Hgrow).
  { unfold n, grant_write, grow, saturating_sub in *. rewrite Z.geb_leb in *.
    destruct (Z.leb_spec (len (n_data nd)) at_).
    - rewrite u64_small in * by lia. lia.
    - rewrite (u64_small (len (n_data nd) - at_)), u64_small in * by lia. lia. }
  unfold grow in Hgrow. clearbody n. rewrite (u64_small (at_ + n)) by lia.
  rewrite (u64_small (at_ + n - at_)) by lia. replace (at_ + n - at_) with n by lia.
  set (d := resize (Z.to_nat (Z.max (len (n_data nd)) (at_ + n))) 0 (n_data nd)).
  assert (len d = Z.max (len (n_data nd)) (at_ + n)) as Hd by (apply resize_len; lia).
  set (t := total fs + Z.max 0 (at_ + n - len (n_data nd))).
  assert ((if at_ + n >? len (n_data nd) then vec_resize (n_data nd) (at_ + n) else Ret (n_data nd))
    = Ret d) as ->.
  { subst d. rewrite Z.gtb_ltb. destruct (Z.ltb_spec (len (n_data nd)) (at_ + n)).
    - unfold vec_resize, isize_max. rewrite (proj2 (Z.leb_le _ _)) by lia.
      by rewrite Z.max_r by lia.
    - rewrite Z.max_l by lia. unfold len. by rewrite Nat2Z.id, resize_all. }
  assert ((if at_ + n >? len (n_data nd) then total fs ⊞ (at_ + n ⊟ len (n_data nd)) else total fs)
    = t) as ->.
  { subst t. rewrite Z.gtb_ltb. case_match; zb; [|lia].
    rewrite (u64_small (at_ + n - _)), u64_small by lia. lia. }
  cbn [mbind outcome_bind]. rewrite slice_ok by lia. cbn [mbind outcome_bind].
  assert (Hok : forall d', len d' = len d ->
    fs_ok (set_nodes (<[path:=mkNode false d' (n_mode nd)]> (nodes fs)) t fs)).
  { intros d' Hd'. apply (fs_ok_update fs path nd); try done; cbn [n_data]; lia. }
  assert (Hfr : forall d', same_but_data path (nodes fs)
    (<[path:=mkNode false d' (n_mode nd)]> (nodes fs))) by (intros d'; right; eauto).
  destruct (um_in m buf n) as [bs|] eqn:Ei.
  - assert (len bs = n) as Hbs by (eapply um_in_len; eauto; lia).
    rewrite splice_ok by lia. cbn [mbind outcome_bind]. rewrite Hbs.
    eexists _, n. split; [done|]. split.
    { apply Hok. rewrite !len_app, len_take, len_drop by lia. lia. }
    split; [done|]. split; [by apply Hfr|]. right. exists nd, bs.
    do 6 (split; [done || lia|]). cbn. unfold overwrite. by rewrite Hbs.
  - eexists _, _. split; [done|]. split; [by apply Hok|]. split; [done|].
    split; [by apply Hfr|]. by left.
Qed.

Lemma read_at_spec nd at_ buf count m :
  wf m -> 0 <= at_ -> 0 <= buf -> 0 <= count < 2 ^ 64 -> len (n_data nd) < 2 ^ 63 ->
  exists m' r, read_at nd at_ buf count m = Ret (m', r) /\ wf m' /\ r < 2 ^ 63
    /\ (r <= 0 -> m' = m \/ r = 0)
    /\ (0 < r -> exists bs, slice (n_data nd) at_ (at_ + r) = Ret bs /\ len bs = r
        /\ r = Z.min count (len (n_data nd) - at_) /\ um_out m buf bs = Some m').
Proof.
  intros Hm Ha Hb Hc Hl. unfold read_at. rewrite Z.geb_leb.
  destruct (Z.leb_spec (len (n_data nd)) at_) as [|Hlt].
  { eexists _, _. split; [done|]. auto with lia. }
  rewrite (u64_small (_ - at_)) by lia. set (n := Z.min count (len (n_data nd) - at_)).
  rewrite (u64_small (at_ + n)) by lia. rewrite slice_ok by lia. cbn [mbind outcome_bind].
  set (bs := take _ _). assert (len bs = n) as Hbs.
  { subst bs. rewrite len_take, len_drop by lia. lia. }
  destruct (um_out m buf bs) as [m'|] eqn:Eo.
  - eexists _, _. split; [done|]. split; [by eapply um_out_wf|]. split; [lia|].
    split; [right; lia|]. intros Hn. exists bs. rewrite slice_ok by lia. done.
  - eexists _, _. split; [done|]. unfold EFAULT. split; [done|]. split; [lia|]. split; [by left|lia].
Qed.

End Mem.

(** ** The tree *)
Lemma mount_not_root p : is_mount_path p = true -> p <> [SLASH].
Proof. by intros H ->. Qed.

Lemma child_mount n : is_mount_path (parent n) = true ->
  is_mount_path n = true /\ is_under n (parent n) = true.
Proof.
  intros Hp. pose proof (mount_not_root _ Hp) as Hr.
  destruct (parent_inv n (parent n) eq_refl Hr) as (b & Hb & _).
  assert (is_under n (parent n) = true) as Hu by (apply is_under_spec; by exists b).
  split; [|done]. rewrite is_mount_path_spec in Hp |- *.
  destruct Hp as [E|[E|[E|E]]].
  - right. right. left. by rewrite <- E.
  - right. right. right. by rewrite <- E.
  - right. right. left. by eapply is_under_trans.
  - right. right. right. by eapply is_under_trans.
Qed.

Lemma tree_update ns k nd nd' :
  tree_ok ns -> ns !! k = Some nd -> n_is_dir nd' = n_is_dir nd -> tree_ok (<[k := nd']> ns).
Proof.
  intros HT Hk Hd.
  assert (Hdir : forall p x, ns !! p = Some x -> n_is_dir x = true ->
    exists x', <[k := nd']> ns !! p = Some x' /\ n_is_dir x' = true).
  { intros p x Hp Hx. destruct (decide (p = k)) as [->|Hne].
    - exists nd'. rewrite lookup_insert_eq. split; [done|]. congruence.
    - exists x. by rewrite lookup_insert_ne. }
  constructor.
  - intros k' x. rewrite lookup_insert_Some. intros [[<- _]|[_ Hx]]; by eapply (tr_normal _ HT).
  - destruct (tr_tmp _ HT) as (x & ? & ?). eauto.
  - destruct (tr_shm _ HT) as (x & ? & ?). eauto.
  - intros k' x Hx Ht Hs.
    assert (exists y, ns !! k' = Some y) as [y Hy].
    { apply lookup_insert_Some in Hx as [[<- _]|[_ Hx]]; eauto. }
    destruct (tr_parent _ HT k' y Hy Ht Hs) as (p & Hp & Hpd). eauto.
Qed.

Lemma tree_same path ns ns' : tree_ok ns -> same_but_data path ns ns' -> tree_ok ns'.
Proof. intros HT [->|(nd & d & Hk & Hd & ->)]; [done|]. by eapply tree_update. Qed.

Lemma tree_add ns k nd p :
  tree_ok ns -> normal k -> ns !! k = None -> ns !! parent k = Some p -> n_is_dir p = true ->
  tree_ok (<[k := nd]> ns).
Proof.
  intros HT Hn Hk Hp Hpd.
  assert (Hkeep : forall q x, ns !! q = Some x -> <[k := nd]> ns !! q = Some x).
  { intros q x Hq. rewrite lookup_insert_ne; [done|]. intros ->. congruence. }
  constructor.
  - intros k' x. rewrite lookup_insert_Some. intros [[<- _]|[_ Hx]].
    + split; [done|]. apply child_mount. by eapply (tr_normal _ HT).
    + by eapply (tr_normal _ HT).
  - destruct (tr_tmp _ HT) as (x & ? & ?). eauto.
  - destruct (tr_shm _ HT) as (x & ? & ?). eauto.
  - intros k' x Hx Ht Hs. apply lookup_insert_Some in Hx as [[<- _]|[_ Hx]]; [eauto|].
    destruct (tr_parent _ HT k' x Hx Ht Hs) as (q & Hq & Hqd). eauto.
Qed.

(** A node that is neither a root nor the directory of another node can go. *)
Lemma tree_delete ns k :
  tree_ok ns -> k <> TMP -> k <> DEV_SHM ->
  (forall k' x, ns !! k' = Some x -> k' <> TMP -> k' <> DEV_SHM -> parent k' <> k) ->
  tree_ok (delete k ns).
Proof.
  intros HT Ht Hs Hleaf. constructor.
  - intros k' x [_ Hx]%lookup_delete_Some. by eapply (tr_normal _ HT).
  - destruct (tr_tmp _ HT) as (x & ? & ?). exists x. by rewrite lookup_delete_ne.
  - destruct (tr_shm _ HT) as (x & ? & ?). exists x. by rewrite lookup_delete_ne.
  - intros k' x [Hne Hx]%lookup_delete_Some Ht' Hs'.
    destruct (tr_parent _ HT k' x Hx Ht' Hs') as (q & Hq & Hqd). exists q.
    rewrite lookup_delete_ne; [done|]. intros E. by apply (Hleaf k' x).
Qed.

Lemma file_leaf ns k nd : tree_ok ns -> ns !! k = Some nd -> n_is_dir nd = false ->
  k <> TMP /\ k <> DEV_SHM
  /\ forall k' x, ns !! k' = Some x -> k' <> TMP -> k' <> DEV_SHM -> parent k' <> k.
Proof.
  intros HT Hk Hd. split; [|split].
  - intros ->. destruct (tr_tmp _ HT) as (x & ? & ?). congruence.
  - intros ->. destruct (tr_shm _ HT) as (x & ? & ?). congruence.
  - intros k' x Hx Ht Hs E. destruct (tr_parent _ HT k' x Hx Ht Hs) as (q & Hq & Hqd). congruence.
Qed.

Lemma keys_elem ns k : k ∈ keys ns <-> is_Some (ns !! k).
Proof.
  unfold keys. rewrite merge_sort_Permutation. split.
  - intros ([k' x] & -> & Hx)%list_elem_of_fmap. apply elem_of_map_to_list in Hx. by eexists.
  - intros [x Hx]. apply list_elem_of_fmap. exists (k, x). by rewrite elem_of_map_to_list.
Qed.

Lemma keys_nodup ns : NoDup (keys ns).
Proof. unfold keys. rewrite merge_sort_Permutation. apply NoDup_fst_map_to_list. Qed.

Lemma has_children_spec ns dir :
  has_children ns dir = true <-> exists k, is_Some (ns !! k) /\ is_under k dir = true.
Proof.
  unfold has_children. rewrite existsb_exists. split.
  - intros (k & Hk & Hu). exists k. split; [|done]. apply keys_elem. by apply list_elem_of_In.
  - intros (k & Hk & Hu). exists k. split; [|done]. apply list_elem_of_In. by apply keys_elem.
Qed.

Lemma empty_dir_leaf ns k : tree_ok ns -> is_mount_path k = true -> has_children ns k = false ->
  forall k' x, ns !! k' = Some x -> parent k' <> k.
Proof.
  intros HT Hm Hc k' x Hx E. apply not_true_iff_false in Hc. apply Hc, has_children_spec.
  exists k'. split; [by eexists|]. rewrite <- E. apply child_mount. by rewrite E.
Qed.

Lemma rename_tree old new st :
  tree_inv st -> norm old <> TMP -> norm old <> DEV_SHM ->
  is_under (norm new) (norm old) = false -> tree_inv (fst (rename old new st)).
Proof.
  intros HT Ht Hs Hun. unfold rename. case_match; [done|]. zb.
  destruct (tmpfs st) as [fs|] eqn:Ef; [|done]. specialize (HT fs Ef).
  assert (Hst : tree_inv st) by (intros fs' E; congruence).
  destruct (nodes fs !! norm old) as [src|] eqn:Es; [|done].
  destruct (nodes fs !! parent (norm new)) as [p|] eqn:Ep; [|done].
  destruct (n_is_dir p) eqn:Epd; cbn [negb]; [|done].
  destruct (child_mount (norm new)) as [Hmn Hun']; [by apply (tr_normal _ HT _ p Ep)|].
  assert (parent (norm new) <> norm old) as Hpo by (intros E; congruence).
  assert (parent (norm new) <> norm new) as Hpn.
  { intros E. rewrite E, is_under_irrefl in Hun'. done. }
  assert (Hfin : forall fs1, tree_ok (nodes fs1) -> nodes fs1 !! norm old = Some src ->
    nodes fs1 !! norm new = None -> nodes fs1 !! parent (norm new) = Some p ->
    tree_inv (fst (if n_is_dir src && has_children (nodes fs1) (norm old) then (put fs1 st, - EINVAL)
      else (put (set_nodes (<[norm new:=src]> (delete (norm old) (nodes fs1))) (total fs1) fs1) st, 0)))).
  { intros fs1 T1 Hs1 Hn1 Hp1. destruct (_ && _) eqn:Ec; intros fs' [= <-]; [done|]. cbn.
    apply (tree_add _ _ _ p); [|apply norm_normal| | |done].
    - apply andb_false_iff in Ec. apply tree_delete; [done..|].
      destruct (n_is_dir src) eqn:Esd.
      + intros k' x Hx _ _. destruct Ec as [?|Ec]; [done|].
        eapply empty_dir_leaf; eauto. by apply (tr_normal _ T1 _ src).
      + by apply (file_leaf _ _ src T1).
    - by rewrite lookup_delete_ne.
    - by rewrite lookup_delete_ne by by apply not_eq_sym. }
  destruct (nodes fs !! norm new) as [dst|] eqn:En; [|by apply Hfin].
  assert (norm new <> TMP /\ norm new <> DEV_SHM) as [Hnt Hns].
  { pose proof (mount_not_root _ (proj2 (tr_normal _ HT _ p Ep))) as Hroot.
    split; intros E; rewrite E in Ep, Hroot.
    - by apply Hroot.
    - change (parent DEV_SHM) with (bstr "/dev") in Ep. by destruct (tr_normal _ HT _ p Ep). }
  assert (Hdel : forall t, tree_ok (delete (norm new) (nodes fs)) ->
    tree_inv (fst (let fs1 := set_nodes (delete (norm new) (nodes fs)) t fs in
      if n_is_dir src && has_children (nodes fs1) (norm old) then (put fs1 st, - EINVAL)
      else (put (set_nodes (<[norm new:=src]> (delete (norm old) (nodes fs1))) (total fs1) fs1) st, 0)))).
  { intros t Td. apply Hfin; cbn; [done|by rewrite lookup_delete_ne|apply lookup_delete_eq|].
    by rewrite lookup_delete_ne by by apply not_eq_sym. }
  case_match; [done|]. destruct (n_is_dir dst) eqn:Edd.
  - case_match; [done|]. apply Hdel. apply tree_delete; [done..|].
    intros k' x Hx _ _. eapply empty_dir_leaf; eauto.
  - apply Hdel. apply tree_delete; [done..|]. by apply (file_leaf _ _ dst HT).
Qed.
