(* ===== verification/TmpfsProps.v ===== *)
(** * Properties of the RAM filesystem

    The filesystem as a transition system over all its operations, with the
    theorems about every reachable state, and the behaviours in which the code
    departs from its documentation. *)

From S2P Require Import Prelude TmpfsTree Paging PagingRefine Confinement Uaccess Tmpfs TmpfsInv.

(** The system calls served by the filesystem. *)
Inductive op :=
| OpOpen (path : list Z) (flags mode : Z)
| OpWrite (fd buf count : Z)
| OpPwrite (fd buf count offset : Z)
| OpRead (fd buf count : Z)
| OpPread (fd buf count offset : Z)
| OpLseek (fd offset whence : Z)
| OpFtruncate (fd len_ : Z)
| OpTruncate (path : list Z) (len_ : Z)
| OpStat (path : list Z) (buf : Z)
| OpFstat (fd buf : Z)
| OpClose (fd : Z)
| OpUnlink (path : list Z)
| OpRename (old new : list Z)
| OpMkdir (path : list Z) (mode : Z)
| OpRmdir (path : list Z)
| OpAccess (path : list Z)
| OpGetdents (fd buf count : Z).

Definition u64_arg (x : Z) : bool := (0 <=? x) && (x <? 2 ^ 64).

(** Register arguments are 64-bit words. *)
Definition args_ok (o : op) : bool :=
  match o with
  | OpWrite _ b c | OpRead _ b c | OpGetdents _ b c => u64_arg b && u64_arg c
  | OpPwrite _ b c f | OpPread _ b c f => u64_arg b && u64_arg c && u64_arg f
  | OpFtruncate _ l | OpTruncate _ l => u64_arg l
  | OpStat _ b | OpFstat _ b => u64_arg b
  | _ => true
  end.

Section Step.
Context {M : Type} `{UserMem M}.

(** An operation that does not touch user memory. *)
Definition pure_op (m : M) (r : state * Z) : outcome (state * M * Z) := Ret (fst r, m, snd r).
Definition mem_op (st : state) (r : M * Z) : outcome (state * M * Z) := Ret (st, fst r, snd r).

Definition step (o : op) (st : state) (m : M) : outcome (state * M * Z) :=
  match o with
  | OpOpen p f md => pure_op m (open p f md st)
  | OpWrite fd b c => r ← write fd b c st m; pure_op m r
  | OpPwrite fd b c f => r ← pwrite fd b c f st m; pure_op m r
  | OpRead fd b c => read fd b c st m
  | OpPread fd b c f => r ← pread fd b c f st m; mem_op st r
  | OpLseek fd f w => pure_op m (lseek fd f w st)
  | OpFtruncate fd l => r ← ftruncate fd l st; pure_op m r
  | OpTruncate p l => r ← truncate p l st; pure_op m r
  | OpStat p b => mem_op st (stat p b st m)
  | OpFstat fd b => mem_op st (fstat fd b st m)
  | OpClose fd => pure_op m (close fd st)
  | OpUnlink p => pure_op m (unlink p st)
  | OpRename a b => pure_op m (rename a b st)
  | OpMkdir p md => pure_op m (mkdir p md st)
  | OpRmdir p => pure_op m (rmdir p st)
  | OpAccess p => pure_op m (st, access p st)
  | OpGetdents fd b c => getdents64 fd b c st m
  end.

End Step.

(** Lengths the truncation calls accept without exceeding [isize::MAX]. *)
Definition trunc_ok (o : op) : bool :=
  match o with OpFtruncate _ l | OpTruncate _ l => l <=? isize_max | _ => true end.
(** Operations that reach user memory only through the guard. *)
Definition guarded (o : op) : bool := match o with OpGetdents _ _ _ => false | _ => true end.
(** Moves that stay out of the moved directory and leave the mount roots. *)
Definition sane_move (o : op) : bool :=
  match o with
  | OpRename a b => negb (is_under (norm b) (norm a)) && negb (bool_decide (norm a = TMP))
                    && negb (bool_decide (norm a = DEV_SHM))
  | _ => true
  end.

Section Props.
Context {M : Type} {wf : M -> Prop} `{HL : UserMemLaws M wf}.

(** *** One operation *)
Lemma write_spec fd buf count st m :
  inv st -> wf m -> u64_arg buf = true -> u64_arg count = true ->
  exists st' r, write fd buf count st m = Ret (st', r) /\ inv st' /\ (tree_inv st -> tree_inv st').
Proof.
  unfold u64_arg. intros Hi Hm Hb Hc. unfold write.
  destruct (tmpfs st) as [fs|] eqn:Ef; [|by eexists _, _].
  destruct (find_fd fd (opens fs)) as [[i o]|] eqn:Eo; [|by eexists _, _].
  case_match; [by eexists _, _|]. destruct (inv_get st fs Hi Ef) as [Hf Hd].
  destruct (find_fd_Some _ _ _ _ Eo) as (Hio & _ & Hin).
  set (at_ := if o_append o then _ else _).
  assert (0 <= at_ < 2 ^ 63) as Hat.
  { subst at_. destruct (o_append o); [|by apply (fd_pos _ _ Hd)].
    destruct (nodes fs !! o_path o) as [nd|] eqn:En; [|lia].
    pose proof (file_bounds fs _ nd Hf En). rewrite cap_bound in *. lia. }
  destruct (write_at_spec fs (o_path o) at_ buf count m)
    as (fs' & r & E & Hf' & Ho & Hfr & Hr); [done|done|lia..|].
  rewrite E. cbn [mbind outcome_bind]. eexists _, _. split; [done|].
  split.
  - destruct (Z.gtb_spec r 0) as [Hpos|_]; [|apply inv_put; [done|done|by rewrite Ho]].
    apply inv_put; [done|by apply fs_ok_opens|]. cbn. rewrite Ho.
    destruct Hr as [?|(nd & bs & _ & _ & _ & _ & Hend & _)]; [lia|]. rewrite cap_bound in Hend.
    eapply fds_ok_replace; eauto; cbn; [rewrite u64_small by lia; lia|by apply (fd_pos _ _ Hd)].
  - intros HT fs1. specialize (HT fs Ef).
    destruct (r >? 0); intros [= <-]; cbn; by eapply tree_same.
Qed.

Lemma pwrite_spec fd buf count off st m :
  inv st -> wf m -> u64_arg buf = true -> u64_arg count = true -> u64_arg off = true ->
  exists st' r, pwrite fd buf count off st m = Ret (st', r) /\ inv st'
    /\ (tree_inv st -> tree_inv st').
Proof.
  unfold u64_arg. intros Hi Hm Hb Hc Ho. unfold pwrite.
  destruct (tmpfs st) as [fs|] eqn:Ef; [|by eexists _, _].
  destruct (find_fd fd (opens fs)) as [[i o]|] eqn:Eo; [|by eexists _, _].
  case_match; [by eexists _, _|]. destruct (inv_get st fs Hi Ef) as [Hf Hd].
  destruct (write_at_spec fs (o_path o) off buf count m)
    as (fs' & r & E & Hf' & Hop & Hs & _); [done|done|lia..|].
  unfold run_core. rewrite E. cbn. eexists _, _. split; [done|].
  split; [apply inv_put; [done|done|by rewrite Hop]|].
  intros HT fs1 [= <-]. eapply tree_same; [by apply HT|done].
Qed.

(** Truncation, for lengths that do not wrap the accounting. *)
Lemma resize_core_spec st fs path n :
  inv st -> tmpfs st = Some fs -> 0 <= n <= isize_max ->
  exists st' r, run_core st (resize_path fs path n) = Ret (st', r) /\ inv st'
    /\ (tree_inv st -> tree_inv st').
Proof.
  intros Hi Ef Hn. destruct (inv_get st fs Hi Ef) as [Hf Hd].
  destruct (resize_path_spec fs path n Hf Hn) as (fs' & r & E & Hf' & Hop & Hne & Heq).
  unfold run_core. rewrite E. cbn. eexists _, _. split; [done|].
  split; [apply inv_put; [done|done|by rewrite Hop]|].
  intros HT fs1 [= <-]. specialize (HT fs Ef). destruct (decide (r = 0)) as [Hr|Hr].
  - destruct (Heq Hr) as (nd & En & End & ->). by eapply tree_update.
  - by rewrite (Hne Hr).
Qed.

(** Any length: when the call returns, the state is well-formed. *)
Lemma resize_core_ret st fs path n st' r :
  inv st -> tmpfs st = Some fs -> 0 <= n ->
  run_core st (resize_path fs path n) = Ret (st', r) ->
  inv st' /\ (tree_inv st -> tree_inv st').
Proof.
  intros Hi Ef Hn Hr. destruct (Z.leb_spec n isize_max) as [Hle|Hgt].
  { destruct (resize_core_spec st fs path n Hi Ef (conj Hn Hle)) as (s' & r' & E & ? & ?).
    rewrite E in Hr. by injection Hr as <- <-. }
  assert (Hsame : st' = put fs st).
  { unfold run_core, resize_path, vec_resize in Hr. rewrite (proj2 (Z.leb_gt _ _) Hgt) in Hr.
    destruct (nodes fs !! path); [|by injection Hr as <- _].
    repeat (case_match; cbn in Hr; try done); by injection Hr as <- _. }
  subst. destruct (inv_get st fs Hi Ef). split; [by apply inv_put|].
  intros HT fs1 [= <-]. by apply HT.
Qed.

Lemma read_spec fd buf count st m :
  inv st -> wf m -> u64_arg buf = true -> u64_arg count = true ->
  exists st' m' r, read fd buf count st m = Ret (st', m', r) /\ inv st' /\ wf m'
    /\ (tree_inv st -> tree_inv st').
Proof.
  unfold u64_arg. intros Hi Hm Hb Hc. unfold read.
  destruct (tmpfs st) as [fs|] eqn:Ef; [|by eexists _, _, _].
  destruct (find_fd fd (opens fs)) as [[i o]|] eqn:Eo; [|by eexists _, _, _].
  case_match; [by eexists _, _, _|].
  destruct (nodes fs !! o_path o) as [nd|] eqn:En; [|by eexists _, _, _].
  destruct (inv_get st fs Hi Ef) as [Hf Hd].
  destruct (find_fd_Some _ _ _ _ Eo) as (Hio & _ & Hin).
  pose proof (fd_pos _ _ Hd o Hin) as [Hpos Hdp].
  destruct (file_bounds fs _ nd Hf En) as [Hlen Hcap]. rewrite cap_bound in Hcap.
  destruct (read_at_spec nd (o_pos o) buf count m) as (m' & r & E & Hm' & Hr & _ & Hs); [done|lia..|].
  rewrite E. cbn [mbind outcome_bind]. eexists _, _, _. split; [done|].
  split; [|split; [done|]].
  - destruct (Z.gtb_spec r 0) as [Hp|_]; [|done].
    destruct (Hs Hp) as (bs & _ & Hl & Hn & _).
    eapply find_put_inv; eauto; cbn. rewrite u64_small by lia. lia.
  - intros HT fs1. case_match; [intros [= <-]; exact (HT fs Ef)|apply HT].
Qed.

Lemma pread_spec fd buf count off st m :
  inv st -> wf m -> u64_arg buf = true -> u64_arg count = true -> u64_arg off = true ->
  exists m' r, pread fd buf count off st m = Ret (m', r) /\ wf m'.
Proof.
  unfold u64_arg. intros Hi Hm Hb Hc Ho. unfold pread.
  destruct (tmpfs st) as [fs|] eqn:Ef; [|by eexists _, _].
  destruct (find_fd fd (opens fs)) as [[i o]|] eqn:Eo; [|by eexists _, _].
  case_match; [by eexists _, _|].
  destruct (nodes fs !! o_path o) as [nd|] eqn:En; [|by eexists _, _].
  destruct (inv_get st fs Hi Ef) as [Hf Hd].
  destruct (file_bounds fs _ nd Hf En) as [Hlen Hcap]. rewrite cap_bound in Hcap.
  destruct (read_at_spec nd off buf count m) as (m' & r & E & Hm' & _); [done|lia..|].
  rewrite E. eauto.
Qed.

Lemma dents_loop_cursor ns prefix names buf count : forall off e (m : M) m' off' e',
  dents_loop ns prefix names buf count off e m = Ret (m', off', e') -> e <= e'.
Proof.
  induction names as [|name names IH]; intros off e m m' off' e'; cbn [dents_loop].
  { intros [= _ _ <-]. lia. }
  case_match; [intros [= _ _ <-]; lia|].
  destruct (um_raw _ _ _) as [m1|]; cbn [mbind outcome_bind]; [|done].
  intros Hr%IH. lia.
Qed.

Lemma getdents64_ret fd buf count st (m : M) st' m' r :
  inv st -> getdents64 fd buf count st m = Ret (st', m', r) ->
  inv st' /\ (tree_inv st -> tree_inv st').
Proof.
  intros Hi. unfold getdents64.
  destruct (tmpfs st) as [fs|] eqn:Ef; [|by intros [= <- _ _]].
  destruct (find_fd fd (opens fs)) as [[i o]|] eqn:Eo; [|by intros [= <- _ _]].
  case_match; [by intros [= <- _ _]|].
  destruct (dents_loop _ _ _ _ _ _ _ _) as [[[m1 off] e]|] eqn:Ed; cbn [mbind outcome_bind]; [|done].
  apply dents_loop_cursor in Ed. intros [= <- _ _].
  destruct (inv_get st fs Hi Ef) as [Hf Hd]. destruct (find_fd_Some _ _ _ _ Eo) as (_ & _ & Hin).
  pose proof (fd_pos _ _ Hd o Hin) as [Hp Hdp]. split.
  - eapply find_put_inv; eauto; cbn; lia.
  - intros HT fs1 [= <-]. exact (HT fs Ef).
Qed.

Lemma open_tree path flags mode st : tree_inv st -> tree_inv (fst (open path flags mode st)).
Proof.
  intros HT. unfold open. destruct (tmpfs st) as [fs|] eqn:Ef; [|done].
  pose proof (HT fs Ef) as T. case_match; [done|].
  destruct (nodes fs !! norm path) as [nd|] eqn:En.
  - case_match; [done|]. destruct (n_is_dir nd) eqn:Edir.
    { case_match; [done|]. by intros fs1 [= <-]. }
    case_match; [done|]. destruct (flag flags O_TRUNC && _); intros fs1 [= <-]; [|done].
    by eapply tree_update.
  - case_match; [done|]. case_match; [done|].
    destruct (nodes fs !! parent _) as [p|] eqn:Ep; [|done]. case_match; [|done].
    intros fs1 [= <-]. eapply tree_add; eauto. apply norm_normal.
Qed.

Lemma mkdir_tree path mode st : tree_inv st -> tree_inv (fst (mkdir path mode st)).
Proof.
  intros HT. unfold mkdir. destruct (tmpfs st) as [fs|] eqn:Ef; [|done].
  destruct (nodes fs !! norm path) as [nd|] eqn:En; [done|].
  destruct (nodes fs !! parent _) as [p|] eqn:Ep; [|done]. case_match; [|done].
  intros fs1 [= <-]. eapply tree_add; eauto. apply norm_normal.
Qed.

Lemma rmdir_tree path st : tree_inv st -> tree_inv (fst (rmdir path st)).
Proof.
  intros HT. unfold rmdir. destruct (_ || _) eqn:Er; [done|]. zb.
  destruct (tmpfs st) as [fs|] eqn:Ef; [|done]. pose proof (HT fs Ef) as T.
  destruct (nodes fs !! norm path) as [nd|] eqn:En; [|done].
  case_match; [done|]. destruct (has_children _ _) eqn:Ec; [done|].
  intros fs1 [= <-]. apply tree_delete; [done..|]. intros k' x Hx _ _.
  eapply empty_dir_leaf; eauto. by apply (tr_normal _ T _ nd).
Qed.

Lemma unlink_tree path st : tree_inv st -> tree_inv (fst (unlink path st)).
Proof.
  intros HT. unfold unlink. destruct (tmpfs st) as [fs|] eqn:Ef; [|done].
  pose proof (HT fs Ef) as T. destruct (nodes fs !! norm path) as [nd|] eqn:En; [|done].
  destruct (n_is_dir nd) eqn:Ed; [done|]. intros fs1 [= <-].
  apply tree_delete; [done|apply (file_leaf _ _ nd T En Ed)..].
Qed.

Lemma state_only_tree (st st' : state) :
  tree_inv st -> (forall fs', tmpfs st' = Some fs' -> exists fs, tmpfs st = Some fs
     /\ nodes fs' = nodes fs) -> tree_inv st'.
Proof. intros HT Hs fs' E. destruct (Hs fs' E) as (fs & E' & ->). by apply HT. Qed.

Lemma step_ret o st (m : M) st' m' r :
  inv st -> wf m -> next_fd st < i32_max -> args_ok o = true -> step o st m = Ret (st', m', r) ->
  inv st' /\ (sane_move o = true -> tree_inv st -> tree_inv st').
Proof.
  intros Hi Hm Hn Ha. destruct o; cbn [step args_ok sane_move] in *; zb.
  - intros [= <- _ _]. split; [by apply open_inv|intros _; apply open_tree].
  - destruct (write_spec fd buf count st m) as (s & v & -> & ? & ?); [done..|].
    cbn. intros [= <- _ _]. auto.
  - destruct (pwrite_spec fd buf count offset st m) as (s & v & -> & ? & ?); [done..|].
    cbn. intros [= <- _ _]. auto.
  - destruct (read_spec fd buf count st m) as (s & m1 & v & -> & ? & _ & ?); [done..|].
    intros [= <- _ _]. auto.
  - destruct (pread _ _ _ _ _ _) as [[? ?]|]; [|done]. cbn. intros [= <- _ _]. auto.
  - intros [= <- _ _]. split; [by apply lseek_inv|]. intros _ HT.
    eapply state_only_tree; [done|]. intros fs'. unfold lseek.
    repeat case_match; cbn; intros ?; simplify_eq/=; eauto.
  - unfold ftruncate, u64_arg in *. destruct (tmpfs st) as [fs|] eqn:Ef; [|by intros [= <- _ _]].
    destruct (find_fd fd (opens fs)) as [[i o]|]; [|by intros [= <- _ _]].
    case_match; [by intros [= <- _ _]|].
    destruct (run_core _ _) as [[s v]|] eqn:E; [|done]. cbn. intros [= <- _ _].
    apply resize_core_ret in E as []; auto; lia.
  - unfold truncate, u64_arg in *. destruct (tmpfs st) as [fs|] eqn:Ef; [|by intros [= <- _ _]].
    destruct (nodes fs !! norm path); [|by intros [= <- _ _]].
    destruct (run_core _ _) as [[s v]|] eqn:E; [|done]. cbn. intros [= <- _ _].
    apply resize_core_ret in E as []; auto; lia.
  - intros [= <- _ _]. auto.
  - intros [= <- _ _]. auto.
  - intros [= <- _ _]. split; [by apply close_inv|]. intros _ HT.
    eapply state_only_tree; [done|]. intros fs'. unfold close.
    repeat case_match; cbn; intros ?; simplify_eq/=; eauto.
  - intros [= <- _ _]. split; [by apply unlink_inv|intros _; apply unlink_tree].
  - intros [= <- _ _]. split; [by apply rename_inv|]. intros Hs HT. zb. by apply rename_tree.
  - intros [= <- _ _]. split; [by apply mkdir_inv|intros _; apply mkdir_tree].
  - intros [= <- _ _]. split; [by apply rmdir_inv|intros _; apply rmdir_tree].
  - intros [= <- _ _]. auto.
  - intros Hg%getdents64_ret; [|done]. tauto.
Qed.

Lemma init_inv st : TMPFS_FD_BASE <= next_fd st <= i32_max -> inv (Tmpfs.init st) /\ tree_inv (Tmpfs.init st).
Proof.
  intros Hn. split.
  - split; [done|]. intros fs [= <-]. split.
    + constructor; [by vm_compute|done|]. cbn.
      intros k nd [[_ <-]|[_ [[_ <-]|[_ ?]]%lookup_insert_Some]]%lookup_insert_Some; done.
    + constructor; [constructor|intros ? []%elem_of_nil|intros ? []%elem_of_nil|done].
  - intros fs [= <-]. cbn. constructor.
    + intros k nd [[<- _]|[_ [[<- _]|[_ ?]]%lookup_insert_Some]]%lookup_insert_Some; [| |done].
      * split; [|by vm_compute]. split; [done|]. right. by vm_compute.
      * split; [|by vm_compute]. split; [done|]. right. by vm_compute.
    + eexists. by rewrite lookup_insert_eq.
    + eexists. rewrite lookup_insert_ne by by vm_compute. by rewrite lookup_insert_eq.
    + intros k nd [[<- _]|[_ [[<- _]|[_ ?]]%lookup_insert_Some]]%lookup_insert_Some; done.
Qed.

(** States reached from the mounted filesystem by operations with arbitrary
    arguments and arbitrary user memory; descriptor numbers are not
    exhausted (2^31 opens). *)
Inductive reach : state -> Prop :=
| reach_init st : next_fd st = TMPFS_FD_BASE -> reach (Tmpfs.init st)
| reach_step st o (m : M) st' m' r :
    reach st -> wf m -> args_ok o = true -> next_fd st < i32_max ->
    step o st m = Ret (st', m', r) -> reach st'.

(** The same, restricted to moves that are not into the moved directory. *)
Inductive reach_sane : state -> Prop :=
| sane_init st : next_fd st = TMPFS_FD_BASE -> reach_sane (Tmpfs.init st)
| sane_step st o (m : M) st' m' r :
    reach_sane st -> wf m -> args_ok o = true -> sane_move o = true -> next_fd st < i32_max ->
    step o st m = Ret (st', m', r) -> reach_sane st'.

Lemma base_range x : x = TMPFS_FD_BASE -> TMPFS_FD_BASE <= x <= i32_max.
Proof. intros ->. by vm_compute. Qed.

(** ** Properties *)

(** C11.  In every reachable state of the RAM filesystem the byte counter is
    the total size of the stored files and never exceeds the 4 MiB cap,
    directories hold no data, and open descriptors are distinct, were handed
    out by the allocator, have offsets that fit [i64], and number at most 256;
    whatever the calls, their arguments, and the contents of user memory. *)
Theorem tmpfs_invariant st : reach st -> inv st.
Proof.
  induction 1 as [st Hn|st o m st' m' r _ IH Hm Ha Hn Hs].
  - by apply init_inv, base_range.
  - by eapply step_ret.
Qed.

(** C12.  The stored paths form a tree: in every state reached without moving a
    directory into itself or a mount root, all paths are normalised and inside
    the mounts, both roots exist, and every other node's parent exists and is a
    directory. *)
Theorem tmpfs_tree st : reach_sane st -> tree_inv st.
Proof.
  assert (reach_sane st -> inv st /\ tree_inv st) as Hboth; [|tauto].
  induction 1 as [st Hn|st o m st' m' r _ [IH1 IH2] Hm Ha Hsm Hn Hs].
  - by apply init_inv, base_range.
  - destruct (step_ret o st m st' m' r) as [? HT]; auto.
Qed.

(** No panic: from a well-formed state every operation whose user memory
    accesses are guarded returns, for every argument (truncation lengths up to
    [isize::MAX]) and every state of user memory. *)
Theorem tmpfs_no_panic o st m :
  inv st -> wf m -> args_ok o = true -> guarded o = true -> trunc_ok o = true ->
  exists st' m' r, step o st m = Ret (st', m', r).
Proof.
  intros Hi Hm Ha Hg Ht. destruct o; cbn [step args_ok guarded trunc_ok] in *; zb; try done;
    try (by eexists _, _, _).
  - destruct (write_spec fd buf count st m) as (s & v & -> & _); [done..|]. by eexists _, _, _.
  - destruct (pwrite_spec fd buf count offset st m) as (s & v & -> & _); [done..|]. by eexists _, _, _.
  - destruct (read_spec fd buf count st m) as (s & m1 & v & -> & _); [done..|]. by eexists _, _, _.
  - destruct (pread_spec fd buf count offset st m) as (m1 & v & -> & _); [done..|]. by eexists _, _, _.
  - unfold ftruncate, u64_arg in *. destruct (tmpfs st) as [fs|] eqn:Ef; [|by eexists _, _, _].
    destruct (find_fd fd (opens fs)) as [[i o]|]; [|by eexists _, _, _].
    case_match; [by eexists _, _, _|].
    destruct (resize_core_spec st fs (o_path o) len_) as (s & v & -> & _); [done|done|lia|].
    by eexists _, _, _.
  - unfold truncate, u64_arg in *. destruct (tmpfs st) as [fs|] eqn:Ef; [|by eexists _, _, _].
    destruct (nodes fs !! norm path); [|by eexists _, _, _].
    destruct (resize_core_spec st fs (norm path) len_) as (s & v & -> & _); [done|done|lia|].
    by eexists _, _, _.
Qed.

(** C13.  What is written is what is read: if a positional write accepts [n]
    bytes, a positional read of [n] bytes at the same offset into any accessible
    buffer returns [n] and leaves in the buffer the bytes the writer had. *)
Theorem pwrite_pread_roundtrip fd buf count off n st m st' m' buf2 :
  inv st -> wf m -> args_ok (OpPwrite fd buf count off) = true ->
  pwrite fd buf count off st m = Ret (st', n) -> 0 < n ->
  wf m' -> u64_arg buf2 = true -> is_Some (um_in m' buf2 n) ->
  exists bs m'', um_in m buf n = Some bs
    /\ pread fd buf2 n off st' m' = Ret (m'', n) /\ um_in m'' buf2 n = Some bs.
Proof.
  cbn [args_ok]. unfold u64_arg. intros Hi Hm Ha Hw Hn Hm' Hb2 Hacc. zb. unfold pwrite in Hw.
  destruct (tmpfs st) as [fs|] eqn:Ef; [|injection Hw; intros; unfold EBADF in *; lia].
  destruct (find_fd fd (opens fs)) as [[i o]|] eqn:Eo;
    [|injection Hw; intros; unfold EBADF in *; lia].
  destruct (_ || o_is_dir o) eqn:Ew; [injection Hw; intros; unfold EBADF in *; lia|].
  apply orb_false_iff in Ew as [_ Ed]. destruct (inv_get st fs Hi Ef) as [Hf Hd].
  destruct (write_at_spec fs (o_path o) off buf count m)
    as (fs' & r & E & Hf' & Hop & _ & Hr); [done|done|lia..|].
  unfold run_core in Hw. rewrite E in Hw. injection Hw as <- <-. cbn [snd] in *.
  destruct Hr as [?|(nd & bs & En & End & Hin & Hbs & Hend & _ & Hns)]; [lia|].
  exists bs. assert (um_out m' buf2 bs <> None) as Hout.
  { apply not_eq_None_Some, um_out_in; [done|lia|]. by rewrite Hbs. }
  destruct (um_out m' buf2 bs) as [m''|] eqn:Eout; [|done]. exists m''. split; [done|].
  split; [|rewrite <- Hbs; eapply um_in_out; eauto; lia].
  unfold pread. cbn [tmpfs put fst]. rewrite Hop, Eo, Ed, Hns, lookup_insert_eq.
  unfold read_at. cbn [n_data]. pose proof (overwrite_len (n_data nd) off bs ltac:(lia)) as Hol.
  pose proof (file_bounds fs _ nd Hf En). pose proof cap_bound.
  rewrite Z.geb_leb, (proj2 (Z.leb_gt _ _)) by lia. rewrite (u64_small (_ - off)) by lia.
  rewrite Z.min_l by lia. rewrite u64_small by lia. rewrite <- Hbs, overwrite_slice by lia.
  cbn. by rewrite Eout.
Qed.

(** Directory listings are exact: the names listed for a directory prefix
    are precisely the single-component suffixes of stored paths under it, each
    exactly once. *)
Theorem child_names_exact ns prefix :
  NoDup (child_names ns prefix)
  /\ forall name, name ∈ child_names ns prefix <->
       is_Some (ns !! (prefix ++ name)) /\ name <> [] /\ SLASH ∉ name.
Proof.
  assert (Hf : forall k name,
    (if (len k >? len prefix) && starts_with k prefix
     then (let rest := drop (length prefix) k in
           if existsb (fun c => c =? SLASH) rest then None else Some rest)
     else None) = Some name <-> k = prefix ++ name /\ name <> [] /\ SLASH ∉ name).
  { intros k name. split.
    - destruct (_ && _) eqn:E; [|done]. zb. apply starts_with_spec in H1 as [r ->].
      rewrite drop_app_length. cbv zeta. destruct (existsb _ r) eqn:Ex; [done|]. intros [= <-].
      split; [done|]. split.
      + intros ->. rewrite app_nil_r in *. lia.
      + intros Hs. apply not_true_iff_false in Ex. apply Ex, existsb_exists. exists SLASH.
        split; [by apply list_elem_of_In|done].
    - intros (-> & Hne & Hs). rewrite len_app. rewrite (proj2 (starts_with_spec _ _)) by by eexists.
      destruct name as [|c name]; [done|]. rewrite len_cons. pose proof (len_nonneg name).
      rewrite Z.gtb_ltb, (proj2 (Z.ltb_lt _ _)) by lia. cbn [andb]. rewrite drop_app_length.
      cbv zeta. destruct (existsb _ _) eqn:Ex; [|done]. exfalso.
      apply existsb_exists in Ex as (x & Hx & Hxs). zb. subst. by apply Hs, list_elem_of_In. }
  split.
  - unfold child_names. pose proof (keys_nodup ns) as Hnd.
    induction (keys ns) as [|k ks IH]; [constructor|]. inversion Hnd as [|? ? Hk Hks]; subst.
    cbn [omap list_omap]. case_match eqn:Ek; [|by apply IH]. constructor; [|by apply IH].
    rewrite list_elem_of_omap. intros (k' & Hk' & E').
    apply Hf in Ek as (-> & _). apply Hf in E' as (-> & _). done.
  - intros name. unfold child_names. rewrite list_elem_of_omap. split.
    + intros (k & Hk & E). apply Hf in E as (-> & ? & ?). by rewrite keys_elem in Hk.
    + intros (Hk & Hne & Hs). exists (prefix ++ name). rewrite keys_elem. split; [done|].
      by apply Hf.
Qed.

(** The cap check of truncation wraps around: for a file that does not hold
    all stored bytes, a length close enough to 2^64 passes the check and the
    resize panics the kernel. *)
Theorem truncate_wrap_panics path n st fs nd :
  inv st -> tmpfs st = Some fs -> nodes fs !! norm path = Some nd -> n_is_dir nd = false ->
  2 ^ 64 - (total fs - len (n_data nd)) <= n < 2 ^ 64 ->
  truncate path n st = Panic.
Proof.
  intros Hi Ef En Ed Hn. destruct (inv_get st fs Hi Ef) as [Hf _].
  destruct (file_bounds fs _ nd Hf En) as [Hlen Hcap]. rewrite cap_bound in Hcap.
  unfold truncate, run_core, resize_path. rewrite Ef, En, Ed.
  rewrite Z.gtb_ltb, (proj2 (Z.ltb_lt _ _)) by lia. rewrite (u64_small (n - _)) by lia.
  assert (total fs ⊞ (n - len (n_data nd)) = total fs + (n - len (n_data nd)) - 2 ^ 64) as ->.
  { unfold u64, wrap. rewrite <- (Z.mod_small (_ - 2 ^ 64) (2 ^ 64)) at 1 by lia.
    rewrite Zminus_mod, Z_mod_same_full, Z.sub_0_r, Z.mod_mod by lia. done. }
  rewrite Z.gtb_ltb, (proj2 (Z.ltb_ge _ _)) by (rewrite cap_bound; lia).
  unfold vec_resize, isize_max. rewrite (proj2 (Z.leb_gt _ _)) by lia. done.
Qed.

(** Moving an empty directory into itself succeeds and orphans it: the
    call returns 0 and the moved node's parent no longer exists. *)
Theorem rename_into_self_orphans old new st fs nd :
  tmpfs st = Some fs -> nodes fs !! norm old = Some nd -> n_is_dir nd = true ->
  has_children (nodes fs) (norm old) = false -> is_mount_path (norm old) = true ->
  parent (norm new) = norm old ->
  exists st' fs', rename old new st = (st', 0) /\ tmpfs st' = Some fs'
    /\ nodes fs' !! norm new = Some nd /\ nodes fs' !! parent (norm new) = None.
Proof.
  intros Ef Eo Ed Hc Hm Hp. destruct (child_mount (norm new)) as [_ Hu]; [by rewrite Hp|].
  rewrite Hp in Hu. assert (norm old <> norm new) as Hne.
  { intros E. rewrite E, is_under_irrefl in Hu. done. }
  assert (nodes fs !! norm new = None) as En.
  { apply not_true_iff_false in Hc. destruct (nodes fs !! norm new) eqn:E; [|done].
    exfalso. apply Hc, has_children_spec. exists (norm new). by rewrite E. }
  unfold rename. rewrite bool_decide_eq_false_2, Ef, Eo, Hp, Eo, Ed, En, Hc by done. cbn.
  eexists _, _. split; [done|]. split; [done|]. cbn. rewrite lookup_insert_eq. split; [done|].
  rewrite lookup_insert_ne by done. apply lookup_delete_eq.
Qed.

(** A file created by [open] is never opened for appending and is always
    writable, whatever O_APPEND and the access mode say. *)
Theorem open_create_ignores_append path flags mode st fs p :
  tmpfs st = Some fs -> len (opens fs) < MAX_OPEN -> nodes fs !! norm path = None ->
  flag flags O_CREAT = true -> flag flags O_DIRECTORY = false ->
  nodes fs !! parent (norm path) = Some p -> n_is_dir p = true ->
  exists st' fs' o, open path flags mode st = (st', next_fd st) /\ tmpfs st' = Some fs'
    /\ opens fs' = opens fs ++ [o] /\ o_fd o = next_fd st
    /\ o_append o = false /\ o_writable o = true.
Proof.
  intros Ef Hl En Hcr Hdi Ep Hpd. unfold open.
  rewrite Ef, Z.geb_leb, (proj2 (Z.leb_gt _ _)), En, Hcr, Hdi, Ep, Hpd by done. cbn.
  by eexists _, _, _.
Qed.

End Props.

(** ** Directory listing and the guard *)

Section Raw.
Context `{HL : LayoutOk}.

(** [getdents64] stores through the raw user pointer: whenever the
    directory has an entry left that fits the buffer and the buffer is ring-3
    memory, the first store faults in ring 0 and the kernel halts. *)
Theorem getdents64_faults fd buf count st m fs i o name names pa :
  wf_machine m -> tmpfs st = Some fs -> find_fd fd (opens fs) = Some (i, o) ->
  o_is_dir o = true -> o_path o <> [SLASH] ->
  drop (Z.to_nat (o_dir_pos o)) (child_names (nodes fs) (o_path o ++ [SLASH])) = name :: names ->
  dirent_reclen name <= count -> 0 <= buf < 2 ^ 64 -> user_at (tabs m) buf pa ->
  getdents64 fd buf count st m = Panic.
Proof.
  intros Hm Ef Eo Ed Hp Hn Hc Hb Hu. unfold getdents64.
  rewrite Ef, Eo, Ed. cbn [negb]. rewrite bool_decide_eq_false_2, Hn by done. cbn [dents_loop].
  rewrite Z.add_0_l, Z.gtb_ltb, (proj2 (Z.ltb_ge _ _)) by done.
  rewrite Z.add_0_r, u64_small by done.
  assert (exists b bs, forall d, dirent (o_dir_pos o) name d = b :: bs d) as (b & bs & ->)
    by (eexists _, _; intros d; unfold dirent; cbn; reflexivity).
  cbn [um_raw machine_user_mem]. by rewrite (raw_store_faults m buf pa).
Qed.

End Raw.

(** ** Witnesses *)

#[local] Existing Instance ua_layout.
#[local] Existing Instance ua_layout_ok.

Definition st_boot : state := Tmpfs.init (mkState None TMPFS_FD_BASE).
(** Two files, one of them holding the two bytes at 0x500000, and a directory. *)
Definition st_a : state := fst (open (bstr "/tmp/a") 66 0 st_boot).
Definition st_b : state := fst (open (bstr "/tmp/b") 66 0 st_a).
Definition st_w : state :=
  match write 4000 0x500000 2 st_b demo_machine with Ret (st, _) => st | Panic => st_b end.
Definition st_d : state := fst (mkdir (bstr "/tmp/d") 0 st_w).
Definition fs_w : Tmpfs := match tmpfs st_w with Some fs => fs | None => mkTmpfs ∅ 0 [] end.
Definition fs_d : Tmpfs := match tmpfs st_d with Some fs => fs | None => mkTmpfs ∅ 0 [] end.

Lemma st_b_inv : inv st_b.
Proof.
  apply open_inv; [apply open_inv; [by apply init_inv, base_range|done]|done].
Qed.

Lemma st_w_step : step (OpWrite 4000 0x500000 2) st_b demo_machine = Ret (st_w, demo_machine, 2).
Proof.
  assert (write 4000 0x500000 2 st_b demo_machine = Ret (st_w, 2)) as E by (vm_compute; reflexivity).
  cbn [step]. by rewrite E.
Qed.

Lemma st_w_inv : inv st_w.
Proof.
  eapply (step_ret (OpWrite 4000 0x500000 2) st_b demo_machine);
    [apply st_b_inv|apply demo_machine_wf|done|done|apply st_w_step].
Qed.

Lemma tmpfs_invariant_witness : reach (M := machine) (wf := wf_machine) st_w /\ inv st_w.
Proof.
  assert (reach (M := machine) (wf := wf_machine) st_w) as R.
  { eapply (reach_step st_b (OpWrite 4000 0x500000 2) demo_machine);
      [|apply demo_machine_wf|reflexivity|reflexivity|apply st_w_step].
    eapply (reach_step st_a (OpOpen (bstr "/tmp/b") 66 0) demo_machine);
      [|apply demo_machine_wf|reflexivity|reflexivity|reflexivity].
    eapply (reach_step st_boot (OpOpen (bstr "/tmp/a") 66 0) demo_machine);
      [|apply demo_machine_wf|reflexivity|reflexivity|reflexivity].
    apply reach_init. reflexivity. }
  split; [exact R|]. apply (tmpfs_invariant st_w R).
Defined.

Lemma tmpfs_tree_witness : tree_inv st_a.
Proof.
  apply (tmpfs_tree (M := machine) (wf := wf_machine) st_a).
  eapply (sane_step st_boot (OpOpen (bstr "/tmp/a") 66 0) demo_machine);
    [|apply demo_machine_wf|reflexivity|reflexivity|reflexivity|reflexivity].
  apply sane_init. reflexivity.
Defined.

Lemma tmpfs_no_panic_witness :
  exists st' m' r, step (OpRead 4000 0x600000 (2 ^ 64 - 1)) st_w demo_machine = Ret (st', m', r).
Proof.
  apply (tmpfs_no_panic (wf := wf_machine) (OpRead 4000 0x600000 (2 ^ 64 - 1)) st_w demo_machine);
    [apply st_w_inv|apply demo_machine_wf|reflexivity..].
Defined.

Lemma pwrite_pread_roundtrip_witness :
  exists bs m'', um_in demo_machine 0x500000 2 = Some bs
    /\ pread 4001 0x600000 2 3 (match pwrite 4001 0x500000 2 3 st_w demo_machine with
         Ret (st, _) => st | Panic => st_w end) demo_machine = Ret (m'', 2)
    /\ um_in m'' 0x600000 2 = Some bs.
Proof.
  apply (pwrite_pread_roundtrip (wf := wf_machine) 4001 0x500000 2 3 2 st_w demo_machine);
    [apply st_w_inv|apply demo_machine_wf|reflexivity|vm_compute; reflexivity|lia
    |apply demo_machine_wf|reflexivity|].
  eexists. vm_compute. reflexivity.
Defined.

Lemma truncate_wrap_panics_witness : truncate (bstr "/tmp/b") (2 ^ 64 - 1) st_w = Panic.
Proof.
  apply (truncate_wrap_panics (bstr "/tmp/b") (2 ^ 64 - 1) st_w fs_w (mkNode false [] 420));
    [apply st_w_inv|vm_compute; reflexivity|vm_compute; reflexivity|reflexivity|].
  assert (total fs_w = 2) as -> by (vm_compute; reflexivity).
  change (len (n_data (mkNode false [] 420))) with 0. lia.
Defined.

Lemma rename_into_self_orphans_witness :
  exists st' fs', rename (bstr "/tmp/d") (bstr "/tmp/d/x") st_d = (st', 0)
    /\ tmpfs st' = Some fs' /\ nodes fs' !! bstr "/tmp/d/x" = Some (mkNode true [] 493)
    /\ nodes fs' !! bstr "/tmp/d" = None.
Proof.
  apply (rename_into_self_orphans (bstr "/tmp/d") (bstr "/tmp/d/x") st_d fs_d (mkNode true [] 493));
    vm_compute; reflexivity.
Defined.

Lemma open_create_ignores_append_witness :
  exists st' fs' o, open (bstr "/tmp/log") 1089 0 st_w = (st', 4002) /\ tmpfs st' = Some fs'
    /\ opens fs' = opens fs_w ++ [o] /\ o_fd o = 4002
    /\ o_append o = false /\ o_writable o = true.
Proof.
  apply (open_create_ignores_append (bstr "/tmp/log") 1089 0 st_w fs_w (mkNode true [] 511));
    vm_compute; reflexivity.
Defined.

(** The root directory of the mount, opened for listing. *)
Definition st_l : state := fst (open (bstr "/tmp") 65536 0 st_w).

Lemma getdents64_faults_witness : getdents64 4002 0x600000 4096 st_l demo_machine = Panic.
Proof.
  eapply (getdents64_faults 4002 0x600000 4096 st_l demo_machine
    (match tmpfs st_l with Some fs => fs | None => fs_w end) 2
    (mkOpenFd 4002 TMP 0 false false true 0) (bstr "a") [bstr "b"] 0x600000);
    [apply demo_machine_wf|vm_compute; reflexivity|vm_compute; reflexivity|reflexivity
    |done|vm_compute; reflexivity|done|lia|].
  split; [unfold GIB; lia|]. eexists. split; [vm_compute; reflexivity|]. by split.
Defined.
