(* ===== verification/FdTable.v ===== *)
(** * The slot table of open archive files

    Models [src/src/fd_table.rs] and shows that it implements a bounded finite
    map from descriptors to open files. *)

From S2P Require Import Prelude.

Record OpenFile := mkOpenFile {
  f_fd : Z;
  f_data_offset : Z;
  f_data_len : Z;
  f_pos : Z;
}.

(** A slice of optional slots. *)
Notation table := (list (option OpenFile)).

(** The updated slice, and the index used. *)
Fixpoint alloc_from (i : nat) (t : table) (entry : OpenFile) : table * option nat :=
  match t with
  | [] => ([], None)
  | None :: t' => (Some entry :: t', Some i)
  | Some f :: t' => let '(t'', r) := alloc_from (S i) t' entry in (Some f :: t'', r)
  end.
Definition alloc (t : table) (entry : OpenFile) : table * option nat := alloc_from 0 t entry.

Fixpoint find_from (i : nat) (t : table) (fd : Z) : option nat :=
  match t with
  | [] => None
  | slot :: t' =>
      if match slot with Some f => f_fd f =? fd | None => false end
      then Some i else find_from (S i) t' fd
  end.
Definition find (t : table) (fd : Z) : option nat := find_from 0 t fd.

Definition free (t : table) (fd : Z) : table * bool :=
  match find t fd with
  | Some i => (<[i := None]> t, true)
  | None => (t, false)
  end.

(** ** Specification *)

(** The descriptors in use, in slot order. *)
Definition live_fds (t : table) : list Z := omap (option_map f_fd) t.
(** No descriptor occupies two slots. *)
Definition table_ok (t : table) : Prop := NoDup (live_fds t).
(** The abstract map. *)
Definition abs (t : table) : gmap Z OpenFile :=
  list_to_map (omap (option_map (fun f => (f_fd f, f))) t).

(** ** Lemmas *)

#[global] Arguments abs : simpl never.
#[global] Arguments live_fds : simpl never.

Lemma live_cons o t :
  live_fds (o :: t) = match o with Some f => f_fd f :: live_fds t | None => live_fds t end.
Proof. by destruct o. Qed.

Lemma abs_cons o t :
  abs (o :: t) = match o with Some f => <[f_fd f := f]> (abs t) | None => abs t end.
Proof. by destruct o. Qed.

Lemma abs_fresh t fd : fd ∉ live_fds t -> abs t !! fd = None.
Proof.
  induction t as [|[f|] t IH]; [done| |apply IH].
  rewrite live_cons, abs_cons, not_elem_of_cons. intros [Hne Hin].
  rewrite lookup_insert_ne by done. by apply IH.
Qed.

Lemma find_from_spec t fd i : table_ok t ->
  match find_from i t fd with
  | Some k => exists j f, k = (i + j)%nat /\ t !! j = Some (Some f) /\ f_fd f = fd
              /\ abs t !! fd = Some f
  | None => abs t !! fd = None
  end.
Proof.
  revert i. induction t as [|o t IH]; intros i Hok; cbn [find_from]; [done|].
  unfold table_ok in *. rewrite live_cons in Hok. rewrite abs_cons.
  assert (NoDup (live_fds t)) as Hok' by (destruct o; [by inversion Hok|done]).
  destruct o as [f|].
  - destruct (Z.eqb_spec (f_fd f) fd) as [<-|Hne].
    + exists 0%nat, f. rewrite lookup_insert_eq. split; [lia|done].
    + specialize (IH (S i) Hok'). destruct (find_from (S i) t fd) as [k|].
      * destruct IH as (j & g & -> & Hj & Hg & Ha). exists (S j), g.
        rewrite lookup_insert_ne by done. split; [lia|done].
      * by rewrite lookup_insert_ne.
  - specialize (IH (S i) Hok'). destruct (find_from (S i) t fd) as [k|]; [|done].
    destruct IH as (j & g & -> & Hj & Hg & Ha). exists (S j), g. split; [lia|done].
Qed.

Lemma find_spec t fd : table_ok t ->
  match find t fd with
  | Some k => exists f, t !! k = Some (Some f) /\ f_fd f = fd /\ abs t !! fd = Some f
  | None => abs t !! fd = None
  end.
Proof.
  intros Hok. unfold find. pose proof (find_from_spec t fd 0 Hok) as H.
  destruct (find_from 0 t fd); [|done]. destruct H as (j & f & -> & ?). by exists f.
Qed.

Lemma alloc_from_spec t e i :
  match alloc_from i t e with
  | (t', Some k) => exists j, k = (i + j)%nat /\ t !! j = Some None
      /\ (forall j', (j' < j)%nat -> t !! j' <> Some None) /\ t' = <[j := Some e]> t
  | (t', None) => t' = t /\ Forall is_Some t
  end.
Proof.
  revert i. induction t as [|[f|] t IH]; intros i; cbn [alloc_from].
  - done.
  - specialize (IH (S i)). destruct (alloc_from (S i) t e) as [t' [k|]].
    + destruct IH as (j & -> & Hj & Hmin & ->). exists (S j). split; [lia|]. split; [done|].
      split; [|done]. intros [|j'] Hlt; [done|]. cbn. apply Hmin. lia.
    + destruct IH as [-> Hall]. split; [done|]. constructor; [by eexists|done].
  - exists 0%nat. split; [lia|]. split; [done|]. split; [lia|done].
Qed.

Lemma alloc_spec t e :
  match alloc t e with
  | (t', Some k) => t !! k = Some None
      /\ (forall j', (j' < k)%nat -> t !! j' <> Some None) /\ t' = <[k := Some e]> t
  | (t', None) => t' = t /\ Forall is_Some t
  end.
Proof.
  unfold alloc. pose proof (alloc_from_spec t e 0) as H.
  destruct (alloc_from 0 t e) as [t' [k|]]; [|done]. by destruct H as (j & -> & H).
Qed.

(** Filling a free slot adds one binding. *)
Lemma abs_fill t k e : t !! k = Some None -> f_fd e ∉ live_fds t ->
  abs (<[k := Some e]> t) = <[f_fd e := e]> (abs t).
Proof.
  revert k. induction t as [|o t IH]; intros [|k] Hk Hf; try done.
  - cbn in Hk. injection Hk as ->. done.
  - cbn in Hk. change (<[S k := Some e]> (o :: t)) with (o :: <[k := Some e]> t). rewrite !abs_cons. rewrite live_cons in Hf. destruct o as [f|].
    + apply not_elem_of_cons in Hf as [Hne Hf]. rewrite (IH k Hk Hf). by rewrite insert_insert_ne.
    + by apply IH.
Qed.

Lemma live_fill t k e : t !! k = Some None -> live_fds (<[k := Some e]> t) ≡ₚ f_fd e :: live_fds t.
Proof.
  revert k. induction t as [|o t IH]; intros [|k] Hk; try done.
  - cbn in Hk. injection Hk as ->. done.
  - cbn in Hk. change (<[S k := Some e]> (o :: t)) with (o :: <[k := Some e]> t). rewrite !live_cons. destruct o; rewrite (IH k Hk); [|done].
    apply Permutation_swap.
Qed.

Lemma live_clear t k f : t !! k = Some (Some f) -> live_fds t ≡ₚ f_fd f :: live_fds (<[k := None]> t).
Proof.
  revert k. induction t as [|o t IH]; intros [|k] Hk; try done.
  - cbn in Hk. injection Hk as ->. done.
  - cbn in Hk. change (<[S k := None]> (o :: t)) with (o :: <[k := None]> t). rewrite !live_cons. destruct o; rewrite (IH k Hk) at 1; [|done].
    apply Permutation_swap.
Qed.

Lemma abs_clear t k f : table_ok t -> t !! k = Some (Some f) ->
  abs (<[k := None]> t) = delete (f_fd f) (abs t).
Proof.
  unfold table_ok. revert k. induction t as [|o t IH]; intros [|k] Hok Hk; try done.
  - cbn in Hk. injection Hk as ->. rewrite live_cons in Hok. inversion Hok as [|?? Hn Hok']; subst.
    cbn [insert list_insert]. rewrite !abs_cons, delete_insert_eq.
    by rewrite delete_id by by apply abs_fresh.
  - cbn in Hk. change (<[S k := None]> (o :: t)) with (o :: <[k := None]> t). rewrite !abs_cons. rewrite live_cons in Hok. destruct o as [g|]; [|by apply IH].
    inversion Hok as [|?? Hn Hok']; subst. rewrite (IH k Hok' Hk).
    rewrite delete_insert_ne; [done|]. intros E. apply Hn. rewrite <- E.
    rewrite (live_clear _ _ _ Hk). left.
Qed.

Lemma abs_lookup t i f : table_ok t -> t !! i = Some (Some f) -> abs t !! f_fd f = Some f.
Proof.
  unfold table_ok. revert i. induction t as [|o t IH]; intros [|i] Hok Hi; try done.
  - cbn in Hi. injection Hi as ->. by rewrite abs_cons, lookup_insert_eq.
  - cbn in Hi. rewrite abs_cons. rewrite live_cons in Hok. destruct o as [g|]; [|by eapply IH].
    inversion Hok as [|?? Hn Hok']; subst. rewrite lookup_insert_ne; [by eapply IH|].
    intros E. apply Hn. rewrite E, (live_clear _ _ _ Hi). left.
Qed.

(** ** Properties *)

(** Refinement: on a table without duplicate descriptors, [find] is lookup
    in the abstract map, [alloc] of a fresh descriptor takes the first free slot
    and adds the binding or, exactly when no slot is free, changes nothing, and
    [free] removes the binding; both keep the table free of duplicates. *)
Theorem fd_table_refines_map t :
  table_ok t ->
  (forall fd, abs t !! fd = match find t fd with Some k => mjoin (t !! k) | None => None end)
  /\ (forall e, f_fd e ∉ live_fds t ->
      match alloc t e with
      | (t', Some k) => abs t' = <[f_fd e := e]> (abs t) /\ table_ok t' /\ t !! k = Some None
          /\ length t' = length t
      | (t', None) => t' = t /\ Forall is_Some t
      end)
  /\ (forall fd, abs (fst (free t fd)) = delete fd (abs t) /\ table_ok (fst (free t fd))
      /\ snd (free t fd) = bool_decide (is_Some (abs t !! fd))).
Proof.
  intros Hok. split; [|split].
  - intros fd. pose proof (find_spec t fd Hok) as Hf. destruct (find t fd) as [k|]; [|done].
    by destruct Hf as (f & -> & _ & ->).
  - intros e He. pose proof (alloc_spec t e) as Ha. destruct (alloc t e) as [t' [k|]]; [|done].
    destruct Ha as (Hk & _ & ->). split; [by apply abs_fill|].
    split; [|split; [done|apply length_insert]].
    unfold table_ok. rewrite live_fill by done. by constructor.
  - intros fd. unfold free. pose proof (find_spec t fd Hok) as Hf. destruct (find t fd) as [k|]; cbn.
    + destruct Hf as (f & Hk & <- & Ha). split; [by apply abs_clear|].
      split; [|by rewrite Ha, bool_decide_eq_true_2 by by eexists].
      unfold table_ok in *. rewrite (live_clear _ _ _ Hk) in Hok. by inversion Hok.
    + split; [by rewrite delete_id|]. split; [done|].
      rewrite Hf, bool_decide_eq_false_2; [done|]. by intros [??].
Qed.

Lemma fd_table_refines_map_witness :
  let t := [Some (mkOpenFile 1000 0 4 0); None] in
  table_ok t /\ abs (fst (free t 1000)) = delete 1000 (abs t).
Proof.
  cbv zeta. assert (table_ok [Some (mkOpenFile 1000 0 4 0); None]) as Hok.
  { apply NoDup_singleton. }
  split; [exact Hok|]. apply (fd_table_refines_map _ Hok).
Defined.
