(* ===== verification/Cpio.v ===== *)
(** * The archive parser

    Models [src/src/cpio.rs]: the hexadecimal field parser and the lookup of a
    path in a newc archive, with every slice operation that could panic.  The
    encoder of the specification is the archive format itself. *)

From S2P Require Import Prelude TmpfsTree.

Definition hex_digit (b : Z) : Z :=
  if (48 <=? b) && (b <=? 57) then b - 48
  else if (97 <=? b) && (b <=? 102) then b - 97 + 10
  else if (65 <=? b) && (b <=? 70) then b - 65 + 10
  else 0.

Definition parse_hex (bytes : list Z) : Z :=
  foldl (fun val b => Z.lor (u64 (Z.shiftl val 4)) (hex_digit b)) 0 bytes.

(** [x & !3]. *)
Definition align4 (x : Z) : Z := Z.land x (Z.lnot 3).

Definition strip_lead (path : list Z) : list Z :=
  if starts_with path [SLASH] then drop 1 path
  else if starts_with path [DOT; SLASH] then drop 2 path
  else path.

Definition MAGIC : list Z := bstr "070701".
Definition TRAILER : list Z := bstr "TRAILER!!!".

(** The [?] operator on a checked operation: [None] returns from the function. *)
Definition try_ {A B} (o : option A) (k : A -> outcome (option B)) : outcome (option B) :=
  match o with Some a => k a | None => Ret None end.

(** The [loop]; running out of fuel (which [lookup] provides in excess) would
    be divergence, and is reported like a panic. *)
Fixpoint lookup_loop (fuel : nat) (data name : list Z) (offset : Z) : outcome (option (Z * Z)) :=
  match fuel with
  | O => Panic
  | S fuel' =>
      try_ (checked_add offset 110) (fun hdr_end =>
      if hdr_end >? len data then Ret None else
      magic ← slice data offset (offset + 6);
      if negb (bool_decide (magic = MAGIC)) then Ret None else
      fs ← slice data (offset + 54) (offset + 62);
      let filesize := parse_hex fs in
      ns ← slice data (offset + 94) (offset + 102);
      let namesize := parse_hex ns in
      if namesize =? 0 then Ret None else
      let name_start := offset + 110 in
      try_ (checked_add name_start namesize) (fun name_end1 =>
      let name_end := name_end1 - 1 in
      try_ (checked_add name_end1 3) (fun x =>
      let data_start := align4 x in
      try_ (checked_add data_start filesize) (fun data_end =>
      if (name_end >? len data) || (data_end >? len data) then Ret None else
      entry_name ← slice data name_start name_end;
      if bool_decide (entry_name = TRAILER) then Ret None
      else if bool_decide (entry_name = name) then Ret (Some (data_start, filesize))
      else try_ (checked_add data_end 3) (fun y => lookup_loop fuel' data name (align4 y))))))
  end.

(** Entries are at least 110 bytes, so [data.len() + 1] iterations suffice. *)
Definition lookup (data path : list Z) : outcome (option (Z * Z)) :=
  lookup_loop (S (length data)) data (strip_lead path) 0.

(** ** The archive format *)

(** One hexadecimal digit, in upper or lower case. *)
Definition hex_char (upper : bool) (d : Z) : Z :=
  if d <? 10 then 48 + d else if upper then 55 + d else 87 + d.
(** [upper i] is the case of the [i]-th digit. *)
Fixpoint hex_enc (upper : nat -> bool) (n : nat) (x : Z) : list Z :=
  match n with
  | O => []
  | S n' => hex_enc upper n' (x / 16) ++ [hex_char (upper n') (x mod 16)]
  end.

Definition pad4 (n : Z) : list Z := replicate (Z.to_nat (align4 (n + 3) - n)) 0.

(** A member: name, contents, the header fields the parser ignores (six
    before the size, four after it, one after the name size), and the case of
    the digits of the two sizes. *)
Record member := mkMember {
  m_name : list Z;
  m_data : list Z;
  m_pre : list Z;
  m_mid : list Z;
  m_post : list Z;
  m_size_case : nat -> bool;
  m_namesize_case : nat -> bool;
}.

(** The header with the name and its padding to a multiple of four. *)
Definition encode_head (m : member) : list Z :=
  let h := MAGIC ++ m_pre m ++ hex_enc (m_size_case m) 8 (len (m_data m)) ++ m_mid m
           ++ hex_enc (m_namesize_case m) 8 (len (m_name m) + 1) ++ m_post m ++ m_name m ++ [0] in
  h ++ pad4 (len h).
Definition encode (m : member) : list Z :=
  encode_head m ++ m_data m ++ pad4 (len (m_data m)).
Definition trailer : member :=
  mkMember TRAILER [] (replicate 48 48) (replicate 32 48) (replicate 8 48) (fun _ => false) (fun _ => false).
(** The members, a trailer, and what follows it (padding, in practice). *)
Definition image (ms : list member) (t : member) (rest : list Z) : list Z :=
  concat (map encode ms) ++ encode t ++ rest.
Definition archive (ms : list member) : list Z := concat (map encode ms) ++ encode trailer.

(** Fields of the sizes the format gives them. *)
Definition member_ok (m : member) : Prop :=
  len (m_pre m) = 48 /\ len (m_mid m) = 32 /\ len (m_post m) = 8
  /\ len (m_data m) < 2 ^ 32 /\ len (m_name m) + 1 < 2 ^ 32.

(** ** Lemmas *)
Lemma align4_spec x : align4 x = x / 4 * 4.
Proof.
  unfold align4. change 3 with (Z.ones 2). rewrite <- Z.ldiff_land, Z.ldiff_ones_r by lia.
  by rewrite Z.shiftl_mul_pow2, Z.shiftr_div_pow2 by lia.
Qed.

Lemma hex_digit_range b : 0 <= hex_digit b < 16.
Proof. unfold hex_digit. repeat case_match; zb; lia. Qed.

Lemma lor_shift4 v d : 0 <= v -> 0 <= d < 16 -> Z.lor (Z.shiftl v 4) d = 16 * v + d.
Proof.
  intros Hv Hd. rewrite Z.shiftl_mul_pow2 by lia.
  pose proof (Z.add_lor_land (v * 2 ^ 4) d) as Hs.
  assert (Z.land (v * 2 ^ 4) d = 0) as E; [|lia].
  apply Z.bits_inj'. intros i Hi. rewrite Z.land_spec, Z.bits_0.
  destruct (Z.ltb_spec i 4).
  - by rewrite Z.mul_pow2_bits_low.
  - rewrite <- (Z.mod_small d (2 ^ 4)) by lia.
    by rewrite Z.mod_pow2_bits_high, andb_false_r by lia.
Qed.

(** Fields of at most 15 digits do not overflow. *)
Lemma parse_hex_fold bytes v k :
  0 <= v < 16 ^ k -> 0 <= k -> k + len bytes <= 16 ->
  let r := foldl (fun val b => Z.lor (u64 (Z.shiftl val 4)) (hex_digit b)) v bytes in
  0 <= r < 16 ^ (k + len bytes)
  /\ r = foldl (fun val b => 16 * val + hex_digit b) v bytes.
Proof.
  revert v k. induction bytes as [|b bytes IH]; intros v k Hv Hk Hl; cbn [foldl].
  - change (len (@nil Z)) with 0. rewrite Z.add_0_r. done.
  - rewrite len_cons in Hl. pose proof (len_nonneg bytes). pose proof (hex_digit_range b).
    assert (16 ^ (k + 1) <= 16 ^ 16) by (apply Z.pow_le_mono_r; lia).
    assert (16 ^ (k + 1) = 16 * 16 ^ k) by (rewrite Z.pow_add_r by lia; lia).
    rewrite u64_small by (rewrite Z.shiftl_mul_pow2 by lia; lia).
    rewrite lor_shift4 by lia.
    replace (k + len (b :: bytes)) with ((k + 1) + len bytes) by (rewrite len_cons; lia).
    apply IH; lia.
Qed.

Lemma parse_hex_spec bytes : len bytes <= 16 ->
  0 <= parse_hex bytes < 16 ^ len bytes
  /\ parse_hex bytes = foldl (fun val b => 16 * val + hex_digit b) 0 bytes.
Proof. intros Hl. apply (parse_hex_fold bytes 0 0); lia. Qed.

Lemma hex_digit_char up d : 0 <= d < 16 -> hex_digit (hex_char up d) = d.
Proof. intros. unfold hex_digit, hex_char. repeat case_match; zb; lia. Qed.

Lemma hex_enc_len up n x : len (hex_enc up n x) = Z.of_nat n.
Proof.
  revert x. induction n as [|n IH]; intros x; cbn [hex_enc]; [done|].
  rewrite len_app, IH. change (len [_]) with 1. lia.
Qed.

Lemma parse_hex_enc up n x : (n <= 16)%nat -> 0 <= x < 16 ^ Z.of_nat n -> parse_hex (hex_enc up n x) = x.
Proof.
  intros Hn Hx. assert (len (hex_enc up n x) <= 16) as Hl by (rewrite hex_enc_len; lia).
  rewrite (proj2 (parse_hex_spec _ Hl)). clear Hn Hl. revert x Hx. induction n as [|n IH]; intros x Hx; cbn [hex_enc].
  - cbn in *. lia.
  - rewrite Nat2Z.inj_succ, Z.pow_succ_r in Hx by lia.
    rewrite foldl_app. cbn [foldl]. rewrite hex_digit_char by (apply Z.mod_pos_bound; lia).
    rewrite IH by (Z.div_mod_to_equations; lia). Z.div_mod_to_equations. lia.
Qed.

(** One iteration that neither fails nor finds the name. *)
Lemma slice_total {A} (l : list A) a b : 0 <= a <= b -> b <= len l -> exists s, slice l a b = Ret s /\ len s = b - a.
Proof.
  intros. rewrite slice_ok by lia. eexists. split; [done|]. rewrite len_take, len_drop by lia. lia.
Qed.

Lemma checked_add_small a b : a + b < 2 ^ 64 -> checked_add a b = Some (a + b).
Proof. intros. unfold checked_add. by rewrite (proj2 (Z.ltb_lt _ _)). Qed.

Lemma align4_bounds x : align4 x <= x < align4 x + 4.
Proof. rewrite align4_spec. Z.div_mod_to_equations. lia. Qed.

(** Whatever the bytes, the parser returns, and what it returns is in range. *)
Lemma lookup_loop_safe fuel data name offset :
  len data < 2 ^ 63 -> 0 <= offset -> offset <= len data + 3 ->
  len data - offset < Z.of_nat fuel -> (0 < fuel)%nat ->
  exists r, lookup_loop fuel data name offset = Ret r
    /\ forall off l, r = Some (off, l) -> 0 <= off /\ 0 <= l /\ off + l <= len data.
Proof.
  intros Hd. revert offset. induction fuel as [|fuel IH]; intros offset Ho Ho' Hf Hf0; [lia|].
  cbn [lookup_loop]. rewrite checked_add_small by lia. cbn [try_].
  rewrite Z.gtb_ltb. destruct (Z.ltb_spec (len data) (offset + 110)); [by exists None|].
  destruct (slice_total data offset (offset + 6)) as (mg & -> & _); [lia..|]. cbn [mbind outcome_bind].
  case_match; [by exists None|].
  destruct (slice_total data (offset + 54) (offset + 62)) as (fb & -> & Lf); [lia..|].
  destruct (slice_total data (offset + 94) (offset + 102)) as (nb & -> & Ln); [lia..|].
  cbn [mbind outcome_bind].
  assert (0 <= parse_hex fb < 2 ^ 32) as Hfs.
  { destruct (parse_hex_spec fb) as [Hr _]; [lia|]. replace (len fb) with 8 in Hr by lia. lia. }
  assert (0 <= parse_hex nb < 2 ^ 32) as Hns.
  { destruct (parse_hex_spec nb) as [Hr _]; [lia|]. replace (len nb) with 8 in Hr by lia. lia. }
  set (fsz := parse_hex fb) in *. set (nsz := parse_hex nb) in *. clearbody fsz nsz.
  destruct (Z.eqb_spec nsz 0); [by exists None|].
  rewrite (checked_add_small (offset + 110)) by lia. cbn [try_].
  rewrite (checked_add_small _ 3) by lia. cbn [try_].
  pose proof (align4_bounds (offset + 110 + nsz + 3)) as Ha.
  set (ds := align4 (offset + 110 + nsz + 3)) in *. clearbody ds.
  rewrite (checked_add_small ds) by lia. cbn [try_].
  destruct (_ || _) eqn:Eb; [by exists None|].
  apply orb_false_iff in Eb as [Eb1 Eb2]. rewrite Z.gtb_ltb in Eb1, Eb2. zb.
  destruct (slice_total data (offset + 110) (offset + 110 + nsz - 1)) as (nm & -> & _); [lia..|].
  cbn [mbind outcome_bind]. case_match; [by exists None|]. case_match.
  { exists (Some (ds, fsz)). split; [done|]. intros off l [= <- <-]. lia. }
  rewrite (checked_add_small _ 3) by lia. cbn [try_].
  pose proof (align4_bounds (ds + fsz + 3)). apply IH; lia.
Qed.

(** *** Reading back an encoded member *)
Lemma slice_app {A} (p s q : list A) a b :
  a = len p -> b = a + len s -> slice (p ++ s ++ q) a b = Ret s.
Proof.
  intros -> ->. pose proof (len_nonneg p). pose proof (len_nonneg s). pose proof (len_nonneg q).
  rewrite slice_ok by (rewrite ?len_app; lia). f_equal.
  unfold len. rewrite Nat2Z.id, drop_app_length.
  replace (Z.to_nat (_ - _)) with (length s) by lia. apply take_app_length.
Qed.

Lemma len_replicate {A} (x : A) n : 0 <= n -> len (replicate (Z.to_nat n) x) = n.
Proof. intros. unfold len. rewrite length_replicate. lia. Qed.

Lemma pad4_len n : len (pad4 n) = align4 (n + 3) - n.
Proof.
  unfold pad4. rewrite len_replicate; [done|]. pose proof (align4_bounds (n + 3)). lia.
Qed.

Lemma head_len m : member_ok m -> len (encode_head m) = align4 (110 + len (m_name m) + 1 + 3).
Proof.
  intros (H1 & H2 & H3 & _). unfold encode_head. cbv zeta. rewrite len_app, pad4_len.
  rewrite !len_app, !hex_enc_len, H1, H2, H3. change (len MAGIC) with 6. change (len [0]) with 1.
  replace (6 + (48 + (Z.of_nat 8 + (32 + (Z.of_nat 8 + (8 + (len (m_name m) + 1)))))))
    with (110 + len (m_name m) + 1) by lia. lia.
Qed.

Lemma align4_add x y : x mod 4 = 0 -> align4 (x + y) = x + align4 y.
Proof. intros. rewrite !align4_spec. Z.div_mod_to_equations. lia. Qed.

Lemma align4_mod x : align4 x mod 4 = 0.
Proof. rewrite align4_spec. apply Z.mod_mul. lia. Qed.

(** The fields the parser reads, at an offset where a member starts. *)
Lemma member_fields pre m rest :
  member_ok m ->
  let data := pre ++ encode m ++ rest in let o := len pre in
  slice data o (o + 6) = Ret MAGIC
  /\ slice data (o + 54) (o + 62) = Ret (hex_enc (m_size_case m) 8 (len (m_data m)))
  /\ slice data (o + 94) (o + 102) = Ret (hex_enc (m_namesize_case m) 8 (len (m_name m) + 1))
  /\ slice data (o + 110) (o + 110 + (len (m_name m) + 1) - 1) = Ret (m_name m)
  /\ slice data (o + len (encode_head m)) (o + len (encode_head m) + len (m_data m)) = Ret (m_data m).
Proof.
  intros (H1 & H2 & H3 & H4 & H5). cbv zeta. unfold encode.
  set (hd := encode_head m). set (tl := pad4 (len (m_data m)) ++ rest).
  replace (pre ++ (hd ++ m_data m ++ pad4 (len (m_data m))) ++ rest)
    with (pre ++ hd ++ m_data m ++ tl) by (subst tl; by rewrite <- !app_assoc).
  split; [|split; [|split; [|split]]].
  5:{ rewrite app_assoc. apply slice_app; [by rewrite len_app|done]. }
  all: subst hd; unfold encode_head; cbv zeta; rewrite <- !app_assoc.
  - apply slice_app; done.
  - rewrite (app_assoc pre), (app_assoc _ (m_pre m)). apply slice_app.
    + rewrite !len_app, H1. change (len MAGIC) with 6. lia.
    + rewrite hex_enc_len. lia.
  - rewrite (app_assoc pre), (app_assoc _ (m_pre m)), (app_assoc _ (hex_enc (m_size_case m) 8 (len (m_data m)))),
      (app_assoc _ (m_mid m)). apply slice_app.
    + rewrite !len_app, H1, H2, hex_enc_len. change (len MAGIC) with 6. lia.
    + rewrite hex_enc_len. lia.
  - rewrite (app_assoc pre), (app_assoc _ (m_pre m)), (app_assoc _ (hex_enc (m_size_case m) 8 (len (m_data m)))),
      (app_assoc _ (m_mid m)), (app_assoc _ (hex_enc (m_namesize_case m) 8 (len (m_name m) + 1))), (app_assoc _ (m_post m)).
    apply slice_app.
    + rewrite !len_app, H1, H2, H3, !hex_enc_len. change (len MAGIC) with 6. lia.
    + lia.
Qed.

Lemma encode_len m : len (encode m) = len (encode_head m) + align4 (len (m_data m) + 3).
Proof. unfold encode. rewrite !len_app, pad4_len. lia. Qed.

Lemma head_len_mod m : member_ok m -> len (encode_head m) mod 4 = 0.
Proof. intros Hm. rewrite head_len by done. apply align4_mod. Qed.

Lemma encode_len_mod m : member_ok m -> len (encode m) mod 4 = 0.
Proof.
  intros Hm. rewrite encode_len. pose proof (head_len_mod m Hm).
  pose proof (align4_mod (len (m_data m) + 3)). Z.div_mod_to_equations. lia.
Qed.

(** One iteration on an encoded member. *)
Lemma lookup_member fuel pre m rest name :
  member_ok m -> len pre mod 4 = 0 -> len (pre ++ encode m ++ rest) < 2 ^ 63 ->
  lookup_loop (S fuel) (pre ++ encode m ++ rest) name (len pre) =
    if bool_decide (m_name m = TRAILER) then Ret None
    else if bool_decide (m_name m = name)
    then Ret (Some (len pre + len (encode_head m), len (m_data m)))
    else lookup_loop fuel (pre ++ encode m ++ rest) name (len (pre ++ encode m)).
Proof.
  intros Hm Hp Hl. pose proof (member_fields pre m rest Hm) as (F1 & F2 & F3 & F4 & _).
  pose proof Hm as (_ & _ & _ & Hds & Hns). pose proof (head_len m Hm) as Hh.
  pose proof (encode_len m) as Hel.
  pose proof (len_nonneg pre). pose proof (len_nonneg (m_name m)). pose proof (len_nonneg (m_data m)).
  pose proof (len_nonneg rest). pose proof (align4_bounds (110 + len (m_name m) + 1 + 3)).
  pose proof (align4_bounds (len (m_data m) + 3)).
  assert (len (pre ++ encode m ++ rest) = len pre + len (encode m) + len rest) as Ht
    by (rewrite !len_app; lia).
  cbn [lookup_loop]. rewrite checked_add_small by lia. cbn [try_].
  rewrite Z.gtb_ltb, (proj2 (Z.ltb_ge _ _)) by lia.
  rewrite F1. cbn [mbind outcome_bind]. rewrite bool_decide_eq_true_2 by done. cbn [negb].
  rewrite F2, F3. cbn [mbind outcome_bind].
  rewrite !parse_hex_enc by (change (16 ^ Z.of_nat 8) with (2 ^ 32); lia).
  rewrite (proj2 (Z.eqb_neq (len (m_name m) + 1) 0)) by lia.
  rewrite (checked_add_small (len pre + 110)) by lia. cbn [try_].
  rewrite (checked_add_small _ 3) by lia. cbn [try_].
  replace (align4 (len pre + 110 + (len (m_name m) + 1) + 3)) with (len pre + len (encode_head m)).
  2:{ rewrite Hh. replace (len pre + 110 + (len (m_name m) + 1) + 3)
      with (len pre + (110 + len (m_name m) + 1 + 3)) by lia. by rewrite (align4_add (len pre)). }
  rewrite (checked_add_small _ (len (m_data m))) by lia. cbn [try_].
  rewrite !Z.gtb_ltb, (proj2 (orb_false_iff _ _)) by (split; apply Z.ltb_ge; lia).
  rewrite F4. cbn [mbind outcome_bind]. case_match; [done|]. case_match; [done|].
  rewrite (checked_add_small _ 3) by lia. cbn [try_]. f_equal.
  rewrite len_app, Hel.
  replace (len pre + len (encode_head m) + len (m_data m) + 3)
    with ((len pre + len (encode_head m)) + (len (m_data m) + 3)) by lia.
  rewrite (align4_add (len pre + _)); [lia|]. pose proof (head_len_mod m Hm). Z.div_mod_to_equations. lia.
Qed.

Lemma trailer_ok : member_ok trailer.
Proof. by vm_compute. Qed.

(** The members up to the one named [name], and that member. *)
Fixpoint split_at_name (name : list Z) (ms : list member) : option (list member * member) :=
  match ms with
  | [] => None
  | m :: ms' =>
      if bool_decide (m_name m = name) then Some ([], m)
      else match split_at_name name ms' with
           | Some (p, x) => Some (m :: p, x)
           | None => None
           end
  end.

Lemma lookup_image ms t rest name : forall fuel pre,
  Forall (fun m => member_ok m /\ m_name m <> TRAILER) ms -> member_ok t -> m_name t = TRAILER ->
  len pre mod 4 = 0 -> len (pre ++ image ms t rest) < 2 ^ 63 -> (length ms < fuel)%nat ->
  lookup_loop fuel (pre ++ image ms t rest) name (len pre) =
    match split_at_name name ms with
    | Some (p, m) => Ret (Some (len (pre ++ concat (map encode p)) + len (encode_head m), len (m_data m)))
    | None => Ret None
    end.
Proof.
  unfold image. induction ms as [|m ms IH]; intros fuel pre Hok Hto Htn Hp Hl Hf;
    (destruct fuel as [|fuel]; [cbn in Hf; lia|]); cbn [map concat] in *.
  - rewrite app_nil_l in *. rewrite lookup_member by done. by rewrite Htn.
  - inversion Hok as [|?? [Hm Ht] Hok']; subst.
    rewrite <- app_assoc in *. rewrite lookup_member by done.
    rewrite (bool_decide_eq_false_2 (m_name m = TRAILER)) by done. cbn [split_at_name].
    destruct (bool_decide (m_name m = name)); [cbn [map concat]; by rewrite app_nil_r|].
    rewrite (app_assoc pre (encode m)) in *.
    rewrite IH; [|done|done|done| |done|cbn in Hf; lia].
    + destruct (split_at_name name ms) as [[p x]|]; [|done]. cbn [map concat]. by rewrite app_assoc.
    + rewrite len_app. pose proof (encode_len_mod m Hm). Z.div_mod_to_equations. lia.
Qed.

Lemma archive_image ms : archive ms = image ms trailer [].
Proof. unfold archive, image. by rewrite app_nil_r. Qed.

Lemma lookup_archive ms name fuel pre :
  Forall (fun m => member_ok m /\ m_name m <> TRAILER) ms -> len pre mod 4 = 0 ->
  len (pre ++ archive ms) < 2 ^ 63 -> (length ms < fuel)%nat ->
  lookup_loop fuel (pre ++ archive ms) name (len pre) =
    match split_at_name name ms with
    | Some (p, m) => Ret (Some (len (pre ++ concat (map encode p)) + len (encode_head m), len (m_data m)))
    | None => Ret None
    end.
Proof. rewrite archive_image. intros. apply lookup_image; auto using trailer_ok. Qed.

Lemma split_at_name_spec name ms p m :
  split_at_name name ms = Some (p, m) ->
  m_name m = name /\ Forall (fun x => m_name x <> name) p /\ exists q, ms = p ++ m :: q.
Proof.
  revert p. induction ms as [|x ms IH]; intros p; cbn [split_at_name]; [done|].
  case_match; zb.
  - intros [= <- <-]. split; [done|]. split; [constructor|]. by exists ms.
  - destruct (split_at_name name ms) as [[p' y]|]; [|done]. intros [= <- <-].
    destruct (IH p' eq_refl) as (? & ? & q & ->). split; [done|]. split; [by constructor|].
    by exists q.
Qed.

Lemma image_len ms t rest : (length ms <= length (image ms t rest))%nat.
Proof.
  unfold image. rewrite length_app.
  assert (length ms <= length (concat (map encode ms)))%nat; [|lia].
  induction ms as [|m ms IH]; [done|]. cbn [map concat length]. rewrite length_app.
  assert (1 <= length (encode m))%nat; [|lia]. unfold encode, encode_head. by cbn; lia.
Qed.

Lemma archive_len ms : (length ms <= length (archive ms))%nat.
Proof. rewrite archive_image. apply image_len. Qed.

(** ** Properties *)

(** Robustness: on any byte string shorter than 2^63, however malformed,
    and any path, the lookup terminates without panicking, and an offset and
    length it returns delimit a region inside the archive. *)
Theorem cpio_lookup_safe data path :
  len data < 2 ^ 63 ->
  exists r, lookup data path = Ret r
    /\ forall off l, r = Some (off, l) -> 0 <= off /\ 0 <= l /\ off + l <= len data.
Proof.
  intros Hd. unfold lookup. pose proof (len_nonneg data).
  apply lookup_loop_safe; unfold len in *; lia.
Qed.

(** C14.  Round trip: in an image made of well-formed members (sizes in
    hexadecimal digits of either case, digit by digit), a trailer, and any
    bytes after it, looking up a path returns the region holding exactly the
    contents of the first member of that name, and nothing when there is
    none. *)
Theorem cpio_lookup_roundtrip ms t rest path :
  Forall (fun m => member_ok m /\ m_name m <> TRAILER) ms -> member_ok t -> m_name t = TRAILER ->
  len (image ms t rest) < 2 ^ 63 ->
  match split_at_name (strip_lead path) ms with
  | Some (_, m) => m_name m = strip_lead path /\ exists off,
      lookup (image ms t rest) path = Ret (Some (off, len (m_data m)))
      /\ slice (image ms t rest) off (off + len (m_data m)) = Ret (m_data m)
  | None => lookup (image ms t rest) path = Ret None
  end.
Proof.
  intros Hok Hto Htn Hl. unfold lookup. pose proof (image_len ms t rest).
  pose proof (lookup_image ms t rest (strip_lead path) (S (length (image ms t rest))) []) as HL.
  rewrite app_nil_l in HL. change (len (@nil Z)) with 0 in HL. rewrite HL by (done || lia).
  destruct (split_at_name (strip_lead path) ms) as [[p m]|] eqn:Es; [|done].
  apply split_at_name_spec in Es as (Hn & _ & q & ->). split; [done|].
  eexists. split; [done|]. rewrite app_nil_l. unfold image.
  rewrite map_app, concat_app. cbn [map concat]. rewrite <- !app_assoc.
  apply Forall_app in Hok as [_ Hok]. inversion Hok as [|?? [Hm _] _]; subst.
  apply (member_fields (concat (map encode p)) m (concat (map encode q) ++ encode t ++ rest) Hm).
Qed.

Definition demo_member : member :=
  mkMember (bstr "bin/start.boot") [1; 2; 3] (replicate 48 48) (replicate 32 48) (replicate 8 48)
    (fun _ => false) (fun _ => false).
(** Sizes 27 and 10, written 0000001B and 0000000a; padding after the trailer. *)
Definition upper_member : member :=
  mkMember (bstr "lib/a.app") (replicate 27 7) (replicate 48 48) (replicate 32 48) (replicate 8 48)
    (fun _ => true) (fun _ => false).

Lemma cpio_lookup_safe_witness :
  exists r, lookup (take 200 (archive [demo_member])) (bstr "/x") = Ret r
    /\ forall off l, r = Some (off, l) ->
       0 <= off /\ 0 <= l /\ off + l <= len (take 200 (archive [demo_member])).
Proof. apply (cpio_lookup_safe (take 200 (archive [demo_member]))). by vm_compute. Defined.

Lemma cpio_lookup_roundtrip_witness :
  exists off, lookup (image [upper_member; demo_member] trailer [0; 0]) (bstr "/bin/start.boot") = Ret (Some (off, 3))
    /\ slice (image [upper_member; demo_member] trailer [0; 0]) off (off + 3) = Ret [1; 2; 3].
Proof.
  pose proof (cpio_lookup_roundtrip [upper_member; demo_member] trailer [0; 0] (bstr "/bin/start.boot")) as W.
  apply W; [|apply trailer_ok|reflexivity|by vm_compute]. repeat (constructor; [by vm_compute|]). constructor.
Defined.
