(* ===== verification/Vfs.v ===== *)
(** * The read-only archive filesystem

    Models [src/src/vfs.rs]: open files over the embedded archive, directory
    handles, and the archive scans behind directory listing.  The archive bytes
    ([cpio_data()]) are a parameter of the operations. *)

From S2P Require Import Prelude TmpfsTree Paging PagingRefine Confinement Uaccess FdTable Cpio.

Definition MAX_OPEN : Z := 256.
Definition MAX_DIRS : Z := 8.
Definition DIR_FD_BASE : Z := 900.

(** A directory handle; [d_prefix] is [prefix[..prefix_len]]. *)
Record DirSlot := mkDirSlot { d_fd : Z; d_prefix : list Z; d_done : bool }.

(** [OPEN_FILES], [NEXT_VFS_FD] and [DIR_SLOTS]. *)
Record vstate := mkVstate {
  files : list (option OpenFile);
  next_vfs_fd : Z;
  dirs : list DirSlot;
}.

Definition vfs_boot : vstate :=
  mkVstate (replicate 256 None) 1000 (replicate 8 (mkDirSlot (-1) [] false)).

Definition set_files (t : list (option OpenFile)) (st : vstate) : vstate :=
  mkVstate t (next_vfs_fd st) (dirs st).
Definition set_dirs (ds : list DirSlot) (st : vstate) : vstate :=
  mkVstate (files st) (next_vfs_fd st) ds.

(** [fd_table::find] followed by [files[i].as_ref().unwrap()]. *)
Definition get_file (st : vstate) (fd : Z) : option (nat * outcome OpenFile) :=
  match find (files st) fd with
  | None => None
  | Some i => Some (i, match files st !! i with Some (Some f) => Ret f | _ => Panic end)
  end.
Definition put_file (i : nat) (f : OpenFile) (st : vstate) : vstate :=
  set_files (<[i := Some f]> (files st)) st.
Definition with_pos (f : OpenFile) (p : Z) : OpenFile :=
  mkOpenFile (f_fd f) (f_data_offset f) (f_data_len f) p.

(** Take a descriptor number and a slot for an entry. *)
Definition install (off l pos : Z) (st : vstate) : vstate * Z :=
  let fd := i32 (next_vfs_fd st) in
  let st := mkVstate (files st) (next_vfs_fd st ⊞ 1) (dirs st) in
  let '(t, r) := alloc (files st) (mkOpenFile fd off l pos) in
  match r with
  | Some _ => (set_files t st, fd)
  | None => (set_files t st, - EMFILE)
  end.

Definition open (cpio path : list Z) (st : vstate) : outcome (vstate * Z) :=
  r ← lookup cpio path;
  match r with
  | Some (off, l) => Ret (install off l 0 st)
  | None => Ret (st, - ENOENT)
  end.

Definition dup (oldfd : Z) (st : vstate) : outcome (vstate * Z) :=
  match get_file st oldfd with
  | None => Ret (st, - EBADF)
  | Some (_, f) => f ← f; Ret (install (f_data_offset f) (f_data_len f) (f_pos f) st)
  end.

Definition fstat_size (fd : Z) (st : vstate) : outcome (option Z) :=
  match get_file st fd with
  | None => Ret None
  | Some (_, f) => f ← f; Ret (Some (f_data_len f))
  end.

Definition i64_saturating_add (a b : Z) : Z := Z.max (- 2 ^ 63) (Z.min (2 ^ 63 - 1) (a + b)).

Definition lseek (fd offset whence : Z) (st : vstate) : outcome (vstate * Z) :=
  match get_file st fd with
  | None => Ret (st, - EBADF)
  | Some (i, f) =>
      f ← f;
      let seek np :=
        let p := Z.min np (f_data_len f) in Ret (put_file i (with_pos f p) st, i64 p) in
      if whence =? 0 then seek (Z.max offset 0)
      else if whence =? 1 then seek (Z.max (i64_saturating_add (i64 (f_pos f)) offset) 0)
      else if whence =? 2 then seek (Z.max (i64_saturating_add (i64 (f_data_len f)) offset) 0)
      else Ret (st, - EINVAL)
  end.

Definition close (fd : Z) (st : vstate) : vstate * Z := (set_files (fst (free (files st) fd)) st, 0).

Definition is_vfs_fd (fd : Z) (st : vstate) : bool :=
  match find (files st) fd with Some _ => true | None => false end.

(** ** Archive scans *)

(** One entry of a scan: its name and the offset of the next entry; [None]
    ends the scan.  The arithmetic is unchecked and wraps. *)
Definition entry_at (data : list Z) (offset : Z) : outcome (option (list Z * Z)) :=
  magic ← slice data offset (offset + 6);
  if negb (bool_decide (magic = MAGIC)) then Ret None else
  fs ← slice data (offset + 54) (offset + 62);
  let filesize := parse_hex fs in
  ns ← slice data (offset + 94) (offset + 102);
  let namesize := parse_hex ns in
  let name_start := offset + 110 in
  let name_end := name_start ⊞ namesize ⊟ 1 in
  if name_end >? len data then Ret None else
  name ← slice data name_start name_end;
  if bool_decide (name = TRAILER) then Ret None else
  let data_start := align4 (name_start ⊞ namesize ⊞ 3) in
  let data_end := data_start ⊞ filesize in
  Ret (Some (name, align4 (data_end ⊞ 3))).

(** The file count logged by [init]. *)
Fixpoint count_loop (fuel : nat) (data : list Z) (offset count : Z) : outcome Z :=
  match fuel with
  | O => Panic
  | S fuel' =>
      if offset + 110 <=? len data then
        e ← entry_at data offset;
        match e with
        | None => Ret count
        | Some (_, next) => count_loop fuel' data next (count + 1)
        end
      else Ret count
  end.
Definition init (data : list Z) : outcome Z := count_loop (S (length data)) data 0 0.

Fixpoint dir_prefix_loop (fuel : nat) (data prefix : list Z) (offset : Z) : outcome bool :=
  match fuel with
  | O => Panic
  | S fuel' =>
      if offset + 110 <? len data then
        e ← entry_at data offset;
        match e with
        | None => Ret false
        | Some (name, next) =>
            if (len name >=? len prefix) && bool_decide (take (length prefix) name = prefix)
            then Ret true else dir_prefix_loop fuel' data prefix next
        end
      else Ret false
  end.

Definition is_dir_prefix (data path : list Z) : outcome bool :=
  let p := if starts_with path [SLASH] then tail path else path in
  if len p >=? 127 then Ret false else
  let prefix := if bool_decide (last p = Some SLASH) then p else p ++ [SLASH] in
  dir_prefix_loop (S (length data)) data prefix 0.

(** ** Directory handles *)

Fixpoint open_dir_from (i : nat) (p : list Z) (ds : list DirSlot) : list DirSlot * Z :=
  match ds with
  | [] => ([], - EMFILE)
  | d :: ds' =>
      if d_fd d =? -1 then
        let fd := DIR_FD_BASE + Z.of_nat i in
        (mkDirSlot fd (take 127 p) false :: ds', fd)
      else let '(ds'', r) := open_dir_from (S i) p ds' in (d :: ds'', r)
  end.
Definition open_dir (path : list Z) (st : vstate) : vstate * Z :=
  let p := if starts_with path [SLASH] then tail path else path in
  let '(ds, r) := open_dir_from 0 p (dirs st) in (set_dirs ds st, r).

Fixpoint close_dir_from (fd : Z) (ds : list DirSlot) : list DirSlot * bool :=
  match ds with
  | [] => ([], false)
  | d :: ds' =>
      if d_fd d =? fd then (mkDirSlot (-1) [] false :: ds', true)
      else let '(ds'', r) := close_dir_from fd ds' in (d :: ds'', r)
  end.
Definition close_dir (fd : Z) (st : vstate) : vstate * bool :=
  let '(ds, r) := close_dir_from fd (dirs st) in (set_dirs ds st, r).

Definition is_dir_fd (fd : Z) (st : vstate) : bool := existsb (fun d => d_fd d =? fd) (dirs st).

(** [rest.iter().position(|b| b == '/').unwrap_or(rest.len())], as the cut. *)
Fixpoint first_component (rest : list Z) : list Z :=
  match rest with
  | [] => []
  | c :: rest' => if c =? SLASH then [] else c :: first_component rest'
  end.

(** A row of [seen]: 64 bytes, zero padded. *)
Definition seen_row (child : list Z) : list Z := resize 64 0 child.
Definition seen_match (child row : list Z) : bool :=
  bool_decide (take (length child) row = child) && bool_decide (row !! length child = Some 0).

Definition vfs_reclen (child : list Z) : Z := Z.land (19 + (len child + 1) + 7) (Z.lnot 7).
Definition vfs_dirent (ino off : Z) (child : list Z) (dtype : Z) : list Z :=
  let reclen := vfs_reclen child in
  le_bytes 8 ino ++ le_bytes 8 off ++ le_bytes 2 reclen ++ [dtype]
  ++ resize (Z.to_nat (reclen - 19)) 0 child.

Section Mem.
Context {M : Type} `{UserMem M}.

Definition read (cpio : list Z) (fd buf count : Z) (st : vstate) (m : M)
    : outcome (vstate * M * Z) :=
  match get_file st fd with
  | None => Ret (st, m, - EBADF)
  | Some (i, f) =>
      f ← f;
      let remaining := f_data_len f ⊟ f_pos f in
      if remaining =? 0 then Ret (st, m, 0) else
      let to_read := Z.min count remaining in
      src ← slice cpio (f_data_offset f ⊞ f_pos f) (len cpio);
      bs ← slice src 0 to_read;
      match um_out m buf bs with
      | None => Ret (st, m, - EFAULT)
      | Some m' => Ret (put_file i (with_pos f (f_pos f ⊞ to_read)) st, m', to_read)
      end
  end.

(** The copy goes through the raw pointer. *)
Definition pread (cpio : list Z) (fd buf count offset : Z) (st : vstate) (m : M)
    : outcome (M * Z) :=
  match get_file st fd with
  | None => Ret (m, - EBADF)
  | Some (i, f) =>
      f ← f;
      if offset >=? f_data_len f then Ret (m, 0) else
      let remaining := f_data_len f ⊟ offset in
      let to_read := Z.min count remaining in
      src ← slice cpio (f_data_offset f ⊞ offset) (len cpio);
      m' ← um_raw m buf (take (Z.to_nat to_read) src);
      Ret (m', to_read)
  end.

Fixpoint fill_loop (fuel : nat) (data prefix : list Z) (buf count offset written : Z)
    (seen : list (list Z)) (m : M) : outcome (M * Z) :=
  match fuel with
  | O => Panic
  | S fuel' =>
      if offset + 110 <? len data then
        e ← entry_at data offset;
        match e with
        | None => Ret (m, written)
        | Some (name, next) =>
            let skip := fill_loop fuel' data prefix buf count next written seen m in
            if (len name >? len prefix) && bool_decide (take (length prefix) name = prefix) then
              let rest := drop (length prefix) name in
              let child := first_component rest in
              if (len child >? 0) && (len child <? 64) then
                if negb (existsb (seen_match child) seen) && (len seen <? 32) then
                  let seen := seen ++ [seen_row child] in
                  let reclen := vfs_reclen child in
                  if written + reclen >? count then Ret (m, written) else
                  let dtype := if len child <? len rest then 4 else 8 in
                  match um_out m (buf ⊞ written) (vfs_dirent (len seen) (written + reclen) child dtype) with
                  | None => Ret (m, - EFAULT)
                  | Some m' =>
                      fill_loop fuel' data prefix buf count next (written + reclen) seen m'
                  end
                else skip
              else skip
            else skip
        end
      else Ret (m, written)
  end.
Definition fill_dir_entries (data prefix : list Z) (buf count : Z) (m : M) : outcome (M * Z) :=
  fill_loop (S (length data)) data prefix buf count 0 0 [] m.

(** The first slot with the descriptor. *)
Definition find_dir (fd : Z) (ds : list DirSlot) : option (nat * DirSlot) :=
  list_find (fun d => d_fd d = fd) ds.

Definition getdents64 (cpio : list Z) (fd buf count : Z) (st : vstate) (m : M)
    : outcome (vstate * M * Z) :=
  match find_dir fd (dirs st) with
  | None => Ret (st, m, 0)
  | Some (i, d) =>
      if d_done d then Ret (st, m, 0) else
      let st := set_dirs (<[i := mkDirSlot (d_fd d) (d_prefix d) true]> (dirs st)) st in
      let prefix :=
        if (len (d_prefix d) >? 0) && negb (bool_decide (last (d_prefix d) = Some SLASH))
        then d_prefix d ++ [SLASH] else d_prefix d in
      mr ← fill_dir_entries cpio prefix buf count m;
      Ret (st, fst mr, snd mr)
  end.

End Mem.
