(* ===== verification/VfsProps.v ===== *)
(** * Properties of the archive filesystem *)

From S2P Require Import Prelude TmpfsTree Paging PagingRefine Confinement Uaccess FdTable Cpio Vfs.

(** ** Specification *)

(** An open file is a region of the archive with a position inside it. *)
Definition file_ok (cpio : list Z) (f : OpenFile) : Prop :=
  0 <= f_data_offset f /\ 0 <= f_pos f <= f_data_len f /\ f_data_offset f + f_data_len f <= len cpio.

Record vfs_ok (cpio : list Z) (st : vstate) : Prop := {
  v_len : length (files st) = 256%nat;
  v_tbl : table_ok (files st);
  v_file f : Some f ∈ files st -> file_ok cpio f /\ f_fd f < next_vfs_fd st;
  v_next : 1000 <= next_vfs_fd st <= i32_max;
}.

(** ** Lemmas *)
Lemma live_elem t fd : fd ∈ live_fds t <-> exists f, Some f ∈ t /\ f_fd f = fd.
Proof.
  unfold live_fds. rewrite list_elem_of_omap. split.
  - intros ([f|] & Hin & [= <-]). eauto.
  - intros (f & Hin & <-). by exists (Some f).
Qed.

Lemma get_file_spec cpio st fd : vfs_ok cpio st ->
  match get_file st fd with
  | None => True
  | Some (i, r) => exists f, r = Ret f /\ files st !! i = Some (Some f) /\ f_fd f = fd
      /\ file_ok cpio f /\ f_fd f < next_vfs_fd st
  end.
Proof.
  intros Hok. unfold get_file. pose proof (find_spec (files st) fd (v_tbl _ _ Hok)) as Hf.
  destruct (find (files st) fd) as [i|]; [|done]. destruct Hf as (f & Hi & Hfd & _).
  exists f. rewrite Hi. destruct (v_file _ _ Hok f); [by eapply list_elem_of_lookup_2|]. auto.
Qed.

Lemma live_pos t i f p : t !! i = Some (Some f) -> live_fds (<[i := Some (with_pos f p)]> t) = live_fds t.
Proof.
  revert i. induction t as [|o t IH]; intros [|i] Hi; [done|done| |].
  - cbn in Hi. injection Hi as ->. done.
  - change (<[S i := Some (with_pos f p)]> (o :: t)) with (o :: <[i := Some (with_pos f p)]> t).
    rewrite !live_cons, (IH i Hi). done.
Qed.

Lemma put_file_ok cpio st i f p :
  vfs_ok cpio st -> files st !! i = Some (Some f) -> 0 <= p <= f_data_len f ->
  vfs_ok cpio (put_file i (with_pos f p) st).
Proof.
  intros [Hl Ht Hf Hn] Hi Hp.
  constructor; cbn.
  - by rewrite length_insert.
  - unfold table_ok. by rewrite live_pos.
  - intros g [j Hj]%list_elem_of_lookup. apply list_lookup_insert_Some in Hj as [(_ & [= <-] & _)|(_ & Hj)].
    + destruct (Hf f) as [(H1 & H2 & H3) H4]; [by eapply list_elem_of_lookup_2|].
      unfold file_ok. cbn. lia.
    + apply Hf. by eapply list_elem_of_lookup_2.
  - done.
Qed.

Lemma install_ok cpio st off l pos :
  vfs_ok cpio st -> next_vfs_fd st < i32_max -> 0 <= off -> 0 <= pos <= l -> off + l <= len cpio ->
  vfs_ok cpio (fst (install off l pos st)).
Proof.
  intros [Hl Ht Hf Hn] Hlt Ho Hp Hb. unfold install. unfold i32_max in *.
  rewrite i32_small, u64_small by lia. cbn [files].
  set (e := mkOpenFile (next_vfs_fd st) off l pos).
  assert (f_fd e ∉ live_fds (files st)) as Hfresh.
  { rewrite live_elem. intros (f & Hin & E). destruct (Hf f Hin) as [_ ?]. cbn in E. lia. }
  pose proof (alloc_spec (files st) e) as Ha. destruct (alloc (files st) e) as [t [k|]]; cbn.
  - destruct Ha as (Hk & _ & ->). constructor; cbn.
    + by rewrite length_insert.
    + unfold table_ok. rewrite live_fill by done. by constructor.
    + intros g [j Hj]%list_elem_of_lookup. apply list_lookup_insert_Some in Hj as [(_ & [= <-] & _)|(_ & Hj)].
      * unfold file_ok. cbn. lia.
      * destruct (Hf g) as [? ?]; [by eapply list_elem_of_lookup_2|]. split; [done|lia].
    + unfold i32_max. lia.
  - destruct Ha as [-> _]. constructor; cbn; auto.
    + intros g Hg. destruct (Hf g Hg) as [? ?]. split; [done|lia].
    + unfold i32_max. lia.
Qed.

Lemma get_file_slot cpio st i f :
  vfs_ok cpio st -> files st !! i = Some (Some f) ->
  exists j, get_file st (f_fd f) = Some (j, Ret f) /\ files st !! j = Some (Some f).
Proof.
  intros Hok Hi. pose proof (abs_lookup _ _ _ (v_tbl _ _ Hok) Hi) as Ha. unfold get_file.
  pose proof (find_spec (files st) (f_fd f) (v_tbl _ _ Hok)) as Hf.
  destruct (find (files st) (f_fd f)) as [j|]; [|congruence].
  destruct Hf as (g & Hj & _ & Hg). assert (g = f) as -> by congruence. exists j. by rewrite Hj.
Qed.

(** The calls that change the open-file table. *)
Inductive vop :=
| VOpen (path : list Z)
| VDup (fd : Z)
| VRead (fd buf count : Z)
| VLseek (fd offset whence : Z)
| VClose (fd : Z).

Definition vargs_ok (o : vop) : bool :=
  match o with
  | VRead _ b c => (0 <=? b) && (b <? 2 ^ 64) && (0 <=? c) && (c <? 2 ^ 64)
  | _ => true
  end.

(** A scan step on an encoded member. *)
Lemma entry_member pre m rest :
  member_ok m -> len pre mod 4 = 0 -> len (pre ++ encode m ++ rest) < 2 ^ 63 ->
  entry_at (pre ++ encode m ++ rest) (len pre) =
    Ret (if bool_decide (m_name m = TRAILER) then None
         else Some (m_name m, len (pre ++ encode m)))
  /\ len pre + 110 < len (pre ++ encode m ++ rest).
Proof.
  intros Hm Hp Hl. pose proof (member_fields pre m rest Hm) as (F1 & F2 & F3 & F4 & _).
  pose proof Hm as (_ & _ & _ & Hds & Hns). pose proof (head_len m Hm) as Hh.
  pose proof (encode_len m) as Hel.
  pose proof (len_nonneg pre). pose proof (len_nonneg (m_name m)). pose proof (len_nonneg (m_data m)).
  pose proof (len_nonneg rest). pose proof (align4_bounds (110 + len (m_name m) + 1 + 3)).
  pose proof (align4_bounds (len (m_data m) + 3)).
  assert (len (pre ++ encode m ++ rest) = len pre + len (encode m) + len rest) as Ht
    by (rewrite !len_app; lia).
  split; [|lia]. unfold entry_at.
  rewrite F1. cbn [mbind outcome_bind]. rewrite bool_decide_eq_true_2 by done. cbn [negb].
  rewrite F2, F3. cbn [mbind outcome_bind].
  rewrite !parse_hex_enc by (change (16 ^ Z.of_nat 8) with (2 ^ 32); lia).
  rewrite (u64_small (len pre + 110 + _)) by lia. rewrite (u64_small (_ - 1)) by lia.
  rewrite Z.gtb_ltb, (proj2 (Z.ltb_ge _ _)) by lia. rewrite F4. cbn [mbind outcome_bind].
  case_match; [done|]. rewrite (u64_small (len pre + 110 + (len (m_name m) + 1) + 3)) by lia.
  replace (align4 (len pre + 110 + (len (m_name m) + 1) + 3)) with (len pre + len (encode_head m)).
  2:{ rewrite Hh. replace (len pre + 110 + (len (m_name m) + 1) + 3)
      with (len pre + (110 + len (m_name m) + 1 + 3)) by lia. by rewrite (align4_add (len pre)). }
  rewrite (u64_small (_ + len (m_data m))), (u64_small (_ + 3)) by lia.
  do 3 f_equal. rewrite len_app, Hel.
  replace (len pre + len (encode_head m) + len (m_data m) + 3)
    with ((len pre + len (encode_head m)) + (len (m_data m) + 3)) by lia.
  rewrite (align4_add (len pre + _)); [lia|]. pose proof (head_len_mod m Hm). Z.div_mod_to_equations. lia.
Qed.

Lemma take_prefix (name prefix : list Z) :
  (len name >=? len prefix) && bool_decide (take (length prefix) name = prefix)
  = starts_with name prefix.
Proof.
  apply eq_true_iff_eq. rewrite andb_true_iff, bool_decide_eq_true, starts_with_spec. split.
  - intros [_ E]. exists (drop (length prefix) name). rewrite <- E at 1. by rewrite take_drop.
  - intros [r ->]. rewrite len_app. pose proof (len_nonneg r). split; [lia|]. by rewrite take_app_length.
Qed.

Lemma dir_prefix_archive ms prefix : forall fuel pre,
  Forall (fun m => member_ok m /\ m_name m <> TRAILER) ms -> len pre mod 4 = 0 ->
  len (pre ++ archive ms) < 2 ^ 63 -> (length ms < fuel)%nat ->
  dir_prefix_loop fuel (pre ++ archive ms) prefix (len pre)
  = Ret (existsb (fun m => starts_with (m_name m) prefix) ms).
Proof.
  induction ms as [|m ms IH]; intros fuel pre Hok Hp Hl Hf; (destruct fuel as [|fuel]; [cbn in Hf; lia|]).
  - unfold archive in *. cbn [map concat] in *. rewrite app_nil_l in *.
    rewrite <- (app_nil_r (encode trailer)) in *. cbn [dir_prefix_loop].
    destruct (entry_member pre trailer []) as [-> Hlt]; [apply trailer_ok|done|done|].
    rewrite (proj2 (Z.ltb_lt _ _)) by done. done.
  - inversion Hok as [|?? [Hm Ht] Hok']; subst. unfold archive in *. cbn [map concat] in *.
    rewrite <- app_assoc in *. cbn [dir_prefix_loop].
    destruct (entry_member pre m (concat (map encode ms) ++ encode trailer)) as [-> Hlt]; [done..|].
    rewrite (proj2 (Z.ltb_lt _ _)) by done. cbn [mbind outcome_bind].
    rewrite (bool_decide_eq_false_2 (m_name m = TRAILER)) by done. rewrite take_prefix.
    cbn [existsb]. destruct (starts_with (m_name m) prefix); [done|]. cbn [orb].
    rewrite app_assoc in *. apply IH; [done| |done|cbn in Hf; lia].
    rewrite len_app. pose proof (encode_len_mod m Hm). Z.div_mod_to_equations. lia.
Qed.

Section Props.
Context {M : Type} {wf : M -> Prop} `{HL : UserMemLaws M wf}.

Definition vstep (cpio : list Z) (o : vop) (st : vstate) (m : M) : outcome (vstate * M * Z) :=
  match o with
  | VOpen p => r ← Vfs.open cpio p st; Ret (fst r, m, snd r)
  | VDup fd => r ← dup fd st; Ret (fst r, m, snd r)
  | VRead fd b c => Vfs.read cpio fd b c st m
  | VLseek fd f w => r ← Vfs.lseek fd f w st; Ret (fst r, m, snd r)
  | VClose fd => Ret (fst (Vfs.close fd st), m, snd (Vfs.close fd st))
  end.

(** What a read does, on an open file. *)
Lemma vfs_read_spec cpio fd buf count st m i f :
  vfs_ok cpio st -> wf m -> 0 <= buf -> 0 <= count -> len cpio < 2 ^ 63 ->
  get_file st fd = Some (i, Ret f) ->
  let n := Z.min count (f_data_len f - f_pos f) in
  let bs := take (Z.to_nat n) (drop (Z.to_nat (f_data_offset f + f_pos f)) cpio) in
  len bs = n
  /\ Vfs.read cpio fd buf count st m =
     if f_data_len f - f_pos f =? 0 then Ret (st, m, 0)
     else match um_out m buf bs with
          | None => Ret (st, m, - EFAULT)
          | Some m' => Ret (put_file i (with_pos f (f_pos f + n)) st, m', n)
          end.
Proof.
  intros Hok Hm Hb Hc Hl Hg. pose proof (get_file_spec cpio st fd Hok) as Hs. rewrite Hg in Hs.
  destruct Hs as (f' & [= <-] & Hi & Hfd & (F1 & F2 & F3) & _). cbv zeta.
  set (n := Z.min count (f_data_len f - f_pos f)). set (bs := take _ _).
  assert (len bs = n) as Hbs by (subst bs; rewrite len_take, len_drop by lia; lia).
  split; [done|]. unfold Vfs.read. rewrite Hg. cbn [mbind outcome_bind].
  rewrite (u64_small (f_data_len f - f_pos f)) by lia. case_match; [done|]. zb. fold n.
  rewrite (u64_small (f_data_offset f + f_pos f)) by lia.
  rewrite (slice_ok cpio) by lia. cbn [mbind outcome_bind].
  rewrite (take_ge (drop _ _)) by (rewrite length_drop; unfold len; lia).
  rewrite slice_ok by (rewrite ?len_drop; lia). cbn [mbind outcome_bind].
  rewrite Z.sub_0_r, drop_0. fold bs. rewrite (u64_small (f_pos f + n)) by lia. done.
Qed.

(** ** Properties *)

(** Every call on the archive filesystem returns without panicking, for
    every argument, and keeps the open-file table well-formed: descriptors
    distinct, every open file a region inside the archive, its position inside
    the region. *)
Theorem vfs_step_ok cpio o st m :
  vfs_ok cpio st -> wf m -> len cpio < 2 ^ 63 -> next_vfs_fd st < i32_max -> vargs_ok o = true ->
  exists st' m' r, vstep cpio o st m = Ret (st', m', r) /\ vfs_ok cpio st'.
Proof.
  intros Hok Hm Hl Hn Ha. destruct o; cbn [vstep vargs_ok] in *.
  - unfold Vfs.open. destruct (lookup_loop_safe (S (length cpio)) cpio (strip_lead path) 0)
      as (r & E & Hr); [done|lia|unfold len; lia|unfold len; lia|lia|].
    unfold lookup. rewrite E. cbn [mbind outcome_bind]. destruct r as [[off l]|]; [|by eexists _, _, _].
    destruct (Hr off l eq_refl) as (? & ? & ?). eexists _, _, _. split; [done|].
    by apply install_ok.
  - unfold dup. pose proof (get_file_spec cpio st fd Hok) as Hs.
    destruct (get_file st fd) as [[i r]|]; [|by eexists _, _, _].
    destruct Hs as (f & -> & _ & _ & (? & ? & ?) & _). eexists _, _, _. split; [done|].
    by apply install_ok.
  - zb. pose proof (get_file_spec cpio st fd Hok) as Hs.
    destruct (get_file st fd) as [[i r]|] eqn:Eg;
      [|unfold Vfs.read; rewrite Eg; by eexists _, _, _].
    destruct Hs as (f & -> & Hi & _ & (? & ? & ?) & _).
    destruct (vfs_read_spec cpio fd buf count st m i f) as [_ ->]; auto.
    case_match; [by eexists _, _, _|]. case_match; [|by eexists _, _, _].
    eexists _, _, _. split; [done|]. apply put_file_ok; [done|done|lia].
  - unfold Vfs.lseek. pose proof (get_file_spec cpio st fd Hok) as Hs.
    destruct (get_file st fd) as [[i r]|]; [|by eexists _, _, _].
    destruct Hs as (f & -> & Hi & _ & (? & ? & ?) & _). cbn [mbind outcome_bind].
    repeat case_match; (eexists _, _, _; split; [done|]; try done);
      (apply put_file_ok; [done|done|lia]).
  - eexists _, _, _. split; [done|]. unfold Vfs.close, free. cbn.
    pose proof (find_spec (files st) fd (v_tbl _ _ Hok)) as Hf.
    destruct (find (files st) fd) as [i|]; [|by destruct Hok; constructor].
    destruct Hf as (f & Hi & _ & _). destruct Hok as [Kl Kt Kf Kn]. constructor; cbn; auto.
    + by rewrite length_insert.
    + unfold table_ok in *. rewrite (live_clear _ _ _ Hi) in Kt. by inversion Kt.
    + intros g [j Hj]%list_elem_of_lookup. apply list_lookup_insert_Some in Hj as [(_ & ? & _)|(_ & Hj)];
        [done|]. apply Kf. by eapply list_elem_of_lookup_2.
Qed.

(** End to end: in a well-formed archive, opening the path of a member
    while a slot is free returns a fresh descriptor, and reading from it into an
    accessible buffer of at least the file's size returns the size and leaves
    exactly the member's contents in the buffer; the next read reports end of
    file. *)
Theorem vfs_open_read_contents ms path p mem_ st m buf count :
  let cpio := archive ms in
  Forall (fun x => member_ok x /\ m_name x <> TRAILER) ms -> len cpio < 2 ^ 63 ->
  split_at_name (strip_lead path) ms = Some (p, mem_) ->
  vfs_ok cpio st -> next_vfs_fd st < i32_max -> ~ Forall is_Some (files st) ->
  wf m -> 0 <= buf -> 0 < len (m_data mem_) <= count ->
  is_Some (um_in m buf (len (m_data mem_))) ->
  exists st1 st2 m2, Vfs.open cpio path st = Ret (st1, next_vfs_fd st)
    /\ Vfs.read cpio (next_vfs_fd st) buf count st1 m = Ret (st2, m2, len (m_data mem_))
    /\ um_in m2 buf (len (m_data mem_)) = Some (m_data mem_)
    /\ Vfs.read cpio (next_vfs_fd st) buf count st2 m2 = Ret (st2, m2, 0).
Proof.
  cbv zeta. intros Hms Hl Hsp Hok Hn Hfree Hm Hb Hc Hacc. set (cpio := archive ms) in *.
  pose proof (lookup_archive ms (strip_lead path) (S (length cpio)) [] Hms eq_refl Hl) as Hlk.
  rewrite app_nil_l, Hsp in Hlk. fold cpio in Hlk. change (len (@nil Z)) with 0 in Hlk.
  pose proof (archive_len ms). specialize (Hlk ltac:(subst cpio; lia)). rewrite app_nil_l in Hlk.
  apply split_at_name_spec in Hsp as (_ & _ & q & Hq).
  set (off := len (concat (map encode p)) + len (encode_head mem_)) in *.
  assert (slice cpio off (off + len (m_data mem_)) = Ret (m_data mem_)) as Hsl.
  { subst cpio off. rewrite Hq. unfold archive. rewrite map_app, concat_app. cbn [map concat].
    rewrite <- !app_assoc. rewrite Hq in Hms.
    apply Forall_app in Hms as [_ Hms]. inversion Hms as [|?? [Hmo _] _]; subst.
    apply (member_fields _ mem_ (concat (map encode q) ++ encode trailer) Hmo). }
  unfold slice in Hsl. destruct (_ && _) eqn:Eb; [|done]. injection Hsl as Hsl. zb.
  replace (off + len (m_data mem_) - off) with (len (m_data mem_)) in Hsl by lia.
  (* the descriptor *)
  unfold Vfs.open, lookup. rewrite Hlk. cbn [mbind outcome_bind].
  pose proof (install_ok cpio st off (len (m_data mem_)) 0 Hok Hn ltac:(lia) ltac:(lia) ltac:(lia)) as Hok1.
  unfold install in *. cbn [files] in *.
  rewrite i32_small in * by (destruct (v_next _ _ Hok); unfold i32_max in *; lia).
  set (e := mkOpenFile (next_vfs_fd st) off (len (m_data mem_)) 0) in *.
  pose proof (alloc_spec (files st) e) as Ha.
  destruct (alloc (files st) e) as [t [k|]]; [|by destruct Ha]. destruct Ha as (Hk & _ & ->).
  cbn [fst] in Hok1. set (st1 := set_files _ _) in *.
  assert (files st1 !! k = Some (Some e)) as Hk1.
  { cbn. apply list_lookup_insert_eq. by eapply lookup_lt_Some. }
  destruct (get_file_slot cpio st1 k e Hok1 Hk1) as (j & Hg & Hj).
  (* the first read *)
  destruct (vfs_read_spec cpio (next_vfs_fd st) buf count st1 m j e) as [_ Hr1]; [done|done|lia|lia|done|done|].
  cbn [f_data_len f_pos f_data_offset e] in Hr1. rewrite Z.sub_0_r, Z.add_0_r, Z.add_0_l in Hr1.
  rewrite Z.min_r in Hr1 by lia. rewrite Hsl in Hr1.
  rewrite (proj2 (Z.eqb_neq _ 0)) in Hr1 by lia.
  apply (um_out_in m buf (m_data mem_)) in Hacc as [m2 Ho]; [|done|done]. rewrite Ho in Hr1.
  set (st2 := put_file j _ st1) in *.
  exists st1, st2, m2. split; [done|]. split; [exact Hr1|].
  split; [by eapply um_in_out|].
  (* end of file *)
  assert (vfs_ok cpio st2) as Hok2 by (apply put_file_ok; [done|done|cbn; lia]).
  destruct (get_file_slot cpio st2 j (with_pos e (len (m_data mem_)))) as (j2 & Hg2 & _);
    [done|cbn; apply list_lookup_insert_eq; by eapply lookup_lt_Some|].
  destruct (vfs_read_spec cpio (next_vfs_fd st) buf count st2 m2 j2 (with_pos e (len (m_data mem_))))
    as [_ ->]; [done|by apply (um_out_wf m buf _ _ Hm Hb Ho)|lia|lia|done|done|].
  cbn. by rewrite Z.sub_diag.
Qed.

End Props.

(** Directory test: on a well-formed archive, a path (shorter than 127
    bytes) is a directory exactly when the name of some member starts with the
    path followed by a slash. *)
Theorem is_dir_prefix_exact ms path :
  Forall (fun m => member_ok m /\ m_name m <> TRAILER) ms -> len (archive ms) < 2 ^ 63 ->
  let p := if starts_with path [SLASH] then tail path else path in
  len p < 127 ->
  is_dir_prefix (archive ms) path =
    Ret (existsb (fun m => starts_with (m_name m)
      (if bool_decide (last p = Some SLASH) then p else p ++ [SLASH])) ms).
Proof.
  intros Hok Hl p Hp. unfold is_dir_prefix. fold p.
  rewrite Z.geb_leb, (proj2 (Z.leb_gt _ _)) by done.
  apply (dir_prefix_archive ms _ _ [] Hok); [done|done|]. pose proof (archive_len ms). lia.
Qed.

(** The scans behind directory listing do not have the checks of the
    lookup: on an archive whose first entry has a zero name size, the lookup
    returns nothing, and the directory test panics for every path. *)
Theorem scan_zero_namesize_panics mid post rest path :
  let data := MAGIC ++ mid ++ hex_enc (fun _ => false) 8 0 ++ post ++ rest in
  len mid = 88 -> len post = 8 -> 0 < len rest -> len data < 2 ^ 63 -> len path < 127 ->
  lookup data path = Ret None /\ is_dir_prefix data path = Panic.
Proof.
  cbv zeta. intros Hm Hp Hr Hl Hpath. set (data := MAGIC ++ _) in *.
  assert (len data = 110 + len rest) as Hd.
  { subst data. rewrite !len_app, Hm, Hp, hex_enc_len. change (len MAGIC) with 6. lia. }
  assert (slice data 0 6 = Ret MAGIC) as F1 by (apply (slice_app [] MAGIC); done).
  assert (slice data 94 102 = Ret (hex_enc (fun _ => false) 8 0)) as F3.
  { subst data. rewrite app_assoc. apply slice_app; [|done].
    rewrite len_app, Hm. done. }
  destruct (slice_total data 54 62) as (fb & F2 & _); [lia..|].
  split.
  - unfold lookup. cbn [lookup_loop]. rewrite checked_add_small by lia. cbn [try_].
    rewrite Z.gtb_ltb, (proj2 (Z.ltb_ge _ _)) by lia. rewrite !Z.add_0_l.
    rewrite F1. cbn [mbind outcome_bind]. rewrite bool_decide_eq_true_2 by done. cbn [negb].
    rewrite F2, F3. cbn [mbind outcome_bind]. rewrite parse_hex_enc by (change (16 ^ Z.of_nat 8) with (2 ^ 32); lia). done.
  - unfold is_dir_prefix. set (p := if starts_with path [SLASH] then _ else _).
    assert (len p < 127) as Hplen.
    { subst p. case_match; [|done]. destruct path; [done|]. rewrite len_cons in Hpath. cbn [tail]. lia. }
    rewrite Z.geb_leb, (proj2 (Z.leb_gt _ _)) by done. cbn [dir_prefix_loop].
    rewrite (proj2 (Z.ltb_lt _ _)) by lia. unfold entry_at. rewrite !Z.add_0_l, F1. cbn [mbind outcome_bind].
    rewrite (bool_decide_eq_true_2 (MAGIC = MAGIC)) by done. cbn [negb]. rewrite F2, F3. cbn [mbind outcome_bind].
    rewrite parse_hex_enc by (change (16 ^ Z.of_nat 8) with (2 ^ 32); lia). rewrite Z.gtb_ltb, (proj2 (Z.ltb_ge _ _)).
    + done.
    + change (110 ⊞ 0 ⊟ 1) with 109. lia.
Qed.

(** [pread] bypasses the guard: reading an open archive file at a valid
    offset into ring-3 memory faults in ring 0. *)
Theorem vfs_pread_faults `{HLay : LayoutOk} cpio fd buf count off st m i f pa :
  vfs_ok cpio st -> wf_machine m -> get_file st fd = Some (i, Ret f) ->
  0 <= off < f_data_len f -> 0 < count -> len cpio < 2 ^ 63 -> user_at (tabs m) buf pa ->
  Vfs.pread cpio fd buf count off st m = Panic.
Proof.
  intros Hok Hm Hg Ho Hc Hl Hu. pose proof (get_file_spec cpio st fd Hok) as Hs. rewrite Hg in Hs.
  destruct Hs as (f' & [= <-] & _ & _ & (F1 & F2 & F3) & _).
  unfold Vfs.pread. rewrite Hg. cbn [mbind outcome_bind].
  rewrite Z.geb_leb, (proj2 (Z.leb_gt _ _)) by lia.
  rewrite !u64_small, slice_ok by lia. cbn [mbind outcome_bind].
  set (src := take _ (drop _ _)). destruct (take (Z.to_nat (Z.min count (f_data_len f - off))) src)
    as [|b bs] eqn:E.
  - exfalso. apply (f_equal len) in E. rewrite len_take in E by lia.
    subst src. rewrite len_take, len_drop in E by lia. change (len (@nil Z)) with 0 in E. lia.
  - cbn [um_raw machine_user_mem]. by rewrite (raw_store_faults m buf pa).
Qed.

(** A directory handle yields entries only once: after any call on an open
    handle, every later call returns 0, whether or not the entries fit the
    first buffer, so entries that did not fit are lost. *)
Theorem vfs_getdents_once {M : Type} `{UserMem M} cpio fd buf count st (m m' m1 : M) st' r buf2 count2 :
  is_Some (find_dir fd (dirs st)) ->
  Vfs.getdents64 cpio fd buf count st m = Ret (st', m', r) ->
  Vfs.getdents64 cpio fd buf2 count2 st' m1 = Ret (st', m1, 0).
Proof.
  intros [[i d] Hf] Hg. unfold Vfs.getdents64 in *. rewrite Hf in Hg.
  destruct (d_done d) eqn:Ed; [injection Hg as <- _ _; by rewrite Hf, Ed|].
  destruct (fill_dir_entries _ _ _ _ _) as [mr|]; [|done]. cbn [mbind outcome_bind] in Hg.
  injection Hg as <- _ _. cbn [dirs set_dirs].
  apply list_find_Some in Hf as (Hi & Hfd & Hmin).
  assert (find_dir fd (<[i:=mkDirSlot (d_fd d) (d_prefix d) true]> (dirs st))
    = Some (i, mkDirSlot (d_fd d) (d_prefix d) true)) as ->; [|done].
  apply list_find_Some. split; [apply list_lookup_insert_eq; by eapply lookup_lt_Some|].
  split; [done|]. intros j y Hj Hlt. rewrite list_lookup_insert_ne in Hj by lia. by eapply Hmin.
Qed.

(** ** Witnesses *)

#[local] Existing Instance ua_layout.
#[local] Existing Instance ua_layout_ok.

Lemma vfs_boot_ok cpio : vfs_ok cpio vfs_boot.
Proof.
  constructor.
  - done.
  - by vm_compute; constructor.
  - intros f Hf. change (Some f ∈ replicate 256 (@None OpenFile)) in Hf.
    apply elem_of_replicate in Hf. by destruct Hf.
  - done.
Qed.

Lemma demo_archive_ok : Forall (fun m => member_ok m /\ m_name m <> TRAILER) [demo_member].
Proof. constructor; [|constructor]. by vm_compute. Qed.

Lemma vfs_step_ok_witness :
  exists st' (m' : machine) r,
    vstep (archive [demo_member]) (VOpen (bstr "/bin/start.boot")) vfs_boot demo_machine = Ret (st', m', r)
    /\ vfs_ok (archive [demo_member]) st'.
Proof.
  apply (vfs_step_ok (wf := wf_machine));
    [apply vfs_boot_ok|apply demo_machine_wf|by vm_compute|done|done].
Defined.

Lemma vfs_open_read_contents_witness :
  exists st1 st2 m2, Vfs.open (archive [demo_member]) (bstr "/bin/start.boot") vfs_boot = Ret (st1, 1000)
    /\ Vfs.read (archive [demo_member]) 1000 0x500000 16 st1 demo_machine = Ret (st2, m2, 3)
    /\ um_in m2 0x500000 3 = Some [1; 2; 3]
    /\ Vfs.read (archive [demo_member]) 1000 0x500000 16 st2 m2 = Ret (st2, m2, 0).
Proof.
  apply (vfs_open_read_contents (wf := wf_machine) [demo_member] _ [] demo_member vfs_boot).
  - apply demo_archive_ok.
  - by vm_compute.
  - by vm_compute.
  - apply vfs_boot_ok.
  - done.
  - intros Hf. inversion Hf as [|?? [x Hx]]. done.
  - apply demo_machine_wf.
  - lia.
  - change (len (m_data demo_member)) with 3. lia.
  - vm_compute. by eexists.
Defined.

Lemma is_dir_prefix_exact_witness :
  is_dir_prefix (archive [demo_member]) (bstr "/bin") = Ret true.
Proof.
  apply (is_dir_prefix_exact [demo_member] (bstr "/bin")); [apply demo_archive_ok|by vm_compute|by vm_compute].
Defined.

Lemma scan_zero_namesize_panics_witness :
  lookup (MAGIC ++ replicate 88 48 ++ hex_enc (fun _ => false) 8 0 ++ replicate 8 48 ++ [0; 0]) (bstr "/x") = Ret None
  /\ is_dir_prefix (MAGIC ++ replicate 88 48 ++ hex_enc (fun _ => false) 8 0 ++ replicate 8 48 ++ [0; 0]) (bstr "/x") = Panic.
Proof. apply scan_zero_namesize_panics; by vm_compute. Defined.

(** A state with one open file: the bytes of the demo member. *)
Definition demo_vfs : vstate :=
  put_file 0 (mkOpenFile 999 126 3 0) vfs_boot.

Lemma demo_vfs_ok : vfs_ok (archive [demo_member]) demo_vfs.
Proof.
  constructor.
  - done.
  - vm_compute. constructor; [|constructor]. intros Hx. inversion Hx.
  - intros f [i Hi]%list_elem_of_lookup. cbn in Hi. destruct i as [|i]; cbn in Hi.
    + injection Hi as <-. vm_compute. repeat split; done.
    + change (replicate 255 (@None OpenFile) !! i = Some (Some f)) in Hi.
      apply list_elem_of_lookup_2, elem_of_replicate in Hi. by destruct Hi.
  - done.
Qed.

Lemma vfs_pread_faults_witness :
  Vfs.pread (archive [demo_member]) 999 0x500000 16 1 demo_vfs demo_machine = Panic.
Proof.
  apply (vfs_pread_faults (archive [demo_member]) 999 0x500000 16 1 demo_vfs demo_machine 0
    (mkOpenFile 999 126 3 0) 0x500000);
    [apply demo_vfs_ok|apply demo_machine_wf|done|cbn; lia|lia|by vm_compute|].
  split; [unfold GIB; lia|]. eexists. split; [vm_compute; reflexivity|]. by split.
Defined.

(** A handle on "/bin" whose first buffer is too small for the entry: the entry
    is never delivered. *)
Definition demo_dir : vstate := fst (open_dir (bstr "/bin") vfs_boot).

Lemma vfs_getdents_once_witness :
  Vfs.getdents64 (archive [demo_member]) 900 0x500000 1 demo_dir demo_machine
    = Ret (set_dirs (<[0%nat := mkDirSlot 900 (bstr "bin") true]> (dirs demo_dir)) demo_dir, demo_machine, 0)
  /\ Vfs.getdents64 (archive [demo_member]) 900 0x500000 4096
       (set_dirs (<[0%nat := mkDirSlot 900 (bstr "bin") true]> (dirs demo_dir)) demo_dir) demo_machine
     = Ret (set_dirs (<[0%nat := mkDirSlot 900 (bstr "bin") true]> (dirs demo_dir)) demo_dir, demo_machine, 0).
Proof.
  assert (Vfs.getdents64 (archive [demo_member]) 900 0x500000 1 demo_dir demo_machine
    = Ret (set_dirs (<[0%nat := mkDirSlot 900 (bstr "bin") true]> (dirs demo_dir)) demo_dir, demo_machine, 0))
    as E.
  { generalize demo_machine as m. intros m. vm_compute. reflexivity. }
  split; [exact E|].
  apply (vfs_getdents_once (archive [demo_member]) 900 0x500000 1 demo_dir demo_machine demo_machine
    demo_machine _ 0 0x500000 4096); [by eexists|exact E].
Defined.
