(* ===== verification/Pipe.v ===== *)
(** * Pipes

    [pipe.rs]: sixteen 4096-byte ring buffers, one slot of each kept empty.
    The state is the static array and the descriptor counter; each call runs
    under the pipe lock, so a call is one step.  User memory is reached through
    the interface of [Uaccess].  Logging is not modelled, and the scheduler
    yield of a blocking read is its return value EINTR. *)

From S2P Require Import Prelude Paging PagingRefine Confinement Uaccess.

Definition PIPE_BUF_SIZE : Z := 4096.
Definition MAX_PIPES : nat := 16.
Definition EINTR : Z := 4.

Record Pipe := mkPipe {
  buf : list Z;
  head : Z;
  tail : Z;
  read_fd : Z;
  write_fd : Z;
  nonblock : bool;
}.

Definition empty : Pipe := mkPipe (replicate (Z.to_nat PIPE_BUF_SIZE) 0) 0 0 (-1) (-1) false.
Definition is_empty (p : Pipe) : bool := head p =? tail p.

(** [PIPES] and [NEXT_PIPE_FD]. *)
Record pstate := mkPstate { pipes : list Pipe; next_pipe_fd : Z }.
Definition pipe_boot : pstate := mkPstate (replicate MAX_PIPES empty) 200.

Definition set_pipe (i : nat) (p : Pipe) (st : pstate) : pstate :=
  mkPstate (<[i := p]> (pipes st)) (next_pipe_fd st).

(** ** Operations *)

Definition create (st : pstate) : pstate * (Z * Z) :=
  let rfd := i32 (next_pipe_fd st) in
  let wfd := i32 (next_pipe_fd st ⊞ 1) in
  let st := mkPstate (pipes st) (next_pipe_fd st ⊞ 2) in
  match list_find (fun p => read_fd p = -1) (pipes st) with
  | Some (i, _) => (set_pipe i (mkPipe (buf empty) 0 0 rfd wfd false) st, (rfd, wfd))
  | None => (st, (rfd, wfd))
  end.

(** The loop of [write] over the bytes of the user buffer. *)
Fixpoint push_loop (bs : list Z) (p : Pipe) (written : Z) : outcome (Pipe * Z) :=
  match bs with
  | [] => Ret (p, written)
  | byte :: bs' =>
      let next_tail := (tail p + 1) mod PIPE_BUF_SIZE in
      if next_tail =? head p then Ret (p, written) else
      b ← splice (buf p) (tail p) [byte];
      push_loop bs' (mkPipe b (head p) next_tail (read_fd p) (write_fd p) (nonblock p)) (written + 1)
  end.

(** The loop of [read]: the bytes stored to the user buffer, in order. *)
Fixpoint pop_loop (fuel : nat) (count nread : Z) (p : Pipe) : outcome (Pipe * list Z) :=
  match fuel with
  | O => Panic
  | S fuel' =>
      if (nread <? count) && negb (head p =? tail p) then
        b ← index (buf p) (head p);
        r ← pop_loop fuel' count (nread + 1)
              (mkPipe (buf p) ((head p + 1) mod PIPE_BUF_SIZE) (tail p) (read_fd p) (write_fd p) (nonblock p));
        Ret (fst r, b :: snd r)
      else Ret (p, [])
  end.

Section Mem.
Context {M : Type} `{UserMem M}.

Definition write (fd data count : Z) (st : pstate) (m : M) : outcome (pstate * M * Z) :=
  match list_find (fun p => write_fd p = fd) (pipes st) with
  | None => Ret (st, m, - EBADF)
  | Some (i, p) =>
      match um_in m data count with
      | None => Ret (st, m, - EFAULT)
      | Some bs =>
          r ← push_loop bs p 0;
          Ret (set_pipe i (fst r) st, m, snd r)
      end
  end.

(** The access window covers the whole buffer; only the drained bytes are
    stored. *)
Definition read (fd dst count : Z) (st : pstate) (m : M) : outcome (pstate * M * Z) :=
  match list_find (fun p => read_fd p = fd) (pipes st) with
  | None => Ret (st, m, - EBADF)
  | Some (i, p) =>
      if negb (is_empty p) then
        match um_in m dst count with
        | None => Ret (st, m, - EFAULT)
        | Some _ =>
            r ← pop_loop (S (Z.to_nat PIPE_BUF_SIZE)) count 0 p;
            match um_out m dst (snd r) with
            | None => Panic
            | Some m' => Ret (set_pipe i (fst r) st, m', len (snd r))
            end
        end
      else if write_fd p =? -1 then Ret (st, m, 0)
      else if nonblock p then Ret (st, m, - EAGAIN)
      else Ret (st, m, - EINTR)
  end.

End Mem.

Definition set_nonblock (fd : Z) (nb : bool) (st : pstate) : pstate :=
  match list_find (fun p => read_fd p = fd \/ write_fd p = fd) (pipes st) with
  | Some (i, p) => set_pipe i (mkPipe (buf p) (head p) (tail p) (read_fd p) (write_fd p) nb) st
  | None => st
  end.

Definition is_pipe_fd (fd : Z) (st : pstate) : bool :=
  existsb (fun p => (read_fd p =? fd) || (write_fd p =? fd)) (pipes st).
Definition any_has_data (st : pstate) : bool :=
  existsb (fun p => negb (read_fd p =? -1) && negb (is_empty p)) (pipes st).
Definition has_data (fd : Z) (st : pstate) : bool :=
  existsb (fun p => (read_fd p =? fd) && negb (is_empty p)) (pipes st).

Definition close_pipe (fd : Z) (p : Pipe) : Pipe :=
  if read_fd p =? fd then
    if write_fd p =? -1 then empty
    else mkPipe (buf p) (head p) (tail p) (-1) (write_fd p) (nonblock p)
  else p.
Definition close (fd : Z) (st : pstate) : pstate :=
  mkPstate (map (close_pipe fd) (pipes st)) (next_pipe_fd st).

(** ** Specification: bounded queues *)

Record queue := mkQueue { q_data : list Z; q_rfd : Z; q_wfd : Z; q_nb : bool }.
Definition CAPACITY : Z := PIPE_BUF_SIZE - 1.

(** The bytes between the cursors, oldest first. *)
Definition contents (p : Pipe) : list Z :=
  (fun k => default 0 (buf p !! Z.to_nat ((head p + k) mod PIPE_BUF_SIZE)))
    <$> seqZ 0 ((tail p - head p) mod PIPE_BUF_SIZE).
Definition abs (p : Pipe) : queue := mkQueue (contents p) (read_fd p) (write_fd p) (nonblock p).

Record pipe_ok (p : Pipe) : Prop := {
  p_buf : len (buf p) = PIPE_BUF_SIZE;
  p_head : 0 <= head p < PIPE_BUF_SIZE;
  p_tail : 0 <= tail p < PIPE_BUF_SIZE;
}.
Record pstate_ok (st : pstate) : Prop := {
  ps_len : length (pipes st) = MAX_PIPES;
  ps_pipes : Forall pipe_ok (pipes st);
}.

Inductive pop :=
| PCreate
| PWrite (fd data count : Z)
| PRead (fd dst count : Z)
| PNonblock (fd : Z) (nb : bool)
| PClose (fd : Z).

Section Spec.
Context {M : Type} `{UserMem M}.

(** The calls on the implementation, with the value they return (the pair of
    descriptors is returned as the read end). *)
Definition pstep (o : pop) (st : pstate) (m : M) : outcome (pstate * M * Z) :=
  match o with
  | PCreate => let '(st, (r, _)) := create st in Ret (st, m, r)
  | PWrite fd data count => write fd data count st m
  | PRead fd dst count => read fd dst count st m
  | PNonblock fd nb => Ret (set_nonblock fd nb st, m, 0)
  | PClose fd => Ret (close fd st, m, 0)
  end.

(** The same calls on queues. *)
Definition qstep (o : pop) (qs : list queue) (next : Z) (m : M) : list queue * Z * M * Z :=
  match o with
  | PCreate =>
      (match list_find (fun q => q_rfd q = -1) qs with
       | Some (i, _) => <[i := mkQueue [] (i32 next) (i32 (next ⊞ 1)) false]> qs
       | None => qs
       end, next ⊞ 2, m, i32 next)
  | PWrite fd data count =>
      match list_find (fun q => q_wfd q = fd) qs with
      | None => (qs, next, m, - EBADF)
      | Some (i, q) =>
          match um_in m data count with
          | None => (qs, next, m, - EFAULT)
          | Some bs =>
              let room := CAPACITY - len (q_data q) in
              (<[i := mkQueue (q_data q ++ take (Z.to_nat room) bs) (q_rfd q) (q_wfd q) (q_nb q)]> qs,
               next, m, Z.min (len bs) room)
          end
      end
  | PRead fd dst count =>
      match list_find (fun q => q_rfd q = fd) qs with
      | None => (qs, next, m, - EBADF)
      | Some (i, q) =>
          match q_data q with
          | [] => (qs, next, m,
                   if q_wfd q =? -1 then 0 else if q_nb q then - EAGAIN else - EINTR)
          | data =>
              match um_in m dst count, um_out m dst (take (Z.to_nat count) data) with
              | Some _, Some m' =>
                  (<[i := mkQueue (drop (Z.to_nat count) data) (q_rfd q) (q_wfd q) (q_nb q)]> qs,
                   next, m', Z.min count (len data))
              | _, _ => (qs, next, m, - EFAULT)
              end
          end
      end
  | PNonblock fd nb =>
      (match list_find (fun q => q_rfd q = fd \/ q_wfd q = fd) qs with
       | Some (i, q) => <[i := mkQueue (q_data q) (q_rfd q) (q_wfd q) nb]> qs
       | None => qs
       end, next, m, 0)
  | PClose fd =>
      (map (fun q => if q_rfd q =? fd then
              if q_wfd q =? -1 then mkQueue [] (-1) (-1) false
              else mkQueue (q_data q) (-1) (q_wfd q) (q_nb q)
            else q) qs, next, m, 0)
  end.

End Spec.

(** ** Lemmas *)
Lemma empty_ok : pipe_ok empty.
Proof. constructor; [reflexivity|cbn; unfold PIPE_BUF_SIZE; lia..]. Qed.

Lemma contents_len p : pipe_ok p -> len (contents p) = (tail p - head p) mod PIPE_BUF_SIZE.
Proof.
  intros _. unfold contents, len. rewrite length_fmap, length_seqZ.
  pose proof (Z.mod_pos_bound (tail p - head p) PIPE_BUF_SIZE eq_refl). lia.
Qed.

Lemma contents_bound p : pipe_ok p -> 0 <= len (contents p) <= CAPACITY.
Proof.
  intros Hp. rewrite contents_len by done. unfold CAPACITY.
  pose proof (Z.mod_pos_bound (tail p - head p) PIPE_BUF_SIZE eq_refl). lia.
Qed.

Lemma full_iff p : pipe_ok p ->
  (tail p + 1) mod PIPE_BUF_SIZE = head p <-> len (contents p) = CAPACITY.
Proof.
  intros Hp. rewrite contents_len by done. destruct Hp as [_ Hh Ht]. unfold CAPACITY, PIPE_BUF_SIZE in *.
  Z.div_mod_to_equations. lia.
Qed.

Lemma empty_iff p : pipe_ok p -> head p = tail p <-> contents p = [].
Proof.
  intros Hp. split.
  - intros E. apply len_zero_nil. rewrite contents_len by done. by rewrite E, Z.sub_diag.
  - intros E. apply (f_equal len) in E. rewrite contents_len in E by done. change (len (@nil Z)) with 0 in E.
    destruct Hp as [_ Hh Ht]. unfold PIPE_BUF_SIZE in *. Z.div_mod_to_equations. lia.
Qed.

Lemma push_one p b : pipe_ok p -> len (contents p) < CAPACITY ->
  exists bf, splice (buf p) (tail p) [b] = Ret bf
    /\ let p' := mkPipe bf (head p) ((tail p + 1) mod PIPE_BUF_SIZE) (read_fd p) (write_fd p) (nonblock p) in
       pipe_ok p' /\ contents p' = contents p ++ [b].
Proof.
  intros Hp Hl. rewrite contents_len in Hl by done. destruct Hp as [Hb Hh Ht].
  rewrite splice_ok by (change (len [b]) with 1; lia). eexists. split; [done|]. cbv zeta.
  assert (length (take (Z.to_nat (tail p)) (buf p)) = Z.to_nat (tail p)) as Hlt
    by (rewrite length_take; unfold len in Hb; lia).
  split.
  - constructor; cbn [buf head tail]; [|done|apply Z.mod_pos_bound; done].
    rewrite !len_app, len_take, len_drop by (change (len [b]) with 1; lia). change (len [b]) with 1. lia.
  - unfold contents. cbn [buf head tail].
    assert (((tail p + 1) mod PIPE_BUF_SIZE - head p) mod PIPE_BUF_SIZE
      = (tail p - head p) mod PIPE_BUF_SIZE + 1) as ->
      by (unfold CAPACITY, PIPE_BUF_SIZE in *; Z.div_mod_to_equations; lia).
    pose proof (Z.mod_pos_bound (tail p - head p) PIPE_BUF_SIZE eq_refl) as Hn.
    set (n := (tail p - head p) mod PIPE_BUF_SIZE) in *.
    rewrite seqZ_app, fmap_app by lia. f_equal.
    + apply list_fmap_ext. intros i k Hk. apply lookup_seqZ in Hk as [-> Hk].
      assert ((head p + (0 + Z.of_nat i)) mod PIPE_BUF_SIZE <> tail p) as Hne
        by (subst n; unfold CAPACITY, PIPE_BUF_SIZE in *; Z.div_mod_to_equations; lia).
      pose proof (Z.mod_pos_bound (head p + (0 + Z.of_nat i)) PIPE_BUF_SIZE eq_refl).
      set (x := (head p + (0 + Z.of_nat i)) mod PIPE_BUF_SIZE) in *. f_equal.
      destruct (Z_lt_ge_dec x (tail p)).
      * rewrite lookup_app_l by lia. rewrite lookup_take_lt by lia. done.
      * rewrite lookup_app_r by lia. rewrite Hlt, lookup_app_r by (cbn; lia).
        rewrite lookup_drop. f_equal. cbn [length]. change (len [b]) with 1. lia.
    + change (seqZ (0 + n) 1) with [0 + n]. cbn [fmap list_fmap]. f_equal.
      assert ((head p + (0 + n)) mod PIPE_BUF_SIZE = tail p) as ->
        by (subst n; unfold PIPE_BUF_SIZE in *; Z.div_mod_to_equations; lia).
      rewrite lookup_app_r by lia. by rewrite Hlt, Nat.sub_diag.
Qed.

Lemma push_loop_spec bs : forall p w, pipe_ok p ->
  exists p', push_loop bs p w = Ret (p', w + Z.min (len bs) (CAPACITY - len (contents p)))
    /\ pipe_ok p'
    /\ abs p' = mkQueue (contents p ++ take (Z.to_nat (CAPACITY - len (contents p))) bs)
                  (read_fd p) (write_fd p) (nonblock p).
Proof.
  induction bs as [|b bs IH]; intros p w Hp; cbn [push_loop]; pose proof (contents_bound p Hp).
  - exists p. change (len (@nil Z)) with 0. rewrite Z.min_l, Z.add_0_r by lia.
    split; [done|]. split; [done|]. by rewrite take_nil, app_nil_r.
  - rewrite len_cons. pose proof (len_nonneg bs). destruct (Z.eqb_spec ((tail p + 1) mod PIPE_BUF_SIZE) (head p)) as [E|E].
    + apply full_iff in E as ->; [|done]. exists p. rewrite Z.sub_diag, Z.min_r, Z.add_0_r by lia.
      split; [done|]. split; [done|]. by rewrite app_nil_r.
    + assert (len (contents p) < CAPACITY) as Hlt by (rewrite full_iff in E by done; lia).
      destruct (push_one p b Hp Hlt) as (bf & -> & Hp' & Hc). cbn [mbind outcome_bind].
      destruct (IH _ (w + 1) Hp') as (p' & -> & Hok & Ha). exists p'.
      rewrite Hc, len_app in *. change (len [b]) with 1 in *. split; [f_equal; f_equal; lia|]. split; [done|].
      rewrite Ha. cbn [read_fd write_fd nonblock]. f_equal. rewrite <- app_assoc. f_equal.
      replace (Z.to_nat (CAPACITY - len (contents p)))
        with (S (Z.to_nat (CAPACITY - (len (contents p) + 1)))) by lia. done.
Qed.

Lemma pop_one p : pipe_ok p -> head p <> tail p ->
  exists b, index (buf p) (head p) = Ret b
    /\ let p' := mkPipe (buf p) ((head p + 1) mod PIPE_BUF_SIZE) (tail p) (read_fd p) (write_fd p) (nonblock p) in
       pipe_ok p' /\ contents p = b :: contents p'.
Proof.
  intros [Hb Hh Ht] Hne. destruct (lookup_lt_is_Some_2 (buf p) (Z.to_nat (head p))) as [b Eb];
    [unfold len in Hb; lia|].
  exists b. split; [unfold index; rewrite (proj2 (Z.leb_le _ _)) by lia; by rewrite Eb|]. cbv zeta. split.
  - constructor; cbn; [done|apply Z.mod_pos_bound; done|done].
  - unfold contents. cbn [buf head tail].
    assert ((tail p - (head p + 1) mod PIPE_BUF_SIZE) mod PIPE_BUF_SIZE
      = (tail p - head p) mod PIPE_BUF_SIZE - 1) as ->
      by (unfold PIPE_BUF_SIZE in *; Z.div_mod_to_equations; lia).
    assert (0 < (tail p - head p) mod PIPE_BUF_SIZE) as Hn
      by (unfold PIPE_BUF_SIZE in *; Z.div_mod_to_equations; lia).
    set (n := (tail p - head p) mod PIPE_BUF_SIZE) in *.
    rewrite (seqZ_cons 0) by lia. rewrite fmap_cons. f_equal.
    + rewrite Z.add_0_r, Z.mod_small by lia. by rewrite Eb.
    + change (Z.succ 0) with (1 + 0). rewrite <- (fmap_add_seqZ 1 0 (Z.pred n)). rewrite <- list_fmap_compose.
      change (n - 1) with (Z.pred n).
      apply list_fmap_ext. intros i k _. unfold compose. do 3 f_equal.
      rewrite Zplus_mod_idemp_l. f_equal. lia.
Qed.

Lemma pop_loop_spec fuel : forall count nread p, pipe_ok p -> nread <= count ->
  len (contents p) < Z.of_nat fuel ->
  exists p', pop_loop fuel count nread p = Ret (p', take (Z.to_nat (count - nread)) (contents p))
    /\ pipe_ok p'
    /\ abs p' = mkQueue (drop (Z.to_nat (count - nread)) (contents p)) (read_fd p) (write_fd p) (nonblock p).
Proof.
  induction fuel as [|fuel IH]; intros count nread p Hp Hc Hf; [pose proof (len_nonneg (contents p)); lia|].
  cbn [pop_loop]. destruct (Z.ltb_spec nread count) as [Hlt|Hge]; cbn [andb].
  - destruct (Z.eqb_spec (head p) (tail p)) as [E|E]; cbn [negb].
    + exists p. unfold abs. apply empty_iff in E as ->; [|done]. by rewrite take_nil, drop_nil.
    + destruct (pop_one p Hp E) as (b & -> & Hp' & Hcon). rewrite Hcon, len_cons in *.
      cbn [mbind outcome_bind]. destruct (IH count (nread + 1) _ Hp') as (p' & -> & Hok & Ha); [lia|lia|].
      exists p'. cbn [mbind outcome_bind fst snd].
      replace (Z.to_nat (count - nread)) with (S (Z.to_nat (count - (nread + 1)))) by lia. done.
  - exists p. replace (Z.to_nat (count - nread)) with 0%nat by lia. by rewrite take_0, drop_0.
Qed.

Lemma set_pipe_ok i p st : pstate_ok st -> pipe_ok p -> pstate_ok (set_pipe i p st).
Proof.
  intros [Hl Hf] Hp. constructor; cbn; [by rewrite length_insert|]. by apply Forall_insert.
Qed.

Lemma find_ok {P : Pipe -> Prop} `{forall p, Decision (P p)} st i p :
  pstate_ok st -> list_find P (pipes st) = Some (i, p) -> pipe_ok p.
Proof.
  intros [_ Hf] (Hi & _)%list_find_Some. by eapply Forall_lookup_1.
Qed.

(** A search in the array is the search among the queues. *)
Lemma find_abs (P : Pipe -> Prop) (Q : queue -> Prop) `{!forall p, Decision (P p)} `{!forall q, Decision (Q q)} l :
  (forall p, P p <-> Q (abs p)) ->
  list_find Q (abs <$> l) = prod_map id abs <$> list_find P l.
Proof.
  intros HPQ. rewrite list_find_fmap. f_equal. apply list_find_ext. intros p. symmetry. apply HPQ.
Qed.

(** Searching for the pipe just stored, when no other pipe matches. *)
Lemma find_stored (P : Pipe -> Prop) `{!forall p, Decision (P p)} l i p :
  (i < length l)%nat -> P p -> (forall j q, j <> i -> l !! j = Some q -> ~ P q) ->
  list_find P (<[i := p]> l) = Some (i, p).
Proof.
  intros Hi Hp Hn. apply list_find_Some. split; [by apply list_lookup_insert_eq|]. split; [done|].
  intros j q Hj Hlt. rewrite list_lookup_insert_ne in Hj by lia. apply (Hn j); [lia|done].
Qed.

Lemma has_data_stored fd st i p :
  (i < length (pipes st))%nat -> read_fd p = fd ->
  (forall j q, j <> i -> pipes st !! j = Some q -> read_fd q <> fd) ->
  has_data fd (set_pipe i p st) = negb (is_empty p).
Proof.
  intros Hi Hp Hn. unfold has_data. apply eq_true_iff_eq. rewrite existsb_exists. split.
  - intros (q & Hq & Hd). apply list_elem_of_In, list_elem_of_lookup in Hq as [j Hj].
    apply andb_true_iff in Hd as [Hd1 Hd2]. apply Z.eqb_eq in Hd1. cbn in Hj.
    apply list_lookup_insert_Some in Hj as [(_ & <- & _)|(Hne & Hj)]; [done|]. by destruct (Hn j q).
  - intros Hd. exists p. split; [|rewrite Hd, (proj2 (Z.eqb_eq _ _)) by done; done].
    apply list_elem_of_In, list_elem_of_lookup. exists i. by apply list_lookup_insert_eq.
Qed.

(** ** Properties *)

Section Props.
Context {M : Type} {wf : M -> Prop} `{!UserMem M} `{!UserMemLaws M wf}.

Definition pargs_ok (o : pop) : bool :=
  match o with
  | PWrite _ a c | PRead _ a c => (0 <=? a) && (0 <=? c)
  | _ => true
  end.

(** C15.  The ring buffers implement bounded first-in first-out queues: on every
    call, with every argument and user memory, the implementation returns (it
    neither panics nor loops), keeps the cursors in range, and does what the
    queue specification does: a write appends the bytes that fit in 4095, a read
    removes the oldest bytes and delivers them in order, with the same
    descriptors, user memory and return value. *)
Theorem pipes_refine_queues o st m :
  pstate_ok st -> wf m -> pargs_ok o = true ->
  exists st' m' r, pstep o st m = Ret (st', m', r) /\ pstate_ok st'
    /\ qstep o (abs <$> pipes st) (next_pipe_fd st) m = (abs <$> pipes st', next_pipe_fd st', m', r).
Proof.
  intros Hst Hm Ha. destruct o as [|fd a c|fd a c|fd nb|fd]; cbn [pstep qstep pargs_ok] in *; zb.
  - unfold create. cbn [pipes]. rewrite (find_abs (fun p => read_fd p = -1) (fun q => q_rfd q = -1)) by done.
    destruct (list_find _ (pipes st)) as [[i p]|]; cbn [fmap option_fmap option_map prod_map fst snd id].
    + eexists _, _, _. split; [done|]. split; [apply set_pipe_ok; [by destruct Hst|]|].
      * by destruct empty_ok.
      * cbn [pipes next_pipe_fd set_pipe]. by rewrite list_fmap_insert.
    + eexists _, _, _. split; [done|]. split; [by destruct Hst|done].
  - unfold write. rewrite (find_abs (fun p => write_fd p = fd) (fun q => q_wfd q = fd)) by done.
    destruct (list_find _ (pipes st)) as [[i p]|] eqn:Ef; cbn [fmap option_fmap option_map prod_map fst snd id];
      [|by eexists _, _, _].
    destruct (um_in m a c) as [bs|]; [|by eexists _, _, _].
    destruct (push_loop_spec bs p 0) as (p' & -> & Hok & Hp); [by eapply find_ok|].
    cbn [mbind outcome_bind fst snd]. eexists _, _, _. split; [done|].
    split; [by apply set_pipe_ok|]. cbn [pipes next_pipe_fd set_pipe]. by rewrite list_fmap_insert, Hp.
  - unfold read. rewrite (find_abs (fun p => read_fd p = fd) (fun q => q_rfd q = fd)) by done.
    destruct (list_find _ (pipes st)) as [[i p]|] eqn:Ef; cbn [fmap option_fmap option_map prod_map fst snd id];
      [|by eexists _, _, _].
    assert (pipe_ok p) as Hp by (by eapply find_ok). cbn [abs q_data q_wfd q_nb q_rfd].
    unfold is_empty. destruct (Z.eqb_spec (head p) (tail p)) as [E|E]; cbn [negb].
    + apply empty_iff in E as ->; [|done]. eexists _, _, _. split; [|done].
      destruct (write_fd p =? -1); [done|]. by destruct (nonblock p).
    + rewrite (empty_iff p) in E by done. destruct (contents p) as [|b bs] eqn:Ec; [done|]. rewrite <- Ec in *.
      destruct (um_in m a c) as [ds|] eqn:Ei; [|by eexists _, _, _].
      pose proof (contents_bound p Hp) as Hcb.
      destruct (pop_loop_spec (S (Z.to_nat PIPE_BUF_SIZE)) c 0 p) as (p' & -> & Hok & Hq);
        [done|lia|unfold CAPACITY in *; lia|].
      rewrite Z.sub_0_r in *. cbn [mbind outcome_bind fst snd].
      assert (is_Some (um_out m a (take (Z.to_nat c) (contents p)))) as [m' ->].
      { apply (um_out_in m); [done|lia|]. apply (um_in_prefix m a c); [done|lia| |by eexists].
        rewrite len_take by lia. pose proof (len_nonneg (contents p)). lia. }
      eexists _, _, _. split; [done|]. split; [by apply set_pipe_ok|].
      cbn [pipes next_pipe_fd set_pipe]. rewrite list_fmap_insert, Hq, len_take by lia. done.
  - unfold set_nonblock. rewrite (find_abs (fun p => read_fd p = fd \/ write_fd p = fd) (fun q => q_rfd q = fd \/ q_wfd q = fd)) by done.
    destruct (list_find _ (pipes st)) as [[i p]|] eqn:Ef; cbn [fmap option_fmap option_map prod_map fst snd id];
      [|by eexists _, _, _].
    eexists _, _, _. split; [done|]. apply find_ok in Ef as [Hb Hh Ht]; [|done].
    split; [by apply set_pipe_ok|]. cbn [pipes next_pipe_fd set_pipe]. by rewrite list_fmap_insert.
  - eexists _, _, _. split; [done|]. destruct Hst as [Hl Hf]. split.
    + constructor; cbn; [by rewrite length_map|]. apply Forall_fmap. eapply Forall_impl; [done|].
      intros p Hp. unfold compose, close_pipe. case_match; [|done]. case_match; [apply empty_ok|by destruct Hp].
    + cbn [pipes close next_pipe_fd]. rewrite <- !list_fmap_compose. do 3 f_equal.
      apply list_fmap_ext. intros i p _. unfold compose, close_pipe. cbn.
      case_match; [|done]. by case_match.
Qed.

End Props.

(** Descriptor numbers: while fewer than 2^30 pipes have been created, the
    descriptors a creation returns are new (no live end has them), and if a slot
    is free they name the new pipe: a write to the write end followed by a read
    of the read end transfers up to 4095 bytes unchanged. *)
Theorem pipe_create_transfer {M : Type} {wf : M -> Prop} `{!UserMem M} `{!UserMemLaws M wf}
    st st1 rfd wfd i p (m : M) src dst count bs :
  pstate_ok st -> wf m -> 0 <= src -> 0 <= dst ->
  Forall (fun p => read_fd p < next_pipe_fd st /\ write_fd p < next_pipe_fd st) (pipes st) ->
  200 <= next_pipe_fd st < 2 ^ 31 - 2 ->
  list_find (fun p => read_fd p = -1) (pipes st) = Some (i, p) ->
  create st = (st1, (rfd, wfd)) ->
  um_in m src count = Some bs -> 0 < count <= CAPACITY -> is_Some (um_in m dst count) ->
  is_pipe_fd rfd st = false /\ is_pipe_fd wfd st = false
  /\ exists st2 st3 m2, write wfd src count st1 m = Ret (st2, m, count)
    /\ has_data rfd st2 = true
    /\ read rfd dst count st2 m = Ret (st3, m2, count) /\ um_in m2 dst count = Some bs
    /\ has_data rfd st3 = false.
Proof.
  intros Hst Hm Hs Hd Hfd Hn Hf Hc Hin Hcount Hout.
  assert (0 <= count) as Hc0 by lia. pose proof (um_in_len m src count bs Hm Hs Hc0 Hin) as Hbs.
  unfold create in Hc. cbn [pipes] in Hc. rewrite Hf in Hc.
  rewrite !u64_small, !i32_small in Hc by lia. injection Hc as <- <- <-.
  set (n := next_pipe_fd st) in *. set (new := mkPipe _ _ _ _ _ _).
  assert (forall j q, pipes st !! j = Some q -> read_fd q < n /\ write_fd q < n) as Hlt
    by (intros j q Hj; by eapply (Forall_lookup_1 _ _ _ _ Hfd)).
  assert (forall fd, n <= fd -> is_pipe_fd fd st = false) as Hnone.
  { intros fd Hfd'. apply not_true_is_false. unfold is_pipe_fd. rewrite existsb_exists.
    intros (q & Hq & Hb). apply list_elem_of_In, list_elem_of_lookup in Hq as [j Hj].
    specialize (Hlt j q Hj). apply orb_true_iff in Hb as [Hb|Hb]; zb; lia. }
  split; [by apply Hnone|]. split; [apply Hnone; lia|].
  assert (i < length (pipes st))%nat as Hi
    by (apply list_find_Some in Hf as (Hi & _); by eapply lookup_lt_Some).
  assert (pipe_ok new) as Hnew by by destruct empty_ok.
  assert (contents new = []) as Hcn by by apply empty_iff.
  (* the write *)
  unfold write. cbn [pipes set_pipe].
  rewrite (find_stored (fun p => write_fd p = n + 1)); [|done|done|intros j q _ Hj; specialize (Hlt j q Hj); lia].
  rewrite Hin. destruct (push_loop_spec bs new 0 Hnew) as (p2 & -> & Hok2 & Ha2).
  rewrite Hcn, Z.min_l, take_ge in * by (unfold len, CAPACITY, PIPE_BUF_SIZE in *; cbn; lia).
  cbn [mbind outcome_bind fst snd app] in *. rewrite Hbs, Z.add_0_l.
  injection Ha2 as Hc2 Hr2 Hw2 Hnb2. cbn in Hr2.
  (* the read *)
  set (st2 := set_pipe i p2 _). exists st2.
  assert (forall j q, j <> i -> (<[i := new]> (pipes st)) !! j = Some q -> read_fd q <> n) as Hoth.
  { intros j q Hj Hq. rewrite list_lookup_insert_ne in Hq by done. specialize (Hlt j q Hq). lia. }
  assert (is_empty p2 = false) as He2.
  { apply Z.eqb_neq. rewrite empty_iff by done. intros E. rewrite E in Hc2. subst bs.
    change (len (@nil Z)) with 0 in Hbs. lia. }
  unfold read. cbn [pipes set_pipe st2].
  rewrite (find_stored (fun p => read_fd p = n)); [|by rewrite length_insert|done|done]. rewrite He2. cbn [negb].
  pose proof Hout as [ds Hds]. rewrite Hds.
  destruct (pop_loop_spec (S (Z.to_nat PIPE_BUF_SIZE)) count 0 p2 Hok2) as (p3 & -> & Hok3 & Ha3);
    [lia|rewrite Hc2; unfold CAPACITY in *; lia|].
  rewrite Hc2, Z.sub_0_r, take_ge, drop_ge in * by (unfold len in *; lia). cbn [mbind outcome_bind fst snd].
  rewrite <- Hbs in Hout. apply (um_out_in m dst bs Hm Hd) in Hout as [m2 Ho]. rewrite Ho, Hbs.
  injection Ha3 as Hc3 Hr3 _ _. eexists _, m2.
  split; [done|]. split; [subst st2; rewrite has_data_stored; [by rewrite He2|cbn; by rewrite length_insert|done|done]|].
  split; [done|]. split; [rewrite <- Hbs; by eapply um_in_out|].
  rewrite has_data_stored; [|cbn; by rewrite !length_insert|by rewrite Hr3|].
  - apply negb_false_iff, Z.eqb_eq, empty_iff; [done|]. exact Hc3.
  - intros j q Hj Hq. cbn in Hq. rewrite list_lookup_insert_ne in Hq by done. by apply (Hoth j).
Qed.

(** ** Witnesses *)

#[local] Existing Instance ua_layout.
#[local] Existing Instance ua_layout_ok.

Lemma pipe_boot_ok : pstate_ok pipe_boot.
Proof. constructor; [done|]. cbn [pipes pipe_boot]. apply Forall_replicate, empty_ok. Qed.

Lemma pipes_refine_queues_witness :
  exists st' m' r, pstep PCreate pipe_boot demo_machine = Ret (st', m', r) /\ pstate_ok st'
    /\ qstep PCreate (abs <$> pipes pipe_boot) 200 demo_machine
       = (abs <$> pipes st', next_pipe_fd st', m', r).
Proof.
  apply (pipes_refine_queues (wf := wf_machine) PCreate pipe_boot demo_machine);
    [apply pipe_boot_ok|apply demo_machine_wf|done].
Defined.

Lemma pipe_create_transfer_witness :
  exists st1 st2 st3 m2, create pipe_boot = (st1, (200, 201))
    /\ write 201 0x500000 2 st1 demo_machine = Ret (st2, demo_machine, 2)
    /\ has_data 200 st2 = true
    /\ read 200 0x600000 2 st2 demo_machine = Ret (st3, m2, 2) /\ um_in m2 0x600000 2 = Some [65; 66].
Proof.
  destruct (pipe_create_transfer (wf := wf_machine) pipe_boot (fst (create pipe_boot)) 200 201 0 empty demo_machine
    0x500000 0x600000 2 [65; 66] pipe_boot_ok demo_machine_wf)
    as (_ & _ & st2 & st3 & m2 & W1 & W2 & W3 & W4 & _).
  - lia.
  - lia.
  - cbn [pipes pipe_boot]. apply Forall_replicate. done.
  - cbn. lia.
  - reflexivity.
  - reflexivity.
  - vm_compute. reflexivity.
  - by vm_compute.
  - vm_compute. by eexists.
  - eexists _, st2, st3, m2. split; [reflexivity|]. auto.
Defined.
