(* ===== verification/Rtc.v ===== *)
(** * The real-time clock

    [rtc_pure.rs] (decoding of CMOS registers into Unix seconds) and the reading
    protocol of [rtc.rs].  The CMOS chip is not part of the kernel: a register
    read is an argument that maps the chip's state to a byte and a next state. *)

From S2P Require Import Prelude.

Record RawFields := mkRaw {
  sec : Z; min : Z; hour : Z; day : Z; mon : Z; year : Z; cent : Z;
}.
#[export] Instance RawFields_eq_dec : EqDecision RawFields.
Proof. solve_decision. Defined.

(** ** Decoding *)

Definition dec_field (v : Z) (is_bcd : bool) : Z :=
  if is_bcd then Z.land v 0x0F + Z.land (Z.shiftr v 4) 0x0F * 10 else v.

Definition is_leap (y : Z) : bool :=
  ((y mod 4 =? 0) && negb (y mod 100 =? 0)) || (y mod 400 =? 0).

Definition MDAYS : list Z := [31; 28; 31; 30; 31; 30; 31; 31; 30; 31; 30; 31].

Fixpoint years_loop (fuel : nat) (y yr days : Z) : outcome Z :=
  if y <? yr then
    match fuel with
    | O => Panic
    | S fuel' => years_loop fuel' (y + 1) yr (days ⊞ if is_leap y then 366 else 365)
    end
  else Ret days.

Fixpoint months_loop (fuel : nat) (m month yr days : Z) : outcome Z :=
  if m <? month then
    match fuel with
    | O => Panic
    | S fuel' =>
        md ← index MDAYS (m - 1);
        let days := days ⊞ md in
        let days := if (m =? 2) && is_leap yr then days ⊞ 1 else days in
        months_loop fuel' (m + 1) month yr days
    end
  else Ret days.

Definition days_since_epoch (yr month dy : Z) : outcome Z :=
  days ← years_loop (Z.to_nat (yr - 1970)) 1970 yr 0;
  days ← months_loop (Z.to_nat (month - 1)) 1 month yr days;
  Ret (days ⊞ (dy ⊟ 1)).

Definition between (lo hi x : Z) : bool := (lo <=? x) && (x <=? hi).

Definition decode (raw : RawFields) (status_b : Z) : outcome (option Z) :=
  let is_bcd := Z.land status_b 0x04 =? 0 in
  let is_12h := Z.land status_b 0x02 =? 0 in
  let sec_ := dec_field (sec raw) is_bcd in
  let min_ := dec_field (min raw) is_bcd in
  let hour_ :=
    if is_12h then
      let pm := negb (Z.land (hour raw) 0x80 =? 0) in
      let h := dec_field (Z.land (hour raw) 0x7F) is_bcd in
      if pm then h mod 12 + 12 else h mod 12
    else dec_field (hour raw) is_bcd in
  let day_ := dec_field (day raw) is_bcd in
  let mon_ := dec_field (mon raw) is_bcd in
  let yy := dec_field (year raw) is_bcd in
  let cent_ := dec_field (cent raw) is_bcd in
  let year_ := if between 19 21 cent_ then cent_ * 100 + yy else 2000 + yy in
  if negb (between 1 12 mon_) || negb (between 1 31 day_) || (hour_ >? 23) || (min_ >? 59)
     || (sec_ >? 60) || negb (between 2020 2100 year_)
  then Ret None
  else
    days ← days_since_epoch year_ mon_ day_;
    Ret (Some (days ⊠ 86400 ⊞ hour_ ⊠ 3600 ⊞ min_ ⊠ 60 ⊞ sec_)).

(** ** Reading the chip *)

Section Chip.
Context {C : Type} (cmos_read : Z -> C -> Z * C).

Definition update_in_progress (c : C) : bool * C :=
  let '(a, c) := cmos_read 0x0A c in (negb (Z.land a 0x80 =? 0), c).

Definition read_raw (c : C) : RawFields * C :=
  let '(s, c) := cmos_read 0x00 c in
  let '(mi, c) := cmos_read 0x02 c in
  let '(h, c) := cmos_read 0x04 c in
  let '(d, c) := cmos_read 0x07 c in
  let '(mo, c) := cmos_read 0x08 c in
  let '(y, c) := cmos_read 0x09 c in
  let '(ce, c) := cmos_read 0x32 c in
  (mkRaw s mi h d mo y ce, c).

(** [while update_in_progress() {}]: spins for as long as the chip says so. *)
Fixpoint wait_stable (fuel : nat) (c : C) : outcome C :=
  match fuel with
  | O => Panic
  | S fuel' =>
      let '(uip, c) := update_in_progress c in
      if uip then wait_stable fuel' c else Ret c
  end.

(** The re-read loop: at most [n] more snapshots, stopping when two agree. *)
Fixpoint settle (n spin : nat) (last : RawFields) (c : C) : outcome (RawFields * C) :=
  match n with
  | O => Ret (last, c)
  | S n' =>
      c ← wait_stable spin c;
      let '(cur, c) := read_raw c in
      if bool_decide (cur = last) then Ret (last, c) else settle n' spin cur c
  end.

Definition read_rtc_unix_secs (spin : nat) (c : C) : outcome (option Z * C) :=
  c ← wait_stable spin c;
  let '(last, c) := read_raw c in
  lc ← settle 10 spin last c;
  let '(status_b, c) := cmos_read 0x0B (snd lc) in
  t ← decode (fst lc) status_b;
  Ret (t, c).

End Chip.

(** ** Specification: the Gregorian calendar *)

Record date := mkDate { d_year : Z; d_month : Z; d_day : Z }.

Definition month_len (y m : Z) : Z :=
  if m =? 2 then (if is_leap y then 29 else 28)
  else if bool_decide (m ∈ [4; 6; 9; 11]) then 30 else 31.

Definition date_ok (d : date) : bool :=
  (1970 <=? d_year d) && between 1 12 (d_month d) && between 1 (month_len (d_year d) (d_month d)) (d_day d).

Definition tomorrow (d : date) : date :=
  if d_day d <? month_len (d_year d) (d_month d) then mkDate (d_year d) (d_month d) (d_day d + 1)
  else if d_month d <? 12 then mkDate (d_year d) (d_month d + 1) 1
  else mkDate (d_year d + 1) 1 1.

(** The date [n] days after 1970-01-01. *)
Fixpoint date_after (n : nat) : date :=
  match n with O => mkDate 1970 1 1 | S n' => tomorrow (date_after n') end.

(** Register contents for a time of day and a date, in each of the chip's modes. *)
Definition enc_field (x : Z) (is_bcd : bool) : Z :=
  if is_bcd then x / 10 * 16 + x mod 10 else x.
Definition enc_hour (h : Z) (is_bcd is_12h : bool) : Z :=
  if is_12h then
    enc_field (if h mod 12 =? 0 then 12 else h mod 12) is_bcd + (if h >=? 12 then 128 else 0)
  else enc_field h is_bcd.
Definition enc_raw (d : date) (h mi s : Z) (is_bcd is_12h : bool) : RawFields :=
  mkRaw (enc_field s is_bcd) (enc_field mi is_bcd) (enc_hour h is_bcd is_12h)
    (enc_field (d_day d) is_bcd) (enc_field (d_month d) is_bcd)
    (enc_field (d_year d mod 100) is_bcd) (enc_field (d_year d / 100) is_bcd).
Definition status (is_bcd is_12h : bool) : Z :=
  (if is_bcd then 0 else 4) + (if is_12h then 0 else 2).

(** ** Lemmas *)

(** Days from year 1 to the start of year [y]. *)
Definition year_start (y : Z) : Z := 365 * (y - 1) + (y - 1) / 4 - (y - 1) / 100 + (y - 1) / 400.
(** Days before month [k + 1] of year [y]. *)
Fixpoint month_start (y : Z) (k : nat) : Z :=
  match k with O => 0 | S k' => month_start y k' + month_len y (Z.of_nat k) end.
Definition day_number (d : date) : Z :=
  year_start (d_year d) - year_start 1970 + month_start (d_year d) (Z.to_nat (d_month d - 1)) + (d_day d - 1).

Lemma year_start_next y : year_start (y + 1) = year_start y + (if is_leap y then 366 else 365).
Proof.
  unfold year_start. replace (y + 1 - 1) with y by lia.
  rewrite (div_pred y 4), (div_pred y 100), (div_pred y 400) by lia. unfold is_leap.
  assert (y mod 400 = 0 -> y mod 100 = 0) by (intros; Z.div_mod_to_equations; lia).
  assert (y mod 100 = 0 -> y mod 4 = 0) by (intros; Z.div_mod_to_equations; lia).
  destruct (Z.eqb_spec (y mod 4) 0), (Z.eqb_spec (y mod 100) 0), (Z.eqb_spec (y mod 400) 0); cbn; lia.
Qed.

Lemma year_start_mono y z : y <= z -> year_start y + 365 * (z - y) <= year_start z.
Proof.
  intros Hyz. replace z with (y + Z.of_nat (Z.to_nat (z - y))) by lia.
  induction (Z.to_nat (z - y)) as [|n IH]; [rewrite Z.add_0_r; lia|].
  replace (y + Z.of_nat (S n)) with (y + Z.of_nat n + 1) by lia. rewrite year_start_next.
  case_match; lia.
Qed.

Lemma years_loop_spec fuel : forall y yr days,
  yr - y <= Z.of_nat fuel -> y <= yr -> 0 <= days -> days + (year_start yr - year_start y) < 2 ^ 64 ->
  years_loop fuel y yr days = Ret (days + (year_start yr - year_start y)).
Proof.
  induction fuel as [|fuel IH]; intros y yr days Hf Hy Hd Hb; cbn [years_loop].
  - replace yr with y by lia. rewrite Z.ltb_irrefl. f_equal. lia.
  - destruct (Z.ltb_spec y yr); [|replace yr with y by lia; f_equal; lia].
    pose proof (year_start_mono (y + 1) yr ltac:(lia)). pose proof (year_start_next y) as Hn.
    destruct (is_leap y); rewrite u64_small, IH by lia; f_equal; lia.
Qed.

Lemma month_len_bounds y m : 28 <= month_len y m <= 31.
Proof. unfold month_len. repeat case_match; lia. Qed.

Lemma month_len_table y m : 1 <= m <= 12 ->
  exists md, index MDAYS (m - 1) = Ret md /\ month_len y m = md + (if (m =? 2) && is_leap y then 1 else 0).
Proof.
  intros Hm. assert (m ∈ seqZ 1 12) as Hin by (apply elem_of_seqZ; lia).
  change (seqZ 1 12) with [1; 2; 3; 4; 5; 6; 7; 8; 9; 10; 11; 12] in Hin.
  repeat (apply elem_of_cons in Hin as [->|Hin]; 
    [eexists; split; [reflexivity|]; unfold month_len; by destruct (is_leap y)|]).
  by apply not_elem_of_nil in Hin.
Qed.

Lemma month_start_mono y j k : (j <= k)%nat -> month_start y j + 28 * Z.of_nat (k - j) <= month_start y k.
Proof.
  intros Hjk. replace k with (j + (k - j))%nat at 2 by lia.
  induction (k - j)%nat as [|n IH]; [rewrite Nat.add_0_r; lia|].
  rewrite Nat.add_succ_r. cbn [month_start]. pose proof (month_len_bounds y (Z.of_nat (S (j + n)))). lia.
Qed.

Lemma month_start_nonneg y k : 0 <= month_start y k <= 31 * Z.of_nat k.
Proof.
  induction k as [|k IH]; [done|]. cbn [month_start]. pose proof (month_len_bounds y (Z.of_nat (S k))). lia.
Qed.

Lemma months_loop_spec fuel : forall m month yr days,
  month - m <= Z.of_nat fuel -> 1 <= m <= month -> month <= 12 -> 0 <= days < 2 ^ 63 - 31 * (month - m) ->
  months_loop fuel m month yr days
  = Ret (days + (month_start yr (Z.to_nat (month - 1)) - month_start yr (Z.to_nat (m - 1)))).
Proof.
  induction fuel as [|fuel IH]; intros m month yr days Hf Hm Hmo Hd; cbn [months_loop].
  - replace month with m by lia. rewrite Z.ltb_irrefl. f_equal. lia.
  - destruct (Z.ltb_spec m month); [|replace month with m by lia; f_equal; lia].
    destruct (month_len_table yr m) as (md & -> & Hml); [lia|]. cbn [mbind outcome_bind].
    pose proof (month_len_bounds yr m).
    assert (month_start yr (Z.to_nat (m + 1 - 1)) = month_start yr (Z.to_nat (m - 1)) + month_len yr m) as Hs.
    { replace (Z.to_nat (m + 1 - 1)) with (S (Z.to_nat (m - 1))) by lia. cbn [month_start]. do 2 f_equal. lia. }
    revert Hml. destruct (_ && _); intros Hml; rewrite (u64_small (days + md)) by lia; rewrite ?u64_small by lia; rewrite IH by lia; f_equal; lia.
Qed.

Lemma days_since_epoch_spec yr month dy :
  1970 <= yr <= 2 ^ 32 -> 1 <= month <= 12 -> 1 <= dy <= 31 ->
  days_since_epoch yr month dy = Ret (day_number (mkDate yr month dy))
  /\ 0 <= day_number (mkDate yr month dy) < 366 * (yr - 1969) + 50.
Proof.
  intros Hy Hm Hd. pose proof (year_start_mono 1970 yr ltac:(lia)).
  assert (year_start yr - year_start 1970 <= 366 * (yr - 1970)).
  { unfold year_start. Z.div_mod_to_equations. lia. }
  pose proof (month_start_nonneg yr (Z.to_nat (month - 1))).
  unfold days_since_epoch, day_number. cbn [d_year d_month d_day].
  rewrite years_loop_spec by lia. cbn [mbind outcome_bind].
  rewrite months_loop_spec by lia. cbn [mbind outcome_bind].
  change (month_start yr (Z.to_nat (1 - 1))) with 0. rewrite (u64_small (dy - 1)), u64_small by lia. split; [f_equal; lia|lia].
Qed.

Lemma month_start_year y : month_start y 12 = if is_leap y then 366 else 365.
Proof. cbn [month_start]. unfold month_len. by destruct (is_leap y). Qed.

Lemma tomorrow_ok d : date_ok d = true ->
  date_ok (tomorrow d) = true /\ day_number (tomorrow d) = day_number d + 1.
Proof.
  destruct d as [y m dd]. unfold date_ok, between, tomorrow, day_number. cbn [d_year d_month d_day].
  intros Hd. zb. destruct (Z.ltb_spec dd (month_len y m)); cbn [d_year d_month d_day].
  - split; [repeat (apply andb_true_iff; split); apply Z.leb_le; lia|lia].
  - destruct (Z.ltb_spec m 12); cbn [d_year d_month d_day].
    + pose proof (month_len_bounds y (m + 1)).
      split; [repeat (apply andb_true_iff; split); apply Z.leb_le; lia|].
      replace (Z.to_nat (m + 1 - 1)) with (S (Z.to_nat (m - 1))) by lia. cbn [month_start].
      replace (Z.of_nat (S (Z.to_nat (m - 1)))) with m by lia. lia.
    + pose proof (month_len_bounds (y + 1) 1). replace m with 12 in * by lia.
      split; [repeat (apply andb_true_iff; split); apply Z.leb_le; lia|].
      pose proof (month_start_year y) as Hy. rewrite year_start_next.
      change (month_start y 12) with (month_start y 11 + month_len y 12) in Hy.
      change (Z.to_nat (12 - 1)) with 11%nat. change (Z.to_nat (1 - 1)) with 0%nat.
      cbn [month_start] in *. destruct (is_leap y); lia.
Qed.

Lemma date_after_ok n : date_ok (date_after n) = true /\ day_number (date_after n) = Z.of_nat n.
Proof.
  induction n as [|n [IH1 IH2]]; [done|]. cbn [date_after].
  destruct (tomorrow_ok _ IH1) as [-> ->]. split; [done|]. rewrite IH2. lia.
Qed.

(** Different dates have different numbers. *)
Lemma day_number_inj d e :
  date_ok d = true -> date_ok e = true -> day_number d = day_number e -> d = e.
Proof.
  destruct d as [y m dd], e as [z k ee]. unfold date_ok, between, day_number. cbn [d_year d_month d_day].
  intros Hd He E. zb.
  assert (forall y m d, 1 <= m <= 12 -> 1 <= d <= month_len y m ->
    0 <= month_start y (Z.to_nat (m - 1)) + (d - 1) < year_start (y + 1) - year_start y) as Hin.
  { intros y' m' d' Hm' Hd'. rewrite year_start_next.
    pose proof (month_start_mono y' (Z.to_nat m') 12 ltac:(lia)) as Hmm.
    rewrite month_start_year in Hmm. pose proof (month_start_nonneg y' (Z.to_nat (m' - 1))).
    replace (Z.to_nat m') with (S (Z.to_nat (m' - 1))) in Hmm by lia. cbn [month_start] in Hmm.
    replace (Z.of_nat (S (Z.to_nat (m' - 1)))) with m' in Hmm by lia. destruct (is_leap y'); lia. }
  pose proof (Hin y m dd ltac:(lia) ltac:(lia)). pose proof (Hin z k ee ltac:(lia) ltac:(lia)).
  assert (y = z) as ->.
  { destruct (Z.lt_trichotomy y z) as [Hlt|[?|Hlt]]; [|done|].
    - pose proof (year_start_mono (y + 1) z ltac:(lia)). lia.
    - pose proof (year_start_mono (z + 1) y ltac:(lia)). lia. }
  assert (forall m k d e, 1 <= m -> m < k -> 1 <= d <= month_len z m -> 1 <= e ->
    month_start z (Z.to_nat (m - 1)) + (d - 1) < month_start z (Z.to_nat (k - 1)) + (e - 1)) as Hlt.
  { intros m' k' d' e' Hm' Hmk Hd' He'.
    pose proof (month_start_mono z (S (Z.to_nat (m' - 1))) (Z.to_nat (k' - 1)) ltac:(lia)) as Hmm.
    cbn [month_start] in Hmm. replace (Z.of_nat (S (Z.to_nat (m' - 1)))) with m' in Hmm by lia. lia. }
  assert (m = k) as ->.
  { destruct (Z.lt_trichotomy m k) as [Hmk|[?|Hmk]]; [|done|].
    - specialize (Hlt m k dd ee). lia.
    - specialize (Hlt k m ee dd). lia. }
  f_equal. lia.
Qed.

(** *** Register encodings *)
Lemma dec_enc x b : 0 <= x < 100 -> dec_field (enc_field x b) b = x.
Proof.
  intros Hx. destruct b; [|done]. unfold dec_field, enc_field.
  change 15 with (Z.ones 4). rewrite !Z.land_ones, Z.shiftr_div_pow2 by lia.
  change (2 ^ 4) with 16. Z.div_mod_to_equations. lia.
Qed.

Lemma dec_hour (h : Z) (b t : bool) : 0 <= h <= 23 ->
  (if t then
     let pm := negb (Z.land (enc_hour h b t) 0x80 =? 0) in
     let x := dec_field (Z.land (enc_hour h b t) 0x7F) b in
     if pm then x mod 12 + 12 else x mod 12
   else dec_field (enc_hour h b t) b) = h.
Proof.
  intros Hh. destruct t; [|apply dec_enc; lia].
  assert (forallb (fun h => (if negb (Z.land (enc_hour h b true) 0x80 =? 0)
      then dec_field (Z.land (enc_hour h b true) 0x7F) b mod 12 + 12
      else dec_field (Z.land (enc_hour h b true) 0x7F) b mod 12) =? h) (seqZ 0 24) = true) as Hall
    by (destruct b; vm_compute; reflexivity).
  rewrite forallb_forall in Hall. apply Z.eqb_eq, Hall, list_elem_of_In, elem_of_seqZ. lia.
Qed.

(** The decoded time of day and date, for every mode of the chip. *)
Lemma decode_enc d h mi s b t :
  date_ok d = true -> 2020 <= d_year d <= 2100 -> 0 <= h <= 23 -> 0 <= mi <= 59 -> 0 <= s <= 60 ->
  decode (enc_raw d h mi s b t) (status b t)
  = Ret (Some (day_number d * 86400 + h * 3600 + mi * 60 + s)).
Proof.
  intros Hd Hy Hh Hmi Hs. unfold decode. destruct d as [y m dd].
  unfold date_ok, between in Hd. cbn [d_year d_month d_day] in *. zb. pose proof (month_len_bounds y m).
  assert ((Z.land (status b t) 4 =? 0) = b) as -> by (by destruct b, t).
  assert ((Z.land (status b t) 2 =? 0) = t) as -> by (by destruct b, t).
  cbn [enc_raw sec min hour day mon year cent d_year d_month d_day].
  rewrite dec_hour by lia. rewrite !dec_enc by (Z.div_mod_to_equations; lia).
  assert (between 19 21 (y / 100) = true) as ->
    by (unfold between; apply andb_true_iff; split; apply Z.leb_le; Z.div_mod_to_equations; lia).
  replace (y / 100 * 100 + y mod 100) with y by (pose proof (Z.div_mod y 100); lia).
  destruct (days_since_epoch_spec y m dd) as [E Hb]; [lia..|].
  unfold between. rewrite !Z.gtb_ltb.
  rewrite !(proj2 (Z.leb_le _ _)), !(proj2 (Z.ltb_ge _ _)) by lia. cbn [negb andb orb].
  rewrite E. cbn [mbind outcome_bind]. set (n := day_number _) in *.
  rewrite (u64_small (n * 86400)), (u64_small (h * 3600)), (u64_small (mi * 60)) by lia.
  rewrite (u64_small (_ + h * 3600)) by lia. rewrite (u64_small (_ + mi * 60)) by lia.
  by rewrite u64_small by lia.
Qed.

(** *** A chip that shows fixed registers *)

Section Stable.
Context {C : Type} (cmos_read : Z -> C -> Z * C) (I : C -> Prop) (R : Z -> Z).
Hypothesis Hread : forall r c, I c -> fst (cmos_read r c) = R r /\ I (snd (cmos_read r c)).

Lemma chip_read r c : I c -> exists c', cmos_read r c = (R r, c') /\ I c'.
Proof.
  intros Hc. destruct (Hread r c Hc) as [E Hi]. destruct (cmos_read r c) as [v c']. cbn in *. subst. eauto.
Qed.

Definition shown : RawFields := mkRaw (R 0) (R 2) (R 4) (R 7) (R 8) (R 9) (R 0x32).

Lemma read_raw_shown c : I c -> exists c', read_raw cmos_read c = (shown, c') /\ I c'.
Proof.
  intros Hc. unfold read_raw, shown.
  repeat match goal with
    | |- context [cmos_read ?r ?c] => destruct (chip_read r c) as (? & -> & ?); [assumption|]
    end. eauto.
Qed.

Lemma wait_shown n c : Z.land (R 0x0A) 0x80 = 0 -> (0 < n)%nat -> I c ->
  exists c', wait_stable cmos_read n c = Ret c' /\ I c'.
Proof.
  intros Hu Hn Hc. destruct n as [|n]; [lia|]. cbn [wait_stable]. unfold update_in_progress.
  destruct (chip_read 0x0A c Hc) as (c' & -> & Hc'). rewrite Hu. cbn. eauto.
Qed.

End Stable.

(** ** Properties *)

(** The day count is the calendar's: for every valid date from 1970 on,
    [days_since_epoch] returns, and the date is reached from 1970-01-01 by going
    to the next day exactly that many times. *)
Theorem days_since_epoch_calendar d :
  date_ok d = true -> d_year d <= 2 ^ 32 ->
  exists n, days_since_epoch (d_year d) (d_month d) (d_day d) = Ret (Z.of_nat n) /\ date_after n = d.
Proof.
  intros Hd Hy. pose proof Hd as Hok. destruct d as [y m dd]. unfold date_ok, between in Hd.
  cbn [d_year d_month d_day] in *. zb. pose proof (month_len_bounds y m).
  destruct (days_since_epoch_spec y m dd) as [-> Hb]; [lia..|].
  exists (Z.to_nat (day_number (mkDate y m dd))). rewrite Z2Nat.id by lia. split; [done|].
  destruct (date_after_ok (Z.to_nat (day_number (mkDate y m dd)))) as [E1 E2].
  apply day_number_inj; [done|done|]. rewrite E2. lia.
Qed.

(** Reading the clock: if the chip is not in an update and shows a date of
    2020 to 2100 and a time of day, in BCD or binary and in 12- or 24-hour mode,
    the kernel reads exactly the Unix time of that date and time. *)
Theorem rtc_read_correct {C} (cmos_read : Z -> C -> Z * C) (I : C -> Prop) (R : Z -> Z)
    d h mi s (is_bcd is_12h : bool) spin c :
  (forall r c, I c -> fst (cmos_read r c) = R r /\ I (snd (cmos_read r c))) -> I c -> (0 < spin)%nat ->
  Z.land (R 0x0A) 0x80 = 0 -> R 0x0B = status is_bcd is_12h ->
  shown R = enc_raw d h mi s is_bcd is_12h ->
  date_ok d = true -> 2020 <= d_year d <= 2100 -> 0 <= h <= 23 -> 0 <= mi <= 59 -> 0 <= s <= 60 ->
  exists n c', date_after n = d
    /\ read_rtc_unix_secs cmos_read spin c
       = Ret (Some (Z.of_nat n * 86400 + h * 3600 + mi * 60 + s), c').
Proof.
  intros Hr Hc Hsp Hu Hb Hsh Hd Hy Hh Hmi Hs. unfold read_rtc_unix_secs.
  destruct (wait_shown cmos_read I R Hr spin c Hu Hsp Hc) as (c1 & -> & H1). cbn [mbind outcome_bind].
  destruct (read_raw_shown cmos_read I R Hr c1 H1) as (c2 & -> & H2). cbn [settle].
  destruct (wait_shown cmos_read I R Hr spin c2 Hu Hsp H2) as (c3 & -> & H3). cbn [mbind outcome_bind].
  destruct (read_raw_shown cmos_read I R Hr c3 H3) as (c4 & -> & H4).
  rewrite bool_decide_eq_true_2 by done. cbn [mbind outcome_bind fst snd].
  destruct (chip_read cmos_read I R Hr 0x0B c4 H4) as (c5 & -> & _). rewrite Hb, Hsh, decode_enc by done.
  exists (Z.to_nat (day_number d)), c5. destruct d as [y m dd]. pose proof Hd as Hok.
  unfold date_ok, between in Hd. cbn [d_year d_month d_day] in *. zb. pose proof (month_len_bounds y m).
  destruct (days_since_epoch_spec y m dd) as [_ Hn]; [lia..|]. rewrite Z2Nat.id by lia. split; [|done].
  destruct (date_after_ok (Z.to_nat (day_number (mkDate y m dd)))) as [E1 E2].
  apply day_number_inj; [done|done|]. rewrite E2. lia.
Qed.

Lemma dec_field_range v b : 0 <= v < 256 -> 0 <= dec_field v b < 256.
Proof.
  intros Hv. destruct b; [|done]. unfold dec_field. change 15 with (Z.ones 4).
  rewrite !Z.land_ones, Z.shiftr_div_pow2 by lia. change (2 ^ 4) with 16. Z.div_mod_to_equations. lia.
Qed.

(** Whatever bytes the chip holds, decoding returns, and a time it returns
    lies between the start of 2020 and the end of 2100. *)
Theorem rtc_decode_bounds raw status_b :
  Forall (fun v => 0 <= v < 256) [sec raw; min raw; hour raw; day raw; mon raw; year raw; cent raw] ->
  exists r, decode raw status_b = Ret r /\ forall t, r = Some t -> 1577836800 <= t <= 4133980800.
Proof.
  intros Hf. unfold decode. cbv zeta. set (b := Z.land status_b 4 =? 0).
  rewrite !Forall_cons in Hf. destruct Hf as (Hsec & Hmin & Hhour & _).
  pose proof (dec_field_range _ b Hsec). pose proof (dec_field_range _ b Hmin).
  set (hour_ := if Z.land status_b 2 =? 0 then _ else _).
  assert (0 <= hour_) as Hh.
  { subst hour_. pose proof (dec_field_range _ b Hhour). repeat case_match; zb; try lia;
      pose proof (Z.mod_pos_bound (dec_field (Z.land (hour raw) 127) b) 12 eq_refl); lia. }
  clearbody hour_. set (year_ := if between 19 21 _ then _ else _). clearbody year_.
  set (mon_ := dec_field (mon raw) b). set (day_ := dec_field (day raw) b).
  set (min_ := dec_field (min raw) b) in *. set (sec_ := dec_field (sec raw) b) in *.
  destruct (_ || _) eqn:E; [eexists; split; [done|]; intros t [=]|].
  unfold between in E. rewrite !Z.gtb_ltb in E. repeat (apply orb_false_iff in E as [E ?]).
  repeat match goal with K : negb _ = false |- _ => apply negb_false_iff in K end. zb.
  destruct (days_since_epoch_spec year_ mon_ day_) as [-> Hb]; [lia..|]. cbn [mbind outcome_bind].
  eexists. split; [done|]. intros t [= <-].
  assert (day_number (mkDate 2020 1 1) <= day_number (mkDate year_ mon_ day_) <= day_number (mkDate 2100 12 31)) as Hn.
  { unfold day_number. cbn [d_year d_month d_day].
    pose proof (year_start_mono 2020 year_ ltac:(lia)). pose proof (year_start_mono year_ 2100 ltac:(lia)).
    pose proof (month_start_nonneg year_ (Z.to_nat (mon_ - 1))).
    pose proof (month_start_mono year_ (Z.to_nat (mon_ - 1)) 11 ltac:(lia)) as Hm.
    change (year_start 2020) with 737424 in *. change (year_start 2100) with 766644 in *.
    change (month_start 2020 (Z.to_nat (1 - 1))) with 0.
    change (month_start 2100 (Z.to_nat (12 - 1))) with 334.
    assert (month_start year_ 11 = 334 \/ month_start year_ 11 = 335 /\ year_ < 2100) as Hl.
    { cbn [month_start]. unfold month_len. destruct (is_leap year_) eqn:El; [|by left].
      right. split; [done|]. destruct (Z.eq_dec year_ 2100) as [->|]; [done|lia]. }
    pose proof (year_start_mono (year_ + 1) 2100) as Hup. pose proof (year_start_next year_).
    destruct Hl as [Hl|[Hl ?]]; [lia|]. specialize (Hup ltac:(lia)). destruct (is_leap year_); lia. }
  change (day_number (mkDate 2020 1 1)) with 18262 in Hn. change (day_number (mkDate 2100 12 31)) with 47846 in Hn.
  set (n := day_number (mkDate year_ mon_ day_)) in *.
  rewrite (u64_small (n * 86400)), (u64_small (hour_ * 3600)), (u64_small (min_ * 60)) by lia.
  rewrite (u64_small (_ + hour_ * 3600)) by lia. rewrite (u64_small (_ + min_ * 60)) by lia.
  rewrite u64_small by lia. lia.
Qed.

(** ** Witnesses *)

Definition demo_date : date := mkDate 2024 2 29.

Lemma days_since_epoch_calendar_witness :
  exists n, days_since_epoch 2024 2 29 = Ret (Z.of_nat n) /\ date_after n = demo_date.
Proof. apply (days_since_epoch_calendar demo_date); [reflexivity|cbn; lia]. Defined.

(** A BCD chip in 12-hour mode showing 2024-02-29 12:34:56. *)
Definition demo_regs (r : Z) : Z :=
  default 0 (list_to_map (M := gmap Z Z)
    [(0, 0x56); (2, 0x34); (4, 0x92); (7, 0x29); (8, 2); (9, 0x24); (0x32, 0x20)] !! r).

Lemma rtc_read_correct_witness :
  exists n c', date_after n = demo_date
    /\ read_rtc_unix_secs (fun r (c : unit) => (demo_regs r, c)) 1 tt
       = Ret (Some (Z.of_nat n * 86400 + 12 * 3600 + 34 * 60 + 56), c').
Proof.
  apply (rtc_read_correct (fun r (c : unit) => (demo_regs r, c)) (fun _ => True) demo_regs
    demo_date 12 34 56 true true 1 tt); [done|done|lia|reflexivity|reflexivity|reflexivity|reflexivity|cbn; lia|lia..].
Defined.

Lemma rtc_decode_bounds_witness :
  exists r, decode (enc_raw demo_date 23 59 60 true false) 2 = Ret r
    /\ forall t, r = Some t -> 1577836800 <= t <= 4133980800.
Proof. apply rtc_decode_bounds. repeat constructor; by vm_compute. Defined.
