(* ===== verification/EnaRing.v ===== *)
(** * ENA ring cursors

    [net/ena/ring.rs]: the index and phase arithmetic of the submission and
    completion rings of the Elastic Network Adapter driver. *)

From S2P Require Import Prelude.

Definition slot (idx mask : Z) : Z := Z.land idx mask.

Definition sq_advance (idx phase mask : Z) : Z * Z :=
  let idx := u16 (idx + 1) in
  let phase := if Z.land idx mask =? 0 then Z.lxor phase 1 else phase in
  (idx, phase).

Definition cq_advance (head phase depth : Z) : Z * Z :=
  let head := u16 (head + 1) in
  if head =? depth then (0, Z.lxor phase 1) else (head, phase).

Definition entry_ready (desc_phase expected_phase : Z) : bool :=
  Z.land desc_phase 1 =? Z.land expected_phase 1.

Definition free_slots (tail next_to_comp depth : Z) : Z :=
  u16 (u16 (depth - 1) - u16 (tail - next_to_comp)).

(** ** Specification: positions

    A cursor that has advanced [n] times from index 0 and phase 1 is at position
    [n]; the phase of a position is 1 on even laps and 0 on odd ones. *)

Definition phase_at (depth n : Z) : Z := if Z.even (n / depth) then 1 else 0.

Fixpoint sq_iter (mask : Z) (n : nat) : Z * Z :=
  match n with
  | O => (0, 1)
  | S n' => let '(i, p) := sq_iter mask n' in sq_advance i p mask
  end.
Fixpoint cq_iter (depth : Z) (n : nat) : Z * Z :=
  match n with
  | O => (0, 1)
  | S n' => let '(h, p) := cq_iter depth n' in cq_advance h p depth
  end.

(** The phase bits of a zeroed ring after its producer, which follows the same
    discipline, has written [w] entries. *)
Fixpoint dev_ring (depth : Z) (w : nat) : list Z :=
  match w with
  | O => replicate (Z.to_nat depth) 0
  | S w' => let '(h, p) := cq_iter depth w' in <[Z.to_nat h := p]> (dev_ring depth w')
  end.

(** ** Lemmas *)
Lemma land_mask x k : 0 <= k -> Z.land x (2 ^ k - 1) = x mod 2 ^ k.
Proof. intros Hk. rewrite <- Z.land_ones by done. by rewrite Z.ones_equiv, Z.sub_1_r. Qed.

Lemma phase_bit d n : phase_at d n = 0 \/ phase_at d n = 1.
Proof. unfold phase_at. case_match; auto. Qed.

Lemma phase_next d n : 0 < d ->
  phase_at d (n + 1) = if (n + 1) mod d =? 0 then Z.lxor (phase_at d n) 1 else phase_at d n.
Proof.
  intros Hd. unfold phase_at. rewrite (div_pred (n + 1) d) by done. replace (n + 1 - 1) with n by lia.
  destruct (_ =? 0); [|by rewrite Z.add_0_r]. rewrite Z.add_1_r, Z.even_succ, <- Z.negb_even.
  by destruct (Z.even (n / d)).
Qed.

Lemma mod_next n d : 0 < d -> (n + 1) mod d = if (n + 1) mod d =? 0 then 0 else n mod d + 1.
Proof.
  intros Hd. destruct (Z.eqb_spec ((n + 1) mod d) 0) as [E|E]; [done|].
  pose proof (div_pred (n + 1) d Hd) as Hq. rewrite (proj2 (Z.eqb_neq _ _)) in Hq by done.
  replace (n + 1 - 1) with n in Hq by lia.
  pose proof (Z.div_mod n d). pose proof (Z.div_mod (n + 1) d). rewrite Z.add_0_r in Hq. nia.
Qed.

Lemma cq_iter_pos d n : 0 < d < 2 ^ 16 ->
  cq_iter d n = (Z.of_nat n mod d, phase_at d (Z.of_nat n)).
Proof.
  intros Hd. induction n as [|n IH]; [by rewrite Z.mod_0_l by lia|]. cbn [cq_iter]. rewrite IH. unfold cq_advance.
  pose proof (Z.mod_pos_bound (Z.of_nat n) d ltac:(lia)). unfold u16. rewrite wrap_small by lia.
  rewrite Nat2Z.inj_succ, <- Z.add_1_r, phase_next by lia.
  pose proof (mod_next (Z.of_nat n) d ltac:(lia)) as Hmn.
  destruct (Z.eqb_spec ((Z.of_nat n + 1) mod d) 0) as [E|E]; rewrite Hmn; clear Hmn.
  - assert (Z.of_nat n mod d + 1 = d) as ->; [|by rewrite Z.eqb_refl].
    rewrite Z.add_mod in E by lia. destruct (Z.eq_dec (Z.of_nat n mod d + 1) d); [done|].
    destruct (Z.eq_dec d 1) as [->|]; [rewrite Z.mod_1_r; lia|].
    rewrite (Z.mod_small 1), Z.mod_small in E by lia. lia.
  - destruct (Z.eqb_spec (Z.of_nat n mod d + 1) d) as [E'|]; [|done]. exfalso. apply E.
    rewrite Z.add_mod by lia. destruct (Z.eq_dec d 1) as [->|]; [by rewrite Z.mod_1_r|].
    rewrite (Z.mod_small 1) by lia. rewrite E'. apply Z.mod_same. lia.
Qed.

Lemma sq_iter_pos k n : 0 <= k <= 15 ->
  sq_iter (2 ^ k - 1) n = (Z.of_nat n mod 2 ^ 16, phase_at (2 ^ k) (Z.of_nat n)).
Proof.
  intros Hk. induction n as [|n IH]; [by rewrite Z.mod_0_l by lia|]. cbn [sq_iter]. rewrite IH. unfold sq_advance.
  assert (0 < 2 ^ k) by (apply Z.pow_pos_nonneg; lia).
  assert (u16 (Z.of_nat n mod 2 ^ 16 + 1) = Z.of_nat (S n) mod 2 ^ 16) as ->.
  { unfold u16, wrap. rewrite Z.add_mod_idemp_l by lia. f_equal. lia. }
  rewrite land_mask by lia. rewrite Nat2Z.inj_succ, <- Z.add_1_r, phase_next by lia.
  assert (((Z.of_nat n + 1) mod 2 ^ 16) mod 2 ^ k = (Z.of_nat n + 1) mod 2 ^ k) as ->; [|done].
  replace 16 with (k + (16 - k)) by lia. rewrite Z.pow_add_r by lia. apply Z.mod_mod_divide.
  by exists (2 ^ (16 - k)); rewrite Z.mul_comm.
Qed.

(** The bit in each slot after [w] writes: the phase of the last position that
    uses the slot, or 0. *)
Lemma dev_ring_slot d w s : 0 < d < 2 ^ 16 -> 0 <= s < d ->
  dev_ring d w !! Z.to_nat s =
    Some (if s <? Z.of_nat w then phase_at d (Z.of_nat w - 1 - (Z.of_nat w - 1 - s) mod d) else 0).
Proof.
  intros Hd Hs. induction w as [|w IH]; cbn [dev_ring].
  - rewrite (proj2 (Z.ltb_ge _ _)) by lia. apply lookup_replicate_2. lia.
  - rewrite cq_iter_pos by done. pose proof (Z.mod_pos_bound (Z.of_nat w) d ltac:(lia)).
    assert (length (dev_ring d w) = Z.to_nat d) as Hl.
    { clear IH. induction w as [|w IHw]; cbn [dev_ring]; [by rewrite length_replicate|].
      destruct (cq_iter d w). rewrite length_insert. apply IHw. apply Z.mod_pos_bound. lia. }
    replace (Z.of_nat (S w) - 1) with (Z.of_nat w) by lia.
    destruct (Z.eq_dec (Z.of_nat w mod d) s) as [E|E].
    + rewrite E, list_lookup_insert_eq by lia. rewrite (proj2 (Z.ltb_lt _ _)).
      * do 2 f_equal. rewrite <- E. rewrite Zminus_mod_idemp_r, Z.sub_diag, Z.mod_0_l by lia. lia.
      * pose proof (Z.mod_le (Z.of_nat w) d). lia.
    + rewrite list_lookup_insert_ne, IH by lia. f_equal.
      assert ((Z.of_nat w - s) mod d <> 0) as Hne.
      { intros E'. apply E. apply Z.mod_divide in E' as [q Hq]; [|lia].
        replace (Z.of_nat w) with (s + q * d) by lia. rewrite Z.mod_add, Z.mod_small by lia. done. }
      assert ((Z.of_nat w - s) mod d = (Z.of_nat w - 1 - s) mod d + 1) as Hm.
      { pose proof (mod_next (Z.of_nat w - 1 - s) d ltac:(lia)) as Hm.
        replace (Z.of_nat w - 1 - s + 1) with (Z.of_nat w - s) in Hm by lia.
        rewrite (proj2 (Z.eqb_neq _ _)) in Hm by done. done. }
      destruct (Z.ltb_spec s (Z.of_nat w)), (Z.ltb_spec s (Z.of_nat (S w))); try lia.
      * f_equal. lia.
      * exfalso. apply Hne. replace s with (Z.of_nat w) by lia. by rewrite Z.sub_diag, Z.mod_0_l by lia.
Qed.

Lemma phase_lap d n : 0 < d -> phase_at d (n - d) <> phase_at d n.
Proof.
  intros Hd. unfold phase_at. replace (n - d) with (n + (-1) * d) by lia. rewrite Z.div_add by lia.
  replace (n / d + -1) with (Z.pred (n / d)) by lia. rewrite Z.even_pred, <- Z.negb_even.
  by destruct (Z.even (n / d)).
Qed.

Lemma ready_bits a b : (a = 0 \/ a = 1) -> (b = 0 \/ b = 1) -> entry_ready a b = (a =? b).
Proof. by intros [-> | ->] [-> | ->]. Qed.

Lemma ready_at depth n w :
  0 < depth < 2 ^ 16 -> (n <= w)%nat -> Z.of_nat w <= Z.of_nat n + depth ->
  exists bit, dev_ring depth w !! Z.to_nat (fst (cq_iter depth n)) = Some bit
    /\ entry_ready bit (snd (cq_iter depth n)) = bool_decide (n < w)%nat.
Proof.
  intros Hd Hnw Hw. rewrite cq_iter_pos by done. cbn [fst snd].
  pose proof (Z.mod_pos_bound (Z.of_nat n) depth ltac:(lia)) as Hs.
  rewrite dev_ring_slot by done. eexists. split; [done|].
  pose proof (Z.mod_le (Z.of_nat n) depth ltac:(lia) ltac:(lia)).
  rewrite ready_bits; [|case_match; auto using phase_bit|apply phase_bit].
  pose proof (Z.div_mod (Z.of_nat n) depth ltac:(lia)) as Hdm.
  destruct (decide (n < w)%nat) as [Hlt|Hge].
  - rewrite (proj2 (Z.ltb_lt _ _)), bool_decide_eq_true_2 by lia. apply Z.eqb_eq. f_equal.
    replace (Z.of_nat w - 1 - Z.of_nat n mod depth)
      with ((Z.of_nat w - 1 - Z.of_nat n) + (Z.of_nat n / depth) * depth) by lia.
    rewrite Z.mod_add, Z.mod_small by lia. lia.
  - assert (w = n) as -> by lia. rewrite bool_decide_eq_false_2 by lia. apply Z.eqb_neq.
    destruct (Z.ltb_spec (Z.of_nat n mod depth) (Z.of_nat n)) as [Hlt|Hz].
    + replace (Z.of_nat n - 1 - Z.of_nat n mod depth)
        with ((depth - 1) + (Z.of_nat n / depth - 1) * depth) by lia.
      rewrite Z.mod_add, Z.mod_small by lia. replace (Z.of_nat n - 1 - (depth - 1)) with (Z.of_nat n - depth) by lia.
      apply phase_lap. lia.
    + unfold phase_at. rewrite Z.div_small; [done|]. lia.
Qed.

(** ** Properties *)

(** Completion draining is exact for ever: when the producer has written [w]
    entries and the consumer has taken [n] of them, at most one ring behind, the
    phase test at the consumer's cursor says ready exactly when entry [n] has
    been written: a stale entry of the previous lap is never taken as fresh and
    a fresh one is never missed. *)
Theorem ring_ready_exact depth n w :
  0 < depth < 2 ^ 16 -> (n <= w)%nat -> Z.of_nat w <= Z.of_nat n + depth ->
  exists bit, dev_ring depth w !! Z.to_nat (fst (cq_iter depth n)) = Some bit
    /\ entry_ready bit (snd (cq_iter depth n)) = bool_decide (n < w)%nat.
Proof. apply ready_at. Qed.

(** The free-running 16-bit submission cursor, masked to a slot, stays in
    lockstep with the bounded cursor of its consumer for ever (across the 16-bit
    wrap too): same slot, same phase; and the free-slot count computed from two
    such cursors is exact as long as at most a ring minus one is outstanding, so
    it is zero exactly when the ring is full. *)
Theorem ring_lockstep k n c :
  0 <= k <= 15 -> (c <= n)%nat -> Z.of_nat n - Z.of_nat c <= 2 ^ k - 1 ->
  let depth := 2 ^ k in
  let '(tail, phase) := sq_iter (depth - 1) n in
  (slot tail (depth - 1), phase) = cq_iter depth n
  /\ free_slots tail (fst (sq_iter (depth - 1) c)) depth = depth - 1 - (Z.of_nat n - Z.of_nat c).
Proof.
  cbv zeta. intros Hk Hcn Ho. assert (1 <= 2 ^ k <= 2 ^ 15) as Hd.
  { split; [change 1 with (2 ^ 0)|]; apply Z.pow_le_mono_r; lia. }
  rewrite !sq_iter_pos, cq_iter_pos by lia. cbn [fst]. split.
  - unfold slot. rewrite land_mask by lia. f_equal.
    replace 16 with (k + (16 - k)) by lia. rewrite Z.pow_add_r by lia. apply Z.mod_mod_divide.
    by exists (2 ^ (16 - k)); rewrite Z.mul_comm.
  - unfold free_slots, u16. rewrite (wrap_small 16 (2 ^ k - 1)) by lia.
    assert (wrap 16 (Z.of_nat n mod 2 ^ 16 - Z.of_nat c mod 2 ^ 16) = Z.of_nat n - Z.of_nat c) as ->.
    { unfold wrap. rewrite <- Zminus_mod. apply Z.mod_small. lia. }
    apply wrap_small. lia.
Qed.

Lemma ring_ready_exact_witness :
  exists bit, dev_ring 4 6 !! Z.to_nat (fst (cq_iter 4 6)) = Some bit
    /\ entry_ready bit (snd (cq_iter 4 6)) = false.
Proof. apply (ring_ready_exact 4 6 6); lia. Defined.

Lemma ring_lockstep_witness :
  (slot (fst (sq_iter 3 6)) 3, snd (sq_iter 3 6)) = cq_iter 4 6
  /\ free_slots (fst (sq_iter 3 6)) (fst (sq_iter 3 4)) 4 = 1.
Proof.
  assert (Z.of_nat 6 - Z.of_nat 4 <= 2 ^ 2 - 1) as Hle by (vm_compute; discriminate).
  exact (ring_lockstep 2 6 4 ltac:(lia) ltac:(lia) Hle).
Defined.
