(* ===== verification/EnaDevice.v ===== *)
(** * The ENA network driver

    [net/ena/admin.rs] (admin queue), [net/ena/device.rs] (receive and transmit
    path) and the DMA bump allocator of [drivers/virtio/hal.rs], over a byte
    memory shared with the adapter.  The adapter is not part of the kernel: its
    hidden state, what it does between two polls, the clock and the value of its
    registers are arguments.  Doorbells and register writes are recorded in
    order, newest first. *)

From S2P Require Import Prelude ByteMem EnaRing.

(** ** Memory shared with the adapter *)

Record io (D : Type) := mkIo {
  mem : gmap Z Z;
  mmio : list (Z * Z);
  dma_next : Z;
  dev : D;
}.
Arguments mkIo {D}.
Arguments mem {D}.
Arguments mmio {D}.
Arguments dma_next {D}.
Arguments dev {D}.

Section Io.
Context {D : Type}.

Definition on_mem (f : gmap Z Z -> gmap Z Z) (w : io D) : io D :=
  mkIo (f (mem w)) (mmio w) (dma_next w) (dev w).
Definition write32 (bar0 off val : Z) (w : io D) : io D :=
  mkIo (mem w) ((bar0 ⊞ off, u32 val) :: mmio w) (dma_next w) (dev w).

Definition PAGE_SIZE : Z := 4096.
Definition dma_alloc (pages : Z) (w : io D) : outcome (io D * Z) :=
  let paddr := dma_next w in
  if paddr =? 0 then Panic
  else Ret (mkIo (mem w) (mmio w) (dma_next w ⊞ PAGE_SIZE * pages) (dev w), paddr).
Definition dma_alloc_zeroed (bytes : Z) (w : io D) : outcome (io D * Z) :=
  let pages := (bytes + PAGE_SIZE - 1) / PAGE_SIZE in
  r ← dma_alloc pages w;
  Ret (on_mem (fun m => zero_range m (snd r) (pages * PAGE_SIZE)) (fst r), snd r).

End Io.

(** ** Admin queue *)

Definition ADMIN_QUEUE_DEPTH : Z := 32.
Definition ADMIN_ENTRY_SIZE : Z := 64.
Definition AENQ_DEPTH : Z := 16.
Definition ADMIN_CMD_TIMEOUT_NS : Z := 1000000000.
Definition AQ_BASE_LO := 0x10.
Definition AQ_BASE_HI := 0x14.
Definition AQ_CAPS := 0x18.
Definition ACQ_BASE_LO := 0x20.
Definition ACQ_BASE_HI := 0x24.
Definition ACQ_CAPS := 0x28.
Definition AQ_DB := 0x2c.
Definition AENQ_CAPS := 0x34.
Definition AENQ_BASE_LO := 0x38.
Definition AENQ_BASE_HI := 0x3c.
Definition DEV_STS := 0x58.

Inductive aq_err := DeviceNotReady | NonZeroStatus (status : Z) | CommandTimeout.
Inductive aq_result (A : Type) := AOk (a : A) | AErr (e : aq_err).
Arguments AOk {A}.
Arguments AErr {A}.

Record AdminQueue := mkAdminQueue {
  aq_bar0 : Z; sq_base : Z; cq_base : Z; depth : Z;
  sq_tail : Z; sq_phase : Z; cq_head : Z; cq_phase : Z; curr_cmd_id : Z;
}.

Record DeviceAttrs := mkDeviceAttrs {
  mac : list Z; max_mtu : Z; phys_addr_width : Z; supported_features : Z;
}.

Section Admin.
Context {D : Type} (env : io D -> io D) (now : D -> Z) (mmio_read : D -> Z -> Z).

Definition admin_init (bar0 : Z) (w : io D) : outcome (io D * aq_result AdminQueue) :=
  let dev_sts := mmio_read (dev w) (bar0 ⊞ DEV_STS) in
  if Z.land dev_sts 1 =? 0 then Ret (w, AErr DeviceNotReady) else
  r ← dma_alloc_zeroed (ADMIN_QUEUE_DEPTH * ADMIN_ENTRY_SIZE) w;
  let '(w, sqb) := r in
  r ← dma_alloc_zeroed (ADMIN_QUEUE_DEPTH * ADMIN_ENTRY_SIZE) w;
  let '(w, cqb) := r in
  r ← dma_alloc_zeroed (AENQ_DEPTH * ADMIN_ENTRY_SIZE) w;
  let '(w, aenq) := r in
  let w := write32 bar0 AQ_BASE_LO sqb w in
  let w := write32 bar0 AQ_BASE_HI (Z.shiftr sqb 32) w in
  let w := write32 bar0 ACQ_BASE_LO cqb w in
  let w := write32 bar0 ACQ_BASE_HI (Z.shiftr cqb 32) w in
  let aq_caps := Z.lor (Z.land ADMIN_QUEUE_DEPTH 0xffff) (Z.shiftl ADMIN_ENTRY_SIZE 16) in
  let w := write32 bar0 AQ_CAPS aq_caps w in
  let w := write32 bar0 ACQ_CAPS aq_caps w in
  let w := write32 bar0 AENQ_BASE_LO aenq w in
  let w := write32 bar0 AENQ_BASE_HI (Z.shiftr aenq 32) w in
  let aenq_caps := Z.lor (Z.land AENQ_DEPTH 0xffff) (Z.shiftl ADMIN_ENTRY_SIZE 16) in
  let w := write32 bar0 AENQ_CAPS aenq_caps w in
  Ret (w, AOk (mkAdminQueue bar0 sqb cqb ADMIN_QUEUE_DEPTH 0 1 0 1 0)).

(** The first half of [submit_and_poll]: the command is completed with its id
    and phase, stored in its slot, the cursor advances and the doorbell rings. *)
Definition submit (cmd : list Z) (q : AdminQueue) (w : io D) : AdminQueue * io D :=
  let mask := u16 (depth q - 1) in
  let cmd_id := curr_cmd_id q in
  let cmd := <[0%nat := Z.land cmd_id 0xff]> cmd in
  let cmd := <[1%nat := Z.land (Z.shiftr cmd_id 8) 0x0f]> cmd in
  let cmd := alter (fun b => Z.lor b (Z.land (sq_phase q) 1)) 3%nat cmd in
  let tail_masked := Z.land (sq_tail q) mask in
  let w := on_mem (fun m => store m (sq_base q + tail_masked * ADMIN_ENTRY_SIZE) cmd) w in
  let tail' := u16 (sq_tail q + 1) in
  let phase' := if Z.land tail' mask =? 0 then Z.lxor (sq_phase q) 1 else sq_phase q in
  let q := mkAdminQueue (aq_bar0 q) (sq_base q) (cq_base q) (depth q) tail' phase' (cq_head q) (cq_phase q)
             (Z.land (u16 (curr_cmd_id q + 1)) mask) in
  (q, write32 (aq_bar0 q) AQ_DB tail' w).

(** The second half: poll until the phase flips or a second has passed.  The
    adapter and the clock move between two polls. *)
Fixpoint poll (fuel : nat) (start : Z) (q : AdminQueue) (w : io D)
    : outcome (AdminQueue * io D * aq_result (list Z)) :=
  match fuel with
  | O => Panic
  | S fuel' =>
      let w := env w in
      let entry := cq_base q + cq_head q * ADMIN_ENTRY_SIZE in
      let flags := peek8 (mem w) (entry + 3) in
      if Z.land flags 1 =? cq_phase q then
        let out := load (mem w) entry ADMIN_ENTRY_SIZE in
        let head' := u16 (cq_head q + 1) in
        let wrapped := head' =? depth q in
        let q := mkAdminQueue (aq_bar0 q) (sq_base q) (cq_base q) (depth q) (sq_tail q) (sq_phase q)
                   (if wrapped then 0 else head') (if wrapped then Z.lxor (cq_phase q) 1 else cq_phase q)
                   (curr_cmd_id q) in
        status ← index out 2;
        if negb (status =? 0) then Ret (q, w, AErr (NonZeroStatus status)) else Ret (q, w, AOk out)
      else if now (dev w) ⊟ start >? ADMIN_CMD_TIMEOUT_NS then Ret (q, w, AErr CommandTimeout)
      else poll fuel' start q w
  end.

Definition submit_and_poll (fuel : nat) (cmd : list Z) (q : AdminQueue) (w : io D)
    : outcome (AdminQueue * io D * aq_result (list Z)) :=
  let '(q, w) := submit cmd q w in poll fuel (now (dev w)) q w.

(** [let resp = self.submit_and_poll(cmd)?; k(resp)]. *)
Definition command {A} (fuel : nat) (cmd : list Z) (k : list Z -> outcome A) (q : AdminQueue) (w : io D)
    : outcome (AdminQueue * io D * aq_result A) :=
  r ← submit_and_poll fuel cmd q w;
  let '(q, w, res) := r in
  match res with
  | AErr e => Ret (q, w, AErr e)
  | AOk resp => x ← k resp; Ret (q, w, AOk x)
  end.

Definition zero_cmd : list Z := replicate 64 0.
(** [cmd[at..].copy_from_slice(bs)] in a 64-byte command. *)
Definition put (at_ : nat) (bs cmd : list Z) : list Z := take at_ cmd ++ bs ++ drop (at_ + length bs) cmd.

Definition get_device_attributes (fuel : nat) :=
  let cmd := put 17 [1] (put 2 [8] zero_cmd) in
  command fuel cmd (fun resp =>
    m ← slice resp 32 38;
    f ← slice resp 16 20; p ← slice resp 24 28; mtu ← slice resp 40 44;
    Ret (mkDeviceAttrs m (le_val mtu) (le_val p) (le_val f))).

Definition create_io_cq (fuel : nat) (depth cq_phys entry_size_bytes : Z) :=
  let cmd := put 2 [3] zero_cmd in
  let cmd := put 5 [Z.land (entry_size_bytes / 4) 0x1f] cmd in
  let cmd := put 6 (le_bytes 2 depth) cmd in
  let cmd := put 12 (le_bytes 4 (u32 cq_phys)) cmd in
  let cmd := put 16 (le_bytes 2 (u16 (Z.shiftr cq_phys 32))) cmd in
  command fuel cmd (fun resp => i ← slice resp 8 10; Ret (le_val i)).

Definition create_io_sq (fuel : nat) (direction depth sq_phys cq_idx : Z) :=
  let cmd := put 2 [1] zero_cmd in
  let cmd := put 4 [u8 (Z.shiftl direction 5)] cmd in
  let cmd := put 6 [1] cmd in
  let cmd := put 7 [1] cmd in
  let cmd := put 8 (le_bytes 2 cq_idx) cmd in
  let cmd := put 10 (le_bytes 2 depth) cmd in
  let cmd := put 12 (le_bytes 4 (u32 sq_phys)) cmd in
  let cmd := put 16 (le_bytes 2 (u16 (Z.shiftr sq_phys 32))) cmd in
  command fuel cmd (fun resp => i ← slice resp 8 10; d ← slice resp 12 16; Ret (le_val i, le_val d)).

End Admin.

(** ** Data path *)

Definition IO_DEPTH : Z := 256.
Definition Q_MASK : Z := IO_DEPTH - 1.
Definition BUF_SIZE : Z := 2048.
Definition N_RX_BUFS : Z := IO_DEPTH - 1.

Record EnaDevice := mkEnaDevice {
  bar0 : Z; dev_mac : list Z;
  rx_sq : Z; rx_cq : Z; rx_db : Z;
  rx_sq_tail : Z; rx_sq_phase : Z; rx_cq_head : Z; rx_cq_phase : Z; rx_bufs : Z;
  tx_sq : Z; tx_cq : Z; tx_db : Z;
  tx_sq_tail : Z; tx_sq_phase : Z; tx_cq_head : Z; tx_cq_phase : Z; tx_bufs : Z;
  tx_next_to_comp : Z;
}.

Definition set_rx (d : EnaDevice) (tail phase head cphase : Z) : EnaDevice :=
  mkEnaDevice (bar0 d) (dev_mac d) (rx_sq d) (rx_cq d) (rx_db d) tail phase head cphase (rx_bufs d)
    (tx_sq d) (tx_cq d) (tx_db d) (tx_sq_tail d) (tx_sq_phase d) (tx_cq_head d) (tx_cq_phase d) (tx_bufs d)
    (tx_next_to_comp d).
Definition set_tx (d : EnaDevice) (tail phase head cphase comp : Z) : EnaDevice :=
  mkEnaDevice (bar0 d) (dev_mac d) (rx_sq d) (rx_cq d) (rx_db d) (rx_sq_tail d) (rx_sq_phase d)
    (rx_cq_head d) (rx_cq_phase d) (rx_bufs d)
    (tx_sq d) (tx_cq d) (tx_db d) tail phase head cphase (tx_bufs d) comp.

(** The sixteen bytes of a receive descriptor. *)
Definition rx_desc (phase req_id buf : Z) : list Z :=
  le_bytes 2 BUF_SIZE ++ [0] ++ [Z.lor (Z.lor (Z.lor 4 8) 16) (Z.land phase 1)]
  ++ le_bytes 2 req_id ++ le_bytes 2 0
  ++ le_bytes 4 (u32 buf) ++ le_bytes 2 (u16 (Z.shiftr buf 32)) ++ le_bytes 2 0.
(** The sixteen bytes of a transmit descriptor. *)
Definition tx_desc (phase req_id buf len_ : Z) : list Z :=
  le_bytes 4 (Z.lor (Z.lor (Z.lor (Z.lor (Z.land (u32 len_) 0xffff) (u32 (Z.shiftl phase 24)))
    (Z.shiftl 1 26)) (Z.shiftl 1 27)) (Z.shiftl 1 28))
  ++ le_bytes 4 (u32 (Z.shiftl (Z.land req_id 0x3ff) 22))
  ++ le_bytes 4 (u32 buf)
  ++ le_bytes 4 (Z.land (u32 (Z.shiftr buf 32)) 0xffff).

Section Device.
Context {D : Type}.

Definition post_rx_desc (req_id : Z) (d : EnaDevice) (w : io D) : EnaDevice * io D :=
  let sl := slot (rx_sq_tail d) Q_MASK in
  let buf := rx_bufs d + req_id * BUF_SIZE in
  let desc := rx_sq d + sl * 16 in
  let w := on_mem (fun m => store m desc (rx_desc (rx_sq_phase d) req_id buf)) w in
  let '(t, p) := sq_advance (rx_sq_tail d) (rx_sq_phase d) Q_MASK in
  (set_rx d t p (rx_cq_head d) (rx_cq_phase d), w).

Definition ring_rx_doorbell (d : EnaDevice) (w : io D) : io D :=
  write32 (bar0 d) (rx_db d) (rx_sq_tail d) w.
Definition ring_tx_doorbell (d : EnaDevice) (w : io D) : io D :=
  write32 (bar0 d) (tx_db d) (tx_sq_tail d) w.

(** The memory is the one the adapter has written when the loop runs. *)
Fixpoint drain_loop (fuel : nat) (m : gmap Z Z) (d : EnaDevice) : outcome EnaDevice :=
  match fuel with
  | O => Panic
  | S fuel' =>
      let cdesc := tx_cq d + tx_cq_head d * 8 in
      let flags := peek8 m (cdesc + 3) in
      if negb (entry_ready flags (tx_cq_phase d)) then Ret d else
      let comp := u16 (tx_next_to_comp d + 1) in
      let '(h, p) := cq_advance (tx_cq_head d) (tx_cq_phase d) IO_DEPTH in
      drain_loop fuel' m (set_tx d (tx_sq_tail d) (tx_sq_phase d) h p comp)
  end.
Definition drain_tx (d : EnaDevice) (w : io D) : outcome EnaDevice := drain_loop 257 (mem w) d.

Definition tx_free_slots (d : EnaDevice) : Z := free_slots (tx_sq_tail d) (tx_next_to_comp d) IO_DEPTH.

(** [Some packet] when a completion was ready. *)
Definition receive (d : EnaDevice) (w : io D) : EnaDevice * io D * option (list Z) :=
  let cdesc := rx_cq d + rx_cq_head d * 16 in
  let status := le_val (load (mem w) cdesc 4) in
  if negb (entry_ready (u8 (Z.land (Z.shiftr status 24) 1)) (rx_cq_phase d)) then (d, w, None) else
  let len_ := le_val (load (mem w) (cdesc + 4) 2) in
  let req_id := le_val (load (mem w) (cdesc + 6) 2) in
  let packet :=
    if (req_id <? N_RX_BUFS) && (len_ <=? BUF_SIZE)
    then load (mem w) (rx_bufs d + req_id * BUF_SIZE) len_ else [] in
  let '(h, p) := cq_advance (rx_cq_head d) (rx_cq_phase d) IO_DEPTH in
  let d := set_rx d (rx_sq_tail d) (rx_sq_phase d) h p in
  if req_id <? N_RX_BUFS then
    let '(d, w) := post_rx_desc req_id d w in
    (d, ring_rx_doorbell d w, Some packet)
  else (d, w, Some packet).

Definition transmit (d : EnaDevice) (w : io D) : outcome EnaDevice := drain_tx d w.

(** [EnaTxToken::consume]: [f] is the network stack filling the frame in place. *)
Definition tx_consume (len_ : Z) (f : list Z -> list Z) (d : EnaDevice) (w : io D)
    : outcome (EnaDevice * io D) :=
  d ← drain_tx d w;
  let sl := slot (tx_sq_tail d) Q_MASK in
  let buf := tx_bufs d + sl * BUF_SIZE in
  let req_id := slot (tx_sq_tail d) Q_MASK in
  let n := Z.min len_ BUF_SIZE in
  let w := on_mem (fun m => store m buf (resize (Z.to_nat n) 0 (f (load m buf n)))) w in
  if tx_free_slots d =? 0 then Ret (d, w) else
  let desc := tx_sq d + sl * 16 in
  let w := on_mem (fun m => store m desc (tx_desc (tx_sq_phase d) req_id buf len_)) w in
  let '(t, p) := sq_advance (tx_sq_tail d) (tx_sq_phase d) Q_MASK in
  let d := set_tx d t p (tx_cq_head d) (tx_cq_phase d) (tx_next_to_comp d) in
  Ret (d, ring_tx_doorbell d w).

End Device.

Section New.
Context {D : Type} (env : io D -> io D) (now : D -> Z).

(** [EnaDevice::new]; each [?] propagates the admin error. *)
Definition ena_new (fuel : nat) (q : AdminQueue) (bar0_ : Z) (mac_ : list Z) (w : io D)
    : outcome (AdminQueue * io D * aq_result EnaDevice) :=
  r ← dma_alloc_zeroed (IO_DEPTH * 16) w;
  let '(w, rxc) := r in
  r ← dma_alloc_zeroed (IO_DEPTH * 16) w;
  let '(w, rxs) := r in
  r ← dma_alloc_zeroed (IO_DEPTH * 8) w;
  let '(w, txc) := r in
  r ← dma_alloc_zeroed (IO_DEPTH * 16) w;
  let '(w, txs) := r in
  r ← dma_alloc_zeroed (N_RX_BUFS * BUF_SIZE) w;
  let '(w, rxb) := r in
  r ← dma_alloc_zeroed (IO_DEPTH * BUF_SIZE) w;
  let '(w, txb) := r in
  r ← create_io_cq env now fuel IO_DEPTH rxc 16 q w;
  let '(q, w, x) := r in
  match x with AErr e => Ret (q, w, AErr e) | AOk rx_cq_idx =>
  r ← create_io_sq env now fuel 2 IO_DEPTH rxs rx_cq_idx q w;
  let '(q, w, x) := r in
  match x with AErr e => Ret (q, w, AErr e) | AOk rx_sq_db =>
  r ← create_io_cq env now fuel IO_DEPTH txc 8 q w;
  let '(q, w, x) := r in
  match x with AErr e => Ret (q, w, AErr e) | AOk tx_cq_idx =>
  r ← create_io_sq env now fuel 1 IO_DEPTH txs tx_cq_idx q w;
  let '(q, w, x) := r in
  match x with AErr e => Ret (q, w, AErr e) | AOk tx_sq_db =>
  let d := mkEnaDevice bar0_ mac_ rxs rxc (snd rx_sq_db) 0 1 0 1 rxb txs txc (snd tx_sq_db) 0 1 0 1 txb 0 in
  let '(d, w) := for_range (Z.to_nat N_RX_BUFS) 0 (fun i s => post_rx_desc i (fst s) (snd s)) (d, w) in
  Ret (q, ring_rx_doorbell d w, AOk d)
  end end end end.

End New.

(** ** Lemmas *)
Lemma rx_desc_len ph r b : len (rx_desc ph r b) = 16.
Proof. unfold rx_desc, len. rewrite !length_app, !le_bytes_length. done. Qed.
Lemma tx_desc_len ph r b l : len (tx_desc ph r b l) = 16.
Proof. unfold tx_desc, len. rewrite !length_app, !le_bytes_length. done. Qed.

Lemma land_1_1 x : Z.land (Z.land x 1) 1 = Z.land x 1.
Proof. by rewrite <- Z.land_assoc. Qed.

Lemma ready_low x p : entry_ready (Z.land x 1) p = entry_ready x p.
Proof. unfold entry_ready. by rewrite land_1_1. Qed.

(** ** Positions of the data rings *)

(** The transmit side after [p] posts and [c] reaped completions. *)
Record tx_at (p c : nat) (d : EnaDevice) : Prop := {
  ta_sq : (tx_sq_tail d, tx_sq_phase d) = sq_iter Q_MASK p;
  ta_cq : (tx_cq_head d, tx_cq_phase d) = cq_iter IO_DEPTH c;
  ta_comp : tx_next_to_comp d = fst (sq_iter Q_MASK c);
}.
(** The receive side after [p] posts and [n] taken completions. *)
Record rx_at (p n : nat) (d : EnaDevice) : Prop := {
  ra_sq : (rx_sq_tail d, rx_sq_phase d) = sq_iter Q_MASK p;
  ra_cq : (rx_cq_head d, rx_cq_phase d) = cq_iter IO_DEPTH n;
}.

(** The adapter has written [w] completions into the ring at [base], of entries
    of [size] bytes with the phase bit in bit 0 of byte 3. *)
Definition shows (w : nat) (m : gmap Z Z) (base size : Z) : Prop :=
  forall s, 0 <= s < IO_DEPTH ->
    dev_ring IO_DEPTH w !! Z.to_nat s = Some (Z.land (peek8 m (base + s * size + 3)) 1).

Lemma shows_ready w m base size n : (n <= w)%nat -> Z.of_nat w <= Z.of_nat n + IO_DEPTH ->
  shows w m base size ->
  entry_ready (peek8 m (base + fst (cq_iter IO_DEPTH n) * size + 3)) (snd (cq_iter IO_DEPTH n))
  = bool_decide (n < w)%nat.
Proof.
  intros Hn Hw Hs. destruct (ready_at IO_DEPTH n w) as (b & Hb & <-); [done|done|done|].
  rewrite cq_iter_pos in * by done. cbn [fst snd] in *.
  rewrite Hs in Hb by (apply Z.mod_pos_bound; done). injection Hb as <-. by rewrite ready_low.
Qed.

(** Draining reaps exactly the written completions. *)
Lemma drain_loop_spec fuel : forall m d p c w,
  tx_at p c d -> (c <= w)%nat -> Z.of_nat w <= Z.of_nat c + IO_DEPTH -> (w - c < fuel)%nat ->
  shows w m (tx_cq d) 8 ->
  exists h ph comp, drain_loop fuel m d = Ret (set_tx d (tx_sq_tail d) (tx_sq_phase d) h ph comp)
    /\ tx_at p w (set_tx d (tx_sq_tail d) (tx_sq_phase d) h ph comp).
Proof.
  induction fuel as [|fuel IH]; intros m d p c w Ht Hc Hw Hf Hs; [lia|]. cbn [drain_loop].
  destruct Ht as [Ht1 Ht2 Ht3].
  pose proof (shows_ready w m (tx_cq d) 8 c Hc Hw Hs) as Hr. rewrite <- Ht2 in Hr. cbn [fst snd] in Hr. rewrite Hr.
  destruct (decide (c < w)%nat) as [Hlt|Hge].
  - rewrite bool_decide_eq_true_2 by done. cbn [negb].
    destruct (cq_advance (tx_cq_head d) (tx_cq_phase d) IO_DEPTH) as [h ph] eqn:Ea.
    set (d1 := set_tx d _ _ h ph _).
    assert (tx_at p (S c) d1) as Ht.
    { constructor; [done|..]; cbn.
      - by rewrite <- Ht2, <- Ea.
      - rewrite Ht3. unfold sq_advance. by destruct (sq_iter Q_MASK c). }
    destruct (IH m d1 p (S c) w Ht) as (h' & ph' & comp' & E & Hok); [lia|lia|lia|done|].
    exists h', ph', comp'. by rewrite E.
  - rewrite bool_decide_eq_false_2 by done. cbn [negb]. replace w with c by lia.
    exists (tx_cq_head d), (tx_cq_phase d), (tx_next_to_comp d). by destruct d.
Qed.

Lemma q_mask : Q_MASK = 2 ^ 8 - 1.
Proof. done. Qed.
Lemma io_depth : IO_DEPTH = 2 ^ 8.
Proof. done. Qed.

Lemma sq_tail_pos n : sq_iter Q_MASK n = (Z.of_nat n mod 2 ^ 16, phase_at IO_DEPTH (Z.of_nat n)).
Proof. rewrite q_mask, io_depth. apply sq_iter_pos. lia. Qed.

Lemma sq_slot n : slot (fst (sq_iter Q_MASK n)) Q_MASK = Z.of_nat n mod IO_DEPTH.
Proof.
  rewrite sq_tail_pos. cbn [fst]. unfold slot. rewrite q_mask, land_mask, io_depth by lia.
  change (2 ^ 16) with (2 ^ 8 * 2 ^ 8). apply Z.mod_mod_divide. by exists (2 ^ 8).
Qed.

Lemma free_exact p w : (w <= p)%nat -> Z.of_nat p - Z.of_nat w <= 255 ->
  free_slots (fst (sq_iter Q_MASK p)) (fst (sq_iter Q_MASK w)) IO_DEPTH = 255 - (Z.of_nat p - Z.of_nat w).
Proof.
  intros Hw Hp. rewrite !sq_tail_pos. cbn [fst]. unfold free_slots, u16.
  rewrite (wrap_small 16 (IO_DEPTH - 1)) by done.
  assert (wrap 16 (Z.of_nat p mod 2 ^ 16 - Z.of_nat w mod 2 ^ 16) = Z.of_nat p - Z.of_nat w) as ->.
  { unfold wrap. rewrite <- Zminus_mod. apply Z.mod_small. lia. }
  rewrite wrap_small by (unfold IO_DEPTH; lia). done.
Qed.

(** ** Properties *)

(** C16.  Transmission.  With [p] frames posted, [c] reaped and [w] completed by
    the adapter: sending reaps exactly the completed ones; the buffer the frame
    is built in belongs to no outstanding descriptor, even when the ring is full;
    the frame is dropped exactly when 255 are outstanding, and otherwise its
    descriptor, with the phase of its lap and the address of its buffer, is in
    its slot and the doorbell rings with the new tail.  No other byte of memory
    changes. *)
Theorem ena_tx_consume {D} (len_ : Z) f d (io0 : io D) p c w :
  tx_at p c d -> (c <= w <= p)%nat -> Z.of_nat p <= Z.of_nat c + 255 ->
  shows w (mem io0) (tx_cq d) 8 -> 0 <= len_ ->
  let sl := Z.of_nat p mod IO_DEPTH in
  let buf := tx_bufs d + sl * BUF_SIZE in
  let desc := tx_sq d + sl * 16 in
  (forall j, (w <= j < p)%nat -> Z.of_nat j mod IO_DEPTH <> sl)
  /\ exists d' io', tx_consume len_ f d io0 = Ret (d', io')
    /\ (forall a, ~ (buf <= a < buf + BUF_SIZE) -> ~ (desc <= a < desc + 16) ->
          peek8 (mem io') a = peek8 (mem io0) a)
    /\ (if decide (p - w = 255)%nat then tx_at p w d' /\ mmio io' = mmio io0
        else tx_at (S p) w d'
          /\ mmio io' = (bar0 d ⊞ tx_db d, Z.of_nat (S p) mod 2 ^ 16) :: mmio io0
          /\ load (mem io') desc 16 = tx_desc (phase_at IO_DEPTH (Z.of_nat p)) sl buf len_).
Proof.
  intros Ht Hcw Hp Hs Hlen. cbv zeta. split.
  { intros j Hj E. unfold IO_DEPTH in *. Z.div_mod_to_equations. lia. }
  unfold tx_consume, drain_tx.
  destruct (drain_loop_spec 257 (mem io0) d p c w Ht) as (h & ph & comp & -> & Ht1);
    [lia|unfold IO_DEPTH; lia|lia|done|].
  cbn [mbind outcome_bind]. set (d1 := set_tx d _ _ h ph comp) in *.
  destruct Ht as [Hsq _ _]. destruct Ht1 as [Hsq1 Hcq1 Hcomp1].
  pose proof (sq_slot p) as Hsl. rewrite <- Hsq in Hsl. cbn [fst] in Hsl.
  change (tx_sq_tail d1) with (tx_sq_tail d). change (tx_bufs d1) with (tx_bufs d).
  change (tx_sq d1) with (tx_sq d). change (tx_sq_phase d1) with (tx_sq_phase d).
  rewrite Hsl. set (sl := Z.of_nat p mod IO_DEPTH) in *. set (buf := tx_bufs d + sl * BUF_SIZE).
  unfold on_mem. cbv beta. cbn [mem mmio dma_next dev].
  set (frame := resize (Z.to_nat (Z.min len_ BUF_SIZE)) 0 _).
  assert (len frame <= BUF_SIZE) as Hfl.
  { subst frame. unfold len, BUF_SIZE. rewrite length_resize. lia. }
  assert (tx_free_slots d1 = 255 - (Z.of_nat p - Z.of_nat w)) as ->.
  { unfold tx_free_slots. rewrite Hcomp1. change (tx_sq_tail d1) with (tx_sq_tail d).
    rewrite <- (free_exact p w) by lia. by rewrite <- Hsq. }
  assert (forall a, ~ (buf <= a < buf + BUF_SIZE) ->
    peek8 (store (mem io0) buf frame) a = peek8 (mem io0) a) as Hout
    by (intros a Ha; apply peek_store_out; lia).
  destruct (decide (p - w = 255)%nat) as [Hfull|Hroom].
  - rewrite (proj2 (Z.eqb_eq _ 0)) by lia. eexists _, _. split; [done|]. split; [auto|]. by split.
  - rewrite (proj2 (Z.eqb_neq _ 0)) by lia.
    destruct (sq_advance (tx_sq_tail d) (tx_sq_phase d) Q_MASK) as [t ph'] eqn:Ea.
    assert ((t, ph') = sq_iter Q_MASK (S p)) as Hnext by (cbn [sq_iter]; by rewrite <- Hsq, Ea).
    eexists _, _. split; [done|]. split; [|split; [constructor; [done|exact Hcq1|done]|]].
    + intros a Ha Hd. unfold ring_tx_doorbell, write32. cbn [mem]. rewrite peek_store_out by (rewrite tx_desc_len; lia). auto.
    + unfold ring_tx_doorbell, write32. cbn [mem mmio bar0 tx_db tx_sq_tail set_tx d1]. split.
      * f_equal. f_equal. rewrite sq_tail_pos in Hnext. injection Hnext as -> _.
        apply u32_small. pose proof (Z.mod_pos_bound (Z.of_nat (S p)) (2 ^ 16) eq_refl). lia.
      * rewrite <- (tx_desc_len (tx_sq_phase d) sl buf len_) at 1. rewrite load_store.
        rewrite sq_tail_pos in Hsq. by injection Hsq as _ ->.
Qed.

Lemma top_byte m a : (forall x, is_byte (peek8 m x) = true) ->
  u8 (Z.land (Z.shiftr (le_val (load m a 4)) 24) 1) = Z.land (peek8 m (a + 3)) 1.
Proof.
  intros Hb. change (load m a 4) with [peek8 m (a + 0); peek8 m (a + 1); peek8 m (a + 2); peek8 m (a + 3)].
  assert (forall x, 0 <= peek8 m x < 256) as Hr.
  { intros x. specialize (Hb x). unfold is_byte in Hb. zb. lia. }
  pose proof (Hr (a + 0)). pose proof (Hr (a + 1)). pose proof (Hr (a + 2)).
  cbn [le_val]. set (b3 := peek8 m (a + 3)).
  match goal with |- context [Z.shiftr ?x 24] => replace (Z.shiftr x 24) with b3 end.
  2:{ rewrite Z.shiftr_div_pow2 by lia. change (2 ^ 24) with 16777216. Z.div_mod_to_equations. lia. }
  unfold u8. apply wrap_small. change 1 with (Z.ones 1). rewrite Z.land_ones by lia.
  pose proof (Z.mod_pos_bound b3 (2 ^ 1) eq_refl). lia.
Qed.

(** Reception.  With [p] buffers posted, [n] completions taken and [w]
    written: nothing is received when [n = w]; otherwise the packet is exactly
    the reported bytes of the reported buffer (empty if the report is out of
    range), the completion cursor moves to the next entry, and a valid buffer is
    posted again at the submission cursor, with the doorbell, so the number of
    posted buffers stays the number taken plus a constant.  Only the descriptor
    slot changes in memory. *)
Theorem ena_rx_receive {D} d (io0 : io D) p n w :
  rx_at p n d -> (n <= w)%nat -> Z.of_nat w <= Z.of_nat n + IO_DEPTH ->
  (forall a, is_byte (peek8 (mem io0) a) = true) -> shows w (mem io0) (rx_cq d) 16 ->
  let cdesc := rx_cq d + (Z.of_nat n mod IO_DEPTH) * 16 in
  let len_ := le_val (load (mem io0) (cdesc + 4) 2) in
  let req := le_val (load (mem io0) (cdesc + 6) 2) in
  let buf := rx_bufs d + req * BUF_SIZE in
  let desc := rx_sq d + (Z.of_nat p mod IO_DEPTH) * 16 in
  if decide (n = w) then receive d io0 = (d, io0, None)
  else exists d' io', receive d io0 = (d', io',
        Some (if (req <? N_RX_BUFS) && (len_ <=? BUF_SIZE) then load (mem io0) buf len_ else []))
    /\ (if req <? N_RX_BUFS then
          rx_at (S p) (S n) d'
          /\ mmio io' = (bar0 d ⊞ rx_db d, Z.of_nat (S p) mod 2 ^ 16) :: mmio io0
          /\ load (mem io') desc 16 = rx_desc (phase_at IO_DEPTH (Z.of_nat p)) req buf
          /\ forall a, ~ (desc <= a < desc + 16) -> peek8 (mem io') a = peek8 (mem io0) a
        else rx_at p (S n) d' /\ io' = io0).
Proof.
  intros [Hsq Hcq] Hn Hw Hb Hs. cbv zeta.
  pose proof (shows_ready w (mem io0) (rx_cq d) 16 n Hn Hw Hs) as Hr.
  rewrite <- Hcq in Hr. cbn [fst snd] in Hr. unfold receive. rewrite top_byte, ready_low, Hr by done.
  pose proof Hcq as Hh. rewrite cq_iter_pos in Hh by done. injection Hh as Hh _. rewrite <- Hh.
  destruct (decide (n = w)) as [->|Hne]; [by rewrite bool_decide_eq_false_2 by lia|].
  rewrite bool_decide_eq_true_2 by lia. cbn [negb].
  destruct (cq_advance (rx_cq_head d) (rx_cq_phase d) IO_DEPTH) as [h ph] eqn:Ea.
  assert ((h, ph) = cq_iter IO_DEPTH (S n)) as Hnext by (cbn [cq_iter]; by rewrite <- Hcq, Ea).
  set (req := le_val (load (mem io0) (_ + 6) 2)). destruct (req <? N_RX_BUFS) eqn:Er.
  - unfold post_rx_desc. cbn [rx_sq_tail rx_sq_phase rx_bufs rx_sq set_rx].
    pose proof (sq_slot p) as Hsl. rewrite <- Hsq in Hsl. cbn [fst] in Hsl. rewrite Hsl.
    destruct (sq_advance (rx_sq_tail d) (rx_sq_phase d) Q_MASK) as [t ph'] eqn:Es.
    assert ((t, ph') = sq_iter Q_MASK (S p)) as Hsn by (cbn [sq_iter]; by rewrite <- Hsq, Es).
    eexists _, _. split; [done|]. split; [by constructor|].
    unfold ring_rx_doorbell, write32, on_mem. cbn [mem mmio bar0 rx_db rx_sq_tail set_rx]. split; [|split].
    + f_equal. f_equal. rewrite sq_tail_pos in Hsn. injection Hsn as -> _.
      apply u32_small. pose proof (Z.mod_pos_bound (Z.of_nat (S p)) (2 ^ 16) eq_refl). lia.
    + rewrite <- (rx_desc_len (rx_sq_phase d) req (rx_bufs d + req * BUF_SIZE)) at 1. rewrite load_store.
      rewrite sq_tail_pos in Hsq. by injection Hsq as _ ->.
    + intros a Ha. apply peek_store_out. rewrite rx_desc_len. lia.
  - eexists _, _. split; [done|]. by split; [constructor|].
Qed.

(** ** Witnesses *)

(** A device with nothing posted, and one transmit completion written. *)
Definition demo_dev : EnaDevice :=
  mkEnaDevice 0 [] 0x1000 0x2000 8 0 1 0 1 0x100000 0x3000 0x4000 12 1 1 0 1 0x200000 0.
Definition demo_io : io unit := mkIo (<[0x4003 := 1]> (<[0x2003 := 1]> (<[0x2004 := 2]> ∅))) [] 0x5000 tt.

Lemma shows_check w m base size :
  forallb (fun s => bool_decide (dev_ring IO_DEPTH w !! Z.to_nat s
    = Some (Z.land (peek8 m (base + s * size + 3)) 1))) (seqZ 0 IO_DEPTH) = true ->
  shows w m base size.
Proof.
  intros Hall s Hs. rewrite forallb_forall in Hall. specialize (Hall s). apply bool_decide_eq_true in Hall; [done|].
  apply list_elem_of_In, elem_of_seqZ. lia.
Qed.

Lemma ena_tx_consume_witness :
  exists d' io', tx_consume 3 (fun _ => [1; 2; 3]) demo_dev demo_io = Ret (d', io')
    /\ tx_at 2 1 d' /\ mmio io' = [(12, 2)]
    /\ load (mem io') 0x3010 16 = tx_desc 1 1 0x200800 3.
Proof.
  destruct (ena_tx_consume 3 (fun _ => [1; 2; 3]) demo_dev demo_io 1 0 1) as (_ & d' & io' & E & _ & W).
  - by constructor.
  - lia.
  - lia.
  - apply shows_check. vm_compute. reflexivity.
  - lia.
  - exists d', io'. split; [exact E|]. exact W.
Defined.

Lemma demo_io_bytes a : is_byte (peek8 (mem demo_io) a) = true.
Proof.
  unfold peek8, demo_io. cbn [mem]. rewrite !lookup_insert.
  repeat case_decide; reflexivity.
Qed.

Lemma ena_rx_receive_witness :
  exists d' io', receive demo_dev demo_io = (d', io', Some [0; 0])
    /\ rx_at 1 1 d' /\ mmio io' = [(8, 1)]
    /\ load (mem io') 0x1000 16 = rx_desc 1 0 0x100000.
Proof.
  pose proof (ena_rx_receive demo_dev demo_io 0 0 1) as W. cbv zeta in W.
  destruct W as (d' & io' & E & W1 & W2 & W3 & _).
  - by constructor.
  - lia.
  - unfold IO_DEPTH; lia.
  - apply demo_io_bytes.
  - apply shows_check. vm_compute. reflexivity.
  - exists d', io'. split; [exact E|]. split; [exact W1|]. split; [exact W2|exact W3].
Defined.

(** ** The admin queue *)

(** After [n] commands and [c] completions; each command that timed out makes
    [c] fall one further behind [n]. *)
Record aq_at (n c : nat) (q : AdminQueue) : Prop := {
  aa_depth : depth q = 2 ^ 5;
  aa_sq : (sq_tail q, sq_phase q) = sq_iter (2 ^ 5 - 1) n;
  aa_cq : (cq_head q, cq_phase q) = cq_iter (2 ^ 5) c;
  aa_id : curr_cmd_id q = Z.of_nat n mod 2 ^ 5;
}.

(** A command as it is stored: with its id and the phase of its lap. *)
Definition stamped (n : nat) (cmd : list Z) : list Z :=
  alter (fun b => Z.lor b (phase_at (2 ^ 5) (Z.of_nat n))) 3%nat
    (<[1%nat := 0]> (<[0%nat := Z.of_nat n mod 2 ^ 5]> cmd)).

(** What a completion entry says. *)
Definition completion (e : list Z) : aq_result (list Z) :=
  match e !! 2%nat with
  | Some status => if status =? 0 then AOk e else AErr (NonZeroStatus status)
  | None => AErr CommandTimeout
  end.

Section AdminProps.
Context {D : Type} (env : io D -> io D) (now : D -> Z).
Hypothesis clock : forall w, 1 <= now (dev (env w)) - now (dev w) <= 2 ^ 62.

Lemma submit_spec cmd q w n c : aq_at n c q -> length cmd = 64%nat ->
  exists q1 w1, submit (D := D) cmd q w = (q1, w1)
    /\ depth q1 = 2 ^ 5 /\ (sq_tail q1, sq_phase q1) = sq_iter (2 ^ 5 - 1) (S n)
    /\ cq_head q1 = cq_head q /\ cq_phase q1 = cq_phase q /\ cq_base q1 = cq_base q /\ dev w1 = dev w
    /\ curr_cmd_id q1 = Z.of_nat (S n) mod 2 ^ 5
    /\ load (mem w1) (sq_base q + (Z.of_nat n mod 2 ^ 5) * 64) 64 = stamped n cmd
    /\ mmio w1 = (aq_bar0 q ⊞ AQ_DB, Z.of_nat (S n) mod 2 ^ 16) :: mmio w.
Proof.
  intros [Hd Hsq Hcq Hid] Hlen. unfold submit. rewrite Hd. change (u16 (2 ^ 5 - 1)) with (2 ^ 5 - 1).
  rewrite sq_iter_pos in Hsq by lia. injection Hsq as Ht Hp. rewrite Ht, Hp, Hid.
  pose proof (Z.mod_pos_bound (Z.of_nat n) (2 ^ 5) eq_refl) as Hb.
  assert (u16 (Z.of_nat n mod 2 ^ 16 + 1) = Z.of_nat (S n) mod 2 ^ 16) as Hnext.
  { unfold u16, wrap. rewrite Z.add_mod_idemp_l by lia. f_equal. lia. }
  assert (forall k, (Z.of_nat k mod 2 ^ 16) mod 2 ^ 5 = Z.of_nat k mod 2 ^ 5) as Hmm.
  { intros k. change (2 ^ 16) with (2 ^ 5 * 2 ^ 11). apply Z.mod_mod_divide. by exists (2 ^ 11). }
  eexists _, _. split; [reflexivity|]. cbn [depth sq_tail sq_phase cq_head cq_phase curr_cmd_id].
  split; [done|]. rewrite Hnext, !land_mask, !Hmm by lia. split.
  { rewrite sq_iter_pos by lia. f_equal. rewrite Nat2Z.inj_succ, <- Z.add_1_r. by rewrite phase_next. }
  do 4 (split; [done|]). split.
  { unfold u16. rewrite wrap_small by lia. rewrite Z.add_mod_idemp_l by lia. f_equal. lia. }
  unfold write32, on_mem. cbn [mem mmio]. split.
  - set (st := alter _ 3%nat _). assert (st = stamped n cmd) as ->.
    { subst st. unfold stamped. change 0xff with (2 ^ 8 - 1). change 0x0f with (2 ^ 4 - 1).
      rewrite !land_mask, Z.shiftr_div_pow2 by lia. rewrite (Z.mod_small _ (2 ^ 8)) by lia.
      rewrite (Z.div_small _ (2 ^ 8)) by lia.
      assert (Z.land (phase_at (2 ^ 5) (Z.of_nat n)) 1 = phase_at (2 ^ 5) (Z.of_nat n)) as ->; [|done].
      by destruct (phase_bit (2 ^ 5) (Z.of_nat n)) as [-> | ->]. }
    assert (len (stamped n cmd) = 64) as Hs.
    { unfold stamped, len. by rewrite length_alter, !length_insert, Hlen. }
    rewrite <- Hs at 2. apply load_store.
  - f_equal. f_equal. apply u32_small. pose proof (Z.mod_pos_bound (Z.of_nat (S n)) (2 ^ 16) eq_refl). lia.
Qed.

Lemma entry_status m a : exists s, index (load m a ADMIN_ENTRY_SIZE) 2 = Ret s
  /\ completion (load m a ADMIN_ENTRY_SIZE)
     = if negb (s =? 0) then AErr (NonZeroStatus s) else AOk (load m a ADMIN_ENTRY_SIZE).
Proof.
  unfold index, completion. change (0 <=? 2) with true. change (Z.to_nat 2) with 2%nat.
  set (out := load m a ADMIN_ENTRY_SIZE). destruct (lookup_lt_is_Some_2 out 2) as [x Hx].
  - subst out. unfold load. rewrite length_fmap, length_seqZ. unfold ADMIN_ENTRY_SIZE. lia.
  - exists x. rewrite Hx. split; [done|]. by destruct (x =? 0).
Qed.

Lemma poll_spec fuel : forall start q w c t,
  (cq_head q, cq_phase q) = cq_iter (2 ^ 5) c -> depth q = 2 ^ 5 ->
  start + t <= now (dev w) -> now (dev w) <= start + ADMIN_CMD_TIMEOUT_NS -> 0 <= t ->
  ADMIN_CMD_TIMEOUT_NS - t < Z.of_nat fuel ->
  exists q' w' r, poll env now fuel start q w = Ret (q', w', r)
    /\ (r = AErr CommandTimeout /\ q' = q /\ ADMIN_CMD_TIMEOUT_NS < now (dev w') - start
        \/ (cq_head q', cq_phase q') = cq_iter (2 ^ 5) (S c) /\ depth q' = 2 ^ 5
           /\ sq_tail q' = sq_tail q /\ sq_phase q' = sq_phase q /\ curr_cmd_id q' = curr_cmd_id q
           /\ Z.land (peek8 (mem w') (cq_base q + cq_head q * ADMIN_ENTRY_SIZE + 3)) 1 = cq_phase q
           /\ r = completion (load (mem w') (cq_base q + cq_head q * ADMIN_ENTRY_SIZE) ADMIN_ENTRY_SIZE)).
Proof.
  induction fuel as [|fuel IH]; intros start q w c t Hcq Hd Hge Hle Ht Hf.
  { unfold ADMIN_CMD_TIMEOUT_NS in *. lia. }
  cbn [poll]. destruct (Z.eqb_spec (Z.land (peek8 (mem (env w)) (cq_base q + cq_head q * ADMIN_ENTRY_SIZE + 3)) 1) (cq_phase q)) as [Hph|].
  - destruct (entry_status (mem (env w)) (cq_base q + cq_head q * ADMIN_ENTRY_SIZE)) as (st & -> & Hcomp).
    cbn [mbind outcome_bind]. set (q1 := mkAdminQueue _ _ _ _ _ _ _ _ _).
    assert ((cq_head q1, cq_phase q1) = cq_iter (2 ^ 5) (S c)) as Hnext.
    { cbn [cq_iter]. rewrite <- Hcq. unfold cq_advance. cbn [cq_head cq_phase q1]. rewrite Hd.
      by destruct (u16 (cq_head q + 1) =? 2 ^ 5). }
    destruct (negb (st =? 0)); eexists _, _, _; (split; [done|]); right; by repeat split.
  - pose proof (clock w) as Hc.
    assert (now (dev (env w)) ⊟ start = now (dev (env w)) - start) as ->
      by (apply u64_small; unfold ADMIN_CMD_TIMEOUT_NS in *; lia).
    rewrite Z.gtb_ltb. destruct (Z.ltb_spec ADMIN_CMD_TIMEOUT_NS (now (dev (env w)) - start)).
    + eexists _, _, _. split; [done|]. by left.
    + apply (IH start q (env w) c (t + 1)); [done|done|lia|lia|lia|lia].
Qed.

(** C17.  Admin commands, with [n] submitted and [c] completed before.  The
    command is in its slot of the submission ring, stamped with its id and the
    phase of its lap, when the doorbell rings with the new tail.  If time
    advances between two polls the call returns (at most 10^9 + 1 polls), in
    one of two ways.  Either an entry with the phase of its lap is in slot
    [c mod 32] of the completion ring, that entry is the answer (an error when
    its status is not zero), and both cursors and the command id are at the
    next position; or more than a second has passed, the answer is a timeout,
    and only the submission side has advanced: from then on the completion
    cursor stays behind, and the next call takes the late answer of this
    command for its own. *)
Theorem admin_command_total fuel cmd q w n c :
  aq_at n c q -> length cmd = 64%nat -> ADMIN_CMD_TIMEOUT_NS < Z.of_nat fuel ->
  (let w1 := snd (submit cmd q w) in
   load (mem w1) (sq_base q + (Z.of_nat n mod 2 ^ 5) * 64) 64 = stamped n cmd
   /\ mmio w1 = (aq_bar0 q ⊞ AQ_DB, Z.of_nat (S n) mod 2 ^ 16) :: mmio w)
  /\ exists q' w' r, submit_and_poll env now fuel cmd q w = Ret (q', w', r)
    /\ (let entry := cq_base q + (Z.of_nat c mod 2 ^ 5) * 64 in
        aq_at (S n) (S c) q'
          /\ Z.land (peek8 (mem w') (entry + 3)) 1 = phase_at (2 ^ 5) (Z.of_nat c)
          /\ r = completion (load (mem w') entry 64)
        \/ aq_at (S n) c q' /\ r = AErr CommandTimeout
          /\ ADMIN_CMD_TIMEOUT_NS < now (dev w') - now (dev w)).
Proof.
  intros Hq Hl Hf.
  destruct (submit_spec cmd q w n c Hq Hl) as (q1 & w1 & E & Hd & Hsq & Hh & Hp & Hb & Hdv & Hid & Hld & Hmm).
  unfold submit_and_poll. rewrite E. split; [by split|].
  destruct Hq as [_ _ Hcq _]. pose proof Hcq as Hpos. rewrite cq_iter_pos in Hpos by lia. injection Hpos as Eh Ep.
  destruct (poll_spec fuel (now (dev w1)) q1 w1 c 0) as (q' & w' & r & -> & Hr);
    [by rewrite Hh, Hp|done|lia|unfold ADMIN_CMD_TIMEOUT_NS; lia|lia|lia|].
  exists q', w', r. split; [done|]. cbv zeta.
  destruct Hr as [(-> & -> & Htm)|(Hc' & Hd' & Ht' & Hp' & Hi' & Hph & ->)].
  - right. rewrite <- Hdv. split; [|done]. constructor; [done|done|by rewrite Hh, Hp|done].
  - left. rewrite Hb, Hh, Hp, Eh, Ep in *. split; [|done].
    constructor; [done|by rewrite Ht', Hp'|done|by rewrite Hi'].
Qed.

End AdminProps.

(** An adapter on a clock of one microsecond per poll that posts the
    completion of slot 0 at the third poll. *)
Definition answering (w : io Z) : io Z :=
  mkIo (if dev w =? 2000 then store (mem w) 0x2000 [0; 0; 0; 1; 42] else mem w)
    (mmio w) (dma_next w) (dev w + 1000).
Definition demo_aq : AdminQueue := mkAdminQueue 0 0x1000 0x2000 32 0 1 0 1 0.
Definition demo_aq_io : io Z := mkIo ∅ [] 0x5000 0.

Lemma admin_command_total_witness :
  exists q' w', submit_and_poll answering id (3 + Z.to_nat ADMIN_CMD_TIMEOUT_NS) zero_cmd demo_aq demo_aq_io
      = Ret (q', w', AOk ([0; 0; 0; 1; 42] ++ replicate 59 0))
    /\ aq_at 1 1 q' /\ dev w' = 3000.
Proof.
  destruct (admin_command_total answering id ltac:(intros w; cbn; unfold id; lia)
    (3 + Z.to_nat ADMIN_CMD_TIMEOUT_NS) zero_cmd demo_aq demo_aq_io 0 0) as (_ & q' & w' & r & E & Hr).
  - by constructor.
  - reflexivity.
  - rewrite Nat2Z.inj_add, Z2Nat.id by (unfold ADMIN_CMD_TIMEOUT_NS; lia). lia.
  - revert E. generalize (Z.to_nat ADMIN_CMD_TIMEOUT_NS). intros k E.
    assert (dev w' = 3000 /\ r = AOk ([0; 0; 0; 1; 42] ++ replicate 59 0)) as [Ew ->].
    { vm_compute in E. injection E as <- <- <-. split; reflexivity. }
    exists q', w'. split; [exact E|]. destruct Hr as [(H1 & _)|(_ & H2 & _)]; [|discriminate H2].
    split; [exact H1|exact Ew].
Defined.
