(* ===== verification/Mmap.v ===== *)
(** * Anonymous memory: brk, mmap, munmap

    The address-space allocator of [syscall.rs]: a bump pointer, a list of freed
    regions with coalescing and best-fit reuse, and the program break.  Zero
    fills go through the user-memory interface. *)

From S2P Require Import Prelude Uaccess.

Definition MMAP_BASE : Z := 0x1A000000.
Definition MMAP_LIMIT : Z := 0xA0000000.
Definition MAP_FIXED : Z := 0x10.

Record mm := mkMm {
  mmap_next : Z;
  free : list (Z * Z);
  brk_top : Z;
  brk_base : Z;
}.
Definition mm_boot : mm := mkMm MMAP_BASE [] 0 0.

Definition set_free (fr : list (Z * Z)) (st : mm) : mm := mkMm (mmap_next st) fr (brk_top st) (brk_base st).

(** [x & !0xFFF]. *)
Definition page_down (x : Z) : Z := Z.land x (Z.lnot 0xFFF).

Definition set_initial_brk (mem_end : Z) (st : mm) : mm :=
  mkMm (mmap_next st) (free st) mem_end (brk_base st).

Definition sys_brk (addr : Z) (st : mm) : mm * Z :=
  if addr =? 0 then (st, i64 (brk_top st))
  else (mkMm (mmap_next st) (free st) addr (if brk_base st =? 0 then addr else brk_base st), i64 addr).

(** ** The free list *)

(** The first loop of [free_regions_add]: the first entry adjacent to the new
    range absorbs it. *)
Fixpoint merge_first (i : nat) (na nl : Z) (fr : list (Z * Z)) : list (Z * Z) * option (nat * Z * Z) :=
  match fr with
  | [] => ([], None)
  | (a, l) :: fr' =>
      if a ⊞ l =? na then ((a, l ⊞ nl) :: fr', Some (i, a, l ⊞ nl))
      else if na ⊞ nl =? a then ((na, l ⊞ nl) :: fr', Some (i, na, l ⊞ nl))
      else let '(fr'', r) := merge_first (S i) na nl fr' in ((a, l) :: fr'', r)
  end.

(** The second loop: another entry the extended range now touches. *)
Fixpoint find_second (j i : nat) (na nl : Z) (fr : list (Z * Z)) : option nat :=
  match fr with
  | [] => None
  | (a, l) :: fr' =>
      if (j =? i)%nat then find_second (S j) i na nl fr'
      else if (a ⊞ l =? na) || (na ⊞ nl =? a) then Some j
      else find_second (S j) i na nl fr'
  end.

Definition free_regions_add (addr len_ : Z) (fr : list (Z * Z)) : list (Z * Z) :=
  match merge_first 0 addr len_ fr with
  | (_, None) => fr ++ [(addr, len_)]
  | (fr, Some (i, na, nl)) =>
      match find_second 0 i na nl fr with
      | None => fr
      | Some j =>
          let '(oa, ol) := default (0, 0) (fr !! j) in
          let fr := delete j fr in
          let i := if (j <? i)%nat then (i - 1)%nat else i in
          let '(lo, hi) := if oa <? na then (oa, na ⊞ nl) else (na, oa ⊞ ol) in
          <[i := (lo, hi ⊟ lo)]> fr
      end
  end.

(** The best-fit search of [free_regions_take]. *)
Fixpoint best_fit (i : nat) (len_ : Z) (fr : list (Z * Z)) (best : option nat) (best_excess : Z) : option nat :=
  match fr with
  | [] => best
  | (_, l) :: fr' =>
      if l >=? len_ then
        let excess := l - len_ in
        if excess <? best_excess then
          if excess =? 0 then Some i else best_fit (S i) len_ fr' (Some i) excess
        else best_fit (S i) len_ fr' best best_excess
      else best_fit (S i) len_ fr' best best_excess
  end.

(** [Vec::swap_remove]. *)
Definition swap_remove (i : nat) (fr : list (Z * Z)) : list (Z * Z) :=
  match last fr with
  | Some x => take (length fr - 1) (<[i := x]> fr)
  | None => fr
  end.

Definition free_regions_take (len_ : Z) (fr : list (Z * Z)) : list (Z * Z) * option Z :=
  match best_fit 0 len_ fr None u64_max with
  | None => (fr, None)
  | Some i =>
      let '(a, l) := default (0, 0) (fr !! i) in
      (if l =? len_ then swap_remove i fr else <[i := (a ⊞ len_, l ⊟ len_)]> fr, Some a)
  end.

(** [retain] with the pieces to add back. *)
Fixpoint drop_loop (addr end_ : Z) (fr : list (Z * Z)) : list (Z * Z) * list (Z * Z) :=
  match fr with
  | [] => ([], [])
  | (a, l) :: fr' =>
      let '(keep, add) := drop_loop addr end_ fr' in
      let r_end := a ⊞ l in
      if (r_end <=? addr) || (a >=? end_) then ((a, l) :: keep, add)
      else (keep, (if a <? addr then [(a, addr ⊟ a)] else [])
                  ++ (if r_end >? end_ then [(end_, r_end ⊟ end_)] else []) ++ add)
  end.
Definition free_regions_drop_range (addr len_ : Z) (fr : list (Z * Z)) : list (Z * Z) :=
  let '(keep, add) := drop_loop addr (addr ⊞ len_) fr in keep ++ add.

(** ** System calls *)

Section Mem.
Context {M : Type} `{UserMem M}.

(** The guarded zero fill, whose failure is ignored. *)
Definition zero_fill (addr aligned : Z) (m : M) : M :=
  if aligned <=? 0x4000000
  then default m (um_out m addr (replicate (Z.to_nat aligned) 0))
  else m.

Definition sys_mmap (addr length_ flags : Z) (st : mm) (m : M) : mm * M * Z :=
  let aligned := page_down (length_ ⊞ 0xFFF) in
  if negb (addr =? 0) && negb (Z.land flags MAP_FIXED =? 0) then
    if saturating_add addr aligned >? MMAP_LIMIT then (st, m, - ENOMEM) else
    (set_free (free_regions_drop_range addr aligned (free st)) st, zero_fill addr aligned m, i64 addr)
  else
    match free_regions_take aligned (free st) with
    | (fr, Some reused) => (set_free fr st, zero_fill reused aligned m, i64 reused)
    | (_, None) =>
        let cur := mmap_next st in
        let new := saturating_add cur aligned in
        if new >? MMAP_LIMIT then (st, m, - ENOMEM)
        else (mkMm new (free st) (brk_top st) (brk_base st), m, i64 cur)
    end.

End Mem.

Definition sys_munmap (addr length_ : Z) (st : mm) : mm * Z :=
  if (addr =? 0) || (length_ =? 0) then (st, - EINVAL) else
  let aligned_addr := page_down addr in
  let aligned_len := page_down (length_ ⊞ (addr ⊟ aligned_addr) ⊞ 0xFFF) in
  if (aligned_addr >=? MMAP_BASE) && (aligned_addr ⊞ aligned_len <=? MMAP_LIMIT)
  then (set_free (free_regions_add aligned_addr aligned_len (free st)) st, 0)
  else (st, 0).

(** ** Specification: disjoint regions *)

Definition disj (r s : Z * Z) : Prop := fst r + snd r <= fst s \/ fst s + snd s <= fst r.

Fixpoint apart (rs : list (Z * Z)) : Prop :=
  match rs with [] => True | r :: rs' => Forall (disj r) rs' /\ apart rs' end.

(** Page-aligned, non-empty, inside the managed range below [hi]. *)
Definition region_ok (hi : Z) (r : Z * Z) : Prop :=
  MMAP_BASE <= fst r /\ 0 < snd r /\ fst r + snd r <= hi /\ fst r mod 4096 = 0 /\ snd r mod 4096 = 0.

Definition regions_ok (hi : Z) (rs : list (Z * Z)) : Prop := Forall (region_ok hi) rs /\ apart rs.

(** An address lies in one of the regions. *)
Definition covers (rs : list (Z * Z)) (x : Z) : Prop := exists r, r ∈ rs /\ fst r <= x < fst r + snd r.

(** ** Lemmas *)
Lemma page_down_spec x : page_down x = x / 4096 * 4096.
Proof.
  unfold page_down. change 0xFFF with (Z.ones 12). rewrite <- Z.ldiff_land, Z.ldiff_ones_r by lia.
  by rewrite Z.shiftl_mul_pow2, Z.shiftr_div_pow2 by lia.
Qed.

#[export] Instance disj_sym : Symmetric disj.
Proof. intros r s [|]; [right|left]; done. Qed.

Lemma apart_perm l k : l ≡ₚ k -> apart l -> apart k.
Proof.
  induction 1 as [|x l k Hp IH|x y l|l k j _ IH1 _ IH2]; cbn; [done| | |auto].
  - intros [Hx Hl]. split; [by rewrite <- Hp|auto].
  - rewrite !Forall_cons. intros ((Hxy & Hy) & Hx & Hl). split; [split; [by symmetry|done]|done].
Qed.

Lemma regions_perm hi l k : l ≡ₚ k -> regions_ok hi l -> regions_ok hi k.
Proof. intros Hp [Hf Ha]. split; [by rewrite <- Hp|by eapply apart_perm]. Qed.

Lemma regions_cons hi r l :
  regions_ok hi (r :: l) <-> region_ok hi r /\ Forall (disj r) l /\ regions_ok hi l.
Proof. unfold regions_ok. cbn. rewrite Forall_cons. tauto. Qed.

Lemma regions_mono hi hi' l : hi <= hi' -> regions_ok hi l -> regions_ok hi' l.
Proof.
  intros Hh [Hf Ha]. split; [|done]. eapply Forall_impl; [done|]. intros [a n]. unfold region_ok. cbn. lia.
Qed.

(** Two adjacent regions and their union. *)
Lemma regions_merge hi a n k l :
  regions_ok hi ((a, n) :: (a + n, k) :: l) -> regions_ok hi ((a, n + k) :: l).
Proof.
  rewrite !regions_cons, Forall_cons. intros (H1 & (_ & Hd1) & H2 & Hd2 & Hl). split.
  - unfold region_ok in *. cbn in *. repeat split; try lia. rewrite Z.add_mod, (proj2 (proj2 (proj2 (proj2 H1)))) by lia.
    rewrite (proj2 (proj2 (proj2 (proj2 H2)))). done.
  - split; [|done]. rewrite Forall_forall in *. intros s Hs. specialize (Hd1 s Hs). specialize (Hd2 s Hs).
    unfold region_ok, disj in *. cbn in *. destruct Hl as [Hf _]. rewrite Forall_forall in Hf.
    specialize (Hf s Hs). unfold region_ok in Hf. lia.
Qed.

(** A region cut in two at a page boundary. *)
Lemma regions_split hi a n k l :
  0 < n < k -> n mod 4096 = 0 ->
  regions_ok hi ((a, k) :: l) -> regions_ok hi ((a, n) :: (a + n, k - n) :: l).
Proof.
  rewrite !regions_cons, Forall_cons. intros Hn Hm (H1 & Hd & Hl). unfold region_ok in *. cbn in *.
  destruct H1 as (? & ? & ? & Ha & Hk).
  split; [lia|]. split; [split; [unfold disj; cbn; lia|]|split; [|split; [|done]]].
  - eapply Forall_impl; [done|]. intros s. unfold disj. cbn. lia.
  - repeat split; try lia; [by rewrite Z.add_mod, Ha, Hm by lia|by rewrite Zminus_mod, Hk, Hm].
  - eapply Forall_impl; [done|]. intros s. unfold disj. cbn. lia.
Qed.

(** *** Insertion *)

Definition small (r : Z * Z) : Prop := 0 <= fst r /\ 0 < snd r /\ fst r + snd r < 2 ^ 63.

Lemma region_small hi r : hi <= MMAP_LIMIT -> region_ok hi r -> small r.
Proof. unfold region_ok, small, MMAP_BASE, MMAP_LIMIT. lia. Qed.

Lemma merge_first_spec na nl fr : forall i fr' r,
  small (na, nl) -> Forall small fr -> merge_first i na nl fr = (fr', r) ->
  match r with
  | None => fr' = fr
  | Some (k, a', l') => exists a l rest, (i <= k)%nat /\ fr' !! (k - i)%nat = Some (a', l')
      /\ fr ≡ₚ (a, l) :: rest /\ fr' ≡ₚ (a', l') :: rest /\ l' = l + nl
      /\ (a + l = na /\ a' = a \/ na + nl = a /\ a' = na)
  end.
Proof.
  induction fr as [|[a l] fr IH]; intros i fr' r Hs Hf E; cbn [merge_first] in E; [by simplify_eq|].
  inversion Hf as [|?? Ha Hf']; subst. unfold small in Ha, Hs. cbn in Ha, Hs.
  destruct Ha as (Ha1 & Ha2 & Ha3), Hs as (Hs1 & Hs2 & Hs3).
  rewrite !(u64_small (l + nl)), (u64_small (a + l)), (u64_small (na + nl)) in E by lia.
  destruct (Z.eqb_spec (a + l) na) as [E1|E1].
  { simplify_eq. exists a, l, fr. rewrite Nat.sub_diag. split; [lia|]. split; [done|]. split; [done|].
    split; [done|]. split; [done|]. by left. }
  destruct (Z.eqb_spec (na + nl) a) as [E2|E2].
  { simplify_eq. exists (na + nl), l, fr. rewrite Nat.sub_diag. split; [lia|]. split; [done|]. split; [done|].
    split; [done|]. split; [done|]. by right. }
  destruct (merge_first (S i) na nl fr) as [fr'' r''] eqn:Em. injection E as <- <-.
  specialize (IH (S i) fr'' r'' ltac:(done) Hf' Em). destruct r'' as [[[k a'] l']|]; [|by subst].
  destruct IH as (a0 & l0 & rest & Hk & Hlk & Hp & Hp' & Hl & Hc).
  exists a0, l0, ((a, l) :: rest). split; [lia|].
  split; [replace (k - i)%nat with (S (k - S i)) by lia; done|].
  split; [rewrite Hp; apply Permutation_swap|]. split; [rewrite Hp'; apply Permutation_swap|]. done.
Qed.

Lemma find_second_spec i na nl fr : forall j k,
  small (na, nl) -> Forall small fr -> find_second j i na nl fr = Some k ->
  exists a l, (j <= k)%nat /\ k <> i /\ fr !! (k - j)%nat = Some (a, l) /\ (a + l = na \/ na + nl = a).
Proof.
  induction fr as [|[a l] fr IH]; intros j k Hs Hf E; cbn [find_second] in E; [done|].
  inversion Hf as [|?? Ha Hf']; subst. pose proof Hs as Hs'. unfold small in Ha, Hs. cbn in Ha, Hs.
  assert (forall k, find_second (S j) i na nl fr = Some k -> exists a0 l0, (j <= k)%nat /\ k <> i
    /\ ((a, l) :: fr) !! (k - j)%nat = Some (a0, l0) /\ (a0 + l0 = na \/ na + nl = a0)) as Hrec.
  { intros k' E'. destruct (IH (S j) k' Hs' Hf' E') as (a0 & l0 & Hk & Hne & Hlk & Hc).
    exists a0, l0. split; [lia|]. split; [done|].
    split; [replace (k' - j)%nat with (S (k' - S j)) by lia; done|done]. }
  destruct (Nat.eqb_spec j i); [by apply Hrec|].
  rewrite (u64_small (a + l)), (u64_small (na + nl)) in E by lia.
  destruct ((a + l =? na) || (na + nl =? a)) eqn:Eb; [|by apply Hrec].
  simplify_eq. exists a, l. rewrite Nat.sub_diag. apply orb_true_iff in Eb as [Eb|Eb]; zb; auto.
Qed.

(** Coalescing: reordering, and replacing two adjacent regions by their union. *)
Inductive coal : list (Z * Z) -> list (Z * Z) -> Prop :=
| coal_perm l k : l ≡ₚ k -> coal l k
| coal_merge a n m l rest k :
    l ≡ₚ (a, n) :: (a + n, m) :: rest -> coal ((a, n + m) :: rest) k -> coal l k.

Lemma coal_regions hi l k own : coal l k -> regions_ok hi (l ++ own) -> regions_ok hi (k ++ own).
Proof.
  induction 1 as [l k Hp|a n m l rest k Hp _ IH]; intros Hr.
  - eapply regions_perm; [|done]. by rewrite Hp.
  - apply IH. apply (regions_merge hi a n m). eapply regions_perm; [|done]. by rewrite Hp.
Qed.

Lemma coal_covers l k x : coal l k -> Forall small l -> covers l x <-> covers k x.
Proof.
  induction 1 as [l k Hp|a n m l rest k Hp _ IH]; intros Hs.
  - unfold covers. by setoid_rewrite Hp.
  - assert (Forall small ((a, n + m) :: rest)) as Hs'.
    { rewrite Hp, !Forall_cons in Hs. rewrite Forall_cons. unfold small in *. cbn in *. split; [lia|tauto]. }
    rewrite <- IH by done. unfold covers. setoid_rewrite Hp. setoid_rewrite elem_of_cons.
    rewrite Hp, !Forall_cons in Hs. unfold small in Hs. cbn in Hs. split.
    + intros (r & [-> |Hr] & Hx); [exists (a, n + m); cbn in *; split; [auto|lia]|].
      apply elem_of_cons in Hr as [-> |Hr]; [exists (a, n + m); cbn in *; split; [auto|lia]|eauto].
    + intros (r & [-> |Hr] & Hx); [|exists r; split; [right; by apply elem_of_cons; right|done]].
      cbn in Hx. destruct (Z_lt_ge_dec x (a + n)).
      * exists (a, n). cbn. split; [auto|lia].
      * exists (a + n, m). cbn. split; [right; apply elem_of_cons; auto|lia].
Qed.

Lemma insert_perm {A} (l : list A) i x : (i < length l)%nat -> <[i := x]> l ≡ₚ x :: delete i l.
Proof.
  intros Hi. rewrite insert_take_drop, delete_take_drop by done. symmetry. apply Permutation_middle.
Qed.

Lemma add_coal addr n fr :
  Forall small ((addr, n) :: fr) -> coal ((addr, n) :: fr) (free_regions_add addr n fr).
Proof.
  intros Hs. pose proof Hs as [Hn Hf]%Forall_cons. unfold free_regions_add.
  destruct (merge_first 0 addr n fr) as [fr1 [[[i na] nl]|]] eqn:Em;
    (apply merge_first_spec in Em; [|done|done]).
  2:{ apply coal_perm. by rewrite Permutation_app_comm. }
  destruct Em as (a & l & rest & _ & Hi & Hp & Hp1 & Hnl & Hadj). rewrite Nat.sub_0_r in Hi.
  assert (forall k, coal ((na, nl) :: rest) k -> coal ((addr, n) :: fr) k) as Hstep.
  { intros k Hk. destruct Hadj as [[E ->]|[E ->]].
    - apply (coal_merge a l n _ rest); [rewrite Hp, <- E; apply Permutation_swap|by rewrite <- Hnl].
    - apply (coal_merge addr n l _ rest); [by rewrite Hp, E|]. by replace (n + l) with nl by lia. }
  apply Hstep. assert (Forall small fr1) as Hf1.
  { rewrite Hp1. rewrite Hp in Hf. apply Forall_cons in Hf as [Hal Hr]. apply Forall_cons. split; [|done].
    unfold small in *. cbn in *. lia. }
  assert (small (na, nl)) as Hm by (rewrite Hp1 in Hf1; by apply Forall_cons in Hf1 as [? _]).
  destruct (find_second 0 i na nl fr1) as [j|] eqn:Ej; [|by apply coal_perm].
  apply find_second_spec in Ej as (oa & ol & _ & Hne & Hj & Hadj2); [|done|done].
  rewrite Nat.sub_0_r in Hj. rewrite Hj. cbn [default from_option id].
  set (i' := if (j <? i)%nat then (i - 1)%nat else i).
  assert (delete j fr1 !! i' = Some (na, nl)) as Hi'.
  { subst i'. destruct (Nat.ltb_spec j i).
    - rewrite list_lookup_delete_ge by lia. by replace (S (i - 1)) with i by lia.
    - by rewrite list_lookup_delete_lt by lia. }
  pose proof (delete_Permutation fr1 j _ Hj) as Hpj. pose proof (delete_Permutation _ i' _ Hi') as Hpi.
  set (rest2 := delete i' (delete j fr1)) in *.
  assert (rest ≡ₚ (oa, ol) :: rest2) as Hr2.
  { apply (Permutation_cons_inv (a := (na, nl))). rewrite <- Hp1, Hpj, Hpi. apply Permutation_swap. }
  assert (small (oa, ol)) as Ho by (rewrite Forall_forall in Hf1; apply Hf1; by eapply list_elem_of_lookup_2).
  unfold small in Ho, Hm. cbn in Ho, Hm.
  assert (forall x, <[i' := x]> (delete j fr1) ≡ₚ x :: rest2) as Hins.
  { intros x. apply insert_perm. by eapply lookup_lt_Some. }
  destruct (Z.ltb_spec oa na).
  - rewrite (u64_small (na + nl)), u64_small by lia. destruct Hadj2 as [E|E]; [|lia].
    apply (coal_merge oa ol nl _ rest2); [rewrite Hr2, E; apply Permutation_swap|].
    apply coal_perm. rewrite Hins. by replace (na + nl - oa) with (ol + nl) by lia.
  - rewrite (u64_small (oa + ol)), u64_small by lia. destruct Hadj2 as [E|E]; [lia|].
    apply (coal_merge na nl ol _ rest2); [by rewrite Hr2, E|].
    apply coal_perm. rewrite Hins. by replace (oa + ol - na) with (nl + ol) by lia.
Qed.

(** *** Best fit *)
Lemma best_fit_spec n fr : forall i best be,
  match best_fit i n fr best be with
  | None => best = None /\ forall r, r ∈ fr -> snd r < n \/ be <= snd r - n
  | Some k =>
      best = Some k /\ (forall r, r ∈ fr -> snd r < n \/ be <= snd r - n)
      \/ exists r, (i <= k)%nat /\ fr !! (k - i)%nat = Some r /\ n <= snd r /\ snd r - n < be
           /\ forall s, s ∈ fr -> snd s < n \/ snd r <= snd s
  end.
Proof.
  induction fr as [|[a l] fr IH]; intros i best be; cbn [best_fit].
  { destruct best; [left|]; (split; [done|]); intros r Hr; by apply not_elem_of_nil in Hr. }
  assert (forall best' be', (l < n \/ be' <= l - n) ->
    match best_fit (S i) n fr best' be' with
    | None => best' = None /\ forall r, r ∈ (a, l) :: fr -> snd r < n \/ be' <= snd r - n
    | Some k =>
        best' = Some k /\ (forall r, r ∈ (a, l) :: fr -> snd r < n \/ be' <= snd r - n)
        \/ exists r, (i < k)%nat /\ ((a, l) :: fr) !! (k - i)%nat = Some r /\ n <= snd r /\ snd r - n < be'
             /\ forall s, s ∈ (a, l) :: fr -> snd s < n \/ snd r <= snd s
    end) as Hskip.
  { intros best' be' Hhd. specialize (IH (S i) best' be'). destruct (best_fit (S i) n fr best' be') as [k|].
    - destruct IH as [[-> Hall]|(r & Hk & Hr & Hn & Hb & Hall)].
      + left. split; [done|]. intros r [-> |Hr]%elem_of_cons; [done|auto].
      + right. exists r. split; [lia|]. split; [by replace (k - i)%nat with (S (k - S i)) by lia|].
        split; [done|]. split; [done|]. intros s [-> |Hs]%elem_of_cons; [cbn; lia|auto].
    - destruct IH as [-> Hall]. split; [done|]. intros r [-> |Hr]%elem_of_cons; [done|auto]. }
  destruct (Z.geb_spec l n).
  2:{ specialize (Hskip best be ltac:(lia)). destruct (best_fit (S i) n fr best be); [|done].
      destruct Hskip as [?|(r & ? & ?)]; [by left|right; exists r; split; [lia|done]]. }
  destruct (Z.ltb_spec (l - n) be).
  2:{ specialize (Hskip best be ltac:(lia)). destruct (best_fit (S i) n fr best be); [|done].
      destruct Hskip as [?|(r & ? & ?)]; [by left|right; exists r; split; [lia|done]]. }
  destruct (Z.eqb_spec (l - n) 0).
  - right. exists (a, l). rewrite Nat.sub_diag. cbn. repeat split; try lia.
  - specialize (Hskip (Some i) (l - n) ltac:(lia)).
    destruct (best_fit (S i) n fr (Some i) (l - n)) as [k|]; [|by destruct Hskip].
    right. destruct Hskip as [[[= <-] Hall]|(r & ? & ? & ? & ? & ?)].
    + exists (a, l). rewrite Nat.sub_diag. split; [lia|]. split; [done|]. cbn. split; [lia|]. split; [lia|].
      intros s Hs. specialize (Hall s Hs). lia.
    + exists r. split; [lia|]. split; [done|]. split; [done|]. split; [lia|done].
Qed.

Lemma swap_remove_perm i x fr : fr !! i = Some x -> fr ≡ₚ x :: swap_remove i fr.
Proof.
  intros Hi. unfold swap_remove. destruct fr as [|y fr'] using rev_ind; [done|]. clear IHfr'.
  rewrite last_snoc, length_app. cbn [length]. rewrite Nat.add_sub.
  destruct (decide (i = length fr')) as [->|Hne].
  - rewrite list_lookup_middle in Hi by done. injection Hi as ->.
    rewrite take_insert_ge, take_app_length by lia. by rewrite Permutation_app_comm.
  - assert (i < length fr')%nat as Hlt by (apply lookup_lt_Some in Hi; rewrite length_app in Hi; cbn in Hi; lia).
    rewrite lookup_app_l in Hi by done. rewrite insert_app_l, take_app_length' by (by rewrite ?length_insert).
    rewrite insert_perm by done. rewrite (delete_Permutation fr' i x Hi) at 1.
    cbn. apply Permutation_cons; [done|]. by rewrite Permutation_app_comm.
Qed.

(** Reuse: the list is cut at the smallest region that fits. *)
Lemma take_spec n fr :
  0 < n -> Forall small fr ->
  match free_regions_take n fr with
  | (fr', None) => fr' = fr /\ forall r, r ∈ fr -> snd r < n
  | (fr', Some a) => exists l rest, fr ≡ₚ (a, l) :: rest /\ n <= l
      /\ fr' ≡ₚ (if l =? n then rest else (a + n, l - n) :: rest)
      /\ forall r, r ∈ fr -> snd r < n \/ l <= snd r
  end.
Proof.
  intros Hn Hs. unfold free_regions_take. pose proof (best_fit_spec n fr 0 None u64_max) as Hb.
  rewrite Forall_forall in Hs.
  destruct (best_fit 0 n fr None u64_max) as [k|].
  - destruct Hb as [[? _]|([a l] & _ & Hk & Hle & _ & Hall)]; [done|]. rewrite Nat.sub_0_r in Hk.
    rewrite Hk. cbn [default from_option id]. cbn in Hle, Hall.
    assert (small (a, l)) as (? & ? & ?) by (apply Hs; by eapply list_elem_of_lookup_2). cbn in *.
    destruct (Z.eqb_spec l n).
    + exists l, (swap_remove k fr). split; [by apply swap_remove_perm|]. rewrite (proj2 (Z.eqb_eq l n)) by done. done.
    + exists l, (delete k fr). split; [by apply delete_Permutation|]. split; [done|].
      rewrite (proj2 (Z.eqb_neq l n)), !u64_small by lia. split; [|done].
      apply insert_perm. by eapply lookup_lt_Some.
  - destruct Hb as [_ Hall]. split; [done|]. intros r Hr. destruct (Hall r Hr) as [|Hge]; [done|].
    destruct (Hs r Hr) as (? & ? & ?). unfold u64_max in Hge. lia.
Qed.

(** *** Reclaiming a range *)

#[export] Instance disj_dec r s : Decision (disj r s).
Proof. unfold disj. apply _. Defined.

(** What is left of a region outside [addr, addr + n). *)
Definition cut (addr n : Z) (r : Z * Z) : list (Z * Z) :=
  if bool_decide (disj r (addr, n)) then [r]
  else (if fst r <? addr then [(fst r, addr - fst r)] else [])
       ++ (if fst r + snd r >? addr + n then [(addr + n, fst r + snd r - (addr + n))] else []).

Lemma drop_perm addr n fr :
  small (addr, n) -> Forall small fr ->
  free_regions_drop_range addr n fr ≡ₚ concat (map (cut addr n) fr).
Proof.
  intros Hs Hf. unfold free_regions_drop_range. unfold small in Hs. cbn in Hs. rewrite u64_small by lia.
  assert (forall keep add, drop_loop addr (addr + n) fr = (keep, add) ->
    keep ++ add ≡ₚ concat (map (cut addr n) fr)) as Hl.
  2:{ destruct (drop_loop addr (addr + n) fr) as [keep add]. by apply Hl. }
  induction fr as [|[a l] fr IH]; intros keep add E; cbn [drop_loop map concat] in *; [by simplify_eq|].
  apply Forall_cons in Hf as [Ha Hf]. unfold small in Ha. cbn in Ha.
  destruct (drop_loop addr (addr + n) fr) as [keep' add']. specialize (IH Hf keep' add' eq_refl).
  rewrite u64_small in E by lia. unfold cut at 1. cbn [fst snd].
  destruct ((a + l <=? addr) || (a >=? addr + n)) eqn:Ed.
  - rewrite bool_decide_eq_true_2.
    + injection E as <- <-. cbn. by rewrite IH.
    + rewrite Z.geb_leb in Ed. apply orb_true_iff in Ed. unfold disj. cbn. destruct Ed; zb; lia.
  - rewrite Z.geb_leb in Ed. apply orb_false_iff in Ed as [E1 E2]. zb.
    rewrite bool_decide_eq_false_2 by (unfold disj; cbn; lia).
    assert ((if a <? addr then [(a, addr ⊟ a)] else []) = (if a <? addr then [(a, addr - a)] else [])) as Eh
      by (case_match; zb; [by rewrite u64_small by lia|done]).
    assert ((if a + l >? addr + n then [(addr + n, a + l ⊟ (addr + n))] else [])
      = (if a + l >? addr + n then [(addr + n, a + l - (addr + n))] else [])) as Et
      by (rewrite Z.gtb_ltb; destruct (Z.ltb_spec (addr + n) (a + l)); [by rewrite (u64_small (a + l - (addr + n))) by lia|done]).
    rewrite Eh, Et in E. injection E as <- <-. rewrite <- IH. rewrite (app_assoc _ _ add').
    apply Permutation_app_swap_app.
Qed.

Lemma cut_regions hi addr n r l :
  addr mod 4096 = 0 -> n mod 4096 = 0 -> 0 < n -> regions_ok hi (r :: l) ->
  regions_ok hi (cut addr n r ++ l) /\ Forall (fun s => disj (addr, n) s) (cut addr n r).
Proof.
  intros Ha Hn Hpos Hr. unfold cut. case_bool_decide as Hd.
  { split; [done|]. constructor; [by symmetry|constructor]. }
  destruct r as [a k]. unfold disj in Hd. cbn in Hd. cbn [fst snd]. pose proof Hr as [Hok _]%regions_cons.
  unfold region_ok in Hok. cbn in Hok. destruct Hok as (? & ? & ? & Ham & Hkm).
  assert (forall b m, a <= b -> 0 < m -> b + m <= a + k -> b mod 4096 = 0 -> m mod 4096 = 0 ->
    region_ok hi (b, m) /\ Forall (disj (b, m)) l) as Hsub.
  { intros b m Hb Hm Hbm Hba Hma. split; [unfold region_ok; cbn; lia|].
    apply regions_cons in Hr as (_ & Hd' & _). eapply Forall_impl; [done|]. intros s. unfold disj. cbn. lia. }
  assert (regions_ok hi l) as Hl by (by apply regions_cons in Hr as (_ & _ & ?)).
  assert ((addr - a) mod 4096 = 0) as Hm1 by (by rewrite Zminus_mod, Ha, Ham).
  assert ((addr + n) mod 4096 = 0) as Hm2 by (by rewrite Z.add_mod, Ha, Hn by lia).
  assert ((a + k - (addr + n)) mod 4096 = 0) as Hm3
    by (rewrite Zminus_mod, Hm2, (Z.add_mod a k), Ham, Hkm by lia; done).
  rewrite Z.gtb_ltb.
  destruct (Z.ltb_spec a addr), (Z.ltb_spec (addr + n) (a + k)); cbn [app].
  - destruct (Hsub a (addr - a)), (Hsub (addr + n) (a + k - (addr + n))); try done; try lia.
    split; [|repeat constructor; unfold disj; cbn; lia].
    rewrite !regions_cons, Forall_cons. split; [done|].
    split; [split; [unfold disj; cbn; lia|done]|]. by split.
  - destruct (Hsub a (addr - a)); [lia..|done|done|].
    split; [by rewrite regions_cons|repeat constructor; unfold disj; cbn; lia].
  - destruct (Hsub (addr + n) (a + k - (addr + n))); [lia..|done|done|].
    split; [by rewrite regions_cons|repeat constructor; unfold disj; cbn; lia].
  - split; [done|constructor].
Qed.

Lemma cuts_regions hi addr n fr own :
  addr mod 4096 = 0 -> n mod 4096 = 0 -> 0 < n -> regions_ok hi (fr ++ own) ->
  regions_ok hi (concat (map (cut addr n) fr) ++ own)
  /\ Forall (fun s => disj (addr, n) s) (concat (map (cut addr n) fr)).
Proof.
  intros Ha Hn Hpos. revert own. induction fr as [|r fr IH]; intros own Hr; cbn [map concat]; [done|].
  cbn in Hr. destruct (cut_regions hi addr n r (fr ++ own) Ha Hn Hpos Hr) as [Hr' Hd].
  destruct (IH (cut addr n r ++ own)) as [Hr2 Hd2].
  { eapply regions_perm; [|done]. rewrite !app_assoc. by rewrite (Permutation_app_comm (cut addr n r) fr). }
  split; [|by apply Forall_app]. eapply regions_perm; [|done].
  rewrite !app_assoc. by rewrite (Permutation_app_comm _ (cut addr n r)).
Qed.
