(* ===== verification/MmapProps.v ===== *)
(** * Properties of the address-space allocator *)

From S2P Require Import Prelude Paging PagingRefine Confinement Uaccess Mmap.

(** ** A client that only gives back what it holds *)

(** The allocator and the regions the program holds. *)
Definition msys : Type := mm * list (Z * Z).

Definition msys_ok (s : msys) : Prop :=
  regions_ok (mmap_next (fst s)) (snd s ++ free (fst s))
  /\ MMAP_BASE <= mmap_next (fst s) <= MMAP_LIMIT /\ mmap_next (fst s) mod 4096 = 0.

Definition rounded (length_ : Z) : Z := page_down (length_ ⊞ 0xFFF).

Section Client.
Context {M : Type} `{UserMem M}.

Inductive mstep : msys -> msys -> Prop :=
| ms_map addr length_ flags st own m st' m' r :
    Z.land flags MAP_FIXED = 0 -> 0 < length_ <= 2 ^ 62 ->
    sys_mmap addr length_ flags st m = (st', m', r) ->
    mstep (st, own) (st', if 0 <=? r then (r, rounded length_) :: own else own)
| ms_fixed addr length_ flags st own m st' m' r :
    Z.land flags MAP_FIXED <> 0 -> 0 < length_ <= 2 ^ 62 -> addr mod 4096 = 0 ->
    MMAP_BASE <= addr -> addr + rounded length_ <= mmap_next st ->
    Forall (disj (addr, rounded length_)) own ->
    sys_mmap addr length_ flags st m = (st', m', r) ->
    mstep (st, own) (st', (addr, rounded length_) :: own)
| ms_remap addr length_ flags st own m st' m' r a l :
    Z.land flags MAP_FIXED <> 0 -> 0 < length_ <= 2 ^ 62 -> addr mod 4096 = 0 ->
    (a, l) ∈ own -> a <= addr -> addr + rounded length_ <= a + l ->
    sys_mmap addr length_ flags st m = (st', m', r) ->
    mstep (st, own) (st', own)
| ms_unmap addr length_ st own st' r a l rest :
    own ≡ₚ (a, l) :: rest -> a <= addr -> 0 < length_ -> addr + length_ <= a + l ->
    sys_munmap addr length_ st = (st', r) ->
    let pa := page_down addr in
    mstep (st, own) (st', cut pa (rounded (length_ + (addr - pa))) (a, l) ++ rest).

Inductive mreach : msys -> Prop :=
| mreach_boot : mreach (mm_boot, [])
| mreach_step s s' : mreach s -> mstep s s' -> mreach s'.

End Client.

(** ** Lemmas *)
Lemma rounded_spec n : 0 < n <= 2 ^ 62 ->
  rounded n mod 4096 = 0 /\ n <= rounded n < n + 4096.
Proof.
  intros Hn. unfold rounded. rewrite page_down_spec, u64_small by lia.
  split; [apply Z.mod_mul; lia|]. Z.div_mod_to_equations. lia.
Qed.

Lemma i64_addr x : 0 <= x <= MMAP_LIMIT -> i64 x = x.
Proof. intros Hx. apply i64_small. unfold MMAP_LIMIT in *. lia. Qed.

Lemma sat_add a n : 0 <= a <= MMAP_LIMIT -> 0 <= n <= 2 ^ 63 -> saturating_add a n = a + n.
Proof. intros. unfold saturating_add, u64_max, MMAP_LIMIT in *. lia. Qed.

Lemma free_small s : msys_ok s -> Forall small (free (fst s)).
Proof.
  intros ([Hf _] & Hn & _). apply Forall_app in Hf as [_ Hf]. eapply Forall_impl; [done|].
  intros r. apply region_small. lia.
Qed.

Section Steps.
Context {M : Type} `{UserMem M}.

(** The branches of a request that is not fixed. *)
Lemma mmap_free_spec st own addr length_ flags (m : M) st' m' r :
  msys_ok (st, own) -> Z.land flags MAP_FIXED = 0 -> 0 < length_ <= 2 ^ 62 ->
  sys_mmap addr length_ flags st m = (st', m', r) ->
  let n := rounded length_ in
  (exists l rest, free st ≡ₚ (r, l) :: rest /\ n <= l /\ mmap_next st' = mmap_next st /\ 0 <= r
     /\ free st' ≡ₚ (if l =? n then rest else (r + n, l - n) :: rest)
     /\ forall s, s ∈ free st -> snd s < n \/ l <= snd s)
  \/ (forall s, s ∈ free st -> snd s < n)
     /\ (r = mmap_next st /\ st' = mkMm (mmap_next st + n) (free st) (brk_top st) (brk_base st)
           /\ mmap_next st + n <= MMAP_LIMIT
         \/ r = - ENOMEM /\ st' = st /\ MMAP_LIMIT < mmap_next st + n).
Proof.
  intros Hok Hfl Hlen E. cbv zeta. pose proof (free_small _ Hok) as Hsm. cbn in Hsm.
  destruct Hok as (Hr & Hn & Hal). cbn in Hr, Hn, Hal. destruct (rounded_spec length_ Hlen) as [Hm Hb].
  unfold sys_mmap in E. fold (rounded length_) in E. set (n := rounded length_) in *.
  rewrite Hfl, andb_false_r in E. pose proof (take_spec n (free st) ltac:(lia) Hsm) as Ht.
  destruct (free_regions_take n (free st)) as [fr [a|]].
  - destruct Ht as (l & rest & Hp & Hl & Hp' & Hbest). left.
    assert (small (a, l)) as (Ha1 & Ha2 & Ha3) by (rewrite Hp in Hsm; by apply Forall_cons in Hsm as [? _]).
    cbn in Ha1, Ha2, Ha3. rewrite i64_small in E by lia. injection E as <- <- <-. exists l, rest. cbn. auto 10.
  - destruct Ht as [_ Hno]. right. split; [done|]. rewrite sat_add, Z.gtb_ltb in E by (unfold MMAP_BASE in *; lia).
    destruct (Z.ltb_spec MMAP_LIMIT (mmap_next st + n)).
    + injection E as <- <- <-. right. auto.
    + rewrite i64_addr in E by (unfold MMAP_BASE in *; lia). injection E as <- <- <-. left. auto.
Qed.

Lemma map_ok st own addr length_ flags (m : M) st' m' r :
  msys_ok (st, own) -> Z.land flags MAP_FIXED = 0 -> 0 < length_ <= 2 ^ 62 ->
  sys_mmap addr length_ flags st m = (st', m', r) ->
  msys_ok (st', if 0 <=? r then (r, rounded length_) :: own else own).
Proof.
  intros Hok Hfl Hlen E. pose proof (mmap_free_spec _ _ _ _ _ _ _ _ _ Hok Hfl Hlen E) as Hs. cbv zeta in Hs.
  destruct (rounded_spec length_ Hlen) as [Hm Hb]. set (n := rounded length_) in *.
  destruct Hok as (Hr & Hn & Hal). cbn in Hr, Hn, Hal. unfold msys_ok. cbn [fst snd].
  destruct Hs as [(l & rest & Hp & Hl & Hnx & Hr0 & Hp' & _)|[_ [(-> & -> & Hle)|(-> & -> & _)]]].
  - rewrite (proj2 (Z.leb_le 0 r)), Hnx by done. split; [|done].
    assert (regions_ok (mmap_next st) ((r, l) :: own ++ rest)) as Hr1.
    { eapply regions_perm; [|exact Hr]. rewrite Hp. symmetry. apply Permutation_middle. }
    destruct (Z.eqb_spec l n) as [->|Hne].
    + eapply regions_perm; [|exact Hr1]. cbn. by rewrite Hp'.
    + apply (regions_split _ r n l) in Hr1; [|lia|done]. eapply regions_perm; [|exact Hr1].
      cbn. apply Permutation_cons; [done|]. rewrite Hp'. apply Permutation_middle.
  - rewrite (proj2 (Z.leb_le 0 _)) by (unfold MMAP_BASE in *; lia). cbn [mmap_next free].
    split; [|split; [lia|by rewrite Z.add_mod, Hal, Hm by lia]].
    cbn. apply regions_cons. split; [unfold region_ok; cbn; lia|].
    split; [|by apply (regions_mono (mmap_next st)); [lia|]].
    destruct Hr as [Hf _]. eapply Forall_impl; [exact Hf|]. intros s. unfold region_ok, disj. cbn. lia.
  - change (0 <=? - ENOMEM) with false. done.
Qed.

(** A fixed request inside the managed range: the free list loses the range. *)
Lemma mmap_fixed_spec st addr length_ flags (m : M) st' m' r :
  Z.land flags MAP_FIXED <> 0 -> MMAP_BASE <= addr -> addr + rounded length_ <= MMAP_LIMIT ->
  0 < length_ <= 2 ^ 62 -> sys_mmap addr length_ flags st m = (st', m', r) ->
  st' = set_free (free_regions_drop_range addr (rounded length_) (free st)) st /\ r = addr.
Proof.
  intros Hfl Ha Hle Hlen E. destruct (rounded_spec length_ Hlen) as [_ Hb].
  unfold sys_mmap in E. fold (rounded length_) in E.
  rewrite (proj2 (Z.eqb_neq addr 0)), (proj2 (Z.eqb_neq _ 0)) in E by (done || unfold MMAP_BASE in *; lia).
  cbn [negb andb] in E. rewrite sat_add, Z.gtb_ltb, (proj2 (Z.ltb_ge _ _)) in E
    by (unfold MMAP_BASE, MMAP_LIMIT in *; lia).
  rewrite i64_addr in E by (unfold MMAP_BASE in *; lia). by injection E as <- _ <-.
Qed.

Lemma range_small addr n : MMAP_BASE <= addr -> 0 < n -> addr + n <= MMAP_LIMIT -> small (addr, n).
Proof. unfold small, MMAP_BASE, MMAP_LIMIT. cbn. lia. Qed.

Lemma fixed_ok st own addr length_ flags (m : M) st' m' r :
  msys_ok (st, own) -> Z.land flags MAP_FIXED <> 0 -> 0 < length_ <= 2 ^ 62 -> addr mod 4096 = 0 ->
  MMAP_BASE <= addr -> addr + rounded length_ <= mmap_next st ->
  Forall (disj (addr, rounded length_)) own ->
  sys_mmap addr length_ flags st m = (st', m', r) ->
  msys_ok (st', (addr, rounded length_) :: own).
Proof.
  intros Hok Hfl Hlen Hal Hb Hle Hd E. pose proof (free_small _ Hok) as Hsm. destruct Hok as (Hr & Hn & Hm).
  cbn [fst snd] in *. destruct (rounded_spec length_ Hlen) as [Hrm Hrb].
  apply mmap_fixed_spec in E as [-> _]; [|done|done|lia|done]. set (n := rounded length_) in *.
  unfold msys_ok. cbn [fst snd set_free mmap_next free]. split; [|done].
  destruct (cuts_regions (mmap_next st) addr n (free st) own Hal Hrm) as [Hr' Hd']; [lia| |].
  { eapply regions_perm; [|done]. apply Permutation_app_comm. }
  rewrite <- app_comm_cons. apply regions_cons. split; [unfold region_ok; cbn; lia|].
  pose proof (drop_perm addr n (free st) ltac:(apply range_small; lia) Hsm) as Hp. split.
  - rewrite Hp. by apply Forall_app.
  - eapply regions_perm; [|exact Hr']. rewrite Hp. apply Permutation_app_comm.
Qed.

(** Dropping a range that meets no free region changes nothing. *)
Lemma cut_disjoint addr n fr : Forall (fun r => disj r (addr, n)) fr -> concat (map (cut addr n) fr) = fr.
Proof.
  induction 1 as [|r fr Hr _ IH]; [done|]. cbn [map concat]. rewrite IH. unfold cut.
  by rewrite bool_decide_eq_true_2.
Qed.

Lemma remap_ok st own addr length_ flags (m : M) st' m' r a l :
  msys_ok (st, own) -> Z.land flags MAP_FIXED <> 0 -> 0 < length_ <= 2 ^ 62 ->
  (a, l) ∈ own -> a <= addr -> addr + rounded length_ <= a + l ->
  sys_mmap addr length_ flags st m = (st', m', r) -> msys_ok (st', own).
Proof.
  intros Hok Hfl Hlen Hin Ha Hle E. pose proof (free_small _ Hok) as Hsm. destruct Hok as (Hr & Hn & Hm).
  cbn [fst snd] in *. destruct (rounded_spec length_ Hlen) as [_ Hrb].
  apply elem_of_Permutation in Hin as [rest Hp]. set (n := rounded length_) in *.
  assert (regions_ok (mmap_next st) ((a, l) :: rest ++ free st)) as Hr1.
  { eapply regions_perm; [|exact Hr]. by rewrite Hp. }
  apply regions_cons in Hr1 as (Hal & Hd & _). unfold region_ok in Hal. cbn in Hal.
  apply mmap_fixed_spec in E as [-> _]; [|done|lia|fold n; lia|done]. fold n.
  unfold msys_ok. cbn [fst snd set_free mmap_next free]. split; [|done].
  eapply regions_perm; [|exact Hr]. rewrite (drop_perm addr n) by (done || apply range_small; lia).
  rewrite cut_disjoint; [done|]. apply Forall_app in Hd as [_ Hd]. eapply Forall_impl; [exact Hd|].
  intros s. unfold disj. cbn. lia.
Qed.

Lemma unmap_ok st own addr length_ st' r a l rest :
  msys_ok (st, own) -> own ≡ₚ (a, l) :: rest -> a <= addr -> 0 < length_ -> addr + length_ <= a + l ->
  sys_munmap addr length_ st = (st', r) ->
  let pa := page_down addr in
  msys_ok (st', cut pa (rounded (length_ + (addr - pa))) (a, l) ++ rest).
Proof.
  cbv zeta. intros Hok Hp Ha Hlen Hle E. pose proof (free_small _ Hok) as Hsm. destruct Hok as (Hr & Hn & Hm).
  cbn [fst snd] in *. assert (regions_ok (mmap_next st) ((a, l) :: rest ++ free st)) as Hr1.
  { eapply regions_perm; [|exact Hr]. by rewrite Hp. }
  pose proof Hr1 as (Hal & Hd & _)%regions_cons. unfold region_ok in Hal. cbn in Hal.
  destruct Hal as (Hb & Hl & Hhi & Ham & Hlm).
  assert (0 <= addr < 2 ^ 40 /\ length_ < 2 ^ 40) as [? ?] by (unfold MMAP_BASE, MMAP_LIMIT in *; lia).
  set (pa := page_down addr) in *. assert (pa mod 4096 = 0 /\ a <= pa /\ 0 <= addr - pa < 4096) as (Hpm & Hpa & Hpo).
  { subst pa. rewrite page_down_spec. split; [apply Z.mod_mul; lia|]. Z.div_mod_to_equations. lia. }
  set (n := rounded (length_ + (addr - pa))).
  destruct (rounded_spec (length_ + (addr - pa))) as [Hnm Hnb]; [lia|]. fold n in Hnm, Hnb.
  assert (pa + n <= a + l) as Hpn by (clearbody pa n; clear -Hpm Hnm Ham Hlm Hnb Hle; Z.div_mod_to_equations; lia).
  unfold sys_munmap in E. fold pa in E.
  rewrite (proj2 (Z.eqb_neq addr 0)), (proj2 (Z.eqb_neq length_ 0)) in E by (unfold MMAP_BASE in *; lia).
  cbn [orb] in E. rewrite (u64_small (addr - pa)), (u64_small (length_ + (addr - pa))) in E by lia.
  fold (rounded (length_ + (addr - pa))) n in E. rewrite (u64_small (pa + n)), Z.geb_leb in E
    by (unfold MMAP_BASE, MMAP_LIMIT in *; lia).
  rewrite (proj2 (Z.leb_le _ _)), (proj2 (Z.leb_le _ _)) in E by lia. cbn [andb] in E.
  injection E as <- <-. unfold msys_ok. cbn [fst snd set_free mmap_next free]. split; [|done].
  destruct (cut_regions (mmap_next st) pa n (a, l) (rest ++ free st) Hpm Hnm ltac:(lia) Hr1) as [Hr2 Hd2].
  assert (small (pa, n)) as Hs by (apply range_small; lia).
  pose proof (add_coal pa n (free st) ltac:(by apply Forall_cons)) as Hc.
  eapply regions_perm; [apply Permutation_app_comm|].
  apply (coal_regions _ _ _ _ Hc). rewrite <- app_comm_cons. apply regions_cons.
  split; [unfold region_ok; cbn; lia|]. rewrite Forall_app. split.
  - apply Forall_app in Hd as [Hd3 Hd4].
    assert (forall s, disj (a, l) s -> disj (pa, n) s) as Himp by (intros s; unfold disj; cbn; lia).
    split; [eapply Forall_impl; [exact Hd4|done]|]. apply Forall_app. split; [done|].
    eapply Forall_impl; [exact Hd3|done].
  - eapply regions_perm; [|exact Hr2]. rewrite app_assoc. apply Permutation_app_comm.
Qed.

Lemma mreach_ok s : mreach s -> msys_ok s.
Proof.
  induction 1 as [|s s' _ IH Hst].
  - split; [|split; [cbn; unfold MMAP_BASE, MMAP_LIMIT; lia|done]]. by split.
  - destruct Hst; [by eapply map_ok|by eapply fixed_ok|by eapply remap_ok|by eapply unmap_ok].
Qed.

End Steps.

(** ** Properties *)

(** C23.  Memory given to the program never overlaps: along every sequence of
    mappings (hinted, reused or fixed) and unmappings by a program that only
    unmaps ranges it holds and fixes mappings only over memory it holds or below
    the bump pointer, the regions held are page-aligned, lie in the managed
    range, and are pairwise disjoint. *)
Theorem mmap_regions_disjoint {M : Type} `{UserMem M} st own :
  mreach (st, own) -> apart own /\ Forall (region_ok MMAP_LIMIT) own.
Proof.
  intros Hr. apply mreach_ok in Hr as (Hok & Hn & _). cbn [fst snd] in *.
  apply (regions_mono _ MMAP_LIMIT) in Hok as [Hf Ha]; [|lia].
  split; [|by apply Forall_app in Hf as [? _]]. clear -Ha. induction own as [|r own IH]; [done|].
  cbn in Ha. destruct Ha as [H1 H2]. apply Forall_app in H1 as [H1 _]. split; auto.
Qed.

Lemma covers_cons r rs x : covers (r :: rs) x <-> fst r <= x < fst r + snd r \/ covers rs x.
Proof.
  unfold covers. split.
  - intros (s & [-> |Hs]%elem_of_cons & Hx); eauto.
  - intros [Hx|(s & Hs & Hx)]; [exists r|exists s]; (split; [apply elem_of_cons; auto|done]).
Qed.

Lemma covers_perm l k x : l ≡ₚ k -> covers l x <-> covers k x.
Proof. intros Hp. unfold covers. by setoid_rewrite Hp. Qed.

(** Placement: a request without MAP_FIXED is served from the smallest free
    region that fits, at its start, and the free memory loses exactly the range
    returned; only if none fits does the bump pointer move, and only if that
    would pass the end of RAM is the answer ENOMEM, with nothing changed. *)
Theorem mmap_placement {M : Type} `{UserMem M} st own addr length_ flags (m : M) st' m' r :
  msys_ok (st, own) -> Z.land flags MAP_FIXED = 0 -> 0 < length_ <= 2 ^ 62 ->
  sys_mmap addr length_ flags st m = (st', m', r) ->
  let n := rounded length_ in
  (exists l, (r, l) ∈ free st /\ n <= l /\ (forall s, s ∈ free st -> n <= snd s -> l <= snd s)
     /\ mmap_next st' = mmap_next st
     /\ forall x, covers (free st') x <-> covers (free st) x /\ ~ (r <= x < r + n))
  \/ (forall s, s ∈ free st -> snd s < n) /\ free st' = free st
     /\ (r = mmap_next st /\ mmap_next st' = mmap_next st + n
         \/ r = - ENOMEM /\ st' = st /\ MMAP_LIMIT < mmap_next st + n).
Proof.
  intros Hok Hfl Hlen E. pose proof (mmap_free_spec _ _ _ _ _ _ _ _ _ Hok Hfl Hlen E) as Hs. cbv zeta in *.
  destruct (rounded_spec length_ Hlen) as [_ Hb]. set (n := rounded length_) in *.
  destruct Hs as [(l & rest & Hp & Hl & Hnx & _ & Hp' & Hbest)|[Hno [(-> & -> & _)|(-> & -> & ?)]]];
    [left|right; split; [done|]; split; [done|auto]..].
  exists l. split; [rewrite Hp; apply elem_of_cons; by left|]. split; [done|].
  split; [intros s Hs Hn; destruct (Hbest s Hs); lia|]. split; [done|]. intros x.
  destruct Hok as [Hok _]. cbn [fst snd] in Hok.
  assert (regions_ok (mmap_next st) ((r, l) :: rest ++ own)) as (Hro & Hd & _)%regions_cons.
  { eapply regions_perm; [|exact Hok]. rewrite Hp, Permutation_app_comm. done. }
  assert (covers rest x -> ~ (r <= x < r + l)) as Hdis.
  { intros (s & Hs & Hx) Hx'. apply Forall_app in Hd as [Hd _]. rewrite Forall_forall in Hd.
    specialize (Hd s Hs). unfold disj in Hd. cbn in Hd. lia. }
  rewrite (covers_perm _ _ x Hp), (covers_perm _ _ x Hp'), covers_cons. cbn [fst snd].
  destruct (Z.eqb_spec l n) as [->|].
  - split; [intros Hc; split; [by right|auto]|]. intros [[Hx|Hx] Hn]; [lia|done].
  - rewrite covers_cons. cbn [fst snd]. split.
    + intros [Hx|Hx]; [split; [left|]; lia|]. split; [by right|]. specialize (Hdis Hx). lia.
    + intros [[Hx|Hx] Hn]; [left; lia|by right].
Qed.

(** A request whose length rounds up past 2^64 (or is zero) is granted: it
    returns the bump pointer without reserving a byte, so that the next request
    gets the same address. *)
Theorem mmap_wrapped_length_granted {M : Type} `{UserMem M} st (m : M) length_ :
  (length_ = 0 \/ 2 ^ 64 - 4095 <= length_ < 2 ^ 64) ->
  free st = [] -> 0 <= mmap_next st <= MMAP_LIMIT ->
  sys_mmap 0 length_ 0 st m = (st, m, mmap_next st).
Proof.
  intros Hlen Hf Hn. unfold sys_mmap. assert (page_down (length_ ⊞ 0xFFF) = 0) as ->.
  { rewrite page_down_spec. unfold u64, wrap. destruct Hlen as [->|Hlen]; [done|].
    replace (length_ + 0xFFF) with ((length_ + 0xFFF - 2 ^ 64) + 1 * 2 ^ 64) by lia.
    rewrite Z.mod_add, Z.mod_small by lia. rewrite Z.div_small by lia. done. }
  cbn [Z.eqb negb andb]. rewrite Hf. cbn [free_regions_take best_fit].
  rewrite sat_add, Z.add_0_r, Z.gtb_ltb, (proj2 (Z.ltb_ge _ _)) by lia.
  rewrite i64_addr by lia. rewrite <- Hf. by destruct st.
Qed.

(** Unmapping a region twice makes it available twice: the next two
    requests of its size are given the same memory. *)
Theorem munmap_twice_aliases {M : Type} `{UserMem M} st a n (m m' : M) :
  free st = [] -> region_ok MMAP_LIMIT (a, n) ->
  let st2 := fst (sys_munmap a n (fst (sys_munmap a n st))) in
  let '(st3, _, r1) := sys_mmap 0 n 0 st2 m in
  let '(_, _, r2) := sys_mmap 0 n 0 st3 m' in
  r1 = a /\ r2 = a.
Proof.
  intros Hf (H1 & H2 & H3 & H4 & H5). cbn [fst snd] in *. unfold MMAP_BASE, MMAP_LIMIT in *. cbv zeta.
  assert (page_down a = a) as Ea by (rewrite page_down_spec; Z.div_mod_to_equations; lia).
  assert (page_down (n ⊞ 0xFFF) = n) as En
    by (rewrite page_down_spec, u64_small by lia; Z.div_mod_to_equations; lia).
  assert (forall s, sys_munmap a n s = (set_free (free_regions_add a n (free s)) s, 0)) as Hu.
  { intros s. unfold sys_munmap. rewrite Ea, Z.sub_diag. change (u64 0) with 0.
    rewrite Z.add_0_r, (u64_small n), En, (u64_small (a + n)) by lia.
    rewrite (proj2 (Z.eqb_neq a 0)), (proj2 (Z.eqb_neq n 0)), Z.geb_leb by lia. cbn [orb].
    unfold MMAP_BASE, MMAP_LIMIT. by rewrite !(proj2 (Z.leb_le _ _)) by lia. }
  rewrite !Hu. cbn [fst set_free free]. rewrite Hf. unfold free_regions_add at 2. cbn [merge_first app].
  assert (free_regions_add a n [(a, n)] = [(a, n); (a, n)]) as ->.
  { unfold free_regions_add. cbn [merge_first]. rewrite (u64_small (a + n)) by lia.
    by rewrite (proj2 (Z.eqb_neq (a + n) a)) by lia. }
  assert (forall fr, free_regions_take n ((a, n) :: fr) = (swap_remove 0 ((a, n) :: fr), Some a)) as Ht.
  { intros fr. unfold free_regions_take. cbn [best_fit]. rewrite Z.geb_leb, Z.leb_refl, Z.sub_diag.
    change (0 <? u64_max) with true. change (0 =? 0) with true. cbn. by rewrite Z.eqb_refl. }
  unfold sys_mmap. rewrite En. cbn [Z.eqb negb andb set_free free]. rewrite Ht.
  change (swap_remove 0 [(a, n); (a, n)]) with [(a, n)]. cbn [set_free free]. rewrite Ht.
  by rewrite i64_addr by (unfold MMAP_LIMIT; lia).
Qed.

(** ** Witnesses *)

#[local] Existing Instance ua_layout.
#[local] Existing Instance ua_layout_ok.

(** Two mappings of two pages; then the first page of the first is unmapped. *)
Definition mm_two : mm := mkMm (MMAP_BASE + 16384) [] 0 0.
Definition mm_gap : mm := mkMm (MMAP_BASE + 16384) [(MMAP_BASE, 4096)] 0 0.

Lemma mm_gap_reach :
  mreach (M := machine) (mm_gap, [(MMAP_BASE + 4096, 4096); (MMAP_BASE + 8192, 8192)]).
Proof.
  apply (mreach_step (mm_two, [(MMAP_BASE + 8192, 8192); (MMAP_BASE, 8192)])).
  - apply (mreach_step (mkMm (MMAP_BASE + 8192) [] 0 0, [(MMAP_BASE, 8192)])).
    + apply (mreach_step (mm_boot, [])); [apply mreach_boot|].
      apply (ms_map 0 8000 0 mm_boot [] demo_machine _ demo_machine MMAP_BASE); [done|lia|reflexivity].
    + apply (ms_map 0 8000 0 _ _ demo_machine _ demo_machine (MMAP_BASE + 8192)); [done|lia|reflexivity].
  - apply (ms_unmap MMAP_BASE 10 mm_two [(MMAP_BASE + 8192, 8192); (MMAP_BASE, 8192)] mm_gap 0 MMAP_BASE 8192
      [(MMAP_BASE + 8192, 8192)]); [apply Permutation_swap|lia|lia|lia|reflexivity].
Qed.

Lemma mmap_regions_disjoint_witness :
  apart [(MMAP_BASE + 4096, 4096); (MMAP_BASE + 8192, 8192)]
  /\ Forall (region_ok MMAP_LIMIT) [(MMAP_BASE + 4096, 4096); (MMAP_BASE + 8192, 8192)].
Proof. exact (mmap_regions_disjoint (M := machine) mm_gap _ mm_gap_reach). Defined.

Lemma mmap_placement_witness :
  (exists l, (MMAP_BASE, l) ∈ free mm_gap /\ 4096 <= l /\ (forall s, s ∈ free mm_gap -> 4096 <= snd s -> l <= snd s)
     /\ mmap_next mm_two = mmap_next mm_gap
     /\ forall x, covers (free mm_two) x <-> covers (free mm_gap) x /\ ~ (MMAP_BASE <= x < MMAP_BASE + 4096))
  \/ (forall s, s ∈ free mm_gap -> snd s < 4096) /\ free mm_two = free mm_gap
     /\ (MMAP_BASE = mmap_next mm_gap /\ mmap_next mm_two = mmap_next mm_gap + 4096
         \/ MMAP_BASE = - ENOMEM /\ mm_two = mm_gap /\ MMAP_LIMIT < mmap_next mm_gap + 4096).
Proof.
  apply (mmap_placement mm_gap [(MMAP_BASE + 4096, 4096); (MMAP_BASE + 8192, 8192)] 0 100 0 demo_machine
    mm_two (zero_fill MMAP_BASE 4096 demo_machine) MMAP_BASE);
    [apply (mreach_ok _ mm_gap_reach)|done|lia|reflexivity].
Defined.

Lemma mmap_wrapped_length_granted_witness :
  sys_mmap 0 (2 ^ 64 - 1) 0 mm_boot demo_machine = (mm_boot, demo_machine, MMAP_BASE).
Proof.
  apply (mmap_wrapped_length_granted mm_boot demo_machine (2 ^ 64 - 1));
    [right; lia|done|cbn; unfold MMAP_BASE, MMAP_LIMIT; lia].
Defined.

Lemma munmap_twice_aliases_witness :
  let st2 := fst (sys_munmap MMAP_BASE 4096 (fst (sys_munmap MMAP_BASE 4096 mm_two))) in
  let '(st3, _, r1) := sys_mmap 0 4096 0 st2 demo_machine in
  let '(_, _, r2) := sys_mmap 0 4096 0 st3 demo_machine in
  r1 = MMAP_BASE /\ r2 = MMAP_BASE.
Proof.
  apply (munmap_twice_aliases mm_two MMAP_BASE 4096 demo_machine demo_machine); [done|].
  unfold region_ok, MMAP_BASE, MMAP_LIMIT. cbn [fst snd]. repeat split; first [lia | reflexivity].
Defined.
