(* ===== verification/Sched.v ===== *)
(** * Threads, run queues and futexes

    Models [src/src/sched.rs].  Arrays indexed by a CPU, a thread or a bucket
    are functions of the index, threads and queues included; the theorems
    show that every index used is in range.  A CPU runs one piece of kernel
    code at a time between two context switches: the operations below are
    those pieces, and the steps of [SchedInv] interleave them freely.  The
    kernel code to which a saved stack returns is [th_kont]; the registers a
    context switch moves are the [ThreadCtx] of the source.

    The spinlocks taken and dropped within one operation make it atomic and
    are left implicit.  The bucket locks are explicit, because [futex_wait]
    keeps one across the context switch and the next code to run on the CPU
    drops it. *)

From S2P Require Import Prelude Paging Uaccess.

Definition MAX_THREADS : Z := 32.
Definition MAX_CPUS : Z := 16.
Definition FUTEX_BUCKETS : Z := 16.
Definition PENDING_WAKES_PER_BUCKET : Z := 8.
Definition BLOCKING_ARM_FALLBACK_NS : Z := 120000000000.
Definition BLOCKED_RESCUE_NS : Z := 5000000000.
Definition KSTACK_USABLE : Z := 16384.
Definition GUARD_SIZE : Z := 4096.
Definition KSTACK_STRIDE : Z := GUARD_SIZE + KSTACK_USABLE + 4096.
Definition CLONE_PARENT_SETTID : Z := 0x00100000.
Definition CLONE_CHILD_SETTID : Z := 0x01000000.
Definition ETIMEDOUT : Z := 110.

Inductive State := Ready | Running | Blocked | Dead.
#[export] Instance State_eq_dec : EqDecision State.
Proof. solve_decision. Defined.

Record ThreadCtx := mkCtx {
  rsp : Z; rbx : Z; rbp : Z; r12 : Z; r13 : Z; r14 : Z; r15 : Z;
  fs_base : Z;
  fxsave_area : list Z;
}.
Definition empty_ctx : ThreadCtx := mkCtx 0 0 0 0 0 0 0 0 (replicate 512 0).

(** The code a saved kernel stack returns to: the end of [yield_current], of
    [futex_wait_until], or [clone_child_return]. *)
Inductive Kont := KYield | KWait | KChild.

Record Thread := mkThread {
  th_tid : Z;
  th_state : State;
  th_ctx : ThreadCtx;
  th_kont : Kont;
  th_kernel_stack_top : Z;
  th_user_stack : Z;
  th_fn_ptr : Z;
  th_tls : Z;
  th_child_tid_ptr : Z;
  th_futex_addr : Z;
  th_futex_val : Z;
  th_in_idle_ctx : bool;
  th_clone_r9 : Z;
  th_clone_rip : Z;
  th_home_cpu : Z;
  th_wait_deadline_ns : Z;
  th_wait_timed_out : bool;
  th_blocked_since_ns : Z;
}.

Record CpuQueue := mkQueue {
  cq_current : option Z;
  cq_queue : list Z;
  cq_idle : bool;
}.

(** The module's statics, the registers of each CPU, and the interrupts sent. *)
Record sched := mkSched {
  threads : Z -> option Thread; (* THREADS *)
  queues : Z -> CpuQueue; (* CPU_QUEUES *)
  idle_ctx : Z -> ThreadCtx; (* IDLE_CTX *)
  regs : Z -> ThreadCtx; (* the registers of each CPU *)
  cpu_kstack : Z -> Z; (* gs:[0] and rsp0 of each CPU *)
  next_tid : Z; (* NEXT_TID *)
  kstack_next : Z; (* KSTACK_NEXT *)
  pending : Z -> list Z; (* PENDING_WAKES *)
  pending_unlock : Z -> Z; (* PENDING_UNLOCK_BUCKET *)
  futex_lock : Z -> bool; (* FUTEX_LOCKS, held or not *)
  need_resched : Z -> bool; (* NEED_RESCHED *)
  rescue : Z -> bool; (* RESCUE_REQUESTED *)
  futex_blocking : bool; (* FUTEX_BLOCKING *)
  first_spinyield : Z; (* FIRST_SPINYIELD_NS *)
  num_cpus : Z; (* NUM_CPUS *)
  switched : Z -> bool; (* a context was just loaded, its first code has not run *)
  ipis : list Z; (* IPIs sent, latest first *)
  fxsave_template : list Z; (* FXSAVE_TEMPLATE *)
}.
Definition set_threads (v : Z -> option Thread) (s : sched) : sched :=
  mkSched v (queues s) (idle_ctx s) (regs s) (cpu_kstack s) (next_tid s) (kstack_next s) (pending s) (pending_unlock s) (futex_lock s) (need_resched s) (rescue s) (futex_blocking s) (first_spinyield s) (num_cpus s) (switched s) (ipis s) (fxsave_template s).
Definition set_queues (v : Z -> CpuQueue) (s : sched) : sched :=
  mkSched (threads s) v (idle_ctx s) (regs s) (cpu_kstack s) (next_tid s) (kstack_next s) (pending s) (pending_unlock s) (futex_lock s) (need_resched s) (rescue s) (futex_blocking s) (first_spinyield s) (num_cpus s) (switched s) (ipis s) (fxsave_template s).
Definition set_idle_ctx (v : Z -> ThreadCtx) (s : sched) : sched :=
  mkSched (threads s) (queues s) v (regs s) (cpu_kstack s) (next_tid s) (kstack_next s) (pending s) (pending_unlock s) (futex_lock s) (need_resched s) (rescue s) (futex_blocking s) (first_spinyield s) (num_cpus s) (switched s) (ipis s) (fxsave_template s).
Definition set_regs (v : Z -> ThreadCtx) (s : sched) : sched :=
  mkSched (threads s) (queues s) (idle_ctx s) v (cpu_kstack s) (next_tid s) (kstack_next s) (pending s) (pending_unlock s) (futex_lock s) (need_resched s) (rescue s) (futex_blocking s) (first_spinyield s) (num_cpus s) (switched s) (ipis s) (fxsave_template s).
Definition set_cpu_kstack (v : Z -> Z) (s : sched) : sched :=
  mkSched (threads s) (queues s) (idle_ctx s) (regs s) v (next_tid s) (kstack_next s) (pending s) (pending_unlock s) (futex_lock s) (need_resched s) (rescue s) (futex_blocking s) (first_spinyield s) (num_cpus s) (switched s) (ipis s) (fxsave_template s).
Definition set_next_tid (v : Z) (s : sched) : sched :=
  mkSched (threads s) (queues s) (idle_ctx s) (regs s) (cpu_kstack s) v (kstack_next s) (pending s) (pending_unlock s) (futex_lock s) (need_resched s) (rescue s) (futex_blocking s) (first_spinyield s) (num_cpus s) (switched s) (ipis s) (fxsave_template s).
Definition set_kstack_next (v : Z) (s : sched) : sched :=
  mkSched (threads s) (queues s) (idle_ctx s) (regs s) (cpu_kstack s) (next_tid s) v (pending s) (pending_unlock s) (futex_lock s) (need_resched s) (rescue s) (futex_blocking s) (first_spinyield s) (num_cpus s) (switched s) (ipis s) (fxsave_template s).
Definition set_pending (v : Z -> list Z) (s : sched) : sched :=
  mkSched (threads s) (queues s) (idle_ctx s) (regs s) (cpu_kstack s) (next_tid s) (kstack_next s) v (pending_unlock s) (futex_lock s) (need_resched s) (rescue s) (futex_blocking s) (first_spinyield s) (num_cpus s) (switched s) (ipis s) (fxsave_template s).
Definition set_pending_unlock (v : Z -> Z) (s : sched) : sched :=
  mkSched (threads s) (queues s) (idle_ctx s) (regs s) (cpu_kstack s) (next_tid s) (kstack_next s) (pending s) v (futex_lock s) (need_resched s) (rescue s) (futex_blocking s) (first_spinyield s) (num_cpus s) (switched s) (ipis s) (fxsave_template s).
Definition set_futex_lock (v : Z -> bool) (s : sched) : sched :=
  mkSched (threads s) (queues s) (idle_ctx s) (regs s) (cpu_kstack s) (next_tid s) (kstack_next s) (pending s) (pending_unlock s) v (need_resched s) (rescue s) (futex_blocking s) (first_spinyield s) (num_cpus s) (switched s) (ipis s) (fxsave_template s).
Definition set_need_resched (v : Z -> bool) (s : sched) : sched :=
  mkSched (threads s) (queues s) (idle_ctx s) (regs s) (cpu_kstack s) (next_tid s) (kstack_next s) (pending s) (pending_unlock s) (futex_lock s) v (rescue s) (futex_blocking s) (first_spinyield s) (num_cpus s) (switched s) (ipis s) (fxsave_template s).
Definition set_rescue (v : Z -> bool) (s : sched) : sched :=
  mkSched (threads s) (queues s) (idle_ctx s) (regs s) (cpu_kstack s) (next_tid s) (kstack_next s) (pending s) (pending_unlock s) (futex_lock s) (need_resched s) v (futex_blocking s) (first_spinyield s) (num_cpus s) (switched s) (ipis s) (fxsave_template s).
Definition set_futex_blocking (v : bool) (s : sched) : sched :=
  mkSched (threads s) (queues s) (idle_ctx s) (regs s) (cpu_kstack s) (next_tid s) (kstack_next s) (pending s) (pending_unlock s) (futex_lock s) (need_resched s) (rescue s) v (first_spinyield s) (num_cpus s) (switched s) (ipis s) (fxsave_template s).
Definition set_first_spinyield (v : Z) (s : sched) : sched :=
  mkSched (threads s) (queues s) (idle_ctx s) (regs s) (cpu_kstack s) (next_tid s) (kstack_next s) (pending s) (pending_unlock s) (futex_lock s) (need_resched s) (rescue s) (futex_blocking s) v (num_cpus s) (switched s) (ipis s) (fxsave_template s).
Definition set_switched (v : Z -> bool) (s : sched) : sched :=
  mkSched (threads s) (queues s) (idle_ctx s) (regs s) (cpu_kstack s) (next_tid s) (kstack_next s) (pending s) (pending_unlock s) (futex_lock s) (need_resched s) (rescue s) (futex_blocking s) (first_spinyield s) (num_cpus s) v (ipis s) (fxsave_template s).
Definition set_ipis (v : list Z) (s : sched) : sched :=
  mkSched (threads s) (queues s) (idle_ctx s) (regs s) (cpu_kstack s) (next_tid s) (kstack_next s) (pending s) (pending_unlock s) (futex_lock s) (need_resched s) (rescue s) (futex_blocking s) (first_spinyield s) (num_cpus s) (switched s) v (fxsave_template s).


(** ** Updates of one thread *)

Definition th_saved (c : ThreadCtx) (k : Kont) (t : Thread) : Thread :=
  mkThread (th_tid t) (th_state t) c k (th_kernel_stack_top t) (th_user_stack t) (th_fn_ptr t) (th_tls t) (th_child_tid_ptr t) (th_futex_addr t) (th_futex_val t) (th_in_idle_ctx t) (th_clone_r9 t) (th_clone_rip t) (th_home_cpu t) (th_wait_deadline_ns t) (th_wait_timed_out t) (th_blocked_since_ns t).
Definition th_blocked (addr val deadline now : Z) (t : Thread) : Thread :=
  mkThread (th_tid t) Blocked (th_ctx t) (th_kont t) (th_kernel_stack_top t) (th_user_stack t) (th_fn_ptr t) (th_tls t) (th_child_tid_ptr t) addr val (th_in_idle_ctx t) (th_clone_r9 t) (th_clone_rip t) (th_home_cpu t) deadline false now.
(** [futex_wake] on a waiter. *)
Definition th_woken (t : Thread) : Thread :=
  mkThread (th_tid t) Ready (th_ctx t) (th_kont t) (th_kernel_stack_top t) (th_user_stack t) (th_fn_ptr t) (th_tls t) (th_child_tid_ptr t) 0 (th_futex_val t) false (th_clone_r9 t) (th_clone_rip t) (th_home_cpu t) (th_wait_deadline_ns t) (th_wait_timed_out t) 0.
(** [process_rescues] on a waiter. *)
Definition th_rescued (now : Z) (t : Thread) : Thread :=
  let was_timed_out := negb (th_wait_deadline_ns t =? 0) && (th_wait_deadline_ns t <=? now) in
  mkThread (th_tid t) Ready (th_ctx t) (th_kont t) (th_kernel_stack_top t) (th_user_stack t) (th_fn_ptr t) (th_tls t) (th_child_tid_ptr t) 0 (th_futex_val t) (th_in_idle_ctx t) (th_clone_r9 t) (th_clone_rip t) (th_home_cpu t) 0 (was_timed_out || th_wait_timed_out t) 0.
(** The end of [futex_wait_until]. *)
Definition th_resumed (t : Thread) : Thread :=
  mkThread (th_tid t) (th_state t) (th_ctx t) (th_kont t) (th_kernel_stack_top t) (th_user_stack t) (th_fn_ptr t) (th_tls t) (th_child_tid_ptr t) (th_futex_addr t) (th_futex_val t) (th_in_idle_ctx t) (th_clone_r9 t) (th_clone_rip t) (th_home_cpu t) 0 false (th_blocked_since_ns t).
Definition th_dead (t : Thread) : Thread :=
  mkThread (th_tid t) Dead (th_ctx t) (th_kont t) (th_kernel_stack_top t) (th_user_stack t) (th_fn_ptr t) (th_tls t) (th_child_tid_ptr t) (th_futex_addr t) (th_futex_val t) (th_in_idle_ctx t) (th_clone_r9 t) (th_clone_rip t) (th_home_cpu t) (th_wait_deadline_ns t) (th_wait_timed_out t) (th_blocked_since_ns t).
Definition th_rehomed (cpu : Z) (t : Thread) : Thread :=
  mkThread (th_tid t) (th_state t) (th_ctx t) (th_kont t) (th_kernel_stack_top t) (th_user_stack t) (th_fn_ptr t) (th_tls t) (th_child_tid_ptr t) (th_futex_addr t) (th_futex_val t) (th_in_idle_ctx t) (th_clone_r9 t) (th_clone_rip t) cpu (th_wait_deadline_ns t) (th_wait_timed_out t) (th_blocked_since_ns t).

Definition upd_thread (i : Z) (f : Thread -> Thread) (s : sched) : sched :=
  match threads s i with
  | Some t => set_threads (fupd (threads s) i (Some (f t))) s
  | None => s
  end.

Definition upd_queue (cpu : Z) (q : CpuQueue) (s : sched) : sched :=
  set_queues (fupd (queues s) cpu q) s.
Definition push_back (cpu tid : Z) (s : sched) : sched :=
  let q := queues s cpu in
  upd_queue cpu (mkQueue (cq_current q) (cq_queue q ++ [tid]) (cq_idle q)) s.
Definition send_ipi (cpu : Z) (s : sched) : sched := set_ipis (cpu :: ipis s) s.
Definition set_current_kernel_stack (cpu kstack : Z) (s : sched) : sched :=
  set_cpu_kstack (fupd (cpu_kstack s) cpu kstack) s.

(** ** Pending wakes and the lock handed across a context switch *)

Definition futex_bucket (addr : Z) : Z := (addr / 4) mod FUTEX_BUCKETS.

Fixpoint store_first (old new : Z) (slots : list Z) : option (list Z) :=
  match slots with
  | [] => None
  | x :: r => if x =? old then Some (new :: r) else option_map (cons x) (store_first old new r)
  end.

Definition pending_wake_insert (bucket addr : Z) (s : sched) : sched :=
  let pw := pending s bucket in
  if existsb (Z.eqb addr) pw then s else
  match store_first 0 addr pw with
  | Some pw' => set_pending (fupd (pending s) bucket pw') s
  | None => s
  end.

Definition pending_wake_consume (bucket addr : Z) (s : sched) : sched * bool :=
  match store_first addr 0 (pending s bucket) with
  | Some pw' => (set_pending (fupd (pending s) bucket pw') s, true)
  | None => (s, false)
  end.

Definition set_lock (bucket : Z) (b : bool) (s : sched) : sched :=
  set_futex_lock (fupd (futex_lock s) bucket b) s.

Definition release_pending_unlock (cpu : Z) (s : sched) : sched :=
  let b := pending_unlock s cpu in
  let s := set_pending_unlock (fupd (pending_unlock s) cpu (-1)) s in
  if 0 <=? b then set_lock b false s else s.

Definition enable_blocking_futex (s : sched) : sched := set_futex_blocking true s.

(** ** Context switches *)

(** A pointer to a [ThreadCtx]: the one of a thread, or of a CPU's idle loop. *)
Inductive slot := SlotThread (i : Z) | SlotIdle (cpu : Z).

Definition read_slot (x : slot) (s : sched) : ThreadCtx :=
  match x with
  | SlotThread i => match threads s i with Some t => th_ctx t | None => empty_ctx end
  | SlotIdle cpu => idle_ctx s cpu
  end.
Definition write_slot (x : slot) (c : ThreadCtx) (k : Kont) (s : sched) : sched :=
  match x with
  | SlotThread i => upd_thread i (th_saved c k) s
  | SlotIdle cpu => set_idle_ctx (fupd (idle_ctx s) cpu c) s
  end.

(** The restore half, also written out in [yield_current]. *)
Definition load_context (cpu : Z) (c : ThreadCtx) (s : sched) : sched :=
  set_switched (fupd (switched s) cpu true) (set_regs (fupd (regs s) cpu c) s).

(** The caller's code after the switch is [k]. *)
Definition context_switch (cpu : Z) (from : slot) (k : Kont) (to : slot) (s : sched) : sched :=
  let s := write_slot from (regs s cpu) k s in
  load_context cpu (read_slot to s) s.

Definition kstack_of (i : Z) (s : sched) : Z :=
  match threads s i with Some t => th_kernel_stack_top t | None => 0 end.

(** The ring-3 frame [clone_child_return] enters the child with. *)
Record user_frame := mkFrame { uf_rip : Z; uf_rsp : Z; uf_r9 : Z; uf_rax : Z; uf_rflags : Z }.

Definition clone_child_return (cpu : Z) (s : sched) : sched * user_frame :=
  let s := release_pending_unlock cpu s in
  let r := regs s cpu in
  let stack := r12 r in
  let tls := r13 r in
  let r := if tls =? 0 then r else
    mkCtx (rsp r) (rbx r) (rbp r) (r12 r) (r13 r) (r14 r) (r15 r) tls (fxsave_area r) in
  let s := set_regs (fupd (regs s) cpu r) s in
  let '(r9, rcx) :=
    match threads s (default 0 (cq_current (queues s cpu))) with
    | Some t => (th_clone_r9 t, th_clone_rip t)
    | None => (0, 0)
    end in
  (s, mkFrame rcx stack r9 0 0x202).

(** What the code reached by a context switch does first.  The result is what
    the thread's system call returns: [None] in the idle loop and at the end
    of [yield_current]. *)
Definition after_switch (cpu : Z) (s : sched) : sched * option Z :=
  let s := set_switched (fupd (switched s) cpu false) s in
  match cq_current (queues s cpu) with
  | None =>
      let s := release_pending_unlock cpu s in
      (upd_queue cpu (mkQueue None (cq_queue (queues s cpu)) true) s, None)
  | Some i =>
      match threads s i with
      | None => (s, None)
      | Some t =>
          match th_kont t with
          | KYield => (release_pending_unlock cpu s, None)
          | KWait =>
              (upd_thread i th_resumed (release_pending_unlock cpu s),
               Some (if th_wait_timed_out t then - ETIMEDOUT else 0))
          | KChild =>
              let '(s, f) := clone_child_return cpu s in (s, Some (uf_rax f))
          end
      end
  end.

(** ** Rescues *)

(** The body of the loop of [process_rescues] for thread [i]. *)
Definition process_rescue (cpu now i : Z) (s : sched) : sched :=
  if negb (rescue s i) then s else
  let s := set_rescue (fupd (rescue s) i false) s in
  match threads s i with
  | None => s
  | Some t =>
      if negb (bool_decide (th_state t = Blocked)) then s else
      if th_futex_addr t =? 0 then s else
      let s := upd_thread i (th_rescued now) s in
      let target_cpu := th_home_cpu t in
      let s :=
        if target_cpu <? MAX_CPUS then
          if existsb (Z.eqb (th_tid t)) (cq_queue (queues s target_cpu)) then s
          else push_back target_cpu (th_tid t) s
        else s in
      if target_cpu =? cpu then s else send_ipi target_cpu s
  end.

Definition process_rescues (cpu now : Z) (s : sched) : sched :=
  for_range (Z.to_nat MAX_THREADS) 0 (process_rescue cpu now) s.

(** ** Yielding *)

(** [yield_current] after its call of [process_rescues]. *)
Definition yield_switch (cpu : Z) (s : sched) : sched :=
  let q := queues s cpu in
  match cq_current q, cq_queue q with
  | None, [] => s
  | None, next_tid :: rest =>
      let s := upd_queue cpu (mkQueue (Some next_tid) rest false) s in
      match threads s next_tid with
      | Some next =>
          load_context cpu (th_ctx next) (set_current_kernel_stack cpu (th_kernel_stack_top next) s)
      | None => s
      end
  | Some _, [] => s
  | Some cur_tid, next_tid :: rest =>
      let s := upd_queue cpu (mkQueue (Some next_tid) (rest ++ [cur_tid]) (cq_idle q)) s in
      let s := set_current_kernel_stack cpu (kstack_of next_tid s) s in
      match threads s cur_tid, threads s next_tid with
      | Some _, Some _ => context_switch cpu (SlotThread cur_tid) KYield (SlotThread next_tid) s
      | _, _ => s
      end
  end.

Definition yield_current (cpu now : Z) (s : sched) : sched :=
  yield_switch cpu (process_rescues cpu now s).

(** One turn of [cpu_idle_loop] after [release_pending_unlock] and
    [process_rescues]: run the head of the queue, if there is one. *)
Definition idle_pick (cpu : Z) (s : sched) : sched :=
  let q := queues s cpu in
  match cq_queue q with
  | [] => s
  | next_tid :: rest =>
      let s := upd_queue cpu (mkQueue (Some next_tid) rest false) s in
      match threads s next_tid with
      | Some next =>
          let s := set_current_kernel_stack cpu (th_kernel_stack_top next) s in
          context_switch cpu (SlotIdle cpu) KYield (SlotThread next_tid) s
      | None => s
      end
  end.
(** The loop body; [cpu] sleeps when the queue is empty. *)
Definition cpu_idle_loop (cpu now : Z) (s : sched) : sched :=
  idle_pick cpu (process_rescues cpu now (release_pending_unlock cpu s)).

(** ** Futexes *)

(** What a call of [futex_wait_until] does next: return, yield and return, or
    sleep, having switched away. *)
Inductive wait_result := WRet (r : Z) | WYield (r : Z) | WSleep.

Section Sched.
Context {M : Type} `{UserMem M}.

Definition read_user_u32 (m : M) (addr : Z) : option Z := le_val <$> um_in m addr 4.
(** Best effort: a bad pointer skips the store. *)
Definition write_user_u32 (m : M) (addr v : Z) : M := default m (um_out m addr (le_bytes 4 v)).

(** From the marking of the thread to the context switch; the bucket lock is
    held and stays so. *)
Definition futex_sleep (cpu bucket cur_tid addr val deadline now : Z) (s : sched) : sched :=
  let s := upd_thread cur_tid (th_blocked addr val deadline now) s in
  let q := queues s cpu in
  match cq_queue q with
  | next :: rest =>
      let s := upd_queue cpu (mkQueue (Some next) rest (cq_idle q)) s in
      let s := set_pending_unlock (fupd (pending_unlock s) cpu bucket) s in
      let s := set_current_kernel_stack cpu (kstack_of next s) s in
      match threads s cur_tid, threads s next with
      | Some _, Some _ => context_switch cpu (SlotThread cur_tid) KWait (SlotThread next) s
      | _, _ => s
      end
  | [] =>
      let s := upd_queue cpu (mkQueue None [] true) s in
      let s := set_pending_unlock (fupd (pending_unlock s) cpu bucket) s in
      match threads s cur_tid with
      | Some _ => context_switch cpu (SlotThread cur_tid) KWait (SlotIdle cpu) s
      | None => s
      end
  end.

(** Called with the bucket lock free; the lock is held on return only when
    the result is [WSleep]. *)
Definition futex_wait_until (m : M) (cpu addr val : Z) (deadline : option Z) (now : Z) (s : sched)
    : sched * wait_result :=
  if next_tid s <=? 1 then (s, WYield 0) else
  let bucket := futex_bucket addr in
  let s := set_lock bucket true s in
  let '(s, consumed) := pending_wake_consume bucket addr s in
  if consumed then (set_lock bucket false s, WRet 0) else
  match read_user_u32 m addr with
  | None => (set_lock bucket false s, WRet (- EFAULT))
  | Some current =>
      if negb (current =? val) then (set_lock bucket false s, WRet (- EAGAIN)) else
      if negb (futex_blocking s) then
        let s := if first_spinyield s =? 0 then set_first_spinyield now s else s in
        (set_lock bucket false s, WYield 0)
      else
        match cq_current (queues s cpu) with
        | None => (set_lock bucket false s, WRet 0)
        | Some cur_tid => (futex_sleep cpu bucket cur_tid addr val (default 0 deadline) now s, WSleep)
        end
  end.
Definition futex_wait (m : M) (cpu addr val now : Z) (s : sched) : sched * wait_result :=
  futex_wait_until m cpu addr val None now s.

(** The body of the loop of [futex_wake] on a waiter. *)
Definition wake_one (cpu i : Z) (t : Thread) (s : sched) : sched :=
  let s := upd_thread i th_woken s in
  let s := push_back (th_home_cpu t) (th_tid t) s in
  if th_home_cpu t =? cpu then s else send_ipi (th_home_cpu t) s.

Definition is_waiter (addr : Z) (t : Thread) : bool :=
  bool_decide (th_state t = Blocked) && (th_futex_addr t =? addr).

Fixpoint futex_wake_loop (n : nat) (cpu i addr count woken : Z) (s : sched) : sched * Z :=
  match n with
  | O => (s, woken)
  | S n' =>
      if count <=? woken then (s, woken) else
      match threads s i with
      | Some t =>
          if is_waiter addr t
          then futex_wake_loop n' cpu (i + 1) addr count (woken + 1) (wake_one cpu i t s)
          else futex_wake_loop n' cpu (i + 1) addr count woken s
      | None => futex_wake_loop n' cpu (i + 1) addr count woken s
      end
  end.

(** Called with the bucket lock free; it is free again on return. *)
Definition futex_wake (cpu addr count : Z) (s : sched) : sched * Z :=
  let bucket := futex_bucket addr in
  let '(s, woken) := futex_wake_loop (Z.to_nat MAX_THREADS) cpu 0 addr count 0 s in
  if woken =? 0 then (pending_wake_insert bucket addr s, woken) else (s, woken).

(** ** The watchdog and the timer *)

Definition watchdog_check (m : M) (now : Z) (t : Thread) : bool :=
  if negb (bool_decide (th_state t = Blocked)) then false else
  if th_futex_addr t =? 0 then false else
  match read_user_u32 m (th_futex_addr t) with
  | None => false
  | Some current =>
      let value_changed := negb (current =? th_futex_val t) in
      let timed_out := negb (th_wait_deadline_ns t =? 0) && (th_wait_deadline_ns t <=? now) in
      let stale := (th_wait_deadline_ns t =? 0) && negb (th_blocked_since_ns t =? 0)
        && (th_blocked_since_ns t ⊞ BLOCKED_RESCUE_NS <=? now) in
      value_changed || timed_out || stale
  end.

Definition watchdog_wake (m : M) (now : Z) (s : sched) : sched :=
  let s :=
    if negb (futex_blocking s) then
      let t0 := first_spinyield s in
      if negb (t0 =? 0) && (t0 ⊞ BLOCKING_ARM_FALLBACK_NS <=? now)
      then set_futex_blocking true s else s
    else s in
  for_range (Z.to_nat MAX_THREADS) 0 (fun i s =>
    match threads s i with
    | None => s
    | Some t => if watchdog_check m now t then set_rescue (fupd (rescue s) i true) s else s
    end) s.

Definition timer_tick (cpu : Z) (s : sched) : sched :=
  if cpu <? MAX_CPUS then set_need_resched (fupd (need_resched s) cpu true) s else s.

Definition check_resched (cpu now : Z) (s : sched) : sched :=
  let s := process_rescues cpu now s in
  if (cpu <? MAX_CPUS) && need_resched s cpu
  then yield_current cpu now (set_need_resched (fupd (need_resched s) cpu false) s)
  else s.

Definition thread_exit (cpu : Z) (s : sched) : sched :=
  let q := queues s cpu in
  let cur_tid := cq_current q in
  let s := upd_queue cpu (mkQueue None (cq_queue q) true) s in
  let s := match cur_tid with Some tid => upd_thread tid th_dead s | None => s end in
  context_switch cpu (SlotThread (default 0 cur_tid)) KYield (SlotIdle cpu) s.

Definition current_idx (cpu : Z) (s : sched) : Z := default 0 (cq_current (queues s cpu)).
Definition has_child (s : sched) : bool := 1 <? next_tid s.

(** ** Creating threads *)

(** The choice of a CPU: the first idle one, else the first shortest queue;
    the accumulator is [best_cpu], [best_len] and [found_idle]. *)
Fixpoint choose_cpu (n : nat) (cpu : Z) (s : sched) (best_cpu best_len : Z) (found_idle : bool) : Z :=
  match n with
  | O => best_cpu
  | S n' =>
      let q := queues s cpu in
      let l := len (cq_queue q) in
      if cq_idle q && negb found_idle then choose_cpu n' (cpu + 1) s cpu l true
      else if negb found_idle && (l <? best_len) then choose_cpu n' (cpu + 1) s cpu l found_idle
      else choose_cpu n' (cpu + 1) s best_cpu best_len found_idle
  end.

(** The entry of [THREADS] for the new thread, before its home is chosen. *)
Definition new_thread (tid kstack_top fn_ptr stack tls child_tid clone_r9 clone_rip : Z) (fx : list Z) : Thread :=
  mkThread tid Ready (mkCtx (kstack_top ⊟ 8) 0 0 stack tls child_tid 0 tls fx) KChild
    kstack_top stack fn_ptr tls child_tid 0 0 false clone_r9 clone_rip 0 0 false 0.

Definition spawn `{Layout} (cpu fn_ptr stack tls child_tid parent_tid clone_flags clone_r9 clone_rip : Z)
    (s : sched) (m : M) (tb : tables) : sched * M * tables * Z :=
  let tid := next_tid s in
  let s := set_next_tid (u32 (tid + 1)) s in
  if MAX_THREADS <=? tid then (s, m, tb, 0) else
  let slot := kstack_next s in
  let s := set_kstack_next (slot ⊞ KSTACK_STRIDE) s in
  let guard_page := slot in
  let kstack_base := slot ⊞ GUARD_SIZE in
  let kstack_top := kstack_base ⊞ KSTACK_USABLE in
  let tb := fst (map_guard_page guard_page tb) in
  let t := new_thread tid kstack_top fn_ptr stack tls child_tid clone_r9 clone_rip (fxsave_template s) in
  let s := set_threads (fupd (threads s) tid (Some t)) s in
  let best_cpu := choose_cpu (Z.to_nat (num_cpus s)) 0 s 0 u64_max false in
  let s := upd_thread tid (th_rehomed best_cpu) s in
  let m := if negb (Z.land clone_flags CLONE_PARENT_SETTID =? 0) && negb (parent_tid =? 0)
           then write_user_u32 m parent_tid tid else m in
  let m := if negb (Z.land clone_flags CLONE_CHILD_SETTID =? 0) && negb (child_tid =? 0)
           then write_user_u32 m child_tid tid else m in
  let s := push_back best_cpu tid s in
  let s := if cq_idle (queues s best_cpu) && negb (best_cpu =? cpu) then send_ipi best_cpu s else s in
  (s, m, tb, tid).

End Sched.

(** ** Boot *)

(** The statics before [init]; [regs] holds whatever the CPUs hold, [fx] what
    [fxsave64] captures, [kstack0] the address of [syscall_stack_0_top],
    [idle_top] those of the ends of [IDLE_STACKS]. *)
Definition boot_sched (rs : Z -> ThreadCtx) (fx : list Z) : sched :=
  mkSched (fun _ => None) (fun _ => mkQueue None [] true) (fun _ => empty_ctx) rs (fun _ => 0) 1
    KSTACK_ARENA_BASE (fun _ => replicate (Z.to_nat PENDING_WAKES_PER_BUCKET) 0) (fun _ => -1)
    (fun _ => false) (fun _ => false) (fun _ => false) false 0 1 (fun _ => false) [] fx.

Definition set_rsp (v : Z) (c : ThreadCtx) : ThreadCtx :=
  mkCtx v (rbx c) (rbp c) (r12 c) (r13 c) (r14 c) (r15 c) (fs_base c) (fxsave_area c).

Definition init (ncpus kstack0 : Z) (idle_top : Z -> Z) (s : sched) : sched :=
  let s := mkSched (threads s) (queues s) (idle_ctx s) (regs s) (cpu_kstack s) (next_tid s) (kstack_next s)
    (pending s) (pending_unlock s) (futex_lock s) (need_resched s) (rescue s) (futex_blocking s)
    (first_spinyield s) ncpus (switched s) (ipis s) (fxsave_template s) in
  let s := for_range (Z.to_nat ncpus) 0 (fun cpu s =>
    set_idle_ctx (fupd (idle_ctx s) cpu (set_rsp (idle_top cpu ⊟ 8) (idle_ctx s cpu))) s) s in
  let t := mkThread 0 Running (mkCtx 0 0 0 0 0 0 0 0 (fxsave_template s)) KYield
    kstack0 0 0 0 0 0 0 false 0 0 0 0 false 0 in
  let s := set_threads (fupd (threads s) 0 (Some t)) s in
  upd_queue 0 (mkQueue (Some 0) (cq_queue (queues s 0)) false) s.
