(* ===== verification/SchedInv.v ===== *)
(** * The scheduler's interleavings and their invariant

    The operations of [Sched] as steps of the machine, interleaved freely
    between CPUs, and the invariant every reachable state has: where each
    thread is, who holds each bucket lock, and what each CPU has loaded. *)

From S2P Require Import Prelude Paging Uaccess Sched.

(** ** Steps *)

Section Steps.
Context {M : Type} `{UserMem M} `{Layout}.

Inductive op : Type :=
| ORun (cpu : Z) (r : ThreadCtx)          (* the running code computes *)
| OAfter (cpu : Z)                        (* first code after a switch *)
| ORescue (cpu now i : Z)
| OYield (cpu : Z)
| OIdle (cpu : Z)
| OWait (cpu : Z) (m : M) (addr val : Z) (deadline : option Z) (now : Z)
| OWake (cpu addr count : Z)
| OWatchdog (m : M) (now : Z)
| OTick (cpu : Z)
| OResched (cpu : Z)
| OExit (cpu : Z)
| OSpawn (cpu fn_ptr stack tls child_tid parent_tid clone_flags clone_r9 clone_rip : Z) (m : M) (tb : tables)
| OEnable.

Definition exec (o : op) (s : sched) : sched :=
  match o with
  | ORun cpu r => set_regs (fupd (regs s) cpu r) s
  | OAfter cpu => fst (after_switch cpu s)
  | ORescue cpu now i => process_rescue cpu now i s
  | OYield cpu => yield_switch cpu s
  | OIdle cpu => idle_pick cpu s
  | OWait cpu m addr val deadline now => fst (futex_wait_until m cpu addr val deadline now s)
  | OWake cpu addr count => fst (futex_wake cpu addr count s)
  | OWatchdog m now => watchdog_wake m now s
  | OTick cpu => timer_tick cpu s
  | OResched cpu => set_need_resched (fupd (need_resched s) cpu false) s
  | OExit cpu => thread_exit cpu s
  | OSpawn cpu fn_ptr stack tls child_tid parent_tid flags r9 rip m tb =>
      (spawn cpu fn_ptr stack tls child_tid parent_tid flags r9 rip s m tb).1.1.1
  | OEnable => enable_blocking_futex s
  end.

(** [cpu] executes kernel code of its own, past the code a switch returns to. *)
Definition on (s : sched) (cpu : Z) : Prop := 0 <= cpu < num_cpus s /\ switched s cpu = false.

(** When a step can be taken: the spinlock it takes is free, the idle loop
    runs when no thread does, and only a thread exits or forks. *)
Definition enabled (o : op) (s : sched) : Prop :=
  match o with
  | ORun cpu _ | OYield cpu | OResched cpu => on s cpu
  | OAfter cpu => 0 <= cpu < num_cpus s /\ switched s cpu = true
  | ORescue cpu _ i => on s cpu /\ 0 <= i < MAX_THREADS /\
      forall t, threads s i = Some t -> futex_lock s (futex_bucket (th_futex_addr t)) = false
  | OIdle cpu => on s cpu /\ cq_current (queues s cpu) = None
  | OWait cpu _ addr _ _ _ => on s cpu /\ 0 <= addr /\ futex_lock s (futex_bucket addr) = false
  | OWake cpu addr _ => on s cpu /\ 0 <= addr /\ futex_lock s (futex_bucket addr) = false
  | OExit cpu => on s cpu /\ is_Some (cq_current (queues s cpu))
  | OSpawn cpu _ _ _ _ _ _ _ _ _ _ => on s cpu /\ is_Some (cq_current (queues s cpu))
  | OTick _ | OWatchdog _ _ | OEnable => True
  end.

Definition forks (o : op) : Z := match o with OSpawn _ _ _ _ _ _ _ _ _ _ _ => 1 | _ => 0 end.

(** [reachable k s]: [s] is reached from boot with [k] calls of [spawn]. *)
Inductive reachable : Z -> sched -> Prop :=
| reach_init ncpus kstack0 idle_top rs fx :
    1 <= ncpus <= MAX_CPUS -> reachable 0 (init ncpus kstack0 idle_top (boot_sched rs fx))
| reach_step k s o :
    reachable k s -> enabled o s -> reachable (k + forks o) (exec o s).

End Steps.
Arguments op M : clear implicits.

(** ** Where a thread is *)

(** The threads CPU [c] has: the current one and its queue. *)
Definition on_cpu (s : sched) (c : Z) : list Z :=
  match cq_current (queues s c) with Some i => [i] | None => [] end ++ cq_queue (queues s c).

Definition runnable (t : Thread) : Prop := th_state t = Ready \/ th_state t = Running.

(** [placed ncpus nt th oc]: [th] are the threads, tids below [nt]; [oc c] is
    what CPU [c] has.  Runnable threads are in one place, their home. *)
Record placed (ncpus nt : Z) (th : Z -> option Thread) (oc : Z -> list Z) : Prop := {
  pl_thread i t : th i = Some t ->
    0 <= i < MAX_THREADS /\ i < nt /\ th_tid t = i /\ 0 <= th_home_cpu t < ncpus;
  pl_nodup c : NoDup (oc c);
  pl_on c i : i ∈ oc c -> exists t, th i = Some t /\ th_home_cpu t = c /\ runnable t;
  pl_off i t : th i = Some t -> runnable t -> i ∈ oc (th_home_cpu t);
}.

(** An update that placement does not see. *)
Definition same_place (t t' : Thread) : Prop :=
  th_tid t' = th_tid t /\ th_home_cpu t' = th_home_cpu t /\ (runnable t' <-> runnable t).

Lemma placed_perm n nt th oc oc' :
  placed n nt th oc -> (forall c, oc' c ≡ₚ oc c) -> placed n nt th oc'.
Proof.
  intros [H1 H2 H3 H4] HP. split; [done|..].
  - intros c. by rewrite HP.
  - intros c i. rewrite HP. apply H3.
  - intros i t Hi Hr. rewrite HP. by apply H4.
Qed.

(** Thread [i] changes, and what its home has changes with it. *)
Lemma placed_upd n nt th oc oc' i t t' :
  placed n nt th oc -> th i = Some t ->
  th_tid t' = th_tid t -> th_home_cpu t' = th_home_cpu t ->
  (forall c, c <> th_home_cpu t -> oc' c ≡ₚ oc c) ->
  (runnable t' /\ NoDup (oc' (th_home_cpu t)) \/ (~ runnable t') /\ i ∉ oc' (th_home_cpu t)
     /\ NoDup (oc' (th_home_cpu t))) ->
  (forall j, j <> i -> j ∈ oc' (th_home_cpu t) <-> j ∈ oc (th_home_cpu t)) ->
  (runnable t' -> i ∈ oc' (th_home_cpu t)) ->
  placed n nt (fupd th i (Some t')) oc'.
Proof.
  intros [H1 H2 H3 H4] Hi Et Eh Hne Hd Hj Hin.
  assert (forall c, i ∈ oc' c -> c = th_home_cpu t) as Hc.
  { intros c Hic. destruct (decide (c = th_home_cpu t)) as [->|Hn]; [done|].
    rewrite Hne in Hic by done. by apply H3 in Hic as (t0 & E & <- & _); simplify_eq. }
  split.
  - intros j tj. unfold fupd. destruct (Z.eqb_spec j i) as [->|]; [|apply H1].
    intros [= <-]. rewrite Et, Eh. by apply H1.
  - intros c. destruct (decide (c = th_home_cpu t)) as [->|Hn]; [by destruct Hd as [[_ ?]|(_ & _ & ?)]|]. by rewrite Hne.
  - intros c j Hjc. unfold fupd. destruct (Z.eqb_spec j i) as [->|Hji].
    + rewrite (Hc _ Hjc) in Hjc |- *. exists t'. by destruct Hd as [[? _]|(_ & ? & _)].
    + apply H3. destruct (decide (c = th_home_cpu t)) as [->|Hn]; [by apply Hj|]. by rewrite <- Hne.
  - intros j tj. unfold fupd. destruct (Z.eqb_spec j i) as [->|Hji].
    + intros [= <-] Hr. rewrite Eh. by apply Hin.
    + intros E Hr. specialize (H4 _ _ E Hr).
      destruct (decide (th_home_cpu tj = th_home_cpu t)) as [Eq|Hn]; [rewrite Eq in *; by apply Hj|].
      by rewrite Hne.
Qed.

Lemma placed_same n nt th oc i t t' :
  placed n nt th oc -> th i = Some t -> same_place t t' -> placed n nt (fupd th i (Some t')) oc.
Proof.
  intros HP Hi (Et & Eh & Hr). apply (placed_upd n nt th oc oc i t t'); try done.
  2: { intros Hr'. apply Hr in Hr'. by apply (pl_off _ _ _ _ HP). }
  pose proof (pl_nodup _ _ _ _ HP (th_home_cpu t)) as Hd.
  destruct (decide (th_state t' = Ready)); [left; split; [by left|done]|].
  destruct (decide (th_state t' = Running)); [left; split; [by right|done]|].
  right. split_and!; [by intros [?|?]| |done]. intros Hin.
  apply (pl_on _ _ _ _ HP) in Hin as (t0 & E & _ & Hr0). simplify_eq. apply Hr in Hr0. by destruct Hr0.
Qed.

(** A blocked thread is made runnable and queued on its home. *)
Lemma placed_wake n nt th oc oc' i t t' :
  placed n nt th oc -> th i = Some t -> ~ runnable t -> runnable t' ->
  th_tid t' = th_tid t -> th_home_cpu t' = th_home_cpu t ->
  (forall c, oc' c ≡ₚ if c =? th_home_cpu t then i :: oc c else oc c) ->
  placed n nt (fupd th i (Some t')) oc'.
Proof.
  intros HP Hi Hn Hr Et Eh Hoc.
  assert (i ∉ oc (th_home_cpu t)) as Hni.
  { intros Hin. apply (pl_on _ _ _ _ HP) in Hin as (t0 & E & _ & ?). simplify_eq. done. }
  pose proof (Hoc (th_home_cpu t)) as Hh. rewrite Z.eqb_refl in Hh.
  eapply placed_upd; [done..| | | |].
  - intros c Hc. rewrite Hoc. destruct (Z.eqb_spec c (th_home_cpu t)); done.
  - left. split; [done|]. rewrite Hh. constructor; [done|]. apply (pl_nodup _ _ _ _ HP).
  - intros j Hj. rewrite Hh. rewrite elem_of_cons. naive_solver.
  - intros _. rewrite Hh. apply elem_of_cons. by left.
Qed.

(** A runnable thread of CPU [c] stops being so. *)
Lemma placed_stop n nt th oc oc' i t t' c :
  placed n nt th oc -> th i = Some t -> ~ runnable t' ->
  th_tid t' = th_tid t -> th_home_cpu t' = th_home_cpu t ->
  oc c ≡ₚ i :: oc' c -> (forall d, d <> c -> oc' d ≡ₚ oc d) ->
  placed n nt (fupd th i (Some t')) oc'.
Proof.
  intros HP Hi Hn Et Eh Hc Hd.
  assert (th_home_cpu t = c) as <-.
  { assert (i ∈ oc c) as Hin by (rewrite Hc; apply elem_of_cons; by left).
    apply (pl_on _ _ _ _ HP) in Hin as (t0 & E & ? & _). by simplify_eq. }
  pose proof (pl_nodup _ _ _ _ HP (th_home_cpu t)) as Hnd. rewrite Hc in Hnd. inversion Hnd; subst.
  eapply placed_upd; [done..| | | |].
  - done.
  - right. done.
  - intros j Hj. rewrite Hc, elem_of_cons. naive_solver.
  - done.
Qed.

(** A new thread [nt], queued on its home. *)
Lemma placed_new n nt th oc oc' t :
  placed n nt th oc -> 0 <= nt < MAX_THREADS -> runnable t -> th_tid t = nt -> 0 <= th_home_cpu t < n ->
  (forall c, oc' c ≡ₚ if c =? th_home_cpu t then nt :: oc c else oc c) ->
  placed n (nt + 1) (fupd th nt (Some t)) oc'.
Proof.
  intros HP Hnt Hr Et Eh Hoc.
  assert (forall c j, j ∈ oc' c -> j = nt /\ c = th_home_cpu t \/ j ∈ oc c) as Hin.
  { intros c j. rewrite Hoc. destruct (Z.eqb_spec c (th_home_cpu t)); [rewrite elem_of_cons|]; naive_solver. }
  assert (forall c, nt ∉ oc c) as Hni.
  { intros c Hc. apply (pl_on _ _ _ _ HP) in Hc as (t0 & E & _). apply (pl_thread _ _ _ _ HP) in E. lia. }
  split.
  - intros j tj. unfold fupd. destruct (Z.eqb_spec j nt) as [->|].
    + intros [= <-]. split_and!; [lia..|done|lia|lia].
    + intros E. apply (pl_thread _ _ _ _ HP) in E as (? & ? & ? & ?). split_and!; [lia..|done|lia|lia].
  - intros c. rewrite Hoc. pose proof (pl_nodup _ _ _ _ HP c). case_match; [|done]. by constructor.
  - intros c j Hj. unfold fupd. destruct (Z.eqb_spec j nt) as [->|Hne].
    + apply Hin in Hj as [[_ ->]|Hj]; [by exists t|by apply Hni in Hj].
    + apply Hin in Hj as [[? _]|Hj]; [done|]. by apply (pl_on _ _ _ _ HP).
  - intros j tj. unfold fupd. destruct (Z.eqb_spec j nt) as [->|Hne].
    + intros [= <-] _. rewrite Hoc, Z.eqb_refl. apply elem_of_cons. by left.
    + intros E Hr'. pose proof (pl_off _ _ _ _ HP _ _ E Hr').
      rewrite Hoc. case_match; [apply elem_of_cons; by right|done].
Qed.

(** ** The invariant *)

(** A bucket lock is held between two operations by the CPU that has its
    release pending, which is one CPU, just switched. *)
Record locks_ok (s : sched) : Prop := {
  lk_pend c : pending_unlock s c = -1 \/
    0 <= pending_unlock s c < FUTEX_BUCKETS /\ switched s c = true /\ 0 <= c < num_cpus s;
  lk_held b : 0 <= b -> futex_lock s b = true <-> exists c, pending_unlock s c = b;
  lk_inj c d : pending_unlock s c = pending_unlock s d -> 0 <= pending_unlock s c -> c = d;
}.

(** The context that belongs to what runs on CPU [c]. *)
Definition cur_slot (s : sched) (c : Z) : slot :=
  match cq_current (queues s c) with Some i => SlotThread i | None => SlotIdle c end.

(** Right after a switch the CPU has the registers its current code saved. *)
Definition loaded (s : sched) (c : Z) : Prop :=
  switched s c = true -> regs s c = read_slot (cur_slot s c) s.

Record sched_ok (k : Z) (s : sched) : Prop := {
  so_cpus : 1 <= num_cpus s <= MAX_CPUS;
  so_next : next_tid s = 1 + k;
  so_placed : placed (num_cpus s) (next_tid s) (threads s) (on_cpu s);
  so_idle c : cq_idle (queues s c) = true <-> cq_current (queues s c) = None;
  so_locks : locks_ok s;
  so_loaded c : loaded s c;
}.

Lemma futex_bucket_range addr : 0 <= futex_bucket addr < FUTEX_BUCKETS.
Proof. apply Z.mod_pos_bound. done. Qed.

Lemma locks_frame s s' :
  locks_ok s -> num_cpus s' = num_cpus s ->
  (forall c, pending_unlock s' c = pending_unlock s c) ->
  (forall b, 0 <= b -> futex_lock s' b = futex_lock s b) ->
  (forall c, switched s c = true -> switched s' c = true) -> locks_ok s'.
Proof.
  intros [H1 H2 H3] En Ep El Es. split.
  - intros c. rewrite Ep, En. destruct (H1 c) as [?|(? & ? & ?)]; [by left|right]. auto.
  - intros b Hb. rewrite El by done. rewrite H2 by done. by setoid_rewrite Ep.
  - intros c d. rewrite !Ep. apply H3.
Qed.

Lemma upd_thread_some i f s t :
  threads s i = Some t -> upd_thread i f s = set_threads (fupd (threads s) i (Some (f t))) s.
Proof. intros E. unfold upd_thread. by rewrite E. Qed.

Lemma on_cpu_upd_queue cpu q s c :
  on_cpu (upd_queue cpu q s) c =
  if c =? cpu then match cq_current q with Some i => [i] | None => [] end ++ cq_queue q else on_cpu s c.
Proof. unfold on_cpu, upd_queue; cbn. unfold fupd. by destruct (c =? cpu). Qed.

Lemma on_cpu_current k s c i : sched_ok k s -> cq_current (queues s c) = Some i ->
  exists t, threads s i = Some t /\ th_home_cpu t = c /\ runnable t.
Proof.
  intros HS E. apply (pl_on _ _ _ _ (so_placed _ _ HS)). unfold on_cpu. rewrite E. by left.
Qed.

Lemma on_cpu_queued k s c i : sched_ok k s -> i ∈ cq_queue (queues s c) ->
  exists t, threads s i = Some t /\ th_home_cpu t = c /\ runnable t.
Proof.
  intros HS E. apply (pl_on _ _ _ _ (so_placed _ _ HS)). unfold on_cpu. apply elem_of_app. by right.
Qed.

(** A thread is current on its home only. *)
Lemma cur_slot_inj k s c d i :
  sched_ok k s -> cur_slot s c = SlotThread i -> cur_slot s d = SlotThread i -> c = d.
Proof.
  unfold cur_slot. intros HS Hc Hd.
  destruct (cq_current (queues s c)) eqn:Ec; [|done]. destruct (cq_current (queues s d)) eqn:Ed; [|done].
  simplify_eq. apply (on_cpu_current _ _ _ _ HS) in Ec as (t & ? & <- & _).
  apply (on_cpu_current _ _ _ _ HS) in Ed as (t' & ? & <- & _). by simplify_eq.
Qed.

Lemma read_slot_upd i f s x :
  (forall t, th_ctx (f t) = th_ctx t) -> read_slot x (upd_thread i f s) = read_slot x s.
Proof.
  intros Hf. unfold upd_thread. destruct (threads s i) as [t|] eqn:E; [|done].
  destruct x as [j|c]; cbn; [|done]. unfold fupd. destruct (Z.eqb_spec j i) as [->|]; [by rewrite E, Hf|done].
Qed.

Lemma read_write_slot_ne x y c k s : x <> y -> read_slot x (write_slot y c k s) = read_slot x s.
Proof.
  intros Hne. destruct x as [i|d], y as [j|e]; cbn.
  - unfold upd_thread. destruct (threads s j); [|done]. cbn. rewrite fupd_ne by congruence. done.
  - done.
  - unfold upd_thread. by destruct (threads s j).
  - rewrite fupd_ne by congruence. done.
Qed.

Lemma cur_slot_write x c k s d : cur_slot (write_slot x c k s) d = cur_slot s d.
Proof. destruct x; cbn; [|done]. unfold upd_thread. by destruct (threads s i). Qed.

Lemma write_slot_fields x c k s :
  let s' := write_slot x c k s in
  regs s' = regs s /\ switched s' = switched s /\ queues s' = queues s
  /\ pending_unlock s' = pending_unlock s /\ futex_lock s' = futex_lock s
  /\ num_cpus s' = num_cpus s /\ next_tid s' = next_tid s.
Proof. destruct x; cbn; [|done]. unfold upd_thread. by destruct (threads s i). Qed.

(** [s] is the state after the queues have changed. *)
Lemma loaded_load s cpu :
  (forall c, c <> cpu -> loaded s c) ->
  forall c, loaded (load_context cpu (read_slot (cur_slot s cpu) s) s) c.
Proof.
  intros Hs c. unfold loaded. intros Hsw.
  transitivity (read_slot (cur_slot s c) s); [|by destruct (cur_slot s c) eqn:E; unfold cur_slot in *; cbn; rewrite E].
  revert Hsw. unfold load_context; cbn.
  destruct (decide (c = cpu)) as [->|Hc]; [by rewrite !fupd_eq|].
  rewrite !fupd_ne by done. by apply Hs.
Qed.

Lemma loaded_switch s cpu from k :
  (forall c, c <> cpu -> cur_slot s c <> from /\ loaded s c) ->
  forall c, loaded (context_switch cpu from k (cur_slot s cpu) s) c.
Proof.
  intros Hs. unfold context_switch.
  rewrite <- (cur_slot_write from (regs s cpu) k s cpu). apply loaded_load.
  intros c Hc. destruct (Hs c Hc) as [Hne Hl]. unfold loaded.
  destruct (write_slot_fields from (regs s cpu) k s) as (-> & -> & _).
  rewrite cur_slot_write, read_write_slot_ne by done. exact Hl.
Qed.

Lemma placed_write_slot n nt x c k s :
  placed n nt (threads s) (on_cpu s) ->
  placed n nt (threads (write_slot x c k s)) (on_cpu (write_slot x c k s)).
Proof.
  intros HP. destruct x as [i|]; [|done]. cbn. unfold upd_thread.
  destruct (threads s i) as [t|] eqn:E; [|done]. cbn.
  apply (placed_perm _ _ _ (on_cpu s)); [|done]. by eapply placed_same.
Qed.

Lemma cur_slot_ne k s c d : sched_ok k s -> c <> d -> cur_slot s c <> cur_slot s d.
Proof.
  intros HS Hne E. destruct (cur_slot s c) as [i|e] eqn:Ec.
  - by eapply Hne, cur_slot_inj.
  - unfold cur_slot in *. destruct (cq_current (queues s c)); [done|].
    destruct (cq_current (queues s d)); [done|]. by simplify_eq.
Qed.

(** Every context switch: [s1] is the state with the queue of [cpu], threads
    and locks changed, about to save the registers where they belong. *)
Lemma ok_switch k s s1 cpu kk :
  sched_ok k s ->
  num_cpus s1 = num_cpus s -> next_tid s1 = next_tid s ->
  switched s1 = switched s -> regs s1 = regs s ->
  (forall x, read_slot x s1 = read_slot x s) ->
  (forall c, c <> cpu -> queues s1 c = queues s c) ->
  (cq_idle (queues s1 cpu) = true <-> cq_current (queues s1 cpu) = None) ->
  placed (num_cpus s) (next_tid s) (threads s1) (on_cpu s1) ->
  locks_ok (set_switched (fupd (switched s1) cpu true) s1) ->
  sched_ok k (context_switch cpu (cur_slot s cpu) kk (cur_slot s1 cpu) s1).
Proof.
  intros HS En Et Es Er Hx Hq Hi HP HL.
  pose proof (write_slot_fields (cur_slot s cpu) (regs s1 cpu) kk s1) as HF. cbn in HF.
  destruct HF as (Fr & Fs & Fq & Fp & Fl & Fn & Ft).
  split; unfold context_switch; cbn.
  - rewrite Fn, En. apply HS.
  - rewrite Ft, Et. apply HS.
  - rewrite Fn, Ft, En, Et. by apply (placed_write_slot _ _ (cur_slot s cpu) (regs s1 cpu) kk) in HP.
  - intros c. rewrite Fq. destruct (decide (c = cpu)) as [->|Hc]; [done|]. rewrite Hq by done. apply HS.
  - apply (locks_frame _ _ HL); cbn; rewrite ?Fn, ?Fp, ?Fl, ?Fs; done.
  - apply loaded_switch. intros c Hc.
    assert (cur_slot s1 c = cur_slot s c) as -> by (unfold cur_slot; by rewrite Hq).
    split; [by eapply cur_slot_ne|]. unfold loaded. rewrite Es, Er, Hx.
    assert (cur_slot s1 c = cur_slot s c) as -> by (unfold cur_slot; by rewrite Hq). apply HS.
Qed.

(** Locks are untouched by a switch that hands nothing over. *)
Lemma locks_switch s s1 cpu :
  locks_ok s -> num_cpus s1 = num_cpus s -> pending_unlock s1 = pending_unlock s ->
  futex_lock s1 = futex_lock s -> switched s1 = switched s ->
  locks_ok (set_switched (fupd (switched s1) cpu true) s1).
Proof.
  intros HL En Ep El Es. apply (locks_frame _ _ HL); cbn; [done| by rewrite Ep| by rewrite El|].
  intros c. rewrite Es. unfold fupd. by destruct (c =? cpu).
Qed.

(** ** Each operation preserves it *)
Lemma ok_yield k s cpu : sched_ok k s -> sched_ok k (yield_switch cpu s).
Proof.
  intros HS. unfold yield_switch.
  destruct (cq_current (queues s cpu)) as [cur|] eqn:Ec; destruct (cq_queue (queues s cpu)) as [|nx rest] eqn:Eq; [done| |done|].
  - destruct (on_cpu_current _ _ _ _ HS Ec) as (tc & Etc & _).
    destruct (on_cpu_queued k s cpu nx HS) as (tn & Etn & _); [rewrite Eq; by left|].
    cbn. rewrite Etc, Etn.
    assert (cur_slot s cpu = SlotThread cur) as Hcs by (unfold cur_slot; by rewrite Ec).
    set (s1 := set_current_kernel_stack _ _ _). rewrite <- Hcs.
    assert (SlotThread nx = cur_slot s1 cpu) as ->.
    { unfold cur_slot; subst s1; cbn. by rewrite fupd_eq. }
    apply (ok_switch k s); [done..| | | | |].
    + by intros [|].
    + intros c Hc. subst s1; cbn. by rewrite fupd_ne.
    + subst s1; cbn. rewrite fupd_eq; cbn. rewrite (so_idle _ _ HS), Ec. done.
    + apply (placed_perm _ _ _ (on_cpu s)); [apply HS|]. intros c.
      change (on_cpu s1 c) with (on_cpu (upd_queue cpu (mkQueue (Some nx) (rest ++ [cur]) (cq_idle (queues s cpu))) s) c).
      rewrite on_cpu_upd_queue. destruct (Z.eqb_spec c cpu) as [->|]; [|done].
      unfold on_cpu. rewrite Ec, Eq. cbn. rewrite <- Permutation_cons_append. apply perm_swap.
    + by apply (locks_switch s); [apply HS|..].
  - destruct (on_cpu_queued k s cpu nx HS) as (tn & Etn & _); [rewrite Eq; by left|].
    cbn. rewrite Etn.
    set (s1 := set_current_kernel_stack _ _ _).
    assert (th_ctx tn = read_slot (cur_slot s1 cpu) s1) as ->.
    { unfold cur_slot; subst s1; cbn. rewrite fupd_eq; cbn. by rewrite Etn. }
    assert (forall c, c <> cpu -> queues s1 c = queues s c) as Hq.
    { intros c Hc. subst s1; cbn. by rewrite fupd_ne. }
    split; cbn.
    + apply HS.
    + apply HS.
    + apply (placed_perm _ _ _ (on_cpu s)); [apply HS|]. intros c.
      change (on_cpu (load_context cpu _ s1) c) with (on_cpu (upd_queue cpu (mkQueue (Some nx) rest false) s) c).
      rewrite on_cpu_upd_queue. destruct (Z.eqb_spec c cpu) as [->|]; [|done].
      unfold on_cpu. by rewrite Ec, Eq.
    + intros c. destruct (decide (c = cpu)) as [->|Hc]; [by rewrite fupd_eq|].
      rewrite fupd_ne by done. apply HS.
    + apply (locks_frame s); [apply HS|done..|]. intros c. cbn. unfold fupd. by destruct (c =? cpu).
    + apply loaded_load. intros c Hc. pose proof (so_loaded _ _ HS c) as Hl.
      unfold loaded, cur_slot in *. rewrite Hq by done. cbn. intros Hsw. rewrite (Hl Hsw).
      by destruct (cq_current (queues s c)).
Qed.

Lemma ok_idle k s cpu :
  sched_ok k s -> cq_current (queues s cpu) = None -> sched_ok k (idle_pick cpu s).
Proof.
  intros HS Ec. unfold idle_pick. destruct (cq_queue (queues s cpu)) as [|nx rest] eqn:Eq; [done|].
  destruct (on_cpu_queued k s cpu nx HS) as (tn & Etn & _); [rewrite Eq; by left|].
  cbn. rewrite Etn.
  assert (SlotIdle cpu = cur_slot s cpu) as -> by (unfold cur_slot; by rewrite Ec).
  set (s1 := set_current_kernel_stack _ _ _).
  assert (SlotThread nx = cur_slot s1 cpu) as ->.
  { unfold cur_slot; subst s1; cbn. by rewrite fupd_eq. }
  apply (ok_switch k s); [done..| | | | |].
  - by intros [|].
  - intros c Hc. subst s1; cbn. by rewrite fupd_ne.
  - subst s1; cbn. by rewrite fupd_eq.
  - apply (placed_perm _ _ _ (on_cpu s)); [apply HS|]. intros c.
    change (on_cpu s1 c) with (on_cpu (upd_queue cpu (mkQueue (Some nx) rest false) s) c).
    rewrite on_cpu_upd_queue. destruct (Z.eqb_spec c cpu) as [->|]; [|done].
    unfold on_cpu. by rewrite Ec, Eq.
  - by apply (locks_switch s); [apply HS|..].
Qed.

Lemma ok_exit k s cpu :
  sched_ok k s -> is_Some (cq_current (queues s cpu)) -> sched_ok k (thread_exit cpu s).
Proof.
  intros HS [cur Ec]. unfold thread_exit. rewrite Ec. cbn [default].
  destruct (on_cpu_current _ _ _ _ HS Ec) as (tc & Etc & Eh & Hr).
  rewrite (upd_thread_some cur th_dead _ tc) by done. cbn [default option_bind from_option id].
  assert (SlotThread cur = cur_slot s cpu) as -> by (unfold cur_slot; by rewrite Ec).
  set (s1 := set_threads _ _).
  assert (SlotIdle cpu = cur_slot s1 cpu) as ->.
  { unfold cur_slot; subst s1; cbn. by rewrite fupd_eq. }
  apply (ok_switch k s); [done..| | | | |].
  - subst s1. rewrite <- (upd_thread_some cur th_dead _ tc) by done. intros x. by rewrite read_slot_upd; [destruct x|].
  - intros c Hc. subst s1; cbn. by rewrite fupd_ne.
  - subst s1; cbn. by rewrite fupd_eq.
  - subst s1. cbn. apply (placed_stop _ _ _ (on_cpu s) _ _ tc _ cpu); [apply HS|done| |done|done|..].
    + by intros [?|?].
    + change (on_cpu (set_threads _ ?x) ?c) with (on_cpu x c).
      rewrite on_cpu_upd_queue, Z.eqb_refl. unfold on_cpu. by rewrite Ec.
    + intros d Hd. change (on_cpu (set_threads _ ?x) ?c) with (on_cpu x c).
      rewrite on_cpu_upd_queue. by rewrite (proj2 (Z.eqb_neq d cpu)).
  - by apply (locks_switch s); [apply HS|..].
Qed.

(** The bucket lock just taken is handed to the code that runs next. *)
Lemma locks_handover s s1 cpu b :
  locks_ok s -> 0 <= cpu < num_cpus s -> switched s cpu = false -> 0 <= b < FUTEX_BUCKETS ->
  futex_lock s b = false -> num_cpus s1 = num_cpus s ->
  pending_unlock s1 = fupd (pending_unlock s) cpu b ->
  futex_lock s1 = fupd (futex_lock s) b true -> switched s1 = switched s ->
  locks_ok (set_switched (fupd (switched s1) cpu true) s1).
Proof.
  intros [H1 H2 H3] Hc Hsw Hb Hf En Ep El Es. split; cbn; rewrite ?Ep, ?El, ?Es, ?En.
  - intros c. unfold fupd. destruct (Z.eqb_spec c cpu) as [->|]; [right; auto|]. apply H1.
  - intros b' Hb'. unfold fupd at 1. destruct (Z.eqb_spec b' b) as [->|Hne].
    + split; [|done]. intros _. exists cpu. by rewrite fupd_eq.
    + rewrite H2 by done. split; intros [c Ec]; exists c; unfold fupd in *.
      * destruct (Z.eqb_spec c cpu) as [->|]; [|done]. destruct (H1 cpu) as [?|(_ & ? & _)]; [lia|congruence].
      * destruct (Z.eqb_spec c cpu) as [Ecc|]; [lia|done].
  - intros c d. unfold fupd. destruct (Z.eqb_spec c cpu) as [->|], (Z.eqb_spec d cpu) as [->|]; [done|..|apply H3].
    + intros E _. assert (futex_lock s b = true) by (apply H2; [lia|by exists d]). congruence.
    + intros E _. assert (futex_lock s b = true) by (apply H2; [lia|by exists c]). congruence.
Qed.

Lemma ok_sleep k s s0 cpu b cur addr val dl now :
  sched_ok k s -> 0 <= cpu < num_cpus s -> switched s cpu = false -> 0 <= b < FUTEX_BUCKETS ->
  futex_lock s b = false -> cq_current (queues s cpu) = Some cur ->
  threads s0 = threads s -> queues s0 = queues s -> idle_ctx s0 = idle_ctx s ->
  regs s0 = regs s -> switched s0 = switched s -> num_cpus s0 = num_cpus s -> next_tid s0 = next_tid s ->
  pending_unlock s0 = pending_unlock s -> futex_lock s0 = fupd (futex_lock s) b true ->
  sched_ok k (futex_sleep cpu b cur addr val dl now s0).
Proof.
  intros HS Hc Hsw Hb Hf Ec Fth Fq Fi Fr Fs Fn Ft Fp Fl. unfold futex_sleep.
  destruct (on_cpu_current _ _ _ _ HS Ec) as (tc & Etc & Eh & Hr).
  rewrite (upd_thread_some cur _ _ tc) by (by rewrite Fth).
  set (bl := th_blocked _ _ _ _).
  cbn [queues set_threads]. rewrite Fq. destruct (cq_queue (queues s cpu)) as [|nx rest] eqn:Eq.
  - cbn. rewrite fupd_eq.
    assert (SlotThread cur = cur_slot s cpu) as -> by (unfold cur_slot; by rewrite Ec).
    set (s1 := set_pending_unlock _ _).
    assert (SlotIdle cpu = cur_slot s1 cpu) as ->.
    { unfold cur_slot; subst s1; cbn. by rewrite fupd_eq. }
    apply (ok_switch k s); [done..| | | | |].
    + intros [j|]; subst s1; cbn; rewrite ?Fth, ?Fi; [|done].
      unfold fupd. destruct (Z.eqb_spec j cur) as [->|]; [by rewrite Etc|done].
    + intros c Hne. subst s1; cbn. by rewrite Fq, fupd_ne.
    + subst s1; cbn. by rewrite fupd_eq.
    + subst s1; cbn. rewrite Fth. apply (placed_stop _ _ _ (on_cpu s) _ _ tc _ cpu); [apply HS|done| |done|done|..].
      * by intros [?|?].
      * change (on_cpu (set_pending_unlock _ ?x) ?c) with (on_cpu x c).
        rewrite on_cpu_upd_queue, Z.eqb_refl. unfold on_cpu. by rewrite Ec, Eq.
      * intros d Hd. change (on_cpu (set_pending_unlock _ ?x) ?c) with (on_cpu x c).
        rewrite on_cpu_upd_queue, (proj2 (Z.eqb_neq d cpu)) by done. unfold on_cpu; cbn. by rewrite Fq.
    + apply (locks_handover s _ cpu b); try done; subst s1; cbn; try done; [apply HS|]. by rewrite Fp.
  - destruct (on_cpu_queued k s cpu nx HS) as (tn & Etn & _); [rewrite Eq; by left|].
    cbn. rewrite fupd_eq. rewrite Fth.
    assert (is_Some (fupd (threads s) cur (Some (bl tc)) nx)) as [tn' ->].
    { unfold fupd. destruct (nx =? cur); eauto. }
    assert (SlotThread cur = cur_slot s cpu) as -> by (unfold cur_slot; by rewrite Ec).
    set (s1 := set_current_kernel_stack _ _ _).
    assert (SlotThread nx = cur_slot s1 cpu) as ->.
    { unfold cur_slot; subst s1; cbn. by rewrite fupd_eq. }
    apply (ok_switch k s); [done..| | | | |].
    + intros [j|]; subst s1; cbn; rewrite ?Fi; [|done].
      unfold fupd. destruct (Z.eqb_spec j cur) as [->|]; [by rewrite Etc|done].
    + intros c Hne. subst s1; cbn. by rewrite Fq, fupd_ne.
    + subst s1; cbn. rewrite fupd_eq; cbn. rewrite (so_idle _ _ HS), Ec. done.
    + subst s1; cbn. apply (placed_stop _ _ _ (on_cpu s) _ _ tc _ cpu); [apply HS|done| |done|done|..].
      * by intros [?|?].
      * change (on_cpu (set_current_kernel_stack _ _ (set_pending_unlock _ ?x)) ?c) with (on_cpu x c).
        rewrite on_cpu_upd_queue, Z.eqb_refl. unfold on_cpu. by rewrite Ec, Eq.
      * intros d Hd. change (on_cpu (set_current_kernel_stack _ _ (set_pending_unlock _ ?x)) ?c) with (on_cpu x c).
        rewrite on_cpu_upd_queue, (proj2 (Z.eqb_neq d cpu)) by done. unfold on_cpu; cbn. by rewrite Fq.
    + apply (locks_handover s _ cpu b); try done; subst s1; cbn; try done; [apply HS|]. by rewrite Fp.
Qed.

(** An operation that switches nothing and leaves the bucket locks as they were. *)
Record quiet (s s' : sched) : Prop := {
  qu_cpus : num_cpus s' = num_cpus s;
  qu_current c : cq_current (queues s' c) = cq_current (queues s c);
  qu_idle c : cq_idle (queues s' c) = cq_idle (queues s c);
  qu_regs : regs s' = regs s;
  qu_switched : switched s' = switched s;
  qu_pend : pending_unlock s' = pending_unlock s;
  qu_lock b : 0 <= b -> futex_lock s' b = futex_lock s b;
  qu_slot x : (forall i, x = SlotThread i -> is_Some (threads s i)) -> read_slot x s' = read_slot x s;
}.

#[export] Instance quiet_refl : Reflexive quiet.
Proof. by split. Qed.

Lemma ok_quiet k k' s s' :
  sched_ok k s -> quiet s s' -> next_tid s' = 1 + k' ->
  placed (num_cpus s) (next_tid s') (threads s') (on_cpu s') -> sched_ok k' s'.
Proof.
  intros HS [Q1 Q2 Q3 Q4 Q5 Q6 Q7 Q8] Et HP. split.
  - rewrite Q1. apply HS.
  - done.
  - by rewrite Q1.
  - intros c. rewrite Q2, Q3. apply HS.
  - apply (locks_frame s); [apply HS|done|by intros; rewrite Q6|done|by rewrite Q5].
  - intros c. unfold loaded, cur_slot. rewrite Q2, Q4, Q5, Q8; [apply HS|].
    intros i E. destruct (cq_current (queues s c)) eqn:Ec; [|done]. simplify_eq.
    apply (on_cpu_current _ _ _ _ HS) in Ec as (t & ? & _). eauto.
Qed.

Lemma quiet_upd_thread i f s : (forall t, th_ctx (f t) = th_ctx t) -> quiet s (upd_thread i f s).
Proof.
  intros Hf. split; try (unfold upd_thread; by destruct (threads s i)).
  intros x _. by apply read_slot_upd.
Qed.

Lemma quiet_push_back c i s : quiet s (push_back c i s).
Proof.
  split; try done; cbn.
  - intros d. unfold fupd. by destruct (Z.eqb_spec d c) as [->|].
  - intros d. unfold fupd. by destruct (Z.eqb_spec d c) as [->|].
Qed.

Lemma quiet_trans s1 s2 s3 :
  (forall i, is_Some (threads s1 i) -> is_Some (threads s2 i)) ->
  quiet s1 s2 -> quiet s2 s3 -> quiet s1 s3.
Proof.
  intros Hth [A1 A2 A3 A4 A5 A6 A7 A8] [B1 B2 B3 B4 B5 B6 B7 B8]. split; intros; try congruence.
  - by rewrite B7, A7.
  - rewrite B8, A8; [done..|]. auto.
Qed.

Lemma upd_thread_is_Some i f s j : is_Some (threads (upd_thread i f s) j) <-> is_Some (threads s j).
Proof.
  unfold upd_thread. destruct (threads s i) as [t|] eqn:E; [|done]. cbn. unfold fupd.
  destruct (Z.eqb_spec j i) as [->|]; [|done]. rewrite E. split; eauto.
Qed.

Lemma on_cpu_push_back c i s d :
  on_cpu (push_back c i s) d ≡ₚ if d =? c then i :: on_cpu s d else on_cpu s d.
Proof.
  unfold push_back. rewrite on_cpu_upd_queue. destruct (Z.eqb_spec d c) as [->|]; [|done].
  cbn. unfold on_cpu. rewrite app_assoc. by rewrite <- Permutation_cons_append.
Qed.

(** A blocked thread is marked ready and queued on its home. *)
Lemma ok_wake k s i t f :
  sched_ok k s -> threads s i = Some t -> th_state t = Blocked ->
  (forall t, th_ctx (f t) = th_ctx t) -> th_state (f t) = Ready ->
  th_tid (f t) = th_tid t -> th_home_cpu (f t) = th_home_cpu t ->
  sched_ok k (push_back (th_home_cpu t) (th_tid t) (upd_thread i f s)).
Proof.
  intros HS Ei Eb Hf Er Et Eh. apply (ok_quiet k k s); [done| | |].
  - eapply quiet_trans; [|by apply (quiet_upd_thread i f)|apply quiet_push_back].
    intros j. apply upd_thread_is_Some.
  - cbn. rewrite (upd_thread_some i f _ t) by done. apply HS.
  - rewrite (upd_thread_some i f _ t) by done. cbn.
    apply (placed_wake _ _ _ (on_cpu s) _ _ t); [apply HS|done| |by left|done|done|].
    + by intros [?|?]; congruence.
    + intros c. rewrite on_cpu_push_back.
      destruct (pl_thread _ _ _ _ (so_placed _ _ HS) i t Ei) as (_ & _ & -> & _). done.
Qed.

(** Fields the invariant does not mention. *)
Lemma ok_ipi k s c : sched_ok k s -> sched_ok k (send_ipi c s).
Proof. intros HS. apply (ok_quiet k k s); [done|by split|apply HS..]. Qed.
Lemma ok_set_rescue k s f : sched_ok k s -> sched_ok k (set_rescue f s).
Proof. intros HS. apply (ok_quiet k k s); [done|by split|apply HS..]. Qed.
Lemma ok_set_pending k s f : sched_ok k s -> sched_ok k (set_pending f s).
Proof. intros HS. apply (ok_quiet k k s); [done|by split|apply HS..]. Qed.
Lemma ok_set_blocking k s b : sched_ok k s -> sched_ok k (set_futex_blocking b s).
Proof. intros HS. apply (ok_quiet k k s); [done|by split|apply HS..]. Qed.
Lemma ok_set_resched k s f : sched_ok k s -> sched_ok k (set_need_resched f s).
Proof. intros HS. apply (ok_quiet k k s); [done|by split|apply HS..]. Qed.

Lemma ok_rescue k s cpu now i : sched_ok k s -> sched_ok k (process_rescue cpu now i s).
Proof.
  intros HS. unfold process_rescue. case_match; [done|].
  apply (ok_set_rescue _ _ (fupd (rescue s) i false)) in HS.
  revert HS. generalize (set_rescue (fupd (rescue s) i false) s). clear s H. intros s HS.
  destruct (threads s i) as [t|] eqn:Ei; [|done].
  case_match; [done|]. zb. case_match; [done|].
  destruct (pl_thread _ _ _ _ (so_placed _ _ HS) i t Ei) as (_ & _ & Et & Hh).
  pose proof (so_cpus _ _ HS). rewrite (proj2 (Z.ltb_lt _ _)) by lia.
  assert (existsb (Z.eqb (th_tid t)) (cq_queue (queues (upd_thread i (th_rescued now) s) (th_home_cpu t))) = false) as ->.
  { apply not_true_iff_false. rewrite existsb_exists. intros (j & Hj & E). apply Z.eqb_eq in E. subst j.
    rewrite (upd_thread_some _ _ _ t) in Hj by done. cbn in Hj. rewrite <- list_elem_of_In, Et in Hj.
    apply (on_cpu_queued _ _ _ _ HS) in Hj as (t' & ? & _ & [?|?]); simplify_eq; congruence. }
  assert (sched_ok k (push_back (th_home_cpu t) (th_tid t) (upd_thread i (th_rescued now) s)))
    by (by apply ok_wake).
  case_match; [done|]. by apply ok_ipi.
Qed.

Lemma ok_wake_one k s cpu i t addr :
  sched_ok k s -> threads s i = Some t -> is_waiter addr t = true -> sched_ok k (wake_one cpu i t s).
Proof.
  intros HS Ei Hw. unfold is_waiter in Hw. zb. unfold wake_one.
  assert (sched_ok k (push_back (th_home_cpu t) (th_tid t) (upd_thread i th_woken s)))
    by (by apply ok_wake).
  case_match; [done|]. by apply ok_ipi.
Qed.

Lemma ok_wake_loop k cpu addr count n s i w :
  sched_ok k s -> sched_ok k (futex_wake_loop n cpu i addr count w s).1.
Proof.
  revert s i w. induction n as [|n IH]; intros s i w HS; cbn; [done|].
  case_match; [done|]. destruct (threads s i) eqn:Ei; [|by apply IH].
  case_match; [|by apply IH]. apply IH. by eapply ok_wake_one.
Qed.

Lemma ok_futex_wake k s cpu addr count : sched_ok k s -> sched_ok k (futex_wake cpu addr count s).1.
Proof.
  intros HS. unfold futex_wake.
  pose proof (ok_wake_loop k cpu addr count (Z.to_nat MAX_THREADS) s 0 0 HS) as Hl.
  destruct (futex_wake_loop _ _ _ _ _ _ _) as [s' w]. cbn in Hl. case_match; [|done]. cbn.
  unfold pending_wake_insert. repeat case_match; [done|by apply ok_set_pending|done].
Qed.

Lemma ok_watchdog {M} `{UserMem M} k s (m : M) now : sched_ok k s -> sched_ok k (watchdog_wake m now s).
Proof.
  intros HS. unfold watchdog_wake.
  apply (for_range_ind (fun _ s => sched_ok k s)).
  - repeat case_match; [by apply ok_set_blocking|done|done].
  - intros i s' _ HS'. repeat case_match; [by apply ok_set_rescue|done|done].
Qed.

Lemma lock_back (f : Z -> bool) b c : f b = false -> fupd (fupd f b true) b false c = f c.
Proof. intros E. unfold fupd. by destruct (Z.eqb_spec c b) as [->|]. Qed.

Lemma ok_wait {M} `{UserMem M} k s (m : M) cpu addr val dl now :
  sched_ok k s -> on s cpu -> futex_lock s (futex_bucket addr) = false ->
  sched_ok k (futex_wait_until m cpu addr val dl now s).1.
Proof.
  intros HS [Hc Hsw] Hf. unfold futex_wait_until. case_match; [done|].
  set (b := futex_bucket addr) in *.
  unfold pending_wake_consume.
  assert (forall s', quiet s s' -> threads s' = threads s -> queues s' = queues s -> next_tid s' = next_tid s ->
    sched_ok k s') as Hq.
  { intros s' Hq Et Eq En. apply (ok_quiet k k s); [done..|rewrite En; apply HS|].
    rewrite En, Et. apply (placed_perm _ _ _ (on_cpu s)); [apply HS|]. intros c. unfold on_cpu. by rewrite Eq. }
  cbn [pending set_lock set_futex_lock]. destruct (store_first addr 0 (pending s b)) as [pw|]; cbn.
  { apply Hq; try done. split; try done. intros c _. by apply lock_back. }
  destruct (read_user_u32 m addr) as [cur|]; cbn.
  2:{ apply Hq; try done. split; try done. intros c _. by apply lock_back. }
  case_match; cbn.
  { apply Hq; try done. split; try done. intros c _. by apply lock_back. }
  destruct (futex_blocking s); cbn.
  2:{ apply Hq; (case_match; try done). all: split; try done; intros c _; by apply lock_back. }
  destruct (cq_current (queues s cpu)) as [i|] eqn:Ec; cbn.
  2:{ apply Hq; try done. split; try done. intros c _. by apply lock_back. }
  apply (ok_sleep k s); try done. apply futex_bucket_range.
Qed.

(** The code reached by a switch drops the lock it was handed. *)
Lemma locks_release s cpu :
  locks_ok s -> locks_ok (release_pending_unlock cpu (set_switched (fupd (switched s) cpu false) s)).
Proof.
  intros [H1 H2 H3]. set (s' := release_pending_unlock _ _). set (b := pending_unlock s cpu).
  assert (pending_unlock s' = fupd (pending_unlock s) cpu (-1)) as EP
    by (subst s'; unfold release_pending_unlock; by case_match).
  assert (num_cpus s' = num_cpus s /\ switched s' = fupd (switched s) cpu false) as [EN ES]
    by (subst s'; unfold release_pending_unlock; by case_match).
  assert (forall c, 0 <= c -> futex_lock s' c = true <-> c <> b /\ futex_lock s c = true) as EL.
  { intros c Hc. subst s'. unfold release_pending_unlock. cbn. fold b.
    destruct (Z.leb_spec 0 b); cbn; [unfold fupd; destruct (Z.eqb_spec c b); naive_solver|].
    split; [|tauto]. intros ?. split; [lia|done]. }
  assert (forall c, pending_unlock s' c = -1 \/ c <> cpu /\ pending_unlock s' c = pending_unlock s c) as HU.
  { intros c. rewrite EP. unfold fupd. destruct (Z.eqb_spec c cpu); [by left|by right]. }
  split.
  - intros c. destruct (HU c) as [?|[Hne E]]; [by left|]. rewrite E, EN, ES, fupd_ne by done. apply H1.
  - intros b' Hb'. rewrite EL, H2 by done. split.
    + intros [Hne [c Ec]]. exists c. rewrite EP, fupd_ne; [done|]. intros ->. by apply Hne.
    + intros [c Ec]. destruct (HU c) as [E|[Hne E]]; [lia|]. split; [|exists c; congruence].
      intros Hb. apply Hne, H3; [by rewrite <- E, Ec|lia].
  - intros c d. destruct (HU c) as [->|[? ->]]; [lia|]. destruct (HU d) as [->|[? ->]]; [lia|]. apply H3.
Qed.

Lemma release_fields cpu s :
  let s' := release_pending_unlock cpu s in
  regs s' = regs s /\ switched s' = switched s /\ queues s' = queues s /\ threads s' = threads s
  /\ idle_ctx s' = idle_ctx s /\ num_cpus s' = num_cpus s /\ next_tid s' = next_tid s.
Proof. unfold release_pending_unlock. by case_match. Qed.

(** CPU [cpu] ran the code its switch returned to. *)
Lemma ok_settle k s s' cpu :
  sched_ok k s -> num_cpus s' = num_cpus s -> next_tid s' = next_tid s ->
  switched s' cpu = false -> (forall c, c <> cpu -> switched s' c = switched s c) ->
  (forall c, c <> cpu -> regs s' c = regs s c) ->
  (forall c, cq_current (queues s' c) = cq_current (queues s c)) ->
  (forall c, cq_queue (queues s' c) = cq_queue (queues s c)) ->
  (forall c, cq_idle (queues s' c) = cq_idle (queues s c)) ->
  (forall x, read_slot x s' = read_slot x s) ->
  placed (num_cpus s) (next_tid s) (threads s') (on_cpu s) ->
  locks_ok s' -> sched_ok k s'.
Proof.
  intros HS En Et Es0 Es Er Ec Eq Ei Ex HP HL. split.
  - rewrite En. apply HS.
  - rewrite Et. apply HS.
  - rewrite En, Et. apply (placed_perm _ _ _ (on_cpu s)); [done|]. intros c. unfold on_cpu. by rewrite Ec, Eq.
  - intros c. rewrite Ei, Ec. apply HS.
  - done.
  - intros c. unfold loaded, cur_slot. rewrite Ec, Ex.
    destruct (decide (c = cpu)) as [->|Hne]; [by rewrite Es0|].
    rewrite Es, Er by done. apply HS.
Qed.

Lemma ok_after k s cpu : sched_ok k s -> sched_ok k (after_switch cpu s).1.
Proof.
  intros HS. unfold after_switch. pose proof (locks_release s cpu (so_locks _ _ HS)) as HL.
  set (s1 := set_switched _ _) in *.
  destruct (release_fields cpu s1) as (Fr & Fs & Fq & Ft & Fi & Fn & Fx).
  assert (forall x, read_slot x (release_pending_unlock cpu s1) = read_slot x s) as Hrd.
  { intros [j|c]; cbn [read_slot]; rewrite ?Ft, ?Fi; done. }
  assert (switched s1 cpu = false /\ forall c, c <> cpu -> switched s1 c = switched s c) as [Fs0 Fs1].
  { subst s1. cbn. split; [apply fupd_eq|]. intros. by apply fupd_ne. }
  change (cq_current (queues s1 cpu)) with (cq_current (queues s cpu)).
  destruct (cq_current (queues s cpu)) as [i|] eqn:Ec.
  - destruct (on_cpu_current _ _ _ _ HS Ec) as (t & Et & _).
    change (threads s1 i) with (threads s i). rewrite Et.
    destruct (th_kont t); cbn [fst].
    + apply (ok_settle k s _ cpu); rewrite ?Fr, ?Fs, ?Fq, ?Ft, ?Fn, ?Fx; try done. apply HS.
    + rewrite (upd_thread_some i _ _ t) by (by rewrite Ft).
      apply (ok_settle k s _ cpu); cbn; rewrite ?Fr, ?Fs, ?Fq, ?Ft, ?Fn, ?Fx; try done.
      * intros x. rewrite <- (Hrd x). destruct x as [j|]; cbn; [|done]. rewrite Ft. unfold fupd.
        destruct (Z.eqb_spec j i) as [->|]; [|done]. cbn. by rewrite Et.
      * eapply placed_same; [apply HS|done|done].
      * by apply (locks_frame _ _ HL).
    + unfold clone_child_return. cbn zeta. destruct (match threads _ _ with Some _ => _ | None => _ end). cbn [fst].
      apply (ok_settle k s _ cpu); cbn; rewrite ?Fr, ?Fs, ?Fq, ?Ft, ?Fn, ?Fx; try done.
      * intros c Hc. by rewrite fupd_ne.
      * apply HS.
      * by apply (locks_frame _ _ HL).
  - cbn [fst].
    apply (ok_settle k s _ cpu); cbn; rewrite ?Fr, ?Fs, ?Fq, ?Ft, ?Fn, ?Fx; try done.
    + intros c. unfold fupd. by destruct (Z.eqb_spec c cpu) as [->|].
    + intros c. unfold fupd. by destruct (Z.eqb_spec c cpu) as [->|].
    + intros c. unfold fupd. destruct (Z.eqb_spec c cpu) as [->|]; [|done]. cbn.
      symmetry. by apply (so_idle _ _ HS).
    + apply HS.
    + by apply (locks_frame _ _ HL).
Qed.

Lemma choose_cpu_range n cpu s bc bl fi :
  0 <= cpu -> 0 <= bc < Z.max 1 (cpu + Z.of_nat n) ->
  0 <= choose_cpu n cpu s bc bl fi < Z.max 1 (cpu + Z.of_nat n).
Proof.
  revert cpu bc bl fi. induction n as [|n IH]; intros cpu bc bl fi Hc Hb; cbn [choose_cpu]; [done|].
  replace (cpu + Z.of_nat (S n)) with (cpu + 1 + Z.of_nat n) in * by lia.
  repeat case_match; apply IH; lia.
Qed.

Lemma ok_spawn {M} `{UserMem M} `{Layout} k s cpu fn stack tls ct pt fl r9 rip (m : M) tb :
  sched_ok k s -> 0 <= k -> 2 + k < 2 ^ 32 ->
  sched_ok (k + 1) (spawn cpu fn stack tls ct pt fl r9 rip s m tb).1.1.1.
Proof.
  intros HS Hk Hb. unfold spawn. pose proof (so_next _ _ HS) as En. pose proof (so_cpus _ _ HS) as Hn.
  assert (u32 (next_tid s + 1) = 1 + (k + 1)) as Eu by (rewrite u32_small; lia).
  case_match; cbn [fst].
  { apply (ok_quiet k _ s); [done|by split|done|]. cbn.
    pose proof (so_placed _ _ HS) as [P1 P2 P3 P4]. split; try done.
    intros i t Hi. apply P1 in Hi as (? & ? & ? & ?). rewrite Eu. split_and!; lia. }
  zb. set (slot := kstack_next s). set (t := new_thread _ _ _ _ _ _ _ _ _).
  set (s1 := set_threads _ _). set (bc := choose_cpu _ _ _ _ _ _).
  assert (0 <= bc < num_cpus s) as Hbc.
  { subst bc. pose proof (choose_cpu_range (Z.to_nat (num_cpus s1)) 0 s1 0 u64_max false).
    change (num_cpus s1) with (num_cpus s) in *. lia. }
  assert (threads s1 (next_tid s) = Some t) as Et by (subst s1; cbn; by rewrite fupd_eq).
  rewrite (upd_thread_some _ _ _ t) by done.
  assert (forall s', quiet s1 s' -> num_cpus s' = num_cpus s1 -> next_tid s' = next_tid s1 ->
    threads s' = fupd (threads s1) (next_tid s) (Some (th_rehomed bc t)) ->
    (forall c, on_cpu s' c ≡ₚ if c =? bc then next_tid s :: on_cpu s c else on_cpu s c) ->
    sched_ok (k + 1) s') as HF.
  { intros s' HQ E1 E2 E3 E4. apply (ok_quiet k _ s); [done| | |].
    - destruct HQ as [A1 A2 A3 A4 A5 A6 A7 A8]. split; try done.
      intros x Hx. rewrite A8.
      + destruct x as [i|]; [|done]. subst s1; cbn. rewrite fupd_ne; [done|]. intros ->.
        destruct (Hx _ eq_refl) as [ti Ei]. apply (pl_thread _ _ _ _ (so_placed _ _ HS)) in Ei. lia.
      + intros i ->. subst s1; cbn. unfold fupd. case_match; eauto.
    - rewrite E2. done.
    - rewrite E2, E3. change (next_tid s1) with (u32 (next_tid s + 1)). rewrite Eu.
      replace (1 + (k + 1)) with (next_tid s + 1) by lia.
      assert (forall t', placed (num_cpus s) (next_tid s + 1) (fupd (threads s) (next_tid s) (Some t')) (on_cpu s')
        -> placed (num_cpus s) (next_tid s + 1) (fupd (threads s1) (next_tid s) (Some t')) (on_cpu s')) as Hx.
      { intros t' [P1 P2 P3 P4]. assert (forall i, fupd (threads s1) (next_tid s) (Some t') i = fupd (threads s) (next_tid s) (Some t') i) as Hy.
        { intros i. subst s1; cbn. unfold fupd. by case_match. }
        split; try done; intros *; rewrite ?Hy; try done; [apply P1|apply P3|apply P4]. }
      apply Hx. apply (placed_new _ _ _ (on_cpu s)); [apply HS|lia|by left|done|done|done]. }
  set (s2 := push_back bc (next_tid s) _).
  assert (quiet s1 s2 /\ forall c, on_cpu s2 c ≡ₚ if c =? bc then next_tid s :: on_cpu s c else on_cpu s c) as [HQ HO].
  { split; [|intros c; subst s2; rewrite on_cpu_push_back; by case_match]. subst s2.
    rewrite <- (upd_thread_some (next_tid s) (th_rehomed bc) _ t) by done.
    eapply quiet_trans; [|by apply (quiet_upd_thread (next_tid s) (th_rehomed bc))|apply quiet_push_back].
    intros i. apply upd_thread_is_Some. }
  case_match; apply HF; try done. destruct HQ. by split.
Qed.

(** Before [init] makes the main thread, only the idle contexts changed. *)
Lemma init_loop n it s0 : exists f, for_range n 0 (fun cpu s =>
  set_idle_ctx (fupd (idle_ctx s) cpu (set_rsp (it cpu ⊟ 8) (idle_ctx s cpu))) s) s0 = set_idle_ctx f s0.
Proof.
  apply (for_range_ind (fun _ s => exists f, s = set_idle_ctx f s0)).
  - exists (idle_ctx s0). by destruct s0.
  - intros c s _ [f ->]. cbn. by eexists.
Qed.

Lemma ok_init ncpus k0 it rs fx :
  1 <= ncpus <= MAX_CPUS -> sched_ok 0 (init ncpus k0 it (boot_sched rs fx)).
Proof.
  intros Hn. unfold init. set (s0 := mkSched _ _ _ _ _ _ _ _ _ _ _ _ _ _ _ _ _ _).
  destruct (init_loop (Z.to_nat ncpus) it s0) as [f ->]. subst s0. cbn. split; cbn; try done.
  - unfold MAX_CPUS in *. split; cbn.
    + intros i t. unfold fupd. destruct (Z.eqb_spec i 0) as [->|]; [|done]. intros [= <-]; cbn. unfold MAX_THREADS. lia.
    + intros c. unfold on_cpu; cbn. unfold fupd. destruct (c =? 0); cbn; [apply NoDup_singleton|constructor].
    + intros c i. unfold on_cpu; cbn. unfold fupd. destruct (Z.eqb_spec c 0) as [->|]; cbn; [|by intros ?%elem_of_nil].
      intros ->%list_elem_of_singleton. cbn. eexists. split_and!; [done..|by right].
    + intros i t. unfold fupd. destruct (Z.eqb_spec i 0) as [->|]; [|done]. intros [= <-] _. unfold on_cpu; cbn. by left.
  - intros c. unfold fupd. by case_match.
  - split; cbn; [by left| |lia]. intros b Hb. split; [done|]. intros [? ?]. lia.
Qed.

Lemma step_ok {M} `{UserMem M} `{Layout} k s (o : op M) :
  sched_ok k s -> 0 <= k -> k + forks o < 2 ^ 32 - 1 -> enabled o s -> sched_ok (k + forks o) (exec o s).
Proof.
  intros HS Hk Hb He. destruct o; cbn [forks exec] in *; rewrite ?Z.add_0_r in *; cbn [enabled] in He.
  - destruct He as [_ Hsw]. apply (ok_settle k s _ cpu); try done; cbn.
    + intros c Hc. by rewrite fupd_ne.
    + apply HS.
    + by apply (locks_frame _ _ (so_locks _ _ HS)).
  - by apply ok_after.
  - by apply ok_rescue.
  - by apply ok_yield.
  - destruct He. by apply ok_idle.
  - destruct He as (? & _ & ?). by apply ok_wait.
  - by apply ok_futex_wake.
  - by apply ok_watchdog.
  - unfold timer_tick. case_match; [by apply ok_set_resched|done].
  - by apply ok_set_resched.
  - destruct He. by apply ok_exit.
  - apply ok_spawn; [done|lia|lia].
  - by apply ok_set_blocking.
Qed.

Lemma forks_nonneg {M} (o : op M) : 0 <= forks o.
Proof. destruct o; cbn; lia. Qed.

Lemma reachable_ok {M} `{UserMem M} `{Layout} k s :
  reachable (M := M) k s -> k < 2 ^ 32 - 1 -> 0 <= k /\ sched_ok k s.
Proof.
  induction 1 as [ncpus k0 it rs fx Hn|k s o HR IH He]; intros Hb.
  - split; [done|]. by apply ok_init.
  - pose proof (forks_nonneg o). destruct IH as [Hk HS]; [lia|]. split; [lia|]. by apply step_ok.
Qed.
