(* ===== verification/SchedProps.v ===== *)
(** * What the scheduler guarantees

    Properties of every interleaving of the operations of [Sched]: where
    threads are, who holds the bucket locks, that a thread resumes with the
    registers it was saved with, that the run queues are FIFO, and what wakes
    and rescues do. *)

From S2P Require Import Prelude Paging Uaccess Sched SchedInv.

(** ** What a step leaves alone *)

(** The parts of a thread only its own code changes. *)
Record kept (t t' : Thread) : Prop := {
  kp_ctx : th_ctx t' = th_ctx t;
  kp_kont : th_kont t' = th_kont t;
  kp_kstack : th_kernel_stack_top t' = th_kernel_stack_top t;
  kp_r9 : th_clone_r9 t' = th_clone_r9 t;
  kp_rip : th_clone_rip t' = th_clone_rip t;
  kp_timed : th_wait_timed_out t = true -> th_wait_timed_out t' = true;
  kp_blocked : th_state t' = Blocked -> th_state t = Blocked /\ th_futex_addr t' = th_futex_addr t
    /\ th_futex_val t' = th_futex_val t /\ th_wait_deadline_ns t' = th_wait_deadline_ns t;
  kp_dead : th_state t' = Dead -> th_state t = Dead;
}.

#[export] Instance kept_preorder : PreOrder kept.
Proof.
  split; [by split|]. intros t1 t2 t3 [] []. split; try congruence; [auto| |auto]. intros Hb.
  destruct (kp_blocked1 Hb) as (Hb' & -> & -> & ->). auto.
Qed.

(** [s'] has thread [i] as [s] had it. *)
Definition keeps (i : Z) (s s' : sched) : Prop :=
  forall t, threads s i = Some t -> exists t', threads s' i = Some t' /\ kept t t'.

#[export] Instance keeps_preorder i : PreOrder (keeps i).
Proof.
  split; [intros s t ?; by exists t|]. intros s1 s2 s3 H1 H2 t Ht.
  destruct (H1 t Ht) as (t' & Ht' & K1). destruct (H2 t' Ht') as (t'' & Ht'' & K2).
  exists t''. split; [done|]. by trans t'.
Qed.

Lemma keeps_same i s s' : threads s' = threads s -> keeps i s s'.
Proof. intros E t Ht. exists t. by rewrite E. Qed.

Lemma keeps_upd_thread i j f s : (i = j -> forall t, kept t (f t)) -> keeps i s (upd_thread j f s).
Proof.
  intros Hf t Ht. unfold upd_thread. destruct (threads s j) as [tj|] eqn:Ej; [|by exists t].
  cbn. unfold fupd. destruct (Z.eqb_spec i j) as [->|]; [|by exists t]. simplify_eq. eauto.
Qed.

Lemma keeps_switch i s cpu from k to :
  from <> SlotThread i -> keeps i s (context_switch cpu from k to s).
Proof.
  intros Hne. unfold context_switch. trans (write_slot from (regs s cpu) k s); [|by apply keeps_same].
  destruct from as [j|]; [|by apply keeps_same]. apply keeps_upd_thread. congruence.
Qed.

Lemma keeps_rescue i s cpu now j : keeps i s (process_rescue cpu now j s).
Proof.
  unfold process_rescue. case_match; [done|].
  trans (set_rescue (fupd (rescue s) j false) s); [by apply keeps_same|].
  generalize (set_rescue (fupd (rescue s) j false) s). clear. intros s.
  destruct (threads s j) as [t|]; [|done]. case_match; [done|]. case_match; [done|].
  trans (upd_thread j (th_rescued now) s); [apply keeps_upd_thread; intros _ t'; split; try done; cbn; intros ->; apply orb_true_r|].
  apply keeps_same. by repeat case_match.
Qed.

Lemma keeps_wake i s cpu addr count : keeps i s (futex_wake cpu addr count s).1.
Proof.
  unfold futex_wake.
  assert (forall n j w s, keeps i s (futex_wake_loop n cpu j addr count w s).1) as Hl.
  { clear. induction n as [|n IH]; intros j w s; cbn; [done|].
    case_match; [done|]. destruct (threads s j) as [t|] eqn:E; [|apply IH]. case_match; [|apply IH].
    etrans; [|apply IH]. unfold wake_one.
    trans (upd_thread j th_woken s); [apply keeps_upd_thread; by split|].
    apply keeps_same. by case_match. }
  specialize (Hl (Z.to_nat MAX_THREADS) 0 0 s). destruct (futex_wake_loop _ _ _ _ _ _ _) as [s' w].
  case_match; [|done]. etrans; [apply Hl|]. apply keeps_same.
  unfold pending_wake_insert. by repeat case_match.
Qed.

Lemma keeps_watchdog {M} `{UserMem M} i s (m : M) now : keeps i s (watchdog_wake m now s).
Proof.
  unfold watchdog_wake. apply (for_range_ind (fun _ s' => keeps i s s')).
  - apply keeps_same. by repeat case_match.
  - intros j s' _ HK. etrans; [done|]. apply keeps_same. by repeat case_match.
Qed.

Lemma keeps_sleep i s cpu b cur addr val dl now :
  i <> cur -> keeps i s (futex_sleep cpu b cur addr val dl now s).
Proof.
  intros Hne. unfold futex_sleep.
  trans (upd_thread cur (th_blocked addr val dl now) s); [by apply keeps_upd_thread|].
  generalize (upd_thread cur (th_blocked addr val dl now) s). intros s1.
  destruct (cq_queue (queues s1 cpu)); cbn -[context_switch].
  - case_match; [|by apply keeps_same].
    etrans; [|apply keeps_switch; congruence]. by apply keeps_same.
  - case_match; [|by apply keeps_same]. case_match; [|by apply keeps_same].
    etrans; [|apply keeps_switch; congruence]. by apply keeps_same.
Qed.

Lemma keeps_wait {M} `{UserMem M} i s (m : M) cpu addr val dl now :
  cq_current (queues s cpu) <> Some i -> keeps i s (futex_wait_until m cpu addr val dl now s).1.
Proof.
  intros Hc. unfold futex_wait_until, pending_wake_consume. case_match; [done|].
  cbn [pending set_lock set_futex_lock]. destruct (store_first _ _ _); cbn; [by apply keeps_same|].
  destruct (read_user_u32 m addr); cbn; [|by apply keeps_same].
  case_match; cbn; [by apply keeps_same|].
  destruct (futex_blocking s); cbn; [|case_match; by apply keeps_same].
  destruct (cq_current (queues s cpu)) as [j|] eqn:Ej; cbn; [|by apply keeps_same].
  etrans; [|apply keeps_sleep; congruence]. by apply keeps_same.
Qed.

(** What [spawn] stores when it has a thread slot. *)
Lemma spawn_fields {M} `{UserMem M} `{Layout} cpu fn stack tls ct pt fl r9 rip s (m : M) tb :
  next_tid s < MAX_THREADS ->
  let tid := next_tid s in
  let r := spawn cpu fn stack tls ct pt fl r9 rip s m tb in
  let s' := r.1.1.1 in
  let t := new_thread tid (kstack_next s ⊞ GUARD_SIZE ⊞ KSTACK_USABLE) fn stack tls ct r9 rip (fxsave_template s) in
  exists bc, 0 <= bc < Z.max 1 (num_cpus s)
  /\ threads s' = fupd (fupd (threads s) tid (Some t)) tid (Some (th_rehomed bc t))
  /\ queues s' = queues (push_back bc tid s)
  /\ next_tid s' = u32 (tid + 1) /\ kstack_next s' = kstack_next s ⊞ KSTACK_STRIDE
  /\ switched s' = switched s
  /\ r.1.2 = (map_guard_page (kstack_next s) tb).1 /\ r.2 = tid /\ num_cpus s' = num_cpus s.
Proof.
  intros Hlt. cbn zeta. unfold spawn.
  rewrite (proj2 (Z.leb_gt MAX_THREADS (next_tid s))) by done. cbn zeta.
  cbn [kstack_next set_next_tid fxsave_template set_kstack_next].
  set (t := new_thread _ _ _ _ _ _ _ _ _). set (s1 := set_threads _ _).
  assert (threads s1 (next_tid s) = Some t) as Et by (subst s1; cbn; by rewrite fupd_eq).
  set (bc := choose_cpu _ _ _ _ _ _). exists bc.
  rewrite (upd_thread_some _ _ _ t) by done.
  set (s2 := push_back bc (next_tid s) _). split.
  - pose proof (choose_cpu_range (Z.to_nat (num_cpus s1)) 0 s1 0 u64_max false). subst bc.
    change (num_cpus s1) with (num_cpus s) in *. lia.
  - destruct (cq_idle (queues s2 bc) && _); done.
Qed.

(** A thread that is not running keeps its saved context, whatever steps. *)
Lemma step_keeps {M} `{UserMem M} `{Layout} k s (o : op M) i :
  sched_ok k s -> enabled o s -> (forall c, cq_current (queues s c) <> Some i) -> keeps i s (exec o s).
Proof.
  intros HS He Hc. destruct o; cbn [exec enabled] in *.
  - by apply keeps_same.
  - unfold after_switch. cbn [queues set_switched threads].
    destruct (release_fields cpu (set_switched (fupd (switched s) cpu false) s)) as (_ & _ & _ & Ft & _).
    destruct (cq_current (queues s cpu)) as [j|] eqn:Ej; [|by apply keeps_same].
    destruct (threads s j) as [t|]; [|by apply keeps_same].
    destruct (th_kont t); [by apply keeps_same| |]; cbn [fst].
    + etrans; [|apply keeps_upd_thread; congruence]. by apply keeps_same.
    + unfold clone_child_return. cbn zeta. destruct (match threads _ _ with Some _ => _ | None => _ end).
      by apply keeps_same.
  - apply keeps_rescue.
  - unfold yield_switch. specialize (Hc cpu).
    destruct (cq_current (queues s cpu)) as [cur|], (cq_queue (queues s cpu)) as [|nx rest];
      [done| |done|]; cbn -[context_switch].
    + case_match; [|by apply keeps_same]. case_match; [|by apply keeps_same].
      etrans; [|apply keeps_switch; congruence]. by apply keeps_same.
    + case_match; by apply keeps_same.
  - unfold idle_pick. destruct (cq_queue (queues s cpu)) as [|nx rest]; [done|].
    cbn -[context_switch]. case_match; [|by apply keeps_same].
    etrans; [|by apply keeps_switch]. by apply keeps_same.
  - by apply keeps_wait.
  - apply keeps_wake.
  - apply keeps_watchdog.
  - unfold timer_tick. case_match; by apply keeps_same.
  - by apply keeps_same.
  - destruct He as [_ [j Ej]]. unfold thread_exit. rewrite Ej. cbn [default from_option id].
    specialize (Hc cpu). etrans; [|apply keeps_switch; congruence].
    etrans; [|apply keeps_upd_thread; congruence]. by apply keeps_same.
  - intros t Ht. pose proof (pl_thread _ _ _ _ (so_placed _ _ HS) i t Ht) as (_ & ? & _).
    exists t. split; [|done]. destruct (Z.ltb_spec (next_tid s) MAX_THREADS) as [Hlt|Hge].
    + edestruct (spawn_fields cpu fn_ptr stack tls child_tid parent_tid clone_flags clone_r9 clone_rip s m tb Hlt)
        as (bc & _ & -> & _). by rewrite !fupd_ne by lia.
    + unfold spawn. by rewrite (proj2 (Z.leb_le _ _)).
  - by apply keeps_same.
Qed.

(** ** How a step moves a run queue *)

(** CPU [c] keeps what it runs, or stops running a thread; its queue grows at
    the back only. *)
Definition q_grows (s s' : sched) (c : Z) : Prop :=
  exists add, cq_queue (queues s' c) = cq_queue (queues s c) ++ add
    /\ (cq_current (queues s' c) = cq_current (queues s c) \/ cq_current (queues s' c) = None).

(** CPU [c] takes the head of its queue and loads its context. *)
Definition q_pops (s s' : sched) (c : Z) : Prop :=
  exists x r add, cq_queue (queues s c) = x :: r /\ cq_queue (queues s' c) = r ++ add
    /\ cq_current (queues s' c) = Some x /\ switched s' c = true.

Definition q_step (s s' : sched) (c : Z) : Prop := q_grows s s' c \/ q_pops s s' c.

Lemma q_grows_same s s' c : queues s' c = queues s c -> q_grows s s' c.
Proof. intros E. exists []. rewrite E, app_nil_r. auto. Qed.

Lemma q_grows_trans s s1 s' c :
  cq_current (queues s1 c) = cq_current (queues s c) -> q_grows s s1 c -> q_grows s1 s' c -> q_grows s s' c.
Proof.
  intros E (a1 & E1 & _) (a2 & E2 & H2). exists (a1 ++ a2). rewrite E2, E1, app_assoc.
  split; [done|]. by rewrite <- E.
Qed.

Lemma q_grows_push s d i c :
  cq_current (queues (push_back d i s) c) = cq_current (queues s c) /\ q_grows s (push_back d i s) c.
Proof.
  unfold q_grows. cbn. unfold fupd. destruct (Z.eqb_spec c d) as [->|]; cbn.
  - split; [done|]. exists [i]. auto.
  - split; [done|]. exists []. rewrite app_nil_r. auto.
Qed.

Lemma switch_fields cpu from k to s :
  let s' := context_switch cpu from k to s in
  queues s' = queues s /\ switched s' cpu = true.
Proof.
  unfold context_switch, load_context. cbn. rewrite fupd_eq.
  by destruct (write_slot_fields from (regs s cpu) k s) as (_ & _ & -> & _).
Qed.

Ltac switch_queues :=
  match goal with
  | |- queues (context_switch ?a ?b ?c ?d ?e) = _ => destruct (switch_fields a b c d e) as [-> _]
  end.

Lemma upd_thread_queues i f s : queues (upd_thread i f s) = queues s.
Proof. unfold upd_thread. by case_match. Qed.

(** Popping into [current] and switching. *)
Lemma q_step_pop s s' cpu x r cur add idle c :
  cq_queue (queues s cpu) = x :: r -> cur = Some x ->
  queues s' = fupd (queues s) cpu (mkQueue cur (r ++ add) idle) -> switched s' cpu = true -> q_step s s' c.
Proof.
  intros Eq -> E Es. destruct (decide (c = cpu)) as [->|Hne].
  - right. exists x, r, add. rewrite E, fupd_eq. done.
  - left. apply q_grows_same. by rewrite E, fupd_ne.
Qed.

Lemma q_step_stop s s' cpu c b :
  queues s' = fupd (queues s) cpu (mkQueue None (cq_queue (queues s cpu)) b) -> q_step s s' c.
Proof.
  intros E. left. unfold q_grows. rewrite E. unfold fupd. destruct (Z.eqb_spec c cpu) as [->|]; exists [];
    rewrite app_nil_r; auto.
Qed.

Lemma q_rescue s cpu now j c :
  cq_current (queues (process_rescue cpu now j s) c) = cq_current (queues s c)
  /\ q_grows s (process_rescue cpu now j s) c.
Proof.
  unfold process_rescue. case_match; [split; [done|by apply q_grows_same]|]. cbn [threads set_rescue].
  destruct (threads s j) as [t|] eqn:Ej; [|split; [done|by apply q_grows_same]].
  case_match; [split; [done|by apply q_grows_same]|]. case_match; [split; [done|by apply q_grows_same]|].
  rewrite (upd_thread_some j (th_rescued now) _ t) by done.
  set (s1 := set_threads _ _).
  destruct (q_grows_push s1 (th_home_cpu t) (th_tid t) c) as [Hc Hg].
  repeat case_match; (split; [done|]); try (by apply q_grows_same); exact Hg.
Qed.

Lemma q_wake s cpu addr count c :
  cq_current (queues (futex_wake cpu addr count s).1 c) = cq_current (queues s c)
  /\ q_grows s (futex_wake cpu addr count s).1 c.
Proof.
  assert (forall n j w s, cq_current (queues (futex_wake_loop n cpu j addr count w s).1 c) = cq_current (queues s c)
    /\ q_grows s (futex_wake_loop n cpu j addr count w s).1 c) as Hl.
  { clear. induction n as [|n IH]; intros j w s; cbn; [split; [done|by apply q_grows_same]|].
    case_match; [split; [done|by apply q_grows_same]|].
    destruct (threads s j) as [t|] eqn:Ej; [|apply IH]. case_match; [|apply IH].
    assert (cq_current (queues (wake_one cpu j t s) c) = cq_current (queues s c)
      /\ q_grows s (wake_one cpu j t s) c) as [Hc Hg].
    { unfold wake_one. rewrite (upd_thread_some j th_woken _ t) by done. set (s1 := set_threads _ _).
      destruct (q_grows_push s1 (th_home_cpu t) (th_tid t) c) as [Hc Hg]. by case_match. }
    destruct (IH (j + 1) (w + 1) (wake_one cpu j t s)) as [Hc' Hg']. split; [congruence|].
    by eapply q_grows_trans. }
  unfold futex_wake. specialize (Hl (Z.to_nat MAX_THREADS) 0 0 s).
  destruct (futex_wake_loop _ _ _ _ _ _ _) as [s' w].
  assert (queues (pending_wake_insert (futex_bucket addr) addr s') = queues s') as E.
  { unfold pending_wake_insert. by repeat case_match. }
  case_match; [|done]. cbn in *. rewrite E. destruct Hl as [? (a & ? & ?)]. split; [done|].
  exists a. by rewrite E.
Qed.

Lemma q_wait {M} `{UserMem M} k s (m : M) cpu addr val dl now c :
  sched_ok k s -> q_step s (futex_wait_until m cpu addr val dl now s).1 c.
Proof.
  intros HS. unfold futex_wait_until, pending_wake_consume. case_match; [left; by apply q_grows_same|].
  cbn [pending set_lock set_futex_lock]. destruct (store_first _ _ _); cbn; [left; by apply q_grows_same|].
  destruct (read_user_u32 m addr); cbn; [|left; by apply q_grows_same].
  case_match; cbn; [left; by apply q_grows_same|].
  destruct (futex_blocking s); cbn; [|left; case_match; by apply q_grows_same].
  destruct (cq_current (queues s cpu)) as [j|] eqn:Ej; cbn; [|left; by apply q_grows_same].
  unfold futex_sleep. destruct (on_cpu_current _ _ _ _ HS Ej) as (t & Et & _).
  rewrite (upd_thread_some j _ _ t) by done. cbn [queues set_threads set_lock set_futex_lock].
  destruct (cq_queue (queues s cpu)) as [|nx rest] eqn:Eq; cbn -[context_switch]; rewrite fupd_eq.
  - eapply (q_step_stop _ _ cpu). switch_queues. cbn. by rewrite Eq.
  - assert (is_Some (fupd (threads s) j (Some (th_blocked addr val (default 0 dl) now t)) nx)) as [tn ->].
    { unfold fupd. case_match; [eauto|]. destruct (on_cpu_queued k s cpu nx HS) as (tn & ? & _); [|eauto].
      rewrite Eq. by left. }
    eapply (q_step_pop _ _ cpu nx rest _ []); [done|done| |apply switch_fields].
    rewrite app_nil_r. switch_queues. done.
Qed.

Lemma q_yield k s cpu c :
  sched_ok k s -> q_step s (yield_switch cpu s) c /\
  (cq_queue (queues s cpu) <> [] -> q_pops s (yield_switch cpu s) cpu).
Proof.
  intros HS. unfold yield_switch.
  destruct (cq_current (queues s cpu)) as [cur|] eqn:Ec; destruct (cq_queue (queues s cpu)) as [|nx rest] eqn:Eq;
    [split; [left; by apply q_grows_same|done]| |split; [left; by apply q_grows_same|done]|].
  - destruct (on_cpu_current _ _ _ _ HS Ec) as (tc & Etc & _).
    destruct (on_cpu_queued k s cpu nx HS) as (tn & Etn & _); [rewrite Eq; by left|].
    cbn -[context_switch]. rewrite Etc, Etn.
    set (s' := context_switch _ _ _ _ _).
    assert (queues s' = fupd (queues s) cpu (mkQueue (Some nx) (rest ++ [cur]) (cq_idle (queues s cpu)))) as EQ
      by (subst s'; by switch_queues).
    assert (switched s' cpu = true) as ES by apply switch_fields.
    split; [by eapply (q_step_pop s s' cpu nx rest)|]. intros _. exists nx, rest, [cur].
    by rewrite EQ, fupd_eq.
  - destruct (on_cpu_queued k s cpu nx HS) as (tn & Etn & _); [rewrite Eq; by left|].
    cbn. rewrite Etn. set (s' := load_context _ _ _).
    assert (queues s' = fupd (queues s) cpu (mkQueue (Some nx) (rest ++ []) false)) as EQ
      by (by rewrite app_nil_r).
    assert (switched s' cpu = true) as ES by (subst s'; cbn; apply fupd_eq).
    split; [by eapply (q_step_pop s s' cpu nx rest)|]. intros _. exists nx, rest, [].
    by rewrite EQ, fupd_eq.
Qed.

Lemma q_idle k s cpu c :
  sched_ok k s -> q_step s (idle_pick cpu s) c /\
  (cq_queue (queues s cpu) <> [] -> q_pops s (idle_pick cpu s) cpu).
Proof.
  intros HS. unfold idle_pick. destruct (cq_queue (queues s cpu)) as [|nx rest] eqn:Eq;
    [split; [left; by apply q_grows_same|done]|].
  destruct (on_cpu_queued k s cpu nx HS) as (tn & Etn & _); [rewrite Eq; by left|].
  cbn -[context_switch]. rewrite Etn. set (s' := context_switch _ _ _ _ _).
  assert (queues s' = fupd (queues s) cpu (mkQueue (Some nx) (rest ++ []) false)) as EQ
    by (subst s'; rewrite app_nil_r; by switch_queues).
  assert (switched s' cpu = true) as ES by apply switch_fields.
  split; [by eapply (q_step_pop s s' cpu nx rest)|]. intros _. exists nx, rest, [].
  by rewrite EQ, fupd_eq.
Qed.

(** Every step, on every CPU. *)
Lemma step_queue {M} `{UserMem M} `{Layout} k s (o : op M) c :
  sched_ok k s -> enabled o s -> q_step s (exec o s) c.
Proof.
  intros HS He. destruct o; cbn [exec enabled] in *; try (left; by apply q_grows_same).
  - unfold after_switch. cbn [queues set_switched threads].
    destruct (release_fields cpu (set_switched (fupd (switched s) cpu false) s)) as (_ & _ & Fq & _).
    destruct (cq_current (queues s cpu)) as [j|] eqn:Ej.
    + left. apply q_grows_same. destruct (threads s j) as [t|]; [|done].
      destruct (th_kont t); cbn [fst]; [by rewrite Fq|by rewrite upd_thread_queues, Fq|].
      unfold clone_child_return. cbn zeta. destruct (match threads _ _ with Some _ => _ | None => _ end).
      cbn. by rewrite Fq.
    + eapply (q_step_stop _ _ cpu). cbn. by rewrite Fq.
  - left. apply q_rescue.
  - by eapply q_yield.
  - by eapply q_idle.
  - by eapply q_wait.
  - left. apply q_wake.
  - left. apply q_grows_same. unfold watchdog_wake.
    apply (for_range_ind (fun _ s' => queues s' c = queues s c)); [by repeat case_match|].
    intros j s' _ E. by repeat case_match.
  - left. apply q_grows_same. unfold timer_tick. by case_match.
  - destruct He as [_ [j Ej]]. unfold thread_exit. rewrite Ej.
    eapply (q_step_stop _ _ cpu). switch_queues. by rewrite upd_thread_queues.
  - left. destruct (Z.ltb_spec (next_tid s) MAX_THREADS) as [Hlt|Hge].
    + destruct (spawn_fields cpu fn_ptr stack tls child_tid parent_tid clone_flags clone_r9 clone_rip s m tb Hlt)
        as (bc & _ & _ & EQ & _).
      unfold q_grows. rewrite EQ. apply q_grows_push.
    + apply q_grows_same. unfold spawn. by rewrite (proj2 (Z.leb_le _ _)).
Qed.

(** ** Threads and where they are *)

(** C4.  In every interleaving, fewer than 2^32 - 1 clones after boot: no run
    queue holds a thread twice, and a thread is queued or current on a CPU
    exactly when it is runnable and the CPU is its home.  So no runnable
    thread is ever lost, no thread can be running on two CPUs, no blocked or
    dead one can be picked, and every tid in a queue indexes the thread table
    within its bounds. *)
Theorem threads_in_one_place {M} `{UserMem M} `{Layout} k s :
  reachable (M := M) k s -> k < 2 ^ 32 - 1 ->
  forall c, NoDup (on_cpu s c)
    /\ forall i, i ∈ on_cpu s c <->
         0 <= i < MAX_THREADS /\ exists t, threads s i = Some t /\ runnable t /\ th_home_cpu t = c.
Proof.
  intros HR Hk c. destruct (reachable_ok k s HR Hk) as [Hk0 HS].
  pose proof (so_placed _ _ HS) as [P1 P2 P3 P4]. split; [apply P2|]. intros i. split.
  - intros Hi. apply P3 in Hi as (t & Ht & Hh & Hr). split; [by destruct (P1 _ _ Ht)|]. eauto.
  - intros (_ & t & Ht & Hr & <-). by apply P4.
Qed.

(** ** The bucket locks *)

(** C8.  Between operations a futex bucket lock is held exactly when one CPU
    has its release pending; that CPU has just switched contexts, and the
    first code it runs frees the lock.  No wake or wait can find a bucket
    locked for good. *)
Theorem bucket_lock_handed_over {M} `{UserMem M} `{Layout} k s b :
  reachable (M := M) k s -> k < 2 ^ 32 - 1 -> 0 <= b -> futex_lock s b = true ->
  exists c, pending_unlock s c = b /\ (forall d, pending_unlock s d = b -> d = c)
    /\ enabled (M := M) (OAfter c) s /\ futex_lock (exec (M := M) (OAfter c) s) b = false.
Proof.
  intros HR Hk Hb Hl. destruct (reachable_ok k s HR Hk) as [Hk0 HS].
  pose proof (so_locks _ _ HS) as [L1 L2 L3]. apply L2 in Hl as [c Ec]; [|done]. exists c.
  destruct (L1 c) as [?|(_ & Hsw & Hc)]; [lia|]. split_and!; [done| |done..|].
  - intros d Ed. apply L3; [congruence|lia].
  - pose proof (ok_after _ _ c HS) as HS'. cbn [exec]. destruct (futex_lock _ b) eqn:El; [|done].
    apply (lk_held _ (so_locks _ _ HS')) in El as [d Ed]; [|done].
    assert (pending_unlock (after_switch c s).1 = fupd (pending_unlock s) c (-1)) as Ep.
    { unfold after_switch. cbn [queues set_switched threads].
      assert (forall s, pending_unlock (release_pending_unlock c s) = fupd (pending_unlock s) c (-1)) as Hp.
      { clear. intros s. unfold release_pending_unlock. by case_match. }
      destruct (cq_current (queues s c)) as [i|] eqn:Ei; [|cbn; by rewrite Hp].
      destruct (on_cpu_current _ _ _ _ HS Ei) as (t & -> & _).
      destruct (th_kont t); cbn [fst]; [by rewrite Hp| |].
      - unfold upd_thread. case_match; cbn; by rewrite Hp.
      - unfold clone_child_return. cbn zeta. destruct (match threads _ _ with Some _ => _ | None => _ end).
        cbn. by rewrite Hp. }
    rewrite Ep in Ed. unfold fupd in Ed. destruct (Z.eqb_spec d c) as [E|Hne]; [lia|].
    exfalso. apply Hne, L3; [congruence|lia].
Qed.

(** ** Contexts *)

(** Steps from [s] to [s'] during which thread [i] was not running before
    the last one; [k] counts the clones. *)
Inductive parked {M} `{UserMem M} `{Layout} (i : Z) : Z -> sched -> Z -> sched -> Prop :=
| parked_refl k s : parked i k s k s
| parked_step k s k1 s1 (o : op M) :
    parked i k s k1 s1 -> (forall c, cq_current (queues s1 c) <> Some i) -> enabled o s1 ->
    parked i k s (k1 + forks o) (exec o s1).

Lemma parked_ok {M} `{UserMem M} `{Layout} i k s k' s' :
  sched_ok k s -> 0 <= k -> parked (M := M) i k s k' s' -> k' < 2 ^ 32 - 1 -> 0 <= k' /\ sched_ok k' s'.
Proof.
  intros HS Hk. induction 1 as [|k s k1 s1 o HP IH Hc He]; intros Hk'; [done|].
  pose proof (forks_nonneg o). destruct IH as [? ?]; [done|done|lia|]. split; [lia|]. by apply step_ok.
Qed.

Lemma parked_keeps {M} `{UserMem M} `{Layout} i k s k' s' :
  sched_ok k s -> 0 <= k -> parked (M := M) i k s k' s' -> k' < 2 ^ 32 - 1 -> keeps i s s'.
Proof.
  intros HS Hk. induction 1 as [|k s k1 s1 o HP IH Hc He]; intros Hk'; [done|].
  pose proof (forks_nonneg o). assert (k1 < 2 ^ 32 - 1) as Hk1 by lia.
  destruct (parked_ok _ _ _ _ _ HS Hk HP Hk1) as [_ HS1].
  trans s1; [by apply IH|]. by apply (step_keeps k1).
Qed.

Lemma parked_le {M} `{UserMem M} `{Layout} i k s k' s' : parked (M := M) i k s k' s' -> k <= k'.
Proof. induction 1 as [|k s k1 s1 o HP IH Hc He]; [lia|]. pose proof (forks_nonneg o). lia. Qed.

(** The end of a yield or of a wait leaves the registers alone. *)
Lemma after_regs s c i t :
  cq_current (queues s c) = Some i -> threads s i = Some t -> th_kont t <> KChild ->
  regs (after_switch c s).1 c = regs s c.
Proof.
  intros Hc Ht Hk. unfold after_switch. cbn [queues set_switched threads]. rewrite Hc, Ht.
  set (s1 := set_switched _ s).
  assert (regs (release_pending_unlock c s1) = regs s) as E by (unfold release_pending_unlock; by case_match).
  destruct (th_kont t); cbn [fst]; [by rewrite E| |done]. unfold upd_thread. case_match; cbn; by rewrite E.
Qed.

(** The step that makes [i] current loads its context. *)
Lemma parked_switched {M} `{UserMem M} `{Layout} i k s k' s' c :
  sched_ok k s -> 0 <= k -> parked (M := M) i k s k' s' -> k' < 2 ^ 32 - 1 ->
  (forall c, cq_current (queues s c) <> Some i) -> cq_current (queues s' c) = Some i ->
  switched s' c = true.
Proof.
  intros HS Hk HP Hk' Hn Hc. destruct HP as [|k s k1 s1 o HP Hc1 He]; [by apply Hn in Hc|].
  pose proof (forks_nonneg o). assert (k1 < 2 ^ 32 - 1) as Hk1 by lia.
  destruct (parked_ok _ _ _ _ _ HS Hk HP Hk1) as [_ HS1].
  destruct (step_queue k1 s1 o c HS1 He) as [(a & _ & [E|E])|(x & r & a & _ & _ & _ & ?)]; [|congruence|done].
  rewrite E in Hc. by apply Hc1 in Hc.
Qed.

(** Not running at home is not running. *)
Lemma not_current k s i t :
  sched_ok k s -> threads s i = Some t -> cq_current (queues s (th_home_cpu t)) <> Some i ->
  forall c, cq_current (queues s c) <> Some i.
Proof.
  intros HS Ht Hn c E. pose proof E as E'.
  apply (on_cpu_current _ _ _ _ HS) in E' as (t' & ? & <- & _). by simplify_eq.
Qed.

(** It resumes with what it was saved with. *)
Lemma parked_restored {M} `{UserMem M} `{Layout} i k s k' s' t c :
  sched_ok k s -> 0 <= k -> threads s i = Some t -> (forall d, cq_current (queues s d) <> Some i) ->
  parked (M := M) i k s k' s' -> k' < 2 ^ 32 - 1 -> cq_current (queues s' c) = Some i ->
  switched s' c = true /\ regs s' c = th_ctx t /\ exists t', threads s' i = Some t' /\ kept t t'.
Proof.
  intros HS Hk Ht Hn HP Hk' Hc. pose proof (parked_switched _ _ _ _ _ _ HS Hk HP Hk' Hn Hc) as Hsw.
  destruct (parked_keeps _ _ _ _ _ HS Hk HP Hk' t Ht) as (t' & Ht' & HK).
  destruct (parked_ok _ _ _ _ _ HS Hk HP Hk') as [_ HS'].
  split; [done|]. split; [|by exists t'].
  rewrite (so_loaded _ _ HS' c Hsw). unfold cur_slot. rewrite Hc. cbn. rewrite Ht'. apply HK.
Qed.

(** The code a thread switched out by [o] returns to. *)
Definition return_to {M} (o : op M) : Kont :=
  match o with OWait _ _ _ _ _ _ => KWait | _ => KYield end.

Lemma switch_saves cpu i k to s r :
  is_Some (threads s i) -> regs s cpu = r ->
  exists t, threads (context_switch cpu (SlotThread i) k to s) i = Some t
    /\ th_ctx t = r /\ th_kont t = k.
Proof.
  intros [t Ht] <-. exists (th_saved (regs s cpu) k t). unfold context_switch, load_context.
  cbn. unfold upd_thread. rewrite Ht. cbn. by rewrite fupd_eq.
Qed.

(** A sleeping thread is saved too. *)
Lemma sleep_saves s cpu b i addr val dl now :
  is_Some (threads s i) -> (forall j, j ∈ cq_queue (queues s cpu) -> is_Some (threads s j)) ->
  exists t, threads (futex_sleep cpu b i addr val dl now s) i = Some t
    /\ th_ctx t = regs s cpu /\ th_kont t = KWait.
Proof.
  intros [t Ht] Hq. unfold futex_sleep. rewrite (upd_thread_some i _ _ t) by done.
  cbn [queues set_threads]. destruct (cq_queue (queues s cpu)) as [|nx rest];
    cbn -[context_switch]; rewrite fupd_eq.
  - apply switch_saves; [cbn; rewrite fupd_eq; by eexists|done].
  - assert (is_Some (fupd (threads s) i (Some (th_blocked addr val dl now t)) nx)) as [tn ->].
    { unfold fupd. case_match; [by eexists|]. apply Hq. by left. }
    apply switch_saves; [cbn; rewrite fupd_eq; by eexists|done].
Qed.

Lemma sleep_queues_ne s cpu b i addr val dl now c :
  cpu <> c -> queues (futex_sleep cpu b i addr val dl now s) c = queues s c.
Proof.
  intros Hne. unfold futex_sleep. repeat case_match;
    rewrite ?(proj1 (switch_fields _ _ _ _ _)); cbn; (rewrite fupd_ne by done); by rewrite upd_thread_queues.
Qed.

(** The step that takes a thread off its CPU stores the registers of the CPU
    in the thread. *)
Lemma step_saves {M} `{UserMem M} `{Layout} k s (o : op M) i c :
  sched_ok k s -> enabled o s -> cq_current (queues s c) = Some i ->
  cq_current (queues (exec o s) c) <> Some i ->
  exists t, threads (exec o s) i = Some t /\ th_ctx t = regs s c /\ th_kont t = return_to o.
Proof.
  intros HS He Hc Hn. destruct (on_cpu_current _ _ _ _ HS Hc) as (t & Ht & _).
  assert (forall j, j ∈ cq_queue (queues s c) -> is_Some (threads s j)) as Hq.
  { intros j Hj. destruct (on_cpu_queued k s c j HS Hj) as (tj & ? & _). by eexists. }
  assert (forall d, d <> c \/ d = c) as Hd by lia.
  destruct o; cbn [exec enabled return_to] in *; try by destruct Hn.
  - exfalso. apply Hn. unfold after_switch. cbn [queues set_switched threads].
    destruct (release_fields cpu (set_switched (fupd (switched s) cpu false) s)) as (_ & _ & Fq & _).
    destruct (cq_current (queues s cpu)) as [j|] eqn:Ej.
    + destruct (threads s j) as [tj|]; [|done].
      destruct (th_kont tj); cbn [fst]; [by rewrite Fq|by rewrite upd_thread_queues, Fq|].
      unfold clone_child_return. cbn zeta. destruct (match threads _ _ with Some _ => _ | None => _ end).
      cbn. by rewrite Fq.
    + cbn. rewrite Fq. rewrite fupd_ne by congruence. done.
  - exfalso. apply Hn. by rewrite (proj1 (q_rescue s cpu now i0 c)).
  - destruct (Hd cpu) as [Hne| ->].
    { exfalso. apply Hn. unfold yield_switch.
      repeat case_match; try done; rewrite ?(proj1 (switch_fields _ _ _ _ _)); cbn; by rewrite fupd_ne. }
    unfold yield_switch in *. rewrite Hc in *. destruct (cq_queue (queues s c)) as [|nx rest]; [done|].
    cbn -[context_switch] in *. destruct (Hq nx) as [tn Etn]; [by left|]. rewrite Ht, Etn in *.
    apply switch_saves; [by eexists|done].
  - exfalso. apply Hn. destruct He as [_ He]. unfold idle_pick.
    repeat case_match; try done; rewrite ?(proj1 (switch_fields _ _ _ _ _)); cbn; (rewrite fupd_ne by congruence); done.
  - unfold futex_wait_until, pending_wake_consume in *. case_match; [by destruct Hn|].
    cbn [pending set_lock set_futex_lock] in *. destruct (store_first _ _ _); cbn in *; [by destruct Hn|].
    destruct (read_user_u32 m addr); cbn in *; [|by destruct Hn].
    case_match; cbn in *; [by destruct Hn|].
    destruct (futex_blocking s); cbn in *; [|by case_match; destruct Hn].
    destruct (cq_current (queues s cpu)) as [j|] eqn:Ej; cbn in *; [|by destruct Hn].
    destruct (Hd cpu) as [Hne| ->].
    { exfalso. apply Hn. rewrite sleep_queues_ne by done. done. }
    simplify_eq. by eapply (sleep_saves (set_lock (futex_bucket addr) true s)).
  - exfalso. apply Hn. by rewrite (proj1 (q_wake s cpu addr count c)).
  - exfalso. apply Hn. unfold watchdog_wake.
    apply (for_range_ind (fun _ s' => cq_current (queues s' c) = Some i)); [by repeat case_match|].
    intros j s' _ E. by repeat case_match.
  - exfalso. apply Hn. unfold timer_tick. by case_match.
  - destruct He as [_ [j Ej]]. unfold thread_exit in *. rewrite Ej in *. cbn [default from_option id] in *.
    destruct (Hd cpu) as [Hne| ->].
    { exfalso. apply Hn. rewrite (proj1 (switch_fields _ _ _ _ _)). rewrite upd_thread_queues. cbn. by rewrite fupd_ne. }
    simplify_eq. eapply switch_saves; [|unfold upd_thread; by case_match].
    unfold upd_thread. cbn. rewrite Ht. cbn. rewrite fupd_eq. by eexists.
  - exfalso. apply Hn. destruct (Z.ltb_spec (next_tid s) MAX_THREADS) as [Hlt|Hge].
    + destruct (spawn_fields cpu fn_ptr stack tls child_tid parent_tid clone_flags clone_r9 clone_rip s m tb Hlt)
        as (bc & _ & _ & -> & _). by rewrite (proj1 (q_grows_push s bc (next_tid s) c)).
    + unfold spawn. by rewrite (proj2 (Z.leb_le _ _)).
Qed.

(** C5.  Context switches lose nothing.  Thread [i] runs on CPU [c0] with some
    registers, TLS base and FPU state, and a step takes it off that CPU (a
    yield, a futex wait).  Whatever all CPUs do after that, and whichever way
    the thread is woken, the moment it is current again the CPU has exactly
    those registers, TLS base and FPU state, and the code it returns to is the
    end of the call that switched it out, which starts with all of them
    unchanged. *)
Theorem context_restored {M} `{UserMem M} `{Layout} i c0 k s (o : op M) k' s' c :
  reachable (M := M) k s -> cq_current (queues s c0) = Some i -> enabled o s ->
  (forall d, cq_current (queues (exec o s) d) <> Some i) ->
  parked (M := M) i (k + forks o) (exec o s) k' s' -> k' < 2 ^ 32 - 1 ->
  cq_current (queues s' c) = Some i ->
  switched s' c = true /\ regs s' c = regs s c0
  /\ (exists t', threads s' i = Some t' /\ th_kont t' = return_to o)
  /\ regs (exec (M := M) (OAfter c) s') c = regs s c0.
Proof.
  intros HR Hc0 He Hn HP Hk' Hc. pose proof (forks_nonneg o).
  assert (k + forks o < 2 ^ 32 - 1) as Hk1 by (pose proof (parked_le _ _ _ _ _ HP); lia).
  destruct (reachable_ok k s HR ltac:(lia)) as [Hk0 HS].
  destruct (step_saves k s o i c0 HS He Hc0 (Hn c0)) as (t & Ht & Ec & Ek).
  assert (sched_ok (k + forks o) (exec o s)) as HS1 by (by apply step_ok).
  destruct (parked_restored _ _ _ _ _ _ _ HS1 ltac:(lia) Ht Hn HP Hk' Hc) as (Hsw & Hr & t' & Ht' & HK).
  rewrite Ec in Hr. pose proof (kp_kont _ _ HK) as Ek'. rewrite Ek in Ek'.
  split; [done|]. split; [done|]. split; [by exists t'|]. rewrite <- Hr.
  apply (after_regs s' c i t'); [done|done|]. rewrite Ek'. by destruct o.
Qed.

(** ** Fairness of the run queues *)

(** C7.  A queued thread only ever advances: whatever step any CPU takes, the
    threads ahead of [i] in its run queue stay the same or lose their first,
    or [i] itself is taken and its context loaded.  A yield, or a turn of the
    idle loop, of its CPU makes it advance; so [i] runs after at most as many
    of those as it had threads ahead. *)
Theorem queue_fifo {M} `{UserMem M} `{Layout} k s (o : op M) c i ahead behind :
  reachable (M := M) k s -> k < 2 ^ 32 - 1 -> enabled o s ->
  cq_queue (queues s c) = ahead ++ i :: behind ->
  let s' := exec o s in
  ahead = [] /\ cq_current (queues s' c) = Some i /\ switched s' c = true
  \/ exists ahead' behind', cq_queue (queues s' c) = ahead' ++ i :: behind'
      /\ (ahead' = ahead /\ o <> OYield c /\ o <> OIdle c \/ exists x, ahead = x :: ahead').
Proof.
  intros HR Hk He Hq s'. destruct (reachable_ok k s HR Hk) as [Hk0 HS].
  assert (q_pops s s' c -> ahead = [] /\ cq_current (queues s' c) = Some i /\ switched s' c = true
    \/ exists ahead' behind', cq_queue (queues s' c) = ahead' ++ i :: behind' /\ exists x, ahead = x :: ahead') as Hpop.
  { intros (x & r & a & E1 & E2 & E3 & E4). rewrite Hq in E1. destruct ahead as [|y ahead]; simplify_eq/=; [by left|].
    right. exists ahead, (behind ++ a). split; [|by eexists]. by rewrite E2, <- app_assoc. }
  assert (cq_queue (queues s c) <> []) as Hne by (rewrite Hq; by destruct ahead).
  assert (o = OYield c \/ o = OIdle c -> q_pops s s' c) as Hadv.
  { intros [->| ->]; subst s'; cbn; [by apply (q_yield k s c c)|by apply (q_idle k s c c)]. }
  assert ((o = OYield c \/ o = OIdle c) \/ o <> OYield c /\ o <> OIdle c) as [Ho|Hno].
  { destruct o as [| | |d|d| | | | | | | |]; try (right; done); destruct (decide (d = c)) as [->|]; [left; auto|right|left; auto|right];
      split; congruence. }
  - destruct (Hpop (Hadv Ho)) as [?|(x & y & ? & ?)]; [by left|right; eauto 6].
  - destruct (step_queue k s o c HS He) as [(a & E & _)|Hp].
    + right. exists ahead, (behind ++ a). fold s' in E. rewrite E, Hq, <- app_assoc. auto.
    + destruct (Hpop Hp) as [?|(x & y & ? & ?)]; [by left|right; eauto 6].
Qed.
