(* ===== verification/FutexProps.v ===== *)
(** * Futex wakes, waits, rescues and new threads

    What [futex_wake] does to the waiters of an address, that a wake is not
    lost whichever side comes first, that a timed wait ends, and that the
    kernel stacks [spawn] hands out are apart and guarded. *)

From S2P Require Import Prelude Paging Uaccess Sched SchedInv SchedProps.

(** ** Wakes *)

Definition waits (addr : Z) (s : sched) (j : Z) : bool :=
  match threads s j with Some t => is_waiter addr t | None => false end.
(** The threads blocked on [addr], by index. *)
Definition waiters (addr : Z) (s : sched) : list Z := List.filter (waits addr s) (seqZ 0 MAX_THREADS).
Definition homed (c : Z) (s : sched) (j : Z) : bool :=
  match threads s j with Some t => th_home_cpu t =? c | None => false end.

(** [s'] is [s] with the threads [K] woken, in that order. *)
Record woke (K : list Z) (s s' : sched) : Prop := {
  wk_thread j : threads s' j = if bool_decide (j ∈ K) then th_woken <$> threads s j else threads s j;
  wk_queue c : queues s' c = mkQueue (cq_current (queues s c))
    (cq_queue (queues s c) ++ List.filter (homed c s) K) (cq_idle (queues s c));
}.

Lemma woke_nil s s' : threads s' = threads s -> queues s' = queues s -> woke [] s s'.
Proof.
  intros Et Eq. split.
  - intros j. by rewrite Et.
  - intros c. rewrite Eq. cbn. rewrite app_nil_r. by destruct (queues s c).
Qed.

Lemma wake_one_woke cpu i t s :
  threads s i = Some t -> th_tid t = i -> woke [i] s (wake_one cpu i t s).
Proof.
  intros Ei Et. unfold wake_one. rewrite (upd_thread_some i th_woken _ t) by done. split.
  - intros j. transitivity (fupd (threads s) i (Some (th_woken t)) j); [by case_match|].
    unfold fupd. destruct (Z.eqb_spec j i) as [->|Hne].
    + rewrite bool_decide_eq_true_2 by (by left). by rewrite Ei.
    + rewrite bool_decide_eq_false_2; [done|]. by intros ?%list_elem_of_singleton.
  - intros c. transitivity (fupd (queues s) (th_home_cpu t)
      (mkQueue (cq_current (queues s (th_home_cpu t))) (cq_queue (queues s (th_home_cpu t)) ++ [th_tid t])
        (cq_idle (queues s (th_home_cpu t)))) c); [by case_match|].
    unfold fupd. cbn. unfold homed. rewrite Ei, Et. rewrite Z.eqb_sym.
    destruct (Z.eqb_spec (th_home_cpu t) c) as [<-|]; [done|]. rewrite app_nil_r. by destruct (queues s c).
Qed.

Lemma woke_app i K s s1 s' :
  woke [i] s s1 -> woke K s1 s' -> i ∉ K -> woke (i :: K) s s'.
Proof.
  intros [A1 A2] [B1 B2] Hi. split.
  - intros j. rewrite B1, !A1. destruct (decide (j = i)) as [->|Hne].
    + rewrite (bool_decide_eq_false_2 _ Hi), (bool_decide_eq_true_2 (i ∈ [i])), (bool_decide_eq_true_2 (i ∈ i :: K)); [done|by left..].
    + rewrite (bool_decide_eq_false_2 (j ∈ [i])) by (by intros ?%list_elem_of_singleton).
      rewrite (bool_decide_ext (j ∈ i :: K) (j ∈ K)); [done|]. rewrite elem_of_cons. tauto.
  - intros c. rewrite B2, A2. cbn.
    assert (List.filter (homed c s1) K = List.filter (homed c s) K) as ->.
    { apply List.filter_ext_in. intros j Hj. unfold homed. rewrite A1. destruct (bool_decide _); [|done].
      by destruct (threads s j). }
    rewrite <- app_assoc. f_equal. f_equal. by destruct (homed c s i).
Qed.

Lemma filter_seqZ_notin (f : Z -> bool) i lo n : i < lo -> i ∉ List.filter f (seqZ lo n).
Proof.
  intros Hlt Hin. apply list_elem_of_In, List.filter_In in Hin as [Hin _].
  apply list_elem_of_In, elem_of_seqZ in Hin. lia.
Qed.

Lemma wake_loop_spec n cpu i addr count w s :
  (forall j t, threads s j = Some t -> th_tid t = j) -> w <= count ->
  let K := take (Z.to_nat (count - w)) (List.filter (waits addr s) (seqZ i (Z.of_nat n))) in
  let r := futex_wake_loop n cpu i addr count w s in
  r.2 = w + len K /\ woke K s r.1 /\ pending r.1 = pending s.
Proof.
  revert i w s. induction n as [|n IH]; intros i w s Ht Hw; cbn zeta.
  { change (seqZ i (Z.of_nat 0)) with (@nil Z). cbn [List.filter]. rewrite take_nil. split_and!; [change (len (@nil Z)) with 0; cbn; lia|by apply woke_nil|done]. }
  rewrite seqZ_cons by lia. replace (Z.pred (Z.of_nat (S n))) with (Z.of_nat n) by lia. cbn [futex_wake_loop].
  destruct (Z.leb_spec count w) as [Hc|Hc].
  { replace (count - w) with 0 by lia. change (Z.to_nat 0) with 0%nat. rewrite take_0. split_and!; [change (len (@nil Z)) with 0; cbn; lia|by apply woke_nil|done]. }
  cbn [List.filter]. replace (Z.succ i) with (i + 1) by lia.
  assert (waits addr s i = match threads s i with Some t => is_waiter addr t | None => false end) as -> by done.
  destruct (threads s i) as [t|] eqn:Ei; [|by apply IH].
  destruct (is_waiter addr t) eqn:Hwt; [|by apply IH].
  pose proof (wake_one_woke cpu i t s Ei (Ht _ _ Ei)) as Hone.
  assert (List.filter (waits addr s) (seqZ (i + 1) (Z.of_nat n))
    = List.filter (waits addr (wake_one cpu i t s)) (seqZ (i + 1) (Z.of_nat n))) as ->.
  { apply List.filter_ext_in. intros j Hj. apply list_elem_of_In, elem_of_seqZ in Hj. unfold waits.
    rewrite (wk_thread _ _ _ Hone), bool_decide_eq_false_2; [done|]. intros ?%list_elem_of_singleton. lia. }
  destruct (IH (i + 1) (w + 1) (wake_one cpu i t s)) as (E1 & E2 & E3); [|lia|].
  { intros j tj. rewrite (wk_thread _ _ _ Hone). case_match; [|apply Ht].
    destruct (threads s j) eqn:Ej; [|done]. intros [= <-]. by apply Ht in Ej. }
  replace (Z.to_nat (count - w)) with (S (Z.to_nat (count - (w + 1)))) by lia. rewrite firstn_cons.
  split_and!.
  - rewrite E1, len_cons. lia.
  - eapply woke_app; [done..|]. intros (p & Hp & _)%elem_of_take. apply list_elem_of_lookup_2 in Hp.
    by apply filter_seqZ_notin in Hp; [|lia].
  - rewrite E3. unfold wake_one. rewrite (upd_thread_some i th_woken _ t) by done. by case_match.
Qed.

Lemma wake_all_spec cpu addr count s :
  (forall j t, threads s j = Some t -> th_tid t = j) -> 0 <= count ->
  let K := take (Z.to_nat count) (waiters addr s) in
  let r := futex_wake_loop (Z.to_nat MAX_THREADS) cpu 0 addr count 0 s in
  r.2 = 0 + len K /\ woke K s r.1 /\ pending r.1 = pending s.
Proof.
  intros Ht Hc. unfold waiters.
  assert (exists n, Z.of_nat n = MAX_THREADS /\ n = Z.to_nat MAX_THREADS) as (n & En & <-)
    by (by exists (Z.to_nat MAX_THREADS)).
  pose proof (wake_loop_spec n cpu 0 addr count 0 s Ht Hc) as HL. rewrite Z.sub_0_r, En in HL. exact HL.
Qed.

(** Nothing was woken: nothing changed. *)
Lemma wake_loop_none n cpu i addr count w s :
  (futex_wake_loop n cpu i addr count w s).2 <= w -> (futex_wake_loop n cpu i addr count w s).1 = s.
Proof.
  assert (forall n i w s, w <= (futex_wake_loop n cpu i addr count w s).2) as Hmono.
  { clear. induction n as [|n IH]; intros i w s; cbn; [done|]. repeat case_match; try done; try apply IH.
    etrans; [|apply IH]. lia. }
  revert i w s. induction n as [|n IH]; intros i w s; cbn; [done|].
  repeat case_match; try done; try apply IH. intros Hle.
  pose proof (Hmono n (i + 1) (w + 1) (wake_one cpu i t s)). lia.
Qed.

Lemma futex_wake_spec k s cpu addr count :
  sched_ok k s -> 0 <= count ->
  let K := take (Z.to_nat count) (waiters addr s) in
  let r := futex_wake cpu addr count s in
  r.2 = len K /\ woke K s r.1
  /\ (K <> [] -> pending r.1 = pending s)
  /\ (K = [] -> r.1 = pending_wake_insert (futex_bucket addr) addr s).
Proof.
  intros HS Hc. cbn zeta. unfold futex_wake.
  pose proof (wake_all_spec cpu addr count s) as HL. cbn zeta in HL.
  set (K := take _ _) in *. destruct HL as (E1 & E2 & E3); [|done|].
  { intros j t Hj. by apply (pl_thread _ _ _ _ (so_placed _ _ HS)) in Hj as (_ & _ & ? & _). }
  pose proof (wake_loop_none (Z.to_nat MAX_THREADS) cpu 0 addr count 0 s) as Hnone.
  destruct (futex_wake_loop _ _ _ _ _ _ _) as [s1 w]. cbn in *. rewrite Z.add_0_l in E1.
  destruct (Z.eqb_spec w 0) as [Ew|Ew].
  - rewrite Hnone in * by lia. assert (K = []) as EK by (apply len_zero_nil; lia). rewrite EK in *.
    split_and!; [done| |done|done]. destruct E2 as [A1 A2].
    split; unfold pending_wake_insert; repeat case_match; done.
  - split_and!; [done..|]. intros EK. by rewrite EK in E1.
Qed.

(** [futex_wake(addr, count)] wakes the first [count] threads blocked on
    [addr], by thread index, and no other: it returns how many, marks each
    ready, and appends it to the run queue of its home CPU, in that order;
    all other threads and what the CPUs run are as before. *)
Theorem futex_wake_exact {M} `{UserMem M} `{Layout} k s cpu addr count :
  reachable (M := M) k s -> k < 2 ^ 32 - 1 -> 0 <= count ->
  let K := take (Z.to_nat count) (waiters addr s) in
  let r := futex_wake cpu addr count s in
  r.2 = Z.min count (len (waiters addr s)) /\ woke K s r.1
  /\ (K <> [] -> pending r.1 = pending s).
Proof.
  intros HR Hk Hc K r. destruct (reachable_ok k s HR Hk) as [_ HS].
  destruct (futex_wake_spec k s cpu addr count HS Hc) as (E & HW & HP & _).
  split_and!; [|done|done]. subst r. rewrite E. unfold K. by rewrite len_take.
Qed.

(** ** No wake is lost *)
Lemma store_first_Some old new l : old ∈ l -> is_Some (store_first old new l).
Proof.
  induction l as [|x l IH]; [by intros ?%elem_of_nil|]. intros Hin. cbn.
  destruct (Z.eqb_spec x old) as [->|Hne]; [eauto|].
  apply elem_of_cons in Hin as [->|Hin]; [done|]. destruct (IH Hin) as [l' ->]. cbn. eauto.
Qed.

Lemma store_first_elem old new l l' : store_first old new l = Some l' -> new ∈ l'.
Proof.
  revert l'. induction l as [|x l IH]; intros l'; cbn; [done|].
  case_match; [intros [= <-]; by left|]. destruct (store_first old new l); [|done].
  intros [= <-]. right. by apply IH.
Qed.

Lemma store_first_keeps x old new l l' :
  x <> old -> x ∈ l -> store_first old new l = Some l' -> x ∈ l'.
Proof.
  intros Hne. revert l'. induction l as [|y l IH]; intros l' Hin; [by apply elem_of_nil in Hin|]. cbn.
  apply elem_of_cons in Hin. destruct (Z.eqb_spec y old) as [->|].
  - intros [= <-]. destruct Hin as [->|Hin]; [done|]. by right.
  - destruct (store_first old new l); [|done]. intros [= <-].
    destruct Hin as [->|Hin]; [by left|]. right. by apply IH.
Qed.

(** A wake of nobody is remembered, or dropped when the table is full. *)
Lemma insert_stored b addr s :
  addr ∈ pending s b \/ 0 ∈ pending s b -> addr ∈ pending (pending_wake_insert b addr s) b.
Proof.
  intros Hp. unfold pending_wake_insert. destruct (existsb _ _) eqn:Eb.
  - apply existsb_exists in Eb as (x & Hx & E). apply Z.eqb_eq in E as <-. by apply list_elem_of_In.
  - destruct Hp as [Hp|Hp].
    + assert (existsb (Z.eqb addr) (pending s b) = true); [|congruence].
      apply existsb_exists. exists addr. split; [by apply list_elem_of_In|apply Z.eqb_refl].
    + destruct (store_first_Some 0 addr _ Hp) as [l El]. rewrite El. cbn. rewrite fupd_eq.
      by eapply store_first_elem.
Qed.

Lemma insert_full b addr s : 0 ∉ pending s b -> pending_wake_insert b addr s = s.
Proof.
  intros H0. unfold pending_wake_insert. case_match; [done|].
  assert (store_first 0 addr (pending s b) = None) as ->; [|done].
  revert H0. generalize (pending s b). clear. intros l. induction l as [|x l IH]; [done|].
  intros Hn. cbn. destruct (Z.eqb_spec x 0) as [->|]; [destruct Hn; by left|].
  rewrite IH; [done|]. intros ?. destruct Hn. by right.
Qed.

(** A stored wake is there for a wait to find. *)
Lemma wait_consumes {M} `{UserMem M} (m : M) addr s cpu val dl now :
  1 < next_tid s -> addr ∈ pending s (futex_bucket addr) ->
  (futex_wait_until m cpu addr val dl now s).2 = WRet 0.
Proof.
  intros Hn Hin. unfold futex_wait_until. rewrite (proj2 (Z.leb_gt _ _)) by done. unfold pending_wake_consume.
  cbn [pending set_lock set_futex_lock].
  destruct (store_first_Some addr 0 _ Hin) as [l ->]. done.
Qed.

Lemma switch_saved cpu i k to s t :
  threads s i = Some t ->
  threads (context_switch cpu (SlotThread i) k to s) i = Some (th_saved (regs s cpu) k t).
Proof.
  intros E. unfold context_switch. cbn -[upd_thread]. rewrite (upd_thread_some i _ _ t) by done.
  cbn. apply fupd_eq.
Qed.

(** A wait that sleeps leaves its thread blocked on the address. *)
Lemma wait_sleeps {M} `{UserMem M} k s (m : M) cpu addr val dl now i :
  sched_ok k s -> cq_current (queues s cpu) = Some i ->
  (futex_wait_until m cpu addr val dl now s).2 = WSleep ->
  exists t, threads (futex_wait_until m cpu addr val dl now s).1 i = Some t
    /\ th_state t = Blocked /\ th_futex_addr t = addr /\ th_kont t = KWait
    /\ th_ctx t = regs s cpu /\ th_wait_deadline_ns t = default 0 dl /\ th_futex_val t = val.
Proof.
  intros HS Ec. unfold futex_wait_until, pending_wake_consume.
  destruct (Z.leb_spec (next_tid s) 1); [done|]. cbn [pending set_lock set_futex_lock].
  destruct (store_first _ _ _); [done|]. destruct (read_user_u32 m addr); [|done].
  destruct (negb _); [done|]. destruct (negb _); [by destruct (_ =? _)|].
  cbn [queues set_lock set_futex_lock]. rewrite Ec. intros _. cbn [fst].
  destruct (on_cpu_current _ _ _ _ HS Ec) as (t & Et & _).
  unfold futex_sleep. rewrite (upd_thread_some i _ _ t) by done.
  cbn [queues set_threads set_lock set_futex_lock].
  destruct (cq_queue (queues s cpu)) as [|nx rest] eqn:Eq; cbn -[context_switch]; rewrite fupd_eq.
  - eexists. split; [apply switch_saved, fupd_eq|done].
  - assert (is_Some (fupd (threads s) i (Some (th_blocked addr val (default 0 dl) now t)) nx)) as [tn ->].
    { unfold fupd. case_match; [eauto|]. destruct (on_cpu_queued k s cpu nx HS) as (tn & ? & _); [|eauto].
      rewrite Eq. by left. }
    eexists. split; [apply switch_saved, fupd_eq|done].
Qed.

Lemma waiters_elem addr s i :
  i ∈ waiters addr s <-> 0 <= i < MAX_THREADS /\ exists t, threads s i = Some t /\ th_state t = Blocked /\ th_futex_addr t = addr.
Proof.
  unfold waiters. rewrite list_elem_of_In, List.filter_In, <- list_elem_of_In, elem_of_seqZ. unfold waits, is_waiter.
  split.
  - intros [Hi Hw]. split; [lia|]. destruct (threads s i) as [t|]; [|done]. zb. eauto.
  - intros (Hi & t & -> & Hb & <-). split; [lia|]. rewrite bool_decide_eq_true_2 by done. cbn. apply Z.eqb_refl.
Qed.

(** Between a wake and the wait it is for: any steps but a wait on [addr]. *)
Definition waits_on {M} (addr : Z) (o : op M) : Prop :=
  match o with OWait _ _ a _ _ _ => a = addr | _ => False end.
Inductive unwaited {M} `{UserMem M} `{Layout} (addr : Z) : Z -> sched -> Z -> sched -> Prop :=
| unwaited_refl k s : unwaited addr k s k s
| unwaited_step k s k1 s1 (o : op M) :
    unwaited addr k s k1 s1 -> ~ waits_on addr o -> enabled o s1 ->
    unwaited addr k s (k1 + forks o) (exec o s1).

Lemma upd_thread_pending i f s : pending (upd_thread i f s) = pending s.
Proof. unfold upd_thread. by case_match. Qed.
Lemma switch_pending cpu from k to s : pending (context_switch cpu from k to s) = pending s.
Proof. unfold context_switch. cbn. destruct from; cbn; [|done]. apply upd_thread_pending. Qed.
Lemma release_pending cpu s : pending (release_pending_unlock cpu s) = pending s.
Proof. unfold release_pending_unlock. by case_match. Qed.
Lemma sleep_pending cpu b i addr val dl now s : pending (futex_sleep cpu b i addr val dl now s) = pending s.
Proof. unfold futex_sleep. repeat case_match; rewrite ?switch_pending; cbn; apply upd_thread_pending. Qed.
Lemma rescue_pending cpu now j s : pending (process_rescue cpu now j s) = pending s.
Proof.
  unfold process_rescue. case_match; [done|]. cbn [threads set_rescue].
  destruct (threads s j) as [t|] eqn:E; [|done]. case_match; [done|]. case_match; [done|].
  rewrite (upd_thread_some j _ _ t) by done. by repeat case_match.
Qed.
Lemma wake_loop_pending n cpu j addr count w s :
  pending (futex_wake_loop n cpu j addr count w s).1 = pending s.
Proof.
  revert j w s. induction n as [|n IH]; intros j w s; cbn; [done|].
  case_match; [done|]. destruct (threads s j) as [t|] eqn:E; [|apply IH]. case_match; [|apply IH].
  rewrite IH. unfold wake_one. case_match; cbn; apply upd_thread_pending.
Qed.

Lemma insert_keeps b b' addr a s :
  addr <> 0 -> addr ∈ pending s b -> addr ∈ pending (pending_wake_insert b' a s) b.
Proof.
  intros Hne Hin. unfold pending_wake_insert. case_match; [done|].
  destruct (store_first 0 a (pending s b')) as [l|] eqn:El; [|done]. cbn. unfold fupd.
  destruct (Z.eqb_spec b b') as [->|]; [|done]. by eapply store_first_keeps.
Qed.

Lemma wait_keeps {M} `{UserMem M} (m : M) cpu a addr val dl now s b :
  a <> addr -> addr ∈ pending s b -> addr ∈ pending (futex_wait_until m cpu a val dl now s).1 b.
Proof.
  intros Hne Hin. unfold futex_wait_until, pending_wake_consume. case_match; [done|].
  cbn [pending set_lock set_futex_lock].
  destruct (store_first a 0 (pending s (futex_bucket a))) as [l|] eqn:El; cbn.
  { unfold fupd. destruct (Z.eqb_spec b (futex_bucket a)) as [->|]; [|done]. by eapply store_first_keeps. }
  destruct (read_user_u32 m a); cbn; [|done]. case_match; cbn; [done|].
  destruct (futex_blocking s); cbn; [|by case_match].
  destruct (cq_current (queues s cpu)); cbn; [|done]. by rewrite sleep_pending.
Qed.

(** Only a wait on [addr] takes a pending wake of [addr] away. *)
Lemma step_pending {M} `{UserMem M} `{Layout} (o : op M) s addr b :
  addr <> 0 -> ~ waits_on addr o -> addr ∈ pending s b -> addr ∈ pending (exec o s) b.
Proof.
  intros Hne Ho Hin. destruct o; cbn [exec waits_on] in *; try done.
  - unfold after_switch. cbn [queues set_switched threads].
    destruct (cq_current (queues s cpu)) as [j|]; [|cbn; by rewrite release_pending].
    destruct (threads s j) as [t|]; [|done].
    destruct (th_kont t); cbn [fst]; [by rewrite release_pending|by rewrite upd_thread_pending, release_pending|].
    unfold clone_child_return. cbn zeta. destruct (match threads _ _ with Some _ => _ | None => _ end).
    cbn. by rewrite release_pending.
  - by rewrite rescue_pending.
  - unfold yield_switch. by repeat case_match; rewrite ?switch_pending.
  - unfold idle_pick. by repeat case_match; rewrite ?switch_pending.
  - by apply wait_keeps.
  - unfold futex_wake. pose proof (wake_loop_pending (Z.to_nat MAX_THREADS) cpu 0 addr0 count 0 s) as E.
    destruct (futex_wake_loop _ _ _ _ _ _ _) as [s' w]. cbn in E.
    case_match; cbn; [apply insert_keeps; [done|]|]; by rewrite E.
  - unfold watchdog_wake. apply (for_range_ind (fun _ s' => addr ∈ pending s' b)); [by repeat case_match|].
    intros j s' _ E. by repeat case_match.
  - unfold timer_tick. by case_match.
  - unfold thread_exit. rewrite switch_pending. destruct (cq_current (queues s cpu)); cbn; [|done].
    by rewrite upd_thread_pending.
  - unfold spawn. case_match; [done|]. cbn zeta.
    rewrite (upd_thread_some _ _ _ (new_thread (next_tid s) (kstack_next s ⊞ GUARD_SIZE ⊞ KSTACK_USABLE)
      fn_ptr stack tls child_tid clone_r9 clone_rip (fxsave_template s))) by (cbn; by rewrite fupd_eq).
    by case_match.
Qed.

Lemma unwaited_pending {M} `{UserMem M} `{Layout} addr k s k' s' b :
  addr <> 0 -> unwaited (M := M) addr k s k' s' -> addr ∈ pending s b -> addr ∈ pending s' b.
Proof. intros Hne. induction 1 as [|k s k1 s1 o HU IH Ho He]; [done|]. intros. by apply step_pending; [..|apply IH]. Qed.

#[local] Opaque waiters futex_wake futex_wait_until.

(** A blocked thread is in the table of waiters; a wake of them all, or of
    more, leaves nobody blocked. *)
Lemma wake_all k s cpu addr count i t :
  sched_ok k s -> len (waiters addr s) <= count ->
  threads s i = Some t -> th_state t <> Dead -> (th_state t = Blocked -> th_futex_addr t = addr) ->
  exists t', threads (futex_wake cpu addr count s).1 i = Some t' /\ runnable t'.
Proof.
  intros HS Hcount Et Hd Hb. pose proof (len_nonneg (waiters addr s)).
  destruct (futex_wake_spec k s cpu addr count HS) as (_ & HW & _); [lia|].
  rewrite take_ge in HW by (unfold len in *; lia). rewrite (wk_thread _ _ _ HW), Et.
  destruct (pl_thread _ _ _ _ (so_placed _ _ HS) i t Et) as [Hi _].
  case_bool_decide as Hin; cbn; [eexists; split; [done|by left]|].
  exists t. split; [done|]. destruct (th_state t) eqn:E; [by left|by right| |done].
  destruct Hin. apply waiters_elem. split; [done|]. exists t. auto.
Qed.

(** C6.  Wakes and waits on a futex address, in either order of taking the
    bucket lock.
    - The waiter first: a thread went to sleep on the address, then anything
      happened, then a waker that finds the bucket lock free wakes at least as
      many threads as are blocked there: the thread is runnable and in the run
      queue of its CPU.
    - The waker first: it finds nobody waiting.  If the address is already
      among the bucket's pending wakes, or the bucket's table of eight has a
      free slot, then whatever happens short of a wait on this address, the
      next wait on it, by any thread, returns 0 at once, whatever the futex
      word holds.
    - If the table is full of other addresses, the wake is dropped: the call
      changes nothing at all, and the waiter depends on the watchdog. *)
Theorem futex_no_lost_wake {M} `{UserMem M} `{Layout} k s waker addr count :
  reachable (M := M) k s -> k < 2 ^ 32 - 1 -> 0 < addr -> 0 <= count ->
  (forall (m : M) cpu val dl now i k2 s2,
     enabled (OWait cpu m addr val dl now) s -> cq_current (queues s cpu) = Some i ->
     (futex_wait_until m cpu addr val dl now s).2 = WSleep ->
     parked (M := M) i k (exec (OWait cpu m addr val dl now) s) k2 s2 -> k2 < 2 ^ 32 - 1 ->
     enabled (M := M) (OWake waker addr count) s2 -> len (waiters addr s2) <= count ->
     let s3 := exec (M := M) (OWake waker addr count) s2 in
     exists t, threads s3 i = Some t /\ runnable t /\ i ∈ on_cpu s3 (th_home_cpu t))
  /\ (enabled (M := M) (OWake waker addr count) s -> waiters addr s = [] ->
     let s1 := exec (M := M) (OWake waker addr count) s in
     (addr ∈ pending s (futex_bucket addr) \/ 0 ∈ pending s (futex_bucket addr) ->
        forall k2 s2 (m : M) cpu val dl now,
        unwaited (M := M) addr k s1 k2 s2 -> 1 < next_tid s2 ->
        (futex_wait_until m cpu addr val dl now s2).2 = WRet 0)
     /\ (0 ∉ pending s (futex_bucket addr) -> s1 = s)).
Proof.
  intros HR Hk Ha Hcnt. destruct (reachable_ok k s HR Hk) as [Hk0 HS]. split.
  - intros m cpu val dl now i k2 s2 He Ec Hs HP Hk2 Hw Hlen s3.
    destruct (wait_sleeps k s m cpu addr val dl now i HS Ec Hs) as (t & Et & Hb & Hf & _).
    assert (sched_ok k (exec (OWait cpu m addr val dl now) s)) as HS1.
    { rewrite <- (Z.add_0_r k). apply (step_ok k s (OWait cpu m addr val dl now)); [done|done|cbn; lia|done]. }
    destruct (parked_ok _ _ _ _ _ HS1 Hk0 HP Hk2) as [Hk20 HS2].
    destruct (parked_keeps _ _ _ _ _ HS1 Hk0 HP Hk2 t Et) as (t2 & Et2 & HK).
    destruct (wake_all k2 s2 waker addr count i t2 HS2 Hlen Et2) as (t3 & Et3 & Hr).
    { intros Hd. apply (kp_dead _ _ HK) in Hd. congruence. }
    { intros Hb2. destruct (kp_blocked _ _ HK Hb2) as (_ & -> & _). done. }
    exists t3. split; [done|]. split; [done|].
    assert (sched_ok (k2 + 0) s3) as HS3 by (apply (step_ok k2 s2 (OWake waker addr count)); [done|done|cbn; lia|done]).
    by apply (pl_off _ _ _ _ (so_placed _ _ HS3)).
  - intros He Hnone s1. destruct (futex_wake_spec k s waker addr count HS Hcnt) as (_ & _ & _ & E).
    rewrite Hnone, take_nil in E. specialize (E eq_refl). change s1 with (futex_wake waker addr count s).1.
    rewrite E. split; [|apply insert_full].
    intros Hp k2 s2 m cpu val dl now HU Hn. apply wait_consumes; [done|].
    eapply unwaited_pending; [lia|done|]. by apply insert_stored.
Qed.

(** ** Timeouts *)
Lemma watchdog_flags {M} `{UserMem M} (m : M) now s i t :
  0 <= i < MAX_THREADS -> threads s i = Some t -> watchdog_check m now t = true ->
  rescue (watchdog_wake m now s) i = true /\ threads (watchdog_wake m now s) = threads s.
Proof.
  intros Hi Ht Hw. unfold watchdog_wake. set (s0 := if negb _ then _ else _).
  assert (threads s0 = threads s) as E0 by (subst s0; by repeat case_match).
  pose proof (for_range_ind (fun j s' => threads s' = threads s /\ (i < j -> rescue s' i = true))
    (Z.to_nat MAX_THREADS) 0 (fun i s =>
    match threads s i with
    | None => s
    | Some t => if watchdog_check m now t then set_rescue (fupd (rescue s) i true) s else s
    end) s0) as HI. cbn beta in HI. destruct HI as [E1 E2].
  - split; [done|lia].
  - intros j s' Hj [E1 E2]. destruct (decide (j = i)) as [->|Hne].
    + rewrite E1, Ht, Hw. cbn. split; [done|]. intros _. apply fupd_eq.
    + assert (i < j + 1 -> rescue s' i = true) as E2' by (intros; apply E2; lia).
      rewrite E1. destruct (threads s j) as [tj|]; [|done]. case_match; [|done]. cbn. split; [done|].
      intros Hlt. unfold fupd. case_match; [done|]. by apply E2'.
  - split; [apply E2; lia|done].
Qed.

Lemma process_rescue_other cpu now j s i :
  i <> j -> threads (process_rescue cpu now j s) i = threads s i /\ rescue (process_rescue cpu now j s) i = rescue s i.
Proof.
  intros Hne. unfold process_rescue. case_match; [done|]. cbn [threads set_rescue].
  assert (rescue (set_rescue (fupd (rescue s) j false) s) i = rescue s i) as Er by (cbn; by apply fupd_ne).
  destruct (threads s j) as [t|] eqn:Ej; [|done].
  case_match; [done|]. case_match; [done|].
  rewrite (upd_thread_some j _ _ t) by done. set (s1 := set_threads _ _).
  assert (threads s1 i = threads s i /\ rescue s1 i = rescue s i) as Hs1.
  { subst s1. cbn. by rewrite !fupd_ne. }
  repeat case_match; done.
Qed.

Lemma process_rescue_it cpu now i s t :
  threads s i = Some t -> rescue s i = true -> th_state t = Blocked -> th_futex_addr t <> 0 ->
  threads (process_rescue cpu now i s) i = Some (th_rescued now t).
Proof.
  intros Et Er Hb Ha. unfold process_rescue. rewrite Er. cbn [threads set_rescue negb]. rewrite Et.
  rewrite bool_decide_eq_true_2 by done. cbn [negb]. rewrite (proj2 (Z.eqb_neq _ _)) by done.
  rewrite (upd_thread_some i _ _ t) by done. set (s1 := set_threads _ _).
  assert (threads s1 i = Some (th_rescued now t)) as Hs1 by (subst s1; cbn; apply fupd_eq).
  repeat case_match; done.
Qed.

Lemma rescues_it cpu now i s t :
  0 <= i < MAX_THREADS -> threads s i = Some t -> rescue s i = true -> th_state t = Blocked -> th_futex_addr t <> 0 ->
  threads (process_rescues cpu now s) i = Some (th_rescued now t).
Proof.
  intros Hi Et Er Hb Ha. unfold process_rescues.
  pose proof (for_range_ind (fun j s' => (j <= i -> threads s' i = Some t /\ rescue s' i = true)
    /\ (i < j -> threads s' i = Some (th_rescued now t))) (Z.to_nat MAX_THREADS) 0 (process_rescue cpu now) s) as HI.
  cbn beta in HI. apply HI; [split; [done|lia]| |lia].
  intros j s' Hj [H1 H2]. destruct (decide (j = i)) as [->|Hne].
  - destruct H1 as [? ?]; [lia|]. split; [lia|]. intros _. by apply process_rescue_it.
  - destruct (process_rescue_other cpu now j s' i) as [-> ->]; [done|]. split; intros; [apply H1|apply H2]; lia.
Qed.

Lemma ok_process_rescues k s cpu now : sched_ok k s -> sched_ok k (process_rescues cpu now s).
Proof.
  intros HS. unfold process_rescues. apply (for_range_ind (fun _ s => sched_ok k s)); [done|].
  intros. by apply ok_rescue.
Qed.

Lemma rescues_current cpu now s c : cq_current (queues (process_rescues cpu now s) c) = cq_current (queues s c).
Proof.
  unfold process_rescues.
  apply (for_range_ind (fun _ s' => cq_current (queues s' c) = cq_current (queues s c))); [done|].
  intros j s' _ <-. apply q_rescue.
Qed.

Lemma watchdog_queues {M} `{UserMem M} (m : M) now s : queues (watchdog_wake m now s) = queues s.
Proof.
  unfold watchdog_wake. apply (for_range_ind (fun _ s' => queues s' = queues s)); [by repeat case_match|].
  intros j s' _ E. by repeat case_match.
Qed.

#[local] Opaque process_rescues watchdog_wake.

(** A timed futex wait ends.  A thread that went to sleep with a deadline
    and is still asleep when a watchdog pass at or after it is followed by a
    drain of the rescue requests is back in the run queue of its CPU; when it
    next runs, after whatever steps, its system call returns -ETIMEDOUT. *)
Theorem timed_wait_times_out {M} `{UserMem M} `{Layout} k s (m m' : M) cpu addr val d now0 i k2 s2 t now now' w c k4 s4 e :
  reachable (M := M) k s -> k < 2 ^ 32 - 1 -> enabled (OWait cpu m addr val (Some d) now0) s ->
  cq_current (queues s cpu) = Some i -> d <> 0 -> addr <> 0 ->
  (futex_wait_until m cpu addr val (Some d) now0 s).2 = WSleep ->
  parked (M := M) i k (exec (OWait cpu m addr val (Some d) now0) s) k2 s2 -> k2 < 2 ^ 32 - 1 ->
  threads s2 i = Some t -> th_state t = Blocked ->
  d <= now <= now' -> read_user_u32 m' addr = Some w ->
  let s3 := process_rescues c now' (watchdog_wake m' now s2) in
  i ∈ cq_queue (queues s3 (th_home_cpu t))
  /\ (parked (M := M) i k2 s3 k4 s4 -> k4 < 2 ^ 32 - 1 -> cq_current (queues s4 e) = Some i ->
      (after_switch e s4).2 = Some (- ETIMEDOUT)).
Proof.
  intros HR Hk He Ec Hd Ha Hs HP2 Hk2 Et2 Hb2 Hnow Hw s3.
  destruct (reachable_ok k s HR Hk) as [Hk0 HS].
  destruct (wait_sleeps k s m cpu addr val (Some d) now0 i HS Ec Hs) as (t1 & Et1 & Hb1 & Hf1 & Hkont & _ & Hdl & _).
  assert (sched_ok k (exec (OWait cpu m addr val (Some d) now0) s)) as HS1.
  { rewrite <- (Z.add_0_r k). apply (step_ok k s (OWait cpu m addr val (Some d) now0)); [done|done|cbn; lia|done]. }
  destruct (parked_ok _ _ _ _ _ HS1 Hk0 HP2 Hk2) as [Hk20 HS2].
  destruct (parked_keeps _ _ _ _ _ HS1 Hk0 HP2 Hk2 t1 Et1) as (t' & Et' & HK). rewrite Et2 in Et'. simplify_eq.
  destruct (kp_blocked _ _ HK Hb2) as (_ & Ef & Ev & Ed).
  destruct (pl_thread _ _ _ _ (so_placed _ _ HS2) i _ Et2) as (Hi & _ & Etid & Hhome).
  assert (negb (th_wait_deadline_ns t' =? 0) && (th_wait_deadline_ns t' <=? now) = true
    /\ negb (th_wait_deadline_ns t' =? 0) && (th_wait_deadline_ns t' <=? now') = true) as [Hto Hto'].
  { rewrite Ed, Hdl. cbn [default]. rewrite (proj2 (Z.eqb_neq _ _)), !(proj2 (Z.leb_le _ _)) by (cbn; lia). done. }
  destruct (watchdog_flags m' now s2 i t' Hi Et2) as [Hres Hth].
  { unfold watchdog_check. rewrite bool_decide_eq_true_2 by done. cbn [negb].
    rewrite Ef, (proj2 (Z.eqb_neq _ _)), Hw by done. by rewrite Hto, orb_true_r. }
  assert (threads s3 i = Some (th_rescued now' t')) as Et3.
  { apply rescues_it; [done|by rewrite Hth|done|done|by rewrite Ef]. }
  assert (sched_ok k2 s3) as HS3 by (apply ok_process_rescues; by apply ok_watchdog).
  assert (forall c, cq_current (queues s3 c) <> Some i) as Hn3.
  { intros c' E. subst s3. rewrite rescues_current, watchdog_queues in E.
    apply (on_cpu_current _ _ _ _ HS2) in E as (tx & Ex & _ & [?|?]); simplify_eq; congruence. }
  split.
  - assert (i ∈ on_cpu s3 (th_home_cpu t')) as Hin.
    { apply (pl_off _ _ _ _ (so_placed _ _ HS3) i _ Et3). by left. }
    unfold on_cpu in Hin. apply elem_of_app in Hin as [Hin|Hin]; [|done].
    specialize (Hn3 (th_home_cpu t')).
    destruct (cq_current (queues s3 (th_home_cpu t'))); [|by apply elem_of_nil in Hin].
    apply list_elem_of_singleton in Hin. by subst.
  - intros HP4 Hk4 Ec4.
    destruct (parked_restored _ _ _ _ _ _ _ HS3 Hk20 Et3 Hn3 HP4 Hk4 Ec4) as (_ & _ & t4 & Et4 & HK4).
    unfold after_switch. cbn [queues set_switched threads]. rewrite Ec4, Et4.
    rewrite (kp_kont _ _ HK4). change (th_kont (th_rescued now' t')) with (th_kont t').
    rewrite (kp_kont _ _ HK), Hkont. cbn [snd].
    by rewrite (kp_timed _ _ HK4) by (cbn; by rewrite Hto').
Qed.
