(* ===== verification/SpawnProps.v ===== *)
(** * New threads: their kernel stacks and their first instruction

    [spawn] hands out kernel stacks from an arena, each above a guard page,
    and prepares a context with which the thread first enters ring 3. *)

From S2P Require Import Prelude Paging PagingRefine Confinement Uaccess Sched SchedInv SchedProps.

(** ** Kernel stacks *)

(** No kernel stack moves, and none is handed out. *)
Definition stable (s s' : sched) : Prop :=
  (forall j, th_kernel_stack_top <$> threads s' j = th_kernel_stack_top <$> threads s j)
  /\ kstack_next s' = kstack_next s.

#[export] Instance stable_preorder : PreOrder stable.
Proof.
  split; [done|]. intros s1 s2 s3 [A1 A2] [B1 B2]. split; [|congruence]. intros j. by rewrite B1, A1.
Qed.

Lemma stable_same s s' : threads s' = threads s -> kstack_next s' = kstack_next s -> stable s s'.
Proof. intros E1 E2. split; [|done]. by rewrite E1. Qed.

Lemma stable_upd i f s :
  (forall t, th_kernel_stack_top (f t) = th_kernel_stack_top t) -> stable s (upd_thread i f s).
Proof.
  intros Hf. unfold upd_thread. destruct (threads s i) as [t|] eqn:E; [|done]. split; [|done].
  intros j. cbn. unfold fupd. destruct (Z.eqb_spec j i) as [->|]; [|done]. rewrite E. cbn. by rewrite Hf.
Qed.

Lemma stable_switch s cpu from k to : stable s (context_switch cpu from k to s).
Proof.
  unfold context_switch. trans (write_slot from (regs s cpu) k s); [|by apply stable_same].
  destruct from; [by apply stable_upd|by apply stable_same].
Qed.

Lemma stable_release cpu s : stable s (release_pending_unlock cpu s).
Proof. unfold release_pending_unlock. case_match; by apply stable_same. Qed.

(** [s] before some updates the stacks do not see. *)
Ltac stable_tail := etrans; [|apply stable_switch]; by apply stable_same.

Lemma stable_yield s cpu : stable s (yield_switch cpu s).
Proof.
  unfold yield_switch.
  destruct (cq_current (queues s cpu)), (cq_queue (queues s cpu)); [done| |done|]; cbn -[context_switch].
  - case_match; [|by apply stable_same]. case_match; [|by apply stable_same]. stable_tail.
  - case_match; by apply stable_same.
Qed.

Lemma stable_sleep s cpu b cur addr val dl now : stable s (futex_sleep cpu b cur addr val dl now s).
Proof.
  unfold futex_sleep. trans (upd_thread cur (th_blocked addr val dl now) s); [by apply stable_upd|].
  generalize (upd_thread cur (th_blocked addr val dl now) s). intros s1.
  destruct (cq_queue (queues s1 cpu)); cbn -[context_switch]; repeat case_match; try (by apply stable_same); stable_tail.
Qed.

Lemma stable_rescue s cpu now j : stable s (process_rescue cpu now j s).
Proof.
  unfold process_rescue. case_match; [done|].
  trans (set_rescue (fupd (rescue s) j false) s); [by apply stable_same|].
  generalize (set_rescue (fupd (rescue s) j false) s). clear. intros s.
  destruct (threads s j) as [t|]; [|done]. case_match; [done|]. case_match; [done|].
  trans (upd_thread j (th_rescued now) s); [by apply stable_upd|].
  repeat case_match; by apply stable_same.
Qed.

Lemma stable_wait {M} `{UserMem M} s (m : M) cpu addr val dl now :
  stable s (futex_wait_until m cpu addr val dl now s).1.
Proof.
  unfold futex_wait_until, pending_wake_consume. case_match; [done|].
  cbn [pending set_lock set_futex_lock]. destruct (store_first _ _ _); cbn; [by apply stable_same|].
  destruct (read_user_u32 m addr); cbn; [|by apply stable_same].
  case_match; cbn; [by apply stable_same|].
  destruct (futex_blocking s); cbn; [|case_match; by apply stable_same].
  destruct (cq_current (queues s cpu)) as [j|] eqn:Ej; cbn; [|by apply stable_same].
  etrans; [|apply stable_sleep]. by apply stable_same.
Qed.

Lemma stable_wake s cpu addr count : stable s (futex_wake cpu addr count s).1.
Proof.
  unfold futex_wake.
  assert (forall n j w s, stable s (futex_wake_loop n cpu j addr count w s).1) as Hl.
  { clear. induction n as [|n IH]; intros j w s; cbn; [done|].
    case_match; [done|]. destruct (threads s j) as [t|]; [|apply IH]. case_match; [|apply IH].
    etrans; [|apply IH]. unfold wake_one. trans (upd_thread j th_woken s); [by apply stable_upd|].
    case_match; by apply stable_same. }
  specialize (Hl (Z.to_nat MAX_THREADS) 0 0 s). destruct (futex_wake_loop _ _ _ _ _ _ _) as [s' w].
  case_match; [|done]. etrans; [apply Hl|]. unfold pending_wake_insert. repeat case_match; by apply stable_same.
Qed.

Lemma stable_after s cpu : stable s (after_switch cpu s).1.
Proof.
  unfold after_switch. set (s1 := set_switched _ s).
  assert (stable s (release_pending_unlock cpu s1)) as Hr
    by (etrans; [|apply stable_release]; by apply stable_same).
  destruct (cq_current (queues s1 cpu)) as [j|]; [|etrans; [apply Hr|by apply stable_same]].
  destruct (threads s1 j) as [t|]; [|by apply stable_same]. destruct (th_kont t); cbn [fst]; [done| |].
  - etrans; [apply Hr|by apply stable_upd].
  - unfold clone_child_return. cbn zeta. destruct (match threads _ _ with Some _ => _ | None => _ end).
    etrans; [apply Hr|by apply stable_same].
Qed.

Lemma stable_step {M} `{UserMem M} `{Layout} s (o : op M) : forks o = 0 -> stable s (exec o s).
Proof.
  intros Hf. destruct o; cbn [exec] in *; try (by apply stable_same).
  - apply stable_after.
  - apply stable_rescue.
  - apply stable_yield.
  - unfold idle_pick. destruct (cq_queue (queues s cpu)); [done|]. cbn -[context_switch].
    case_match; [|by apply stable_same]. stable_tail.
  - apply stable_wait.
  - apply stable_wake.
  - unfold watchdog_wake. apply (for_range_ind (fun _ s' => stable s s')).
    + repeat case_match; by apply stable_same.
    + intros j s' _ HK. etrans; [done|]. repeat case_match; by apply stable_same.
  - unfold timer_tick. case_match; by apply stable_same.
  - unfold thread_exit. etrans; [|apply stable_switch]. case_match; [|by apply stable_same].
    etrans; [|by apply stable_upd]. by apply stable_same.
Qed.

Definition stack_slot (i : Z) : Z := KSTACK_ARENA_BASE + KSTACK_STRIDE * (i - 1).
(** Above the guard page: the 16 KiB stack and the 256 bytes the timer's
    trampoline uses past its top. *)
Definition PREEMPT_REGION_SIZE : Z := 256.

(** Thread [i]'s stack is the [i]-th slot of the arena. *)
Lemma stacks_assigned {M} `{UserMem M} `{Layout} k s :
  reachable (M := M) k s -> k < 2 ^ 32 - 1 ->
  kstack_next s = stack_slot (1 + Z.min k (MAX_THREADS - 1))
  /\ forall i t, threads s i = Some t -> i <> 0 ->
       th_kernel_stack_top t = stack_slot i + GUARD_SIZE + KSTACK_USABLE.
Proof.
  induction 1 as [ncpus k0 it rs fx Hn|k s o HR IH He]; intros Hb.
  - unfold init. set (s0 := mkSched _ _ _ _ _ _ _ _ _ _ _ _ _ _ _ _ _ _).
    destruct (init_loop (Z.to_nat ncpus) it s0) as [f ->]. cbn. split; [done|].
    intros i t. unfold fupd. by destruct (Z.eqb_spec i 0).
  - pose proof (forks_nonneg o). assert (k < 2 ^ 32 - 1) as Hk by lia. destruct (IH Hk) as [E1 E2].
    destruct (reachable_ok k s HR Hk) as [Hk0 HS].
    destruct (decide (forks o = 0)) as [Hf|Hf].
    + destruct (stable_step s o Hf) as [S1 S2]. rewrite Hf, Z.add_0_r, S2. split; [done|].
      intros i t Hi Hne. specialize (S1 i). rewrite Hi in S1. cbn in S1.
      destruct (threads s i) as [t'|] eqn:Ei; [|done]. cbn in S1. injection S1 as ->. by apply E2.
    + destruct o; cbn in Hf; try done. cbn [forks exec] in *.
      pose proof (so_next _ _ HS) as En.
      destruct (Z.ltb_spec (next_tid s) MAX_THREADS) as [Hlt|Hge].
      * destruct (spawn_fields cpu fn_ptr stack tls child_tid parent_tid clone_flags clone_r9 clone_rip s m tb Hlt)
          as (bc & _ & -> & _ & _ & -> & _). rewrite E1.
        replace (1 + Z.min k (MAX_THREADS - 1)) with (next_tid s) by (unfold MAX_THREADS in *; lia).
        assert (0 <= stack_slot (next_tid s) < 2 ^ 40) as Hs.
        { unfold stack_slot, KSTACK_STRIDE, KSTACK_ARENA_BASE, GUARD_SIZE, KSTACK_USABLE, MAX_THREADS in *. lia. }
        unfold KSTACK_STRIDE, GUARD_SIZE, KSTACK_USABLE in *.
        rewrite (u64_small (stack_slot (next_tid s) + 4096)), !u64_small by lia. split.
        { unfold stack_slot, KSTACK_STRIDE, GUARD_SIZE, KSTACK_USABLE, MAX_THREADS in *. lia. }
        intros i t. unfold fupd. destruct (Z.eqb_spec i (next_tid s)) as [->|]; [by intros [= <-] _|apply E2].
      * unfold spawn. rewrite (proj2 (Z.leb_le _ _)) by done. cbn. split; [|done].
        rewrite E1. unfold stack_slot, MAX_THREADS in *. lia.
Qed.

(** C9.  Every clone below the thread limit gets a kernel stack of its own:
    with the page tables in any state the kernel reaches, the page below the
    new stack becomes unmapped and no other translation changes, and the
    stack with the preemption area above it overlaps neither the stack nor
    the guard page of any other cloned thread. *)
Theorem kernel_stacks_guarded {M} `{UserMem M} `{LayoutOk} k s cpu fn stack tls ct pt fl r9 rip (m : M) ops :
  reachable (M := M) k s -> k + 1 < MAX_THREADS ->
  Forall (fun op => 0 <= op_addr op) ops -> len ops < 2 ^ 62 ->
  let r := spawn cpu fn stack tls ct pt fl r9 rip s m (pg_run ops) in
  r.2 = k + 1 /\ exists t, threads r.1.1.1 (k + 1) = Some t /\
  let guard t := th_kernel_stack_top t - KSTACK_USABLE - GUARD_SIZE in
  (forall b, 0 <= b < 4 * GIB ->
     hw_walk r.1.2 b = if bool_decide (guard t <= b < guard t + GUARD_SIZE) then None else hw_walk (pg_run ops) b)
  /\ forall j tj, threads r.1.1.1 j = Some tj -> j <> 0 -> j <> k + 1 ->
       th_kernel_stack_top tj + PREEMPT_REGION_SIZE <= guard t.
Proof.
  intros HR Hk Hops Hl r. assert (k < 2 ^ 32 - 1) as Hk' by (unfold MAX_THREADS in *; lia).
  destruct (reachable_ok k s HR Hk') as [Hk0 HS]. pose proof (so_next _ _ HS) as En.
  destruct (stacks_assigned k s HR Hk') as [E1 E2].
  assert (next_tid s < MAX_THREADS) as Hlt by lia.
  destruct (spawn_fields cpu fn stack tls ct pt fl r9 rip s m (pg_run ops) Hlt) as (bc & _ & Eth & _ & _ & _ & _ & Etb & Er & _).
  fold r in Eth, Etb, Er. rewrite Er, Etb, Eth, En. split; [lia|].
  replace (1 + k) with (k + 1) by lia. rewrite fupd_eq. eexists. split; [done|].
  assert (kstack_next s = stack_slot (k + 1)) as Es by (rewrite E1; f_equal; lia).
  assert (KSTACK_ARENA_BASE <= stack_slot (k + 1) < KSTACK_ARENA_BASE + KSTACK_ARENA_SIZE
    /\ stack_slot (k + 1) mod 4096 = 0) as [Hs Hmod].
  { unfold stack_slot, KSTACK_STRIDE, GUARD_SIZE, KSTACK_USABLE, KSTACK_ARENA_BASE, KSTACK_ARENA_SIZE, MAX_THREADS in *.
    split; [lia|]. Z.div_mod_to_equations. lia. }
  assert (kstack_next s ⊞ GUARD_SIZE ⊞ KSTACK_USABLE = stack_slot (k + 1) + GUARD_SIZE + KSTACK_USABLE) as Etop.
  { rewrite Es. unfold GUARD_SIZE, KSTACK_USABLE, KSTACK_ARENA_BASE, KSTACK_ARENA_SIZE in *.
    rewrite (u64_small (_ + 4096)), u64_small by lia. done. }
  rewrite Etop, Es. cbn [th_kernel_stack_top th_rehomed new_thread].
  replace (_ + GUARD_SIZE + KSTACK_USABLE - KSTACK_USABLE - GUARD_SIZE) with (stack_slot (k + 1)) by lia. split.
  - intros b Hb. destruct (arena_guard ops (stack_slot (k + 1)) Hops Hl Hs) as (st' & -> & Hw). cbn [fst].
    rewrite Hw by done. destruct (Z.eqb_spec (b / 4096) (stack_slot (k + 1) / 4096)) as [E|E].
    + rewrite bool_decide_eq_true_2; [done|]. unfold GUARD_SIZE. Z.div_mod_to_equations. lia.
    + rewrite bool_decide_eq_false_2; [done|]. unfold GUARD_SIZE. Z.div_mod_to_equations. lia.
  - intros j tj Hj Hj0 Hjk. rewrite !fupd_ne in Hj by done. rewrite (E2 j tj Hj Hj0).
    destruct (pl_thread _ _ _ _ (so_placed _ _ HS) j tj Hj) as (? & ? & _).
    unfold stack_slot, KSTACK_STRIDE, GUARD_SIZE, KSTACK_USABLE, PREEMPT_REGION_SIZE in *. lia.
Qed.

(** The child of a clone starts in ring 3 where its parent's call
    returns, with result 0, on the stack and with the TLS base it was given,
    whatever ran before its CPU picked it. *)
Theorem clone_child_starts {M} `{UserMem M} `{Layout} k s cpu fn stack tls ct pt fl r9 rip (m : M) tb k' s' c :
  reachable (M := M) k s -> k + 1 < MAX_THREADS -> k' < 2 ^ 32 - 1 ->
  let o := OSpawn cpu fn stack tls ct pt fl r9 rip m tb in
  enabled o s -> parked (M := M) (k + 1) (k + 1) (exec o s) k' s' ->
  cq_current (queues s' c) = Some (k + 1) ->
  (after_switch c s').2 = Some 0
  /\ (clone_child_return c s').2 = mkFrame rip stack r9 0 0x202
  /\ fs_base (regs (clone_child_return c s').1 c) = tls.
Proof.
  intros HR Hk Hk' o He HP Hc. assert (k < 2 ^ 32 - 1) as Hkk by (unfold MAX_THREADS in *; lia).
  destruct (reachable_ok k s HR Hkk) as [Hk0 HS]. pose proof (so_next _ _ HS) as En.
  assert (sched_ok (k + 1) (exec o s)) as HS1 by (apply (step_ok k s o); [done|done|cbn; unfold MAX_THREADS in *; lia|done]).
  assert (next_tid s < MAX_THREADS) as Hlt by lia.
  destruct (spawn_fields cpu fn stack tls ct pt fl r9 rip s m tb Hlt) as (bc & _ & Eth & Eq & _).
  change (spawn cpu fn stack tls ct pt fl r9 rip s m tb).1.1.1 with (exec o s) in Eth, Eq.
  set (t0 := new_thread _ _ _ _ _ _ _ _ _) in *.
  assert (threads (exec o s) (k + 1) = Some (th_rehomed bc t0)) as Et.
  { rewrite Eth. replace (next_tid s) with (k + 1) by lia. apply fupd_eq. }
  assert (forall d, cq_current (queues (exec o s) d) <> Some (k + 1)) as Hn.
  { intros d E. rewrite Eq in E. destruct (q_grows_push s bc (next_tid s) d) as [Ec _]. rewrite Ec in E.
    apply (on_cpu_current _ _ _ _ HS) in E as (t & Ei & _). apply (pl_thread _ _ _ _ (so_placed _ _ HS)) in Ei. lia. }
  destruct (parked_restored _ _ _ _ _ _ c HS1 (ltac:(lia)) Et Hn HP Hk' Hc) as (_ & Er & t' & Et' & HK).
  destruct (release_fields c s') as (Fr & _ & Fq & Ft & _).
  assert (th_kont t' = KChild) as Hkont by (by rewrite (kp_kont _ _ HK)).
  split_and!.
  - unfold after_switch. cbn [queues set_switched threads]. rewrite Hc, Et', Hkont.
    unfold clone_child_return. cbn zeta. by destruct (match threads _ _ with Some _ => _ | None => _ end).
  - unfold clone_child_return. cbn. rewrite Fr, Fq, Ft, Er, Hc. cbn. rewrite Et'. cbn.
    by rewrite (kp_r9 _ _ HK), (kp_rip _ _ HK).
  - unfold clone_child_return. cbn zeta. destruct (match threads _ _ with Some _ => _ | None => _ end). cbn.
    rewrite fupd_eq, Fr, Er. cbn. by destruct (tls =? 0).
Qed.

(** At the thread limit [spawn] reports failure as 0, the value a child
    sees as its own result of clone: nothing is created, and [sys_clone] hands
    the 0 to the parent. *)
Theorem spawn_exhausted {M} `{UserMem M} `{Layout} k s cpu fn stack tls ct pt fl r9 rip (m : M) tb :
  reachable (M := M) k s -> MAX_THREADS <= k + 1 -> k < 2 ^ 32 - 1 ->
  let r := spawn cpu fn stack tls ct pt fl r9 rip s m tb in
  r.2 = 0 /\ threads r.1.1.1 = threads s /\ queues r.1.1.1 = queues s /\ r.1.1.2 = m /\ r.1.2 = tb.
Proof.
  intros HR Hk Hk'. destruct (reachable_ok k s HR Hk') as [Hk0 HS]. pose proof (so_next _ _ HS) as En.
  cbn zeta. unfold spawn. by rewrite (proj2 (Z.leb_le _ _)) by lia.
Qed.
