(* ===== verification/SchedDemo.v ===== *)
(** * The scheduler's theorems at a concrete run

    Two CPUs; the main thread clones a thread, which the idle CPU gets, then
    sleeps on a futex with a deadline.  The runs below are prefixes of that
    one, evaluated. *)

From S2P Require Import Prelude Paging PagingRefine Confinement Uaccess Sched SchedInv SchedProps FutexProps SpawnProps.

(** User memory all of whose words are zero and writable. *)
#[local] Instance zero_mem : UserMem unit := {|
  um_in _ _ n := Some (replicate (Z.to_nat n) 0);
  um_out m _ _ := Some m;
  um_raw m _ _ := Ret m |}.
#[local] Existing Instance demo_layout.
#[local] Existing Instance demo_layout_ok.

Definition futex_word : Z := 0x600000.
Definition demo_clone : op unit := OSpawn 0 0x401000 0x700000 0x710000 0 0 0 0x99 0x402000 tt boot_tables.
Definition demo_wait : op unit := OWait 0 tt futex_word 0 (Some 100) 50.

(** The registers of the main thread when it sleeps. *)
Definition demo_regs : ThreadCtx := mkCtx 0x90000 1 2 3 4 5 6 0x720000 [7; 8; 9].
Definition s0 : sched :=
  init 2 0x10000 (fun _ => 0x20000) (boot_sched (fun c => if c =? 0 then demo_regs else empty_ctx) []).
Definition s1 : sched := exec demo_clone s0.
Definition s2 : sched := exec OEnable (s1 : sched).
Definition s3 : sched := exec demo_wait s2.
Definition s4 : sched := exec (OAfter 0 : op unit) s3.
(** Woken by CPU 1, then picked up by the idle loop of CPU 0. *)
Definition s5 : sched := exec (OWake 1 futex_word 1 : op unit) s4.
Definition s6 : sched := exec (OIdle 0 : op unit) s5.

#[local] Strategy expand [s1 s2 s3 s4 s5 s6 demo_clone demo_wait].

Ltac by_run := repeat split; vm_compute; congruence.

Lemma reach0 : reachable (M := unit) 0 s0.
Proof. apply reach_init. unfold MAX_CPUS. lia. Qed.
Lemma reach1 : reachable (M := unit) 1 s1.
Proof.
  apply (reach_step 0 s0 demo_clone reach0). split; [by_run|]. eexists. vm_compute. reflexivity.
Qed.
Lemma reach2 : reachable (M := unit) 1 s2.
Proof. by apply (reach_step 1 s1 OEnable reach1). Qed.
Lemma enabled3 : enabled demo_wait s2.
Proof. by_run. Qed.
Lemma reach3 : reachable (M := unit) 1 s3.
Proof. apply (reach_step 1 s2 demo_wait reach2 enabled3). Qed.
Lemma reach4 : reachable (M := unit) 1 s4.
Proof. apply (reach_step 1 s3 (OAfter 0) reach3). by_run. Qed.
Lemma reach5 : reachable (M := unit) 1 s5.
Proof. apply (reach_step 1 s4 (OWake 1 futex_word 1) reach4). by_run. Qed.

Lemma demo_ok k s : reachable (M := unit) k s -> k = 1 -> sched_ok 1 s.
Proof. intros HR ->. by apply (reachable_ok 1 s HR). Qed.

(** The main thread is off its CPU from [s3] to [s5]. *)
Lemma parked_at s t :
  reachable (M := unit) 1 s -> threads s 0 = Some t -> th_home_cpu t = 0 ->
  cq_current (queues s 0) <> Some 0 -> forall c, cq_current (queues s c) <> Some 0.
Proof. intros HR Ht Hh Hc. eapply not_current; [by eapply demo_ok|done|by rewrite Hh]. Qed.

Lemma off3 : forall c, cq_current (queues s3 c) <> Some 0.
Proof. eapply (parked_at s3); [apply reach3|vm_compute; reflexivity|reflexivity|vm_compute; congruence]. Qed.
Lemma off4 : forall c, cq_current (queues s4 c) <> Some 0.
Proof. eapply (parked_at s4); [apply reach4|vm_compute; reflexivity|reflexivity|vm_compute; congruence]. Qed.
Lemma off5 : forall c, cq_current (queues s5 c) <> Some 0.
Proof. eapply (parked_at s5); [apply reach5|vm_compute; reflexivity|reflexivity|vm_compute; congruence]. Qed.

Lemma threads_in_one_place_witness :
  NoDup (on_cpu s5 0) /\ (0 ∈ on_cpu s5 0 <-> 0 <= 0 < MAX_THREADS /\
    exists t, threads s5 0 = Some t /\ runnable t /\ th_home_cpu t = 0).
Proof.
  destruct (threads_in_one_place 1 s5 reach5 ltac:(lia) 0) as [H1 H2]. split; [exact H1|exact (H2 0)].
Defined.

Lemma bucket_lock_handed_over_witness :
  futex_lock s3 0 = true /\ exists c, pending_unlock s3 c = 0 /\ (forall d, pending_unlock s3 d = 0 -> d = c)
    /\ enabled (M := unit) (OAfter c) s3 /\ futex_lock (exec (M := unit) (OAfter c) s3) 0 = false.
Proof.
  assert (futex_lock s3 0 = true) as E by (vm_compute; reflexivity). split; [exact E|].
  apply (bucket_lock_handed_over 1 s3 0 reach3); [lia|lia|exact E].
Defined.

Lemma parked_next i k s k1 s1 (o : op unit) s' :
  parked (M := unit) i k s k1 s1 -> (forall c, cq_current (queues s1 c) <> Some i) -> enabled o s1 ->
  forks o = 0 -> s' = exec o s1 -> parked (M := unit) i k s k1 s'.
Proof. intros HP Hc He Hf ->. rewrite <- (Z.add_0_r k1), <- Hf. by constructor. Qed.

Lemma parked6 : parked (M := unit) 0 1 s3 1 s6.
Proof.
  apply (parked_next 0 1 s3 1 s5 (OIdle 0)); [|exact off5|by_run|reflexivity|reflexivity].
  apply (parked_next 0 1 s3 1 s4 (OWake 1 futex_word 1)); [|exact off4|by_run|reflexivity|reflexivity].
  apply (parked_next 0 1 s3 1 s3 (OAfter 0)); [apply parked_refl|exact off3|by_run|reflexivity|reflexivity].
Qed.

Lemma context_restored_witness :
  cq_current (queues s2 0) = Some 0 /\ regs s2 0 = demo_regs
  /\ switched s6 0 = true /\ regs s6 0 = demo_regs
  /\ (exists t, threads s6 0 = Some t /\ th_kont t = KWait)
  /\ regs (exec (OAfter 0 : op unit) s6) 0 = demo_regs.
Proof.
  assert (cq_current (queues s2 0) = Some 0 /\ regs s2 0 = demo_regs) as [E1 E2] by (vm_compute; done).
  split; [exact E1|]. split; [exact E2|]. rewrite <- E2.
  apply (context_restored 0 0 1 s2 demo_wait 1 s6 0 reach2 E1 enabled3 off3 parked6 ltac:(lia)).
  vm_compute. reflexivity.
Defined.

Lemma queue_fifo_witness :
  cq_current (queues s6 0) = Some 0 /\ switched s6 0 = true.
Proof.
  destruct (queue_fifo 1 s5 (OIdle 0) 0 0 [] [] reach5 ltac:(lia)) as [(_ & H1 & H2)|(a & b & _ & [(_ & _ & H)|[x H]])].
  - by_run.
  - vm_compute. reflexivity.
  - split; [exact H1|exact H2].
  - contradiction.
  - discriminate H.
Defined.

Lemma futex_wake_exact_witness :
  (futex_wake 1 futex_word 1 s4).2 = Z.min 1 (len (waiters futex_word s4))
  /\ woke [0] s4 (futex_wake 1 futex_word 1 s4).1.
Proof.
  destruct (futex_wake_exact 1 s4 1 futex_word 1 reach4 ltac:(lia) ltac:(lia)) as (H1 & H2 & _).
  split; [exact H1|]. assert (take (Z.to_nat 1) (waiters futex_word s4) = [0]) as E by (vm_compute; reflexivity).
  rewrite E in H2. exact H2.
Defined.

(** The other order: the wake first, then a tick, then the wait. *)
Definition w3 : sched := exec (OWake 1 futex_word 1 : op unit) s2.
Definition w4 : sched := exec (OTick 0 : op unit) w3.
#[local] Strategy expand [w3 w4].

Lemma parked4 : parked (M := unit) 0 1 s3 1 s4.
Proof. apply (parked_next 0 1 s3 1 s3 (OAfter 0)); [apply parked_refl|exact off3|by_run|reflexivity|reflexivity]. Qed.

Lemma futex_no_lost_wake_witness :
  (exists t, threads s5 0 = Some t /\ runnable t /\ 0 ∈ on_cpu s5 (th_home_cpu t))
  /\ (futex_wait_until tt 0 futex_word 0 (Some 100) 50 w4).2 = WRet 0.
Proof.
  destruct (futex_no_lost_wake 1 s2 1 futex_word 1 reach2 ltac:(lia)) as [H1 H2]; [done|done|].
  split.
  - apply (H1 tt 0 0 (Some 100) 50 0 1 s4 enabled3); [vm_compute; reflexivity..|exact parked4|lia|by_run|].
    vm_compute. congruence.
  - destruct H2 as [H2 _]; [by_run|vm_compute; reflexivity|].
    assert (0 ∈ pending s2 (futex_bucket futex_word)) as H0 by (vm_compute; left).
    apply (H2 (or_intror H0) 1 w4); [|vm_compute; reflexivity].
    apply (unwaited_step futex_word 1 w3 1 w3 (OTick 0)); [apply unwaited_refl|intros []|exact I].
Defined.

Definition s5' : sched := process_rescues 1 100 (watchdog_wake tt 100 s4).
Definition s6' : sched := exec (OIdle 0 : op unit) s5'.
#[local] Strategy expand [s5' s6'].

Lemma off5' : forall c, cq_current (queues s5' c) <> Some 0.
Proof.
  eapply (not_current 1 s5'); [|vm_compute; reflexivity|vm_compute; congruence].
  apply ok_process_rescues, ok_watchdog. exact (demo_ok _ _ reach4 eq_refl).
Qed.

Lemma timed_wait_times_out_witness :
  0 ∈ cq_queue (queues s5' 0) /\ (after_switch 0 s6').2 = Some (- ETIMEDOUT).
Proof.
  assert (exists t, threads s4 0 = Some t /\ th_state t = Blocked /\ th_home_cpu t = 0) as (t & Et & Eb & Eh)
    by (eexists; split; [vm_compute; reflexivity|split; reflexivity]).
  destruct (timed_wait_times_out 1 s2 tt tt 0 futex_word 0 100 50 0 1 s4 t 100 100 0 1 1 s6' 0
    reach2 ltac:(lia) enabled3) as [H1 H2].
  - vm_compute. reflexivity.
  - lia.
  - discriminate.
  - vm_compute. reflexivity.
  - exact parked4.
  - lia.
  - exact Et.
  - exact Eb.
  - lia.
  - reflexivity.
  - rewrite Eh in H1. split; [exact H1|]. apply H2; [|lia|vm_compute; reflexivity].
    apply (parked_next 0 1 s5' 1 s5' (OIdle 0)); [apply parked_refl|exact off5'|by_run|reflexivity|reflexivity].
Defined.

Lemma kernel_stacks_guarded_witness :
  let r := spawn 0 0x401000 0x700000 0x710000 0 0 0 0x99 0x402000 s0 tt (pg_run []) in
  r.2 = 1 /\ exists t, threads r.1.1.1 1 = Some t /\ hw_walk r.1.2 0x07000000 = None
    /\ hw_walk r.1.2 0x07001000 = hw_walk (pg_run []) 0x07001000.
Proof.
  destruct (kernel_stacks_guarded 0 s0 0 0x401000 0x700000 0x710000 0 0 0 0x99 0x402000 tt [] reach0)
    as (H1 & t & H2 & H3 & _); [unfold MAX_THREADS; lia|constructor|vm_compute; reflexivity|].
  split; [exact H1|]. exists t. split; [exact H2|].
  assert (th_kernel_stack_top t = 0x07005000) as Etop by (vm_compute in H2; injection H2 as <-; reflexivity).
  rewrite Etop in H3. unfold KSTACK_USABLE, GUARD_SIZE in H3. split.
  - rewrite H3 by (unfold GIB; lia). rewrite bool_decide_eq_true_2 by lia. reflexivity.
  - rewrite H3 by (unfold GIB; lia). rewrite bool_decide_eq_false_2 by lia. reflexivity.
Defined.

Definition c2 : sched := exec (OIdle 1 : op unit) s1.
#[local] Strategy expand [c2].

Lemma clone_child_starts_witness :
  (after_switch 1 c2).2 = Some 0
  /\ (clone_child_return 1 c2).2 = mkFrame 0x402000 0x700000 0x99 0 0x202
  /\ fs_base (regs (clone_child_return 1 c2).1 1) = 0x710000.
Proof.
  apply (clone_child_starts 0 s0 0 0x401000 0x700000 0x710000 0 0 0 0x99 0x402000 tt boot_tables 1 c2 1 reach0).
  - unfold MAX_THREADS. lia.
  - lia.
  - split; [by_run|]. eexists. vm_compute. reflexivity.
  - apply (parked_next 1 1 s1 1 s1 (OIdle 1)); [apply parked_refl| |by_run|reflexivity|reflexivity].
    eapply (not_current 1 s1); [exact (demo_ok _ _ reach1 eq_refl)|vm_compute; reflexivity|vm_compute; congruence].
  - vm_compute. reflexivity.
Defined.

(** [n] clones by the main thread. *)
Definition cloned (n : nat) : sched := Nat.iter n (exec demo_clone) s0.

Lemma cloned_reachable n : (n <= 31)%nat -> reachable (M := unit) (Z.of_nat n) (cloned n).
Proof.
  intros Hn. assert (reachable (M := unit) (Z.of_nat n) (cloned n) /\ num_cpus (cloned n) = 2
    /\ switched (cloned n) 0 = false /\ is_Some (cq_current (queues (cloned n) 0))) as [? _]; [|done].
  induction n as [|n IH]; [split; [exact reach0|vm_compute; split; eauto]|].
  destruct IH as (HR & Hc & Hs & Hcur); [lia|].
  assert (enabled demo_clone (cloned n)) as He by (split; [split; [lia|done]|done]).
  pose proof (reach_step _ _ demo_clone HR He) as HR'.
  destruct (reachable_ok _ _ HR ltac:(lia)) as [_ HS].
  assert (next_tid (cloned n) < MAX_THREADS) as Hlt by (rewrite (so_next _ _ HS); unfold MAX_THREADS; lia).
  destruct (spawn_fields 0 0x401000 0x700000 0x710000 0 0 0 0x99 0x402000 (cloned n) tt boot_tables Hlt)
    as (bc & _ & _ & Eq & _ & _ & Es & _ & _ & Ec).
  change (cloned (S n)) with (exec demo_clone (cloned n)).
  split; [replace (Z.of_nat (S n)) with (Z.of_nat n + forks demo_clone) by (cbn; lia); exact HR'|].
  cbn [exec demo_clone]. rewrite Eq, Es, Ec. by destruct (q_grows_push (cloned n) bc (next_tid (cloned n)) 0) as [-> _].
Qed.

Lemma spawn_exhausted_witness :
  (spawn 0 0x401000 0x700000 0x710000 0 0 0 0x99 0x402000 (cloned 31) tt boot_tables).2 = 0.
Proof.
  apply (spawn_exhausted 31 (cloned 31) 0 0x401000 0x700000 0x710000 0 0 0 0x99 0x402000 tt boot_tables).
  - apply (cloned_reachable 31). lia.
  - unfold MAX_THREADS. lia.
  - lia.
Defined.
