(* ===== verification/Virtqueue.v ===== *)
(** * Virtqueues

    Models [src/virtio-drivers-patched/src/queue.rs] (with the [alloc]
    feature, as the kernel builds it) over the kernel's HAL
    [src/src/drivers/virtio/hal.rs].  A buffer is its address and length; the
    contents of buffers are the caller's.  The device writes the used ring at
    any time, and may scribble on the descriptor table it is given; the
    driver's private state is the rest.  Arrays of [SIZE] elements are
    functions, with the bounds check of the source's indexing written out.
    Memory fences are not modelled: every access is in program order. *)

From S2P Require Import Prelude Paging.

(** ** Descriptors *)

Definition DESC_NEXT : Z := 1.
Definition DESC_WRITE : Z := 2.
Definition DESC_INDIRECT : Z := 4.
Definition PAGE_SIZE : Z := 0x1000.

Inductive BufferDirection := DriverToDevice | DeviceToDriver | Both.
#[export] Instance BufferDirection_eq_dec : EqDecision BufferDirection.
Proof. solve_decision. Defined.

(** [&[u8]]: where it is and how long. *)
Record bslice := mkSlice { b_ptr : Z; b_len : Z }.
Definition request : Type := list (bslice * BufferDirection).

(** [Error], without the socket device's. *)
Inductive VirtError :=
  | QueueFull | NotReady | WrongToken | AlreadyUsed | InvalidParam | DmaError | IoError
  | Unsupported | ConfigSpaceTooSmall | ConfigSpaceMissing.
Inductive vresult (A : Type) := VOk (a : A) | VErr (e : VirtError).
Arguments VOk {A} a.
Arguments VErr {A} e.

Record Descriptor := mkDesc { d_addr : Z; d_len : Z; d_flags : Z; d_next : Z }.
Definition zero_desc : Descriptor := mkDesc 0 0 0 0.
Definition set_flags (f : Z) (d : Descriptor) : Descriptor := mkDesc (d_addr d) (d_len d) f (d_next d).
Definition set_next (n : Z) (d : Descriptor) : Descriptor := mkDesc (d_addr d) (d_len d) (d_flags d) n.

(** [TynHal::share]: memory is identity-mapped. *)
Definition share (b : bslice) (dir : BufferDirection) : Z := b_ptr b.

Definition dir_flags (dir : BufferDirection) : outcome Z :=
  match dir with
  | DeviceToDriver => Ret DESC_WRITE
  | DriverToDevice => Ret 0
  | Both => Panic
  end.

Definition set_buf (b : bslice) (dir : BufferDirection) (extra_flags : Z) (d : Descriptor) : outcome Descriptor :=
  if 2 ^ 32 <=? b_len b then Panic else
  f ← dir_flags dir;
  Ret (mkDesc (share b dir) (b_len b) (Z.lor extra_flags f) (d_next d)).
Definition unset_buf (d : Descriptor) : Descriptor := mkDesc 0 0 (d_flags d) (d_next d).
Definition next (d : Descriptor) : option Z :=
  if Z.testbit (d_flags d) 0 then Some (d_next d) else None.

(** [InputOutputIter]: the inputs, then the outputs. *)
Definition InputOutputIter (inputs outputs : list bslice) : request :=
  map (fun b => (b, DriverToDevice)) inputs ++ map (fun b => (b, DeviceToDriver)) outputs.

(** ** The queue *)

Record VirtQueue := mkVq {
  vq_desc : Z -> Descriptor; (* desc, the table the device reads *)
  vq_avail_flags : Z; (* avail.flags *)
  vq_avail_ring_idx : Z; (* avail.idx *)
  vq_avail_ring : Z -> Z; (* avail.ring *)
  vq_used_event : Z; (* avail.used_event *)
  vq_used_flags : Z; (* used.flags, written by the device *)
  vq_used_idx : Z; (* used.idx, written by the device *)
  vq_used_ring : Z -> Z * Z; (* used.ring: id and len, written by the device *)
  vq_avail_event : Z; (* used.avail_event, written by the device *)
  queue_idx : Z;
  num_used : Z;
  free_head : Z;
  desc_shadow : Z -> Descriptor;
  avail_idx : Z;
  last_used_idx : Z;
  event_idx : bool;
  indirect : bool;
  indirect_lists : Z -> option (Z * list Descriptor); (* address and contents *)
}.
Definition set_vq_desc (v : Z -> Descriptor) (q : VirtQueue) : VirtQueue :=
  mkVq v (vq_avail_flags q) (vq_avail_ring_idx q) (vq_avail_ring q) (vq_used_event q) (vq_used_flags q) (vq_used_idx q) (vq_used_ring q) (vq_avail_event q) (queue_idx q) (num_used q) (free_head q) (desc_shadow q) (avail_idx q) (last_used_idx q) (event_idx q) (indirect q) (indirect_lists q).
Definition set_vq_avail_flags (v : Z) (q : VirtQueue) : VirtQueue :=
  mkVq (vq_desc q) v (vq_avail_ring_idx q) (vq_avail_ring q) (vq_used_event q) (vq_used_flags q) (vq_used_idx q) (vq_used_ring q) (vq_avail_event q) (queue_idx q) (num_used q) (free_head q) (desc_shadow q) (avail_idx q) (last_used_idx q) (event_idx q) (indirect q) (indirect_lists q).
Definition set_vq_avail_ring_idx (v : Z) (q : VirtQueue) : VirtQueue :=
  mkVq (vq_desc q) (vq_avail_flags q) v (vq_avail_ring q) (vq_used_event q) (vq_used_flags q) (vq_used_idx q) (vq_used_ring q) (vq_avail_event q) (queue_idx q) (num_used q) (free_head q) (desc_shadow q) (avail_idx q) (last_used_idx q) (event_idx q) (indirect q) (indirect_lists q).
Definition set_vq_avail_ring (v : Z -> Z) (q : VirtQueue) : VirtQueue :=
  mkVq (vq_desc q) (vq_avail_flags q) (vq_avail_ring_idx q) v (vq_used_event q) (vq_used_flags q) (vq_used_idx q) (vq_used_ring q) (vq_avail_event q) (queue_idx q) (num_used q) (free_head q) (desc_shadow q) (avail_idx q) (last_used_idx q) (event_idx q) (indirect q) (indirect_lists q).
Definition set_vq_used_event (v : Z) (q : VirtQueue) : VirtQueue :=
  mkVq (vq_desc q) (vq_avail_flags q) (vq_avail_ring_idx q) (vq_avail_ring q) v (vq_used_flags q) (vq_used_idx q) (vq_used_ring q) (vq_avail_event q) (queue_idx q) (num_used q) (free_head q) (desc_shadow q) (avail_idx q) (last_used_idx q) (event_idx q) (indirect q) (indirect_lists q).
Definition set_num_used (v : Z) (q : VirtQueue) : VirtQueue :=
  mkVq (vq_desc q) (vq_avail_flags q) (vq_avail_ring_idx q) (vq_avail_ring q) (vq_used_event q) (vq_used_flags q) (vq_used_idx q) (vq_used_ring q) (vq_avail_event q) (queue_idx q) v (free_head q) (desc_shadow q) (avail_idx q) (last_used_idx q) (event_idx q) (indirect q) (indirect_lists q).
Definition set_free_head (v : Z) (q : VirtQueue) : VirtQueue :=
  mkVq (vq_desc q) (vq_avail_flags q) (vq_avail_ring_idx q) (vq_avail_ring q) (vq_used_event q) (vq_used_flags q) (vq_used_idx q) (vq_used_ring q) (vq_avail_event q) (queue_idx q) (num_used q) v (desc_shadow q) (avail_idx q) (last_used_idx q) (event_idx q) (indirect q) (indirect_lists q).
Definition set_desc_shadow (v : Z -> Descriptor) (q : VirtQueue) : VirtQueue :=
  mkVq (vq_desc q) (vq_avail_flags q) (vq_avail_ring_idx q) (vq_avail_ring q) (vq_used_event q) (vq_used_flags q) (vq_used_idx q) (vq_used_ring q) (vq_avail_event q) (queue_idx q) (num_used q) (free_head q) v (avail_idx q) (last_used_idx q) (event_idx q) (indirect q) (indirect_lists q).
Definition set_avail_idx (v : Z) (q : VirtQueue) : VirtQueue :=
  mkVq (vq_desc q) (vq_avail_flags q) (vq_avail_ring_idx q) (vq_avail_ring q) (vq_used_event q) (vq_used_flags q) (vq_used_idx q) (vq_used_ring q) (vq_avail_event q) (queue_idx q) (num_used q) (free_head q) (desc_shadow q) v (last_used_idx q) (event_idx q) (indirect q) (indirect_lists q).
Definition set_last_used_idx (v : Z) (q : VirtQueue) : VirtQueue :=
  mkVq (vq_desc q) (vq_avail_flags q) (vq_avail_ring_idx q) (vq_avail_ring q) (vq_used_event q) (vq_used_flags q) (vq_used_idx q) (vq_used_ring q) (vq_avail_event q) (queue_idx q) (num_used q) (free_head q) (desc_shadow q) (avail_idx q) v (event_idx q) (indirect q) (indirect_lists q).
Definition set_indirect_lists (v : Z -> option (Z * list Descriptor)) (q : VirtQueue) : VirtQueue :=
  mkVq (vq_desc q) (vq_avail_flags q) (vq_avail_ring_idx q) (vq_avail_ring q) (vq_used_event q) (vq_used_flags q) (vq_used_idx q) (vq_used_ring q) (vq_avail_event q) (queue_idx q) (num_used q) (free_head q) (desc_shadow q) (avail_idx q) (last_used_idx q) (event_idx q) (indirect q) v.
Definition set_used (fl idx : Z) (ring : Z -> Z * Z) (ev : Z) (q : VirtQueue) : VirtQueue :=
  mkVq (vq_desc q) (vq_avail_flags q) (vq_avail_ring_idx q) (vq_avail_ring q) (vq_used_event q) fl idx ring ev (queue_idx q) (num_used q) (free_head q) (desc_shadow q) (avail_idx q) (last_used_idx q) (event_idx q) (indirect q) (indirect_lists q).


Section Queue.
Variable SIZE : Z.

Definition idx_ok (i : Z) : bool := (0 <=? i) && (i <? SIZE).

Definition rd_shadow (q : VirtQueue) (i : Z) : outcome Descriptor :=
  if idx_ok i then Ret (desc_shadow q i) else Panic.
Definition wr_shadow (i : Z) (d : Descriptor) (q : VirtQueue) : VirtQueue :=
  set_desc_shadow (fupd (desc_shadow q) i d) q.
Definition write_desc (i : Z) (q : VirtQueue) : VirtQueue :=
  set_vq_desc (fupd (vq_desc q) i (desc_shadow q i)) q.

(** The loop of [add_direct]; the result is [last]. *)
Fixpoint add_loop (l : request) (last : Z) (q : VirtQueue) : outcome (VirtQueue * Z) :=
  match l with
  | [] => Ret (q, last)
  | (b, dir) :: r =>
      if b_len b =? 0 then Panic else
      let i := free_head q in
      d ← rd_shadow q i;
      d ← set_buf b dir DESC_NEXT d;
      let q := set_free_head (d_next d) (wr_shadow i d q) in
      add_loop r i (write_desc i q)
  end.

Definition add_direct (l : request) (q : VirtQueue) : outcome (VirtQueue * Z) :=
  let head := free_head q in
  '(q, last) ← add_loop l head q;
  d ← rd_shadow q last;
  let q := wr_shadow last (set_flags (Z.ldiff (d_flags d) DESC_NEXT) d) q in
  let q := write_desc last q in
  Ret (set_num_used (u16 (num_used q + len l)) q, head).

(** The indirect table: entry [i] links to [i + 1], the last to none. *)
Fixpoint indirect_table (l : request) (i : Z) : outcome (list Descriptor) :=
  match l with
  | [] => Ret []
  | (b, dir) :: r =>
      d ← set_buf b dir DESC_NEXT zero_desc;
      let d := set_next (u16 (i + 1)) d in
      let d := match r with [] => set_flags (Z.ldiff (d_flags d) DESC_NEXT) d | _ => d end in
      rest ← indirect_table r (i + 1);
      Ret (d :: rest)
  end.

(** [box_addr] is where the allocator puts the table. *)
Definition add_indirect (box_addr : Z) (l : request) (q : VirtQueue) : outcome (VirtQueue * Z) :=
  let head := free_head q in
  table ← indirect_table l 0;
  match l with [] => Panic | _ =>
    if negb (idx_ok head) then Panic else
    match indirect_lists q head with Some _ => Panic | None =>
      let q := set_indirect_lists (fupd (indirect_lists q) head (Some (box_addr, table))) q in
      d ← rd_shadow q head;
      let q := set_free_head (d_next d) q in
      d ← set_buf (mkSlice box_addr (16 * len table)) DriverToDevice DESC_INDIRECT d;
      let q := write_desc head (wr_shadow head d q) in
      Ret (set_num_used (u16 (num_used q + 1)) q, head)
    end
  end.

Definition add (box_addr : Z) (inputs outputs : list bslice) (q : VirtQueue) : outcome (VirtQueue * vresult Z) :=
  if (len inputs =? 0) && (len outputs =? 0) then Ret (q, VErr InvalidParam) else
  let descriptors_needed := len inputs + len outputs in
  if (SIZE <? num_used q + 1) || (SIZE <? descriptors_needed)
     || (negb (indirect q) && (SIZE <? num_used q + descriptors_needed))
  then Ret (q, VErr QueueFull) else
  let l := InputOutputIter inputs outputs in
  '(q, head) ← (if indirect q && (1 <? descriptors_needed) then add_indirect box_addr l q else add_direct l q);
  let avail_slot := Z.land (avail_idx q) (SIZE - 1) in
  let q := set_vq_avail_ring (fupd (vq_avail_ring q) avail_slot head) q in
  let q := set_avail_idx (u16 (avail_idx q + 1)) q in
  let q := set_vq_avail_ring_idx (avail_idx q) q in
  Ret (q, VOk head).

Definition set_dev_notify (enable : bool) (q : VirtQueue) : VirtQueue :=
  if event_idx q then q else set_vq_avail_flags (if enable then 0 else 1) q.

Definition should_notify (q : VirtQueue) : bool :=
  if event_idx q then u16 (vq_avail_event q + 1) <=? avail_idx q
  else Z.land (vq_used_flags q) 1 =? 0.

Definition can_pop (q : VirtQueue) : bool := negb (last_used_idx q =? vq_used_idx q).
Definition used_slot (q : VirtQueue) : Z := Z.land (last_used_idx q) (SIZE - 1).
Definition peek_used (q : VirtQueue) : option Z :=
  if can_pop q then Some (u16 (fst (vq_used_ring q (used_slot q)))) else None.
Definition available_desc (q : VirtQueue) : Z :=
  if indirect q then if num_used q =? SIZE then 0 else SIZE else SIZE - num_used q.

(** The loop of [recycle_descriptors] over a direct chain; the result is [next]. *)
Fixpoint recycle_loop (l : request) (nx : option Z) (original_free_head : Z) (q : VirtQueue)
    : outcome (VirtQueue * option Z) :=
  match l with
  | [] => Ret (q, nx)
  | (b, _) :: r =>
      if b_len b =? 0 then Panic else
      match nx with
      | None => Panic
      | Some i =>
          d ← rd_shadow q i;
          let d := unset_buf d in
          let q := set_num_used (u16 (num_used q - 1)) q in
          let nx := next d in
          let d := match nx with None => set_next original_free_head d | Some _ => d end in
          recycle_loop r nx original_free_head (write_desc i (wr_shadow i d q))
      end
  end.

Definition recycle_descriptors (head : Z) (l : request) (q : VirtQueue) : outcome VirtQueue :=
  let original_free_head := free_head q in
  let q := set_free_head head q in
  d ← rd_shadow q head;
  if Z.testbit (d_flags d) 2 then
    match indirect_lists q head with
    | None => Panic
    | Some (_, table) =>
        let q := set_indirect_lists (fupd (indirect_lists q) head None) q in
        let q := set_num_used (u16 (num_used q - 1)) q in
        let q := wr_shadow head (set_next original_free_head (unset_buf d)) q in
        if negb (len table =? len l) then Panic else
        if existsb (fun p => b_len (fst p) =? 0) l then Panic else Ret q
    end
  else
    '(q, nx) ← recycle_loop l (Some head) original_free_head q;
    match nx with Some _ => Panic | None => Ret q end.

Definition pop_used (token : Z) (inputs outputs : list bslice) (q : VirtQueue) : outcome (VirtQueue * vresult Z) :=
  if negb (can_pop q) then Ret (q, VErr NotReady) else
  let index := u16 (fst (vq_used_ring q (used_slot q))) in
  let n := snd (vq_used_ring q (used_slot q)) in
  if negb (index =? token) then Ret (q, VErr WrongToken) else
  q ← recycle_descriptors index (InputOutputIter inputs outputs) q;
  let q := set_last_used_idx (u16 (last_used_idx q + 1)) q in
  let q := if event_idx q then set_vq_used_event (last_used_idx q) q else q in
  Ret (q, VOk n).

(** ** Layout *)

Definition queue_part_sizes : Z * Z * Z := (16 * SIZE, 2 * (3 + SIZE), 2 * 3 + 8 * SIZE).
Definition align_up (size : Z) : Z := Z.land (size + PAGE_SIZE) (Z.lnot (PAGE_SIZE - 1)).
Definition pages (size : Z) : Z := (size + PAGE_SIZE - 1) / PAGE_SIZE.

(** Physical addresses of the descriptor, driver and device areas; [dma] is
    the bump pointer of [TynHal::dma_alloc]. *)
Record VirtQueueLayout := mkLayout { descriptors_paddr : Z; driver_area_paddr : Z; device_area_paddr : Z }.
Definition dma_new (n dma : Z) : Z * vresult Z :=
  (dma ⊞ PAGE_SIZE * n, if dma =? 0 then VErr DmaError else VOk dma).
Definition allocate_legacy (dma : Z) : Z * vresult VirtQueueLayout :=
  let '(desc, avail, used) := queue_part_sizes in
  let size := align_up (desc + avail) + align_up used in
  match dma_new (size / PAGE_SIZE) dma with
  | (dma, VErr e) => (dma, VErr e)
  | (dma, VOk p) => (dma, VOk (mkLayout p (p ⊞ desc) (p ⊞ align_up (desc + avail))))
  end.
Definition allocate_flexible (dma : Z) : Z * vresult VirtQueueLayout :=
  let '(desc, avail, used) := queue_part_sizes in
  match dma_new (pages (desc + avail)) dma with
  | (dma, VErr e) => (dma, VErr e)
  | (dma, VOk p) =>
      match dma_new (pages used) dma with
      | (dma, VErr e) => (dma, VErr e)
      | (dma, VOk p2) => (dma, VOk (mkLayout p (p ⊞ desc) p2))
      end
  end.

(** [new]: what the transport answers are arguments; the layout is what it is
    told by [queue_set].  DMA memory is zeroed. *)
Definition vq_new (queue_used : bool) (max_queue_size : Z) (legacy : bool) (idx : Z) (indirect event_idx : bool) (dma : Z)
    : Z * vresult (VirtQueue * VirtQueueLayout) :=
  if queue_used then (dma, VErr AlreadyUsed) else
  if max_queue_size <? SIZE then (dma, VErr InvalidParam) else
  match (if legacy then allocate_legacy dma else allocate_flexible dma) with
  | (dma, VErr e) => (dma, VErr e)
  | (dma, VOk layout) =>
      let chain := for_range (Z.to_nat (SIZE - 1)) 0 (fun i t => fupd t i (set_next (i + 1) (t i))) (fun _ => zero_desc) in
      (dma, VOk (mkVq chain 0 0 (fun _ => 0) 0 0 0 (fun _ => (0, 0)) 0 idx 0 0 chain 0 0 event_idx indirect
                   (fun _ => None), layout))
  end.

End Queue.
