(* ===== verification/VirtqueueProps.v ===== *)
(** * What a virtqueue guarantees

    The free list and the chains handed to the device partition the
    descriptors, whatever the device does: the invariant mentions only the
    driver's private copy.  [add] and [pop_used] implement a finite map from
    tokens to outstanding requests, the device reads exactly the buffers of a
    request, and no behaviour of the device makes a correct [pop_used]
    panic. *)

From S2P Require Import Prelude Paging Virtqueue.

(** ** The invariant *)

Definition flag_of (dir : BufferDirection) : Z := match dir with DeviceToDriver => DESC_WRITE | _ => 0 end.

(** A buffer the queue accepts. *)
Definition good_buf (p : bslice * BufferDirection) : Prop :=
  0 < b_len (fst p) < 2 ^ 32 /\ snd p <> Both.

(** The descriptors [ids], linked, describe the request [l]; the last one's
    NEXT flag is [nx]. *)
Fixpoint linked (nx : Z) (sh : Z -> Descriptor) (ids : list Z) (l : request) : Prop :=
  match ids, l with
  | [], [] => True
  | i :: r, (b, dir) :: l' =>
      d_addr (sh i) = share b dir /\ d_len (sh i) = b_len b
      /\ match r with
         | [] => d_flags (sh i) = Z.lor nx (flag_of dir)
         | j :: _ => d_flags (sh i) = Z.lor DESC_NEXT (flag_of dir) /\ d_next (sh i) = j
         end
      /\ linked nx sh r l'
  | _, _ => False
  end.

(** The free list from [h]. *)
Fixpoint flist (sh : Z -> Descriptor) (h : Z) (ids : list Z) : Prop :=
  match ids with
  | [] => True
  | i :: r => h = i /\ flist sh (d_next (sh i)) r
  end.

(** A request the device has, and the descriptors it takes. *)
Record chain := mkChain { ch_ids : list Z; ch_req : request }.
Definition ch_token (c : chain) : Z := hd 0 (ch_ids c).

Definition direct_ok (q : VirtQueue) (c : chain) : Prop :=
  ch_ids c <> [] /\ linked 0 (desc_shadow q) (ch_ids c) (ch_req c)
  /\ forall i, i ∈ ch_ids c -> indirect_lists q i = None.
Definition indirect_ok (q : VirtQueue) (c : chain) : Prop :=
  exists i a table, ch_ids c = [i] /\ indirect_lists q i = Some (a, table)
    /\ indirect_table (ch_req c) 0 = Ret table
    /\ d_addr (desc_shadow q i) = a /\ d_len (desc_shadow q i) = 16 * len (ch_req c)
    /\ d_flags (desc_shadow q i) = DESC_INDIRECT.
Definition chain_ok (q : VirtQueue) (c : chain) : Prop :=
  Forall good_buf (ch_req c) /\ (direct_ok q c \/ indirect_ok q c).

Section Props.
Variable SIZE : Z.

Record vq_ok (q : VirtQueue) (free : list Z) (chains : list chain) : Prop := {
  vo_perm : free ++ concat (map ch_ids chains) ≡ₚ seqZ 0 SIZE;
  vo_free : flist (desc_shadow q) (free_head q) free;
  vo_num : num_used q = SIZE - len free;
  vo_chains : Forall (chain_ok q) chains;
  vo_nolist i : i ∈ free -> indirect_lists q i = None;
  vo_avail : 0 <= avail_idx q < 2 ^ 16 /\ vq_avail_ring_idx q = avail_idx q;
  vo_used : 0 <= last_used_idx q < 2 ^ 16;
}.

Lemma vo_nodup q free chains : vq_ok q free chains -> NoDup (free ++ concat (map ch_ids chains)).
Proof. intros H. rewrite (vo_perm _ _ _ H). apply NoDup_seqZ. Qed.

Lemma vo_range q free chains i :
  vq_ok q free chains -> i ∈ free ++ concat (map ch_ids chains) -> idx_ok SIZE i = true.
Proof.
  intros H. rewrite (vo_perm _ _ _ H), elem_of_seqZ. intros Hi. unfold idx_ok.
  rewrite (proj2 (Z.leb_le _ _)), (proj2 (Z.ltb_lt _ _)) by lia. done.
Qed.

Lemma vo_len q free chains : vq_ok q free chains -> len free + len (concat (map ch_ids chains)) = Z.max 0 SIZE.
Proof.
  intros H. pose proof (Permutation_length (vo_perm _ _ _ H)) as E. rewrite length_app, length_seqZ in E.
  unfold len. lia.
Qed.

(** ** Frame lemmas *)
Lemma flist_ext sh sh' h ids : (forall i, i ∈ ids -> sh' i = sh i) -> flist sh h ids -> flist sh' h ids.
Proof.
  revert h. induction ids as [|i r IH]; intros h Hs; [done|]. intros [-> Hf]. split; [done|].
  rewrite Hs by (by left). apply IH; [|done]. intros j Hj. apply Hs. by right.
Qed.

Lemma linked_ext nx sh sh' ids l : (forall i, i ∈ ids -> sh' i = sh i) -> linked nx sh ids l -> linked nx sh' ids l.
Proof.
  revert l. induction ids as [|i r IH]; intros [|[b dir] l] Hs; try done.
  cbn [linked]. rewrite Hs by (by left). intros (H1 & H2 & H3 & H4). split_and!; [done..|].
  apply IH; [|done]. intros j Hj. apply Hs. by right.
Qed.

Lemma chain_ok_ext q q' c :
  (forall i, i ∈ ch_ids c -> desc_shadow q' i = desc_shadow q i /\ indirect_lists q' i = indirect_lists q i) ->
  chain_ok q c -> chain_ok q' c.
Proof.
  intros Hs [Hg Hc]. split; [done|]. destruct Hc as [(Hne & Hl & Hi)|(i & a & t & Ei & Hi & Ht & H1 & H2 & H3)].
  - left. split; [done|]. split; [eapply linked_ext; [|done]; intros; by apply Hs|].
    intros i Hin. destruct (Hs i Hin) as [_ ->]. by apply Hi.
  - right. exists i, a, t. destruct (Hs i) as [E1 E2]; [rewrite Ei; by left|]. by rewrite E1, E2.
Qed.

Lemma chains_ext q q' chains :
  (forall i, i ∈ concat (map ch_ids chains) ->
     desc_shadow q' i = desc_shadow q i /\ indirect_lists q' i = indirect_lists q i) ->
  Forall (chain_ok q) chains -> Forall (chain_ok q') chains.
Proof.
  intros Hs. rewrite !Forall_forall. intros HF c Hc. eapply chain_ok_ext; [|by apply HF].
  intros i Hi. apply Hs. apply list_elem_of_In, in_concat. exists (ch_ids c). split; [|by apply list_elem_of_In].
  apply in_map. by apply list_elem_of_In.
Qed.

Lemma set_buf_good b dir fl d :
  good_buf (b, dir) -> set_buf b dir fl d = Ret (mkDesc (share b dir) (b_len b) (Z.lor fl (flag_of dir)) (d_next d)).
Proof.
  intros [Hl Hd]. unfold set_buf. cbn in Hl. rewrite (proj2 (Z.leb_gt _ _)) by lia. by destruct dir.
Qed.

(** ** Adding a direct chain *)
Lemma last_default (l : list Z) j d d' : List.last (j :: l) d = List.last (j :: l) d'.
Proof. revert j. induction l as [|k l IH]; intros j; [done|]. exact (IH k). Qed.

(** [q] with the descriptor tables and the head of the free list replaced. *)
Definition retabled (S D : Z -> Descriptor) (h : Z) (q : VirtQueue) : VirtQueue :=
  set_free_head h (set_vq_desc D (set_desc_shadow S q)).

Lemma add_loop_spec l ids rest last q :
  Forall good_buf l -> length ids = length l -> NoDup ids ->
  flist (desc_shadow q) (free_head q) (ids ++ rest) -> (forall i, i ∈ ids -> idx_ok SIZE i = true) ->
  (forall i, i ∈ rest -> i ∉ ids) ->
  exists S D h, add_loop SIZE l last q = Ret (retabled S D h q, List.last ids last)
    /\ flist S h rest /\ linked DESC_NEXT S ids l
    /\ (forall j, j ∉ ids -> S j = desc_shadow q j /\ D j = vq_desc q j)
    /\ (forall i, i ∈ ids -> D i = S i).
Proof.
  revert ids last q. induction l as [|[b dir] l IH]; intros [|i ids] last q Hg Hlen Hnd Hf Hok Hrest; try done.
  { exists (desc_shadow q), (vq_desc q), (free_head q). cbn. split_and!; try done; try (by intros ? ?%elem_of_nil). by destruct q. }
  apply Forall_cons in Hg as [Hb Hg]. apply NoDup_cons in Hnd as [Hni Hnd].
  destruct Hf as [Hh Hf]. cbn [add_loop].
  pose proof Hb as [Hl _]. cbn in Hl. rewrite (proj2 (Z.eqb_neq (b_len b) 0)) by lia.
  unfold rd_shadow. rewrite Hh, Hok by (by left). cbn [mbind outcome_bind]. rewrite set_buf_good by done.
  cbn [mbind outcome_bind]. set (d := mkDesc _ _ _ _).
  set (q1 := write_desc i _).
  destruct (IH ids i q1) as (S & D & h & E & H1 & H2 & H3 & H4).
  - done.
  - cbn in Hlen. congruence.
  - done.
  - subst q1; cbn. eapply flist_ext; [|exact Hf]. intros j Hj. rewrite fupd_ne; [done|]. intros ->.
    apply elem_of_app in Hj as [Hj|Hj]; [done|]. apply Hrest in Hj. apply Hj. by left.
  - intros j Hj. apply Hok. by right.
  - intros j Hj Hin. apply (Hrest j Hj). by right.
  - exists S, D, h. split; [rewrite E; f_equal; f_equal; destruct ids as [|j ids]; [done|apply (last_default ids j)]|].
    split; [done|]. destruct (H3 i Hni) as [Si Di]. subst q1; cbn in Si, Di. rewrite !fupd_eq in Si, Di.
    split_and!.
    + cbn [linked]. rewrite Si. subst d; cbn. split_and!; [done..| |done].
      destruct ids as [|j ids]; [done|]. destruct Hf as [-> _]. done.
    + intros j Hj. destruct (H3 j) as [-> ->]; [by intros ?; apply Hj; right|].
      cbn. rewrite !fupd_ne by (intros ->; apply Hj; by left). done.
    + intros j Hj. apply elem_of_cons in Hj as [->|Hj]; [|by apply H4]. by rewrite Si, Di, ?fupd_eq.
Qed.
(** Everything but the descriptor tables, the free list and its counter. *)
Record same_rings (q q' : VirtQueue) : Prop := {
  sr_avail : vq_avail_flags q' = vq_avail_flags q /\ vq_avail_ring_idx q' = vq_avail_ring_idx q
    /\ vq_avail_ring q' = vq_avail_ring q /\ vq_used_event q' = vq_used_event q /\ avail_idx q' = avail_idx q;
  sr_used : vq_used_flags q' = vq_used_flags q /\ vq_used_idx q' = vq_used_idx q /\ vq_used_ring q' = vq_used_ring q
    /\ vq_avail_event q' = vq_avail_event q /\ last_used_idx q' = last_used_idx q;
  sr_mode : event_idx q' = event_idx q /\ indirect q' = indirect q;
}.

Lemma list_last_in (i : Z) ids d : List.last (i :: ids) d ∈ i :: ids.
Proof.
  revert i. induction ids as [|j ids IH]; intros i; [by left|]. right. apply (IH j).
Qed.

(** Clearing NEXT on the last descriptor ends the chain. *)
Lemma linked_end S ids l d :
  ids <> [] -> NoDup ids -> linked DESC_NEXT S ids l ->
  let k := List.last ids d in
  linked 0 (fupd S k (set_flags (Z.ldiff (d_flags (S k)) DESC_NEXT) (S k))) ids l.
Proof.
  cbn zeta. revert l. induction ids as [|i ids IH]; intros [|[b dir] l] Hne Hnd HL; try done.
  apply NoDup_cons in Hnd as [Hni Hnd]. destruct HL as (H1 & H2 & H3 & H4).
  destruct ids as [|j ids].
  - cbn in *. rewrite fupd_eq. cbn. split_and!; [done..| |done].
    rewrite H3. by destruct dir.
  - change (List.last (i :: j :: ids) d) with (List.last (j :: ids) d).
    set (k := List.last (j :: ids) d) in *.
    assert (i <> k) as Hik by (intros ->; apply Hni, list_last_in).
    cbn [linked] in *. rewrite !(fupd_ne _ k i) by done. split_and!; [done|done|naive_solver|naive_solver|].
    by apply IH.
Qed.

Lemma add_direct_spec l q free chains :
  vq_ok q free chains -> l <> [] -> Forall good_buf l -> len l <= len free -> SIZE <= 2 ^ 15 ->
  exists q' ids free', free = ids ++ free' /\ length ids = length l
    /\ add_direct SIZE l q = Ret (q', hd 0 ids) /\ vq_ok q' free' (mkChain ids l :: chains)
    /\ (forall i, i ∈ ids -> vq_desc q' i = desc_shadow q' i)
    /\ indirect_lists q' = indirect_lists q /\ same_rings q q'.
Proof.
  intros HQ Hl Hg Hlen HS. pose proof (vo_nodup _ _ _ HQ) as Hnd.
  set (ids := take (length l) free). set (free' := drop (length l) free).
  assert (free = ids ++ free') as Ef by (symmetry; apply take_drop).
  assert (length ids = length l) as El by (subst ids; rewrite length_take; unfold len in Hlen; lia).
  rewrite Ef, <- app_assoc in Hnd.
  apply NoDup_app in Hnd as (Hnd1 & Hnd2 & Hnd3). apply NoDup_app in Hnd3 as (Hnd3 & Hnd4 & Hnd5).
  destruct (add_loop_spec l ids free' (free_head q) q) as (S & D & h & E & Hf & HL & Hout & Hin).
  { done. } { done. } { done. }
  { rewrite <- Ef. apply HQ. }
  { intros i Hi. apply (vo_range q free chains); [done|]. rewrite Ef. rewrite !elem_of_app. auto. }
  { intros i Hi Hi'. apply (Hnd2 i Hi'). rewrite elem_of_app. by left. }
  destruct ids as [|i0 ids0] eqn:Eids; [destruct l; done|]. rewrite <- Eids in *.
  set (k := List.last ids (free_head q)) in *.
  assert (k ∈ ids) as Hk by (subst k; rewrite Eids; apply list_last_in).
  assert (free_head q = hd 0 ids) as Eh.
  { pose proof (vo_free _ _ _ HQ) as HF. rewrite Ef, Eids in HF. rewrite Eids. by destruct HF as [-> _]. }
  assert (idx_ok SIZE k = true) as Hkok.
  { apply (vo_range q free chains); [done|]. rewrite Ef, !elem_of_app. auto. }
  unfold add_direct. rewrite E. cbn [mbind outcome_bind]. unfold rd_shadow. rewrite Hkok. cbn [mbind outcome_bind].
  rewrite Eh.
  set (q' := set_num_used _ _). exists q', ids, free'.
  assert (num_used q' = num_used q + len l) as En.
  { subst q'; cbn. unfold u16. rewrite wrap_small; [done|]. rewrite (vo_num _ _ _ HQ).
    pose proof (vo_len _ _ _ HQ). pose proof (len_nonneg (concat (map ch_ids chains))).
    assert (0 < len l) by (destruct l as [|x l0]; [done|rewrite len_cons; pose proof (len_nonneg l0); lia]). lia. }
  set (S' := fupd S k (set_flags (Z.ldiff (d_flags (S k)) DESC_NEXT) (S k))).
  assert (desc_shadow q' = S') as ES by done.
  assert (forall j, j ∉ ids -> desc_shadow q' j = desc_shadow q j) as Hother.
  { intros j Hj. rewrite ES. subst S'. rewrite fupd_ne by (intros ->; done). by apply Hout. }
  split_and!; [done|done|done| | |done|by split].
  - split.
    + cbn. rewrite <- (vo_perm _ _ _ HQ), Ef. rewrite !app_assoc. f_equiv. apply Permutation_app_comm.
    + rewrite ES. eapply flist_ext; [|exact Hf]. intros j Hj. subst S'. apply fupd_ne. intros ->.
      apply (Hnd2 k Hk). rewrite elem_of_app. by left.
    + rewrite En, (vo_num _ _ _ HQ). rewrite Ef, len_app. unfold len. lia.
    + constructor.
      * split; [done|]. left. split; [cbn; by rewrite Eids|]. split.
        -- change (linked 0 S' ids l). apply linked_end; [by rewrite Eids|done|done].
        -- intros j Hj. apply (vo_nolist _ _ _ HQ). rewrite Ef, elem_of_app. by left.
      * eapply chains_ext; [|apply HQ]. intros j Hj. split; [|done]. apply Hother. intros Hj'.
        apply (Hnd2 j Hj'). rewrite elem_of_app. by right.
    + intros j Hj. apply (vo_nolist _ _ _ HQ). rewrite Ef, elem_of_app. by right.
    + apply HQ.
    + apply HQ.
  - intros j Hj. rewrite ES. subst q' S'; cbn. unfold fupd. rewrite Z.eqb_refl.
    destruct (j =? k); [done|]. by apply Hin.
Qed.

(** ** Adding an indirect chain *)
Lemma indirect_table_good l i : Forall good_buf l -> exists t, indirect_table l i = Ret t /\ length t = length l.
Proof.
  revert i. induction l as [|[b dir] l IH]; intros i Hg; [by exists []|].
  apply Forall_cons in Hg as [Hb Hg]. cbn [indirect_table]. rewrite set_buf_good by done. cbn [mbind outcome_bind].
  destruct (IH (i + 1) Hg) as (t & -> & Et). cbn. eexists. split; [done|]. cbn. by rewrite Et.
Qed.

Lemma add_indirect_spec a l q free chains :
  vq_ok q free chains -> l <> [] -> Forall good_buf l -> 0 < len free -> len l <= SIZE -> SIZE <= 2 ^ 15 ->
  exists q' i free', free = i :: free'
    /\ add_indirect SIZE a l q = Ret (q', i) /\ vq_ok q' free' (mkChain [i] l :: chains)
    /\ vq_desc q' i = desc_shadow q' i /\ (exists t, indirect_lists q' i = Some (a, t) /\ indirect_table l 0 = Ret t)
    /\ same_rings q q'.
Proof.
  intros HQ Hl Hg Hlen Hls HS. pose proof (vo_nodup _ _ _ HQ) as Hnd.
  destruct free as [|i free']; [by cbn in Hlen|].
  pose proof (vo_free _ _ _ HQ) as [Eh Hf].
  assert (idx_ok SIZE i = true) as Hok by (apply (vo_range q (i :: free') chains); [done|by left]).
  assert (i ∉ free' ++ concat (map ch_ids chains)) as Hni by (by apply NoDup_cons in Hnd as [? _]).
  destruct (indirect_table_good l 0 Hg) as (t & Et & Elt).
  unfold add_indirect. rewrite Et. cbn [mbind outcome_bind]. rewrite Eh, Hok. cbn [negb].
  rewrite (vo_nolist _ _ _ HQ i) by (by left). unfold rd_shadow. rewrite Hok. cbn [mbind outcome_bind].
  rewrite set_buf_good.
  2:{ split; [|done]. cbn. rewrite Elt || idtac. unfold len in *. rewrite Elt. destruct l; [done|]. cbn in *. lia. }
  destruct l as [|p l0] eqn:El; [done|]. rewrite <- El in *. clear El p l0. cbn [mbind outcome_bind].
  set (q' := set_num_used _ _). exists q', i, free'.
  assert (num_used q' = num_used q + 1) as En.
  { subst q'; cbn. unfold u16. rewrite wrap_small; [done|]. rewrite (vo_num _ _ _ HQ).
    pose proof (vo_len _ _ _ HQ). pose proof (len_nonneg (concat (map ch_ids chains))).
    rewrite len_cons in *. pose proof (len_nonneg free'). lia. }
  assert (forall j, j <> i -> desc_shadow q' j = desc_shadow q j /\ indirect_lists q' j = indirect_lists q j) as Hother.
  { intros j Hj. subst q'; cbn. by rewrite !fupd_ne. }
  assert (forall j, j ∈ free' ++ concat (map ch_ids chains) -> j <> i) as Hne by (by intros j Hj ->).
  split_and!; [done|done| | | |by split].
  - split.
    + cbn. rewrite <- (vo_perm _ _ _ HQ). cbn. by rewrite Permutation_middle.
    + assert (free_head q' = d_next (desc_shadow q i)) as -> by done.
      eapply flist_ext; [|exact Hf]. intros j Hj. apply Hother, Hne. rewrite elem_of_app. by left.
    + rewrite En, (vo_num _ _ _ HQ), len_cons. lia.
    + constructor.
      * split; [done|]. right. exists i, a, t. subst q'; cbn. rewrite !fupd_eq. cbn.
        split_and!; try done. unfold len. by rewrite Elt.
      * eapply chains_ext; [|apply HQ]. intros j Hj. apply Hother, Hne. rewrite elem_of_app. by right.
    + intros j Hj. destruct (Hother j) as [_ ->]; [apply Hne; rewrite elem_of_app; by left|].
      apply (vo_nolist _ _ _ HQ). by right.
    + apply HQ.
    + apply HQ.
  - subst q'; cbn. by rewrite !fupd_eq.
  - exists t. subst q'; cbn. by rewrite fupd_eq.
Qed.

(** ** What the device reads *)

(** The chain the device walks from descriptor [i] of a table. *)
Fixpoint dev_chain (n : nat) (table : Z -> Descriptor) (i : Z) : list Descriptor :=
  match n with
  | O => []
  | S n' => let d := table i in
      d :: (if Z.testbit (d_flags d) 0 then dev_chain n' table (d_next d) else [])
  end.

(** The request behind a token: addresses, lengths and whether the device may
    write.  An indirect descriptor points at the table the driver allocated. *)
Definition dev_read (q : VirtQueue) (token : Z) : list (Z * Z * bool) :=
  let d := vq_desc q token in
  let chain :=
    if Z.testbit (d_flags d) 2 then
      match indirect_lists q token with
      | Some (a, t) => if a =? d_addr d then dev_chain (Z.to_nat (d_len d / 16)) (fun i => nth (Z.to_nat i) t zero_desc) 0 else []
      | None => []
      end
    else dev_chain (Z.to_nat SIZE) (vq_desc q) token in
  map (fun d => (d_addr d, d_len d, Z.testbit (d_flags d) 1)) chain.

Definition view (l : request) : list (Z * Z * bool) :=
  map (fun p => (b_ptr (fst p), b_len (fst p), bool_decide (snd p = DeviceToDriver))) l.

Lemma flag_bits dir : dir <> Both ->
  Z.testbit (flag_of dir) 0 = false /\ Z.testbit (Z.lor DESC_NEXT (flag_of dir)) 0 = true
  /\ Z.testbit (flag_of dir) 1 = bool_decide (dir = DeviceToDriver)
  /\ Z.testbit (Z.lor DESC_NEXT (flag_of dir)) 1 = bool_decide (dir = DeviceToDriver)
  /\ Z.testbit (flag_of dir) 2 = false /\ Z.testbit (Z.lor DESC_NEXT (flag_of dir)) 2 = false.
Proof. by destruct dir. Qed.

Lemma dev_chain_linked n tbl ids l i :
  Forall good_buf l -> linked 0 tbl (i :: ids) l -> (length l <= n)%nat ->
  map (fun d => (d_addr d, d_len d, Z.testbit (d_flags d) 1)) (dev_chain n tbl i) = view l.
Proof.
  revert n i l. induction ids as [|j ids IH]; intros n i [|[b dir] l] Hg HL Hn; try done;
    apply Forall_cons in Hg as [[_ Hd] Hg]; destruct HL as (H1 & H2 & H3 & H4); cbn in Hd, Hn;
    (destruct n as [|n]; [lia|]); cbn [dev_chain map view].
  - destruct l; [|done]. rewrite Z.lor_0_l in H3. destruct (flag_bits dir Hd) as (B0 & _ & B1 & _).
    rewrite H1, H2, H3, B0, B1. done.
  - destruct H3 as [H3 H5]. destruct (flag_bits dir Hd) as (_ & B0 & _ & B1 & _).
    rewrite H1, H2, H3, B0, B1, H5. cbn [map]. f_equal. apply IH; [done|done|lia].
Qed.

Lemma dev_chain_table n tbl l i t :
  indirect_table l i = Ret t -> Forall good_buf l -> l <> [] -> 0 <= i -> i + len l <= 2 ^ 15 ->
  (forall j, 0 <= j < len t -> tbl (i + j) = nth (Z.to_nat j) t zero_desc) -> (length l <= n)%nat ->
  map (fun d => (d_addr d, d_len d, Z.testbit (d_flags d) 1)) (dev_chain n tbl i) = view l.
Proof.
  revert n i t. induction l as [|[b dir] l IH]; intros n i t Ht Hg Hne Hi Hlen Htbl Hn; [done|].
  apply Forall_cons in Hg as [Hb Hg]. pose proof Hb as [_ Hd]. cbn in Hd.
  cbn [indirect_table] in Ht. rewrite set_buf_good in Ht by done. cbn [mbind outcome_bind] in Ht.
  rewrite len_cons in Hlen. pose proof (len_nonneg l).
  destruct (indirect_table l (i + 1)) as [t'|] eqn:Et; [|done]. cbn [mbind outcome_bind] in Ht. injection Ht as <-.
  destruct n as [|n]; [cbn in Hn; lia|]. cbn [dev_chain].
  pose proof (Htbl 0) as H0. rewrite Z.add_0_r in H0. rewrite H0 by (rewrite len_cons; pose proof (len_nonneg t'); lia).
  change (Z.to_nat 0) with 0%nat. cbn [nth map view]. destruct (flag_bits dir Hd) as (B0 & B0' & B1 & B1' & _).
  destruct l as [|p l].
  - by destruct dir.
  - cbn [d_flags d_addr d_len d_next set_next set_flags]. rewrite B0', B1'. cbn [map fst snd]. f_equal.
    unfold u16. rewrite wrap_small by lia. apply (IH n (i + 1) t'); try done; [lia|lia| |cbn in *; lia].
    intros j Hj. replace (i + 1 + j) with (i + (j + 1)) by lia. rewrite Htbl by (rewrite len_cons; lia).
    replace (Z.to_nat (j + 1)) with (S (Z.to_nat j)) by lia. done.
Qed.

(** ** The token map *)

(** The device rewrites its ring, and the descriptor table it should not. *)
Definition device_writes (D : Z -> Descriptor) (fl idx : Z) (ring : Z -> Z * Z) (ev : Z) (q : VirtQueue) : VirtQueue :=
  set_used fl idx ring ev (set_vq_desc D q).

Definition token_map (chains : list chain) : gmap Z request :=
  list_to_map (map (fun c => (ch_token c, ch_req c)) chains).

(** How many descriptors a request takes. *)
Definition cost (q : VirtQueue) (l : request) : Z := if indirect q && (1 <? len l) then 1 else len l.

(** [q] has the requests [σ] outstanding and [n] descriptors free. *)
Definition vq_rep (q : VirtQueue) (σ : gmap Z request) (n : Z) : Prop :=
  exists free chains, vq_ok q free chains /\ Forall (fun c => len (ch_ids c) = cost q (ch_req c)) chains
    /\ σ = token_map chains /\ n = len free.

Lemma vq_rep_device q σ n D fl idx ring ev : vq_rep q σ n -> vq_rep (device_writes D fl idx ring ev q) σ n.
Proof.
  intros (free & chains & HQ & Hc & E1 & E2). exists free, chains. split; [|done].
  destruct HQ as [P1 P2 P3 P4 P5 P6 P7]. by split.
Qed.

Lemma iter_length ins outs : len (InputOutputIter ins outs) = len ins + len outs.
Proof. unfold InputOutputIter. rewrite len_app. unfold len. by rewrite !length_map. Qed.

Lemma chain_ids_ne q c : chain_ok q c -> ch_ids c <> [].
Proof. intros [_ [(? & _)|(i & a & t & -> & _)]]; done. Qed.

Lemma ch_token_in q c : chain_ok q c -> ch_token c ∈ ch_ids c.
Proof. intros H. apply chain_ids_ne in H. unfold ch_token. destruct (ch_ids c); [done|by left]. Qed.

(** Tokens are distinct, and none is a free descriptor. *)
Lemma tokens_nodup q free chains : vq_ok q free chains -> NoDup (map ch_token chains).
Proof.
  intros HQ. pose proof (vo_nodup _ _ _ HQ) as Hnd. apply NoDup_app in Hnd as (_ & _ & Hnd).
  pose proof (vo_chains _ _ _ HQ) as HC. clear HQ. induction chains as [|c chains IH]; cbn in *; [constructor|].
  apply Forall_cons in HC as [Hc HC]. apply NoDup_app in Hnd as (_ & Hd & Hnd). constructor; [|by apply IH].
  intros Hin. apply list_elem_of_In, in_map_iff in Hin as (c' & E & Hc'). apply (Hd (ch_token c)); [by eapply ch_token_in|].
  apply list_elem_of_In, in_concat. exists (ch_ids c'). split; [by apply in_map|]. rewrite <- E.
  apply list_elem_of_In. eapply ch_token_in. rewrite Forall_forall in HC. apply HC. by apply list_elem_of_In.
Qed.

Lemma token_map_lookup q free chains t l :
  vq_ok q free chains -> token_map chains !! t = Some l <-> exists c, c ∈ chains /\ ch_token c = t /\ ch_req c = l.
Proof.
  intros HQ. unfold token_map. rewrite <- elem_of_list_to_map.
  2:{ rewrite <- list_fmap_compose. exact (tokens_nodup _ _ _ HQ). }
  rewrite list_elem_of_In, in_map_iff. setoid_rewrite list_elem_of_In. naive_solver.
Qed.

Lemma vq_ok_avail q free chains ring i :
  vq_ok q free chains -> 0 <= i < 2 ^ 16 ->
  vq_ok (set_vq_avail_ring_idx i (set_avail_idx i (set_vq_avail_ring ring q))) free chains.
Proof. intros [P1 P2 P3 P4 P5 P6 P7] Hi. by split. Qed.

Lemma add_spec q free chains a ins outs :
  let l := InputOutputIter ins outs in
  SIZE <= 2 ^ 15 -> vq_ok q free chains -> Forall good_buf l -> l <> [] ->
  if bool_decide (cost q l <= len free /\ len l <= SIZE) then
    exists q' ids free', free = ids ++ free' /\ len ids = cost q l
    /\ add SIZE a ins outs q = Ret (q', VOk (hd 0 ids)) /\ vq_ok q' free' (mkChain ids l :: chains)
    /\ dev_read q' (hd 0 ids) = view l
    /\ vq_avail_ring q' = fupd (vq_avail_ring q) (Z.land (avail_idx q) (SIZE - 1)) (hd 0 ids)
    /\ avail_idx q' = u16 (avail_idx q + 1) /\ indirect q' = indirect q
  else add SIZE a ins outs q = Ret (q, VErr QueueFull).
Proof.
  cbn zeta. set (l := InputOutputIter ins outs). intros HS HQ Hg Hne.
  assert (len l = len ins + len outs) as El by apply iter_length.
  assert (0 < len l) as Hl0 by (destruct l as [|x l0]; [done|rewrite len_cons; pose proof (len_nonneg l0); lia]).
  pose proof (vo_num _ _ _ HQ) as En. pose proof (vo_len _ _ _ HQ) as Hlen.
  pose proof (len_nonneg (concat (map ch_ids chains))). pose proof (len_nonneg free).
  unfold add. rewrite <- El. fold l.
  assert ((len ins =? 0) && (len outs =? 0) = false) as ->.
  { apply not_true_iff_false. intros ?. zb. lia. }
  assert ((SIZE <? num_used q + 1) || (SIZE <? len l) || negb (indirect q) && (SIZE <? num_used q + len l)
    = negb (bool_decide (cost q l <= len free /\ len l <= SIZE))) as ->.
  { unfold cost. apply eq_true_iff_eq. rewrite negb_true_iff, bool_decide_eq_false, !orb_true_iff, andb_true_iff, !Z.ltb_lt.
    destruct (indirect q); cbn; [destruct (Z.ltb_spec 1 (len l))|]; naive_solver lia. }
  case_bool_decide as Hfit; [|done]. destruct Hfit as [Hfit Hls]. cbn [negb]. unfold cost in *.
  destruct (indirect q && (1 <? len l)) eqn:Hmode.
  - destruct (add_indirect_spec a l q free chains) as (q1 & i & free' & -> & E & HQ1 & Hd & (t & Hi & Ht) & HR); [done..|lia|done|done|].
    rewrite E. cbn [mbind outcome_bind]. eexists _, [i], free'.
    destruct HR as [(_ & _ & R3 & _ & R5) _ [_ R6]].
    split_and!; [done|done|done| | |cbn; by rewrite R3, R5|cbn; by rewrite R5|done].
    + apply vq_ok_avail; [done|]. apply wrap_range. lia.
    + unfold dev_read. cbn. rewrite Hd, Hi.
      pose proof (vo_chains _ _ _ HQ1) as HC. apply Forall_cons in HC as [[_ HC] _].
      destruct HC as [(_ & HL & Hno)|(i' & a' & t' & Ei & Hi' & Ht' & H1 & H2 & H3)]; cbn in *.
      { rewrite (Hno i) in Hi by (by left). done. }
      simplify_eq. rewrite H2, H3. cbn -[dev_chain Z.to_nat Z.div]. rewrite Z.eqb_refl.
      replace (Z.to_nat (16 * len l / 16)) with (length l) by (unfold len; rewrite Z.mul_comm, Z.div_mul by lia; lia).
      eapply dev_chain_table; try done. lia.
  - destruct (add_direct_spec l q free chains) as (q1 & ids & free' & -> & Elen & E & HQ1 & Hd & Hi & HR); [done..|].
    rewrite E. cbn [mbind outcome_bind]. eexists _, ids, free'.
    destruct HR as [(_ & _ & R3 & _ & R5) _ [_ R6]].
    split_and!; [done|unfold len; lia|done| | |cbn; by rewrite R3, R5|cbn; by rewrite R5|done].
    + apply vq_ok_avail; [done|]. apply wrap_range. lia.
    + destruct ids as [|i ids]; [destruct l; done|]. cbn [hd].
      pose proof (vo_chains _ _ _ HQ1) as HC. apply Forall_cons in HC as [[_ HC] _].
      destruct HC as [(_ & HL & Hno)|(i' & a' & t' & Ei & Hi' & _)]; cbn [ch_ids ch_req] in *.
      2:{ simplify_eq. rewrite Hi, (vo_nolist _ _ _ HQ) in Hi' by (by left). done. }
      assert (linked 0 (vq_desc q1) (i :: ids) l) as HL'.
      { eapply linked_ext; [|exact HL]. intros j Hj. by apply Hd. }
      unfold dev_read. cbn [vq_desc indirect_lists set_vq_avail_ring_idx set_avail_idx set_vq_avail_ring].
      assert (Z.testbit (d_flags (vq_desc q1 i)) 2 = false) as ->.
      { destruct l as [|[b dir] l0]; [done|]. apply Forall_cons in Hg as [[_ Hdir] _]. cbn in Hdir.
        destruct (flag_bits dir Hdir) as (_ & _ & _ & _ & B2 & B2'). destruct HL' as (_ & _ & H3 & _).
        destruct ids; [rewrite Z.lor_0_l in H3; by rewrite H3|destruct H3 as [-> _]; done]. }
      eapply dev_chain_linked; [done|exact HL'|unfold len in *; lia].
Qed.

(** ** Popping *)

(** Every descriptor of a direct chain goes back to the free list, in order,
    before the descriptors free already. *)
Lemma recycle_loop_spec l ids i orig q :
  Forall good_buf l -> linked 0 (desc_shadow q) (i :: ids) l -> NoDup (i :: ids) ->
  (forall j, j ∈ i :: ids -> idx_ok SIZE j = true) -> len l <= num_used q < 2 ^ 16 ->
  exists q', recycle_loop SIZE l (Some i) orig q = Ret (q', None)
    /\ num_used q' = num_used q - len l
    /\ (forall free, flist (desc_shadow q') orig free -> flist (desc_shadow q') i (i :: ids ++ free))
    /\ (forall j, j ∉ i :: ids -> desc_shadow q' j = desc_shadow q j)
    /\ free_head q' = free_head q /\ indirect_lists q' = indirect_lists q /\ same_rings q q'.
Proof.
  revert ids i q. induction l as [|[b dir] l IH]; intros ids i q Hg HL Hnd Hok Hnum; [done|].
  apply Forall_cons in Hg as [[Hb Hd] Hg]. cbn in Hb, Hd. apply NoDup_cons in Hnd as [Hni Hnd].
  rewrite len_cons in *. pose proof (len_nonneg l).
  cbn [recycle_loop]. rewrite (proj2 (Z.eqb_neq (b_len b) 0)) by lia.
  unfold rd_shadow at 1. rewrite Hok by (by left). cbn [mbind outcome_bind].
  destruct (flag_bits dir Hd) as (B0 & B0' & _). destruct HL as (_ & _ & H3 & H4).
  assert (u16 (num_used q - 1) = num_used q - 1) as Eu by (apply wrap_small; lia).
  unfold next. cbn [unset_buf d_flags d_next]. destruct ids as [|j ids].
  - destruct l; [|done]. rewrite Z.lor_0_l in H3. rewrite H3, B0. cbn [recycle_loop].
    eexists. split; [done|]. split; [change (u16 (num_used q - 1) = num_used q - (0 + 1)); lia|]. split_and!; try done.
    + intros free Hf. split; [done|]. cbn in *. by rewrite fupd_eq.
    + intros j Hj. cbn. apply fupd_ne. intros ->. apply Hj. by left.
  - destruct H3 as [H3 H5]. rewrite H3, B0', H5.
    set (q1 := write_desc i _).
    assert (forall k, k <> i -> desc_shadow q1 k = desc_shadow q k) as Hq1 by (intros; subst q1; cbn; by rewrite fupd_ne).
    destruct (IH ids j q1) as (q' & E & En & Hf & Ho & Eh & Ei & HR).
    + done.
    + eapply linked_ext; [|exact H4]. intros k Hk. apply Hq1. intros ->. done.
    + done.
    + intros k Hk. apply Hok. by right.
    + subst q1; cbn. rewrite Eu. lia.
    + exists q'. split; [exact E|]. split; [rewrite En; subst q1; cbn; rewrite Eu; lia|]. split_and!.
      * intros free Hfr. split; [done|]. rewrite Ho by done. subst q1; cbn. rewrite fupd_eq. cbn. rewrite H5.
        by apply Hf.
      * intros k Hk. rewrite Ho by (intros ?; apply Hk; by right). apply Hq1. intros ->. apply Hk. by left.
      * done.
      * done.
      * destruct HR as [A B C]. by split.
Qed.

Lemma recycle_spec q free c chains :
  SIZE <= 2 ^ 15 -> vq_ok q free (c :: chains) ->
  exists q', recycle_descriptors SIZE (ch_token c) (ch_req c) q = Ret q'
    /\ vq_ok q' (ch_ids c ++ free) chains /\ same_rings q q'.
Proof.
  intros HS HQ. pose proof (vo_nodup _ _ _ HQ) as Hnd. pose proof (vo_len _ _ _ HQ) as Hlen.
  pose proof (vo_num _ _ _ HQ) as En. pose proof (vo_chains _ _ _ HQ) as HC. apply Forall_cons in HC as [Hc HC].
  cbn [map concat] in Hnd, Hlen. rewrite len_app in Hlen.
  pose proof (len_nonneg (concat (map ch_ids chains))). pose proof (len_nonneg free).
  assert (forall j, j ∈ ch_ids c -> idx_ok SIZE j = true /\ j ∉ free /\ j ∉ concat (map ch_ids chains)) as Hids.
  { intros j Hj. apply NoDup_app in Hnd as (_ & Hd & Hnd). split; [|split].
    - apply (vo_range q free (c :: chains)); [done|]. cbn. rewrite !elem_of_app. auto.
    - intros Hf. apply (Hd j Hf). rewrite elem_of_app. by left.
    - apply NoDup_app in Hnd as (_ & Hd' & _). by apply Hd'. }
  assert (NoDup (ch_ids c)) as Hndc by (apply NoDup_app in Hnd as (_ & _ & Hnd); by apply NoDup_app in Hnd as (? & _ & _)).
  pose proof (ch_token_in _ _ Hc) as Htok. unfold recycle_descriptors, rd_shadow.
  destruct (Hids _ Htok) as [-> _]. cbn [mbind outcome_bind desc_shadow set_free_head indirect_lists].
  destruct Hc as [Hg Hc]. unfold ch_token in *.
  assert (forall q', num_used q' = num_used q - len (ch_ids c) ->
    (flist (desc_shadow q') (free_head q) free -> flist (desc_shadow q') (free_head q') (ch_ids c ++ free)) ->
    (forall j, j ∉ ch_ids c -> desc_shadow q' j = desc_shadow q j /\ indirect_lists q' j = indirect_lists q j) ->
    (forall j, j ∈ ch_ids c -> indirect_lists q' j = None) -> same_rings q q' ->
    vq_ok q' (ch_ids c ++ free) chains) as Hfin.
  { intros q' E1 E2 E3 E4 [(_ & A1 & _ & _ & A2) (_ & _ & _ & _ & A3) _]. split.
    - rewrite <- (vo_perm _ _ _ HQ). cbn. rewrite <- app_assoc, Permutation_app_swap_app. done.
    - apply E2. eapply flist_ext; [|apply HQ]. intros j Hj. apply E3. intros Hj'. by destruct (Hids j Hj') as (_ & ? & _).
    - rewrite E1, En, len_app. lia.
    - eapply chains_ext; [|exact HC]. intros j Hj. apply E3. intros Hj'. by destruct (Hids j Hj') as (_ & _ & ?).
    - intros j Hj. destruct (decide (j ∈ ch_ids c)) as [?|Hn]; [by apply E4|]. apply elem_of_app in Hj as [Hj|Hj]; [done|].
      destruct (E3 j Hn) as [_ ->]. by apply HQ.
    - rewrite A1, A2. apply HQ.
    - rewrite A3. apply HQ. }
  destruct Hc as [(Hne & HL & Hno)|(i & a & t & Ei & Hi & Ht & H1 & H2 & H3)].
  - destruct (ch_ids c) as [|i ids] eqn:Eids; [done|]. cbn [hd].
    assert (Z.testbit (d_flags (desc_shadow q i)) 2 = false) as ->.
    { destruct (ch_req c) as [|[b dir] l0]; [done|]. apply Forall_cons in Hg as [[_ Hdir] _]. cbn in Hdir.
      destruct (flag_bits dir Hdir) as (_ & _ & _ & _ & B2 & B2'). destruct HL as (_ & _ & H3 & _).
      destruct ids; [rewrite Z.lor_0_l in H3; by rewrite H3|destruct H3 as [-> _]; done]. }
    assert (len (ch_req c) = len (i :: ids)) as Elen.
    { clear -HL. revert HL. generalize (i :: ids), (ch_req c). induction l as [|k l IH]; intros [|[b d] r]; cbn; try done.
      intros (_ & _ & _ & HL). rewrite !len_cons. f_equal. by apply IH. }
    destruct (recycle_loop_spec (ch_req c) ids i (free_head q) (set_free_head i q)) as (q' & E & Eq1 & Hf & Ho & Eh & Eil & HR).
    + done. + done. + done. + intros j Hj. by apply Hids.
    + cbn [num_used set_free_head]. rewrite Elen, En. rewrite len_cons in *. pose proof (len_nonneg ids). lia.
    + rewrite E. cbn [mbind outcome_bind]. exists q'. split; [done|]. destruct HR as [A B C].
      split; [|by split]. apply Hfin.
      * by rewrite Eq1, Elen.
      * intros Hfr. rewrite Eh. by apply Hf.
      * intros j Hj. rewrite Ho, Eil by done. done.
      * intros j Hj. rewrite Eil. by apply Hno.
      * by split.
  - rewrite Ei in *. cbn [hd] in *. rewrite H3. cbn [Z.testbit DESC_INDIRECT Pos.testbit]. rewrite Hi.
    destruct (indirect_table_good (ch_req c) 0 Hg) as (t' & Et' & Elt). rewrite Ht in Et'. injection Et' as <-.
    assert (len t =? len (ch_req c) = true) as -> by (apply Z.eqb_eq; unfold len; by rewrite Elt). cbn [negb].
    assert (existsb (fun p => b_len (fst p) =? 0) (ch_req c) = false) as ->.
    { apply not_true_iff_false. rewrite existsb_exists. intros (p & Hp & E). rewrite Forall_forall in Hg.
      apply list_elem_of_In in Hp. destruct (Hg p Hp) as [? _]. zb. lia. }
    eexists. split; [done|]. split; [|by split]. apply Hfin.
    + change (len [i]) with 1 in Hlen |- *. cbn [num_used set_num_used set_indirect_lists set_free_head wr_shadow set_desc_shadow].
      apply wrap_small. rewrite En. lia.
    + intros Hfr. cbn in *. split; [done|]. by rewrite fupd_eq.
    + intros j Hj. cbn. rewrite !fupd_ne; [done|..]; intros ->; apply Hj; by left.
    + intros j ->%list_elem_of_singleton. cbn. apply fupd_eq.
    + by split.
Qed.

Lemma vq_ok_perm q free chains chains' : chains ≡ₚ chains' -> vq_ok q free chains -> vq_ok q free chains'.
Proof.
  intros HP [P1 P2 P3 P4 P5 P6 P7]. split; try done; [|by rewrite <- HP].
  rewrite <- P1. f_equiv. rewrite <- !flat_map_concat_map. by apply Permutation_flat_map.
Qed.

Lemma token_map_perm q free chains chains' :
  vq_ok q free chains -> chains ≡ₚ chains' -> token_map chains' = token_map chains.
Proof.
  intros HQ HP. symmetry. apply list_to_map_proper; [|by apply Permutation_map].
  rewrite <- list_fmap_compose. exact (tokens_nodup _ _ _ HQ).
Qed.

Lemma add_refines q σ n a ins outs :
  let l := InputOutputIter ins outs in
  SIZE <= 2 ^ 15 -> vq_rep q σ n -> Forall good_buf l -> l <> [] ->
  if bool_decide (cost q l <= n /\ len l <= SIZE) then
    exists q' t, add SIZE a ins outs q = Ret (q', VOk t) /\ σ !! t = None
    /\ vq_rep q' (<[t := l]> σ) (n - cost q l) /\ dev_read q' t = view l
    /\ vq_avail_ring q' = fupd (vq_avail_ring q) (Z.land (avail_idx q) (SIZE - 1)) t
    /\ avail_idx q' = u16 (avail_idx q + 1)
  else add SIZE a ins outs q = Ret (q, VErr QueueFull).
Proof.
  cbn zeta. set (l := InputOutputIter ins outs). intros HS (free & chains & HQ & Hcost & -> & ->) Hg Hne.
  pose proof (add_spec q free chains a ins outs HS HQ Hg Hne) as HA. fold l in HA.
  case_bool_decide as Hfit; [|done].
  destruct HA as (q' & ids & free' & Ef & Elen & E & HQ' & Hdev & Har & Hai & Hind).
  exists q', (hd 0 ids). split_and!; try done.
  - assert (hd 0 ids ∉ map ch_token chains) as Hni.
    { pose proof (tokens_nodup _ _ _ HQ') as Hnd. cbn in Hnd. by apply NoDup_cons in Hnd as [? _]. }
    unfold token_map. apply not_elem_of_list_to_map_1. by rewrite <- list_fmap_compose.
  - exists free', (mkChain ids l :: chains). split; [done|]. unfold cost in *. rewrite Hind.
    split; [by constructor|]. split; [done|]. rewrite Ef, len_app. lia.
Qed.

(** A used ring entry, whoever wrote it, for a token that is out. *)
Lemma pop_refines q σ n t ins outs :
  let l := InputOutputIter ins outs in
  SIZE <= 2 ^ 15 -> vq_rep q σ n -> σ !! t = Some l ->
  let '(id, used) := vq_used_ring q (used_slot SIZE q) in
  if negb (can_pop q) then pop_used SIZE t ins outs q = Ret (q, VErr NotReady)
  else if negb (u16 id =? t) then pop_used SIZE t ins outs q = Ret (q, VErr WrongToken)
  else exists q', pop_used SIZE t ins outs q = Ret (q', VOk used)
    /\ vq_rep q' (delete t σ) (n + cost q l) /\ last_used_idx q' = u16 (last_used_idx q + 1)
    /\ vq_used_idx q' = vq_used_idx q /\ vq_used_ring q' = vq_used_ring q.
Proof.
  cbn zeta. set (l := InputOutputIter ins outs). intros HS (free & chains & HQ & Hcost & -> & ->) Ht.
  destruct (vq_used_ring q (used_slot SIZE q)) as [id used] eqn:Eu. unfold pop_used.
  destruct (can_pop q); [|done]. cbn [negb]. rewrite Eu. cbn [fst snd].
  destruct (Z.eqb_spec (u16 id) t) as [->|]; [|done]. cbn [negb].
  apply (token_map_lookup _ _ _ _ _ HQ) in Ht as (c & Hc & Etok & Ereq).
  apply elem_of_Permutation in Hc as (chains' & HP).
  pose proof (vq_ok_perm _ _ _ _ HP HQ) as HQc.
  subst l. rewrite <- Etok, <- Ereq.
  destruct (recycle_spec q free c chains' HS HQc) as (q' & -> & HQ' & [(R0 & R1 & R2 & R3 & R4) (_ & R8 & R9 & _ & R5) [R6 R7]]).
  cbn [mbind outcome_bind]. eexists. split; [done|].
  assert (forall q2, desc_shadow q2 = desc_shadow q' -> free_head q2 = free_head q' -> num_used q2 = num_used q' ->
    indirect_lists q2 = indirect_lists q' -> avail_idx q2 = avail_idx q' -> vq_avail_ring_idx q2 = vq_avail_ring_idx q' ->
    indirect q2 = indirect q' -> 0 <= last_used_idx q2 < 2 ^ 16 ->
    vq_rep q2 (delete (ch_token c) (token_map chains)) (len free + cost q (ch_req c))) as Hfin.
  { intros q2 F1 F2 F3 F4 F5 F6 F7 F8. exists (ch_ids c ++ free), chains'.
    rewrite HP in Hcost. apply Forall_cons in Hcost as [Hc Hcost]. split_and!.
    - destruct HQ' as [P1 P2 P3 P4 P5 P6 P7]. split; rewrite ?F1, ?F2, ?F3, ?F4, ?F5, ?F6; try done.
      eapply chains_ext; [|exact P4]. intros j _. by rewrite F1, F4.
    - unfold cost in *. by rewrite F7, R7.
    - rewrite <- (token_map_perm _ _ _ _ HQ HP). unfold token_map. cbn. rewrite delete_insert_id; [done|].
      pose proof (tokens_nodup _ _ _ HQc) as Hnd. cbn in Hnd. apply NoDup_cons in Hnd as [Hni _].
      apply not_elem_of_list_to_map_1. by rewrite <- list_fmap_compose.
    - rewrite len_app. lia. }
  split_and!.
  - apply Hfin; try (by case_match). case_match; cbn; apply wrap_range; lia.
  - case_match; cbn; by rewrite R5.
  - by case_match.
  - by case_match.
Qed.

(** ** A new queue *)
Lemma new_chain n m :
  (m <= n)%nat -> let t := for_range n 0 (fun i t => fupd t i (set_next (i + 1) (t i))) (fun _ => zero_desc) in
  flist t (Z.of_nat (n - m)) (seqZ (Z.of_nat (n - m)) (Z.of_nat m + 1)).
Proof.
  intros Hm. cbn zeta. set (t := for_range _ _ _ _).
  assert (forall i, 0 <= i < Z.of_nat n -> d_next (t i) = i + 1) as Ht.
  { subst t. pose proof (for_range_ind (fun k t => forall i, 0 <= i < k -> d_next (t i) = i + 1) n 0
      (fun i t => fupd t i (set_next (i + 1) (t i))) (fun _ => zero_desc)) as HI.
    rewrite Z.add_0_l in HI. apply HI; [lia|]. intros k t Hk IH i Hi. unfold fupd.
    destruct (Z.eqb_spec i k) as [->|]; [done|]. apply IH. lia. }
  clearbody t. induction m as [|m IH].
  - rewrite seqZ_cons by lia. done.
  - rewrite seqZ_cons by lia. split; [done|]. rewrite Ht by lia.
    replace (Z.of_nat (n - S m) + 1) with (Z.of_nat (n - m)) by lia.
    replace (Z.succ (Z.of_nat (n - S m))) with (Z.of_nat (n - m)) by lia.
    replace (Z.pred (Z.of_nat (S m) + 1)) with (Z.of_nat m + 1) by lia. apply IH. lia.
Qed.

Lemma new_ok used max legacy idx ind ev dma dma' q lay :
  0 < SIZE -> vq_new SIZE used max legacy idx ind ev dma = (dma', VOk (q, lay)) -> vq_ok q (seqZ 0 SIZE) [].
Proof.
  intros HS. unfold vq_new. case_match; [done|]. case_match; [done|].
  destruct (if legacy then _ else _) as [d [l|e]]; [|done]. intros [= <- <- <-].
  split; cbn; try done.
  - by rewrite app_nil_r.
  - pose proof (new_chain (Z.to_nat (SIZE - 1)) (Z.to_nat (SIZE - 1)) ltac:(done)) as HF. cbn zeta in HF.
    replace (Z.of_nat (Z.to_nat (SIZE - 1)) + 1) with SIZE in HF by lia.
    by replace (Z.of_nat (Z.to_nat (SIZE - 1) - Z.to_nat (SIZE - 1))) with 0 in HF by lia.
  - unfold len. rewrite length_seqZ. lia.
Qed.

Lemma new_rep used max legacy idx ind ev dma dma' q lay :
  0 < SIZE -> vq_new SIZE used max legacy idx ind ev dma = (dma', VOk (q, lay)) -> vq_rep q ∅ SIZE.
Proof.
  intros HS HN. exists (seqZ 0 SIZE), []. split_and!; [by eapply new_ok|done|done|unfold len; rewrite length_seqZ; lia].
Qed.

(** C18.  A virtqueue implements a finite map from tokens to the requests the
    device has.  [add] refuses exactly when the request does not fit, else
    returns a token no outstanding request has, under which the device reads
    exactly the request's buffers, lengths and directions.  [pop_used] of an
    outstanding token, whatever the device has written to the used ring and to
    the descriptor table, returns: not ready, wrong token with nothing
    changed, or the length the device reported with the request removed and
    its descriptors free again. *)
Theorem virtqueue_refines_map q σ n :
  SIZE <= 2 ^ 15 -> vq_rep q σ n ->
  (forall a ins outs, let l := InputOutputIter ins outs in
     Forall good_buf l -> l <> [] ->
     if bool_decide (cost q l <= n /\ len l <= SIZE) then
       exists q' t, add SIZE a ins outs q = Ret (q', VOk t) /\ σ !! t = None
       /\ vq_rep q' (<[t := l]> σ) (n - cost q l) /\ dev_read q' t = view l
       /\ vq_avail_ring q' = fupd (vq_avail_ring q) (Z.land (avail_idx q) (SIZE - 1)) t
       /\ avail_idx q' = u16 (avail_idx q + 1)
     else add SIZE a ins outs q = Ret (q, VErr QueueFull))
  /\ (forall D fl idx ring ev t ins outs, let l := InputOutputIter ins outs in
     let q1 := device_writes D fl idx ring ev q in
     σ !! t = Some l ->
     let '(id, used) := ring (used_slot SIZE q) in
     if negb (can_pop q1) then pop_used SIZE t ins outs q1 = Ret (q1, VErr NotReady)
     else if negb (u16 id =? t) then pop_used SIZE t ins outs q1 = Ret (q1, VErr WrongToken)
     else exists q', pop_used SIZE t ins outs q1 = Ret (q', VOk used)
       /\ vq_rep q' (delete t σ) (n + cost q l) /\ last_used_idx q' = u16 (last_used_idx q + 1)).
Proof.
  intros HS HR. split.
  - intros a ins outs l Hg Hne. by apply add_refines.
  - intros D fl idx ring ev t ins outs l q1 Ht.
    pose proof (pop_refines q1 σ n t ins outs HS (vq_rep_device q σ n D fl idx ring ev HR) Ht) as HP.
    change (vq_used_ring q1 (used_slot SIZE q1)) with (ring (used_slot SIZE q)) in HP.
    destruct (ring (used_slot SIZE q)) as [id used]. repeat (case_match; [done|]).
    destruct HP as (q' & H1 & H2 & H3 & _). exists q'. split; [exact H1|]. split; [exact H2|exact H3].
Qed.

(** ** Layout *)
Lemma align_up_eq size : 0 <= size -> align_up size = (size / PAGE_SIZE + 1) * PAGE_SIZE.
Proof.
  intros Hs. unfold align_up, PAGE_SIZE. change (0x1000 - 1) with (Z.ones 12). rewrite <- Z.ldiff_land, Z.ldiff_ones_r by lia.
  rewrite Z.shiftl_mul_pow2, Z.shiftr_div_pow2 by lia. change (2 ^ 12) with 4096.
  f_equal. change (size + 4096) with (size + 1 * 4096). by rewrite Z.div_add by lia.
Qed.

(** For every queue size the legacy used ring starts at the next page after
    the available ring, where legacy devices look for it. *)
Theorem legacy_layout_exact k dma dma' lay :
  SIZE = 2 ^ k -> 0 <= k <= 15 -> 0 < dma < 2 ^ 62 -> dma mod PAGE_SIZE = 0 ->
  allocate_legacy SIZE dma = (dma', VOk lay) ->
  descriptors_paddr lay = dma /\ driver_area_paddr lay = dma + 16 * SIZE
  /\ device_area_paddr lay = (driver_area_paddr lay + 2 * (3 + SIZE) + PAGE_SIZE - 1) / PAGE_SIZE * PAGE_SIZE
  /\ device_area_paddr lay + 6 + 8 * SIZE <= dma'.
Proof.
  intros ES Hk Hd Hm. assert (1 <= SIZE <= 2 ^ 15) as HS.
  { rewrite ES. split; [pose proof (Z.pow_pos_nonneg 2 k); lia|apply Z.pow_le_mono_r; lia]. }
  assert ((16 * SIZE + 2 * (3 + SIZE)) mod 4096 <> 0) as Hnz.
  { rewrite ES. assert (k = 0 \/ k = 1 \/ k = 2 \/ k = 3 \/ k = 4 \/ k = 5 \/ k = 6 \/ k = 7 \/ k = 8 \/ k = 9
      \/ k = 10 \/ k = 11 \/ k = 12 \/ k = 13 \/ k = 14 \/ k = 15) as Hc by lia. clear -Hc. intuition (subst k; discriminate || idtac).
    all: vm_compute in H; discriminate. }
  unfold allocate_legacy, queue_part_sizes, dma_new. rewrite (proj2 (Z.eqb_neq dma 0)) by lia.
  rewrite !align_up_eq by lia. intros [= <- <-]. cbn.
  unfold PAGE_SIZE in *. rewrite !u64_small; [|Z.div_mod_to_equations; nia ..].
  split_and!; [done|done|Z.div_mod_to_equations; lia|Z.div_mod_to_equations; nia].
Qed.
End Props.
