(* ===== verification/VirtioNet.v ===== *)
(** * The virtio network driver

    Models [src/virtio-drivers-patched/src/device/net/dev_raw.rs] and
    [dev.rs] over the virtqueues of [Virtqueue], and the kernel's use of them
    in [src/src/net/device.rs].  Buffers are where they are and how long; the
    bytes the device writes into a posted receive buffer are the packet.  The
    addresses the allocator returns are arguments. *)

From S2P Require Import Prelude Paging Virtqueue.

Definition MIN_BUFFER_LEN : Z := 1526.
Definition QUEUE_RECEIVE : Z := 0.
Definition QUEUE_TRANSMIT : Z := 1.

(** [notified] records the queues the transport was told about. *)
Record VirtIONetRaw := mkRaw {
  recv_queue : VirtQueue;
  send_queue : VirtQueue;
  legacy_header : bool;
  notified : list Z;
}.
Definition set_recv (q : VirtQueue) (r : VirtIONetRaw) : VirtIONetRaw :=
  mkRaw q (send_queue r) (legacy_header r) (notified r).
Definition set_send (q : VirtQueue) (r : VirtIONetRaw) : VirtIONetRaw :=
  mkRaw (recv_queue r) q (legacy_header r) (notified r).
Definition notify (i : Z) (r : VirtIONetRaw) : VirtIONetRaw :=
  mkRaw (recv_queue r) (send_queue r) (legacy_header r) (i :: notified r).

Definition hdr_size (r : VirtIONetRaw) : Z := if legacy_header r then 10 else 12.

(** A receive buffer: its memory, the packet length of the last completion,
    and its place in [rx_buffers]. *)
Record RxBuffer := mkRx { rb_buf : bslice; rb_packet_len : Z; rb_idx : Z }.

(** [VirtIONet] inside the kernel's [VirtioNetDevice]. *)
Record VirtioNetDevice := mkDev {
  inner : VirtIONetRaw;
  rx_buffers : Z -> option RxBuffer;
  pending_tx : list (Z * bslice);
}.
Definition set_inner (r : VirtIONetRaw) (d : VirtioNetDevice) : VirtioNetDevice :=
  mkDev r (rx_buffers d) (pending_tx d).
Definition set_rx (f : Z -> option RxBuffer) (d : VirtioNetDevice) : VirtioNetDevice :=
  mkDev (inner d) f (pending_tx d).
Definition set_pending (l : list (Z * bslice)) (d : VirtioNetDevice) : VirtioNetDevice :=
  mkDev (inner d) (rx_buffers d) l.

(** What the transport answers: the features the device offers, whether a
    queue is in use and how long it may be, the layout the transport needs,
    and the result of reading the configuration space. *)
Record Transport := mkTransport {
  read_device_features : Z;
  queue_used : Z -> bool;
  max_queue_size : Z -> Z;
  requires_legacy_layout : bool;
  read_config : vresult unit;
}.
(** MAC, STATUS, RING_INDIRECT_DESC, RING_EVENT_IDX and VERSION_1. *)
Definition SUPPORTED_FEATURES : Z :=
  Z.lor (Z.lor (Z.lor (Z.lor (Z.shiftl 1 5) (Z.shiftl 1 16)) (Z.shiftl 1 29)) (Z.shiftl 1 28)) (Z.shiftl 1 32).

Section Net.
Variable SIZE : Z.

(** ** The raw driver *)

Definition raw_new (tr : Transport) (dma : Z) : Z * vresult VirtIONetRaw :=
  let negotiated := Z.land (read_device_features tr) SUPPORTED_FEATURES in
  match read_config tr with
  | VErr e => (dma, VErr e)
  | VOk _ =>
      let new_queue i dma := vq_new SIZE (queue_used tr i) (max_queue_size tr i) (requires_legacy_layout tr) i
        (Z.testbit negotiated 28) (Z.testbit negotiated 29) dma in
      match new_queue QUEUE_TRANSMIT dma with
      | (dma, VErr e) => (dma, VErr e)
      | (dma, VOk (send_queue, _)) =>
          match new_queue QUEUE_RECEIVE dma with
          | (dma, VErr e) => (dma, VErr e)
          | (dma, VOk (recv_queue, _)) =>
              (dma, VOk (mkRaw recv_queue send_queue (negb (Z.testbit negotiated 32) && negb (Z.testbit negotiated 15)) []))
          end
      end
  end.

Definition disable_interrupts (r : VirtIONetRaw) : VirtIONetRaw :=
  let r := set_send (set_dev_notify false (send_queue r)) r in
  set_recv (set_dev_notify false (recv_queue r)) r.
Definition enable_interrupts (r : VirtIONetRaw) : VirtIONetRaw :=
  let r := set_send (set_dev_notify true (send_queue r)) r in
  set_recv (set_dev_notify true (recv_queue r)) r.

Definition can_send (r : VirtIONetRaw) : bool := 2 <=? available_desc SIZE (send_queue r).

(** The header is all zeroes; the result is its size. *)
Definition fill_buffer_header (r : VirtIONetRaw) (buffer : list Z) : list Z * vresult Z :=
  if len buffer <? hdr_size r then (buffer, VErr InvalidParam)
  else (replicate (Z.to_nat (hdr_size r)) 0 ++ drop (Z.to_nat (hdr_size r)) buffer, VOk (hdr_size r)).

Definition transmit_begin (tx_buf : bslice) (r : VirtIONetRaw) : outcome (VirtIONetRaw * vresult Z) :=
  if b_len tx_buf <? hdr_size r then Ret (r, VErr InvalidParam) else
  '(q, res) ← add SIZE 0 [tx_buf] [] (send_queue r);
  let r := set_send q r in
  match res with
  | VErr e => Ret (r, VErr e)
  | VOk token => Ret (if should_notify q then notify QUEUE_TRANSMIT r else r, VOk token)
  end.
Definition poll_transmit (r : VirtIONetRaw) : option Z := peek_used SIZE (send_queue r).
Definition transmit_complete (token : Z) (tx_buf : bslice) (r : VirtIONetRaw) : outcome (VirtIONetRaw * vresult Z) :=
  '(q, res) ← pop_used SIZE token [tx_buf] [] (send_queue r);
  Ret (set_send q r, res).

Definition receive_begin (rx_buf : bslice) (r : VirtIONetRaw) : outcome (VirtIONetRaw * vresult Z) :=
  if b_len rx_buf <? MIN_BUFFER_LEN then Ret (r, VErr InvalidParam) else
  '(q, res) ← add SIZE 0 [] [rx_buf] (recv_queue r);
  let r := set_recv q r in
  match res with
  | VErr e => Ret (r, VErr e)
  | VOk token => Ret (if should_notify q then notify QUEUE_RECEIVE r else r, VOk token)
  end.
Definition poll_receive (r : VirtIONetRaw) : option Z := peek_used SIZE (recv_queue r).
(** The header length and the packet length. *)
Definition receive_complete (token : Z) (rx_buf : bslice) (r : VirtIONetRaw) : outcome (VirtIONetRaw * vresult (Z * Z)) :=
  '(q, res) ← pop_used SIZE token [] [rx_buf] (recv_queue r);
  let r := set_recv q r in
  match res with
  | VErr e => Ret (r, VErr e)
  | VOk n => Ret (r, if n <? hdr_size r then VErr IoError else VOk (hdr_size r, n - hdr_size r))
  end.

(** ** Receive buffers *)

(** The loop of [VirtIONet::new] from buffer [i]; [place] is the allocator.
    An error of [receive_begin] is returned as such. *)
Fixpoint new_loop (n : nat) (i buf_len : Z) (place : Z -> Z) (d : VirtioNetDevice)
    : outcome (VirtioNetDevice * vresult unit) :=
  match n with
  | O => Ret (d, VOk tt)
  | S n' =>
      if 2 ^ 16 <=? i then Panic else
      let rx_buf := mkRx (mkSlice (place i) (8 * (buf_len / 8))) 0 i in
      '(r, res) ← receive_begin (rb_buf rx_buf) (inner d);
      match res with
      | VErr e => Ret (set_inner r d, VErr e)
      | VOk token =>
          if negb (token =? u16 i) then Panic else
          new_loop n' (i + 1) buf_len place (set_rx (fupd (rx_buffers d) i (Some rx_buf)) (set_inner r d))
      end
  end.

(** [VirtIONet::new], wrapped by [VirtioNetDevice::new]. *)
Definition net_new (tr : Transport) (buf_len : Z) (place : Z -> Z) (dma : Z) : outcome (Z * vresult VirtioNetDevice) :=
  match raw_new tr dma with
  | (dma, VErr e) => Ret (dma, VErr e)
  | (dma, VOk r) =>
      '(d, res) ← new_loop (Z.to_nat SIZE) 0 buf_len place (mkDev r (fun _ => None) []);
      Ret (dma, match res with VErr e => VErr e | VOk _ => VOk d end)
  end.

Definition receive (d : VirtioNetDevice) : outcome (VirtioNetDevice * vresult RxBuffer) :=
  match poll_receive (inner d) with
  | None => Ret (d, VErr NotReady)
  | Some token =>
      if negb (idx_ok SIZE token) then Panic else
      match rx_buffers d token with
      | None => Ret (d, VErr WrongToken)
      | Some rx_buf =>
          let d := set_rx (fupd (rx_buffers d) token None) d in
          if negb (token =? rb_idx rx_buf) then Ret (d, VErr WrongToken) else
          '(r, res) ← receive_complete token (rb_buf rx_buf) (inner d);
          let d := set_inner r d in
          match res with
          | VErr e => Ret (d, VErr e)
          | VOk (_, pkt_len) => Ret (d, VOk (mkRx (rb_buf rx_buf) pkt_len (rb_idx rx_buf)))
          end
      end
  end.

Definition recycle_rx_buffer (rx_buf : RxBuffer) (d : VirtioNetDevice) : outcome (VirtioNetDevice * vresult unit) :=
  '(r, res) ← receive_begin (rb_buf rx_buf) (inner d);
  let d := set_inner r d in
  match res with
  | VErr e => Ret (d, VErr e)
  | VOk new_token =>
      if negb (idx_ok SIZE new_token) then Panic else
      match rx_buffers d new_token with
      | Some _ => Ret (d, VErr WrongToken)
      | None => Ret (set_rx (fupd (rx_buffers d) new_token (Some (mkRx (rb_buf rx_buf) (rb_packet_len rx_buf) new_token))) d, VOk tt)
      end
  end.

(** [RxBuffer::packet]: the bytes after the header; panics past the buffer. *)
Definition packet (rx_buf : RxBuffer) (hdr : Z) : outcome bslice :=
  if hdr + rb_packet_len rx_buf <=? b_len (rb_buf rx_buf)
  then Ret (mkSlice (b_ptr (rb_buf rx_buf) + hdr) (rb_packet_len rx_buf)) else Panic.

(** ** The kernel's device *)

(** [VirtioNetDevice::receive]: the memory the packet is copied from. *)
Definition device_receive (d : VirtioNetDevice) : outcome (VirtioNetDevice * option bslice) :=
  '(d, res) ← receive d;
  match res with
  | VOk rx_buf =>
      p ← packet rx_buf (hdr_size (inner d));
      '(d, res) ← recycle_rx_buffer rx_buf d;
      match res with
      | VOk _ => Ret (d, Some p)
      | VErr _ => Panic
      end
  | VErr _ => Ret (d, None)
  end.

(** [pending_tx.iter().position(..)] and [remove]. *)
Fixpoint take_pending (token : Z) (l : list (Z * bslice)) : option (bslice * list (Z * bslice)) :=
  match l with
  | [] => None
  | (t, b) :: r =>
      if t =? token then Some (b, r)
      else match take_pending token r with Some (b', r') => Some (b', (t, b) :: r') | None => None end
  end.

(** [None] when the fuel runs out. *)
Fixpoint drain_completed_tx (fuel : nat) (d : VirtioNetDevice) : option (outcome VirtioNetDevice) :=
  match poll_transmit (inner d) with
  | None => Some (Ret d)
  | Some token =>
      match fuel with
      | O => None
      | S fuel' =>
          match take_pending token (pending_tx d) with
          | None => drain_completed_tx fuel' d
          | Some (buf, rest) =>
              match transmit_complete token buf (inner d) with
              | Panic => Some Panic
              | Ret (r, _) => drain_completed_tx fuel' (set_pending rest (set_inner r d))
              end
          end
      end
  end.

(** [VirtioTxToken::consume]; [ptr] is where the frame buffer of header and
    [n] bytes was allocated. *)
Definition consume (fuel : nat) (ptr n : Z) (d : VirtioNetDevice) : option (outcome VirtioNetDevice) :=
  match drain_completed_tx fuel d with
  | None => None
  | Some Panic => Some Panic
  | Some (Ret d) =>
      let hdr_len := match snd (fill_buffer_header (inner d) (replicate 32 0)) with VOk h => h | VErr _ => 12 end in
      let buf := mkSlice ptr (hdr_len + n) in
      Some (match snd (fill_buffer_header (inner d) (replicate (Z.to_nat (hdr_len + n)) 0)) with
      | VErr _ => Panic
      | VOk _ =>
          '(r, res) ← transmit_begin buf (inner d);
          match res with
          | VOk token => Ret (set_pending (pending_tx d ++ [(token, buf)]) (set_inner r d))
          | VErr _ => Ret (set_inner r d)
          end
      end)
  end.

End Net.
