(* ===== verification/VirtioNetProps.v ===== *)
(** * What the virtio network driver guarantees

    Every receive buffer is posted except while its packet is copied out, and
    the frames the device may still read are exactly the pending ones. *)

From S2P Require Import Prelude Paging Virtqueue VirtqueueProps VirtioNet.

Section NetProps.
Variable SIZE : Z.
Hypothesis SIZE_OK : 0 < SIZE <= 2 ^ 15.

Lemma rep_range q σ n t l : vq_rep SIZE q σ n -> σ !! t = Some l -> idx_ok SIZE t = true.
Proof.
  intros (free & chains & HQ & _ & -> & _) Ht.
  apply (token_map_lookup _ _ _ _ _ _ HQ) in Ht as (c & Hc & <- & _).
  apply (vo_range _ _ _ _ _ HQ). apply elem_of_app. right.
  apply list_elem_of_In, in_concat. exists (ch_ids c). split; [by apply in_map, list_elem_of_In|].
  apply list_elem_of_In. eapply ch_token_in. pose proof (vo_chains _ _ _ _ HQ) as HC. rewrite Forall_forall in HC.
  by apply HC.
Qed.

Lemma rep_nonneg q σ n : vq_rep SIZE q σ n -> 0 <= n.
Proof. intros (free & chains & _ & _ & _ & ->). apply len_nonneg. Qed.

(** The rings the device has written, with everything else of the driver's. *)
Definition recv_sees (D : Z -> Descriptor) (fl idx : Z) (ring : Z -> Z * Z) (ev : Z) (d : VirtioNetDevice) : VirtioNetDevice :=
  set_inner (set_recv (device_writes D fl idx ring ev (recv_queue (inner d))) (inner d)) d.

Definition send_sees (D : Z -> Descriptor) (fl idx : Z) (ring : Z -> Z * Z) (ev : Z) (d : VirtioNetDevice) : VirtioNetDevice :=
  set_inner (set_send (device_writes D fl idx ring ev (send_queue (inner d))) (inner d)) d.

(** ** Reception *)

Definition rx_request (rb : RxBuffer) : request := [(rb_buf rb, DeviceToDriver)].

(** The posted buffers are the ones in [rx_buffers]. *)
Definition rx_inv (d : VirtioNetDevice) : Prop :=
  exists σ n, vq_rep SIZE (recv_queue (inner d)) σ n
  /\ (forall t, σ !! t = if idx_ok SIZE t then rx_request <$> rx_buffers d t else None)
  /\ forall t rb, rx_buffers d t = Some rb -> rb_idx rb = t /\ MIN_BUFFER_LEN <= b_len (rb_buf rb) < 2 ^ 32.

(** A request of one buffer takes one descriptor, in either mode. *)
Lemma add_one q σ n ins outs p :
  vq_rep SIZE q σ n -> 0 < n -> good_buf p -> InputOutputIter ins outs = [p] ->
  exists q' t, add SIZE 0 ins outs q = Ret (q', VOk t) /\ σ !! t = None
    /\ vq_rep SIZE q' (<[t := [p]]> σ) (n - 1) /\ dev_read SIZE q' t = view [p].
Proof.
  intros HR Hn Hb El. pose proof (add_refines SIZE q σ n 0 ins outs) as HA. cbn zeta in HA. rewrite El in HA.
  specialize (HA ltac:(lia) HR ltac:(constructor; [exact Hb|constructor]) ltac:(done)).
  assert (cost q [p] = 1) as Ec by (unfold cost; cbn; by rewrite andb_false_r). rewrite Ec in HA.
  rewrite bool_decide_eq_true_2 in HA by (change (len [p]) with 1; lia).
  destruct HA as (q' & t & ? & ? & ? & ? & _). eauto 10.
Qed.

Lemma add_one_full q σ n ins outs p :
  vq_rep SIZE q σ n -> n <= 0 -> good_buf p -> InputOutputIter ins outs = [p] ->
  add SIZE 0 ins outs q = Ret (q, VErr QueueFull).
Proof.
  intros HR Hn Hb El. pose proof (add_refines SIZE q σ n 0 ins outs) as HA. cbn zeta in HA. rewrite El in HA.
  specialize (HA ltac:(lia) HR ltac:(constructor; [exact Hb|constructor]) ltac:(done)).
  assert (cost q [p] = 1) as Ec by (unfold cost; cbn; by rewrite andb_false_r). rewrite Ec in HA.
  by rewrite bool_decide_eq_false_2 in HA by lia.
Qed.

(** Posting a receive buffer that is nowhere. *)
Lemma receive_begin_spec b r σ n :
  vq_rep SIZE (recv_queue r) σ n -> 0 < n -> MIN_BUFFER_LEN <= b_len b < 2 ^ 32 ->
  exists r' t, receive_begin SIZE b r = Ret (r', VOk t) /\ σ !! t = None
    /\ vq_rep SIZE (recv_queue r') (<[t := [(b, DeviceToDriver)]]> σ) (n - 1)
    /\ dev_read SIZE (recv_queue r') t = view [(b, DeviceToDriver)]
    /\ send_queue r' = send_queue r /\ legacy_header r' = legacy_header r.
Proof.
  intros HR Hn Hb. unfold receive_begin. rewrite (proj2 (Z.ltb_ge _ _)) by lia.
  destruct (add_one (recv_queue r) σ n [] [b] (b, DeviceToDriver)) as (q' & t & -> & H1 & H2 & H3); [done|done| |done|].
  { unfold MIN_BUFFER_LEN in Hb. split; [cbn; lia|done]. }
  cbn [mbind outcome_bind]. eexists _, t. split; [done|]. by destruct (should_notify q').
Qed.

(** The completion of a posted buffer. *)
Lemma receive_complete_spec t b r σ n id used :
  vq_rep SIZE (recv_queue r) σ n -> σ !! t = Some [(b, DeviceToDriver)] -> can_pop (recv_queue r) = true ->
  vq_used_ring (recv_queue r) (used_slot SIZE (recv_queue r)) = (id, used) -> u16 id = t ->
  exists r', receive_complete SIZE t b r
      = Ret (r', if used <? hdr_size r then VErr IoError else VOk (hdr_size r, used - hdr_size r))
    /\ vq_rep SIZE (recv_queue r') (delete t σ) (n + 1)
    /\ send_queue r' = send_queue r /\ legacy_header r' = legacy_header r.
Proof.
  intros HR Ht Hc Hu Hid. unfold receive_complete.
  pose proof (pop_refines SIZE (recv_queue r) σ n t [] [b]) as HA. cbn zeta in HA.
  specialize (HA ltac:(lia) HR Ht). rewrite Hu, Hc in HA. cbn [negb] in HA. rewrite Hid, Z.eqb_refl in HA. cbn [negb] in HA.
  destruct HA as (q' & -> & HR' & _). cbn [mbind outcome_bind]. eexists. split; [done|].
  assert (cost (recv_queue r) (InputOutputIter [] [b]) = 1) as Ec by (unfold cost; cbn; by rewrite andb_false_r).
  rewrite Ec in HR'. done.
Qed.

(** Reception.  With every buffer of [rx_buffers] posted and
    whatever the device has written: if it reports nothing new, nothing is
    returned and nothing changes; if it reports a posted buffer with a length
    that holds the header and fits the buffer, exactly the reported bytes
    after the header are delivered and the buffer is posted again, so that
    again all buffers are posted and the device may write exactly to it. *)
Theorem virtio_rx_receive d D fl idx ring ev :
  rx_inv d ->
  let d1 := recv_sees D fl idx ring ev d in
  let '(id, used) := ring (used_slot SIZE (recv_queue (inner d))) in
  (can_pop (recv_queue (inner d1)) = false -> device_receive SIZE d1 = Ret (d1, None) /\ rx_inv d1)
  /\ forall rb, can_pop (recv_queue (inner d1)) = true -> idx_ok SIZE (u16 id) = true ->
     rx_buffers d (u16 id) = Some rb -> hdr_size (inner d) <= used <= b_len (rb_buf rb) ->
     exists d' t rb', device_receive SIZE d1
       = Ret (d', Some (mkSlice (b_ptr (rb_buf rb) + hdr_size (inner d)) (used - hdr_size (inner d))))
     /\ rx_inv d' /\ rb_buf rb' = rb_buf rb
     /\ rx_buffers d' = fupd (fupd (rx_buffers d) (u16 id) None) t (Some rb')
     /\ dev_read SIZE (recv_queue (inner d')) t = view [(rb_buf rb, DeviceToDriver)]
     /\ pending_tx d' = pending_tx d /\ send_queue (inner d') = send_queue (inner d).
Proof.
  intros (σ & n & HR & Hσ & Hrx). cbn zeta. set (d1 := recv_sees D fl idx ring ev d).
  assert (vq_rep SIZE (recv_queue (inner d1)) σ n) as HR1 by (by apply vq_rep_device).
  destruct (ring (used_slot SIZE (recv_queue (inner d)))) as [id used] eqn:Eu. split.
  - intros Hc. unfold device_receive, receive, poll_receive, peek_used. rewrite Hc. split; [done|]. by exists σ, n.
  - intros rb Hc Hok Hb Hlen. set (t0 := u16 id) in *.
    assert (vq_used_ring (recv_queue (inner d1)) (used_slot SIZE (recv_queue (inner d1))) = (id, used)) as Eu1 by done.
    destruct (Hrx t0 rb Hb) as [Eidx Hblen].
    assert (σ !! t0 = Some [(rb_buf rb, DeviceToDriver)]) as Hσt by (by rewrite Hσ, Hok, Hb).
    unfold device_receive, receive, poll_receive, peek_used. rewrite Hc, Eu1. cbn [fst]. fold t0.
    rewrite Hok. cbn [negb]. change (rx_buffers d1) with (rx_buffers d). rewrite Hb. rewrite Eidx, Z.eqb_refl. cbn [negb].
    cbn [inner set_rx].
    destruct (receive_complete_spec t0 (rb_buf rb) (inner d1) σ n id used HR1 Hσt Hc Eu1 eq_refl) as (r' & -> & HR' & Es & El).
    change (hdr_size (inner d1)) with (hdr_size (inner d)).
    rewrite (proj2 (Z.ltb_ge _ _)) by lia. cbn [mbind outcome_bind].
    assert (hdr_size r' = hdr_size (inner d)) as Eh by (unfold hdr_size; by rewrite El).
    unfold packet. cbn [rb_packet_len rb_buf inner set_inner]. rewrite Eh.
    rewrite (proj2 (Z.leb_le _ _)) by lia. cbn [mbind outcome_bind].
    unfold recycle_rx_buffer. cbn [inner set_inner rb_buf].
    pose proof (rep_nonneg _ _ _ HR').
    destruct (receive_begin_spec (rb_buf rb) r' (delete t0 σ) (n + 1) HR') as (r2 & t & -> & Hfree & HR2 & Hdev & Es2 & El2);
      [pose proof (rep_nonneg _ _ _ HR); lia|done|].
    cbn [mbind outcome_bind rx_buffers set_inner set_rx].
    assert (idx_ok SIZE t = true) as Htok by (eapply rep_range; [exact HR2|]; by rewrite lookup_insert_eq).
    rewrite Htok. cbn [negb].
    assert (fupd (rx_buffers d) t0 None t = None) as Hnone.
    { unfold fupd. destruct (Z.eqb_spec t t0) as [->|Hne]; [done|]. rewrite lookup_delete_ne, Hσ, Htok in Hfree by done.
      by destruct (rx_buffers d t). }
    rewrite Hnone. cbn [mbind outcome_bind].
    eexists _, t, (mkRx (rb_buf rb) (used - hdr_size (inner d)) t). split; [done|]. split; [|split_and!; try done].
    + exists (<[t := [(rb_buf rb, DeviceToDriver)]]> (delete t0 σ)), (n + 1 - 1). split; [done|]. split.
      * intros t'. cbn. unfold fupd at 1. destruct (Z.eqb_spec t' t) as [->|Hne].
        { rewrite lookup_insert_eq, Htok. done. }
        rewrite lookup_insert_ne by done. unfold fupd. destruct (Z.eqb_spec t' t0) as [->|Hne'].
        { rewrite lookup_delete_eq. by destruct (idx_ok SIZE t0). }
        rewrite lookup_delete_ne by done. apply Hσ.
      * intros t' rb'. cbn. unfold fupd. destruct (Z.eqb_spec t' t) as [->|Hne].
        { intros [= <-]. done. }
        destruct (Z.eqb_spec t' t0); [done|]. apply Hrx.
    + cbn. by rewrite Es2, Es.
Qed.

(** ** Transmission *)

Definition tx_request (b : bslice) : request := [(b, DriverToDevice)].

(** The frames the device may read are the pending ones. *)
Definition tx_inv (d : VirtioNetDevice) (n : Z) : Prop :=
  exists σ, vq_rep SIZE (send_queue (inner d)) σ n
  /\ σ = list_to_map (map (fun p => (fst p, tx_request (snd p))) (pending_tx d))
  /\ NoDup (map fst (pending_tx d)).

Lemma tx_inv_device d n D fl idx ring ev : tx_inv d n -> tx_inv (send_sees D fl idx ring ev d) n.
Proof. intros (σ & HR & HX). exists σ. split; [by apply vq_rep_device|exact HX]. Qed.

(** The used ring holds the tokens [ts], and nothing after them. *)
Fixpoint completes (q : VirtQueue) (ts : list Z) : Prop :=
  match ts with
  | [] => can_pop q = false
  | t :: r => can_pop q = true /\ u16 (fst (vq_used_ring q (used_slot SIZE q))) = t
      /\ completes (set_last_used_idx (u16 (last_used_idx q + 1)) q) r
  end.

Lemma completes_ext q q' ts :
  vq_used_idx q' = vq_used_idx q -> vq_used_ring q' = vq_used_ring q -> last_used_idx q' = last_used_idx q ->
  completes q ts -> completes q' ts.
Proof.
  revert q q'. induction ts as [|t ts IH]; intros q q' E1 E2 E3; cbn; unfold can_pop, used_slot.
  - by rewrite E1, E3.
  - rewrite E1, E2, E3. intros (H1 & H2 & H3). split_and!; [done..|]. eapply IH; [| | |exact H3]; cbn; congruence.
Qed.

Lemma take_pending_spec t l b :
  NoDup (map fst l) -> (t, b) ∈ l ->
  exists l', take_pending t l = Some (b, l') /\ l ≡ₚ (t, b) :: l'
    /\ l' = List.filter (fun p => negb (fst p =? t)) l.
Proof.
  induction l as [|[t' b'] l IH]; intros Hnd Hin; [by apply elem_of_nil in Hin|].
  cbn in Hnd. apply NoDup_cons in Hnd as [Hni Hnd]. cbn [take_pending List.filter fst].
  assert (forall b, (t', b) ∉ l) as Hno.
  { intros b0 Hb0. apply Hni. apply list_elem_of_In, in_map_iff. exists (t', b0). split; [done|]. by apply list_elem_of_In. }
  destruct (Z.eqb_spec t' t) as [->|Hne]; cbn [negb].
  - apply elem_of_cons in Hin as [[= <-]|Hin]; [|by apply Hno in Hin].
    exists l. split_and!; [done..|]. symmetry. apply forallb_filter_id, forallb_forall. intros [t2 b2] Hp. cbn.
    apply negb_true_iff, Z.eqb_neq. intros ->. apply (Hno b2). by apply list_elem_of_In.
  - apply elem_of_cons in Hin as [[= -> ->]|Hin]; [done|].
    destruct (IH Hnd Hin) as (l' & -> & HP & EF). exists ((t', b') :: l'). split_and!; [done| |by rewrite EF].
    rewrite HP at 1. apply perm_swap.
Qed.

Lemma tx_lookup d n t b :
  tx_inv d n -> (t, b) ∈ pending_tx d ->
  exists σ, vq_rep SIZE (send_queue (inner d)) σ n /\ σ !! t = Some (tx_request b)
    /\ σ = list_to_map (map (fun p => (fst p, tx_request (snd p))) (pending_tx d)).
Proof.
  intros (σ & HR & -> & Hnd) Hin. eexists. split; [done|]. split; [|done].
  apply elem_of_list_to_map.
  - rewrite <- list_fmap_compose. exact Hnd.
  - apply list_elem_of_In, in_map_iff. exists (t, b). split; [done|]. by apply list_elem_of_In.
Qed.

(** The drain loop stops once it has reaped what the device completed. *)
Lemma drain_spec ts d n :
  tx_inv d n -> NoDup ts -> (forall t, t ∈ ts -> t ∈ map fst (pending_tx d)) -> completes (send_queue (inner d)) ts ->
  exists d', drain_completed_tx SIZE (length ts) d = Some (Ret d') /\ tx_inv d' (n + len ts)
    /\ pending_tx d' = List.filter (fun p => bool_decide (fst p ∉ ts)) (pending_tx d)
    /\ completes (send_queue (inner d')) []
    /\ rx_buffers d' = rx_buffers d /\ recv_queue (inner d') = recv_queue (inner d)
    /\ hdr_size (inner d') = hdr_size (inner d).
Proof.
  revert d n. induction ts as [|t ts IH]; intros d n HT Hnd Hin Hcomp.
  { exists d. cbn in Hcomp. cbn [drain_completed_tx length]. unfold poll_transmit, peek_used. rewrite Hcomp.
    split_and!; try done; [by rewrite Z.add_0_r|]. symmetry. apply forallb_filter_id, forallb_forall. intros p _.
    apply bool_decide_eq_true_2. by intros ?%elem_of_nil. }
  apply NoDup_cons in Hnd as [Hni Hnd]. destruct Hcomp as (Hc & Hid & Hcomp).
  assert (exists b, (t, b) ∈ pending_tx d) as [b Hb].
  { specialize (Hin t ltac:(by left)). apply list_elem_of_In, in_map_iff in Hin as ([t' b] & E & Hp). cbn in E. subst t'.
    exists b. by apply list_elem_of_In. }
  destruct (tx_lookup d n t b HT Hb) as (σ & HR & Hσt & Eσ). destruct HT as (_ & _ & _ & Hndp).
  destruct (take_pending_spec t (pending_tx d) b Hndp Hb) as (l' & Etake & HPl & El').
  cbn [drain_completed_tx length]. unfold poll_transmit, peek_used. rewrite Hc, Hid, Etake.
  unfold transmit_complete.
  pose proof (pop_refines SIZE (send_queue (inner d)) σ n t [b] []) as HA. cbn zeta in HA.
  specialize (HA ltac:(lia) HR Hσt).
  destruct (vq_used_ring (send_queue (inner d)) (used_slot SIZE (send_queue (inner d)))) as [id used] eqn:Eu.
  cbn [fst] in Hid. rewrite Hc in HA. cbn [negb] in HA. rewrite Hid, Z.eqb_refl in HA. cbn [negb] in HA.
  destruct HA as (q' & Epop & HR' & Elast & Eui & Eur).
  assert (cost (send_queue (inner d)) (InputOutputIter [b] []) = 1) as Ec by (unfold cost; cbn; by rewrite andb_false_r).
  rewrite Ec in HR'. rewrite Epop. cbn [mbind outcome_bind].
  set (d1 := set_pending l' _).
  assert (tx_inv d1 (n + 1)) as HT1.
  { exists (delete t σ). split; [done|]. subst d1. cbn. split.
    - rewrite Eσ. rewrite (list_to_map_proper _ (map (fun p => (fst p, tx_request (snd p))) ((t, b) :: l'))).
      + cbn. rewrite delete_insert_id; [done|]. apply not_elem_of_list_to_map_1. rewrite <- list_fmap_compose.
        rewrite (Permutation_map fst HPl) in Hndp. cbn in Hndp. by apply NoDup_cons in Hndp as [? _].
      + rewrite <- list_fmap_compose. exact Hndp.
      + by apply Permutation_map.
    - rewrite (Permutation_map fst HPl) in Hndp. cbn in Hndp. by apply NoDup_cons in Hndp as [_ ?]. }
  destruct (IH d1 (n + 1) HT1 Hnd) as (d' & Ed & HT' & Ep & Hc' & Erx & Erecv & Eh).
  - intros t' Ht'. specialize (Hin t' ltac:(by right)). rewrite (Permutation_map fst HPl) in Hin. cbn in Hin.
    apply elem_of_cons in Hin as [->|?]; [done|done].
  - eapply completes_ext; [| | |exact Hcomp]; cbn; congruence.
  - exists d'. split; [exact Ed|]. split; [replace (n + len (t :: ts)) with (n + 1 + len ts) by (rewrite len_cons; lia); exact HT'|].
    split_and!; [|done..]. rewrite Ep. subst d1. cbn. rewrite El'. clear.
    induction (pending_tx d) as [|[t' b'] l IH]; [done|]. cbn. destruct (Z.eqb_spec t' t) as [->|Hne]; cbn.
    + rewrite IH. rewrite bool_decide_eq_false_2; [done|]. intros Hn. apply Hn. by left.
    + rewrite IH. rewrite (bool_decide_ext (t' ∉ t :: ts) (t' ∉ ts)); [done|]. rewrite not_elem_of_cons. tauto.
Qed.

Lemma fill_small r : snd (fill_buffer_header r (replicate 32 0)) = VOk (hdr_size r).
Proof. unfold fill_buffer_header, hdr_size. by destruct (legacy_header r). Qed.

Lemma fill_own r k : hdr_size r <= k -> snd (fill_buffer_header r (replicate (Z.to_nat k) 0)) = VOk (hdr_size r).
Proof.
  intros Hk. unfold fill_buffer_header, len. rewrite length_replicate.
  assert (0 < hdr_size r) by (unfold hdr_size; by case_match). by rewrite (proj2 (Z.ltb_ge _ _)) by lia.
Qed.

(** One frame offered to the queue. *)
Lemma enqueue d n frame :
  tx_inv d n -> hdr_size (inner d) <= b_len frame < 2 ^ 32 ->
  exists d', ('(r, res) ← transmit_begin SIZE frame (inner d);
      match res with
      | VOk token => Ret (set_pending (pending_tx d ++ [(token, frame)]) (set_inner r d))
      | VErr _ => Ret (set_inner r d)
      end) = Ret d'
  /\ rx_buffers d' = rx_buffers d /\ recv_queue (inner d') = recv_queue (inner d)
  /\ if bool_decide (0 < n)
     then exists t, t ∉ map fst (pending_tx d) /\ pending_tx d' = pending_tx d ++ [(t, frame)] /\ tx_inv d' (n - 1)
       /\ dev_read SIZE (send_queue (inner d')) t = view (tx_request frame)
     else pending_tx d' = pending_tx d /\ tx_inv d' n.
Proof.
  intros (σ & HR & Eσ & Hnd) Hlen. unfold transmit_begin. rewrite (proj2 (Z.ltb_ge _ _)) by lia.
  assert (0 < hdr_size (inner d)) as Hh by (unfold hdr_size; by case_match).
  assert (good_buf (frame, DriverToDevice)) as Hg by (split; [cbn; lia|done]).
  case_bool_decide as Hn.
  - destruct (add_one (send_queue (inner d)) σ n [frame] [] _ HR Hn Hg eq_refl) as (q' & t & -> & Hfree & HR' & Hdev).
    cbn [mbind outcome_bind]. set (r := if should_notify q' then _ else _).
    assert (send_queue r = q' /\ recv_queue r = recv_queue (inner d)) as [Es Er] by (subst r; by case_match).
    assert (t ∉ map fst (pending_tx d)) as Hni.
    { rewrite Eσ in Hfree. apply not_elem_of_list_to_map_2 in Hfree. by rewrite <- list_fmap_compose in Hfree. }
    eexists. split; [done|]. split_and!; [done|exact Er|]. exists t. cbn. rewrite Es. split_and!; [done|done| |exact Hdev].
    assert (NoDup (map fst (pending_tx d ++ [(t, frame)]))) as Hnd'
      by (rewrite map_app; cbn; rewrite <- Permutation_cons_append; by constructor).
    exists (<[t := tx_request frame]> σ). cbn. rewrite Es. split_and!; [done| |done].
    rewrite (list_to_map_proper _ (map (fun p => (fst p, tx_request (snd p))) ((t, frame) :: pending_tx d))).
    + cbn. by rewrite Eσ.
    + rewrite <- list_fmap_compose. exact Hnd'.
    + apply Permutation_map. by rewrite <- Permutation_cons_append.
  - rewrite (add_one_full (send_queue (inner d)) σ n [frame] [] _ HR) by (done || lia).
    cbn [mbind outcome_bind]. eexists. split; [done|]. split_and!; [done..|]. by exists σ.
Qed.

(** C19.  Transmission.  After the device completed the frames [ts] (any
    outstanding ones, in any order), a send reaps exactly those, after one
    round per completion, then queues the new frame with a descriptor of its
    own from which the device reads exactly the frame, or drops it when no
    descriptor is free; no frame is forgotten while the device may read it. *)
Theorem virtio_tx_consume d n ts ptr m :
  tx_inv d n -> NoDup ts -> (forall t, t ∈ ts -> t ∈ map fst (pending_tx d)) ->
  completes (send_queue (inner d)) ts -> 0 <= m -> hdr_size (inner d) + m < 2 ^ 32 ->
  let frame := mkSlice ptr (hdr_size (inner d) + m) in
  let left := List.filter (fun p => bool_decide (fst p ∉ ts)) (pending_tx d) in
  exists d', consume SIZE (length ts) ptr m d = Some (Ret d')
  /\ rx_buffers d' = rx_buffers d /\ recv_queue (inner d') = recv_queue (inner d)
  /\ if bool_decide (0 < n + len ts)
     then exists t, t ∉ map fst left /\ pending_tx d' = left ++ [(t, frame)] /\ tx_inv d' (n + len ts - 1)
       /\ dev_read SIZE (send_queue (inner d')) t = view (tx_request frame)
     else pending_tx d' = left /\ tx_inv d' (n + len ts).
Proof.
  intros HT Hnd Hin Hc Hm Hlen. cbn zeta.
  destruct (drain_spec ts d n HT Hnd Hin Hc) as (d1 & Ed & HT1 & Ep & _ & Erx & Erq & Eh).
  set (frame := mkSlice _ _). set (left := List.filter _ _) in *.
  unfold consume. rewrite Ed. rewrite fill_small, Eh, fill_own by lia. fold frame.
  destruct (enqueue d1 (n + len ts) frame HT1) as (d' & -> & E1 & E2 & HX); [rewrite Eh; cbn; lia|].
  exists d'. split; [done|]. split; [congruence|]. split; [congruence|]. rewrite Ep in HX. exact HX.
Qed.

(** ** Initialisation *)

(** The receive buffers posted so far: [0 .. i-1], under their own index. *)
Lemma new_loop_spec place buf_len k i d chains :
  MIN_BUFFER_LEN <= 8 * (buf_len / 8) < 2 ^ 32 -> i + Z.of_nat k = SIZE -> 0 <= i ->
  vq_ok SIZE (recv_queue (inner d)) (seqZ i (SIZE - i)) chains ->
  Forall (fun c => len (ch_ids c) = cost (recv_queue (inner d)) (ch_req c)) chains ->
  (forall t, token_map chains !! t = if (0 <=? t) && (t <? i) then rx_request <$> rx_buffers d t else None) ->
  (forall t, 0 <= t < i -> rx_buffers d t = Some (mkRx (mkSlice (place t) (8 * (buf_len / 8))) 0 t)) ->
  (forall t, ~ 0 <= t < i -> rx_buffers d t = None) ->
  exists d', new_loop SIZE k i buf_len place d = Ret (d', VOk tt) /\ rx_inv d'
    /\ pending_tx d' = pending_tx d /\ send_queue (inner d') = send_queue (inner d)
    /\ forall t, 0 <= t < SIZE -> rx_buffers d' t = Some (mkRx (mkSlice (place t) (8 * (buf_len / 8))) 0 t).
Proof.
  intros Hb. revert i d chains. induction k as [|k IH]; intros i d chains Hi Hi0 HQ Hcost Htok Hpost Hnone.
  { assert (i = SIZE) as -> by lia. exists d. split; [done|]. split_and!; [|done|done|done].
    exists (token_map chains), 0. split; [|split].
    - exists (seqZ SIZE (SIZE - SIZE)), chains. split_and!; [done..|]. by rewrite Z.sub_diag.
    - exact Htok.
    - intros t rb Ht. destruct (decide (0 <= t < SIZE)) as [Hr|Hr]; [|by rewrite Hnone in Ht].
      rewrite Hpost in Ht by done. by injection Ht as <-. }
  cbn [new_loop]. rewrite (proj2 (Z.leb_gt _ _)) by lia. cbn [rb_buf].
  set (b := mkSlice (place i) (8 * (buf_len / 8))). set (q := recv_queue (inner d)) in *.
  unfold receive_begin. change (b_len b) with (8 * (buf_len / 8)). rewrite (proj2 (Z.ltb_ge _ _)) by lia. fold q.
  pose proof (add_spec SIZE q (seqZ i (SIZE - i)) chains 0 [] [b]) as HA. cbn zeta in HA.
  change (InputOutputIter [] [b]) with [(b, DeviceToDriver)] in HA.
  specialize (HA ltac:(lia) HQ). assert (good_buf (b, DeviceToDriver)) as Hg.
  { unfold MIN_BUFFER_LEN in Hb. split; [cbn; lia|done]. }
  specialize (HA ltac:(by constructor) ltac:(done)).
  assert (forall q, cost q [(b, DeviceToDriver)] = 1) as Ec by (intros q0; unfold cost; cbn; by rewrite andb_false_r).
  rewrite Ec, bool_decide_eq_true_2 in HA by (unfold len; rewrite length_seqZ; cbn; lia).
  destruct HA as (q' & ids & free' & Ef & El & E & HQ' & _ & _ & _ & Eind).
  destruct ids as [|x [|y ids]]; [done| |rewrite !len_cons in El; pose proof (len_nonneg ids); lia].
  rewrite seqZ_cons in Ef by lia. injection Ef as <- <-. cbn [hd] in E, HQ'. rewrite E. cbn [mbind outcome_bind].
  set (r := if should_notify q' then _ else _).
  assert (recv_queue r = q' /\ send_queue r = send_queue (inner d)) as [Er Es] by (subst r; by case_match).
  assert (u16 i = i) as -> by (apply Z.mod_small; lia). rewrite Z.eqb_refl. cbn [negb].
  edestruct (IH (i + 1) (set_rx (fupd (rx_buffers d) i (Some (mkRx b 0 i))) (set_inner r d)))
    as (d' & Ed & Hrx & E1 & E2 & E3); cbn [inner set_rx set_inner rx_buffers pending_tx]; [lia|lia|rewrite Er| | | | |].
  - replace (SIZE - (i + 1)) with (Z.pred (SIZE - i)) by lia. exact HQ'.
  - rewrite Er. constructor; [by rewrite Ec|]. eapply Forall_impl; [exact Hcost|]. intros c ->. unfold cost. by rewrite Eind.
  - intros t. change (token_map (_ :: chains)) with (<[i := [(b, DeviceToDriver)]]> (token_map chains)).
    unfold fupd. destruct (Z.eqb_spec t i) as [->|Hne].
    + rewrite lookup_insert_eq, (proj2 (Z.leb_le _ _)), (proj2 (Z.ltb_lt _ _)) by lia. done.
    + rewrite lookup_insert_ne, Htok by done. by replace (t <? i + 1) with (t <? i) by (apply eq_true_iff_eq; rewrite !Z.ltb_lt; lia).
  - intros t Ht. unfold fupd. destruct (Z.eqb_spec t i) as [->|Hne]; [done|]. apply Hpost. lia.
  - intros t Ht. unfold fupd. destruct (Z.eqb_spec t i) as [->|Hne]; [lia|]. apply Hnone. lia.
  - exists d'. split; [exact Ed|]. split_and!; [done|done|by rewrite E2|done].
Qed.

Lemma net_new_spec tr buf_len place dma dma' r :
  MIN_BUFFER_LEN <= 8 * (buf_len / 8) < 2 ^ 32 -> raw_new SIZE tr dma = (dma', VOk r) ->
  exists d, net_new SIZE tr buf_len place dma = Ret (dma', VOk d) /\ rx_inv d /\ tx_inv d SIZE /\ pending_tx d = []
    /\ forall i, 0 <= i < SIZE -> rx_buffers d i = Some (mkRx (mkSlice (place i) (8 * (buf_len / 8))) 0 i).
Proof.
  intros Hb Eraw. unfold net_new. rewrite Eraw. unfold raw_new in Eraw. destruct (read_config tr); [|done]. cbn zeta in Eraw.
  destruct (vq_new _ _ _ _ QUEUE_TRANSMIT _ _ _) as [dma1 [[sq ?]|]] eqn:ES; [|done].
  destruct (vq_new _ _ _ _ QUEUE_RECEIVE _ _ _) as [dma2 [[rq ?]|]] eqn:ER; [|done].
  injection Eraw as <- <-. apply new_ok in ER; [|lia]. apply new_rep in ES; [|lia].
  match goal with |- context [new_loop _ _ _ _ _ ?d0] =>
    destruct (new_loop_spec place buf_len (Z.to_nat SIZE) 0 d0 [] Hb) as (d & -> & Hrx & E1 & E2 & E3) end.
  - lia.
  - lia.
  - cbn [inner recv_queue]. rewrite Z.sub_0_r. exact ER.
  - by constructor.
  - intros t. by destruct (_ && _) eqn:?; [lia|].
  - intros t Ht. lia.
  - done.
  - exists d. split; [done|]. split_and!; [done| |done|done]. exists ∅. rewrite E1, E2. split_and!; [done|done|constructor].
Qed.

(** Initialisation.  When the transport gives the driver its queues, all
    [SIZE] receive buffers are posted to the device, each under its own index
    and never by way of a panic, and every transmit descriptor is free; when
    it does not, the error is the transport's. *)
Theorem virtio_net_new tr buf_len place dma :
  MIN_BUFFER_LEN <= 8 * (buf_len / 8) < 2 ^ 32 ->
  match raw_new SIZE tr dma with
  | (dma', VErr e) => net_new SIZE tr buf_len place dma = Ret (dma', VErr e)
  | (dma', VOk _) =>
      exists d, net_new SIZE tr buf_len place dma = Ret (dma', VOk d) /\ rx_inv d /\ tx_inv d SIZE
      /\ pending_tx d = []
      /\ forall i, 0 <= i < SIZE -> rx_buffers d i = Some (mkRx (mkSlice (place i) (8 * (buf_len / 8))) 0 i)
  end.
Proof.
  intros Hb. destruct (raw_new SIZE tr dma) as [dma' [r|e]] eqn:Eraw.
  - by apply (net_new_spec tr buf_len place dma dma' r).
  - unfold net_new. by rewrite Eraw.
Qed.
End NetProps.
