(* ===== verification/VirtioDemo.v ===== *)
(** * A virtio network device at work

    A driver with queues of four descriptors, brought up on a transport that
    offers indirect descriptors, event indices and version 1; the theorems of
    [VirtqueueProps] and [VirtioNetProps] at its states. *)

From S2P Require Import Prelude Paging Virtqueue VirtqueueProps VirtioNet VirtioNetProps.

Definition demo_tr : Transport :=
  mkTransport (2 ^ 28 + 2 ^ 29 + 2 ^ 32) (fun _ => false) (fun _ => 256) false (VOk tt).
Definition demo_place (i : Z) : Z := 0x200000 + 0x1000 * i.

(** ** The queue *)

Definition demo_unset : VirtQueue :=
  mkVq (fun _ => zero_desc) 0 0 (fun _ => 0) 0 0 0 (fun _ => (0, 0)) 0 0 0 0 (fun _ => zero_desc) 0 0 false false (fun _ => None).
Definition demo_q0 : VirtQueue :=
  match vq_new 4 false 256 false 0 false true 0x100000 with
  | (_, VOk (q, _)) => q
  | _ => demo_unset
  end.
Definition demo_in : bslice := mkSlice 0x300000 16.
Definition demo_out : bslice := mkSlice 0x300800 512.
(** One request of two buffers is out. *)
Definition demo_q1 : VirtQueue :=
  match add 4 0 [demo_in] [demo_out] demo_q0 with Ret (q, _) => q | Panic => demo_q0 end.

Lemma demo_q1_rep : vq_rep 4 demo_q1 {[ 0 := InputOutputIter [demo_in] [demo_out] ]} 2.
Proof.
  assert (vq_rep 4 demo_q0 ∅ 4) as H0 by (eapply (new_rep 4 false 256 false 0 false true 0x100000); [lia|vm_compute; reflexivity]).
  pose proof (add_refines 4 demo_q0 ∅ 4 0 [demo_in] [demo_out] ltac:(lia) H0) as HA. cbn zeta in HA.
  assert (exists q, add 4 0 [demo_in] [demo_out] demo_q0 = Ret (q, VOk 0)) as [q E] by (eexists; vm_compute; reflexivity).
  unfold demo_q1. rewrite E in *. destruct HA as (q' & t & E' & _ & HR & _).
  - repeat constructor; done.
  - done.
  - injection E' as <- <-. exact HR.
Qed.

(** The device reports the request with seven bytes written, having erased
    its copy of the descriptors. *)
Lemma virtqueue_refines_map_witness :
  exists q', pop_used 4 0 [demo_in] [demo_out] (device_writes (fun _ => zero_desc) 0 1 (fun _ => (0, 7)) 0 demo_q1) = Ret (q', VOk 7)
    /\ vq_rep 4 q' (delete 0 {[ 0 := InputOutputIter [demo_in] [demo_out] ]}) 4.
Proof.
  destruct (virtqueue_refines_map 4 demo_q1 _ 2 ltac:(lia) demo_q1_rep) as [_ HP].
  destruct (HP (fun _ => zero_desc) 0 1 (fun _ => (0, 7)) 0 0 [demo_in] [demo_out]) as (q' & E & HR & _); [reflexivity|].
  exists q'. split; [exact E|exact HR].
Defined.

(** Queues of 64, as the kernel uses them. *)
Lemma legacy_layout_exact_witness :
  exists lay, allocate_legacy 64 0x100000 = (0x102000, VOk lay) /\ driver_area_paddr lay = 0x100000 + 1024
    /\ device_area_paddr lay + 6 + 512 <= 0x102000.
Proof.
  eexists. split; [vm_compute; reflexivity|].
  edestruct (legacy_layout_exact 64 6 0x100000 0x102000) as (H1 & H2 & H3 & H4);
    [reflexivity|lia|lia|reflexivity|vm_compute; reflexivity|]. split; [exact H2|exact H4].
Defined.

(** ** The driver *)
Lemma virtio_net_new_witness :
  exists d, net_new 4 demo_tr 2048 demo_place 0x100000 = Ret (0x104000, VOk d) /\ rx_inv 4 d /\ tx_inv 4 d 4
    /\ pending_tx d = []
    /\ forall i, 0 <= i < 4 -> rx_buffers d i = Some (mkRx (mkSlice (demo_place i) 2048) 0 i).
Proof. exact (virtio_net_new 4 ltac:(lia) demo_tr 2048 demo_place 0x100000 ltac:(done)). Defined.

Definition demo_dev : VirtioNetDevice :=
  match net_new 4 demo_tr 2048 demo_place 0x100000 with
  | Ret (_, VOk d) => d
  | _ => mkDev (mkRaw demo_unset demo_unset false []) (fun _ => None) []
  end.
Lemma demo_dev_ok :
  rx_inv 4 demo_dev /\ tx_inv 4 demo_dev 4
  /\ forall i, 0 <= i < 4 -> rx_buffers demo_dev i = Some (mkRx (mkSlice (demo_place i) 2048) 0 i).
Proof.
  assert (exists r, raw_new 4 demo_tr 0x100000 = (0x104000, VOk r)) as [r Er] by (eexists; vm_compute; reflexivity).
  destruct (net_new_spec 4 ltac:(lia) demo_tr 2048 demo_place 0x100000 _ r ltac:(done) Er)
    as (d & E & H1 & H2 & _ & H3). assert (demo_dev = d) as -> by (unfold demo_dev; rewrite E; reflexivity). exact (conj H1 (conj H2 H3)).
Qed.

(** The device fills buffer 2 with a frame of 100 bytes. *)
Lemma virtio_rx_receive_witness :
  exists d' t rb', device_receive 4 (recv_sees (fun _ => zero_desc) 0 1 (fun _ => (2, 112)) 0 demo_dev)
      = Ret (d', Some (mkSlice (demo_place 2 + 12) 100))
    /\ rx_inv 4 d' /\ rb_buf rb' = mkSlice (demo_place 2) 2048
    /\ rx_buffers d' = fupd (fupd (rx_buffers demo_dev) 2 None) t (Some rb').
Proof.
  destruct (virtio_rx_receive 4 ltac:(lia) demo_dev (fun _ => zero_desc) 0 1 (fun _ => (2, 112)) 0 (proj1 demo_dev_ok)) as [_ HR].
  destruct (HR (mkRx (mkSlice (demo_place 2) 2048) 0 2)) as (d' & t & rb' & E & H1 & H2 & H3 & _).
  - vm_compute. reflexivity.
  - reflexivity.
  - apply (proj2 (proj2 demo_dev_ok)). lia.
  - assert (hdr_size (inner demo_dev) = 12) as -> by (vm_compute; reflexivity). cbn. lia.
  - exists d', t, rb'. split; [exact E|]. split; [exact H1|]. split; [exact H2|exact H3].
Defined.

(** Two frames sent; the device reports the second. *)
Definition demo_frame (i : Z) : bslice := mkSlice (0x400000 + 0x1000 * i) 76.
Definition demo_send (i : Z) (d : VirtioNetDevice) : VirtioNetDevice :=
  match '(r, res) ← transmit_begin 4 (demo_frame i) (inner d);
        match res with
        | VOk token => Ret (set_pending (pending_tx d ++ [(token, demo_frame i)]) (set_inner r d))
        | VErr _ => Ret (set_inner r d)
        end with
  | Ret d => d
  | Panic => d
  end.
Definition demo_sent : VirtioNetDevice :=
  send_sees (fun _ => zero_desc) 0 1 (fun _ => (1, 0)) 0 (demo_send 1 (demo_send 0 demo_dev)).

Lemma demo_send_ok i d n : hdr_size (inner d) = 12 -> 0 < n -> tx_inv 4 d n -> tx_inv 4 (demo_send i d) (n - 1).
Proof.
  intros Hh Hn HT. destruct (enqueue 4 ltac:(lia) d n (demo_frame i) HT) as (d' & E & _ & _ & HX); [rewrite Hh; cbn; lia|].
  unfold demo_send. rewrite E. rewrite bool_decide_eq_true_2 in HX by done. by destruct HX as (t & _ & _ & ? & _).
Qed.
Lemma demo_sent_ok : tx_inv 4 demo_sent 2.
Proof.
  apply tx_inv_device.
  apply (demo_send_ok 1 _ 3); [vm_compute; reflexivity|lia|].
  apply (demo_send_ok 0 _ 4); [vm_compute; reflexivity|lia|]. apply demo_dev_ok.
Qed.

Lemma virtio_tx_consume_witness :
  exists d' t, consume 4 1 0x500000 64 demo_sent = Some (Ret d')
    /\ pending_tx d' = [(0, demo_frame 0); (t, mkSlice 0x500000 76)] /\ tx_inv 4 d' 2
    /\ dev_read 4 (send_queue (inner d')) t = [(0x500000, 76, false)].
Proof.
  assert (hdr_size (inner demo_sent) = 12) as Eh by (vm_compute; reflexivity).
  assert (pending_tx demo_sent = [(0, demo_frame 0); (1, demo_frame 1)]) as Ep by (vm_compute; reflexivity).
  destruct (virtio_tx_consume 4 ltac:(lia) demo_sent 2 [1] 0x500000 64 demo_sent_ok) as (d' & E & _ & _ & t & _ & H2 & H3 & H4).
  - apply NoDup_singleton.
  - intros t ->%list_elem_of_singleton. rewrite Ep. right. left.
  - split; [vm_compute; reflexivity|]. split; vm_compute; reflexivity.
  - lia.
  - rewrite Eh. lia.
  - exists d', t. split; [exact E|]. rewrite Ep, Eh in H2. split; [exact H2|]. rewrite Eh in H4. split; [exact H3|exact H4].
Defined.
