(* ===== verification/Pci.v ===== *)
(** * The PCI bus

    Models [src/virtio-drivers-patched/src/transport/pci/bus.rs] (enumeration,
    status and command registers, BAR sizing, capability lists), with both ways
    to reach configuration space: the memory-mapped windows of the crate
    ([MmioCam]) and the I/O ports of [src/src/net/pci_io.rs] ([PortIoCam]).  The
    bus itself is hardware: [Ports] and [Window] are its interfaces. *)

From S2P Require Import Prelude.

Definition INVALID_READ : Z := 0xffffffff.
Definition MAX_DEVICES : Z := 32.
Definition MAX_FUNCTIONS : Z := 8.
Definition STATUS_COMMAND_OFFSET : Z := 0x04.
Definition BAR0_OFFSET : Z := 0x10.
Definition PCI_CAP_ID_VNDR : Z := 0x09.

Record DeviceFunction := mkDf { df_bus : Z; df_device : Z; df_function : Z }.
#[export] Instance DeviceFunction_eq_dec : EqDecision DeviceFunction.
Proof. solve_decision. Defined.
#[export] Instance DeviceFunction_countable : Countable DeviceFunction.
Proof.
  apply (inj_countable' (fun d => (df_bus d, df_device d, df_function d)) (fun '(b, d, f) => mkDf b d f)). by intros [].
Defined.
Definition valid (df : DeviceFunction) : bool := (df_device df <? 32) && (df_function df <? 8).

(** [Status::all()], [Command::all()] and the bits the kernel uses. *)
Definition STATUS_ALL : Z := 0xF9B8.
Definition COMMAND_ALL : Z := 0x077F.
Definition CAPABILITIES_LIST : Z := 0x10.
Definition IO_SPACE : Z := 1.
Definition MEMORY_SPACE : Z := 2.
Definition BUS_MASTER : Z := 4.

(** ** Reaching configuration space *)

(** Registers are words at byte offsets; an access may change the hardware. *)
Class ConfigurationAccess (C : Type) := {
  read_word : DeviceFunction -> Z -> C -> outcome (C * Z);
  write_word : DeviceFunction -> Z -> Z -> C -> outcome C;
}.

(** The 32-bit port instructions. *)
Class Ports (P : Type) := {
  outl : Z -> Z -> P -> P;
  inl_ : Z -> P -> P * Z;
}.
Definition PCI_CONFIG_ADDRESS : Z := 0xCF8.
Definition PCI_CONFIG_DATA : Z := 0xCFC.
Definition config_address (df : DeviceFunction) (register_offset : Z) : Z :=
  Z.lor (Z.lor (Z.lor (Z.lor (Z.shiftl 1 31) (Z.shiftl (df_bus df) 16)) (Z.shiftl (df_device df) 11))
    (Z.shiftl (df_function df) 8)) (Z.land register_offset 0xFC).
Record PortIoCam (P : Type) := mkPortIo { io_ports : P }.
Arguments mkPortIo {P} io_ports.
Arguments io_ports {P} p.
Definition port_read_word {P} `{Ports P} (df : DeviceFunction) (register_offset : Z) (c : PortIoCam P)
    : outcome (PortIoCam P * Z) :=
  let '(p, v) := inl_ PCI_CONFIG_DATA (outl PCI_CONFIG_ADDRESS (config_address df register_offset) (io_ports c)) in
  Ret (mkPortIo p, v).
Definition port_write_word {P} `{Ports P} (df : DeviceFunction) (register_offset data : Z) (c : PortIoCam P)
    : outcome (PortIoCam P) :=
  Ret (mkPortIo (outl PCI_CONFIG_DATA data (outl PCI_CONFIG_ADDRESS (config_address df register_offset) (io_ports c)))).
#[export] Instance port_io_cam {P} `{Ports P} : ConfigurationAccess (PortIoCam P) :=
  { read_word := port_read_word; write_word := port_write_word }.

(** The memory-mapped window, by word index. *)
Class Window (W : Type) := {
  win_read : Z -> W -> W * Z;
  win_write : Z -> Z -> W -> W;
}.
Inductive Cam := Mmio | Ecam.
Definition cam_size (c : Cam) : Z := match c with Mmio => 0x1000000 | Ecam => 0x10000000 end.
Definition cam_offset (c : Cam) (df : DeviceFunction) (register_offset : Z) : outcome Z :=
  if negb (valid df) then Panic else
  let bdf := Z.lor (Z.lor (Z.shiftl (df_bus df) 8) (Z.shiftl (df_device df) 3)) (df_function df) in
  let address := Z.lor (u32 (Z.shiftl bdf (match c with Mmio => 8 | Ecam => 12 end))) register_offset in
  if negb (address <? cam_size c) then Panic else
  if negb (Z.land address 0x3 =? 0) then Panic else Ret address.
Record MmioCam (W : Type) := mkMmioCam { mc_mmio : W; mc_cam : Cam }.
Arguments mkMmioCam {W} mc_mmio mc_cam.
Arguments mc_mmio {W} m.
Arguments mc_cam {W} m.
(** The slice has [cam_size / 4] words. *)
Definition mmio_read_word {W} `{Window W} (df : DeviceFunction) (register_offset : Z) (c : MmioCam W)
    : outcome (MmioCam W * Z) :=
  address ← cam_offset (mc_cam c) df register_offset;
  if cam_size (mc_cam c) / 4 <=? Z.shiftr address 2 then Panic else
  let '(w, v) := win_read (Z.shiftr address 2) (mc_mmio c) in Ret (mkMmioCam w (mc_cam c), v).
Definition mmio_write_word {W} `{Window W} (df : DeviceFunction) (register_offset data : Z) (c : MmioCam W)
    : outcome (MmioCam W) :=
  address ← cam_offset (mc_cam c) df register_offset;
  if cam_size (mc_cam c) / 4 <=? Z.shiftr address 2 then Panic else
  Ret (mkMmioCam (win_write (Z.shiftr address 2) data (mc_mmio c)) (mc_cam c)).
#[export] Instance mmio_cam {W} `{Window W} : ConfigurationAccess (MmioCam W) :=
  { read_word := mmio_read_word; write_word := mmio_write_word }.

(** ** The root complex *)

Inductive PciError := InvalidBarType.
Inductive MemoryBarType := Width32 | Below1MiB | Width64.
Definition MemoryBarType_try_from (value : Z) : option MemoryBarType :=
  if value =? 0 then Some Width32 else if value =? 1 then Some Below1MiB else if value =? 2 then Some Width64 else None.
Inductive BarInfo :=
  | BarMemory (address_type : MemoryBarType) (prefetchable : bool) (address size : Z)
  | BarIO (address size : Z).
Definition takes_two_entries (b : BarInfo) : bool :=
  match b with BarMemory Width64 _ _ _ => true | _ => false end.
Definition memory_address_size (b : BarInfo) : option (Z * Z) :=
  match b with BarMemory _ _ address size => Some (address, size) | BarIO _ _ => None end.

Inductive HeaderType := Standard | PciPciBridge | PciCardbusBridge | Unrecognised (v : Z).
Definition HeaderType_from (value : Z) : HeaderType :=
  if value =? 0 then Standard else if value =? 1 then PciPciBridge else if value =? 2 then PciCardbusBridge
  else Unrecognised value.
Record DeviceFunctionInfo := mkInfo {
  vendor_id : Z; device_id : Z; class_ : Z; subclass : Z; prog_if : Z; revision : Z; header_type : HeaderType;
}.
Record CapabilityInfo := mkCap { cap_offset : Z; cap_id : Z; private_header : Z }.

Section Root.
Context {C : Type} `{ConfigurationAccess C}.

Definition get_status_command (df : DeviceFunction) (c : C) : outcome (C * (Z * Z)) :=
  '(c, status_command) ← read_word df STATUS_COMMAND_OFFSET c;
  Ret (c, (Z.land (u16 (Z.shiftr status_command 16)) STATUS_ALL, Z.land (u16 status_command) COMMAND_ALL)).
Definition set_command (df : DeviceFunction) (command : Z) (c : C) : outcome C :=
  write_word df STATUS_COMMAND_OFFSET command c.

(** [BAR0_OFFSET + 4 * bar_index] in [u8]. *)
Definition bar_offset (bar_index : Z) : Z := u8 (BAR0_OFFSET + u8 (4 * bar_index)).

Definition bar_info (df : DeviceFunction) (bar_index : Z) (c : C) : outcome (C * (option BarInfo + PciError)) :=
  '(c, (_, command_orig)) ← get_status_command df c;
  let command_disable_decode := Z.ldiff command_orig (Z.lor IO_SPACE MEMORY_SPACE) in
  let changed := negb (command_disable_decode =? command_orig) in
  c ← (if changed then set_command df command_disable_decode c else Ret c);
  '(c, bar_orig) ← read_word df (bar_offset bar_index) c;
  let io_space := Z.land bar_orig 1 =? 1 in
  c ← write_word df (bar_offset bar_index) 0xffffffff c;
  '(c, size_mask) ← read_word df (bar_offset bar_index) c;
  '(c, top) ← (if Z.land bar_orig 7 =? 4 then
      if 5 <=? bar_index then Ret (c, None) else
      '(c, bar_top_orig) ← read_word df (bar_offset (u8 (bar_index + 1))) c;
      c ← write_word df (bar_offset (u8 (bar_index + 1))) 0xffffffff c;
      '(c, size_top) ← read_word df (bar_offset (u8 (bar_index + 1))) c;
      c ← write_word df (bar_offset (u8 (bar_index + 1))) bar_top_orig c;
      Ret (c, Some (bar_top_orig, size_top))
    else Ret (c, Some (0, if size_mask =? 0 then 0 else 0xffffffff)));
  match top with
  | None => Ret (c, inr InvalidBarType)
  | Some (address_top, size_top) =>
      let size_mask := Z.lor size_mask (Z.shiftl size_top 32) in
      let flag_bits := if io_space then 3 else 15 in
      let size := u64 (u64 (Z.lnot (Z.ldiff size_mask flag_bits)) + 1) in
      c ← write_word df (bar_offset bar_index) bar_orig c;
      c ← (if changed then set_command df command_orig c else Ret c);
      if size_mask =? 0 then Ret (c, inl None)
      else if io_space then Ret (c, inl (Some (BarIO (Z.land bar_orig 0xfffffffc) (u32 size))))
      else
        let address := Z.lor (Z.land bar_orig 0xfffffff0) (Z.shiftl address_top 32) in
        let prefetchable := negb (Z.land bar_orig 8 =? 0) in
        match MemoryBarType_try_from (Z.shiftr (Z.land bar_orig 6) 1) with
        | None => Ret (c, inr InvalidBarType)
        | Some address_type => Ret (c, inl (Some (BarMemory address_type prefetchable address size)))
        end
  end.

(** The entries from [bar_index] on; [acc] has those before. *)
Fixpoint bars_loop (fuel : nat) (df : DeviceFunction) (bar_index : Z) (acc : list (option BarInfo)) (c : C)
    : outcome (C * (list (option BarInfo) + PciError)) :=
  match fuel with
  | O => Panic
  | S fuel' =>
      if 6 <=? bar_index then Ret (c, inl acc) else
      '(c, r) ← bar_info df bar_index c;
      match r with
      | inr e => Ret (c, inr e)
      | inl info =>
          let bar_entries := match info with Some b => if takes_two_entries b then 2 else 1 | None => 1 end in
          bars_loop fuel' df (bar_index + bar_entries) (<[Z.to_nat bar_index := info]> acc) c
      end
  end.
Definition bars (df : DeviceFunction) (c : C) : outcome (C * (list (option BarInfo) + PciError)) :=
  bars_loop 7 df 0 (replicate 6 None) c.

Definition set_bar_32 (df : DeviceFunction) (bar_index address : Z) (c : C) : outcome C :=
  write_word df (bar_offset bar_index) address c.
Definition set_bar_64 (df : DeviceFunction) (bar_index address : Z) (c : C) : outcome C :=
  c ← write_word df (bar_offset bar_index) (u32 address) c;
  write_word df (bar_offset (u8 (bar_index + 1))) (u32 (Z.shiftr address 32)) c.

(** ** Capabilities *)

Definition capabilities_offset (df : DeviceFunction) (c : C) : outcome (C * option Z) :=
  '(c, (status, _)) ← get_status_command df c;
  if negb (Z.land status CAPABILITIES_LIST =? 0) then
    '(c, w) ← read_word df 0x34 c; Ret (c, Some (Z.land w 0xFC))
  else Ret (c, None).
(** [CapabilityIterator::next]: what is yielded and the offset after. *)
Definition cap_next (df : DeviceFunction) (offset : Z) (c : C) : outcome (C * (CapabilityInfo * option Z)) :=
  '(c, capability_header) ← read_word df offset c;
  let id := u8 capability_header in
  let next_offset := u8 (Z.shiftr capability_header 8) in
  let private_header := u16 (Z.shiftr capability_header 16) in
  let next := if next_offset =? 0 then None
              else if (next_offset <? 64) || negb (Z.land next_offset 3 =? 0) then None else Some next_offset in
  Ret (c, (mkCap offset id private_header, next)).

(** ** Enumeration *)

(** The slot after [df] in the order of the iterator. *)
Definition next_slot (df : DeviceFunction) : DeviceFunction :=
  if MAX_FUNCTIONS <=? df_function df + 1 then mkDf (df_bus df) (df_device df + 1) 0
  else mkDf (df_bus df) (df_device df) (df_function df + 1).
(** [BusDeviceIterator::next]: the device found and the iterator after. *)
Fixpoint bus_next (fuel : nat) (next : DeviceFunction) (c : C)
    : outcome (C * DeviceFunction * option (DeviceFunction * DeviceFunctionInfo)) :=
  match fuel with
  | O => Panic
  | S fuel' =>
      if df_device next <? MAX_DEVICES then
        let current := next in
        '(c, device_vendor) ← read_word current 0 c;
        let next := next_slot next in
        if negb (device_vendor =? INVALID_READ) then
          '(c, class_revision) ← read_word current 8 c;
          '(c, bist_type_latency_cache) ← read_word current 12 c;
          Ret (c, next, Some (current, mkInfo (u16 device_vendor) (u16 (Z.shiftr device_vendor 16))
            (u8 (Z.shiftr class_revision 24)) (u8 (Z.shiftr class_revision 16)) (u8 (Z.shiftr class_revision 8))
            (u8 class_revision) (HeaderType_from (Z.land (u8 (Z.shiftr bist_type_latency_cache 16)) 0x7f))))
        else bus_next fuel' next c
      else Ret (c, next, None)
  end.
(** The whole of the iterator, as a [for] loop over it sees it. *)
Fixpoint bus_devices (fuel : nat) (next : DeviceFunction) (c : C)
    : outcome (C * list (DeviceFunction * DeviceFunctionInfo)) :=
  match fuel with
  | O => Panic
  | S fuel' =>
      '(c, next, r) ← bus_next 257 next c;
      match r with
      | None => Ret (c, [])
      | Some d => '(c, ds) ← bus_devices fuel' next c; Ret (c, d :: ds)
      end
  end.
Definition enumerate_bus (bus : Z) (c : C) : outcome (C * list (DeviceFunction * DeviceFunctionInfo)) :=
  bus_devices 257 (mkDf bus 0 0) c.

End Root.
