(* ===== verification/PciProps.v ===== *)
(** * The PCI bus: theorems

    Configuration space as the PCI specification has it, the two access
    mechanisms against it, and what the root complex makes of it: enumeration
    finds exactly the functions that are there, sizing a BAR returns what the
    function implements and leaves its configuration as it was, and a capability
    list is walked to its end. *)

From S2P Require Import Prelude Pci.

(** ** Bits *)
Lemma lor_shiftl v d k : 0 <= k -> 0 <= d < 2 ^ k -> Z.lor (Z.shiftl v k) d = v * 2 ^ k + d.
Proof.
  intros Hk Hd. rewrite <- Z.shiftl_mul_pow2 by done. rewrite Z.add_nocarry_lxor, Z.lxor_lor; [done|..].
  all: apply Z.bits_inj'; intros n Hn; rewrite Z.land_spec, Z.bits_0; destruct (Z.ltb_spec n k).
  all: try (rewrite Z.shiftl_spec_low by done; done).
  all: rewrite <- (Z.mod_small d (2 ^ k)), Z.mod_pow2_bits_high, andb_false_r by lia; done.
Qed.
(** The bits from [k] up to [w]. *)
Lemma high_mask w k : 0 <= k <= w -> 2 ^ w - 2 ^ k = Z.shiftl (Z.ones (w - k)) k.
Proof.
  intros. rewrite Z.shiftl_mul_pow2, Z.ones_equiv by lia. rewrite <- Z.sub_1_r, Z.mul_sub_distr_r, <- Z.pow_add_r by lia.
  f_equal; [f_equal|]; lia.
Qed.
Lemma high_mask_bit w k n : 0 <= k <= w -> 0 <= n -> Z.testbit (2 ^ w - 2 ^ k) n = (k <=? n) && (n <? w).
Proof.
  intros Hk Hn. rewrite high_mask by done. destruct (Z.leb_spec k n); cbn [andb]; [|by rewrite Z.shiftl_spec_low].
  rewrite Z.shiftl_spec by lia. destruct (Z.ltb_spec n w); [by rewrite Z.ones_spec_low by lia|by rewrite Z.ones_spec_high by lia].
Qed.
Lemma ldiff_high w k x : 0 <= k <= w -> 0 <= x < 2 ^ w -> Z.ldiff x (2 ^ w - 2 ^ k) = x mod 2 ^ k.
Proof.
  intros Hk Hx. apply Z.bits_inj'. intros n Hn. rewrite Z.ldiff_spec, high_mask_bit by done.
  destruct (Z.leb_spec k n); cbn [andb negb]; [|by rewrite andb_true_r, Z.mod_pow2_bits_low by lia].
  rewrite Z.mod_pow2_bits_high by lia. destruct (Z.ltb_spec n w); [by rewrite andb_false_r|].
  by rewrite <- (Z.mod_small x (2 ^ w)), Z.mod_pow2_bits_high by lia.
Qed.
Lemma land_high w k x : 0 <= k <= w -> 0 <= x < 2 ^ w -> Z.land x (2 ^ w - 2 ^ k) = x - x mod 2 ^ k.
Proof.
  intros Hk Hx. rewrite <- (ldiff_high w) by done. rewrite <- (Z.lor_ldiff_and x (2 ^ w - 2 ^ k)) at 2.
  rewrite <- Z.lxor_lor, <- Z.add_nocarry_lxor; [lia|..]; apply Z.bits_inj'; intros n Hn;
    rewrite !Z.land_spec, Z.ldiff_spec, Z.bits_0; destruct (Z.testbit x n), (Z.testbit _ n); done.
Qed.
Lemma land_low n x m : 0 <= n -> 0 <= m < 2 ^ n -> Z.land x m = Z.land (x mod 2 ^ n) m.
Proof.
  intros Hn Hm. rewrite <- Z.land_ones by done. rewrite <- Z.land_assoc. f_equal.
  rewrite Z.land_comm, Z.land_ones, Z.mod_small by done. done.
Qed.
Lemma land_ones_full w m : 0 <= w -> 0 <= m < 2 ^ w -> Z.land (2 ^ w - 1) m = m.
Proof. intros. rewrite Z.sub_1_r, <- Z.ones_equiv, Z.land_comm, Z.land_ones, Z.mod_small by done. done. Qed.

(** ** Configuration space *)

(** A function: its 64 registers, and the bits of each that a write changes. *)
Record hw_function := mkHwf { regs : gmap Z Z; writable : gmap Z Z }.
Definition reg (f : hw_function) (r : Z) : Z := default 0 (regs f !! r).
Definition wmask (f : hw_function) (r : Z) : Z := default 0 (writable f !! r).
Definition hw_write (r v : Z) (f : hw_function) : hw_function :=
  mkHwf (<[r := Z.lor (Z.ldiff (reg f r) (wmask f r)) (Z.land v (wmask f r))]> (regs f)) (writable f).
(** An absent function reads as ones. *)
Notation cfg := (gmap DeviceFunction hw_function).
Definition cfg_read (df : DeviceFunction) (r : Z) (s : cfg) : Z := match s !! df with Some f => reg f r | None => INVALID_READ end.
Definition cfg_write (df : DeviceFunction) (r v : Z) (s : cfg) : cfg := alter (hw_write r v) df s.
Definition df_ok (df : DeviceFunction) : Prop := 0 <= df_bus df < 256 /\ 0 <= df_device df < 32 /\ 0 <= df_function df < 8.

(** What an access mechanism promises to the root complex. *)
Class ConfigLaws (C : Type) `{ConfigurationAccess C} := {
  cam_ok : C -> Prop;
  cfg_of : C -> cfg;
  read_word_ok df r c : cam_ok c -> df_ok df -> 0 <= r < 64 ->
    exists c', read_word df (4 * r) c = Ret (c', cfg_read df r (cfg_of c)) /\ cfg_of c' = cfg_of c /\ cam_ok c';
  write_word_ok df r v c : cam_ok c -> df_ok df -> 0 <= r < 64 -> 0 <= v < 2 ^ 32 ->
    exists c', write_word df (4 * r) v c = Ret c' /\ cfg_of c' = cfg_write df r v (cfg_of c) /\ cam_ok c';
}.

(** Mechanism #1 of the PCI specification: a word written to the address port
    selects a register, which the data port reads and writes. *)
Definition selected (v : Z) : option (DeviceFunction * Z) :=
  if Z.testbit v 31 then Some (mkDf (v / 2 ^ 16 mod 256) (v / 2 ^ 11 mod 32) (v / 2 ^ 8 mod 8), v / 4 mod 64) else None.
Class PortsLaws (P : Type) `{Ports P} := {
  latch : P -> Z;
  ports_cfg : P -> cfg;
  out_address v p : latch (outl PCI_CONFIG_ADDRESS v p) = v /\ ports_cfg (outl PCI_CONFIG_ADDRESS v p) = ports_cfg p;
  in_data p df r : selected (latch p) = Some (df, r) ->
    exists p', inl_ PCI_CONFIG_DATA p = (p', cfg_read df r (ports_cfg p)) /\ ports_cfg p' = ports_cfg p;
  out_data p df r v : selected (latch p) = Some (df, r) ->
    ports_cfg (outl PCI_CONFIG_DATA v p) = cfg_write df r v (ports_cfg p);
}.
(** A window has the registers of a function at a multiple of 256 bytes, or of
    4 KiB for the enhanced mechanism. *)
Definition stride (k : Cam) : Z := match k with Mmio => 64 | Ecam => 1024 end.
Definition df_index (df : DeviceFunction) : Z := df_bus df * 256 + df_device df * 8 + df_function df.
Class WindowLaws (W : Type) `{Window W} := {
  win_cam : W -> Cam;
  win_cfg : W -> cfg;
  win_read_ok w df r : df_ok df -> 0 <= r < 64 ->
    exists w', win_read (df_index df * stride (win_cam w) + r) w = (w', cfg_read df r (win_cfg w)) /\
      win_cfg w' = win_cfg w /\ win_cam w' = win_cam w;
  win_write_ok w df r v : df_ok df -> 0 <= r < 64 ->
    let w' := win_write (df_index df * stride (win_cam w) + r) v w in
    win_cfg w' = cfg_write df r v (win_cfg w) /\ win_cam w' = win_cam w;
}.

(** ** The access mechanisms *)
Lemma config_address_sum df r : df_ok df -> 0 <= r < 64 ->
  config_address df (4 * r) = 2 ^ 31 + df_bus df * 2 ^ 16 + df_device df * 2 ^ 11 + df_function df * 2 ^ 8 + 4 * r.
Proof.
  intros (Hb & Hd & Hf) Hr. unfold config_address. destruct df as [b d f]. cbn [df_bus df_device df_function] in *.
  replace (Z.land (4 * r) 0xFC) with (4 * r).
  2:{ change 0xFC with (2 ^ 8 - 2 ^ 2). rewrite land_high, (Z.mul_comm 4), Z.mod_mul by lia. lia. }
  assert (Z.lor (Z.shiftl f 8) (4 * r) = f * 2 ^ 8 + 4 * r) as E1 by (apply lor_shiftl; lia).
  rewrite <- !Z.lor_assoc, E1, (lor_shiftl d), (lor_shiftl b), (lor_shiftl 1) by lia. lia.
Qed.
Lemma selected_config df r : df_ok df -> 0 <= r < 64 -> selected (config_address df (4 * r)) = Some (df, r).
Proof.
  intros Hdf Hr. rewrite config_address_sum by done. destruct Hdf as (Hb & Hd & Hf). destruct df as [b d f].
  cbn [df_bus df_device df_function] in *. unfold selected.
  set (v := _ + 4 * r). assert (v = 2 ^ 31 + (b * 2 ^ 16 + d * 2 ^ 11 + f * 2 ^ 8 + 4 * r)) as Ev by (unfold v; lia).
  assert (Z.testbit v 31 = true) as ->.
  { apply Z.testbit_true; [lia|]. replace (v / 2 ^ 31) with 1; [done|]. apply Z.div_unique with (v - 2 ^ 31); lia. }
  do 2 f_equal; [f_equal|]; clearbody v; Z.div_mod_to_equations; lia.
Qed.
#[export] Instance port_io_laws {P} `{PortsLaws P} : ConfigLaws (PortIoCam P).
Proof.
  refine {| cam_ok := fun _ => True; cfg_of := fun c => ports_cfg (io_ports c) |}.
  - intros df r [p] _ Hdf Hr. cbn [read_word port_io_cam]. unfold port_read_word. cbn [io_ports].
    destruct (out_address (config_address df (4 * r)) p) as [E1 E2].
    destruct (in_data (outl PCI_CONFIG_ADDRESS (config_address df (4 * r)) p) df r) as (p' & -> & E).
    { rewrite E1. by apply selected_config. }
    exists (mkPortIo p'). cbn [io_ports]. by rewrite E, E2.
  - intros df r v [p] _ Hdf Hr Hv. cbn [write_word port_io_cam]. unfold port_write_word. cbn [io_ports].
    destruct (out_address (config_address df (4 * r)) p) as [E1 E2]. eexists. split; [done|]. cbn [io_ports].
    rewrite (out_data _ df r), E2; [done|]. rewrite E1. by apply selected_config.
Defined.

Lemma cam_offset_ok k df r : df_ok df -> 0 <= r < 64 ->
  cam_offset k df (4 * r) = Ret (4 * (df_index df * stride k + r)) /\ df_index df * stride k + r < cam_size k / 4.
Proof.
  intros (Hb & Hd & Hf) Hr. unfold cam_offset, valid, df_index. destruct df as [b d f]. cbn [df_bus df_device df_function] in *.
  rewrite (proj2 (Z.ltb_lt d 32)), (proj2 (Z.ltb_lt f 8)) by lia. cbn [andb negb].
  rewrite <- Z.lor_assoc, (lor_shiftl d f 3), (lor_shiftl b _ 8) by lia. set (n := b * 2 ^ 8 + (d * 2 ^ 3 + f)).
  assert (0 <= n < 65536) as Hn by lia.
  assert (Z.lor (u32 (Z.shiftl n (match k with Mmio => 8 | Ecam => 12 end))) (4 * r) = 4 * (n * stride k + r)) as ->.
  { destruct k; cbn [stride]; rewrite u32_small by (rewrite Z.shiftl_mul_pow2 by lia; lia); rewrite lor_shiftl by lia; lia. }
  replace (b * 256 + d * 8 + f) with n by lia. rewrite (proj2 (Z.ltb_lt _ _)) by (destruct k; cbn [stride cam_size]; lia). cbn [negb].
  assert (Z.land (4 * (n * stride k + r)) 3 = 0) as -> by (change 3 with (Z.ones 2); rewrite Z.land_ones, (Z.mul_comm 4) by lia; by apply Z.mod_mul).
  split; [done|]. destruct k; cbn [stride cam_size]; [change (0x1000000 / 4) with 0x400000|change (0x10000000 / 4) with 0x4000000]; lia.
Qed.
#[export] Instance mmio_cam_laws {W} `{WindowLaws W} : ConfigLaws (MmioCam W).
Proof.
  refine {| cam_ok := fun c => win_cam (mc_mmio c) = mc_cam c; cfg_of := fun c => win_cfg (mc_mmio c) |}.
  - intros df r [w k] Ek Hdf Hr. cbn [mc_mmio mc_cam] in *. subst k. cbn [read_word mmio_cam]. unfold mmio_read_word.
    cbn [mc_mmio mc_cam]. destruct (cam_offset_ok (win_cam w) df r Hdf Hr) as [-> Hi]. cbn [mbind outcome_bind].
    rewrite Z.shiftr_div_pow2, (Z.mul_comm 4), Z.div_mul by lia. rewrite (proj2 (Z.leb_gt _ _)) by lia.
    destruct (win_read_ok w df r Hdf Hr) as (w' & -> & E1 & E2). eexists. by split.
  - intros df r v [w k] Ek Hdf Hr Hv. cbn [mc_mmio mc_cam] in *. subst k. cbn [write_word mmio_cam]. unfold mmio_write_word.
    cbn [mc_mmio mc_cam]. destruct (cam_offset_ok (win_cam w) df r Hdf Hr) as [-> Hi]. cbn [mbind outcome_bind].
    rewrite Z.shiftr_div_pow2, (Z.mul_comm 4), Z.div_mul by lia. rewrite (proj2 (Z.leb_gt _ _)) by lia.
    destruct (win_write_ok w df r v Hdf Hr) as [E1 E2]. eexists. split; [done|]. by cbn [mc_mmio mc_cam].
Defined.

(** ** Registers *)
Lemma write_value old m v w : Z.lor (Z.ldiff (Z.lor (Z.ldiff old m) (Z.land v m)) m) (Z.land w m) = Z.lor (Z.ldiff old m) (Z.land w m).
Proof.
  apply Z.bits_inj'. intros n Hn. rewrite !Z.lor_spec, !Z.ldiff_spec, !Z.lor_spec, !Z.land_spec, !Z.ldiff_spec.
  destruct (Z.testbit old n), (Z.testbit m n), (Z.testbit v n), (Z.testbit w n); done.
Qed.
Lemma reg_write r v f : reg (hw_write r v f) r = Z.lor (Z.ldiff (reg f r) (wmask f r)) (Z.land v (wmask f r)).
Proof. unfold reg at 1. cbn [regs hw_write]. by rewrite lookup_insert_eq. Qed.
Lemma reg_write_ne r r' v f : r <> r' -> reg (hw_write r v f) r' = reg f r'.
Proof. intros. unfold reg. cbn [regs hw_write]. by rewrite lookup_insert_ne. Qed.
Lemma wmask_write r r' v f : wmask (hw_write r v f) r' = wmask f r'.
Proof. done. Qed.
Lemma write_write r v w f : hw_write r w (hw_write r v f) = hw_write r w f.
Proof.
  unfold hw_write at 1. rewrite reg_write, wmask_write, write_value. cbn [regs writable hw_write]. by rewrite insert_insert_eq.
Qed.
Lemma write_comm r r' v w f : r <> r' -> hw_write r v (hw_write r' w f) = hw_write r' w (hw_write r v f).
Proof.
  intros Hne. unfold hw_write at 1 3. rewrite !reg_write_ne, !wmask_write by done. cbn [regs writable hw_write]. f_equal.
  by apply insert_insert_ne.
Qed.
(** Writing the value of the writable bits back changes nothing. *)
Lemma write_same r v f : is_Some (regs f !! r) -> Z.land v (wmask f r) = Z.land (reg f r) (wmask f r) -> hw_write r v f = f.
Proof.
  intros [x Hx] E. unfold hw_write. rewrite E, Z.lor_ldiff_and. destruct f as [g w]. cbn [regs writable] in *. f_equal.
  unfold reg. cbn [regs]. rewrite Hx. by apply insert_id.
Qed.

Definition hw_ok (f : hw_function) : Prop :=
  (forall r, 0 <= r < 64 -> is_Some (regs f !! r) /\ 0 <= reg f r < 2 ^ 32) /\ (forall r, 0 <= wmask f r < 2 ^ 32) /\
  Z.ldiff (wmask f 1) COMMAND_ALL = 0.

Lemma lor_bound w x y : 0 <= w -> 0 <= x < 2 ^ w -> 0 <= y < 2 ^ w -> 0 <= Z.lor x y < 2 ^ w.
Proof.
  intros Hw Hx Hy. assert (Z.lor x y = Z.lor x y mod 2 ^ w) as ->; [|by apply Z.mod_pos_bound, Z.pow_pos_nonneg].
  rewrite <- Z.land_ones, Z.land_lor_distr_l, !Z.land_ones, !Z.mod_small by done. done.
Qed.
Lemma land_bound x y w : 0 <= x -> 0 <= y < 2 ^ w -> 0 <= Z.land x y < 2 ^ w.
Proof.
  intros Hx Hy. split; [apply Z.land_nonneg; by left|].
  destruct (Z.le_gt_cases w 0). { destruct (Z.eq_dec w 0) as [->|]; [|rewrite Z.pow_neg_r in Hy by lia; lia].
    assert (y = 0) as -> by lia. by rewrite Z.land_0_r. }
  assert (0 <= y mod 2 ^ w < 2 ^ w) by (apply Z.mod_pos_bound; lia).
  rewrite <- (Z.mod_small y (2 ^ w)) by done. rewrite <- Z.land_ones, Z.land_assoc, Z.land_ones by lia. apply Z.mod_pos_bound. lia.
Qed.
Lemma ldiff_bound x y w : 0 <= w -> 0 <= x < 2 ^ w -> 0 <= Z.ldiff x y < 2 ^ w.
Proof.
  intros Hw Hx. assert (Z.ldiff x y = Z.ldiff x y mod 2 ^ w) as ->; [|by apply Z.mod_pos_bound, Z.pow_pos_nonneg].
  rewrite <- Z.land_ones by done. rewrite <- (Z.mod_small x (2 ^ w)), <- Z.land_ones by done.
  apply Z.bits_inj'. intros n Hn. rewrite !Z.ldiff_spec, !Z.land_spec, !Z.ldiff_spec, !Z.land_spec.
  by destruct (Z.testbit x n), (Z.testbit (Z.ones w) n), (Z.testbit y n).
Qed.
Lemma hw_write_ok r v f : hw_ok f -> 0 <= v -> hw_ok (hw_write r v f).
Proof.
  intros (H1 & H2 & H3) Hv. split; [|done]. intros r' Hr'. destruct (decide (r = r')) as [->|Hne].
  - split; [cbn [regs hw_write]; by rewrite lookup_insert_eq|]. rewrite reg_write. apply lor_bound; [lia|..].
    + apply ldiff_bound; [lia|]. by apply H1.
    + by apply land_bound.
  - rewrite reg_write_ne by done. destruct (H1 r' Hr'). split; [|done]. cbn [regs hw_write]. by rewrite lookup_insert_ne.
Qed.

(** ** Working on one function *)

Ltac go E := rewrite E; cbn [mbind outcome_bind].

Section Function.
Context {C : Type} `{ConfigLaws C}.
Variables (c0 : C) (df : DeviceFunction).
Hypothesis Hdf : df_ok df.

(** The function is [f] and the rest of the bus is as it was at [c0]. *)
Definition at_fn (f : hw_function) (c : C) : Prop := cam_ok c /\ cfg_of c = <[df := f]> (cfg_of c0).
Lemma at_read f c r : at_fn f c -> 0 <= r < 64 -> exists c', read_word df (4 * r) c = Ret (c', reg f r) /\ at_fn f c'.
Proof.
  intros [Hc E] Hr. destruct (read_word_ok df r c Hc Hdf Hr) as (c' & Hw & E' & Hc'). exists c'.
  rewrite Hw, E. unfold cfg_read. rewrite lookup_insert_eq. unfold at_fn. by rewrite E', E.
Qed.
Lemma at_write f c r v : at_fn f c -> 0 <= r < 64 -> 0 <= v < 2 ^ 32 ->
  exists c', write_word df (4 * r) v c = Ret c' /\ at_fn (hw_write r v f) c'.
Proof.
  intros [Hc E] Hr Hv. destruct (write_word_ok df r v c Hc Hdf Hr Hv) as (c' & Hw & E' & Hc'). exists c'.
  split; [done|]. split; [done|]. rewrite E', E. unfold cfg_write. by rewrite alter_insert_eq.
Qed.
Lemma at_back f c : cfg_of c0 !! df = Some f -> at_fn f c -> cfg_of c = cfg_of c0.
Proof. intros E [_ ->]. by apply insert_id. Qed.
Lemma at_start f : cam_ok c0 -> cfg_of c0 !! df = Some f -> at_fn f c0.
Proof. intros Hc E. split; [done|]. symmetry. by apply insert_id. Qed.

(** The defined bits of the command and status registers. *)
Definition command (f : hw_function) : Z := Z.land (u16 (reg f 1)) COMMAND_ALL.
Definition status (f : hw_function) : Z := Z.land (u16 (Z.shiftr (reg f 1) 16)) STATUS_ALL.
Lemma at_status_command f c : at_fn f c -> exists c', get_status_command df c = Ret (c', (status f, command f)) /\ at_fn f c'.
Proof.
  intros Ha. destruct (at_read f c 1 Ha ltac:(lia)) as (c' & E & Ha'). exists c'. split; [|done].
  unfold get_status_command. change STATUS_COMMAND_OFFSET with (4 * 1). by rewrite E.
Qed.
Lemma command_bound f : 0 <= command f < 2 ^ 16.
Proof. apply land_bound; [apply (wrap_range 16); lia|by vm_compute]. Qed.
Lemma at_set_command f c v : at_fn f c -> 0 <= v < 2 ^ 16 -> exists c', set_command df v c = Ret c' /\ at_fn (hw_write 1 v f) c'.
Proof. intros Ha Hv. apply (at_write f c 1 v Ha); lia. Qed.
(** Restoring the command register restores all of it. *)
Lemma command_restore f v : hw_ok f -> hw_write 1 (command f) (hw_write 1 v f) = f.
Proof.
  intros (H1 & H2 & H3). rewrite write_write. apply write_same; [by apply H1|]. unfold command, u16, wrap.
  rewrite <- Z.land_ones by lia. apply Z.bits_inj'. intros n Hn. rewrite !Z.land_spec.
  destruct (Z.testbit (wmask f 1) n) eqn:E; [|by rewrite !andb_false_r]. rewrite !andb_true_r.
  assert (Z.testbit COMMAND_ALL n = true) as En.
  { apply (f_equal (fun x => Z.testbit x n)) in H3. rewrite Z.ldiff_spec, E, Z.bits_0 in H3. by destruct (Z.testbit COMMAND_ALL n). }
  rewrite En, andb_true_r. assert (n < 16).
  { destruct (Z.lt_ge_cases n 16); [done|]. rewrite Z.bits_above_log2 in En; [done..|]. change (Z.log2 COMMAND_ALL) with 10. lia. }
  by rewrite Z.ones_spec_low, andb_true_r by lia.
Qed.

(** ** Sizing a BAR *)

Definition quiet (f : hw_function) : Z := Z.ldiff (command f) (Z.lor IO_SPACE MEMORY_SPACE).
Definition decoding (f : hw_function) : bool := negb (quiet f =? command f).
(** The function with address decoding off. *)
Definition off (f : hw_function) : hw_function := if decoding f then hw_write 1 (quiet f) f else f.
Lemma quiet_bound f : 0 <= quiet f < 2 ^ 16.
Proof. apply ldiff_bound; [lia|apply command_bound]. Qed.
Lemma off_ok f : hw_ok f -> hw_ok (off f).
Proof. intros. unfold off. case_match; [|done]. apply hw_write_ok; [done|apply quiet_bound]. Qed.
Lemma reg_off f r : r <> 1 -> reg (off f) r = reg f r.
Proof. intros. unfold off. case_match; [|done]. by rewrite reg_write_ne by lia. Qed.
Lemma wmask_off f r : wmask (off f) r = wmask f r.
Proof. unfold off. by case_match. Qed.
Lemma at_disable f c : at_fn f c -> exists c', (if decoding f then set_command df (quiet f) c else Ret c) = Ret c' /\ at_fn (off f) c'.
Proof.
  intros Ha. unfold off. destruct (decoding f); [|by exists c]. apply (at_set_command f c _ Ha). apply quiet_bound.
Qed.
Lemma at_enable f c : hw_ok f -> at_fn (off f) c ->
  exists c', (if decoding f then set_command df (command f) c else Ret c) = Ret c' /\ at_fn f c'.
Proof.
  intros Hok Ha. unfold off in Ha. destruct (decoding f); [|by exists c].
  destruct (at_set_command _ c (command f) Ha (command_bound f)) as (c' & E & Ha'). exists c'. split; [done|].
  by rewrite command_restore in Ha'.
Qed.

(** What a register reads back after ones were written to it. *)
Definition probe (f : hw_function) (r : Z) : Z := reg (hw_write r 0xffffffff f) r.
Definition bar_sizes (f : hw_function) (i : Z) : Z * Z :=
  if Z.land (reg f (4 + i)) 7 =? 4 then (reg f (5 + i), probe f (5 + i))
  else (0, if probe f (4 + i) =? 0 then 0 else 0xffffffff).
Definition bar_result (f : hw_function) (i : Z) : option BarInfo + PciError :=
  let b := reg f (4 + i) in
  let size_mask := Z.lor (probe f (4 + i)) (Z.shiftl (snd (bar_sizes f i)) 32) in
  let io := Z.land b 1 =? 1 in
  let size := u64 (u64 (Z.lnot (Z.ldiff size_mask (if io then 3 else 15))) + 1) in
  if size_mask =? 0 then inl None
  else if io then inl (Some (BarIO (Z.land b 0xfffffffc) (u32 size)))
  else match MemoryBarType_try_from (Z.shiftr (Z.land b 6) 1) with
       | None => inr InvalidBarType
       | Some t => inl (Some (BarMemory t (negb (Z.land b 8 =? 0)) (Z.lor (Z.land b 0xfffffff0) (Z.shiftl (fst (bar_sizes f i)) 32)) size))
       end.
Lemma bar_offset_eq i : 0 <= i <= 5 -> bar_offset i = 4 * (4 + i).
Proof. intros. assert (i = 0 \/ i = 1 \/ i = 2 \/ i = 3 \/ i = 4 \/ i = 5) as Hi by lia. by destruct_or! Hi; subst. Qed.

(** The register is as it was after its probe. *)
Lemma at_probe f c r : hw_ok f -> at_fn f c -> 0 <= r < 64 ->
  exists c1 c2 c3 c4, read_word df (4 * r) c = Ret (c1, reg f r) /\ write_word df (4 * r) 0xffffffff c1 = Ret c2 /\
    at_fn (hw_write r 0xffffffff f) c2 /\ read_word df (4 * r) c2 = Ret (c3, probe f r) /\ at_fn (hw_write r 0xffffffff f) c3 /\
    write_word df (4 * r) (reg f r) c3 = Ret c4 /\ at_fn f c4.
Proof.
  intros Hok Ha Hr. destruct (at_read f c r Ha Hr) as (c1 & E1 & A1). destruct (at_write f c1 r 0xffffffff A1 Hr ltac:(lia)) as (c2 & E2 & A2).
  destruct (at_read _ c2 r A2 Hr) as (c3 & E3 & A3).
  destruct (at_write _ c3 r (reg f r) A3 Hr) as (c4 & E4 & A4); [by apply Hok|].
  exists c1, c2, c3, c4. split_and!; try done. rewrite write_write, write_same in A4; [done| |done]. by apply Hok.
Qed.
Lemma at_rewrite f c r r' : hw_ok f -> at_fn (hw_write r 0xffffffff f) c -> 0 <= r < 64 -> r <> r' ->
  exists c', write_word df (4 * r) (reg f r) c = Ret c' /\ at_fn f c'.
Proof.
  intros Hok Ha Hr Hne. destruct (at_write _ c r (reg f r) Ha Hr) as (c' & E & A'); [by apply Hok|]. exists c'. split; [done|].
  rewrite write_write, write_same in A'; [done| |done]. by apply Hok.
Qed.
Lemma probe_other f r r' v : r <> r' -> probe (hw_write r v f) r' = probe f r'.
Proof. intros. unfold probe. by rewrite !reg_write, reg_write_ne, wmask_write. Qed.
Lemma probe_off f r : r <> 1 -> probe (off f) r = probe f r.
Proof. intros. unfold probe. by rewrite !reg_write, reg_off, wmask_off. Qed.
Lemma bar_info_run f c i : hw_ok f -> at_fn f c -> 0 <= i <= 5 -> (Z.land (reg f (4 + i)) 7 = 4 -> i < 5) ->
  exists c', bar_info df i c = Ret (c', bar_result f i) /\ at_fn f c'.
Proof.
  intros Hok Ha Hi H5. unfold bar_info. destruct (at_status_command f c Ha) as (c1 & E0 & A1). go E0.
  fold (quiet f). fold (decoding f). destruct (at_disable f c1 A1) as (c2 & E0' & A2). go E0'.
  pose proof (off_ok f Hok) as Hok'. rewrite (bar_offset_eq i) by lia.
  destruct (at_probe (off f) c2 (4 + i) Hok' A2 ltac:(lia)) as (c3 & c4 & c5 & _ & E1 & E2 & _ & E3 & A5 & _).
  rewrite probe_off in E3 by lia. rewrite reg_off in E1 by lia. go E1. go E2. go E3.
  unfold bar_result, bar_sizes. destruct (Z.eqb_spec (Z.land (reg f (4 + i)) 7) 4) as [E4|E4].
  - specialize (H5 E4). rewrite (proj2 (Z.leb_gt 5 i)) by lia. replace (u8 (i + 1)) with (i + 1) by (symmetry; apply (wrap_small 8); lia).
    rewrite (bar_offset_eq (i + 1)) by lia. replace (4 + (i + 1)) with (5 + i) by lia.
    assert (hw_ok (hw_write (4 + i) 0xffffffff (off f))) as Hok2 by (apply hw_write_ok; [done|lia]).
    destruct (at_probe _ c5 (5 + i) Hok2 A5 ltac:(lia)) as (d1 & d2 & d3 & d4 & F1 & F2 & _ & F3 & _ & F4 & A6).
    rewrite reg_write_ne, reg_off in F1, F4 by lia. rewrite probe_other, probe_off in F3 by lia.
    go F1. go F2. go F3. go F4. cbn [fst snd]. destruct (at_rewrite (off f) d4 (4 + i) 1 Hok' A6 ltac:(lia) ltac:(lia)) as (d5 & F5 & A7).
    rewrite reg_off in F5 by lia. go F5. destruct (at_enable f d5 Hok A7) as (d6 & F6 & A8). go F6.
    exists d6. split; [|done]. repeat case_match; done.
  - cbn [mbind outcome_bind fst snd]. destruct (at_rewrite (off f) c5 (4 + i) 1 Hok' A5 ltac:(lia) ltac:(lia)) as (d5 & F5 & A7).
    rewrite reg_off in F5 by lia. go F5. destruct (at_enable f d5 Hok A7) as (d6 & F6 & A8). go F6.
    exists d6. split; [|done]. repeat case_match; done.
Qed.
End Function.

(** ** BARs as functions implement them *)

Inductive bar_spec :=
  | NoBar
  | IoBar (a k : Z)
  | MemBar (t : MemoryBarType) (prefetchable : bool) (a k : Z).
Definition type_code (t : MemoryBarType) : Z := match t with Width32 => 0 | Below1MiB => 1 | Width64 => 2 end.
Definition flags (t : MemoryBarType) (pf : bool) : Z := 2 * type_code t + (if pf then 8 else 0).
(** The BAR at index [i] maps [2^k] bytes at [a]: the address bits from [k] on
    are writable, the others and the flags are wired. *)
Definition bar_at (f : hw_function) (i : Z) (s : bar_spec) : Prop :=
  match s with
  | NoBar => reg f (4 + i) = 0 /\ wmask f (4 + i) = 0
  | IoBar a k =>
      2 <= k < 32 /\ 0 <= a < 2 ^ 32 /\ a mod 2 ^ k = 0 /\ reg f (4 + i) = a + 1 /\ wmask f (4 + i) = 2 ^ 32 - 2 ^ k
  | MemBar Width64 pf a k =>
      i < 5 /\ 4 <= k < 64 /\ 0 <= a < 2 ^ 64 /\ a mod 2 ^ k = 0 /\
      reg f (4 + i) = a mod 2 ^ 32 + flags Width64 pf /\ wmask f (4 + i) = (2 ^ 64 - 2 ^ k) mod 2 ^ 32 /\
      reg f (5 + i) = a / 2 ^ 32 /\ wmask f (5 + i) = (2 ^ 64 - 2 ^ k) / 2 ^ 32
  | MemBar t pf a k =>
      4 <= k < 32 /\ 0 <= a < 2 ^ 32 /\ a mod 2 ^ k = 0 /\ reg f (4 + i) = a + flags t pf /\ wmask f (4 + i) = 2 ^ 32 - 2 ^ k
  end.
Definition spec_info (s : bar_spec) : option BarInfo :=
  match s with
  | NoBar => None
  | IoBar a k => Some (BarIO a (2 ^ k))
  | MemBar t pf a k => Some (BarMemory t pf a (2 ^ k))
  end.

Lemma lor_high w k x : 0 <= k <= w -> 0 <= x < 2 ^ k -> Z.lor x (2 ^ w - 2 ^ k) = x + (2 ^ w - 2 ^ k).
Proof. intros. rewrite high_mask, Z.lor_comm, lor_shiftl, <- Z.shiftl_mul_pow2 by lia. lia. Qed.
(** A register whose address bits are those from [k] on. *)
Lemma probe_high f r k a fl : 0 <= k <= 32 -> 0 <= fl < 2 ^ k -> 0 <= a < 2 ^ 32 -> a mod 2 ^ k = 0 ->
  reg f r = a + fl -> wmask f r = 2 ^ 32 - 2 ^ k -> probe f r = fl + (2 ^ 32 - 2 ^ k).
Proof.
  intros Hk Hfl Ha Hm E1 E2. assert (0 < 2 ^ k) by lia. assert (2 ^ k <= 2 ^ 32) by (apply Z.pow_le_mono_r; lia).
  assert (a + fl < 2 ^ 32) as Hs.
  { apply Z.div_exact in Hm; [|lia]. set (q := a / 2 ^ k) in *. assert (2 ^ 32 = 2 ^ (32 - k) * 2 ^ k) by (rewrite <- Z.pow_add_r by lia; f_equal; lia).
    assert (q < 2 ^ (32 - k)) by nia. nia. }
  unfold probe. rewrite reg_write, E1, E2, ldiff_high by lia. change 0xffffffff with (2 ^ 32 - 1). rewrite land_ones_full by lia.
  replace ((a + fl) mod 2 ^ k) with fl; [by apply lor_high|]. rewrite <- Zplus_mod_idemp_l, Hm, Z.add_0_l, Z.mod_small; done.
Qed.
Lemma pow_multiple k n : 0 <= n <= k -> 2 ^ k = 2 ^ (k - n) * 2 ^ n.
Proof. intros. rewrite <- Z.pow_add_r by lia. f_equal. lia. Qed.
Lemma mod_weaken a k n : 0 <= n <= k -> a mod 2 ^ k = 0 -> a mod 2 ^ n = 0.
Proof.
  intros Hn E. apply Z.mod_divide; [lia|]. apply Z.mod_divide in E; [|lia]. etrans; [|done]. exists (2 ^ (k - n)). by apply pow_multiple.
Qed.
(** The size that the mask [2^64 - 2^k] with [n] flag bits stands for. *)
Lemma size_of_mask k n fl : 0 <= n <= k -> k < 64 -> 0 <= fl < 2 ^ n ->
  u64 (u64 (Z.lnot (Z.ldiff (2 ^ 64 - 2 ^ k + fl) (Z.ones n))) + 1) = 2 ^ k.
Proof.
  intros Hn Hk Hfl. rewrite Z.ldiff_ones_r, Z.shiftr_div_pow2, Z.shiftl_mul_pow2 by lia.
  replace ((2 ^ 64 - 2 ^ k + fl) / 2 ^ n * 2 ^ n) with (2 ^ 64 - 2 ^ k).
  2:{ rewrite (pow_multiple 64 n), (pow_multiple k n) by lia. set (x := 2 ^ (64 - n)). set (y := 2 ^ (k - n)).
      replace (x * 2 ^ n - y * 2 ^ n + fl) with (fl + (x - y) * 2 ^ n) by lia. rewrite Z.div_add, Z.div_small by lia. lia. }
  assert (0 < 2 ^ k < 2 ^ 64) by (split; [lia|apply Z.pow_lt_mono_r; lia]).
  replace (u64 (Z.lnot (2 ^ 64 - 2 ^ k))) with (2 ^ k - 1).
  2:{ unfold u64, wrap, Z.lnot. apply Z.mod_unique with (-1); lia. }
  rewrite u64_small; lia.
Qed.
Lemma flags_range t pf : 0 <= flags t pf < 16.
Proof. by destruct t, pf. Qed.
Lemma low_flags a k n fl m : 0 <= n <= k -> a mod 2 ^ k = 0 -> 0 <= m < 2 ^ n -> Z.land (a + fl) m = Z.land (fl mod 2 ^ n) m.
Proof.
  intros Hn E Hm. rewrite (land_low n) by lia. f_equal. by rewrite <- Zplus_mod_idemp_l, (mod_weaken a k n), Z.add_0_l.
Qed.
Lemma mem_result f i t pf a0 k lo hi : 4 <= k < 64 -> lo mod 16 = 0 -> 0 <= lo -> lo + 16 <= 2 ^ 32 ->
  reg f (4 + i) = lo + flags t pf -> bar_sizes f i = (hi, (2 ^ 64 - 2 ^ k) / 2 ^ 32) -> a0 = lo + hi * 2 ^ 32 ->
  probe f (4 + i) = flags t pf + (2 ^ 64 - 2 ^ k) mod 2 ^ 32 ->
  bar_result f i = inl (Some (BarMemory t pf a0 (2 ^ k))).
Proof.
  intros Hk Hlo Hlo0 Hlo1 Er Es Ea Ep. unfold bar_result. rewrite Er, Es, Ep. cbn [fst snd]. pose proof (flags_range t pf).
  assert (forall m, 0 <= m < 16 -> Z.land (lo + flags t pf) m = Z.land (flags t pf) m) as Hl.
  { intros m Hm. rewrite (low_flags lo 4 4) by (done || lia). by rewrite (Z.mod_small (flags t pf)). }
  set (M := 2 ^ 64 - 2 ^ k). assert (0 < 2 ^ k < 2 ^ 64) by (split; [lia|apply Z.pow_lt_mono_r; lia]). assert (0 < M < 2 ^ 64) by lia.
  assert (M mod 16 = 0) as HM.
  { unfold M. change 16 with (2 ^ 4). rewrite (pow_multiple 64 4), (pow_multiple k 4), <- Z.mul_sub_distr_r by lia. by apply Z.mod_mul. }
  assert (flags t pf + M mod 2 ^ 32 < 2 ^ 32) as Hlow.
  { assert ((M mod 2 ^ 32) mod 16 = 0) by (rewrite Z.mod_mod_divide by (by exists (2 ^ 28)); done).
    pose proof (Z.mod_pos_bound M (2 ^ 32)). Z.div_mod_to_equations. lia. }
  pose proof (Z.mod_pos_bound M (2 ^ 32)).
  assert (Z.lor (flags t pf + M mod 2 ^ 32) (Z.shiftl (M / 2 ^ 32) 32) = M + flags t pf) as ->.
  { rewrite Z.lor_comm, lor_shiftl by lia. pose proof (Z.div_mod M (2 ^ 32)). lia. }
  rewrite (proj2 (Z.eqb_neq _ _)) by lia. rewrite (Hl 1), (Hl 6), (Hl 8) by lia.
  assert (Z.land (flags t pf) 1 =? 1 = false) as -> by by destruct t, pf.
  replace 15 with (Z.ones 4) by done. unfold M. rewrite size_of_mask by lia.
  assert (MemoryBarType_try_from (Z.shiftr (Z.land (flags t pf) 6) 1) = Some t) as -> by by destruct t, pf.
  assert (negb (Z.land (flags t pf) 8 =? 0) = pf) as -> by by destruct t, pf.
  change 0xfffffff0 with (2 ^ 32 - 2 ^ 4). rewrite land_high by lia. rewrite <- Zplus_mod_idemp_l. change (2 ^ 4) with 16. rewrite Hlo, Z.add_0_l, Z.mod_small by lia.
  rewrite Z.lor_comm, lor_shiftl by lia. do 3 f_equal. lia.
Qed.

Lemma mem32_result f i t pf a k : t <> Width64 ->
  4 <= k < 32 /\ 0 <= a < 2 ^ 32 /\ a mod 2 ^ k = 0 /\ reg f (4 + i) = a + flags t pf /\ wmask f (4 + i) = 2 ^ 32 - 2 ^ k ->
  bar_result f i = inl (Some (BarMemory t pf a (2 ^ k))).
Proof.
  intros Ht (Hk & Ha & Hm & E1 & E2). pose proof (flags_range t pf).
  assert (16 <= 2 ^ k) by (change 16 with (2 ^ 4); apply Z.pow_le_mono_r; lia).
  assert (2 ^ k < 2 ^ 32) by (apply Z.pow_lt_mono_r; lia).
  assert (a mod 16 = 0) as H16 by (apply (mod_weaken a k 4); (done || lia)).
  pose proof (probe_high f (4 + i) k a (flags t pf) ltac:(lia) ltac:(lia) Ha Hm E1 E2) as Ep.
  apply (mem_result f i t pf a k a 0); try done; try lia.
  - Z.div_mod_to_equations. lia.
  - unfold bar_sizes. rewrite E1, (low_flags a 4 4) by (done || lia). rewrite (Z.mod_small (flags t pf)) by (cbn; lia).
    assert (Z.land (flags t pf) 7 =? 4 = false) as -> by (destruct t, pf; done). rewrite Ep, (proj2 (Z.eqb_neq _ _)) by lia.
    f_equal. apply Z.div_unique with (2 ^ 32 - 2 ^ k); lia.
  - rewrite Ep. f_equal. apply Z.mod_unique with (2 ^ 32 - 1); lia.
Qed.
Lemma bar_at_result f i s : bar_at f i s -> bar_result f i = inl (spec_info s).
Proof.
  destruct s as [|a k|t pf a k]; cbn [spec_info].
  - intros [E1 E2]. assert (probe f (4 + i) = 0) as Ep by (unfold probe; by rewrite reg_write, E1, E2).
    unfold bar_result, bar_sizes. by rewrite E1, Ep.
  - intros (Hk & Ha & Hm & E1 & E2). assert (1 < 2 ^ k) by (apply Z.pow_gt_1; lia).
    pose proof (probe_high f (4 + i) k a 1 ltac:(lia) ltac:(lia) Ha Hm E1 E2) as Ep.
    assert (0 < 2 ^ k < 2 ^ 32) by (split; [lia|apply Z.pow_lt_mono_r; lia]).
    assert (Z.land (a + 1) 7 =? 4 = false) as E7.
    { apply Z.eqb_neq. intros E. apply (f_equal (fun x => Z.testbit x 0)) in E. rewrite Z.land_spec in E.
      change (Z.testbit 7 0) with true in E. change (Z.testbit 4 0) with false in E. rewrite andb_true_r, Z.bit0_odd, Z.odd_add in E.
      assert (Z.odd a = false) as Ho; [|by rewrite Ho in E]. apply (mod_weaken a k 1) in Hm; [|lia]. rewrite Zmod_odd in Hm. by destruct (Z.odd a). }
    unfold bar_result, bar_sizes. rewrite E1, E7, Ep. rewrite (proj2 (Z.eqb_neq (1 + (2 ^ 32 - 2 ^ k)) 0)) by lia. cbn [fst snd].
    rewrite (low_flags a k 1) by (done || lia). change (Z.land (1 mod 2 ^ 1) 1 =? 1) with true. cbv iota.
    assert (Z.lor (1 + (2 ^ 32 - 2 ^ k)) (Z.shiftl 0xffffffff 32) = 2 ^ 64 - 2 ^ k + 1) as ->.
    { rewrite Z.lor_comm, lor_shiftl by lia. lia. }
    rewrite (proj2 (Z.eqb_neq _ _)) by lia. replace 3 with (Z.ones 2) by done. rewrite size_of_mask by (cbn; lia).
    rewrite u32_small by lia. change 0xfffffffc with (2 ^ 32 - 2 ^ 2).
    assert (a + 1 < 2 ^ 32) by (apply (mod_weaken a k 1) in Hm; [|lia]; Z.div_mod_to_equations; lia).
    rewrite land_high by lia. rewrite <- Zplus_mod_idemp_l, (mod_weaken a k 2), Z.add_0_l by (done || lia). change (1 mod 2 ^ 2) with 1. do 3 f_equal. lia.
  - destruct t; cbn [bar_at].
    + intros Hb. by eapply mem32_result.
    + intros Hb. by eapply mem32_result.
    + intros (Hi & Hk & Ha & Hm & E1 & E2 & E3 & E4). set (M := 2 ^ 64 - 2 ^ k) in *.
      assert (0 < 2 ^ k < 2 ^ 64) by (split; [lia|apply Z.pow_lt_mono_r; lia]).
      pose proof (Z.mod_pos_bound a (2 ^ 32)). pose proof (flags_range Width64 pf).
      assert ((a mod 2 ^ 32) mod 16 = 0) as Hl.
      { rewrite Z.mod_mod_divide by (by exists (2 ^ 28)). apply (mod_weaken a k 4); (done || lia). }
      assert (a mod 2 ^ 32 + 16 <= 2 ^ 32) by (Z.div_mod_to_equations; lia).
      assert (probe f (4 + i) = flags Width64 pf + M mod 2 ^ 32 /\ probe f (5 + i) = M / 2 ^ 32) as [P1 P2].
      { destruct (Z.lt_ge_cases k 32) as [Hlt|Hge].
        - assert (2 ^ k < 2 ^ 32) by (apply Z.pow_lt_mono_r; lia).
          assert (16 <= 2 ^ k) by (change 16 with (2 ^ 4); apply Z.pow_le_mono_r; lia).
          assert (M mod 2 ^ 32 = 2 ^ 32 - 2 ^ k) as Em by (symmetry; apply Z.mod_unique with (2 ^ 32 - 1); lia).
          assert (M / 2 ^ 32 = 2 ^ 32 - 2 ^ 0) as Ed by (symmetry; apply Z.div_unique with (2 ^ 32 - 2 ^ k); lia).
          rewrite Em in *. rewrite Ed in *. split.
          + apply (probe_high f (4 + i) k (a mod 2 ^ 32)); try done; try lia. rewrite Z.mod_mod_divide; [done|]. exists (2 ^ (32 - k)). apply pow_multiple. lia.
          + rewrite (probe_high f (5 + i) 0 (a / 2 ^ 32) 0); try done; try lia.
            * split; [apply Z.div_pos; lia|apply Z.div_lt_upper_bound; lia].
            * by rewrite Z.mod_1_r.
        - assert (2 ^ 32 <= 2 ^ k) by (apply Z.pow_le_mono_r; lia).
          assert (M = (2 ^ 32 - 2 ^ (k - 32)) * 2 ^ 32) as EM by (unfold M; rewrite (pow_multiple k 32) by lia; lia).
          assert (M mod 2 ^ 32 = 0) as Em by (rewrite EM; by apply Z.mod_mul).
          assert (M / 2 ^ 32 = 2 ^ 32 - 2 ^ (k - 32)) as Ed by (rewrite EM; by apply Z.div_mul).
          rewrite Em in *. rewrite Ed in *. rewrite (mod_weaken a k 32) in E1 by (done || lia). split.
          + unfold probe. rewrite reg_write, E1, E2, Z.land_0_r, Z.lor_0_r, Z.ldiff_0_r. lia.
          + rewrite (probe_high f (5 + i) (k - 32) (a / 2 ^ 32) 0); try done; try lia.
            * split; [apply Z.div_pos; lia|apply Z.div_lt_upper_bound; lia].
            * apply Z.mod_divide in Hm as [q Hq]; [|lia]. rewrite Hq, (pow_multiple k 32), Z.mul_assoc, Z.div_mul by lia. apply Z.mod_mul. lia. }
      apply (mem_result f i Width64 pf a k (a mod 2 ^ 32) (a / 2 ^ 32)); try done; try lia.
      * unfold bar_sizes. rewrite E1, (low_flags (a mod 2 ^ 32) 4 4) by (done || lia). rewrite P2, E3.
        by destruct pf.
      * pose proof (Z.div_mod a (2 ^ 32)). lia.
Qed.

Lemma bar_at_wide f i s : bar_at f i s -> Z.land (reg f (4 + i)) 7 = 4 -> i < 5.
Proof.
  destruct s as [|a k|t pf a k]; cbn [bar_at].
  - intros [-> _]. done.
  - intros (Hk & Ha & Hm & E1 & _) E. exfalso. rewrite E1 in E.
    apply (f_equal (fun x => Z.land x 1)) in E. rewrite <- Z.land_assoc in E. change (Z.land 7 1) with 1 in E. change (Z.land 4 1) with 0 in E.
    rewrite (low_flags a k 1) in E by (done || lia). done.
  - destruct t; [..|lia]; intros (Hk & Ha & Hm & E1 & _) E; exfalso; rewrite E1 in E;
      rewrite (low_flags a k 4) in E by (done || lia); by destruct pf.
Qed.

(** The six registers as consecutive BARs. *)
Definition width (s : bar_spec) : Z := match s with MemBar Width64 _ _ _ => 2 | _ => 1 end.
Fixpoint layout (f : hw_function) (i : Z) (ss : list bar_spec) : Prop :=
  match ss with
  | [] => i = 6
  | s :: ss => i <= 5 /\ bar_at f i s /\ layout f (i + width s) ss
  end.
Definition layout_info (ss : list bar_spec) : list (option BarInfo) :=
  ss ≫= fun s => spec_info s :: (if width s =? 2 then [None] else []).
Lemma layout_length f ss : forall i, layout f i ss -> len (layout_info ss) = 6 - i.
Proof.
  induction ss as [|s ss IH]; intros i; cbn [layout]; [by intros ->|]. intros (_ & _ & Hl%IH). unfold layout_info in *. rewrite bind_cons, len_app, Hl.
  destruct s as [| |[] ]; cbn; unfold len; cbn; lia.
Qed.

(** ** Slots *)

Definition slot (bus k : Z) : DeviceFunction := mkDf bus (k / 8) (k mod 8).
Definition slots (bus k : Z) : list DeviceFunction := slot bus <$> seqZ k (256 - k).
Definition info_at (s : cfg) (df : DeviceFunction) : DeviceFunctionInfo :=
  let w0 := cfg_read df 0 s in let w2 := cfg_read df 2 s in
  mkInfo (u16 w0) (u16 (Z.shiftr w0 16)) (u8 (Z.shiftr w2 24)) (u8 (Z.shiftr w2 16)) (u8 (Z.shiftr w2 8)) (u8 w2)
    (HeaderType_from (Z.land (u8 (Z.shiftr (cfg_read df 3 s) 16)) 0x7f)).
(** What answers at a slot. *)
Definition found (s : cfg) (df : DeviceFunction) : option (DeviceFunction * DeviceFunctionInfo) :=
  if cfg_read df 0 s =? INVALID_READ then None else Some (df, info_at s df).
Lemma slots_cons bus k : k < 256 -> slots bus k = slot bus k :: slots bus (k + 1).
Proof.
  intros. unfold slots. rewrite seqZ_cons by lia. rewrite fmap_cons. do 3 f_equal; lia.
Qed.
Lemma next_slot_eq bus k : 0 <= k -> next_slot (slot bus k) = slot bus (k + 1).
Proof.
  intros. unfold next_slot, slot, MAX_FUNCTIONS. cbn [df_bus df_device df_function].
  destruct (Z.leb_spec 8 (k mod 8 + 1)); f_equal; Z.div_mod_to_equations; lia.
Qed.
Lemma slot_ok bus k : 0 <= bus < 256 -> 0 <= k < 256 -> df_ok (slot bus k).
Proof. intros. unfold df_ok, slot. cbn [df_bus df_device df_function]. Z.div_mod_to_equations. lia. Qed.

(** ** The root complex *)

Section Root.
Context {C : Type} `{ConfigLaws C}.

(** C36.  Reading a BAR is exact and leaves no trace: for every function and
    every BAR it implements, memory or I/O, 32 or 64 bits wide, of any size, the
    result is its type, its address and its size, and afterwards the
    configuration of the whole bus is what it was before, although the BAR and
    the command register were overwritten meanwhile. *)
Theorem bar_info_exact (c : C) df f i s :
  cam_ok c -> df_ok df -> cfg_of c !! df = Some f -> hw_ok f -> 0 <= i <= 5 -> bar_at f i s ->
  exists c', bar_info df i c = Ret (c', inl (spec_info s)) /\ cfg_of c' = cfg_of c /\ cam_ok c'.
Proof.
  intros Hc Hdf Ef Hok Hi Hs.
  destruct (bar_info_run c df Hdf f c i Hok) as (c' & E & A); [by apply at_start|done|by apply (bar_at_wide f i s)|].
  exists c'. rewrite E, (bar_at_result _ _ _ Hs). split; [done|]. split; [by eapply at_back|apply A].
Qed.

Lemma bars_loop_run c0 df f ss : df_ok df -> hw_ok f -> forall fuel i pre (c : C),
  at_fn c0 df f c -> 0 <= i -> layout f i ss -> (length ss < fuel)%nat -> len pre = i ->
  exists c', bars_loop fuel df i (pre ++ replicate (Z.to_nat (6 - i)) None) c = Ret (c', inl (pre ++ layout_info ss)) /\ at_fn c0 df f c'.
Proof.
  intros Hdf Hok. induction ss as [|s ss IH]; intros fuel i pre c Ha Hi Hl Hf Hp; (destruct fuel as [|fuel]; [cbn in Hf; lia|]); cbn [bars_loop].
  - cbn [layout] in Hl. rewrite (proj2 (Z.leb_le 6 i)) by lia. replace (Z.to_nat (6 - i)) with 0%nat by lia. by exists c.
  - destruct Hl as (H5 & Hs & Hl). rewrite (proj2 (Z.leb_gt _ _)) by lia.
    destruct (bar_info_run c0 df Hdf f c i Hok Ha ltac:(lia) (bar_at_wide f i s Hs)) as (c1 & E & A1).
    rewrite E, (bar_at_result f i s Hs). cbn [mbind outcome_bind].
    set (n := match spec_info s with Some b => if takes_two_entries b then 2 else 1 | None => 1 end).
    assert (n = width s) as -> by (unfold n; by destruct s as [| |[] ]).
    pose proof (layout_length f ss _ Hl). pose proof (len_nonneg (layout_info ss)). assert (1 <= width s <= 2) by (destruct s as [| |[] ]; cbn; lia).
    destruct (IH fuel (i + width s) (pre ++ spec_info s :: (if width s =? 2 then [None] else [])) c1 A1) as (c' & E' & A');
      [lia|done|cbn in Hf; lia| |].
    { rewrite len_app, len_cons, Hp. destruct (Z.eqb_spec (width s) 2); rewrite ?len_cons, ?len_nil; lia. }
    assert (<[Z.to_nat i := spec_info s]> (pre ++ replicate (Z.to_nat (6 - i)) None)
      = (pre ++ spec_info s :: (if width s =? 2 then [None] else [])) ++ replicate (Z.to_nat (6 - (i + width s))) None) as ->.
    { rewrite <- app_assoc. replace (Z.to_nat i) with (length pre + 0)%nat by (unfold len in Hp; lia). rewrite insert_app_r. f_equal.
      replace (Z.to_nat (6 - i)) with (S (Z.to_nat (6 - i) - 1)) by lia. cbn [replicate insert list_insert app]. f_equal.
      destruct (Z.eqb_spec (width s) 2) as [E2|E2]; cbn [app]; [|f_equal; lia].
      replace (Z.to_nat (6 - i) - 1)%nat with (S (Z.to_nat (6 - (i + width s)))) by lia. done. }
    exists c'. split; [|done]. rewrite E'. unfold layout_info. by rewrite bind_cons, <- app_assoc.
Qed.
(** [bars] lists the BARs of a function at the indices of their first registers. *)
Theorem bars_exact (c : C) df f ss :
  cam_ok c -> df_ok df -> cfg_of c !! df = Some f -> hw_ok f -> layout f 0 ss ->
  exists c', bars df c = Ret (c', inl (layout_info ss)) /\ cfg_of c' = cfg_of c /\ cam_ok c'.
Proof.
  intros Hc Hdf Ef Hok Hl. destruct (bars_loop_run c df f ss Hdf Hok 7 0 [] c) as (c' & E & A); [by apply at_start|done|done| |done|].
  - enough (forall ss i, layout f i ss -> Z.of_nat (length ss) <= 6 - i) as Hn by (specialize (Hn ss 0 Hl); lia).
    clear. induction ss as [|s ss IH]; intros i; cbn [layout length]; [lia|]. intros (_ & _ & Hl%IH). destruct s as [| |[] ]; cbn [width] in Hl; lia.
  - exists c'. split; [exact E|]. split; [by eapply at_back|apply A].
Qed.

(** A 64-bit BAR in the last register is rejected after its probe but before it
    is restored: the BAR is left as the probe wrote it and the function no longer
    decodes addresses. *)
Theorem bad_bar_left_probed (c : C) df f :
  cam_ok c -> df_ok df -> cfg_of c !! df = Some f -> hw_ok f -> Z.land (reg f 9) 7 = 4 ->
  exists c', bar_info df 5 c = Ret (c', inr InvalidBarType) /\ cfg_of c' = <[df := hw_write 9 0xffffffff (off f)]> (cfg_of c).
Proof.
  intros Hc Hdf Ef Hok Hw. pose proof (at_start c df f Hc Ef) as Ha. unfold bar_info.
  destruct (at_status_command c df Hdf f c Ha) as (c1 & E0 & A1). go E0. fold (quiet f). fold (decoding f).
  destruct (at_disable c df Hdf f c1 A1) as (c2 & E1 & A2). go E1. change (bar_offset 5) with (4 * 9).
  destruct (at_probe c df Hdf (off f) c2 9 (off_ok f Hok) A2 ltac:(lia)) as (c3 & c4 & c5 & _ & E2 & E3 & _ & E4 & A5 & _).
  rewrite reg_off in E2 by lia. go E2. go E3. go E4. rewrite Hw. cbn [Z.eqb Z.leb Z.compare Pos.eqb Pos.compare Pos.compare_cont mbind outcome_bind].
  exists c5. split; [done|]. apply A5.
Qed.

(** ** Enumeration *)
Lemma bus_next_run bus n : 0 <= bus < 256 -> forall k fuel (c : C), 0 <= k -> k + Z.of_nat n = 256 -> (n < fuel)%nat -> cam_ok c ->
  exists c', cam_ok c' /\ cfg_of c' = cfg_of c /\
    ((omap (found (cfg_of c)) (slots bus k) = [] /\ bus_next fuel (slot bus k) c = Ret (c', slot bus 256, None)) \/
     exists j d, k <= j < 256 /\ omap (found (cfg_of c)) (slots bus k) = d :: omap (found (cfg_of c)) (slots bus (j + 1)) /\
       bus_next fuel (slot bus k) c = Ret (c', slot bus (j + 1), Some d)).
Proof.
  intros Hbus. induction n as [|n IH]; intros k fuel c Hk Hn Hf Hc; (destruct fuel as [|fuel]; [lia|]); cbn [bus_next].
  - assert (k = 256) as -> by lia. exists c. split; [done|]. split; [done|]. left. done.
  - rewrite slots_cons by lia. cbn [omap list_omap]. unfold MAX_DEVICES.
    rewrite (proj2 (Z.ltb_lt _ _)) by (unfold slot; cbn [df_device]; Z.div_mod_to_equations; lia).
    pose proof (slot_ok bus k Hbus ltac:(lia)) as Hs.
    destruct (read_word_ok (slot bus k) 0 c Hc Hs ltac:(lia)) as (c1 & E1 & F1 & Hc1). change (4 * 0) with 0 in E1. go E1.
    destruct (found (cfg_of c) (slot bus k)) as [d|] eqn:Ed; unfold found in Ed;
      destruct (Z.eqb_spec (cfg_read (slot bus k) 0 (cfg_of c)) INVALID_READ) as [Ei|Ei]; try done; cbn [negb]; revgoals.
    + rewrite next_slot_eq by lia. destruct (IH (k + 1) fuel c1) as (c' & Hc' & F' & Hr); [lia|lia|lia|done|].
      exists c'. split; [done|]. split; [congruence|]. rewrite F1 in Hr. destruct Hr as [Hr|(j & d & Hj & Hr)]; [by left|right].
      exists j, d. split; [lia|done].
    + destruct (read_word_ok (slot bus k) 2 c1 Hc1 Hs ltac:(lia)) as (c2 & E2 & F2 & Hc2). change (4 * 2) with 8 in E2. go E2.
      destruct (read_word_ok (slot bus k) 3 c2 Hc2 Hs ltac:(lia)) as (c3 & E3 & F3 & Hc3). change (4 * 3) with 12 in E3. go E3.
      rewrite F2, F1, next_slot_eq by lia. exists c3. split; [done|]. split; [congruence|]. right. exists k, d. split; [lia|]. split; [done|].
      injection Ed as <-. done.
Qed.
Lemma bus_devices_run bus n : 0 <= bus < 256 -> forall k fuel (c : C), 0 <= k -> k + Z.of_nat n = 256 -> (n < fuel)%nat -> cam_ok c ->
  exists c', cam_ok c' /\ cfg_of c' = cfg_of c /\ bus_devices fuel (slot bus k) c = Ret (c', omap (found (cfg_of c)) (slots bus k)).
Proof.
  intros Hbus. induction n as [n IH] using lt_wf_ind. intros k fuel c Hk Hn Hf Hc. destruct fuel as [|fuel]; [lia|]. cbn [bus_devices].
  destruct (bus_next_run bus n Hbus k 257 c Hk Hn ltac:(lia) Hc) as (c1 & Hc1 & F1 & [[E0 E]|(j & d & Hj & E0 & E)]); go E; rewrite E0.
  - by exists c1.
  - destruct (IH (Z.to_nat (255 - j)) ltac:(lia) (j + 1) fuel c1) as (c' & Hc' & F' & E'); [lia|lia|lia|done|].
    go E'. exists c'. split; [done|]. split; [congruence|]. by rewrite F1.
Qed.
(** Enumerating a bus terminates and finds exactly the functions that answer,
    in the order of their numbers, each once and with the identity its
    registers give. *)
Theorem enumerate_exact (c : C) bus :
  cam_ok c -> 0 <= bus < 256 ->
  exists c', enumerate_bus bus c = Ret (c', omap (found (cfg_of c)) (slots bus 0)) /\ cfg_of c' = cfg_of c /\ cam_ok c'.
Proof.
  intros Hc Hb. destruct (bus_devices_run bus 256 Hb 0 257 c) as (c' & Hc' & F & E); [lia|lia|lia|done|]. exists c'. by split_and!.
Qed.
End Root.
