(* ===== verification/VirtioPci.v ===== *)
(** * The PCI transport of virtio

    Models [src/virtio-drivers-patched/src/transport/pci.rs] (with the kernel's
    [TynHal], which maps device memory one to one) and the initialisation
    protocol of [transport/mod.rs].  A transport is where its structures are;
    [Mmio] is the device behind those addresses. *)

From S2P Require Import Prelude Pci Virtqueue.

Definition VIRTIO_VENDOR_ID : Z := 0x1af4.
Definition PCI_DEVICE_ID_OFFSET : Z := 0x1040.
Definition CAP_BAR_OFFSET : Z := 4.
Definition CAP_BAR_OFFSET_OFFSET : Z := 8.
Definition CAP_LENGTH_OFFSET : Z := 12.
Definition CAP_NOTIFY_OFF_MULTIPLIER_OFFSET : Z := 16.
Definition VIRTIO_PCI_CAP_COMMON_CFG : Z := 1.
Definition VIRTIO_PCI_CAP_NOTIFY_CFG : Z := 2.
Definition VIRTIO_PCI_CAP_ISR_CFG : Z := 3.
Definition VIRTIO_PCI_CAP_DEVICE_CFG : Z := 4.

Inductive DeviceType :=
  | Network | Block | Console | EntropySource | MemoryBallooning | IoMemory | Rpmsg | ScsiHost | _9P | Mac80211
  | RprocSerial | VirtioCAIF | MemoryBalloon | GPU | Timer | Input | SocketDevice | Crypto | SignalDistributionModule
  | Pstore | IOMMU | Memory | Sound.
#[export] Instance DeviceType_eq_dec : EqDecision DeviceType.
Proof. solve_decision. Defined.
Definition DeviceType_try_from (virtio_device_id : Z) : option DeviceType :=
  match virtio_device_id with
  | 1 => Some Network
  | 2 => Some Block
  | 3 => Some Console
  | 4 => Some EntropySource
  | 5 => Some MemoryBalloon
  | 6 => Some IoMemory
  | 7 => Some Rpmsg
  | 8 => Some ScsiHost
  | 9 => Some _9P
  | 10 => Some Mac80211
  | 11 => Some RprocSerial
  | 12 => Some VirtioCAIF
  | 13 => Some MemoryBalloon
  | 16 => Some GPU
  | 17 => Some Timer
  | 18 => Some Input
  | 19 => Some SocketDevice
  | 20 => Some Crypto
  | 21 => Some SignalDistributionModule
  | 22 => Some Pstore
  | 23 => Some IOMMU
  | 24 => Some Memory
  | 25 => Some Sound
  | _ => None
  end.
Definition device_type (pci_device_id : Z) : option DeviceType :=
  match pci_device_id with
  | 0x1000 => Some Network
  | 0x1001 => Some Block
  | 0x1002 => Some MemoryBalloon
  | 0x1003 => Some Console
  | 0x1004 => Some ScsiHost
  | 0x1005 => Some EntropySource
  | 0x1009 => Some _9P
  | id => if PCI_DEVICE_ID_OFFSET <=? id then DeviceType_try_from (id - PCI_DEVICE_ID_OFFSET) else None
  end.
Definition virtio_device_type (info : DeviceFunctionInfo) : option DeviceType :=
  if vendor_id info =? VIRTIO_VENDOR_ID then device_type (device_id info) else None.

Inductive VirtioPciError :=
  | InvalidDeviceId (id : Z) | InvalidVendorId (id : Z) | MissingCommonConfig | MissingNotifyConfig
  | InvalidNotifyOffMultiplier (m : Z) | MissingIsrConfig | UnexpectedIoBar | BarNotAllocated (bar : Z)
  | BarOffsetOutOfRange | Misaligned (address alignment : Z) | PciErr (e : PciError).
Record VirtioCapabilityInfo := mkVcap { vc_bar : Z; vc_offset : Z; vc_length : Z }.

(** Addresses; the regions with their number of elements. *)
Record PciTransport := mkPciTransport {
  t_device_type : DeviceType;
  t_device_function : DeviceFunction;
  common_cfg : Z;
  notify_region : Z * Z; (* of u16 *)
  notify_off_multiplier : Z;
  isr_status : Z;
  config_space : option (Z * Z); (* of u32 *)
}.

(** ** Construction *)

Section New.
Context {C : Type} `{ConfigurationAccess C}.

(** [size] and [align] are those of the structure. *)
Definition get_bar_region (size align : Z) (df : DeviceFunction) (info : VirtioCapabilityInfo) (c : C)
    : outcome (C * (Z + VirtioPciError)) :=
  '(c, r) ← bar_info df (vc_bar info) c;
  match r with
  | inr e => Ret (c, inr (PciErr e))
  | inl None => Ret (c, inr (BarNotAllocated (vc_bar info)))
  | inl (Some b) =>
      match memory_address_size b with
      | None => Ret (c, inr UnexpectedIoBar)
      | Some (bar_address, bar_size) =>
          if bar_address =? 0 then Ret (c, inr (BarNotAllocated (vc_bar info))) else
          if (bar_size <? u32 (vc_offset info + vc_length info)) || (vc_length info <? size) then Ret (c, inr BarOffsetOutOfRange) else
          let paddr := bar_address ⊞ vc_offset info in
          if paddr =? 0 then Panic else
          if negb (paddr mod align =? 0) then Ret (c, inr (Misaligned paddr align)) else
          Ret (c, inl paddr)
      end
  end.
Definition get_bar_region_slice (size align : Z) (df : DeviceFunction) (info : VirtioCapabilityInfo) (c : C)
    : outcome (C * ((Z * Z) + VirtioPciError)) :=
  '(c, r) ← get_bar_region size align df info c;
  Ret (c, match r with inl a => inl (a, vc_length info / size) | inr e => inr e end).

(** What the loop over the capabilities has found. *)
Record found_caps := mkFound {
  fc_common : option VirtioCapabilityInfo;
  fc_notify : option VirtioCapabilityInfo;
  fc_multiplier : Z;
  fc_isr : option VirtioCapabilityInfo;
  fc_device : option VirtioCapabilityInfo;
}.
Definition cap_step (df : DeviceFunction) (cap : CapabilityInfo) (s : found_caps) (c : C) : outcome (C * found_caps) :=
  if negb (cap_id cap =? PCI_CAP_ID_VNDR) then Ret (c, s) else
  let cap_len := u8 (private_header cap) in
  let cfg_type := u8 (Z.shiftr (private_header cap) 8) in
  if cap_len <? 16 then Ret (c, s) else
  '(c, bar) ← read_word df (u8 (cap_offset cap + CAP_BAR_OFFSET)) c;
  '(c, offset) ← read_word df (u8 (cap_offset cap + CAP_BAR_OFFSET_OFFSET)) c;
  '(c, length_) ← read_word df (u8 (cap_offset cap + CAP_LENGTH_OFFSET)) c;
  let struct_info := mkVcap (u8 bar) offset length_ in
  if (cfg_type =? VIRTIO_PCI_CAP_COMMON_CFG) && bool_decide (fc_common s = None) then
    Ret (c, mkFound (Some struct_info) (fc_notify s) (fc_multiplier s) (fc_isr s) (fc_device s))
  else if (cfg_type =? VIRTIO_PCI_CAP_NOTIFY_CFG) && (20 <=? cap_len) && bool_decide (fc_notify s = None) then
    '(c, m) ← read_word df (u8 (cap_offset cap + CAP_NOTIFY_OFF_MULTIPLIER_OFFSET)) c;
    Ret (c, mkFound (fc_common s) (Some struct_info) m (fc_isr s) (fc_device s))
  else if (cfg_type =? VIRTIO_PCI_CAP_ISR_CFG) && bool_decide (fc_isr s = None) then
    Ret (c, mkFound (fc_common s) (fc_notify s) (fc_multiplier s) (Some struct_info) (fc_device s))
  else if (cfg_type =? VIRTIO_PCI_CAP_DEVICE_CFG) && bool_decide (fc_device s = None) then
    Ret (c, mkFound (fc_common s) (fc_notify s) (fc_multiplier s) (fc_isr s) (Some struct_info))
  else Ret (c, s).
(** [None]: the list goes on when the fuel ends. *)
Fixpoint cap_loop (fuel : nat) (df : DeviceFunction) (next : option Z) (s : found_caps) (c : C) : option (outcome (C * found_caps)) :=
  match next with
  | None => Some (Ret (c, s))
  | Some offset =>
      match fuel with
      | O => None
      | S fuel' =>
          match ('(c, (cap, next)) ← cap_next df offset c; '(c, s) ← cap_step df cap s c; Ret (c, next, s)) with
          | Panic => Some Panic
          | Ret (c, next, s) => cap_loop fuel' df next s c
          end
      end
  end.

(** The structures of what was found. *)
Definition open_regions (df : DeviceFunction) (ty : DeviceType) (s : found_caps) (c : C)
    : outcome (C * (PciTransport + VirtioPciError)) :=
  match fc_common s with
  | None => Ret (c, inr MissingCommonConfig)
  | Some common =>
      '(c, r) ← get_bar_region 56 8 df common c;
      match r with
      | inr e => Ret (c, inr e)
      | inl common =>
          match fc_notify s with
          | None => Ret (c, inr MissingNotifyConfig)
          | Some notify =>
              if negb (fc_multiplier s mod 2 =? 0) then Ret (c, inr (InvalidNotifyOffMultiplier (fc_multiplier s))) else
              '(c, r) ← get_bar_region_slice 2 2 df notify c;
              match r with
              | inr e => Ret (c, inr e)
              | inl notify =>
                  match fc_isr s with
                  | None => Ret (c, inr MissingIsrConfig)
                  | Some isr =>
                      '(c, r) ← get_bar_region 1 1 df isr c;
                      match r with
                      | inr e => Ret (c, inr e)
                      | inl isr =>
                          match fc_device s with
                          | None => Ret (c, inl (mkPciTransport ty df common notify (fc_multiplier s) isr None))
                          | Some dev =>
                              '(c, r) ← get_bar_region_slice 4 4 df dev c;
                              match r with
                              | inr e => Ret (c, inr e)
                              | inl dev => Ret (c, inl (mkPciTransport ty df common notify (fc_multiplier s) isr (Some dev)))
                              end
                          end
                      end
                  end
              end
          end
      end
  end.

Definition pci_transport_new (fuel : nat) (df : DeviceFunction) (c : C) : option (outcome (C * (PciTransport + VirtioPciError))) :=
  match read_word df 0 c with
  | Panic => Some Panic
  | Ret (c, device_vendor) =>
      let device_id := u16 (Z.shiftr device_vendor 16) in
      let vendor_id := u16 device_vendor in
      if negb (vendor_id =? VIRTIO_VENDOR_ID) then Some (Ret (c, inr (InvalidVendorId vendor_id))) else
      match device_type device_id with
      | None => Some (Ret (c, inr (InvalidDeviceId device_id)))
      | Some ty =>
          match capabilities_offset df c with
          | Panic => Some Panic
          | Ret (c, first) =>
              match cap_loop fuel df first (mkFound None None 0 None None) c with
              | None => None
              | Some Panic => Some Panic
              | Some (Ret (c, s)) => Some (open_regions df ty s c)
              end
          end
      end
  end.
End New.

(** ** Operation *)

(** Loads and stores of 1, 2, 4 or 8 bytes at a device address. *)
Class Mmio (D : Type) := {
  mmio_read : Z -> Z -> D -> D * Z;
  mmio_write : Z -> Z -> Z -> D -> D;
}.
(** [virtio_pci_common_cfg]: field and width. *)
Definition device_feature_select : Z * Z := (0, 4).
Definition device_feature : Z * Z := (4, 4).
Definition driver_feature_select : Z * Z := (8, 4).
Definition driver_feature : Z * Z := (12, 4).
Definition device_status : Z * Z := (20, 1).
Definition config_generation : Z * Z := (21, 1).
Definition queue_select : Z * Z := (22, 2).
Definition queue_size : Z * Z := (24, 2).
Definition queue_enable : Z * Z := (28, 2).
Definition queue_notify_off : Z * Z := (30, 2).
Definition queue_desc : Z * Z := (32, 8).
Definition queue_driver : Z * Z := (40, 8).
Definition queue_device : Z * Z := (48, 8).

Definition STATUS_BITS : Z := 0xCF.
Definition ACKNOWLEDGE : Z := 1.
Definition DRIVER : Z := 2.
Definition DRIVER_OK : Z := 4.
Definition FEATURES_OK : Z := 8.

Section Transport.
Context {D : Type} `{Mmio D}.
Variable t : PciTransport.

Definition cfg_get (f : Z * Z) (d : D) : D * Z := mmio_read (common_cfg t ⊞ fst f) (snd f) d.
Definition cfg_put (f : Z * Z) (v : Z) (d : D) : D := mmio_write (common_cfg t ⊞ fst f) (snd f) v d.

Definition read_device_features (d : D) : D * Z :=
  let d := cfg_put device_feature_select 0 d in
  let '(d, lo) := cfg_get device_feature d in
  let d := cfg_put device_feature_select 1 d in
  let '(d, hi) := cfg_get device_feature d in
  (d, Z.lor lo (Z.shiftl hi 32)).
Definition write_driver_features (driver_features : Z) (d : D) : D :=
  let d := cfg_put driver_feature_select 0 d in
  let d := cfg_put driver_feature (u32 driver_features) d in
  let d := cfg_put driver_feature_select 1 d in
  cfg_put driver_feature (u32 (Z.shiftr driver_features 32)) d.
Definition max_queue_size (queue : Z) (d : D) : D * Z :=
  cfg_get queue_size (cfg_put queue_select queue d).
(** The index into the notification region is checked. *)
Definition notify (queue : Z) (d : D) : outcome D :=
  let '(d, off) := cfg_get queue_notify_off (cfg_put queue_select queue d) in
  let index := (off * notify_off_multiplier t) / 2 in
  if index <? snd (notify_region t) then Ret (mmio_write (fst (notify_region t) ⊞ 2 * index) 2 queue d) else Panic.
Definition get_status (d : D) : D * Z :=
  let '(d, s) := cfg_get device_status d in (d, Z.land s STATUS_BITS).
Definition set_status (status : Z) (d : D) : D := cfg_put device_status (u8 status) d.
Definition queue_set (queue size descriptors driver_area device_area : Z) (d : D) : D :=
  let d := cfg_put queue_select queue d in
  let d := cfg_put queue_size (u16 size) d in
  let d := cfg_put queue_desc descriptors d in
  let d := cfg_put queue_driver driver_area d in
  let d := cfg_put queue_device device_area d in
  cfg_put queue_enable 1 d.
Definition queue_used (queue : Z) (d : D) : D * bool :=
  let '(d, e) := cfg_get queue_enable (cfg_put queue_select queue d) in (d, e =? 1).
Definition ack_interrupt (d : D) : D * Z := mmio_read (isr_status t) 1 d.
Definition read_config_generation (d : D) : D * Z := cfg_get config_generation d.
(** A value of [size] bytes with alignment [align]. *)
Definition read_config_space (size align offset : Z) (d : D) : outcome (D * vresult Z) :=
  if 4 <? align then Panic else if negb (offset mod align =? 0) then Panic else
  match config_space t with
  | None => Ret (d, VErr ConfigSpaceMissing)
  | Some (a, n) =>
      if n ⊠ 4 <? offset ⊞ size then Ret (d, VErr ConfigSpaceTooSmall)
      else let '(d, v) := mmio_read (a ⊞ offset) size d in Ret (d, VOk v)
  end.
Definition write_config_space (size align offset value : Z) (d : D) : outcome (D * vresult unit) :=
  if 4 <? align then Panic else if negb (offset mod align =? 0) then Panic else
  match config_space t with
  | None => Ret (d, VErr ConfigSpaceMissing)
  | Some (a, n) =>
      if n ⊠ 4 <? offset ⊞ size then Ret (d, VErr ConfigSpaceTooSmall)
      else Ret (mmio_write (a ⊞ offset) size value d, VOk tt)
  end.

(** ** The initialisation protocol *)

Definition begin_init (supported_features : Z) (d : D) : D * Z :=
  let d := set_status 0 d in
  let d := set_status (Z.lor ACKNOWLEDGE DRIVER) d in
  let '(d, device_features) := read_device_features d in
  let negotiated_features := Z.land device_features supported_features in
  let d := write_driver_features negotiated_features d in
  let d := set_status (Z.lor (Z.lor ACKNOWLEDGE DRIVER) FEATURES_OK) d in
  (d, negotiated_features).
Definition finish_init (d : D) : D :=
  set_status (Z.lor (Z.lor (Z.lor ACKNOWLEDGE DRIVER) FEATURES_OK) DRIVER_OK) d.
(** [None]: the generation still changes when the fuel ends. *)
Fixpoint read_consistent {A} (fuel : nat) (f : D -> outcome (D * A)) (d : D) : option (outcome (D * A)) :=
  match fuel with
  | O => None
  | S fuel' =>
      let '(d, before) := read_config_generation d in
      match f d with
      | Panic => Some Panic
      | Ret (d, result) =>
          let '(d, after) := read_config_generation d in
          if before =? after then Some (Ret (d, result)) else read_consistent fuel' f d
      end
  end.
(** [Drop]: reset, and wait until the device has. *)
Fixpoint wait_reset (fuel : nat) (d : D) : option D :=
  match fuel with
  | O => None
  | S fuel' => let '(d, s) := get_status d in if s =? 0 then Some d else wait_reset fuel' d
  end.
Definition drop_transport (fuel : nat) (d : D) : option D := wait_reset fuel (set_status 0 d).
End Transport.
