(* ===== verification/VirtioPciProps.v ===== *)
(** * The PCI transport of virtio: theorems

    From the capabilities of a virtio function the transport is built with
    exactly the structures they describe; a capability list with a cycle hangs
    it.  On a device that behaves as the virtio specification says, the
    initialisation negotiates the features both sides have, and queues are set up
    and notified as asked. *)

From S2P Require Import Prelude Pci PciProps Virtqueue VirtioNet VirtioPci.

(** ** Capabilities in configuration space *)

Record vcap := mkV {
  v_off : Z; v_id : Z; v_next : Z; v_len : Z; v_type : Z; v_bar : Z; v_offset : Z; v_length : Z; v_mult : Z;
}.
Definition v_info (v : vcap) : VirtioCapabilityInfo := mkVcap (v_bar v) (v_offset v) (v_length v).
Definition cap_at (f : hw_function) (v : vcap) : Prop :=
  64 <= v_off v /\ v_off v mod 4 = 0 /\ v_off v + 20 <= 256 /\
  0 <= v_id v < 256 /\ 0 <= v_next v < 256 /\ 0 <= v_len v < 256 /\ 0 <= v_type v < 256 /\
  reg f (v_off v / 4) = v_id v + 2 ^ 8 * v_next v + 2 ^ 16 * v_len v + 2 ^ 24 * v_type v /\
  (v_id v = PCI_CAP_ID_VNDR -> 16 <= v_len v ->
     u8 (reg f (v_off v / 4 + 1)) = v_bar v /\ reg f (v_off v / 4 + 2) = v_offset v /\ reg f (v_off v / 4 + 3) = v_length v) /\
  (v_id v = PCI_CAP_ID_VNDR -> 20 <= v_len v -> reg f (v_off v / 4 + 4) = v_mult v).
(** A list from the offset [next] on; 0 ends it. *)
Fixpoint chain (f : hw_function) (next : Z) (caps : list vcap) : Prop :=
  match caps with
  | [] => next = 0
  | v :: caps => v_off v = next /\ cap_at f v /\ chain f (v_next v) caps
  end.
(** The first structure of a type whose capability has at least [n] bytes. *)
Definition is_struct (ty n : Z) (v : vcap) : bool := (v_id v =? PCI_CAP_ID_VNDR) && (n <=? v_len v) && (v_type v =? ty).
Definition first_cap (ty n : Z) (caps : list vcap) : option vcap := head (List.filter (is_struct ty n) caps).
Definition pick (caps : list vcap) : found_caps :=
  mkFound (v_info <$> first_cap 1 16 caps) (v_info <$> first_cap 2 20 caps) (default 0 (v_mult <$> first_cap 2 20 caps))
    (v_info <$> first_cap 3 16 caps) (v_info <$> first_cap 4 16 caps).
Lemma first_cap_snoc ty n caps v : first_cap ty n (caps ++ [v]) =
  match first_cap ty n caps with Some w => Some w | None => if is_struct ty n v then Some v else None end.
Proof.
  unfold first_cap. rewrite List.filter_app. destruct (List.filter (is_struct ty n) caps); cbn; [|done]. by destruct (is_struct ty n v).
Qed.

Lemma header_fields id next l ty : 0 <= id < 256 -> 0 <= next < 256 -> 0 <= l < 256 -> 0 <= ty < 256 ->
  let w := id + 2 ^ 8 * next + 2 ^ 16 * l + 2 ^ 24 * ty in
  u8 w = id /\ u8 (Z.shiftr w 8) = next /\ u8 (u16 (Z.shiftr w 16)) = l /\ u8 (Z.shiftr (u16 (Z.shiftr w 16)) 8) = ty.
Proof.
  intros Hi Hn Hl Ht w. unfold u8, u16, wrap. rewrite !Z.shiftr_div_pow2 by lia. unfold w.
  change (2 ^ 8) with 256. change (2 ^ 16) with 65536. change (2 ^ 24) with 16777216.
  split_and!; Z.div_mod_to_equations; lia.
Qed.
Definition next_of (v : vcap) : option Z :=
  if v_next v =? 0 then None else if (v_next v <? 64) || negb (Z.land (v_next v) 3 =? 0) then None else Some (v_next v).

Section New.
Context {C : Type} `{ConfigLaws C}.
Variables (c0 : C) (df : DeviceFunction).
Hypothesis Hdf : df_ok df.
Notation at_fn := (at_fn c0 df).

(** Reads at byte offsets. *)
Lemma at_read_off f c o r : at_fn f c -> o = 4 * r -> 0 <= r < 64 -> exists c', read_word df o c = Ret (c', reg f r) /\ at_fn f c'.
Proof. intros Ha -> Hr. by apply at_read. Qed.
Lemma at_cap_next f c v : at_fn f c -> cap_at f v ->
  exists c' ph, cap_next df (v_off v) c = Ret (c', (mkCap (v_off v) (v_id v) ph, next_of v)) /\ at_fn f c' /\
    u8 ph = v_len v /\ u8 (Z.shiftr ph 8) = v_type v.
Proof.
  intros Ha (H1 & H2 & H3 & Hi & Hn & Hl & Ht & E & _). destruct (header_fields _ _ _ _ Hi Hn Hl Ht) as (E1 & E2 & E3 & E4).
  destruct (at_read_off f c (v_off v) (v_off v / 4) Ha) as (c1 & Er & A1); [Z.div_mod_to_equations; lia..|].
  unfold cap_next. go Er. rewrite E. rewrite E1, E2. eexists c1, _. split; [reflexivity|]. done.
Qed.
Lemma at_cap_step f c v pre ph : at_fn f c -> cap_at f v -> u8 ph = v_len v -> u8 (Z.shiftr ph 8) = v_type v ->
  exists c', cap_step df (mkCap (v_off v) (v_id v) ph) (pick pre) c = Ret (c', pick (pre ++ [v])) /\ at_fn f c'.
Proof.
  intros Ha (H1 & H2 & H3 & Hi & Hn & Hl & Ht & E & Hs & Hm) El Et. unfold cap_step. cbn [cap_id cap_offset private_header]. rewrite El, Et.
  unfold pick. rewrite !first_cap_snoc. unfold is_struct.
  destruct (Z.eqb_spec (v_id v) PCI_CAP_ID_VNDR) as [Ev|Ev]; cbn [negb andb].
  2:{ exists c. split; [|done]. by repeat (destruct (first_cap _ _ pre)). }
  destruct (Z.ltb_spec (v_len v) 16) as [Hlt|Hge].
  { exists c. split; [|done]. rewrite (proj2 (Z.leb_gt 16 _)), (proj2 (Z.leb_gt 20 _)) by lia. by repeat (destruct (first_cap _ _ pre)). }
  specialize (Hs Ev Hge). destruct Hs as (S1 & S2 & S3). rewrite (proj2 (Z.leb_le 16 _)) by lia. cbn [andb].
  assert (forall k, 1 <= k <= 4 -> u8 (v_off v + 4 * k) = 4 * (v_off v / 4 + k) /\ 0 <= v_off v / 4 + k < 64) as Ho.
  { intros k Hk. unfold u8. rewrite wrap_small by lia. Z.div_mod_to_equations. lia. }
  unfold CAP_BAR_OFFSET, CAP_BAR_OFFSET_OFFSET, CAP_LENGTH_OFFSET, CAP_NOTIFY_OFF_MULTIPLIER_OFFSET.
  destruct (Ho 1) as [O1 R1], (Ho 2) as [O2 R2], (Ho 3) as [O3 R3], (Ho 4) as [O4 R4]; [lia..|].
  change (4 * 1) with 4 in O1. change (4 * 2) with 8 in O2. change (4 * 3) with 12 in O3. change (4 * 4) with 16 in O4.
  destruct (at_read_off f c _ _ Ha O1 R1) as (c1 & F1 & A1). go F1. destruct (at_read_off f c1 _ _ A1 O2 R2) as (c2 & F2 & A2). go F2.
  destruct (at_read_off f c2 _ _ A2 O3 R3) as (c3 & F3 & A3). go F3. rewrite S1, S2, S3. fold (v_info v).
  unfold VIRTIO_PCI_CAP_COMMON_CFG, VIRTIO_PCI_CAP_NOTIFY_CFG, VIRTIO_PCI_CAP_ISR_CFG, VIRTIO_PCI_CAP_DEVICE_CFG.
  cbn [fc_common fc_notify fc_multiplier fc_isr fc_device].
  destruct (Z.eqb_spec (v_type v) 1) as [T1|T1]; [rewrite T1; cbn [andb Z.eqb Pos.eqb]|
   destruct (Z.eqb_spec (v_type v) 2) as [T2|T2]; [rewrite T2; cbn [andb Z.eqb Pos.eqb]|
   destruct (Z.eqb_spec (v_type v) 3) as [T3|T3]; [rewrite T3; cbn [andb Z.eqb Pos.eqb]|
   destruct (Z.eqb_spec (v_type v) 4) as [T4|T4]; [rewrite ?T4; cbn [andb Z.eqb Pos.eqb]|]]]].
  - exists c3. split; [|done]. rewrite andb_false_r. clear. set (o1 := first_cap 1 16 pre). set (o2 := first_cap 2 20 pre).
    set (o3 := first_cap 3 16 pre). set (o4 := first_cap 4 16 pre). by destruct o1, o2, o3, o4.
  - destruct (Z.leb_spec 20 (v_len v)) as [H20|H20]; cbn [andb].
    + set (o1 := first_cap 1 16 pre). set (o3 := first_cap 3 16 pre). set (o4 := first_cap 4 16 pre).
      destruct (first_cap 2 20 pre) as [w|] eqn:E2; cbn [fmap option_fmap option_map].
      * rewrite bool_decide_false by done. exists c3. split; [|done]. by destruct o1, o3, o4.
      * rewrite bool_decide_true by done. destruct (at_read_off f c3 _ _ A3 O4 R4) as (c4 & F4 & A4). go F4. rewrite Hm by done.
        exists c4. split; [|done]. by destruct o1, o3, o4.
    + exists c3. split; [|done]. clear. set (o1 := first_cap 1 16 pre). set (o2 := first_cap 2 20 pre).
      set (o3 := first_cap 3 16 pre). set (o4 := first_cap 4 16 pre). by destruct o1, o2, o3, o4.
  - exists c3. split; [|done]. rewrite andb_false_r. clear. set (o1 := first_cap 1 16 pre). set (o2 := first_cap 2 20 pre).
    set (o3 := first_cap 3 16 pre). set (o4 := first_cap 4 16 pre). by destruct o1, o2, o3, o4.
  - exists c3. split; [|done]. rewrite andb_false_r. clear. set (o1 := first_cap 1 16 pre). set (o2 := first_cap 2 20 pre).
    set (o3 := first_cap 3 16 pre). set (o4 := first_cap 4 16 pre). by destruct o1, o2, o3, o4.
  - exists c3. split; [|done]. cbn [andb]. rewrite andb_false_r. clear. set (o1 := first_cap 1 16 pre). set (o2 := first_cap 2 20 pre).
    set (o3 := first_cap 3 16 pre). set (o4 := first_cap 4 16 pre). by destruct o1, o2, o3, o4.
Qed.

Lemma cap_loop_run f caps : forall pre v c fuel, at_fn f c -> chain f (v_off v) (v :: caps) -> (length caps < fuel)%nat ->
  exists c', cap_loop fuel df (Some (v_off v)) (pick pre) c = Some (Ret (c', pick (pre ++ v :: caps))) /\ at_fn f c'.
Proof.
  induction caps as [|w caps IH]; intros pre v c fuel Ha (_ & Hv & Hch) Hf; (destruct fuel as [|fuel]; [cbn in Hf; lia|]); cbn [cap_loop];
    destruct (at_cap_next f c v Ha Hv) as (c1 & ph & E1 & A1 & P1 & P2); go E1;
    destruct (at_cap_step f c1 v pre ph A1 Hv P1 P2) as (c2 & E2 & A2); go E2; cbn [chain] in Hch.
  - unfold next_of. rewrite Hch. cbn [Z.eqb]. exists c2. by destruct fuel.
  - pose proof Hch as (Hw & Hcap & _). pose proof Hcap as (B1 & B2 & B3 & _).
    assert (next_of v = Some (v_off w)) as ->.
    { unfold next_of. rewrite <- Hw. rewrite (proj2 (Z.eqb_neq _ _)), (proj2 (Z.ltb_ge _ _)) by lia. cbn [orb].
      assert (Z.land (v_off w) 3 = 0) as ->; [|done]. change 3 with (Z.ones 2). rewrite Z.land_ones by lia. done. }
    destruct (IH (pre ++ [v]) w c2 fuel A2) as (c' & E' & A'); [by rewrite Hw|cbn in Hf; lia|].
    exists c'. rewrite E'. by rewrite <- app_assoc.
Qed.

(** ** Structures *)

(** The structure a capability describes, [n] bytes aligned to [align], lies at
    [addr] inside an allocated memory BAR. *)
Definition region_at (f : hw_function) (v : vcap) (n align addr : Z) : Prop :=
  exists t pf a k, 0 <= v_bar v <= 5 /\ bar_at f (v_bar v) (MemBar t pf a k) /\ a <> 0 /\
    0 <= v_offset v /\ v_offset v + v_length v <= 2 ^ k /\ v_offset v + v_length v < 2 ^ 32 /\ 1 <= n <= v_length v /\
    addr = a + v_offset v /\ addr mod align = 0.
Lemma mem_bar_end f i t pf a k : bar_at f i (MemBar t pf a k) -> 0 <= a /\ a + 2 ^ k <= 2 ^ 64.
Proof.
  intros Hb. assert (4 <= k < 64 /\ 0 <= a < 2 ^ 64 /\ a mod 2 ^ k = 0) as (Hk & Ha & Hm).
  { destruct t; cbn [bar_at] in Hb; destruct_and! Hb; split_and!; (done || lia). }
  split; [lia|]. apply Z.div_exact in Hm; [|lia]. set (q := a / 2 ^ k) in *. rewrite (pow_multiple 64 k) in * by lia.
  assert (q < 2 ^ (64 - k)) by nia. nia.
Qed.
Lemma at_region f c v n align addr : hw_ok f -> at_fn f c -> region_at f v n align addr ->
  exists c', get_bar_region n align df (v_info v) c = Ret (c', inl addr) /\ at_fn f c'.
Proof.
  intros Hok Ha (t & pf & a & k & Hi & Hb & Hne & Ho & Hin & H32 & Hn & -> & Hal). pose proof (mem_bar_end _ _ _ _ _ _ Hb) as [Ha0 Hend].
  destruct (bar_info_run c0 df Hdf f c (v_bar v) Hok Ha Hi (bar_at_wide _ _ _ Hb)) as (c' & E & A).
  exists c'. split; [|done]. unfold get_bar_region. cbn [v_info vc_bar vc_offset vc_length]. rewrite E, (bar_at_result _ _ _ Hb).
  cbn [mbind outcome_bind spec_info memory_address_size]. rewrite (proj2 (Z.eqb_neq a 0)) by done.
  rewrite u32_small by lia. rewrite (proj2 (Z.ltb_ge _ _)), (proj2 (Z.ltb_ge (v_length v) n)) by lia. cbn [orb].
  unwrap64. rewrite (proj2 (Z.eqb_neq _ _)) by lia. by rewrite Hal.
Qed.
Lemma at_region_slice f c v n align addr : hw_ok f -> at_fn f c -> region_at f v n align addr ->
  exists c', get_bar_region_slice n align df (v_info v) c = Ret (c', inl (addr, v_length v / n)) /\ at_fn f c'.
Proof.
  intros Hok Ha Hr. destruct (at_region f c v n align addr Hok Ha Hr) as (c' & E & A). exists c'. split; [|done].
  unfold get_bar_region_slice. by go E.
Qed.
End New.

(** A virtio function: identity, a capability list, and in it the structures the
    transport needs, each inside its BAR. *)
Record virtio_fn (f : hw_function) (id : Z) (ty : DeviceType) (v : vcap) (caps : list vcap) (common notify isr : vcap) (dev : option vcap)
    (t : PciTransport) : Prop := {
  vf_id : reg f 0 = VIRTIO_VENDOR_ID + 2 ^ 16 * id /\ 0 <= id < 2 ^ 16 /\ device_type id = Some ty;
  vf_list : Z.testbit (reg f 1) 20 = true /\ Z.land (reg f 13) 0xFC = v_off v;
  vf_chain : chain f (v_off v) (v :: caps);
  vf_common : first_cap 1 16 (v :: caps) = Some common /\ region_at f common 56 8 (common_cfg t);
  vf_notify : first_cap 2 20 (v :: caps) = Some notify /\ region_at f notify 2 2 (fst (notify_region t)) /\
    snd (notify_region t) = v_length notify / 2 /\ notify_off_multiplier t = v_mult notify /\ v_mult notify mod 2 = 0;
  vf_isr : first_cap 3 16 (v :: caps) = Some isr /\ region_at f isr 1 1 (isr_status t);
  vf_dev : first_cap 4 16 (v :: caps) = dev /\
    match dev, config_space t with
    | Some d, Some (a, n) => region_at f d 4 4 a /\ n = v_length d / 4
    | None, None => True
    | _, _ => False
    end;
  vf_type : t_device_type t = ty;
}.

Section Exact.
Context {C : Type} `{ConfigLaws C}.

(** As far as the capability list. *)
Lemma new_head (c : C) df f id ty first :
  cam_ok c -> df_ok df -> cfg_of c !! df = Some f ->
  reg f 0 = VIRTIO_VENDOR_ID + 2 ^ 16 * id /\ 0 <= id < 2 ^ 16 /\ device_type id = Some ty ->
  Z.testbit (reg f 1) 20 = true /\ Z.land (reg f 13) 0xFC = first ->
  exists c', at_fn c df f c' /\ forall fuel, pci_transport_new fuel df c =
    match cap_loop fuel df (Some first) (pick []) c' with
    | None => None | Some Panic => Some Panic | Some (Ret (c, s)) => Some (open_regions df ty s c)
    end.
Proof.
  intros Hc Hdf Ef (Ei & Hid & Ety) (Hbit & Hfirst). pose proof (at_start c df f Hc Ef) as Ha.
  destruct (at_read_off c df Hdf f c 0 0 Ha eq_refl ltac:(lia)) as (c1 & E1 & A1).
  destruct (at_status_command c df Hdf f c1 A1) as (c2 & E2 & A2).
  destruct (at_read_off c df Hdf f c2 0x34 13 A2 eq_refl ltac:(lia)) as (c3 & E3 & A3).
  exists c3. split; [done|]. intros fuel. unfold pci_transport_new. rewrite E1, Ei.
  assert (u16 (VIRTIO_VENDOR_ID + 2 ^ 16 * id) = VIRTIO_VENDOR_ID /\ u16 (Z.shiftr (VIRTIO_VENDOR_ID + 2 ^ 16 * id) 16) = id) as [-> ->].
  { unfold u16, wrap, VIRTIO_VENDOR_ID. rewrite Z.shiftr_div_pow2 by lia. change (2 ^ 16) with 65536 in *. split; Z.div_mod_to_equations; lia. }
  rewrite Z.eqb_refl. cbn [negb]. rewrite Ety. unfold capabilities_offset. go E2.
  assert (Z.land (status f) CAPABILITIES_LIST =? 0 = false) as ->.
  { apply Z.eqb_neq. intros E. apply (f_equal (fun x => Z.testbit x 4)) in E. unfold status, u16, wrap in E.
    rewrite !Z.land_spec, Z.mod_pow2_bits_low, Z.shiftr_spec, Z.bits_0 in E by lia. change (4 + 16) with 20 in E. by rewrite Hbit in E. }
  cbn [negb]. go E3. by rewrite Hfirst.
Qed.
Lemma new_run (c : C) df f id ty v caps common notify isr dev t fuel :
  cam_ok c -> df_ok df -> cfg_of c !! df = Some f -> hw_ok f ->
  virtio_fn f id ty v caps common notify isr dev t -> t_device_function t = df -> (length caps < fuel)%nat ->
  exists c', pci_transport_new fuel df c = Some (Ret (c', inl t)) /\ at_fn c df f c'.
Proof.
  intros Hc Hdf Ef Hok [Vi Vl Vc [P1 Q1] (P2 & Q2 & N2 & M2 & X2) [P3 Q3] [P4 Q4] Tt] Et Hf.
  destruct (new_head c df f id ty (v_off v) Hc Hdf Ef Vi Vl) as (c3 & A3 & E3).
  destruct (cap_loop_run c df Hdf f caps [] v c3 fuel A3 Vc Hf) as (c4 & E4 & A4). rewrite E3, E4. cbn [app].
  unfold open_regions, pick. rewrite P1, P2, P3, P4.
  cbn [fc_common fc_notify fc_multiplier fc_isr fc_device fmap option_fmap option_map default from_option Datatypes.id].
  destruct (at_region c df Hdf f c4 common 56 8 _ Hok A4 Q1) as (d1 & F1 & B1). go F1. rewrite X2. cbn [Z.eqb negb].
  destruct (at_region_slice c df Hdf f d1 notify 2 2 _ Hok B1 Q2) as (d2 & F2 & B2). go F2.
  destruct (at_region c df Hdf f d2 isr 1 1 _ Hok B2 Q3) as (d3 & F3 & B3). go F3.
  destruct t as [ty' df' cc [na nn] mu si cs]. cbn [common_cfg notify_region notify_off_multiplier isr_status config_space t_device_type t_device_function fst snd] in *.
  clear P1 P2 P3 P4. subst. destruct dev as [v4|].
  - destruct cs as [[a n]|]; [|done]. destruct Q4 as [Q4 ->].
    destruct (at_region_slice c df Hdf f d3 v4 4 4 _ Hok B3 Q4) as (d4 & F4 & B4). cbn [fmap option_fmap option_map]. go F4. by exists d4.
  - destruct cs; [done|]. cbn [fmap option_fmap option_map]. by exists d3.
Qed.
(** The transport of a virtio function has exactly the structures that the
    first capability of each kind describes, at their addresses inside the BARs,
    and building it leaves the configuration of the bus as it was. *)
Theorem transport_new_exact (c : C) df f id ty v caps common notify isr dev t fuel :
  cam_ok c -> df_ok df -> cfg_of c !! df = Some f -> hw_ok f ->
  virtio_fn f id ty v caps common notify isr dev t -> t_device_function t = df -> (length caps < fuel)%nat ->
  exists c', pci_transport_new fuel df c = Some (Ret (c', inl t)) /\ cfg_of c' = cfg_of c /\ cam_ok c'.
Proof.
  intros Hc Hdf Ef Hok Hv Et Hf. destruct (new_run c df f id ty v caps common notify isr dev t fuel Hc Hdf Ef Hok Hv Et Hf) as (c' & E & A).
  exists c'. split; [done|]. split; [by eapply at_back|apply A].
Qed.

Lemma cap_cycle_loops (c0 : C) df f v : df_ok df -> cap_at f v -> v_next v = v_off v -> forall fuel pre c, at_fn c0 df f c ->
  cap_loop fuel df (Some (v_off v)) (pick pre) c = None.
Proof.
  intros Hdf Hv Hn. induction fuel as [|fuel IH]; intros pre c Ha; [done|]. cbn [cap_loop].
  destruct (at_cap_next c0 df Hdf f c v Ha Hv) as (c1 & ph & E1 & A1 & P1 & P2). go E1.
  destruct (at_cap_step c0 df Hdf f c1 v pre ph A1 Hv P1 P2) as (c2 & E2 & A2). go E2.
  pose proof Hv as (B1 & B2 & B3 & _). unfold next_of. rewrite Hn. rewrite (proj2 (Z.eqb_neq _ _)), (proj2 (Z.ltb_ge _ _)) by lia.
  assert (Z.land (v_off v) 3 = 0) as -> by (change 3 with (Z.ones 2); by rewrite Z.land_ones by lia). cbn [orb negb Z.eqb]. by apply IH.
Qed.
(** A capability list that leads back to itself is followed for ever: the code
    does not count the capabilities it has seen. *)
Theorem cap_cycle_hangs (c : C) df f id ty v fuel :
  cam_ok c -> df_ok df -> cfg_of c !! df = Some f ->
  reg f 0 = VIRTIO_VENDOR_ID + 2 ^ 16 * id /\ 0 <= id < 2 ^ 16 /\ device_type id = Some ty ->
  Z.testbit (reg f 1) 20 = true /\ Z.land (reg f 13) 0xFC = v_off v -> cap_at f v -> v_next v = v_off v ->
  pci_transport_new fuel df c = None.
Proof.
  intros Hc Hdf Ef Vi Vl Hv Hn. destruct (new_head c df f id ty (v_off v) Hc Hdf Ef Vi Vl) as (c' & A & E).
  by rewrite E, (cap_cycle_loops c df f v).
Qed.
End Exact.

(** ** A device of the virtio specification *)

Record vqueue := mkVQ { q_size : Z; q_notify : Z; q_desc : Z; q_driver : Z; q_device : Z; q_enabled : Z }.
(** [d_bell] records the stores outside the common configuration, newest
    first; [d_config] is what else can be read. *)
Record vdev := mkVdev {
  d_base : Z;
  d_features : Z;
  d_accepted : Z;
  d_dsel : Z;
  d_gsel : Z;
  d_status : Z;
  d_gen : Z;
  d_qsel : Z;
  d_queues : Z -> vqueue;
  d_bell : list (Z * Z);
  d_config : Z -> Z;
}.
(** The half of a 64-bit field that a select register names. *)
Definition get_word (sel x : Z) : Z := if sel =? 0 then x mod 2 ^ 32 else if sel =? 1 then x / 2 ^ 32 else 0.
Definition put_word (sel v x : Z) : Z :=
  if sel =? 0 then x / 2 ^ 32 * 2 ^ 32 + v else if sel =? 1 then v * 2 ^ 32 + x mod 2 ^ 32 else x.
Definition reset_queue (q : vqueue) : vqueue := mkVQ (q_size q) (q_notify q) 0 0 0 0.
Definition dev_get (off : Z) (d : vdev) : Z :=
  match off with
  | 4 => get_word (d_dsel d) (d_features d)
  | 20 => d_status d
  | 21 => d_gen d
  | 24 => q_size (d_queues d (d_qsel d))
  | 28 => q_enabled (d_queues d (d_qsel d))
  | 30 => q_notify (d_queues d (d_qsel d))
  | _ => d_config d off
  end.
Definition with_queue (g : vqueue -> vqueue) (d : vdev) : vdev :=
  mkVdev (d_base d) (d_features d) (d_accepted d) (d_dsel d) (d_gsel d) (d_status d) (d_gen d) (d_qsel d)
    (fupd (d_queues d) (d_qsel d) (g (d_queues d (d_qsel d)))) (d_bell d) (d_config d).
Definition dev_put (off a v : Z) (d : vdev) : vdev :=
  match off with
  | 0 => mkVdev (d_base d) (d_features d) (d_accepted d) v (d_gsel d) (d_status d) (d_gen d) (d_qsel d) (d_queues d) (d_bell d) (d_config d)
  | 8 => mkVdev (d_base d) (d_features d) (d_accepted d) (d_dsel d) v (d_status d) (d_gen d) (d_qsel d) (d_queues d) (d_bell d) (d_config d)
  | 12 => mkVdev (d_base d) (d_features d) (put_word (d_gsel d) v (d_accepted d)) (d_dsel d) (d_gsel d) (d_status d) (d_gen d) (d_qsel d)
            (d_queues d) (d_bell d) (d_config d)
  | 20 => if v =? 0 then mkVdev (d_base d) (d_features d) 0 0 0 0 (d_gen d) 0 (fun i => reset_queue (d_queues d i)) (d_bell d) (d_config d)
          else mkVdev (d_base d) (d_features d) (d_accepted d) (d_dsel d) (d_gsel d) v (d_gen d) (d_qsel d) (d_queues d) (d_bell d) (d_config d)
  | 22 => mkVdev (d_base d) (d_features d) (d_accepted d) (d_dsel d) (d_gsel d) (d_status d) (d_gen d) v (d_queues d) (d_bell d) (d_config d)
  | 24 => with_queue (fun q => mkVQ v (q_notify q) (q_desc q) (q_driver q) (q_device q) (q_enabled q)) d
  | 28 => with_queue (fun q => mkVQ (q_size q) (q_notify q) (q_desc q) (q_driver q) (q_device q) v) d
  | 32 => with_queue (fun q => mkVQ (q_size q) (q_notify q) v (q_driver q) (q_device q) (q_enabled q)) d
  | 40 => with_queue (fun q => mkVQ (q_size q) (q_notify q) (q_desc q) v (q_device q) (q_enabled q)) d
  | 48 => with_queue (fun q => mkVQ (q_size q) (q_notify q) (q_desc q) (q_driver q) v (q_enabled q)) d
  | _ => mkVdev (d_base d) (d_features d) (d_accepted d) (d_dsel d) (d_gsel d) (d_status d) (d_gen d) (d_qsel d) (d_queues d)
           ((a, v) :: d_bell d) (d_config d)
  end.
#[export] Instance vdev_mmio : Mmio vdev := {
  mmio_read := fun a n d => (d, dev_get (a - d_base d) d);
  mmio_write := fun a n v d => dev_put (a - d_base d) a v d;
}.

(** The transport reaches the device. *)
Definition reaches (t : PciTransport) (d : vdev) : Prop :=
  common_cfg t = d_base d /\ 0 <= d_base d /\ d_base d + 56 <= 2 ^ 64.
Definition in_cfg (f : Z * Z) : bool := (0 <=? fst f) && (fst f <? 56).
Lemma cfg_get_eq t d f : reaches t d -> in_cfg f = true -> cfg_get t f d = (d, dev_get (fst f) d).
Proof.
  intros (E & H0 & H1) Hf. unfold in_cfg in Hf. zb. unfold cfg_get. cbn [mmio_read vdev_mmio]. rewrite E, u64_small by lia.
  by replace (d_base d + fst f - d_base d) with (fst f) by lia.
Qed.
Lemma cfg_put_eq t d f v : reaches t d -> in_cfg f = true -> cfg_put t f v d = dev_put (fst f) (d_base d + fst f) v d.
Proof.
  intros (E & H0 & H1) Hf. unfold in_cfg in Hf. zb. unfold cfg_put. cbn [mmio_write vdev_mmio]. rewrite E, u64_small by lia.
  by replace (d_base d + fst f - d_base d) with (fst f) by lia.
Qed.
Lemma put_base off a v d : d_base (dev_put off a v d) = d_base d.
Proof. unfold dev_put. repeat (case_match; try done). Qed.
Lemma put_reaches t off a v d : reaches t d -> reaches t (dev_put off a v d).
Proof. unfold reaches. by rewrite put_base. Qed.
Lemma cfg_put_reaches t f v d : reaches t d -> in_cfg f = true -> reaches t (cfg_put t f v d).
Proof. intros. rewrite cfg_put_eq by done. by apply put_reaches. Qed.
#[export] Hint Resolve put_reaches cfg_put_reaches : tyn.
#[export] Hint Extern 0 (in_cfg _ = true) => reflexivity : tyn.

Lemma words x : 0 <= x < 2 ^ 64 -> Z.lor (get_word 0 x) (Z.shiftl (get_word 1 x) 32) = x.
Proof.
  intros. unfold get_word. cbn [Z.eqb Pos.eqb]. rewrite Z.lor_comm, lor_shiftl; [|lia|apply Z.mod_pos_bound; lia].
  pose proof (Z.div_mod x (2 ^ 32)). lia.
Qed.
Lemma put_words x y : 0 <= x < 2 ^ 64 -> put_word 1 (u32 (Z.shiftr x 32)) (put_word 0 (u32 x) y) = x.
Proof.
  intros. unfold put_word, u32, wrap. cbn [Z.eqb Pos.eqb]. rewrite Z.shiftr_div_pow2 by lia.
  replace ((y / 2 ^ 32 * 2 ^ 32 + x mod 2 ^ 32) mod 2 ^ 32) with (x mod 2 ^ 32) by (by rewrite Z.add_comm, Z.mod_add, Zmod_mod by lia).
  rewrite (Z.mod_small (x / 2 ^ 32)); [pose proof (Z.div_mod x (2 ^ 32)); lia|].
  split; [apply Z.div_pos; lia|apply Z.div_lt_upper_bound; lia].
Qed.

Ltac dev := repeat first [progress cbv beta iota zeta | rewrite cfg_put_eq by eauto 20 with tyn | rewrite cfg_get_eq by eauto 20 with tyn].

Lemma features_read t d : reaches t d -> 0 <= d_features d < 2 ^ 64 ->
  exists d', read_device_features t d = (d', d_features d) /\ reaches t d' /\
    d' = mkVdev (d_base d) (d_features d) (d_accepted d) 1 (d_gsel d) (d_status d) (d_gen d) (d_qsel d) (d_queues d) (d_bell d) (d_config d).
Proof.
  intros Hr Hf. unfold read_device_features. dev. cbn [fst device_feature_select device_feature dev_put dev_get d_dsel d_features]. rewrite words by done.
  eexists. split; [done|]. split; [|done]. by apply (put_reaches t 0 0 1 d).
Qed.
Lemma features_written t d x : reaches t d -> 0 <= x < 2 ^ 64 ->
  write_driver_features t x d = mkVdev (d_base d) (d_features d) x (d_dsel d) 1 (d_status d) (d_gen d) (d_qsel d) (d_queues d) (d_bell d) (d_config d).
Proof.
  intros Hr Hx. unfold write_driver_features. dev.
  cbn [fst driver_feature_select driver_feature dev_put d_base d_features d_accepted d_dsel d_gsel d_status d_gen d_qsel d_queues d_bell d_config]. by rewrite put_words.
Qed.
(** The initialisation protocol resets the device, and leaves it with exactly
    the features that both the device and the driver have, which are also the
    ones the driver goes on with, and with the status bits of a driver that has
    accepted its features. *)
Theorem begin_init_negotiates t (d : vdev) supported :
  reaches t d -> 0 <= d_features d < 2 ^ 64 -> 0 <= supported ->
  exists d', begin_init t supported d = (d', Z.land (d_features d) supported) /\
    d_accepted d' = Z.land (d_features d) supported /\ d_status d' = 11 /\ d_features d' = d_features d /\
    (forall q, d_queues d' q = reset_queue (d_queues d q)) /\ d_bell d' = d_bell d /\ d_config d' = d_config d /\ reaches t d'.
Proof.
  intros Hr Hf Hs. unfold begin_init, set_status. dev. cbn [fst device_status]. change (u8 0) with 0. change (u8 (Z.lor ACKNOWLEDGE DRIVER)) with 3.
  set (d0 := dev_put 20 (d_base d + 20) 0 d). assert (reaches t d0) as Hr0 by by apply put_reaches.
  assert (reaches t (dev_put 20 (d_base d0 + 20) 3 d0)) as Hr1 by by apply put_reaches.
  destruct (features_read t _ Hr1 Hf) as (d2 & -> & Hr2 & E2).
  assert (0 <= Z.land (d_features d) supported < 2 ^ 64) as Hn.
  { rewrite Z.land_comm. by apply land_bound. }
  cbn [dev_put d_features d0 Z.eqb] in E2 |- *. change (d_features (dev_put 20 (d_base d0 + 20) 3 d0)) with (d_features d).
  rewrite features_written by done.
  eexists. split; [reflexivity|]. rewrite cfg_put_eq; [|by rewrite E2|done]. rewrite E2. cbn. done.
Qed.

(** ** Queues *)

Ltac dev_cbn := cbn [fst snd queue_select VirtioPci.queue_size VirtioPci.queue_desc VirtioPci.queue_driver VirtioPci.queue_device
  VirtioPci.queue_enable VirtioPci.queue_notify_off dev_put dev_get with_queue d_base d_features d_accepted d_dsel d_gsel d_status d_gen d_qsel d_queues d_bell d_config
  q_size q_notify q_desc q_driver q_device q_enabled].

(** Setting up a queue gives the device the areas and the size of that queue
    and enables it, whatever queue was selected before, and changes no other
    queue; the queue is then in use. *)
Theorem queue_set_exact t (d : vdev) q size desc drv dvc :
  reaches t d ->
  let d' := queue_set t q size desc drv dvc d in
  d_queues d' q = mkVQ (u16 size) (q_notify (d_queues d q)) desc drv dvc 1 /\
  (forall i, i <> q -> d_queues d' i = d_queues d i) /\
  d_status d' = d_status d /\ d_accepted d' = d_accepted d /\ d_bell d' = d_bell d /\
  snd (VirtioPci.queue_used t q d') = true /\ (forall i, i <> q -> snd (VirtioPci.queue_used t i d') = (q_enabled (d_queues d i) =? 1)).
Proof.
  intros Hr d'. assert (reaches t d') as Hr' by (unfold d', queue_set; eauto 20 with tyn).
  assert (d_queues d' q = mkVQ (u16 size) (q_notify (d_queues d q)) desc drv dvc 1 /\ (forall i, i <> q -> d_queues d' i = d_queues d i) /\
    d_status d' = d_status d /\ d_accepted d' = d_accepted d /\ d_bell d' = d_bell d) as (E1 & E2 & E3 & E4 & E5).
  { unfold d', queue_set. dev. dev_cbn. rewrite !fupd_eq. split_and!; try done. intros i Hi. by rewrite !fupd_ne. }
  split_and!; try done.
  - unfold VirtioPci.queue_used. dev. dev_cbn. by rewrite E1.
  - intros i Hi. unfold VirtioPci.queue_used. dev. dev_cbn. by rewrite E2.
Qed.

Lemma put_outside o a v d : 56 <= o -> dev_put o a v d =
  mkVdev (d_base d) (d_features d) (d_accepted d) (d_dsel d) (d_gsel d) (d_status d) (d_gen d) (d_qsel d) (d_queues d) ((a, v) :: d_bell d) (d_config d).
Proof.
  intros Ho. unfold dev_put. destruct o as [|p|p]; [lia| |lia]. repeat (destruct p as [p|p|]; try lia; try done).
Qed.
(** A notification is one store of the queue's number, at the place in the
    notification region that the device gave the queue; a device that gives a
    place outside the region panics the kernel. *)
Theorem notify_exact t (d : vdev) q :
  reaches t d -> notify_off_multiplier t mod 2 = 0 -> 0 <= q_notify (d_queues d q) ->
  0 <= notify_off_multiplier t -> d_base d + 56 <= fst (notify_region t) ->
  let off := q_notify (d_queues d q) * notify_off_multiplier t in
  fst (notify_region t) + off < 2 ^ 64 ->
  if off <? 2 * snd (notify_region t) then
    exists d', VirtioPci.notify t q d = Ret d' /\ d_bell d' = (fst (notify_region t) + off, q) :: d_bell d /\ d_queues d' = d_queues d
      /\ d_accepted d' = d_accepted d /\ d_status d' = d_status d
  else VirtioPci.notify t q d = Panic.
Proof.
  intros Hr Hm Hq Hmul Hbase off Hoff. unfold VirtioPci.notify. dev. dev_cbn. fold off.
  assert (off mod 2 = 0) as He by (unfold off; rewrite Z.mul_mod, Hm, Z.mul_0_r by lia; done).
  apply Z.div_exact in He; [|lia]. assert (0 <= off) by (unfold off; lia).
  destruct (Z.ltb_spec off (2 * snd (notify_region t))).
  - rewrite (proj2 (Z.ltb_lt _ _)) by lia. eexists. split; [done|]. cbn [mmio_write vdev_mmio d_base]. pose proof Hr as (_ & Hb0 & _).
    rewrite <- He. unwrap64. rewrite put_outside by lia. by dev_cbn.
  - by rewrite (proj2 (Z.ltb_ge _ _)) by lia.
Qed.

(** ** The network driver's view *)

(** The answers [VirtioNet] takes from its transport, as this transport gives
    them: the driver reads the address and the status of the interface. *)
Definition config_result (t : PciTransport) : vresult unit :=
  match config_space t with
  | None => VErr ConfigSpaceMissing
  | Some (_, n) => if n ⊠ 4 <? 8 then VErr ConfigSpaceTooSmall else VOk tt
  end.
Definition view (t : PciTransport) (d : vdev) : VirtioNet.Transport :=
  VirtioNet.mkTransport (d_features d) (fun q => q_enabled (d_queues d q) =? 1) (fun q => q_size (d_queues d q)) false (config_result t).
Theorem transport_view t (d : vdev) : reaches t d -> 0 <= d_features d < 2 ^ 64 ->
  snd (read_device_features t d) = VirtioNet.read_device_features (view t d) /\
  (forall q, snd (VirtioPci.queue_used t q d) = VirtioNet.queue_used (view t d) q) /\
  (forall q, snd (VirtioPci.max_queue_size t q d) = VirtioNet.max_queue_size (view t d) q).
Proof.
  intros Hr Hf. split; [|split].
  - by destruct (features_read t d Hr Hf) as (d' & -> & _).
  - intros q. unfold VirtioPci.queue_used. dev. by dev_cbn.
  - intros q. unfold VirtioPci.max_queue_size. dev. by dev_cbn.
Qed.
