(* ===== verification/NetInit.v ===== *)
(** * Finding and starting the network card

    Models [init_networking] of [src/src/main.rs] over the PCI layer, and
    [VirtIONetRaw::new] and [VirtQueue::new] of the virtio crate over a PCI
    transport.  What starting an ENA adapter does is an argument (its parts are
    in [EnaDevice]). *)

From S2P Require Import Prelude Pci PciProps Virtqueue VirtioNet VirtioPci VirtioPciProps.

Definition ENA_VENDOR_ID : Z := 0x1d0f.
Definition ENA_DEVICE_IDS : list Z := [0x0ec2; 0x1ec2; 0xec20; 0xec21].
Definition is_ena (vendor_id device_id : Z) : bool :=
  (vendor_id =? ENA_VENDOR_ID) && existsb (Z.eqb device_id) ENA_DEVICE_IDS.

(** ** The search *)

Definition recognised (info : DeviceFunctionInfo) : bool :=
  bool_decide (is_Some (virtio_device_type info)) || is_ena (vendor_id info) (device_id info).
Definition usable (d : DeviceFunction * DeviceFunctionInfo) : bool :=
  let '(dev_fn, info) := d in
  negb ((vendor_id info =? 0x0000) || (vendor_id info =? 0xFFFF)) && negb ((0 <? df_bus dev_fn) && negb (recognised info)).

Inductive Nic := NicVirtio (t : PciTransport) | NicEna (bar0 : Z) | NoNic.

Section Search.
Context {C D : Type} `{ConfigurationAccess C} `{Mmio D}.
(** [ena_start bar0]: the probe and the start of an adapter, and whether it came
    up. *)
Variable ena_start : Z -> D -> D * bool.

(** The buses from [bus] on, [n] of them. *)
Fixpoint scan_buses (n : nat) (bus : Z) (c : C) : outcome (C * list (DeviceFunction * DeviceFunctionInfo)) :=
  match n with
  | O => Ret (c, [])
  | S n' =>
      '(c, ds) ← enumerate_bus bus c;
      '(c, rest) ← scan_buses n' (bus + 1) c;
      Ret (c, List.filter usable ds ++ rest)
  end.
(** The pass over the virtio functions; a transport that is not a network
    card's is dropped, which resets its device. *)
Fixpoint find_virtio (fuel : nat) (devices : list (DeviceFunction * DeviceFunctionInfo)) (c : C) (d : D)
    : option (outcome (C * D * option PciTransport)) :=
  match devices with
  | [] => Some (Ret (c, d, None))
  | (dev_fn, info) :: rest =>
      match virtio_device_type info with
      | None => find_virtio fuel rest c d
      | Some _ =>
          match set_command dev_fn (Z.lor (Z.lor IO_SPACE MEMORY_SPACE) BUS_MASTER) c with
          | Panic => Some Panic
          | Ret c =>
              match pci_transport_new fuel dev_fn c with
              | None => None
              | Some Panic => Some Panic
              | Some (Ret (c, inr _)) => Some Panic
              | Some (Ret (c, inl t)) =>
                  if bool_decide (t_device_type t = Network) then Some (Ret (c, d, Some t))
                  else match drop_transport t fuel d with
                       | None => None
                       | Some d => find_virtio fuel rest c d
                       end
              end
          end
      end
  end.
Fixpoint find_ena (devices : list (DeviceFunction * DeviceFunctionInfo)) (c : C) (d : D) : outcome (C * D * Nic) :=
  match devices with
  | [] => Ret (c, d, NoNic)
  | (dev_fn, info) :: rest =>
      if negb (is_ena (vendor_id info) (device_id info)) then find_ena rest c d else
      c ← set_command dev_fn (Z.lor MEMORY_SPACE BUS_MASTER) c;
      '(c, r) ← bars dev_fn c;
      match r with
      | inr _ => Panic
      | inl bs =>
          b ← index bs 0;
          match b with
          | Some (BarMemory _ _ bar0 _) =>
              let '(d, ok) := ena_start bar0 d in
              if ok then Ret (c, d, NicEna bar0) else find_ena rest c d
          | _ => find_ena rest c d
          end
      end
  end.
Definition init_networking (fuel : nat) (c : C) (d : D) : option (outcome (C * D * Nic)) :=
  match scan_buses 256 0 c with
  | Panic => Some Panic
  | Ret (c, devices) =>
      match find_virtio fuel devices c d with
      | None => None
      | Some Panic => Some Panic
      | Some (Ret (c, d, Some t)) => Some (Ret (c, d, NicVirtio t))
      | Some (Ret (c, d, None)) => Some (find_ena devices c d)
      end
  end.
End Search.

(** ** The driver over a PCI transport *)

Section Driver.
Context {D : Type} `{Mmio D}.
Variables (SIZE : Z) (t : PciTransport).

Definition pci_vq_new (idx : Z) (indirect event_idx : bool) (dma : Z) (d : D) : D * Z * vresult VirtQueue :=
  let '(d, used) := VirtioPci.queue_used t idx d in
  if used then (d, dma, VErr AlreadyUsed) else
  let '(d, max) := VirtioPci.max_queue_size t idx d in
  match vq_new SIZE used max false idx indirect event_idx dma with
  | (dma, VErr e) => (d, dma, VErr e)
  | (dma, VOk (q, l)) =>
      (queue_set t idx SIZE (descriptors_paddr l) (driver_area_paddr l) (device_area_paddr l) d, dma, VOk q)
  end.
(** Every way out of [new] with an error drops the transport. *)
Definition fail {A} (fuel : nat) (e : VirtError) (dma : Z) (d : D) : option (outcome (D * Z * vresult A)) :=
  match drop_transport t fuel d with
  | None => None
  | Some d => Some (Ret (d, dma, VErr e))
  end.
Definition pci_raw_new (fuel : nat) (dma : Z) (d : D) : option (outcome (D * Z * vresult VirtIONetRaw)) :=
  let '(d, negotiated) := begin_init t SUPPORTED_FEATURES d in
  match read_consistent t fuel (read_config_space t 6 1 0) d with
  | None => None
  | Some Panic => Some Panic
  | Some (Ret (d, VErr e)) => fail fuel e dma d
  | Some (Ret (d, VOk _)) =>
      match read_config_space t 2 2 6 d with
      | Panic => Some Panic
      | Ret (d, VErr e) => fail fuel e dma d
      | Ret (d, VOk _) =>
          let indirect := Z.testbit negotiated 28 in
          let event_idx := Z.testbit negotiated 29 in
          match pci_vq_new QUEUE_TRANSMIT indirect event_idx dma d with
          | (d, dma, VErr e) => fail fuel e dma d
          | (d, dma, VOk send_queue) =>
              match pci_vq_new QUEUE_RECEIVE indirect event_idx dma d with
              | (d, dma, VErr e) => fail fuel e dma d
              | (d, dma, VOk recv_queue) =>
                  let d := finish_init t d in
                  Some (Ret (d, dma, VOk (mkRaw recv_queue send_queue
                    (negb (Z.testbit negotiated 32) && negb (Z.testbit negotiated 15)) [])))
              end
          end
      end
  end.
End Driver.

(** ** What the search finds *)

(** The usable functions of the buses from [bus] on. *)
Definition devices (s : cfg) (n : nat) (bus : Z) : list (DeviceFunction * DeviceFunctionInfo) :=
  seqZ bus (Z.of_nat n) ≫= fun b => List.filter usable (omap (found s) (slots b 0)).

(** A write to the command register leaves everything the transport looks at. *)
Definition same_but (f g : hw_function) : Prop := (forall r, r <> 1 -> reg g r = reg f r) /\ (forall r, wmask g r = wmask f r).
Lemma bar_at_same f g i s : same_but f g -> 0 <= i -> bar_at f i s -> bar_at g i s.
Proof. intros [H1 H2] Hi. destruct s as [|a k|[] pf a k]; cbn [bar_at]; rewrite !H1, !H2 by lia; done. Qed.
Lemma cap_at_same f g v : same_but f g -> cap_at f v -> cap_at g v.
Proof.
  intros [H1 H2] (A1 & A2 & A3 & Hr). assert (16 <= v_off v / 4) by (Z.div_mod_to_equations; lia). unfold cap_at. rewrite !H1 by lia. done.
Qed.
Lemma chain_same f g caps : same_but f g -> forall o, chain f o caps -> chain g o caps.
Proof.
  intros Hs. induction caps as [|v caps IH]; intros o; cbn [chain]; [done|]. intros (E & Hv & Hc).
  split; [done|]. split; [by eapply cap_at_same|by apply IH].
Qed.
Lemma region_at_same f g v n al a : same_but f g -> region_at f v n al a -> region_at g v n al a.
Proof.
  intros Hs (t & pf & b & k & Hi & Hb & Hr). exists t, pf, b, k. split; [done|]. split; [|done]. by apply (bar_at_same f); [|lia|].
Qed.
Lemma virtio_fn_same f g id ty v caps common notify isr dev t : same_but f g -> Z.testbit (reg g 1) 20 = Z.testbit (reg f 1) 20 ->
  virtio_fn f id ty v caps common notify isr dev t -> virtio_fn g id ty v caps common notify isr dev t.
Proof.
  intros Hs Hb [Vi Vl Vc [P1 Q1] (P2 & Q2 & N2) [P3 Q3] [P4 Q4] Tt]. pose proof Hs as [H1 _]. split.
  - by rewrite H1.
  - by rewrite Hb, H1.
  - by eapply chain_same.
  - split; [done|]. by eapply region_at_same.
  - split; [done|]. split; [by eapply region_at_same|done].
  - split; [done|]. by eapply region_at_same.
  - split; [done|]. destruct dev as [v4|], (config_space t) as [[a n]|]; try done. destruct Q4. split; [by eapply region_at_same|done].
  - done.
Qed.
Lemma command_same v f : hw_ok f -> 0 <= v -> same_but f (hw_write 1 v f) /\ Z.testbit (reg (hw_write 1 v f) 1) 20 = Z.testbit (reg f 1) 20.
Proof.
  intros (_ & _ & Hm) Hv. split; [split; [intros; by apply reg_write_ne|done]|].
  rewrite reg_write, Z.lor_spec, Z.ldiff_spec, Z.land_spec.
  assert (Z.testbit (wmask f 1) 20 = false) as ->; [|by rewrite andb_true_r, andb_false_r, orb_false_r].
  apply (f_equal (fun x => Z.testbit x 20)) in Hm. rewrite Z.ldiff_spec, Z.bits_0 in Hm. by destruct (Z.testbit (wmask f 1) 20).
Qed.

Section Found.
Context {C D : Type} `{ConfigLaws C} `{Mmio D}.
Variable ena_start : Z -> D -> D * bool.

Lemma scan_buses_run n : forall bus (c : C), cam_ok c -> 0 <= bus -> bus + Z.of_nat n <= 256 ->
  exists c', scan_buses n bus c = Ret (c', devices (cfg_of c) n bus) /\ cfg_of c' = cfg_of c /\ cam_ok c'.
Proof.
  induction n as [|n IH]; intros bus c Hc Hb Hn; cbn [scan_buses]; [by exists c|].
  destruct (bus_devices_run bus 256 ltac:(lia) 0 257 c ltac:(lia) eq_refl ltac:(lia) Hc) as (c1 & Hc1 & F1 & E1).
  unfold enumerate_bus. change (mkDf bus 0 0) with (slot bus 0). go E1.
  destruct (IH (bus + 1) c1 Hc1 ltac:(lia) ltac:(lia)) as (c2 & E2 & F2 & Hc2). go E2.
  exists c2. rewrite F2, F1. split; [|done]. unfold devices. rewrite (seqZ_cons bus) by lia.
  replace (Z.succ bus) with (bus + 1) by lia. replace (Z.pred (Z.of_nat (S n))) with (Z.of_nat n) by lia. by rewrite bind_cons.
Qed.

Lemma find_virtio_skip fuel pre devs (c : C) (d : D) :
  Forall (fun x => virtio_device_type (snd x) = None) pre -> find_virtio fuel (pre ++ devs) c d = find_virtio fuel devs c d.
Proof. induction 1 as [|[df info] pre Hx Hp IH]; [done|]. cbn [app find_virtio]. cbn [snd] in Hx. by rewrite Hx. Qed.

(** C34.  The kernel brings up the first virtio function of the machine when it is a
    network card: whatever other functions the buses have, the search ends,
    the function's transport is built with exactly the structures it
    describes, and the only change to the configuration of the machine is that
    this function was told to decode its addresses and to master the bus. *)
Theorem network_card_found (c : C) (d : D) df f info pre post id v caps common notify isr dev t fuel :
  cam_ok c -> devices (cfg_of c) 256 0 = pre ++ (df, info) :: post ->
  Forall (fun x => virtio_device_type (snd x) = None) pre -> virtio_device_type info = Some Network ->
  df_ok df -> cfg_of c !! df = Some f -> hw_ok f ->
  virtio_fn f id Network v caps common notify isr dev t -> t_device_function t = df -> (length caps < fuel)%nat ->
  exists c', init_networking ena_start fuel c d = Some (Ret (c', d, NicVirtio t)) /\ cfg_of c' = cfg_write df 1 7 (cfg_of c).
Proof.
  intros Hc Hd Hpre Hinfo Hdf Ef Hok Hv Et Hf. unfold init_networking.
  destruct (scan_buses_run 256 0 c Hc ltac:(lia) ltac:(lia)) as (c1 & -> & F1 & Hc1). rewrite Hd, find_virtio_skip by done.
  cbn [find_virtio]. rewrite Hinfo. change (Z.lor (Z.lor IO_SPACE MEMORY_SPACE) BUS_MASTER) with 7. unfold set_command.
  destruct (write_word_ok df 1 7 c1 Hc1 Hdf ltac:(lia) ltac:(lia)) as (c2 & E2 & F2 & Hc2).
  change STATUS_COMMAND_OFFSET with (4 * 1). rewrite E2. rewrite F1 in F2.
  assert (cfg_of c2 !! df = Some (hw_write 1 7 f)) as Ef2 by (rewrite F2; unfold cfg_write; by rewrite lookup_alter_eq, Ef).
  destruct (command_same 7 f Hok ltac:(lia)) as [Hsame Hbit].
  destruct (new_run c2 df (hw_write 1 7 f) id Network v caps common notify isr dev t fuel Hc2 Hdf Ef2) as (c3 & -> & A3);
    [apply hw_write_ok; [done|lia]|by eapply virtio_fn_same|done|done|].
  pose proof (vf_type _ _ _ _ _ _ _ _ _ _ Hv) as Tt. rewrite bool_decide_true by done. exists c3. split; [done|].
  rewrite (at_back c2 df (hw_write 1 7 f) c3 Ef2 A3). done.
Qed.
End Found.

(** ** The driver and the device agree *)

(** Only the select registers differ. *)
Definition keeps (d d' : vdev) : Prop :=
  d_base d' = d_base d /\ d_features d' = d_features d /\ d_accepted d' = d_accepted d /\ d_status d' = d_status d /\
  d_queues d' = d_queues d.
Lemma keeps_reaches t d d' : keeps d d' -> reaches t d -> reaches t d'.
Proof. unfold reaches. by intros (-> & _). Qed.
Lemma queue_used_run t q d : reaches t d -> exists d', VirtioPci.queue_used t q d = (d', q_enabled (d_queues d q) =? 1) /\ keeps d d'.
Proof. intros Hr. unfold VirtioPci.queue_used. dev. dev_cbn. eexists. by split. Qed.
Lemma max_queue_size_run t q d : reaches t d -> exists d', VirtioPci.max_queue_size t q d = (d', q_size (d_queues d q)) /\ keeps d d'.
Proof. intros Hr. unfold VirtioPci.max_queue_size. dev. dev_cbn. eexists. by split. Qed.
Lemma queue_set_run t q size a b e d : reaches t d ->
  let d' := queue_set t q size a b e d in
  d_base d' = d_base d /\ d_features d' = d_features d /\ d_accepted d' = d_accepted d /\ d_status d' = d_status d /\
  forall i, d_queues d' i = if i =? q then mkVQ (u16 size) (q_notify (d_queues d q)) a b e 1 else d_queues d i.
Proof.
  intros Hr d'. unfold d', queue_set. dev. dev_cbn. split_and!; try done. intros i. rewrite !fupd_eq. unfold fupd. by destruct (i =? q).
Qed.

Section Agree.
Variables (SIZE : Z) (t : PciTransport).

(** The queue the device is given. *)
Definition given (d : vdev) (q : Z) (l : VirtQueueLayout) : vqueue :=
  mkVQ (u16 SIZE) (q_notify (d_queues d q)) (descriptors_paddr l) (driver_area_paddr l) (device_area_paddr l) 1.
Lemma vq_new_run idx ind ev dma d : reaches t d -> q_enabled (d_queues d idx) = 0 ->
  exists d', reaches t d' /\ d_features d' = d_features d /\ d_accepted d' = d_accepted d /\ d_status d' = d_status d /\
    match vq_new SIZE false (q_size (d_queues d idx)) false idx ind ev dma with
    | (dma', VErr e) => pci_vq_new SIZE t idx ind ev dma d = (d', dma', VErr e)
    | (dma', VOk (q, l)) =>
        pci_vq_new SIZE t idx ind ev dma d = (d', dma', VOk q) /\
        forall i, d_queues d' i = if i =? idx then given d idx l else d_queues d i
    end.
Proof.
  intros Hr Hq. unfold pci_vq_new. destruct (queue_used_run t idx d Hr) as (d1 & -> & K1). rewrite Hq. cbn [Z.eqb].
  pose proof (keeps_reaches t d d1 K1 Hr) as Hr1. destruct (max_queue_size_run t idx d1 Hr1) as (d2 & -> & K2).
  pose proof (keeps_reaches t d1 d2 K2 Hr1) as Hr2. destruct K1 as (A1 & A2 & A3 & A4 & A5), K2 as (B1 & B2 & B3 & B4 & B5). rewrite A5.
  destruct (vq_new SIZE false _ false idx ind ev dma) as [dma' [[q l]|e]].
  - destruct (queue_set_run t idx SIZE (descriptors_paddr l) (driver_area_paddr l) (device_area_paddr l) d2 Hr2) as (C1 & C2 & C3 & C4 & C5).
    eexists. split; [|split; [|split; [|split; [|split; [done|]]]]]; [unfold reaches in *; by rewrite C1|congruence..|].
    intros i. rewrite C5, B5, A5. done.
  - exists d2. split_and!; try done; congruence.
Qed.
Lemma fail_run {A} fuel e dma (d : vdev) : reaches t d ->
  exists d', fail (A := A) t (S fuel) e dma d = Some (Ret (d', dma, VErr e)) /\ d_status d' = 0 /\ forall i, q_enabled (d_queues d' i) = 0.
Proof.
  intros Hr. unfold fail, drop_transport, set_status. cbn [wait_reset]. unfold get_status. dev. cbn [fst device_status]. change (u8 0) with 0.
  eexists. split; [done|]. done.
Qed.
Lemma config_reads fuel d : reaches t d ->
  match config_result t with
  | VErr e =>
      read_consistent t (S fuel) (read_config_space t 6 1 0) d = Some (Ret (d, VErr e)) \/
      (exists x, read_consistent t (S fuel) (read_config_space t 6 1 0) d = Some (Ret (d, VOk x))) /\ read_config_space t 2 2 6 d = Ret (d, VErr e)
  | VOk _ =>
      (exists x, read_consistent t (S fuel) (read_config_space t 6 1 0) d = Some (Ret (d, VOk x))) /\
      exists x, read_config_space t 2 2 6 d = Ret (d, VOk x)
  end.
Proof.
  intros Hr. unfold config_result. cbn [read_consistent]. unfold read_config_generation, read_config_space. rewrite cfg_get_eq by done.
  cbn [Z.ltb Z.compare Pos.compare Pos.compare_cont negb]. change (0 mod 1 =? 0) with true. change (6 mod 2 =? 0) with true. cbn [negb].
  destruct (config_space t) as [[a n]|]; [|by left; rewrite cfg_get_eq, Z.eqb_refl by done].
  change (0 ⊞ 6) with 6. change (6 ⊞ 2) with 8. cbn [mmio_read vdev_mmio].
  destruct (Z.ltb_spec (n ⊠ 4) 8).
  - destruct (Z.ltb_spec (n ⊠ 4) 6); rewrite cfg_get_eq, Z.eqb_refl by done; [by left|right]. split; [|done]. by eexists.
  - rewrite (proj2 (Z.ltb_ge _ _)) by lia. rewrite cfg_get_eq, Z.eqb_refl by done. split; by eexists.
Qed.

(** C35.  Starting the network driver over a PCI transport makes the driver that
    the theorems on virtqueues and on the driver are about, on every path,
    errors included, and it ends.  When it succeeds the device agrees with the
    driver: it has accepted exactly the features the driver works with, it has
    each queue with the size and at the addresses the driver uses, no other
    queue is enabled, and it is told that the driver is ready.  When it fails
    the transport is dropped: the device is reset and no queue is left enabled,
    also not the one that was set up before the failure. *)
Theorem device_and_driver_agree fuel dma (d : vdev) :
  reaches t d -> 0 <= d_features d < 2 ^ 64 ->
  let negotiated := Z.land (d_features d) SUPPORTED_FEATURES in
  let tr := VirtioNet.mkTransport (d_features d) (fun _ => false) (fun q => q_size (d_queues d q)) false (config_result t) in
  exists d', pci_raw_new SIZE t (S fuel) dma d = Some (Ret (d', fst (raw_new SIZE tr dma), snd (raw_new SIZE tr dma))) /\
    match snd (raw_new SIZE tr dma) with
    | VErr _ => d_status d' = 0 /\ forall i, q_enabled (d_queues d' i) = 0
    | VOk _ =>
        d_accepted d' = negotiated /\ d_status d' = 15 /\
        exists dma1 l0 l1, allocate_flexible SIZE dma = (dma1, VOk l1) /\ snd (allocate_flexible SIZE dma1) = VOk l0 /\
          forall i, d_queues d' i = if i =? QUEUE_RECEIVE then given d i l0 else if i =? QUEUE_TRANSMIT then given d i l1
                                    else reset_queue (d_queues d i)
    end.
Proof.
  intros Hr Hf negotiated tr. unfold pci_raw_new.
  destruct (begin_init_negotiates t d SUPPORTED_FEATURES Hr Hf ltac:(by vm_compute)) as (d1 & -> & N1 & S1 & F1 & Q1 & _ & _ & Hr1). fold negotiated in N1 |- *.
  unfold raw_new, tr. cbn [VirtioNet.read_device_features VirtioNet.queue_used VirtioNet.max_queue_size requires_legacy_layout read_config]. fold negotiated.
  pose proof (config_reads fuel d1 Hr1) as Hcfg. destruct (config_result t) as [u|e].
  2:{ destruct Hcfg as [-> |[[x ->] ->]]; by apply fail_run. }
  destruct Hcfg as [[x ->] [y ->]].
  pose proof (vq_new_run QUEUE_TRANSMIT (Z.testbit negotiated 28) (Z.testbit negotiated 29) dma d1 Hr1 ltac:(by rewrite Q1)) as (d2 & Hr2 & F2 & N2 & S2 & E2).
  rewrite Q1 in E2. cbn [reset_queue q_size] in E2.
  destruct (vq_new SIZE false (q_size (d_queues d QUEUE_TRANSMIT)) false QUEUE_TRANSMIT _ _ dma) as [dma1 [[sq l1]|e]] eqn:EV1; [|rewrite E2; by apply fail_run].
  destruct E2 as [-> Q2].
  pose proof (vq_new_run QUEUE_RECEIVE (Z.testbit negotiated 28) (Z.testbit negotiated 29) dma1 d2 Hr2) as (d3 & Hr3 & F3 & N3 & S3 & E3);
    [by rewrite Q2, Q1|].
  rewrite Q2 in E3. change (QUEUE_RECEIVE =? QUEUE_TRANSMIT) with false in E3. cbn [reset_queue q_size] in E3. rewrite Q1 in E3. cbn [reset_queue q_size] in E3.
  destruct (vq_new SIZE false (q_size (d_queues d QUEUE_RECEIVE)) false QUEUE_RECEIVE _ _ dma1) as [dma2 [[rq l0]|e]] eqn:EV2; [|rewrite E3; by apply fail_run].
  destruct E3 as [-> Q3]. cbn [fst snd]. eexists. split; [done|]. unfold finish_init, set_status. dev. cbn [fst device_status].
  change (u8 (Z.lor (Z.lor (Z.lor ACKNOWLEDGE DRIVER) FEATURES_OK) DRIVER_OK)) with 15.
  cbn [dev_put Z.eqb d_accepted d_status d_queues]. rewrite N3, N2, N1. split; [done|]. split; [done|].
  unfold vq_new in EV1, EV2. destruct (q_size _ <? SIZE) in EV1; [done|]. destruct (q_size _ <? SIZE) in EV2; [done|].
  destruct (allocate_flexible SIZE dma) as [dma1' [l|]]; [|done]. injection EV1 as -> <- ->.
  destruct (allocate_flexible SIZE dma1) as [dma2' [l|]] eqn:EA; [|done]. injection EV2 as -> <- ->.
  exists dma1, l0, l1. split; [done|]. rewrite EA. split; [done|]. intros i. rewrite Q3.
  destruct (Z.eqb_spec i QUEUE_RECEIVE) as [->|Hne].
  - unfold given. rewrite Q2, Q1. done.
  - rewrite Q2. destruct (Z.eqb_spec i QUEUE_TRANSMIT) as [->|Hne']; [unfold given; by rewrite Q1|by rewrite Q1].
Qed.
End Agree.
