(* ===== verification/PciDemo.v ===== *)
(** * The PCI theorems at a concrete machine

    A chipset with the configuration ports, a bridge and a virtio network card
    with its structures in a 64-bit BAR; and cards that mislead the transport. *)

From S2P Require Import Prelude Pci PciProps Virtqueue VirtioNet VirtioPci VirtioPciProps NetInit.

(** ** The chipset *)

Record chipset := mkChipset { ch_latch : Z; ch_cfg : cfg }.
#[export] Instance chipset_ports : Ports chipset := {
  outl := fun port v p =>
    if port =? 0xCF8 then mkChipset v (ch_cfg p)
    else if port =? 0xCFC then
      match selected (ch_latch p) with
      | Some (df, r) => mkChipset (ch_latch p) (cfg_write df r v (ch_cfg p))
      | None => p
      end
    else p;
  inl_ := fun port p =>
    (p, if port =? 0xCFC then match selected (ch_latch p) with Some (df, r) => cfg_read df r (ch_cfg p) | None => 0xffffffff end
        else 0xffffffff);
}.
#[export] Instance chipset_laws : PortsLaws chipset.
Proof.
  refine {| latch := ch_latch; ports_cfg := ch_cfg |}.
  - by intros v p.
  - intros p df r E. exists p. cbn. by rewrite E.
  - intros p df r v E. cbn. by rewrite E.
Defined.

(** ** Functions *)

Definition fn (rs ws : list (Z * Z)) : hw_function :=
  mkHwf (list_to_map (rs ++ ((fun r => (r, 0)) <$> seqZ 0 64))) (list_to_map ws).
Definition word_ok (x : Z) : Prop := 0 <= x < 2 ^ 32.
#[export] Instance word_ok_dec x : Decision (word_ok x).
Proof. unfold word_ok. apply _. Defined.
Lemma fn_ok f : map_Forall (fun _ x => word_ok x) (regs f) -> map_Forall (fun _ x => word_ok x) (writable f) ->
  Forall (fun r => is_Some (regs f !! r)) (seqZ 0 64) -> Z.ldiff (wmask f 1) COMMAND_ALL = 0 -> hw_ok f.
Proof.
  intros Hr Hw Hs Hc. split; [|split; [|done]].
  - intros r Hin. rewrite Forall_forall in Hs. specialize (Hs r). destruct Hs as [x Hx]; [by apply elem_of_seqZ|].
    split; [done|]. unfold reg. rewrite Hx. by apply Hr in Hx.
  - intros r. unfold wmask. destruct (writable f !! r) as [x|] eqn:Hx; [by apply Hw in Hx|]. cbn. lia.
Qed.

(** The registers of a capability. *)
Definition cap_regs (v : vcap) : list (Z * Z) :=
  let r := v_off v / 4 in
  [(r, v_id v + 2 ^ 8 * v_next v + 2 ^ 16 * v_len v + 2 ^ 24 * v_type v); (r + 1, v_bar v); (r + 2, v_offset v); (r + 3, v_length v)] ++
  (if 20 <=? v_len v then [(r + 4, v_mult v)] else []).
Definition net_caps : list vcap :=
  [mkV 0x40 0x11 0x54 0 0 0 0 0 0; mkV 0x54 9 0x64 16 1 4 0 0x1000 0; mkV 0x64 9 0x74 16 3 4 0x1000 0x1000 0;
   mkV 0x74 9 0x84 16 4 4 0x2000 0x1000 0; mkV 0x84 9 0 20 2 4 0x3000 0x1000 4].
Definition net_id : list (Z * Z) := [(0, 0x10411af4); (1, 0x00100000); (2, 0x02000001); (13, 0x40)].
Definition net_masks : list (Z * Z) := [(1, 0x0507); (4, 0xffffffe0); (5, 0xfffff000); (8, 0xffffc000); (9, 0xffffffff)].
Definition net_bars : list bar_spec := [IoBar 0xc000 5; MemBar Width32 false 0xfebf0000 12; NoBar; NoBar; MemBar Width64 true 0x380fe000000 14].
Definition bar_words : list (Z * Z) := [(4, 0xc001); (5, 0xfebf0000); (8, 0xfe00000c); (9, 0x380)].
Definition net_card : hw_function := fn (net_id ++ bar_words ++ (net_caps ≫= cap_regs)) net_masks.
Definition bridge : hw_function := fn [(0, 0x12378086); (2, 0x06000002)] [(1, 0x7)].
Definition bridge_df : DeviceFunction := mkDf 0 0 0.
Definition net_df : DeviceFunction := mkDf 0 3 0.
Definition machine_cfg : cfg := <[bridge_df := bridge]> (<[net_df := net_card]> ∅).
Definition machine : PortIoCam chipset := mkPortIo (mkChipset 0 machine_cfg).

Lemma net_card_ok : hw_ok net_card.
Proof. apply fn_ok; [refine (bool_decide_unpack _ _); by vm_compute..|by vm_compute]. Qed.
Lemma net_layout : layout net_card 0 net_bars.
Proof. cbn [layout net_bars width bar_at]. split_and!; by vm_compute. Qed.
Lemma net_df_ok : df_ok net_df.
Proof. by vm_compute. Qed.
Lemma machine_net : cfg_of machine !! net_df = Some net_card.
Proof. by vm_compute. Qed.

Lemma bar_info_exact_witness :
  exists c', bar_info net_df 4 machine = Ret (c', inl (Some (BarMemory Width64 true 0x380fe000000 0x4000))) /\ cfg_of c' = machine_cfg /\ cam_ok c'.
Proof.
  destruct (bar_info_exact machine net_df net_card 4 (MemBar Width64 true 0x380fe000000 14)) as (c' & E & H);
    [done|by vm_compute|exact machine_net|exact net_card_ok|done|apply net_layout|]. exists c'. exact (conj E H).
Defined.

(** ** The whole machine *)

Definition net_transport : PciTransport :=
  mkPciTransport Network net_df 0x380fe000000 (0x380fe003000, 0x800) 4 0x380fe001000 (Some (0x380fe002000, 0x400)).
Lemma in_bar4 v n al a : v_bar v = 4 -> 0 <= v_offset v -> v_offset v + v_length v <= 0x4000 -> 1 <= n <= v_length v ->
  a = 0x380fe000000 + v_offset v -> a mod al = 0 -> region_at net_card v n al a.
Proof.
  intros Eb H1 H2 H3 Ea H4. exists Width64, true, 0x380fe000000, 14. rewrite Eb. change (2 ^ 14) with 0x4000.
  split_and!; try done; try lia; apply net_layout.
Qed.
Lemma net_virtio : virtio_fn net_card 0x1041 Network (mkV 0x40 0x11 0x54 0 0 0 0 0 0) (tail net_caps)
  (mkV 0x54 9 0x64 16 1 4 0 0x1000 0) (mkV 0x84 9 0 20 2 4 0x3000 0x1000 4) (mkV 0x64 9 0x74 16 3 4 0x1000 0x1000 0)
  (Some (mkV 0x74 9 0x84 16 4 4 0x2000 0x1000 0)) net_transport.
Proof.
  split.
  - by vm_compute.
  - by vm_compute.
  - cbn [chain net_caps tail]. unfold cap_at. split_and!; by vm_compute.
  - split; [by vm_compute|]. by apply in_bar4.
  - split; [by vm_compute|]. split; [by apply in_bar4|by vm_compute].
  - split; [by vm_compute|]. by apply in_bar4.
  - split; [by vm_compute|]. split; [by apply in_bar4|done].
  - done.
Qed.
(** Only bus 0 has functions. *)
Lemma machine_devices : devices machine_cfg 256 0 = List.filter usable (omap (found machine_cfg) (slots 0 0)).
Proof.
  unfold devices. rewrite (seqZ_cons 0) by lia. rewrite bind_cons. change (Z.pred (Z.of_nat 256)) with 255.
  assert (forall l, (forall b, b ∈ l -> b <> 0) -> (l ≫= fun b => List.filter usable (omap (found machine_cfg) (slots b 0))) = []) as Hn.
  { induction l as [|b l IH]; [done|]. intros Hl. rewrite bind_cons, IH by (intros; apply Hl; by right).
    assert (b <> 0) as Hb by (apply Hl; by left). rewrite app_nil_r.
    assert (forall ks, omap (found machine_cfg) (slot b <$> ks) = []) as Hk; [|by unfold slots; rewrite Hk].
    induction ks as [|k ks IHk]; [done|]. cbn [fmap list_fmap omap list_omap]. unfold found at 1, cfg_read, machine_cfg.
    rewrite !lookup_insert_ne, lookup_empty by (unfold bridge_df, net_df, slot; congruence). cbn [Z.eqb INVALID_READ Pos.eqb]. done. }
  rewrite Hn; [by rewrite app_nil_r|]. intros b Hb%elem_of_seqZ. lia.
Qed.
Definition net_device : vdev :=
  mkVdev 0x380fe000000 0x130010020 0 0 0 0 0 0 (fun i => if i <? 2 then mkVQ 256 i 0 0 0 0 else mkVQ 0 i 0 0 0 0) [] (fun _ => 0).
Definition net_info : DeviceFunctionInfo := info_at machine_cfg net_df.
Lemma network_card_found_witness :
  exists c', init_networking (fun _ d => (d, false)) 10 machine net_device = Some (Ret (c', net_device, NicVirtio net_transport)) /\
    cfg_of c' = cfg_write net_df 1 7 (cfg_of machine).
Proof.
  apply (network_card_found (fun _ d => (d, false)) machine net_device net_df net_card net_info
    [(bridge_df, info_at machine_cfg bridge_df)] [] 0x1041 (mkV 0x40 0x11 0x54 0 0 0 0 0 0) (tail net_caps)
    (mkV 0x54 9 0x64 16 1 4 0 0x1000 0) (mkV 0x84 9 0 20 2 4 0x3000 0x1000 4) (mkV 0x64 9 0x74 16 3 4 0x1000 0x1000 0)
    (Some (mkV 0x74 9 0x84 16 4 4 0x2000 0x1000 0)) net_transport 10).
  - exact I.
  - refine (eq_trans machine_devices _). by vm_compute.
  - repeat constructor.
  - by vm_compute.
  - by vm_compute.
  - exact machine_net.
  - exact net_card_ok.
  - exact net_virtio.
  - done.
  - cbn. lia.
Defined.

(** ** A device that is driven *)

(** A card whose receive queue has only two entries. *)
Definition small_device : vdev :=
  mkVdev 0x380fe000000 0x130010020 0 0 0 0 0 0 (fun i => if i =? 1 then mkVQ 256 i 0 0 0 0 else mkVQ 2 i 0 0 0 0) [] (fun _ => 0).
Lemma small_reached : reaches net_transport small_device.
Proof. by vm_compute. Qed.
Lemma small_features : 0 <= d_features small_device < 2 ^ 64.
Proof. by vm_compute. Qed.
Lemma small_fails : raw_new 4 (mkTransport (d_features small_device) (fun _ => false) (fun q => q_size (d_queues small_device q)) false
  (config_result net_transport)) 0x100000 = (0x102000, VErr InvalidParam).
Proof. by vm_compute. Qed.
Lemma device_and_driver_agree_witness :
  exists d' raw, pci_raw_new 4 net_transport 1 0x100000 net_device = Some (Ret (d', 0x104000, VOk raw)) /\
    d_accepted d' = 0x130010020 /\ d_status d' = 15 /\ d_queues d' 1 = mkVQ 4 1 0x100000 0x100040 0x101000 1 /\
  exists d'', pci_raw_new 4 net_transport 1 0x100000 small_device = Some (Ret (d'', 0x102000, VErr InvalidParam)) /\
    d_status d'' = 0 /\ q_enabled (d_queues d'' 1) = 0.
Proof.
  destruct (device_and_driver_agree 4 net_transport 0 0x100000 net_device) as (d' & E & H); [by vm_compute|by vm_compute|].
  exists d', (match snd (raw_new 4 (mkTransport 0x130010020 (fun _ => false) (fun q => q_size (d_queues net_device q)) false (VOk tt)) 0x100000) with
    | VOk r => r | VErr _ => mkRaw (mkVq (fun _ => zero_desc) 0 0 (fun _ => 0) 0 0 0 (fun _ => (0, 0)) 0 0 0 0 (fun _ => zero_desc) 0 0 false false (fun _ => None))
        (mkVq (fun _ => zero_desc) 0 0 (fun _ => 0) 0 0 0 (fun _ => (0, 0)) 0 0 0 0 (fun _ => zero_desc) 0 0 false false (fun _ => None)) false [] end).
  split; [exact E|]. destruct H as (H1 & H2 & dma1 & l0 & l1 & A1 & A2 & Q). split; [exact H1|]. split; [exact H2|].
  split; [rewrite Q; vm_compute in A1; by injection A1 as <- <-|].
  pose proof (device_and_driver_agree 4 net_transport 0 0x100000 small_device small_reached small_features) as A.
  cbn zeta in A. rewrite small_fails in A. destruct A as (d'' & E2 & H3 & H4). exists d''. split; [exact E2|]. split; [exact H3|exact (H4 1)].
Defined.

(** ** Devices that mislead the transport *)

(** The bound on a structure is computed in 32 bits: an offset near the top wraps
    around, and the structure is placed 4 GiB above its BAR of 16 KiB. *)
Example region_check_wraps :
  exists c', get_bar_region 56 8 net_df (mkVcap 4 0xfffff000 0x1038) machine = Ret (c', inl (0x380fe000000 + 0xfffff000)).
Proof. eexists. vm_compute. reflexivity. Qed.
(** The BAR number of a capability is not checked: number 253 probes the command
    register. *)
Example bar_number_unchecked : bar_offset 253 = STATUS_COMMAND_OFFSET.
Proof. done. Qed.
