(* ===== verification/TscSync.v ===== *)
(** * Measuring the offset of a CPU's time-stamp counter

    Models [measure_tsc_offset] (boot CPU) and [ap_tsc_sync] (starting CPU) of
    [src/src/syscall.rs]: two programs that hand a word of shared memory back
    and forth, three rounds long.  Each memory access, counter read and loop
    test is one step; the steps of the two CPUs interleave arbitrarily, and
    time passes in between.  A step function yields [None] while its CPU
    spins. *)

From S2P Require Import Prelude.

Inductive bsp_pc := BReset | BSignal | BClock | BWait | BTake | BStore | BFinish | BDone.
Inductive ap_pc := AWait | AClock | AStore | APost | ALeave | ADone.

Record sync := mkSync {
  sync_state : Z; (* the word at 0x8030 *)
  ap_tsc : Z; (* the word at 0x8038 *)
  bpc : bsp_pc;
  bsp_tsc : Z;
  offsets : list Z; (* [offsets[..round]] *)
  tsc_offset : option Z; (* what was stored to [TSC_OFFSETS[cpu_id]] *)
  apc : ap_pc;
  ap_round : nat;
  my_tsc : Z;
}.
Definition set_state (v : Z) (s : sync) : sync :=
  mkSync v (ap_tsc s) (bpc s) (bsp_tsc s) (offsets s) (tsc_offset s) (apc s) (ap_round s) (my_tsc s).
Definition set_bpc (p : bsp_pc) (s : sync) : sync :=
  mkSync (sync_state s) (ap_tsc s) p (bsp_tsc s) (offsets s) (tsc_offset s) (apc s) (ap_round s) (my_tsc s).
Definition set_apc (p : ap_pc) (s : sync) : sync :=
  mkSync (sync_state s) (ap_tsc s) (bpc s) (bsp_tsc s) (offsets s) (tsc_offset s) p (ap_round s) (my_tsc s).

(** [offsets.sort(); offsets[1]]. *)
Definition median (l : list Z) : Z := nth 1 (merge_sort Z.le l) 0.

(** [measure_tsc_offset]; [tsc] is the boot CPU's counter now. *)
Definition bsp_step (tsc : Z) (s : sync) : option sync :=
  match bpc s with
  | BReset => Some (set_bpc BSignal (set_state 0 s))
  | BSignal => Some (set_bpc BClock (set_state 1 s))
  | BClock => Some (mkSync (sync_state s) (ap_tsc s) BWait tsc (offsets s) (tsc_offset s) (apc s) (ap_round s) (my_tsc s))
  | BWait => if sync_state s =? 2 then Some (set_bpc BTake s) else None
  | BTake =>
      let l := offsets s ++ [i64 (bsp_tsc s - ap_tsc s)] in
      Some (mkSync (sync_state s) (ap_tsc s) (if (length l <? 3)%nat then BReset else BStore) (bsp_tsc s) l (tsc_offset s)
              (apc s) (ap_round s) (my_tsc s))
  | BStore =>
      Some (mkSync (sync_state s) (ap_tsc s) BFinish (bsp_tsc s) (offsets s) (Some (median (offsets s)))
              (apc s) (ap_round s) (my_tsc s))
  | BFinish => Some (set_bpc BDone (set_state 3 s))
  | BDone => None
  end.

(** [ap_tsc_sync]; [tsc] is the starting CPU's counter now. *)
Definition ap_step (tsc : Z) (s : sync) : option sync :=
  match apc s with
  | AWait => if sync_state s =? 1 then Some (set_apc AClock s) else None
  | AClock => Some (mkSync (sync_state s) (ap_tsc s) (bpc s) (bsp_tsc s) (offsets s) (tsc_offset s) AStore (ap_round s) tsc)
  | AStore =>
      Some (mkSync (sync_state s) (my_tsc s) (bpc s) (bsp_tsc s) (offsets s) (tsc_offset s) APost (ap_round s) (my_tsc s))
  | APost => Some (set_apc ALeave (set_state 2 s))
  | ALeave =>
      if sync_state s =? 2 then None else
      let r := S (ap_round s) in
      Some (mkSync (sync_state s) (ap_tsc s) (bpc s) (bsp_tsc s) (offsets s) (tsc_offset s)
              (if (r <? 3)%nat then AWait else ADone) r (my_tsc s))
  | ADone => None
  end.

Section Sync.
(** The counters run at the same rate, [B] and [A] ahead of time zero. *)
Variables A B : Z.

(** The two CPUs in time; [began] is when the round's signal was sent, and
    [rounds] when each finished round began and ended. *)
Record world := mkWorld { now : Z; began : Z; rounds : list (Z * Z); sy : sync }.

Inductive step : world -> world -> Prop :=
  | s_time t w : now w <= t -> step w (mkWorld t (began w) (rounds w) (sy w))
  | s_bsp s' w : bsp_step (u64 (now w + B)) (sy w) = Some s' ->
      step w (mkWorld (now w) (match bpc (sy w) with BSignal => now w | _ => began w end)
                (match bpc (sy w) with BTake => rounds w ++ [(began w, now w)] | _ => rounds w end) s')
  | s_ap s' w : ap_step (u64 (now w + A)) (sy w) = Some s' -> step w (mkWorld (now w) (began w) (rounds w) s').

(** The boot CPU enters with any word in memory but the signal. *)
Definition start (w : world) : Prop :=
  exists t v a b c, v <> 1 /\ w = mkWorld t t [] (mkSync v a BReset b [] None AWait 0 c).

Inductive reachable : world -> Prop :=
  | r_start w : start w -> reachable w
  | r_step w w' : reachable w -> step w w' -> reachable w'.

(** ** The invariant *)

(** Both counters were read during the round. *)
Definition round_ok (o : Z) (r : Z * Z) : Prop :=
  exists σ τ, fst r <= σ <= snd r /\ fst r <= τ <= snd r /\ o = i64 (σ + B - (τ + A)).

Definition ap_fresh (r : nat) (s : sync) : Prop :=
  match apc s with ALeave => S (ap_round s) = r | AWait => ap_round s = r | _ => False end.
Definition read_at (w : world) (c v : Z) : Prop := exists τ, began w <= τ <= now w /\ v = u64 (τ + c).
Definition posted (r : nat) (w : world) : Prop :=
  sync_state (sy w) = 2 /\ apc (sy w) = ALeave /\ ap_round (sy w) = r /\ read_at w A (ap_tsc (sy w)).
Definition active (r : nat) (w : world) : Prop :=
  let s := sy w in
  sync_state s = 1 /\
  match apc s with
  | ALeave => S (ap_round s) = r
  | AWait | AClock => ap_round s = r
  | AStore => ap_round s = r /\ read_at w A (my_tsc s)
  | APost => ap_round s = r /\ read_at w A (ap_tsc s)
  | ADone => False
  end.

Definition inv (w : world) : Prop :=
  let s := sy w in let r := length (offsets s) in
  began w <= now w /\ Forall2 round_ok (offsets s) (rounds w) /\ Forall (fun p => fst p <= snd p) (rounds w) /\
  match bpc s with
  | BReset => (r < 3)%nat /\ ((r = 0%nat /\ apc s = AWait /\ ap_round s = 0%nat /\ sync_state s <> 1)
                \/ (sync_state s = 2 /\ apc s = ALeave /\ S (ap_round s) = r))
  | BSignal => (r < 3)%nat /\ sync_state s = 0 /\ ap_fresh r s
  | BClock => (r < 3)%nat /\ (active r w \/ posted r w)
  | BWait => (r < 3)%nat /\ read_at w B (bsp_tsc s) /\ (active r w \/ posted r w)
  | BTake => (r < 3)%nat /\ read_at w B (bsp_tsc s) /\ posted r w
  | BStore => r = 3%nat /\ sync_state s = 2 /\ apc s = ALeave /\ ap_round s = 2%nat
  | BFinish => r = 3%nat /\ sync_state s = 2 /\ apc s = ALeave /\ ap_round s = 2%nat /\ tsc_offset s = Some (median (offsets s))
  | BDone => r = 3%nat /\ sync_state s = 3 /\ tsc_offset s = Some (median (offsets s))
      /\ ((apc s = ALeave /\ ap_round s = 2%nat) \/ (apc s = ADone /\ ap_round s = 3%nat))
  end.

Lemma read_at_mono w w' c v : began w' = began w -> now w <= now w' -> read_at w c v -> read_at w' c v.
Proof. intros E H (τ & Ht & ->). exists τ. rewrite E. split; [lia|done]. Qed.

Lemma inv_time w t : now w <= t -> inv w -> inv (mkWorld t (began w) (rounds w) (sy w)).
Proof.
  intros Ht. unfold inv, active, posted. cbn [sy began rounds now].
  assert (forall c v, read_at w c v -> read_at (mkWorld t (began w) (rounds w) (sy w)) c v) as HM
    by (intros; by eapply read_at_mono; [| |done]).
  intros (H1 & H2 & H3 & H4). split_and!; [lia|done|done|].
  destruct (bpc (sy w)), (apc (sy w)); intuition eauto.
Qed.

Lemma i64_diff x y : i64 (u64 x - u64 y) = i64 (x - y).
Proof. unfold i64, signed, u64, wrap. by rewrite <- Zminus_mod. Qed.

Lemma inv_bsp w s' : inv w -> bsp_step (u64 (now w + B)) (sy w) = Some s' ->
  inv (mkWorld (now w) (match bpc (sy w) with BSignal => now w | _ => began w end)
         (match bpc (sy w) with BTake => rounds w ++ [(began w, now w)] | _ => rounds w end) s').
Proof.
  destruct w as [t b h [v a p bt os res ap ar my]]. unfold inv, bsp_step, active, posted, ap_fresh, read_at.
  cbn [sy began rounds now bpc sync_state offsets apc ap_round ap_tsc bsp_tsc my_tsc tsc_offset].
  intros (H1 & H2 & H3 & H4). destruct p; intros E; simplify_eq;
    cbn [bpc sync_state offsets apc ap_round ap_tsc bsp_tsc my_tsc tsc_offset set_state set_bpc].
  - split_and!; [done..|naive_solver|done|]. destruct H4 as [_ [(-> & -> & -> & _)|(_ & -> & ->)]]; done.
  - split_and!; [lia|done|done|naive_solver|]. left. split; [done|]. destruct H4 as (_ & -> & H4). by destruct ap.
  - split_and!; [done..|naive_solver| |naive_solver]. exists t. split; [lia|done].
  - case_match; simplify_eq. zb. cbn. destruct H4 as (Hr & HB & [[? _]|(HP1 & HP2 & HP3 & HP4)]); [lia|]. split_and!; done.
  - destruct H4 as (Hr & (σ & Hσ & ->) & E2 & -> & -> & (τ & Hτ & ->)).
    rewrite !length_app. cbn [length].
    assert (Forall2 round_ok (os ++ [i64 (u64 (σ + B) - u64 (τ + A))]) (h ++ [(b, t)])) as HF.
    { apply Forall2_app; [done|]. constructor; [|constructor]. exists σ, τ. cbn. rewrite i64_diff. split_and!; [lia..|done]. }
    assert (Forall (fun p => fst p <= snd p) (h ++ [(b, t)])) as HG by (apply Forall_app; split; [done|by constructor]).
    destruct (Nat.ltb_spec (length os + 1) 3); (split; [done|]); (split; [done|]); (split; [done|]); split; try lia.
    + right. split_and!; [done|done|lia].
    + split_and!; [done|done|lia].
  - naive_solver.
  - naive_solver.
Qed.

Lemma inv_ap w s' : inv w -> ap_step (u64 (now w + A)) (sy w) = Some s' ->
  inv (mkWorld (now w) (began w) (rounds w) s').
Proof.
  destruct w as [t b h [v a p bt os res ap ar my]]. unfold inv, ap_step, active, posted, ap_fresh, read_at.
  cbn [sy began rounds now bpc sync_state offsets apc ap_round ap_tsc bsp_tsc my_tsc tsc_offset].
  intros (H1 & H2 & H3 & H4) E. split_and!; [by destruct ap; repeat case_match; simplify_eq/=..|].
  destruct ap; [case_match; [|done]| | | |case_match; [done|]|done]; zb; simplify_eq/=;
    destruct p; try naive_solver; try (destruct (Nat.ltb_spec (S ar) 3); naive_solver lia).
  destruct H4 as (? & ? & [[-> ->]|[? [? _]]]); [|done]. split; [done|]. split; [done|]. left. split; [done|].
  split; [done|]. exists t. split; [lia|done].
Qed.

Lemma reachable_inv w : reachable w -> inv w.
Proof.
  induction 1 as [w (t & v & a & b & c & Hv & ->)|w w' _ IH Hs].
  - unfold inv. cbn. split_and!; [lia|constructor|constructor|lia|]. left. done.
  - inversion Hs; subst; [by apply inv_time|by apply inv_bsp|by apply inv_ap].
Qed.

(** ** The median *)
Lemma median_between (x y z lo hi : Z) (i j : nat) u v :
  [x; y; z] !! i = Some u -> [x; y; z] !! j = Some v -> i <> j -> lo <= u <= hi -> lo <= v <= hi ->
  lo <= median [x; y; z] <= hi.
Proof.
  intros Hi Hj Hij Hu Hv. unfold median, merge_sort. cbn. repeat (case_decide; cbn).
  all: destruct i as [|[|[|i]]], j as [|[|[|j]]]; cbn in Hi, Hj; simplify_eq; lia.
Qed.

(** C27.  When the measurement is over, the stored offset is off by no more than
    the duration of the second-fastest round: if any two of the three rounds
    took at most [e], it is within [e] of the distance between the two
    counters, however late the CPUs were in the third. *)
Theorem tsc_offset_accurate w e (i j : nat) ri rj :
  reachable w -> bpc (sy w) = BDone -> - 2 ^ 62 <= B - A <= 2 ^ 62 -> 0 <= e < 2 ^ 62 ->
  i <> j -> rounds w !! i = Some ri -> rounds w !! j = Some rj ->
  snd ri - fst ri <= e -> snd rj - fst rj <= e ->
  length (rounds w) = 3%nat /\ exists o, tsc_offset (sy w) = Some o /\ Z.abs (o - (B - A)) <= e.
Proof.
  intros HR Hd HD He Hij Hi Hj Hei Hej. pose proof (reachable_inv w HR) as (_ & HF & _ & Hp). rewrite Hd in Hp.
  destruct Hp as (Hlen & _ & Ho & _). split; [by rewrite <- (Forall2_length _ _ _ HF)|].
  exists (median (offsets (sy w))). split; [done|].
  assert (forall k r, rounds w !! k = Some r -> snd r - fst r <= e ->
    exists o, offsets (sy w) !! k = Some o /\ B - A - e <= o <= B - A + e) as Hk.
  { intros k r Hr He'. destruct (Forall2_lookup_r _ _ _ k r HF Hr) as (o & Ho' & σ & τ & H1 & H2 & ->).
    eexists. split; [exact Ho'|]. rewrite i64_small; lia. }
  destruct (Hk i ri Hi Hei) as (oi & Hoi & Hbi), (Hk j rj Hj Hej) as (oj & Hoj & Hbj).
  destruct (offsets (sy w)) as [|x [|y [|z [|]]]]; try done.
  pose proof (median_between x y z (B - A - e) (B - A + e) i j oi oj Hoi Hoj Hij Hbi Hbj). lia.
Qed.

(** ** Progress *)

Ltac nat_bools :=
  repeat match goal with
  | H : (_ <? _)%nat = true |- _ => apply Nat.ltb_lt in H
  | H : (_ <? _)%nat = false |- _ => apply Nat.ltb_ge in H
  end.

Definition bsp_left (s : sync) : nat :=
  (match bpc s with
   | BReset => 8 | BSignal => 7 | BClock => 6 | BWait => 5 | BTake => 4 | BStore => 2 | BFinish => 1 | BDone => 0
   end + (match bpc s with BStore | BFinish | BDone => 0 | _ => 5 * (2 - length (offsets s)) end))%nat.
Definition ap_left (s : sync) : nat :=
  (match apc s with AWait => 5 | AClock => 4 | AStore => 3 | APost => 2 | ALeave => 1 | ADone => 0 end
   + (match apc s with ADone => 0 | _ => 5 * (2 - ap_round s) end))%nat.

(** The measurement cannot get stuck: until both CPUs have left it one of
    them can take a step that is not a turn of a wait loop, and there are at
    most 33 such steps altogether. *)
Theorem tsc_sync_completes w :
  reachable w ->
  (bsp_left (sy w) + ap_left (sy w) <= 33)%nat
  /\ (forall t s', bsp_step t (sy w) = Some s' -> bsp_left s' + ap_left s' < bsp_left (sy w) + ap_left (sy w))%nat
  /\ (forall t s', ap_step t (sy w) = Some s' -> bsp_left s' + ap_left s' < bsp_left (sy w) + ap_left (sy w))%nat
  /\ ((bpc (sy w) = BDone /\ apc (sy w) = ADone)
      \/ is_Some (bsp_step (u64 (now w + B)) (sy w)) \/ is_Some (ap_step (u64 (now w + A)) (sy w))).
Proof.
  intros (_ & _ & _ & H)%reachable_inv.
  destruct w as [t b h [v a p bt os res ap ar my]]. unfold active, posted, ap_fresh in H.
  unfold bsp_step, ap_step, bsp_left, ap_left.
  cbn [sy began rounds now bpc sync_state offsets apc ap_round ap_tsc bsp_tsc my_tsc tsc_offset] in *.
  split_and!.
  - destruct p, ap; naive_solver lia.
  - intros t0 s'. destruct p; intros E; repeat case_match; nat_bools; simplify_eq; cbn in *; rewrite ?length_app in *;
      cbn in *; nat_bools; lia.
  - intros t0 s'. destruct ap; intros E; repeat case_match; nat_bools; simplify_eq; cbn in *; lia.
  - destruct p; try (right; left; eexists; reflexivity).
    + destruct H as (_ & _ & [[-> H]|[-> _]]); [|right; left; eexists; reflexivity]. right. right. destruct ap; (eexists; reflexivity) || done.
    + destruct H as (_ & -> & _ & [[-> _]|[-> _]]); [right; right; eexists; reflexivity|by left].
Qed.
End Sync.

(** ** A run *)

(** Counters 5000 apart; the second round is interrupted for a million ticks. *)
Definition demo_w0 : world := mkWorld 0 0 [] (mkSync 77 0 BReset 0 [] None AWait 0 0).
Inductive turn := Tick (t : Z) | Bsp | Ap.
Definition demo_turn (c : turn) (w : world) : world :=
  match c with
  | Tick t => mkWorld (now w + t) (began w) (rounds w) (sy w)
  | Bsp =>
      match bsp_step (u64 (now w + 9000)) (sy w) with
      | Some s' => mkWorld (now w) (match bpc (sy w) with BSignal => now w | _ => began w end)
                     (match bpc (sy w) with BTake => rounds w ++ [(began w, now w)] | _ => rounds w end) s'
      | None => w
      end
  | Ap => match ap_step (u64 (now w + 4000)) (sy w) with Some s' => mkWorld (now w) (began w) (rounds w) s' | None => w end
  end.
Definition demo_turns (d : Z) : list turn :=
  [Bsp; Ap; Bsp; Tick 3; Bsp; Ap; Ap; Tick d; Ap; Ap; Ap; Tick 4; Bsp; Bsp].
Definition demo_w : world :=
  fold_left (fun w c => demo_turn c w) (demo_turns 10 ++ demo_turns 1000000 ++ demo_turns 20 ++ [Bsp; Bsp; Ap]) demo_w0.

Lemma demo_turn_reach c w : (forall t, c = Tick t -> 0 <= t) -> reachable 4000 9000 w -> reachable 4000 9000 (demo_turn c w).
Proof.
  intros Ht Hr. destruct c as [t| |]; cbn.
  - eapply r_step; [exact Hr|]. apply s_time. specialize (Ht t eq_refl). lia.
  - case_match; [|done]. eapply r_step; [exact Hr|]. by apply s_bsp.
  - case_match; [|done]. eapply r_step; [exact Hr|]. by apply s_ap.
Qed.

Lemma demo_reach : reachable 4000 9000 demo_w.
Proof.
  assert (forall l w, Forall (fun c => forall t, c = Tick t -> 0 <= t) l -> reachable 4000 9000 w ->
    reachable 4000 9000 (fold_left (fun w c => demo_turn c w) l w)) as H.
  { induction l as [|c l IH]; intros w Hl Hr; [done|]. apply Forall_cons in Hl as [Hc Hl]. apply IH; [done|].
    by apply demo_turn_reach. }
  apply H.
  - repeat (apply Forall_cons; split; [intros t E; inversion E; lia|]). constructor.
  - apply r_start. exists 0, 77, 0, 0, 0. done.
Qed.

Lemma tsc_offset_accurate_witness :
  exists o, tsc_offset (sy demo_w) = Some o /\ Z.abs (o - 5000) <= 27.
Proof.
  apply (tsc_offset_accurate 4000 9000 demo_w 27 0 2 (0, 17) (1000024, 1000051) demo_reach);
    [vm_compute; reflexivity|lia|lia|lia|vm_compute; reflexivity|vm_compute; reflexivity|cbn; lia|cbn; lia].
Defined.

Lemma tsc_sync_completes_witness : (bsp_left (sy demo_w) + ap_left (sy demo_w) <= 33)%nat.
Proof. exact (proj1 (tsc_sync_completes 4000 9000 demo_w demo_reach)). Defined.
