(* ===== verification/Clock.v ===== *)
(** * Clocks and the timer descriptor

    Models the time-keeping of [src/src/syscall.rs] ([monotonic_ns],
    [realtime_ns], [seed_wall_clock], [calibrate_tsc], [clock_gettime],
    [clock_getres] and the timer descriptor) and the paravirtual clock
    [src/src/pvclock.rs].  The time-stamp counter, the CPU a call runs on and
    the CMOS clock are arguments; a page the hypervisor writes at any time is
    a function from the number of reads made of it to its contents. *)

From S2P Require Import Prelude Paging PagingRefine Confinement Uaccess.

(** ** The paravirtual clock *)

Record VcpuTimeInfo := mkVti {
  version : Z; (* u32 *)
  tsc_timestamp : Z;
  system_time : Z;
  tsc_to_system_mul : Z; (* u32 *)
  tsc_shift : Z; (* i8 *)
  pv_flags : Z;
}.
Record WallClock := mkWall { wall_version : Z; wall_sec : Z; wall_nsec : Z }.

Record pvclock := mkPv {
  AVAILABLE : bool;
  WALL_BASE_NS : Z;
  msrs : list (Z * Z); (* the writes to model-specific registers, latest first *)
}.

Definition MSR_KVM_SYSTEM_TIME_NEW : Z := 0x4b564d01.
Definition MSR_KVM_WALL_CLOCK_NEW : Z := 0x4b564d00.
Definition SEQLOCK_MAX_SPINS : nat := 4096.

(** [cpuid leaf] is [(eax, ebx, ecx, edx)]. *)
Definition has_clocksource2 (cpuid : Z -> Z * Z * Z * Z) : bool :=
  let '(_, ebx, ecx, edx) := cpuid 0x40000000 in
  if negb (ebx =? 0x4b4d564b) || negb (ecx =? 0x564b4d56) || negb (edx =? 0x4d) then false else
  let '(eax, _, _, _) := cpuid 0x40000001 in
  negb (Z.land eax 8 =? 0).

(** Shift amounts are taken modulo the width. *)
Definition scale_delta (delta mul shift : Z) : Z :=
  let d := if shift <? 0 then Z.shiftr delta ((- shift) mod 64) else u64 (Z.shiftl delta (shift mod 64)) in
  u64 (Z.shiftr (d * mul) 32).

(** The loops from read number [t]. *)
Fixpoint read_wall_loop (spins t : nat) (page : nat -> WallClock) : Z :=
  match spins with
  | O => 0
  | S spins' =>
      let v1 := wall_version (page t) in
      if Z.odd v1 then read_wall_loop spins' (t + 1)%nat page else
      let sec := wall_sec (page (t + 1)%nat) in
      let nsec := wall_nsec (page (t + 2)%nat) in
      let v2 := wall_version (page (t + 3)%nat) in
      if v1 =? v2 then (sec ⊠ 1000000000) ⊞ nsec else read_wall_loop spins' (t + 4)%nat page
  end.
Definition read_wall_ns (page : nat -> WallClock) : Z := read_wall_loop SEQLOCK_MAX_SPINS 0 page.

Fixpoint pv_loop (spins t : nat) (page : nat -> VcpuTimeInfo) (base corrected_tsc : Z) : option Z :=
  match spins with
  | O => None
  | S spins' =>
      let v1 := version (page t) in
      if Z.odd v1 then pv_loop spins' (t + 1)%nat page base corrected_tsc else
      let tsc_ts := tsc_timestamp (page (t + 1)%nat) in
      let sys := system_time (page (t + 2)%nat) in
      let mul := tsc_to_system_mul (page (t + 3)%nat) in
      let shift := tsc_shift (page (t + 4)%nat) in
      let v2 := version (page (t + 5)%nat) in
      if v1 =? v2 then Some (base ⊞ sys ⊞ scale_delta (corrected_tsc ⊟ tsc_ts) mul shift)
      else pv_loop spins' (t + 6)%nat page base corrected_tsc
  end.
Definition pv_realtime_ns (page : nat -> VcpuTimeInfo) (corrected_tsc : Z) (p : pvclock) : option Z :=
  if negb (AVAILABLE p) then None else pv_loop SEQLOCK_MAX_SPINS 0 page (WALL_BASE_NS p) corrected_tsc.

(** [init]; [flags] is what the host has put in the page by then. *)
Definition pv_init (cpuid : Z -> Z * Z * Z * Z) (wall_pa sys_pa flags : Z) (wall : nat -> WallClock) (p : pvclock) : pvclock :=
  if negb (has_clocksource2 cpuid) then p else
  let m := (MSR_KVM_SYSTEM_TIME_NEW, Z.lor sys_pa 1) :: (MSR_KVM_WALL_CLOCK_NEW, wall_pa) :: msrs p in
  if Z.land flags 1 =? 0 then mkPv (AVAILABLE p) (WALL_BASE_NS p) ((MSR_KVM_SYSTEM_TIME_NEW, 0) :: m)
  else mkPv true (read_wall_ns wall) m.

(** ** The kernel's clocks *)

Record clock := mkClock {
  LAST_TIME_NS : Z;
  WALL_OFFSET_NS : Z;
  TSC_FREQ_HZ : Z;
  TSC_OFFSETS : Z -> Z; (* i64, 16 of them *)
  LAST_RETURNED : Z -> Z; (* LAST_RETURNED_PER_CPU *)
  TIMERFD_DEADLINE_NS : Z;
}.
Definition boot_clock : clock := mkClock 0 0 2000000000 (fun _ => 0) (fun _ => 0) 0.
Definition set_deadline (v : Z) (c : clock) : clock :=
  mkClock (LAST_TIME_NS c) (WALL_OFFSET_NS c) (TSC_FREQ_HZ c) (TSC_OFFSETS c) (LAST_RETURNED c) v.

(** Where and when a call is made: the CPU and its raw counter. *)
Record here := mkHere { cpu : Z; raw_tsc : Z }.

Definition corrected_tsc_bsp (h : here) (c : clock) : Z :=
  u64 (raw_tsc h + if cpu h <? 16 then TSC_OFFSETS c (cpu h) else 0).

Definition tsc_to_ns (c : clock) (tsc : Z) : Z :=
  let freq_mhz := TSC_FREQ_HZ c / 1000000 in
  if 0 <? freq_mhz then (tsc ⊠ 1000) / freq_mhz else tsc / 2.

Definition monotonic_ns (h : here) (c : clock) : clock * Z :=
  let total_ns := tsc_to_ns c (corrected_tsc_bsp h c) in
  let prev := LAST_TIME_NS c in
  let result := Z.max prev total_ns in
  (mkClock (Z.max prev total_ns) (WALL_OFFSET_NS c) (TSC_FREQ_HZ c) (TSC_OFFSETS c)
     (if cpu h <? 16 then fupd (LAST_RETURNED c) (cpu h) (Z.max (LAST_RETURNED c (cpu h)) result) else LAST_RETURNED c)
     (TIMERFD_DEADLINE_NS c), result).

(** The counter before and after 11932 ticks of the PIT. *)
Definition calibrate_tsc (tsc_start tsc_end : Z) (c : clock) : clock :=
  mkClock (LAST_TIME_NS c) (WALL_OFFSET_NS c) (((tsc_end ⊟ tsc_start) ⊠ 1193182) / 11932) (TSC_OFFSETS c)
    (LAST_RETURNED c) (TIMERFD_DEADLINE_NS c).

Definition saturating_mul (a b : Z) : Z := Z.min (a * b) u64_max.

(** [rtc] is the result of [read_rtc_unix_secs]. *)
Definition seed_wall_clock (rtc : option Z) (h : here) (c : clock) : clock :=
  match rtc with
  | Some secs =>
      let wall_ns := saturating_mul secs 1000000000 in
      let '(c, mono) := monotonic_ns h c in
      mkClock (LAST_TIME_NS c) (saturating_sub wall_ns mono) (TSC_FREQ_HZ c) (TSC_OFFSETS c) (LAST_RETURNED c)
        (TIMERFD_DEADLINE_NS c)
  | None => c
  end.

(** The second [here] is the place of the fallback's own counter read. *)
Definition realtime_ns (page : nat -> VcpuTimeInfo) (p : pvclock) (h h2 : here) (c : clock) : clock * Z :=
  match pv_realtime_ns page (corrected_tsc_bsp h c) p with
  | Some ns => (c, ns)
  | None => let '(c, ns) := monotonic_ns h2 c in (c, ns ⊞ WALL_OFFSET_NS c)
  end.

(** ** The timer descriptor *)

Definition timerfd_ready (h : here) (c : clock) : clock * bool :=
  let deadline := TIMERFD_DEADLINE_NS c in
  if deadline =? 0 then (c, false) else
  let '(c, now) := monotonic_ns h c in (c, deadline <=? now).

Definition timerfd_consume (h : here) (c : clock) : clock * Z :=
  let deadline := TIMERFD_DEADLINE_NS c in
  if deadline =? 0 then (c, 0) else
  let '(c, now) := monotonic_ns h c in
  if deadline <=? now then (set_deadline 0 c, 1) else (c, 0).

Section Calls.
Context {M : Type} `{UserMem M}.

Definition sys_timerfd_settime (flags new_value_ptr : Z) (h : here) (m : M) (c : clock) : clock * Z :=
  if new_value_ptr =? 0 then (set_deadline 0 c, 0) else
  match um_in m new_value_ptr 32 with
  | None => (c, - EFAULT)
  | Some its =>
      let sec := le_val (take 8 (drop 16 its)) in
      let nsec := le_val (take 8 (drop 24 its)) in
      if (sec =? 0) && (nsec =? 0) then (set_deadline 0 c, 0) else
      let dur_ns := saturating_add (saturating_mul sec 1000000000) nsec in
      if Z.odd flags then (set_deadline dur_ns c, 0) else
      let '(c, now) := monotonic_ns h c in (set_deadline (saturating_add now dur_ns) c, 0)
  end.

Definition timespec (ns : Z) : list Z := le_bytes 8 (ns / 1000000000) ++ le_bytes 8 (ns mod 1000000000).

Definition sys_clock_gettime (page : nat -> VcpuTimeInfo) (p : pvclock) (clk_id tp : Z) (h h2 : here) (m : M) (c : clock)
    : M * clock * Z :=
  if tp =? 0 then (m, c, - EINVAL) else
  let '(c, ns) := if (clk_id =? 0) || (clk_id =? 5) then realtime_ns page p h h2 c else monotonic_ns h c in
  match um_out m tp (timespec ns) with
  | None => (m, c, - EFAULT)
  | Some m' => (m', c, 0)
  end.

Definition sys_clock_getres (res : Z) (m : M) : M * Z :=
  if res =? 0 then (m, 0) else
  match um_out m res (le_bytes 8 0 ++ le_bytes 8 1) with
  | None => (m, - EFAULT)
  | Some m' => (m', 0)
  end.
End Calls.
