(* ===== verification/ClockProps.v ===== *)
(** * What the clocks guarantee

    The monotonic clock never runs backwards on any CPU; it is exact until the
    product with 1000 leaves 64 bits, and then stands still.  The paravirtual
    clock is read consistently whatever the hypervisor does meanwhile.  The
    timer descriptor fires once. *)

From S2P Require Import Prelude Paging PagingRefine Confinement Uaccess Clock.

(** ** The monotonic clock *)

(** Everything that touches the clocks, with what [monotonic_ns] returned. *)
Inductive clock_op :=
  | OMono (h : here)
  | OReal (page : nat -> VcpuTimeInfo) (p : pvclock) (h h2 : here)
  | OReady (h : here)
  | OConsume (h : here)
  | OArm (deadline : Z)
  | OCalibrate (a b : Z)
  | OSeed (rtc : option Z) (h : here)
  | OOffset (k v : Z).
Definition exec (o : clock_op) (c : clock) : clock * list Z :=
  match o with
  | OMono h => let '(c, ns) := monotonic_ns h c in (c, [ns])
  | OReal page p h h2 => (fst (realtime_ns page p h h2 c), [])
  | OReady h => (fst (timerfd_ready h c), [])
  | OConsume h => (fst (timerfd_consume h c), [])
  | OArm d => (set_deadline d c, [])
  | OCalibrate a b => (calibrate_tsc a b c, [])
  | OSeed rtc h => (seed_wall_clock rtc h c, [])
  | OOffset k v =>
      (mkClock (LAST_TIME_NS c) (WALL_OFFSET_NS c) (TSC_FREQ_HZ c) (fupd (TSC_OFFSETS c) k v) (LAST_RETURNED c)
         (TIMERFD_DEADLINE_NS c), [])
  end.
Fixpoint run (os : list clock_op) (c : clock) : list Z :=
  match os with
  | [] => []
  | o :: r => let '(c, l) := exec o c in l ++ run r c
  end.

Lemma exec_ratchet o c : LAST_TIME_NS c <= LAST_TIME_NS (fst (exec o c))
  /\ (snd (exec o c) = [] \/ exists v, snd (exec o c) = [v] /\ LAST_TIME_NS c <= v <= LAST_TIME_NS (fst (exec o c))).
Proof.
  destruct o as [h|page p h h2|h|h|d|a b|[secs|] h|k v]; cbn; unfold realtime_ns, timerfd_ready, timerfd_consume; cbn;
    repeat case_match; cbn; (split; [lia|]); (by left) || (right; eexists; split; [reflexivity|lia]).
Qed.

Lemma run_sorted os c : Forall (fun v => LAST_TIME_NS c <= v) (run os c) /\ StronglySorted Z.le (run os c).
Proof.
  revert c. induction os as [|o os IH]; intros c; [split; constructor|]. cbn.
  pose proof (exec_ratchet o c) as (H1 & H2). destruct (exec o c) as [c' l]. cbn [fst snd] in *.
  destruct (IH c') as [IH1 IH2].
  assert (forall x, x <= LAST_TIME_NS c' -> Forall (fun v => x <= v) (run os c')) as Hle
    by (intros x Hx; eapply Forall_impl; [exact IH1|]; cbn; intros; lia).
  destruct H2 as [->|(v & -> & Hv)]; cbn; [split; [by apply Hle|done]|].
  split; [constructor; [lia|]; by apply Hle|]. constructor; [done|]. apply Hle. lia.
Qed.

Lemma sorted_lookup (l : list Z) (i j : nat) a b :
  StronglySorted Z.le l -> (i < j)%nat -> l !! i = Some a -> l !! j = Some b -> a <= b.
Proof.
  intros HS. revert i j. induction HS as [|x l HS IH HF]; intros [|i] [|j] Hij Hi Hj; try done; try lia.
  - cbn in Hi, Hj. injection Hi as ->. rewrite Forall_forall in HF. apply HF. by eapply list_elem_of_lookup_2.
  - cbn in Hi, Hj. apply (IH i j); [lia|done|done].
Qed.

(** C24.  The monotonic clock never runs backwards: in every sequence of
    calls from any CPUs, whatever their counters and measured offsets and
    whatever else happens to the clocks in between, each value returned is at
    least every value returned before it. *)
Theorem monotonic_never_backwards os c (i j : nat) a b :
  (i < j)%nat -> run os c !! i = Some a -> run os c !! j = Some b -> a <= b.
Proof. intros Hij. apply sorted_lookup; [apply run_sorted|done]. Qed.

Lemma monotonic_never_backwards_witness :
  5000 <= 5000.
Proof.
  (** A second CPU whose counter is behind. *)
  exact (monotonic_never_backwards [OMono (mkHere 0 10000); OMono (mkHere 1 400)] boot_clock 0 1 5000 5000
    ltac:(lia) eq_refl eq_refl).
Defined.

Definition freq_mhz (c : clock) : Z := TSC_FREQ_HZ c / 1000000.

Lemma tsc_to_ns_exact c t : 0 < freq_mhz c -> 0 <= t -> t * 1000 < 2 ^ 64 -> tsc_to_ns c t = t * 1000 / freq_mhz c.
Proof.
  intros Hf Ht Hw. unfold tsc_to_ns. fold (freq_mhz c). rewrite (proj2 (Z.ltb_lt _ _)) by lia. by rewrite u64_small by lia.
Qed.

Lemma monotonic_value h c : monotonic_ns h c
  = (fst (monotonic_ns h c), Z.max (LAST_TIME_NS c) (tsc_to_ns c (corrected_tsc_bsp h c))).
Proof. done. Qed.

(** The time, in whole nanoseconds, in which a counter of the calibrated
    frequency makes [t] ticks. *)
Definition elapsed (c : clock) (t : Z) : Z := t * 1000000000 / TSC_FREQ_HZ c.

Lemma ns_bounds c t :
  1000000 <= TSC_FREQ_HZ c -> 0 <= t ->
  let r := t * 1000 / freq_mhz c in
  elapsed c t <= r /\ r * freq_mhz c <= (elapsed c t + 1) * (freq_mhz c + 1)
  /\ (TSC_FREQ_HZ c mod 1000000 = 0 -> r = elapsed c t).
Proof.
  intros Hf Ht. unfold elapsed, freq_mhz. set (f := TSC_FREQ_HZ c) in *. cbn zeta.
  pose proof (Z.div_mod f 1000000 ltac:(lia)) as Ef. pose proof (Z.mod_pos_bound f 1000000 ltac:(lia)) as He.
  set (m := f / 1000000) in *. set (e := f mod 1000000) in *.
  assert (1 <= m) as Hm by lia.
  assert (t * 1000 / m = t * 1000000000 / (m * 1000000)) as Er.
  { replace (t * 1000000000) with ((t * 1000) * 1000000) by lia. by rewrite Z.div_mul_cancel_r by lia. }
  pose proof (Z.div_mod (t * 1000) m ltac:(lia)) as D1. pose proof (Z.mod_pos_bound (t * 1000) m ltac:(lia)).
  pose proof (Z.div_mod (t * 1000000000) f ltac:(lia)) as D2. pose proof (Z.mod_pos_bound (t * 1000000000) f ltac:(lia)).
  split; [|split].
  - rewrite Er. apply Z.div_le_compat_l; lia.
  - set (q := t * 1000000000 / f) in *. assert (0 <= q) by (apply Z.div_pos; lia). nia.
  - intros E0. rewrite Er. f_equal. lia.
Qed.

(** C25.  How long the monotonic clock is right, and how right.  When no CPU has
    seen a later counter, a call at a (corrected) counter value below
    [2^64 / 1000] ticks returns the time the ticks take at the calibrated
    frequency if that is a whole number of MHz.  For any other frequency the
    fraction is dropped, and the clock is fast: never behind the true time, and
    ahead of it by at most one part in the number of MHz (and a nanosecond).
    From [2^64 / 1000] ticks on the clock stands still for as long as it has
    run: it returns the last value over and over. *)
Theorem monotonic_drift_then_stuck h c t0 :
  1000000 <= TSC_FREQ_HZ c -> 0 <= t0 -> t0 * 1000 < 2 ^ 64 -> LAST_TIME_NS c = tsc_to_ns c t0 ->
  let t := corrected_tsc_bsp h c in
  let r := snd (monotonic_ns h c) in
  (t0 <= t -> t * 1000 < 2 ^ 64 ->
     elapsed c t <= r /\ r * freq_mhz c <= (elapsed c t + 1) * (freq_mhz c + 1)
     /\ (TSC_FREQ_HZ c mod 1000000 = 0 -> r = elapsed c t))
  /\ (2 ^ 64 <= t * 1000 <= 2 ^ 64 + t0 * 1000 ->
      r = LAST_TIME_NS c /\ LAST_TIME_NS (fst (monotonic_ns h c)) = LAST_TIME_NS c).
Proof.
  intros Hz H0 Hw HL. assert (0 < freq_mhz c) as Hf.
  { unfold freq_mhz. pose proof (Z.div_le_mono 1000000 (TSC_FREQ_HZ c) 1000000 ltac:(lia) Hz) as Hd.
    rewrite Z.div_same in Hd by lia. lia. }
  rewrite tsc_to_ns_exact in HL by done. cbn zeta. set (t := corrected_tsc_bsp h c). split.
  - intros Ht Htw. rewrite monotonic_value. cbn [snd]. fold t. rewrite tsc_to_ns_exact, HL by lia.
    rewrite Z.max_r by (apply Z.div_le_mono; lia). apply ns_bounds; lia.
  - intros Ht. assert (tsc_to_ns c t <= LAST_TIME_NS c) as Hle.
    { unfold tsc_to_ns. fold (freq_mhz c). rewrite (proj2 (Z.ltb_lt _ _)), HL by lia. apply Z.div_le_mono; [lia|].
      unfold u64, wrap. replace (t * 1000) with (t * 1000 - 2 ^ 64 + 1 * 2 ^ 64) by lia.
      rewrite Z.mod_add by lia. rewrite Z.mod_small by lia. lia. }
    cbn. fold t. rewrite HL in *. split; lia.
Qed.

(** At 3 GHz the clock is exact, and after 71 days stuck for 71 more; at one
    hertz less it is 28.8 seconds ahead after a day. *)
Lemma monotonic_drift_then_stuck_witness :
  let at_freq f last := mkClock last 0 f (fun _ => 0) (fun _ => 0) 0 in
  let c := at_freq 3000000000 (tsc_to_ns (at_freq 3000000000 0) 18400000000000000) in
  let slow := at_freq 2999999999 0 in
  let day := 86400 * 2999999999 in
  snd (monotonic_ns (mkHere 0 18440000000000000) c) = elapsed c 18440000000000000
  /\ snd (monotonic_ns (mkHere 0 36000000000000000) c) = LAST_TIME_NS c
  /\ elapsed slow day = 86400000000000
  /\ elapsed slow day + 28800000000 <= snd (monotonic_ns (mkHere 0 day) slow)
  /\ snd (monotonic_ns (mkHere 0 day) slow) * 2999 <= (elapsed slow day + 1) * 3000.
Proof.
  intros at_freq c slow day. split_and!.
  - apply (monotonic_drift_then_stuck (mkHere 0 18440000000000000) c 18400000000000000);
      vm_compute; congruence.
  - apply (monotonic_drift_then_stuck (mkHere 0 36000000000000000) c 18400000000000000);
      [vm_compute; congruence..|]. vm_compute. split; congruence.
  - vm_compute. reflexivity.
  - vm_compute. congruence.
  - apply (monotonic_drift_then_stuck (mkHere 0 day) slow 0); vm_compute; congruence.
Defined.

(** ** The timer descriptor *)

(** A sequence of reads of the descriptor, with the time each read saw. *)
Fixpoint consume_all (hs : list here) (c : clock) : list (Z * Z) :=
  match hs with
  | [] => []
  | h :: r => let '(c', n) := timerfd_consume h c in (n, snd (monotonic_ns h c)) :: consume_all r c'
  end.

Lemma consume_disarmed hs c : TIMERFD_DEADLINE_NS c = 0 -> Forall (fun p => fst p = 0) (consume_all hs c).
Proof.
  revert c. induction hs as [|h hs IH]; intros c Hd; [constructor|]. cbn. unfold timerfd_consume. rewrite Hd. cbn.
  constructor; [done|]. by apply IH.
Qed.

(** An armed timer fires once: reads report 0 while the time is
    before the deadline, the first read at or after it reports 1, and all
    later ones 0 until it is armed again. *)
Theorem timerfd_fires_once hs c :
  TIMERFD_DEADLINE_NS c <> 0 ->
  let d := TIMERFD_DEADLINE_NS c in
  (Forall (fun p => fst p = 0 /\ snd p < d) (consume_all hs c))
  \/ exists before t after, consume_all hs c = before ++ (1, t) :: after /\ d <= t
       /\ Forall (fun p => fst p = 0 /\ snd p < d) before /\ Forall (fun p => fst p = 0) after.
Proof.
  intros Hd. cbn zeta. revert c Hd. induction hs as [|h hs IH]; intros c Hd; [left; constructor|].
  cbn [consume_all]. unfold timerfd_consume. rewrite (proj2 (Z.eqb_neq _ _)) by done.
  assert (TIMERFD_DEADLINE_NS (fst (monotonic_ns h c)) = TIMERFD_DEADLINE_NS c) as Ed by done.
  destruct (monotonic_ns h c) as [c1 now] eqn:Em. cbn [fst snd] in *.
  destruct (Z.leb_spec (TIMERFD_DEADLINE_NS c) now).
  - right. exists [], now, (consume_all hs (set_deadline 0 c1)). split_and!; [done|done|constructor|by apply consume_disarmed].
  - rewrite <- Ed in *.
    destruct (IH c1 Hd) as [IH1|(bf & t & af & E & H1 & H2 & H3)].
    + left. by constructor.
    + right. exists ((0, now) :: bf), t, af. rewrite E. split_and!; [done|done| |done]. by constructor.
Qed.

Lemma timerfd_fires_once_witness :
  let c := mkClock 0 0 1000000000 (fun _ => 0) (fun _ => 0) 500 in
  exists before t after, consume_all [mkHere 0 100; mkHere 1 900; mkHere 0 901] c = before ++ (1, t) :: after /\ 500 <= t.
Proof.
  cbn zeta. set (c := mkClock _ _ _ _ _ _).
  destruct (timerfd_fires_once [mkHere 0 100; mkHere 1 900; mkHere 0 901] c ltac:(done)) as [H|(bf & t & af & E & H & _)].
  - exfalso. apply Forall_cons in H as [_ H]. apply Forall_cons in H as [[H _] _]. vm_compute in H. done.
  - exists bf, t, af. split; [exact E|exact H].
Defined.

(** ** The paravirtual clock *)

(** What the interface documents of the hypervisor: it makes the version odd
    before it changes the page and even when it has done so.  The first
    component counts the changes of the version without wrapping. *)
Definition with_version (v : Z) (p : VcpuTimeInfo) : VcpuTimeInfo :=
  mkVti v (tsc_timestamp p) (system_time p) (tsc_to_system_mul p) (tsc_shift p) (pv_flags p).
Inductive host_step : Z * VcpuTimeInfo -> Z * VcpuTimeInfo -> Prop :=
  | hs_begin n p : Z.odd n = false -> host_step (n, p) (n + 1, with_version (u32 (n + 1)) p)
  | hs_write n p p' : Z.odd n = true -> version p' = version p -> host_step (n, p) (n, p')
  | hs_end n p : Z.odd n = true -> host_step (n, p) (n + 1, with_version (u32 (n + 1)) p).

(** The page at each read, the host taking any number of steps in between. *)
Definition hosted (trace : nat -> Z * VcpuTimeInfo) : Prop :=
  version (snd (trace 0%nat)) = u32 (fst (trace 0%nat))
  /\ forall k, rtc host_step (trace k) (trace (S k)).

Lemma host_steps_facts x y : rtc host_step x y ->
  version (snd x) = u32 (fst x) ->
  version (snd y) = u32 (fst y) /\ fst x <= fst y /\ (fst x = fst y -> Z.odd (fst x) = false -> x = y).
Proof.
  induction 1 as [x|x y z Hs _ IH]; intros Hv; [done|].
  assert (version (snd y) = u32 (fst y) /\ fst x <= fst y /\ (fst x = fst y -> Z.odd (fst x) = false -> x = y)) as (H1 & H2 & H3).
  { destruct Hs as [n p E|n p p' E Ev|n p E]; cbn in *; split_and!; try done; try lia; congruence. }
  destruct (IH H1) as (H4 & H5 & H6). split_and!; [done|lia|].
  intros E Ho. assert (fst x = fst y) as Exy by lia. rewrite <- (H3 Exy Ho) in *. by apply H6.
Qed.

Lemma hosted_between trace i j : hosted trace -> (i <= j)%nat ->
  version (snd (trace i)) = u32 (fst (trace i)) /\ fst (trace i) <= fst (trace j)
  /\ (fst (trace i) = fst (trace j) -> Z.odd (fst (trace i)) = false -> trace i = trace j).
Proof.
  intros [H0 Hs] Hij.
  assert (forall a b, (a <= b)%nat -> rtc host_step (trace a) (trace b)) as Hr.
  { intros a b Hab. induction Hab as [|b Hab IH]; [done|]. etransitivity; [exact IH|apply Hs]. }
  destruct (host_steps_facts _ _ (Hr 0%nat i ltac:(lia)) H0) as [Hi _].
  destruct (host_steps_facts _ _ (Hr i j Hij) Hi) as (_ & ? & ?). done.
Qed.

Lemma odd_u32 n : Z.odd (u32 n) = Z.odd n.
Proof.
  unfold u32, wrap. rewrite (Z.mod_eq n (2 ^ 32)) by lia.
  rewrite <- Z.add_opp_r, Z.odd_add, Z.odd_opp, Z.odd_mul. cbn. by destruct (Z.odd n).
Qed.

Lemma u32_inj a b : a <= b < a + 2 ^ 32 -> u32 a = u32 b -> a = b.
Proof. unfold u32, wrap. intros H E. Z.div_mod_to_equations. lia. Qed.

(** The time the page says it is when the counter shows [tsc]. *)
Definition page_time (base tsc : Z) (p : VcpuTimeInfo) : Z :=
  base ⊞ system_time p ⊞ scale_delta (tsc ⊟ tsc_timestamp p) (tsc_to_system_mul p) (tsc_shift p).

(** The scaling, without the machine arithmetic. *)
Lemma scale_delta_exact delta mul shift :
  0 <= delta < 2 ^ 64 -> 0 <= mul < 2 ^ 32 -> - 64 < shift < 64 ->
  (0 <= shift -> delta * 2 ^ shift < 2 ^ 64) ->
  scale_delta delta mul shift
  = (if shift <? 0 then delta / 2 ^ (- shift) else delta * 2 ^ shift) * mul / 2 ^ 32.
Proof.
  intros Hd Hm Hs Hw. unfold scale_delta.
  assert (forall d, 0 <= d < 2 ^ 64 -> u64 (Z.shiftr (d * mul) 32) = d * mul / 2 ^ 32) as Hu.
  { intros d Hdr. rewrite Z.shiftr_div_pow2 by lia. apply u64_small. split; [apply Z.div_pos; nia|].
    apply Z.div_lt_upper_bound; nia. }
  destruct (Z.ltb_spec shift 0).
  - rewrite (Z.mod_small (- shift)), (Z.shiftr_div_pow2 delta) by lia. apply Hu.
    assert (0 < 2 ^ (- shift)) by (apply Z.pow_pos_nonneg; lia). split; [apply Z.div_pos; lia|].
    apply Z.div_lt_upper_bound; nia.
  - rewrite (Z.mod_small shift), Z.shiftl_mul_pow2 by lia. assert (0 < 2 ^ shift) by (apply Z.pow_pos_nonneg; lia).
    assert (0 <= delta * 2 ^ shift < 2 ^ 64) by (split; [nia|apply Hw; lia]). rewrite (u64_small (_ * 2 ^ _)) by done. by apply Hu.
Qed.

Lemma pv_loop_snapshot trace spins t base tsc v :
  hosted trace -> (forall k, (k <= t + 6 * spins)%nat -> fst (trace k) < fst (trace t) + 2 ^ 32) ->
  pv_loop spins t (fun k => snd (trace k)) base tsc = Some v ->
  exists k, (t <= k < t + 6 * spins)%nat /\ Z.odd (fst (trace k)) = false /\ v = page_time base tsc (snd (trace k)).
Proof.
  intros HH. revert t. induction spins as [|spins IH]; intros t Hb; [done|]. cbn [pv_loop].
  destruct (hosted_between trace t (t + 5) HH ltac:(lia)) as (Hv & Hle & Hsame). rewrite Hv, odd_u32.
  assert (forall s, (t <= s)%nat -> (s + 6 * spins <= t + 6 * S spins)%nat ->
    pv_loop spins s (fun k => snd (trace k)) base tsc = Some v ->
    exists k, (t <= k < t + 6 * S spins)%nat /\ Z.odd (fst (trace k)) = false /\ v = page_time base tsc (snd (trace k))) as Hrec.
  { intros s Hs1 Hs2 HE. destruct (IH s) as (k & Hk & ?); [|done|exists k; split; [lia|done]].
    intros k Hk. destruct (hosted_between trace t s HH Hs1) as (_ & ? & _). specialize (Hb k ltac:(lia)). lia. }
  destruct (Z.odd (fst (trace t))) eqn:Ho; [apply Hrec; lia|].
  destruct (hosted_between trace (t + 5) (t + 5) HH ltac:(lia)) as (Hv5 & _). rewrite Hv5.
  destruct (Z.eqb_spec (u32 (fst (trace t))) (u32 (fst (trace (t + 5)%nat)))) as [E|]; [|apply Hrec; lia].
  apply u32_inj in E; [|specialize (Hb (t + 5)%nat ltac:(lia)); lia]. intros [= <-].
  exists t. split; [lia|]. split; [done|]. unfold page_time.
  assert (forall k, (t <= k <= t + 5)%nat -> trace k = trace t) as Hall.
  { intros k Hk. destruct (hosted_between trace t k HH ltac:(lia)) as (_ & H1 & H2).
    destruct (hosted_between trace k (t + 5) HH ltac:(lia)) as (_ & H3 & _). symmetry. apply H2; [lia|done]. }
  by rewrite (Hall (t + 1)%nat), (Hall (t + 2)%nat), (Hall (t + 3)%nat), (Hall (t + 4)%nat) by lia.
Qed.

Lemma pv_loop_stable spins t page base tsc :
  (0 < spins)%nat -> (forall k, (k <= 5)%nat -> page (t + k)%nat = page t) -> Z.odd (version (page t)) = false ->
  pv_loop spins t page base tsc = Some (page_time base tsc (page t)).
Proof.
  intros Hs Hp Ho. destruct spins as [|spins]; [lia|]. cbn [pv_loop]. rewrite Ho.
  rewrite (Hp 1%nat), (Hp 2%nat), (Hp 3%nat), (Hp 4%nat), (Hp 5%nat) by lia. by rewrite Z.eqb_refl.
Qed.

(** C26.  The paravirtual clock is never torn.  Whatever the hypervisor
    does to the page during the call (fewer than [2^31] updates), a time that
    is returned is the one the page shows at one moment of the call when no
    update was in progress, computed from one consistent set of fields; and
    the call returns a time at the first attempt when no update interferes. *)
Theorem pvclock_snapshot trace p tsc :
  hosted trace -> (forall k, (k <= 6 * SEQLOCK_MAX_SPINS)%nat -> fst (trace k) < fst (trace 0%nat) + 2 ^ 32) ->
  AVAILABLE p = true ->
  (forall v, pv_realtime_ns (fun k => snd (trace k)) tsc p = Some v ->
     exists k, (k < 6 * SEQLOCK_MAX_SPINS)%nat /\ Z.odd (fst (trace k)) = false
       /\ v = page_time (WALL_BASE_NS p) tsc (snd (trace k)))
  /\ ((forall k, (k <= 5)%nat -> trace k = trace 0%nat) -> Z.odd (fst (trace 0%nat)) = false ->
      pv_realtime_ns (fun k => snd (trace k)) tsc p = Some (page_time (WALL_BASE_NS p) tsc (snd (trace 0%nat)))).
Proof.
  intros HH Hb Ha. unfold pv_realtime_ns. rewrite Ha. cbn [negb]. split.
  - intros v HE. destruct (pv_loop_snapshot trace SEQLOCK_MAX_SPINS 0 _ _ v HH Hb HE) as (k & Hk & H1 & H2). exists k.
    split; [lia|done].
  - intros Hs Ho. apply (pv_loop_stable SEQLOCK_MAX_SPINS 0 (fun k => snd (trace k))).
    + unfold SEQLOCK_MAX_SPINS. lia.
    + intros k Hk. cbn. by rewrite Hs.
    + rewrite (proj1 HH). by rewrite odd_u32.
Qed.

Definition demo_page (v ts sys : Z) : VcpuTimeInfo := mkVti v ts sys (2 ^ 31) 0 1.
(** The host updates the page after the third read. *)
Definition demo_trace (k : nat) : Z * VcpuTimeInfo :=
  if (k <? 3)%nat then (0, demo_page 0 1000 50000) else (2, demo_page 2 3000 51000).

Lemma demo_hosted : hosted demo_trace.
Proof.
  split; [done|]. intros k. unfold demo_trace. destruct (Nat.ltb_spec k 3), (Nat.ltb_spec (S k) 3); try lia; try done.
  eapply rtc_l; [by apply hs_begin|]. eapply rtc_l; [by apply (hs_write _ _ (demo_page 1 3000 51000))|].
  apply rtc_once. by apply (hs_end 1).
Qed.

Lemma pvclock_snapshot_witness :
  exists k, (k < 6 * SEQLOCK_MAX_SPINS)%nat /\ Z.odd (fst (demo_trace k)) = false
    /\ 1000000 + 51000 + 2500 = page_time 1000000 8000 (snd (demo_trace k)).
Proof.
  apply (proj1 (pvclock_snapshot demo_trace (mkPv true 1000000 []) 8000 demo_hosted
    ltac:(intros k _; unfold demo_trace; destruct (k <? 3)%nat; cbn; lia) eq_refl)).
  vm_compute. reflexivity.
Defined.

(** ** Reading a clock *)

Section Gettime.
Context {M : Type} {wf : M -> Prop} `{!UserMem M} `{!UserMemLaws M wf}.

Definition clock_value (page : nat -> VcpuTimeInfo) (p : pvclock) (clk_id : Z) (h h2 : here) (c : clock) : Z :=
  if (clk_id =? 0) || (clk_id =? 5) then snd (realtime_ns page p h h2 c) else snd (monotonic_ns h c).

(** [clock_gettime] stores the value of the clock asked for, as
    seconds and nanoseconds below one second that together are exactly that
    value; a bad pointer is an error and changes no memory. *)
Theorem clock_gettime_exact page p clk_id tp h h2 m c :
  wf m -> 0 <= tp -> 0 <= clock_value page p clk_id h h2 c < 2 ^ 64 ->
  let ns := clock_value page p clk_id h h2 c in
  let '(m', _, r) := sys_clock_gettime page p clk_id tp h h2 m c in
  (r = 0 /\ exists bs, um_in m' tp 16 = Some bs
     /\ le_val (take 8 bs) * 1000000000 + le_val (drop 8 bs) = ns /\ 0 <= le_val (drop 8 bs) < 1000000000)
  \/ (m' = m /\ (r = - EINVAL /\ tp = 0 \/ r = - EFAULT /\ um_in m tp 16 = None)).
Proof.
  intros Hm Htp Hr. cbn zeta. unfold sys_clock_gettime, clock_value in *.
  destruct (Z.eqb_spec tp 0) as [->|Hne]; [right; auto|].
  destruct (if (clk_id =? 0) || (clk_id =? 5) then realtime_ns page p h h2 c else monotonic_ns h c) as [c' ns] eqn:E.
  assert ((if (clk_id =? 0) || (clk_id =? 5) then snd (realtime_ns page p h h2 c) else snd (monotonic_ns h c)) = ns) as En.
  { destruct ((clk_id =? 0) || (clk_id =? 5)); by rewrite E. }
  rewrite En in *.
  assert (len (timespec ns) = 16) as El by (unfold timespec, len; rewrite length_app, !le_bytes_length; done).
  destruct (um_out m tp (timespec ns)) as [m'|] eqn:Eo.
  - left. split; [done|]. exists (timespec ns).
    pose proof (um_in_out m tp (timespec ns) m' Hm Htp Eo) as Hin. rewrite El in Hin. split; [done|]. unfold timespec.
    rewrite take_app_length', drop_app_length' by (by rewrite le_bytes_length). rewrite !le_val_bytes.
    change (256 ^ Z.of_nat 8) with (2 ^ 64). rewrite (Z.mod_small (ns / _)), (Z.mod_small (ns mod 1000000000)) by (Z.div_mod_to_equations; lia).
    Z.div_mod_to_equations; lia.
  - right. split; [done|]. right. split; [done|]. destruct (um_in m tp 16) eqn:Ei; [|done].
    assert (is_Some (um_out m tp (timespec ns))) as [? HS] by (apply (um_out_in m tp _ Hm Htp); rewrite El, Ei; by eexists).
    by rewrite HS in Eo.
Qed.
End Gettime.

#[local] Existing Instance ua_layout.
#[local] Existing Instance ua_layout_ok.

(** Second 6, of a clock of 2 GHz, into a page of ring 3. *)
Lemma clock_gettime_exact_witness :
  let '(m', _, r) := sys_clock_gettime (fun _ => demo_page 0 0 0) (mkPv false 0 []) 1 0x600000 (mkHere 1 12345678901) (mkHere 1 0)
    demo_machine boot_clock in
  r = 0 /\ exists bs, um_in m' 0x600000 16 = Some bs
    /\ le_val (take 8 bs) * 1000000000 + le_val (drop 8 bs) = 6172839450 /\ 0 <= le_val (drop 8 bs) < 1000000000.
Proof.
  pose proof (clock_gettime_exact (wf := wf_machine) (fun _ => demo_page 0 0 0) (mkPv false 0 []) 1 0x600000 (mkHere 1 12345678901)
    (mkHere 1 0) demo_machine boot_clock demo_machine_wf ltac:(lia) ltac:(vm_compute; split; congruence)) as H.
  destruct (sys_clock_gettime _ _ _ _ _ _ _ _) as [[m' c'] r] eqn:E.
  assert (r = 0) as Er by (change r with (snd (m', c', r)); rewrite <- E; vm_compute; reflexivity).
  destruct H as [H|[_ [[H _]|[H _]]]]; [exact H|subst r; discriminate|subst r; discriminate].
Defined.
