(* ===== verification/Elf.v ===== *)
(** * The ELF loader

    Models [load] of [src/src/elf.rs] over physical memory, which is mapped one
    to one below 4 GiB and nowhere else: the file is [n] bytes at [base], its
    headers are read from memory where the code reads them, and the segments
    are written where the code writes them.  Touching memory past 4 GiB is a
    fault in ring 0 ([Panic]). *)

From S2P Require Import Prelude ByteMem.

Record Elf64Header := mkEhdr {
  e_magic : list Z; (* e_ident[..4] *)
  e_class : Z; (* e_ident[4] *)
  e_type : Z;
  e_machine : Z;
  e_entry : Z;
  e_phoff : Z;
  e_phentsize : Z;
  e_phnum : Z;
}.
Record Elf64Phdr := mkPhdr { p_type : Z; p_offset : Z; p_vaddr : Z; p_filesz : Z; p_memsz : Z }.
Record ElfInfo := mkInfo { entry : Z; phdr_vaddr : Z; phentsize : Z; phnum : Z; mem_end : Z }.

Definition ehdr_size : Z := 64.
Definition phdr_size : Z := 56.
Definition rd (m : gmap Z Z) (a n : Z) : Z := le_val (load m a n).
Definition read_ehdr (m : gmap Z Z) (a : Z) : Elf64Header :=
  mkEhdr (load m a 4) (rd m (a + 4) 1) (rd m (a + 16) 2) (rd m (a + 18) 2) (rd m (a + 24) 8) (rd m (a + 32) 8)
    (rd m (a + 54) 2) (rd m (a + 56) 2).
Definition read_phdr (m : gmap Z Z) (a : Z) : Elf64Phdr :=
  mkPhdr (rd m a 4) (rd m (a + 8) 8) (rd m (a + 16) 8) (rd m (a + 32) 8) (rd m (a + 40) 8).

Inductive ElfError :=
  | TooSmall | BadMagic | NotElf64 | NotExec | NotX86_64 | PhdrOutOfBounds | SegmentOutOfBounds.

Definition ELF_MAGIC : list Z := [0x7f; 0x45; 0x4c; 0x46].
Definition PT_LOAD : Z := 1.

(** [n] bytes at [a] are mapped. *)
Definition mapped (a n : Z) : bool := (n =? 0) || (a + n <=? 2 ^ 32).

(** The copy of the file bytes and the zeroing of the rest of a segment. *)
Definition load_segment (base : Z) (ph : Elf64Phdr) (m : gmap Z Z) : outcome (gmap Z Z) :=
  let src := base ⊞ p_offset ph in
  if negb (mapped src (p_filesz ph)) || negb (mapped (p_vaddr ph) (p_filesz ph)) then Panic else
  let m := store m (p_vaddr ph) (load m src (p_filesz ph)) in
  if p_filesz ph <? p_memsz ph then
    let a := p_vaddr ph ⊞ p_filesz ph in
    if negb (mapped a (p_memsz ph - p_filesz ph)) then Panic
    else Ret (zero_range m a (p_memsz ph - p_filesz ph))
  else Ret m.

(** What a segment does to [phdr_vaddr] and [mem_end]. *)
Definition track (h : Elf64Header) (ph : Elf64Phdr) (pv me : Z) : Z * Z :=
  let seg_end := p_vaddr ph ⊞ p_memsz ph in
  let me := if me <? seg_end then seg_end else me in
  let pv := if (pv =? 0) && (p_offset ph <=? e_phoff h) && (e_phoff h <? p_offset ph ⊞ p_filesz ph)
            then p_vaddr ph ⊞ (e_phoff h ⊟ p_offset ph) else pv in
  (pv, me).

(** The loop over the program headers from number [i]. *)
Fixpoint load_loop (k : nat) (i base n : Z) (h : Elf64Header) (pv me : Z) (m : gmap Z Z)
    : outcome (gmap Z Z * (Z * Z + ElfError)) :=
  match k with
  | O => Ret (m, inl (pv, me))
  | S k' =>
      let offset := e_phoff h ⊞ i * phdr_size in
      if n <? offset ⊞ phdr_size then Ret (m, inr PhdrOutOfBounds) else
      if negb (mapped (base ⊞ offset) phdr_size) then Panic else
      let ph := read_phdr m (base ⊞ offset) in
      if negb (p_type ph =? PT_LOAD) then load_loop k' (i + 1) base n h pv me m else
      if n <? p_offset ph ⊞ p_filesz ph then Ret (m, inr SegmentOutOfBounds) else
      m ← load_segment base ph m;
      let '(pv, me) := track h ph pv me in
      load_loop k' (i + 1) base n h pv me m
  end.

Definition elf_load (base n : Z) (m : gmap Z Z) : outcome (gmap Z Z * (ElfInfo + ElfError)) :=
  if n <? ehdr_size then Ret (m, inr TooSmall) else
  let h := read_ehdr m base in
  if negb (bool_decide (e_magic h = ELF_MAGIC)) then Ret (m, inr BadMagic) else
  if negb (e_class h =? 2) then Ret (m, inr NotElf64) else
  if negb (e_type h =? 2) then Ret (m, inr NotExec) else
  if negb (e_machine h =? 62) then Ret (m, inr NotX86_64) else
  '(m, r) ← load_loop (Z.to_nat (e_phnum h)) 0 base n h 0 0 m;
  match r with
  | inr e => Ret (m, inr e)
  | inl (pv, me) =>
      Ret (m, inl (mkInfo (e_entry h) pv (e_phentsize h) (e_phnum h) (Z.land (me ⊞ 0xFFF) (Z.lnot 0xFFF))))
  end.

(** ** The reference *)

(** The program headers of the file, and the segments to load. *)
Definition phdrs (m : gmap Z Z) (base : Z) (h : Elf64Header) : list Elf64Phdr :=
  map (fun i => read_phdr m (base + e_phoff h + i * phdr_size)) (seqZ 0 (e_phnum h)).
Definition segments (m : gmap Z Z) (base : Z) (h : Elf64Header) : list Elf64Phdr :=
  List.filter (fun ph => p_type ph =? PT_LOAD) (phdrs m base h).

(** The byte at [x] after a segment was put there: from the file, zero, or as
    it was. *)
Definition seg_byte (m : gmap Z Z) (base x : Z) (old : Z) (ph : Elf64Phdr) : Z :=
  if (p_vaddr ph <=? x) && (x <? p_vaddr ph + p_filesz ph) then peek8 m (base + p_offset ph + (x - p_vaddr ph))
  else if (p_vaddr ph <=? x) && (x <? p_vaddr ph + p_memsz ph) then 0
  else old.

(** A segment inside the file, inside memory, and away from the file. *)
Definition seg_ok (base n : Z) (ph : Elf64Phdr) : Prop :=
  0 <= p_offset ph /\ 0 <= p_filesz ph /\ p_offset ph + p_filesz ph <= n
  /\ 0 <= p_vaddr ph /\ 0 <= p_memsz ph /\ p_vaddr ph + Z.max (p_filesz ph) (p_memsz ph) <= 2 ^ 32
  /\ (p_vaddr ph + Z.max (p_filesz ph) (p_memsz ph) <= base \/ base + n <= p_vaddr ph).

Lemma peek_zero_range m a n x : peek8 (zero_range m a n) x = if (a <=? x) && (x <? a + n) then 0 else peek8 m x.
Proof.
  unfold peek8, zero_range. rewrite map_lookup_filter.
  destruct (m !! x) as [v|] eqn:E; cbn.
  - destruct (decide (a <= x < a + n)) as [Hin|Hout].
    + rewrite option_guard_False by (cbn; tauto). rewrite (proj2 (Z.leb_le _ _)), (proj2 (Z.ltb_lt _ _)) by lia. done.
    + rewrite option_guard_True by (cbn; tauto). destruct (Z.leb_spec a x), (Z.ltb_spec x (a + n)); try lia; done.
  - by destruct (_ && _).
Qed.

Lemma len_load m a n : 0 <= n -> len (load m a n) = n.
Proof. intros. unfold load, len. rewrite length_fmap, length_seqZ. lia. Qed.

Lemma load_lookup m a n k : 0 <= k < n -> load m a n !! Z.to_nat k = Some (peek8 m (a + k)).
Proof.
  intros Hk. unfold load. rewrite list_lookup_fmap, lookup_seqZ_lt by lia. cbn. do 2 f_equal. lia.
Qed.

Lemma mapped_ok a n : 0 <= n -> a + n <= 2 ^ 32 -> mapped a n = true.
Proof. intros. unfold mapped. rewrite (proj2 (Z.leb_le _ _)) by lia. apply orb_true_r. Qed.

(** One segment. *)
Lemma load_segment_spec base n ph m :
  0 <= base -> base + n <= 2 ^ 32 -> seg_ok base n ph ->
  exists m', load_segment base ph m = Ret m'
    /\ forall x, peek8 m' x = seg_byte m base x (peek8 m x) ph.
Proof.
  intros Hb Hn (H1 & H2 & H3 & H4 & H5 & H6 & H7). unfold load_segment.
  rewrite (u64_small (base + _)) by lia. rewrite (mapped_ok (base + _)), (mapped_ok (p_vaddr ph)) by lia. cbn [negb orb].
  assert (forall x, peek8 (store m (p_vaddr ph) (load m (base + p_offset ph) (p_filesz ph))) x
    = if (p_vaddr ph <=? x) && (x <? p_vaddr ph + p_filesz ph) then peek8 m (base + p_offset ph + (x - p_vaddr ph)) else peek8 m x) as Hst.
  { intros x. rewrite peek_store, len_load by lia. destruct (Z.leb_spec (p_vaddr ph) x), (Z.ltb_spec x (p_vaddr ph + p_filesz ph)); try done.
    cbn [andb]. rewrite load_lookup by lia. done. }
  destruct (Z.ltb_spec (p_filesz ph) (p_memsz ph)) as [Hlt|Hge].
  - rewrite u64_small, mapped_ok by lia. cbn [negb]. eexists. split; [done|]. intros x. rewrite peek_zero_range, Hst. unfold seg_byte.
    replace (p_vaddr ph + p_filesz ph + (p_memsz ph - p_filesz ph)) with (p_vaddr ph + p_memsz ph) by lia.
    destruct (Z.leb_spec (p_vaddr ph + p_filesz ph) x), (Z.leb_spec (p_vaddr ph) x), (Z.ltb_spec x (p_vaddr ph + p_filesz ph)),
      (Z.ltb_spec x (p_vaddr ph + p_memsz ph)); try lia; done.
  - eexists. split; [done|]. intros x. rewrite Hst. unfold seg_byte.
    destruct (Z.leb_spec (p_vaddr ph) x), (Z.ltb_spec x (p_vaddr ph + p_filesz ph)), (Z.ltb_spec x (p_vaddr ph + p_memsz ph)); try lia; done.
Qed.

Lemma seg_byte_file m base n ph x : seg_ok base n ph -> base <= x < base + n -> seg_byte m base x (peek8 m x) ph = peek8 m x.
Proof.
  intros (H1 & H2 & H3 & H4 & H5 & H6 & H7) Hx. unfold seg_byte.
  destruct (Z.leb_spec (p_vaddr ph) x), (Z.ltb_spec x (p_vaddr ph + p_filesz ph)), (Z.ltb_spec x (p_vaddr ph + p_memsz ph)); try lia; done.
Qed.

(** Whether the program headers start in a segment's file bytes. *)
Definition holds_phdrs (h : Elf64Header) (ph : Elf64Phdr) : bool :=
  (p_offset ph <=? e_phoff h) && (e_phoff h <? p_offset ph + p_filesz ph).

Lemma read_phdr_ext m m' a : (forall x, a <= x < a + phdr_size -> peek8 m x = peek8 m' x) -> read_phdr m a = read_phdr m' a.
Proof.
  unfold phdr_size. intros He. unfold read_phdr, rd.
  rewrite !(load_ext m m') by (intros; apply He; lia). done.
Qed.

Lemma load_loop_spec base n h m0 k : forall i pv me m,
  0 <= base -> base + n <= 2 ^ 32 -> 0 <= i -> 0 <= e_phoff h -> e_phoff h + (i + Z.of_nat k) * phdr_size <= n ->
  (forall x, base <= x < base + n -> peek8 m x = peek8 m0 x) ->
  let segs := List.filter (fun ph => p_type ph =? PT_LOAD)
    (map (fun i => read_phdr m0 (base + e_phoff h + i * phdr_size)) (seqZ i (Z.of_nat k))) in
  Forall (seg_ok base n) segs ->
  exists m', load_loop k i base n h pv me m
      = Ret (m', inl (fold_left (fun s ph => track h ph (fst s) (snd s)) segs (pv, me)))
    /\ forall x, peek8 m' x = fold_left (seg_byte m0 base x) segs (peek8 m x).
Proof.
  unfold phdr_size. induction k as [|k IH]; intros i pv me m Hb Hn Hi Hp Hin Hsame; cbn zeta; [by exists m|].
  rewrite seqZ_cons by lia. replace (Z.pred (Z.of_nat (S k))) with (Z.of_nat k) by lia. cbn [map load_loop].
  change (Z.succ i) with (i + 1). unfold phdr_size.
  rewrite (u64_small (e_phoff h + _)) by lia. rewrite (u64_small (_ + 56)) by lia. rewrite (proj2 (Z.ltb_ge _ _)) by lia.
  rewrite (u64_small (base + _)), mapped_ok by lia. cbn [negb].
  replace (base + (e_phoff h + i * 56)) with (base + e_phoff h + i * 56) by lia.
  rewrite (read_phdr_ext m m0) by (unfold phdr_size; intros; apply Hsame; lia).
  set (ph := read_phdr m0 _). cbn [List.filter].
  destruct (p_type ph =? PT_LOAD) eqn:Et; cbn [negb]; [|intros HF; apply IH; [lia..|done|done]].
  intros [Hok HF]%Forall_cons. pose proof Hok as (O1 & O2 & O3 & O4 & O5 & O6 & O7).
  rewrite (u64_small (p_offset ph + _)) by lia. rewrite (proj2 (Z.ltb_ge _ _)) by lia.
  destruct (load_segment_spec base n ph m Hb Hn Hok) as (m1 & -> & Hm1). cbn [mbind outcome_bind].
  assert (forall x, peek8 m1 x = seg_byte m0 base x (peek8 m x) ph) as Hm1'.
  { intros x. rewrite Hm1. unfold seg_byte.
    destruct ((p_vaddr ph <=? x) && (x <? p_vaddr ph + p_filesz ph)) eqn:E; [|done]. zb. apply Hsame. lia. }
  destruct (track h ph pv me) as [pv1 me1] eqn:Etr.
  edestruct (IH (i + 1) pv1 me1 m1) as (m' & E & Hm'); [lia|lia|lia|lia|lia| |exact HF|].
  - intros x Hx. rewrite Hm1, (seg_byte_file m base n) by done. by apply Hsame.
  - exists m'. split; [rewrite E; cbn [fold_left fst snd]; by rewrite Etr|]. intros x. rewrite Hm'. cbn [fold_left]. by rewrite Hm1'.
Qed.

(** The highest end of a segment, and where the program headers are found. *)
Lemma track_mem_end h segs base n : forall pv me,
  0 <= me -> Forall (seg_ok base n) segs -> 0 <= n <= 2 ^ 32 ->
  snd (fold_left (fun s ph => track h ph (fst s) (snd s)) segs (pv, me))
  = fold_left (fun e ph => Z.max e (p_vaddr ph + p_memsz ph)) segs me.
Proof.
  induction segs as [|ph segs IH]; intros pv me Hme HF Hn; [done|].
  apply Forall_cons in HF as [(O1 & O2 & O3 & O4 & O5 & O6 & O7) HF]. cbn [fold_left fst snd]. unfold track at 2. rewrite (u64_small (p_vaddr ph + p_memsz ph)) by lia.
  rewrite IH; [|case_match; lia|done|done]. f_equal. case_match; zb; lia.
Qed.

Lemma track_phdr_none h segs base n : forall pv me,
  pv <> 0 \/ Forall (fun ph => holds_phdrs h ph = false) segs -> Forall (seg_ok base n) segs -> 0 <= n <= 2 ^ 32 ->
  fst (fold_left (fun s ph => track h ph (fst s) (snd s)) segs (pv, me)) = pv.
Proof.
  induction segs as [|ph segs IH]; intros pv me Hpv HF Hn; [done|].
  apply Forall_cons in HF as [(O1 & O2 & O3 & O4 & O5 & O6 & O7) HF]. cbn [fold_left fst snd]. unfold track at 2.
  rewrite (u64_small (p_offset ph + _)) by lia.
  assert ((pv =? 0) && (p_offset ph <=? e_phoff h) && (e_phoff h <? p_offset ph + p_filesz ph) = false) as ->.
  { destruct Hpv as [Hpv|[Hph _]%Forall_cons]; [by rewrite (proj2 (Z.eqb_neq _ _))|]. unfold holds_phdrs in Hph.
    rewrite <- andb_assoc, Hph. apply andb_false_r. }
  apply IH; [|done|done]. destruct Hpv as [?|[_ ?]%Forall_cons]; auto.
Qed.

(** A static x86-64 executable of [n] bytes at [base] that says where its
    segments are without leaving the file or memory. *)
Record executable (m : gmap Z Z) (base n : Z) : Prop := {
  ex_place : 0 <= base /\ ehdr_size <= n /\ base + n <= 2 ^ 32;
  ex_ident : e_magic (read_ehdr m base) = ELF_MAGIC /\ e_class (read_ehdr m base) = 2;
  ex_kind : e_type (read_ehdr m base) = 2 /\ e_machine (read_ehdr m base) = 62;
  ex_phdrs : 0 <= e_phoff (read_ehdr m base) /\ 0 <= e_phnum (read_ehdr m base)
    /\ e_phoff (read_ehdr m base) + e_phnum (read_ehdr m base) * phdr_size <= n;
  ex_segments : Forall (seg_ok base n) (segments m base (read_ehdr m base));
}.

Lemma page_up x : 0 <= x < 2 ^ 63 ->
  let y := Z.land (x ⊞ 0xFFF) (Z.lnot 0xFFF) in y mod 4096 = 0 /\ x <= y < x + 4096.
Proof.
  intros Hx. cbn zeta. rewrite u64_small by lia. change (Z.lnot 0xFFF) with (- 2 ^ 12).
  assert (Z.land (x + 4095) (- 2 ^ 12) = (x + 4095) / 4096 * 4096) as ->.
  { change (- 2 ^ 12) with (Z.lnot (Z.ones 12)). rewrite <- Z.ldiff_land.
    rewrite Z.ldiff_ones_r, Z.shiftr_div_pow2, Z.shiftl_mul_pow2 by lia. done. }
  split; [apply Z.mod_mul; lia|]. Z.div_mod_to_equations. lia.
Qed.

Lemma max_end segs : forall e, let f := fold_left (fun e ph => Z.max e (p_vaddr ph + p_memsz ph)) segs e in
  e <= f /\ Forall (fun ph => p_vaddr ph + p_memsz ph <= f) segs
  /\ (f = e \/ exists ph, ph ∈ segs /\ f = p_vaddr ph + p_memsz ph).
Proof.
  induction segs as [|ph segs IH]; intros e; cbn zeta; cbn [fold_left]; [split_and!; [lia|constructor|by left]|].
  destruct (IH (Z.max e (p_vaddr ph + p_memsz ph))) as (H1 & H2 & H3). split_and!; [lia|constructor; [lia|done]|].
  destruct H3 as [->|(ph' & Hin & E)]; [|right; exists ph'; split; [by right|done]].
  destruct (Z.max_spec e (p_vaddr ph + p_memsz ph)) as [[_ ->]|[_ ->]]; [|by left]. right. exists ph. split; [by left|done].
Qed.

(** C28.  The loader loads exactly the program: for every executable, afterwards
    each byte of memory is the last segment's that covers it (file bytes, then
    zeroes up to its size in memory), and every other byte is as it was; the
    end of the program is the first page boundary past every segment; and the
    program headers are reported where the first segment that contains them
    puts them. *)
Theorem elf_load_exact m base n :
  executable m base n ->
  let h := read_ehdr m base in
  let segs := segments m base h in
  exists m' info, elf_load base n m = Ret (m', inl info)
  /\ (forall x, peek8 m' x = fold_left (seg_byte m base x) segs (peek8 m x))
  /\ entry info = e_entry h /\ phnum info = e_phnum h /\ phentsize info = e_phentsize h
  /\ mem_end info mod 4096 = 0 /\ Forall (fun ph => p_vaddr ph + p_memsz ph <= mem_end info) segs
  /\ (mem_end info = 0 \/ exists ph, ph ∈ segs /\ mem_end info < p_vaddr ph + p_memsz ph + 4096)
  /\ (forall pre ph post, segs = pre ++ ph :: post -> Forall (fun ph => holds_phdrs h ph = false) pre ->
        holds_phdrs h ph = true -> 0 < p_vaddr ph -> phdr_vaddr info = p_vaddr ph + (e_phoff h - p_offset ph)).
Proof.
  intros [(B1 & B2 & B3) (I1 & I2) (K1 & K2) (P1 & P2 & P3) HS]. cbn zeta. set (h := read_ehdr m base) in *.
  unfold elf_load. rewrite (proj2 (Z.ltb_ge _ _)) by lia. fold h. rewrite I1, bool_decide_eq_true_2, I2, K1, K2 by done. cbn [negb Z.eqb Pos.eqb].
  unfold ehdr_size in B2. destruct (load_loop_spec base n h m (Z.to_nat (e_phnum h)) 0 0 0 m) as (m' & -> & Hm');
    [done|done|lia|done|unfold phdr_size in *; lia|done|rewrite Z2Nat.id by lia; exact HS|].
  rewrite Z2Nat.id in * by lia. fold (phdrs m base h) in *. fold (segments m base h) in *. set (segs := segments m base h) in *.
  pose proof (track_mem_end h segs base n 0 0 ltac:(lia) HS ltac:(lia)) as Eme.
  destruct (fold_left _ segs (0, 0)) as [pv me] eqn:Ef. cbn [snd] in Eme. cbn [mbind outcome_bind].
  eexists _, _. split; [done|]. cbn [entry phnum phentsize mem_end phdr_vaddr].
  destruct (max_end segs 0) as (M1 & M2 & M3). rewrite <- Eme in M1, M2, M3.
  assert (0 <= me < 2 ^ 33) as Hme.
  { destruct M3 as [->|(ph & Hin & ->)]; [lia|]. rewrite Forall_forall in HS. destruct (HS ph Hin) as (? & ? & ? & ? & ? & ? & ?). lia. }
  destruct (page_up me ltac:(lia)) as (Y1 & Y2). split_and!; try done.
  - eapply Forall_impl; [exact M2|]. cbn. intros; lia.
  - destruct M3 as [->|(ph & Hin & E)]; [by left|]. right. exists ph. split; [done|lia].
  - intros pre ph post Es Hpre Hph Hv. change pv with (fst (pv, me)). rewrite <- Ef, Es, fold_left_app.
    rewrite Es in HS. apply Forall_app in HS as [HS1 [Hok HS2]%Forall_cons]. pose proof Hok as (O1 & O2 & O3 & O4 & O5 & O6 & O7).
    pose proof (track_phdr_none h pre base n 0 0 (or_intror Hpre) HS1 ltac:(lia)) as E1.
    destruct (fold_left _ pre (0, 0)) as [pv1 me1]. cbn [fst] in E1. subst pv1. cbn [fold_left fst snd]. unfold track at 2.
    unfold holds_phdrs in Hph. rewrite (u64_small (p_offset ph + _)) by lia. cbn [Z.eqb andb]. rewrite Hph. zb.
    rewrite (u64_small (e_phoff h - _)), (u64_small (p_vaddr ph + (_ - _))) by lia.
    apply (track_phdr_none h post base n); [left; lia|done|lia].
Qed.

(** ** Two files *)

Definition demo_ehdr : list Z :=
  ELF_MAGIC ++ [2; 1; 1; 0; 0; 0; 0; 0; 0; 0; 0; 0] ++ le_bytes 2 2 ++ le_bytes 2 62 ++ le_bytes 4 1
  ++ le_bytes 8 0x400078 ++ le_bytes 8 64 ++ le_bytes 8 0 ++ le_bytes 4 0 ++ le_bytes 2 64 ++ le_bytes 2 56 ++ le_bytes 2 1
  ++ le_bytes 2 0 ++ le_bytes 2 0 ++ le_bytes 2 0.
Definition demo_phdr (offset filesz memsz : Z) : list Z :=
  le_bytes 4 1 ++ le_bytes 4 5 ++ le_bytes 8 offset ++ le_bytes 8 0x400000 ++ le_bytes 8 0x400000 ++ le_bytes 8 filesz
  ++ le_bytes 8 memsz ++ le_bytes 8 4096.
Definition demo_base : Z := 0x14000000.
Definition demo_file (ph : list Z) : gmap Z Z := store ∅ demo_base (demo_ehdr ++ ph ++ [0x0f; 0x05; 0xc3; 0x90; 1; 2; 3; 4]).

Lemma elf_load_exact_witness :
  let m := demo_file (demo_phdr 0 128 256) in
  exists m' info, elf_load demo_base 128 m = Ret (m', inl info) /\ phdr_vaddr info = 0x400040
    /\ mem_end info mod 4096 = 0 /\ peek8 m' 0x400078 = 0x0f.
Proof.
  cbn zeta. set (m := demo_file _).
  assert (executable m demo_base 128) as HE.
  { split; [vm_compute; repeat split; congruence..|].
    assert (segments m demo_base (read_ehdr m demo_base) = [mkPhdr 1 0 0x400000 128 256]) as -> by (vm_compute; reflexivity).
    constructor; [|constructor]. unfold seg_ok, demo_base. cbn [p_offset p_filesz p_vaddr p_memsz]. lia. }
  destruct (elf_load_exact m demo_base 128 HE) as (m' & info & E & Hb & _ & _ & _ & H4 & _ & _ & H7).
  exists m', info. split; [exact E|]. split; [|split; [exact H4|]].
  - rewrite (H7 [] (mkPhdr 1 0 0x400000 128 256) []); [reflexivity|vm_compute; reflexivity|constructor|vm_compute; reflexivity|cbn; lia].
  - rewrite Hb. vm_compute. reflexivity.
Defined.

(** The bound checks are made modulo [2^64]: a segment that starts 16 bytes
    before the file is accepted, and what lies there in memory is copied into
    the program. *)
Theorem elf_bounds_wrap :
  let m := <[demo_base - 3 := 42]> (demo_file (demo_phdr (2 ^ 64 - 16) 32 32)) in
  match elf_load demo_base 128 m with Ret (m', inl _) => peek8 m' 0x40000d = 42 | _ => False end.
Proof. vm_compute. reflexivity. Qed.
