(* ===== verification/Acpi.v ===== *)
(** * The ACPI tables

    Models [src/src/acpi.rs]: the search for the root pointer in the BIOS area,
    the walk of the root tables and of the MADT, which lists the CPUs and the I/O
    APICs, and the ECAM window of the MCFG.  The tables are the firmware's:
    bytes of physical memory, which is mapped one to one below 4 GiB; a read
    anywhere else is a fault in ring 0 ([Panic]). *)

From S2P Require Import Prelude ByteMem.

Definition MAX_CPUS : Z := 16.
Record CpuInfo := mkCpu { apic_id : Z; is_bsp : bool; processor_id : Z }.
Record IoApicInfo := mkIoApic { io_id : Z; io_address : Z; gsi_base : Z }.
Record AcpiInfo := mkAcpi {
  cpus : list CpuInfo; (* [CpuInfo; MAX_CPUS] *)
  num_cpus : Z;
  ioapic : option IoApicInfo;
  local_apic_addr : Z;
  pci_ecam_base : Z;
  pci_start_bus : Z;
  pci_end_bus : Z;
}.
Definition RSDP_SIGNATURE : list Z := bstr "RSD PTR ".

(** [n] bytes at a physical address, and a number of [n] bytes. *)
Definition get (m : gmap Z Z) (a n : Z) : outcome (list Z) :=
  if a + n <=? 2 ^ 32 then Ret (load m a n) else Panic.
Definition get_le (m : gmap Z Z) (a n : Z) : outcome Z := bs ← get m a n; Ret (le_val bs).

(** ** The root pointer *)

Definition checksum (bs : list Z) : Z := fold_left (fun a b => u8 (a + b)) bs 0.
(** The slots from [addr] on, [n] of them. *)
Fixpoint rsdp_loop (n : nat) (addr : Z) (m : gmap Z Z) : outcome (option Z) :=
  match n with
  | O => Ret None
  | S n' =>
      sig ← get m addr 8;
      if bool_decide (sig = RSDP_SIGNATURE) then
        rsdp ← get m addr 20;
        if checksum rsdp =? 0 then Ret (Some addr) else rsdp_loop n' (addr + 16) m
      else rsdp_loop n' (addr + 16) m
  end.
Definition find_rsdp (m : gmap Z Z) : outcome (option Z) :=
  rsdp_loop (Z.to_nat ((0x100000 - 0xE0000) / 16)) 0xE0000 m.

(** ** The root tables *)

(** The entries from the [i]-th on, [n] of them. *)
Fixpoint madt_loop (n : nat) (rsdt i : Z) (m : gmap Z Z) : outcome (option Z) :=
  match n with
  | O => Ret None
  | S n' =>
      entry_addr ← get_le m (rsdt ⊞ (36 + i * 4)) 4;
      table_sig ← get m entry_addr 4;
      if bool_decide (table_sig = bstr "APIC") then Ret (Some entry_addr) else madt_loop n' rsdt (i + 1) m
  end.
Definition find_madt (rsdt_addr : Z) (m : gmap Z Z) : outcome (option Z) :=
  sig ← get m rsdt_addr 4;
  if negb (bool_decide (sig = bstr "RSDT")) then Ret None else
  length_ ← get_le m (rsdt_addr ⊞ 4) 4;
  madt_loop (Z.to_nat ((length_ ⊟ 36) / 4)) rsdt_addr 0 m.

Fixpoint sdt_loop (n : nat) (sdt entry_size i : Z) (target : list Z) (m : gmap Z Z) : outcome (option Z) :=
  match n with
  | O => Ret None
  | S n' =>
      entry_addr ← get_le m (sdt ⊞ (36 + i * entry_size)) (if entry_size =? 4 then 4 else 8);
      sig ← get m entry_addr 4;
      if bool_decide (sig = target) then Ret (Some entry_addr) else sdt_loop n' sdt entry_size (i + 1) target m
  end.
Definition find_table_in_sdt (sdt_addr : Z) (root_sig target : list Z) (entry_size : Z) (m : gmap Z Z) : outcome (option Z) :=
  sig ← get m sdt_addr 4;
  if negb (bool_decide (sig = root_sig)) then Ret None else
  length_ ← get_le m (sdt_addr ⊞ 4) 4;
  if length_ <=? 36 then Ret None else
  sdt_loop (Z.to_nat ((length_ - 36) / entry_size)) sdt_addr entry_size 0 target m.

Definition find_mcfg (rsdp_addr : Z) (m : gmap Z Z) : outcome (option (Z * Z * Z)) :=
  revision ← get_le m (rsdp_addr + 15) 1;
  rsdt_addr ← get_le m (rsdp_addr + 16) 4;
  from_rsdt ← find_table_in_sdt rsdt_addr (bstr "RSDT") (bstr "MCFG") 4 m;
  from_xsdt ← (if 2 <=? revision then
      xsdt_addr ← get_le m (rsdp_addr + 24) 8;
      find_table_in_sdt xsdt_addr (bstr "XSDT") (bstr "MCFG") 8 m
    else Ret None);
  match (match from_rsdt with Some a => Some a | None => from_xsdt end) with
  | None => Ret None
  | Some mcfg_addr =>
      base ← get_le m (mcfg_addr ⊞ 44) 8;
      start_bus ← get_le m (mcfg_addr ⊞ 54) 1;
      end_bus ← get_le m (mcfg_addr ⊞ 55) 1;
      Ret (Some (base, start_bus, end_bus))
  end.

(** ** The MADT *)

Definition set_cpus (l : list CpuInfo) (n : Z) (i : AcpiInfo) : AcpiInfo :=
  mkAcpi l n (ioapic i) (local_apic_addr i) (pci_ecam_base i) (pci_start_bus i) (pci_end_bus i).
Definition set_ioapic (x : IoApicInfo) (i : AcpiInfo) : AcpiInfo :=
  mkAcpi (cpus i) (num_cpus i) (Some x) (local_apic_addr i) (pci_ecam_base i) (pci_start_bus i) (pci_end_bus i).
Definition set_lapic (x : Z) (i : AcpiInfo) : AcpiInfo :=
  mkAcpi (cpus i) (num_cpus i) (ioapic i) x (pci_ecam_base i) (pci_start_bus i) (pci_end_bus i).
Definition set_ecam (x : Z * Z * Z) (i : AcpiInfo) : AcpiInfo :=
  mkAcpi (cpus i) (num_cpus i) (ioapic i) (local_apic_addr i) (x.1.1) (x.1.2) (x.2).

(** [info.cpus[info.num_cpus] = c; info.num_cpus += 1]. *)
Definition push_cpu (c : CpuInfo) (i : AcpiInfo) : outcome AcpiInfo :=
  if num_cpus i <? len (cpus i) then Ret (set_cpus (<[Z.to_nat (num_cpus i) := c]> (cpus i)) (num_cpus i + 1) i)
  else Panic.

(** One entry, at [a]. *)
Definition madt_entry (a entry_type entry_len : Z) (m : gmap Z Z) (info : AcpiInfo) : outcome AcpiInfo :=
  if entry_type =? 0 then
    if (8 <=? entry_len) && (num_cpus info <? MAX_CPUS) then
      processor_id ← get_le m (a ⊞ 2) 1;
      apic_id ← get_le m (a ⊞ 3) 1;
      flags ← get_le m (a ⊞ 4) 4;
      if negb (Z.land flags 1 =? 0) then push_cpu (mkCpu apic_id (num_cpus info =? 0) processor_id) info else Ret info
    else Ret info
  else if entry_type =? 1 then
    if 12 <=? entry_len then
      id ← get_le m (a ⊞ 2) 1;
      address ← get_le m (a ⊞ 4) 4;
      gsi_base ← get_le m (a ⊞ 8) 4;
      Ret (set_ioapic (mkIoApic id address gsi_base) info)
    else Ret info
  else Ret info.
Fixpoint madt_entries (fuel : nat) (madt offset length_ : Z) (m : gmap Z Z) (info : AcpiInfo) : outcome AcpiInfo :=
  match fuel with
  | O => Panic
  | S fuel' =>
      if offset + 2 <=? length_ then
        entry_type ← get_le m (madt ⊞ offset) 1;
        entry_len ← get_le m (madt ⊞ (offset + 1)) 1;
        if entry_len =? 0 then Ret info else
        info ← madt_entry (madt ⊞ offset) entry_type entry_len m info;
        madt_entries fuel' madt (offset + entry_len) length_ m info
      else Ret info
  end.
Definition no_info : AcpiInfo :=
  mkAcpi (replicate (Z.to_nat MAX_CPUS) (mkCpu 0 false 0)) 0 None 0xFEE00000 0xB0000000 0 255.
Definition parse_madt (madt_addr : Z) (m : gmap Z Z) : outcome AcpiInfo :=
  length_ ← get_le m (madt_addr ⊞ 4) 4;
  lapic ← get_le m (madt_addr ⊞ 36) 4;
  madt_entries (S (Z.to_nat length_)) madt_addr 44 length_ m (set_lapic lapic no_info).

Definition discover_cpus (m : gmap Z Z) : outcome (option AcpiInfo) :=
  rsdp ← find_rsdp m;
  match rsdp with
  | None => Ret None
  | Some rsdp_addr =>
      rsdt_addr ← get_le m (rsdp_addr + 16) 4;
      madt ← find_madt rsdt_addr m;
      match madt with
      | None => Ret None
      | Some madt_addr =>
          info ← parse_madt madt_addr m;
          mcfg ← find_mcfg rsdp_addr m;
          Ret (Some (match mcfg with Some x => set_ecam x info | None => info end))
      end
  end.

(** ** The tables as the firmware publishes them *)

Inductive MadtEntry :=
  | LocalApic (pid aid flags : Z)
  | IoApic (id addr gsi : Z)
  | OtherEntry (ty : Z) (body : list Z).
Definition encode (e : MadtEntry) : list Z :=
  match e with
  | LocalApic pid aid flags => [0; 8; pid; aid] ++ le_bytes 4 flags
  | IoApic id addr gsi => [1; 12; id; 0] ++ le_bytes 4 addr ++ le_bytes 4 gsi
  | OtherEntry ty body => [ty; 2 + len body] ++ body
  end.
Definition entry_ok (e : MadtEntry) : Prop :=
  match e with
  | LocalApic pid aid flags => 0 <= flags < 2 ^ 32
  | IoApic id addr gsi => 0 <= addr < 2 ^ 32 /\ 0 <= gsi < 2 ^ 32
  | OtherEntry ty body => 2 <= ty
  end.
Definition madt_at (m : gmap Z Z) (madt lapic : Z) (es : list MadtEntry) : Prop :=
  let table := concat (encode <$> es) in
  0 <= madt /\ madt + 44 + len table < 2 ^ 32 /\ 0 <= lapic < 2 ^ 32 /\ Forall entry_ok es /\
  load m (madt + 4) 4 = le_bytes 4 (44 + len table) /\ load m (madt + 36) 4 = le_bytes 4 lapic /\
  load m (madt + 44) (len table) = table.

(** The enabled CPUs in table order, the first sixteen of them kept; the last
    I/O APIC. *)
Definition enabled (e : MadtEntry) : option (Z * Z) :=
  match e with LocalApic pid aid flags => if Z.odd flags then Some (pid, aid) else None | _ => None end.
Definition io_apic (e : MadtEntry) : option IoApicInfo :=
  match e with IoApic id addr gsi => Some (mkIoApic id addr gsi) | _ => None end.
Definition cpu_at (i : nat) (c : Z * Z) : CpuInfo := mkCpu c.2 (Z.of_nat i =? 0) c.1.
Definition madt_info (lapic : Z) (es : list MadtEntry) : AcpiInfo :=
  let found := imap cpu_at (omap enabled es) in
  mkAcpi (take 16 found ++ replicate (16 - length found) (mkCpu 0 false 0)) (Z.min 16 (len found))
    (last (omap io_apic es)) lapic 0xB0000000 0 255.

(** A root table with pointers of [w] bytes. *)
Definition sdt_at (m : gmap Z Z) (sdt : Z) (sig : list Z) (w : nat) (tabs : list Z) : Prop :=
  0 <= sdt /\ sdt + 36 + Z.of_nat w * len tabs < 2 ^ 32 /\ load m sdt 4 = sig /\
  load m (sdt + 4) 4 = le_bytes 4 (36 + Z.of_nat w * len tabs) /\
  load m (sdt + 36) (Z.of_nat w * len tabs) = concat (le_bytes w <$> tabs) /\
  Forall (fun t => 0 <= t /\ t + 4 <= 2 ^ 32) tabs.
Definition first_with (m : gmap Z Z) (target : list Z) (tabs : list Z) : option Z :=
  snd <$> list_find (fun a => load m a 4 = target) tabs.

Definition rsdp_valid (m : gmap Z Z) (a : Z) : Prop :=
  load m a 8 = RSDP_SIGNATURE /\ foldr Z.add 0 (load m a 20) mod 256 = 0.
Record firmware := mkFw {
  fw_slot : Z; (* of the root pointer, from 0xE0000 *)
  fw_rev : Z;
  fw_rsdt : Z;
  fw_tabs : list Z;
  fw_xsdt : Z;
  fw_xtabs : list Z;
  fw_madt : Z;
  fw_lapic : Z;
  fw_entries : list MadtEntry;
}.
Definition fw_mcfg (m : gmap Z Z) (f : firmware) : option Z :=
  match first_with m (bstr "MCFG") (fw_tabs f) with Some a => Some a | None => first_with m (bstr "MCFG") (fw_xtabs f) end.
Definition fw_in (m : gmap Z Z) (f : firmware) : Prop :=
  let rsdp := 0xE0000 + 16 * fw_slot f in
  0 <= fw_slot f < 8192 /\ rsdp_valid m rsdp /\ (forall k, 0 <= k < fw_slot f -> ~ rsdp_valid m (0xE0000 + 16 * k)) /\
  load m (rsdp + 15) 1 = [fw_rev f] /\
  0 <= fw_rsdt f < 2 ^ 32 /\ load m (rsdp + 16) 4 = le_bytes 4 (fw_rsdt f) /\ sdt_at m (fw_rsdt f) (bstr "RSDT") 4 (fw_tabs f) /\
  (if 2 <=? fw_rev f then
     load m (rsdp + 24) 8 = le_bytes 8 (fw_xsdt f) /\ sdt_at m (fw_xsdt f) (bstr "XSDT") 8 (fw_xtabs f)
   else fw_xtabs f = []) /\
  first_with m (bstr "APIC") (fw_tabs f) = Some (fw_madt f) /\ madt_at m (fw_madt f) (fw_lapic f) (fw_entries f) /\
  (forall a, fw_mcfg m f = Some a -> a + 60 <= 2 ^ 32).
(** Base, first and last bus of the first window. *)
Definition window (m : gmap Z Z) (a : Z) : Z * Z * Z :=
  (le_val (load m (a + 44) 8), peek8 m (a + 54), peek8 m (a + 55)).
Definition fw_info (m : gmap Z Z) (f : firmware) : AcpiInfo :=
  let info := madt_info (fw_lapic f) (fw_entries f) in
  match fw_mcfg m f with Some a => set_ecam (window m a) info | None => info end.

(** ** Reading *)
Lemma get_ok m a n : a + n <= 2 ^ 32 -> get m a n = Ret (load m a n).
Proof. intros H. unfold get. by rewrite (proj2 (Z.leb_le _ _) H). Qed.
Lemma get_le_ok m a n : a + n <= 2 ^ 32 -> get_le m a n = Ret (le_val (load m a n)).
Proof. intros H. unfold get_le. by rewrite get_ok. Qed.
Lemma load_1 m a : load m a 1 = [peek8 m a].
Proof. unfold load. change (seqZ 0 1) with [0]. cbn [fmap list_fmap]. by rewrite Z.add_0_r. Qed.

(** A part of a known range. *)
Lemma load_length m a n : 0 <= n -> length (load m a n) = Z.to_nat n.
Proof. intros. unfold load. by rewrite length_fmap, length_seqZ. Qed.
Lemma load_split m a n k : 0 <= k -> 0 <= n -> load m a (k + n) = load m a k ++ load m (a + k) n.
Proof.
  intros. unfold load. rewrite seqZ_app, fmap_app by lia. f_equal.
  rewrite <- (Z.add_0_r (0 + k)), (Z.add_comm 0 k), Z.add_0_r, <- (fmap_add_seqZ k 0), <- list_fmap_compose. apply list_fmap_ext. intros i x _. cbn. f_equal. lia.
Qed.

Lemma load_app m a x y : load m a (len x + len y) = x ++ y -> load m a (len x) = x /\ load m (a + len x) (len y) = y.
Proof.
  pose proof (len_nonneg x). pose proof (len_nonneg y). rewrite load_split by lia.
  intros E. apply app_inj_1 in E; [done|]. rewrite load_length by lia. unfold len. lia.
Qed.
Lemma le4 x : 0 <= x < 2 ^ 32 -> le_val (le_bytes 4 x) = x.
Proof. intros. rewrite le_val_bytes. by apply Z.mod_small. Qed.
Lemma len_le n x : len (le_bytes n x) = Z.of_nat n.
Proof. unfold len. by rewrite le_bytes_length. Qed.

(** ** The searches *)
Lemma checksum_from bs : forall a, 0 <= a < 256 -> fold_left (fun a b => u8 (a + b)) bs a = (a + foldr Z.add 0 bs) mod 256.
Proof.
  induction bs as [|b bs IH]; intros a Ha; cbn [fold_left foldr]; [by rewrite Z.add_0_r, Z.mod_small|].
  rewrite IH by (apply (wrap_range 8); lia).
  unfold u8, wrap. change (2 ^ 8) with 256. rewrite Zplus_mod_idemp_l. f_equal. lia.
Qed.
Lemma checksum_sum bs : checksum bs = foldr Z.add 0 bs mod 256.
Proof. unfold checksum. by rewrite checksum_from. Qed.
Lemma rsdp_loop_first m n : forall addr j, 0 <= addr -> addr + 16 * Z.of_nat n <= 2 ^ 31 -> 0 <= j < Z.of_nat n ->
  rsdp_valid m (addr + 16 * j) -> (forall k, 0 <= k < j -> ~ rsdp_valid m (addr + 16 * k)) ->
  rsdp_loop n addr m = Ret (Some (addr + 16 * j)).
Proof.
  induction n as [|n IH]; intros addr j Ha Hb Hj Hv Hn; [lia|]. cbn [rsdp_loop].
  rewrite (get_ok m addr 8) by lia. cbn [mbind outcome_bind]. destruct (Z.eqb_spec j 0) as [->|Hj0].
  - replace (addr + 16 * 0) with addr in * by lia. destruct Hv as [Hg Hs]. rewrite Hg, bool_decide_true by done.
    rewrite get_ok by lia. cbn [mbind outcome_bind]. by rewrite checksum_sum, Hs.
  - assert (~ rsdp_valid m addr) as Hno by (intros Hv0; apply (Hn 0); [lia|]; by replace (addr + 16 * 0) with addr by lia).
    assert (rsdp_loop n (addr + 16) m = Ret (Some (addr + 16 * j))) as E.
    { replace (addr + 16 * j) with (addr + 16 + 16 * (j - 1)) in * by lia. apply IH; [lia..|done|].
      intros k Hk. replace (addr + 16 + 16 * k) with (addr + 16 * (k + 1)) by lia. apply Hn. lia. }
    case_bool_decide as Hs; [|done]. rewrite get_ok by lia. cbn [mbind outcome_bind]. rewrite checksum_sum.
    destruct (Z.eqb_spec (foldr Z.add 0 (load m addr 20) mod 256) 0) as [E0|]; [|done]. by exfalso; apply Hno.
Qed.

Lemma first_with_cons m target t tabs :
  first_with m target (t :: tabs) = if bool_decide (load m t 4 = target) then Some t else first_with m target tabs.
Proof.
  unfold first_with. cbn [list_find]. case_bool_decide as E; [by rewrite decide_True|]. rewrite decide_False by done.
  destruct (list_find _ tabs) as [[i x]|]; done.
Qed.

(** The pointers left, from the [i]-th on. *)
Definition ptrs_at (m : gmap Z Z) (sdt : Z) (w : nat) (i : Z) (tabs : list Z) : Prop :=
  0 <= sdt /\ 0 <= i /\ sdt + 36 + Z.of_nat w * (i + len tabs) <= 2 ^ 32 /\
  load m (sdt + (36 + i * Z.of_nat w)) (Z.of_nat w * len tabs) = concat (le_bytes w <$> tabs) /\
  Forall (fun t => 0 <= t /\ t + 4 <= 2 ^ 32) tabs.
Lemma ptrs_cons m sdt w i t tabs :
  (4 <= w)%nat -> ptrs_at m sdt w i (t :: tabs) ->
  get_le m (sdt ⊞ (36 + i * Z.of_nat w)) (Z.of_nat w) = Ret t /\ get m t 4 = Ret (load m t 4) /\ ptrs_at m sdt w (i + 1) tabs.
Proof.
  intros Hw (H0 & Hi & Hs & Hl & [[Ht0 Ht] Hf]%Forall_cons). rewrite len_cons in *. pose proof (len_nonneg tabs).
  cbn [fmap list_fmap concat] in Hl. replace (Z.of_nat w * (len tabs + 1)) with (Z.of_nat w + Z.of_nat w * len tabs) in Hl by lia.
  rewrite load_split in Hl by nia. apply app_inj_1 in Hl as [E1 E2]; [|rewrite load_length, le_bytes_length; lia].
  unwrap64. rewrite get_le_ok, get_ok, E1, le_val_bytes, Z.mod_small by (try (change 256 with (2 ^ 8); rewrite <- Z.pow_mul_r by lia; split; [done|]; eapply Z.lt_le_trans; [|apply (Z.pow_le_mono_r 2 32)]); nia).
  split_and!; [done..|]. split_and!; [lia..| |done]. rewrite <- E2. f_equal. lia.
Qed.
Lemma madt_loop_first m rsdt tabs : forall i, ptrs_at m rsdt 4 i tabs ->
  madt_loop (length tabs) rsdt i m = Ret (first_with m (bstr "APIC") tabs).
Proof.
  induction tabs as [|t tabs IH]; intros i Hp; [done|].
  destruct (ptrs_cons _ _ _ _ _ _ (le_n 4) Hp) as (E1 & E2 & Hp').
  cbn [length madt_loop]. change (Z.of_nat 4) with 4 in E1. rewrite E1. cbn [mbind outcome_bind]. rewrite E2. cbn [mbind outcome_bind].
  rewrite first_with_cons. case_bool_decide; [done|by apply IH].
Qed.
Lemma sdt_loop_first m sdt w target tabs : w = 4%nat \/ w = 8%nat -> forall i, ptrs_at m sdt w i tabs ->
  sdt_loop (length tabs) sdt (Z.of_nat w) i target m = Ret (first_with m target tabs).
Proof.
  intros Hw. induction tabs as [|t tabs IH]; intros i Hp; [done|].
  assert (4 <= w)%nat as Hw4 by lia. destruct (ptrs_cons _ _ _ _ _ _ Hw4 Hp) as (E1 & E2 & Hp'). cbn [length sdt_loop].
  replace (if Z.of_nat w =? 4 then 4 else 8) with (Z.of_nat w) by (by destruct Hw as [-> | ->]).
  rewrite E1. cbn [mbind outcome_bind]. rewrite E2. cbn [mbind outcome_bind].
  rewrite first_with_cons. case_bool_decide; [done|by apply IH].
Qed.

Lemma sdt_ptrs m sdt sig w tabs : sdt_at m sdt sig w tabs -> ptrs_at m sdt w 0 tabs.
Proof. intros (? & ? & ? & ? & E & ?). pose proof (len_nonneg tabs). split_and!; [lia..|rewrite <- E; f_equal; lia|done]. Qed.
Lemma sdt_head m sdt sig w tabs : sdt_at m sdt sig w tabs ->
  get m sdt 4 = Ret sig /\ get_le m (sdt ⊞ 4) 4 = Ret (36 + Z.of_nat w * len tabs).
Proof.
  intros (? & ? & E & El & ? & ?). pose proof (len_nonneg tabs). unwrap64. rewrite get_ok, get_le_ok, E, El, le4 by nia. done.
Qed.
Lemma find_madt_first m sdt tabs : sdt_at m sdt (bstr "RSDT") 4 tabs ->
  find_madt sdt m = Ret (first_with m (bstr "APIC") tabs).
Proof.
  intros H. destruct (sdt_head _ _ _ _ _ H) as [E1 E2]. unfold find_madt. rewrite E1. cbn [mbind outcome_bind].
  rewrite bool_decide_true by done. cbn [negb]. rewrite E2. cbn [mbind outcome_bind].
  pose proof (len_nonneg tabs). pose proof H as (? & ? & _). rewrite u64_small by lia.
  replace (Z.to_nat _) with (length tabs); [|unfold len in *; replace (36 + Z.of_nat 4 * Z.of_nat (length tabs) - 36) with (Z.of_nat (length tabs) * 4) by lia; rewrite Z.div_mul by lia; lia].
  by eapply madt_loop_first, sdt_ptrs.
Qed.
Lemma find_table_first m sdt sig w target tabs : w = 4%nat \/ w = 8%nat -> sdt_at m sdt sig w tabs ->
  find_table_in_sdt sdt sig target (Z.of_nat w) m = Ret (first_with m target tabs).
Proof.
  intros Hw H. destruct (sdt_head _ _ _ _ _ H) as [E1 E2]. unfold find_table_in_sdt. rewrite E1. cbn [mbind outcome_bind].
  rewrite bool_decide_true by done. cbn [negb]. rewrite E2. cbn [mbind outcome_bind].
  pose proof (len_nonneg tabs). destruct (Z.leb_spec (36 + Z.of_nat w * len tabs) 36) as [Hl|Hl].
  { assert (len tabs = 0) as ->%len_zero_nil by nia. done. }
  replace (Z.to_nat _) with (length tabs);
    [|unfold len in *; replace (36 + Z.of_nat w * Z.of_nat (length tabs) - 36) with (Z.of_nat (length tabs) * Z.of_nat w) by lia; rewrite Z.div_mul by lia; lia].
  eapply sdt_loop_first; [done|]. by eapply sdt_ptrs.
Qed.

(** ** The walk of the MADT *)
Lemma load_sub m a bs k n : load m a (len bs) = bs -> 0 <= k -> 0 <= n -> k + n <= len bs ->
  load m (a + k) n = take (Z.to_nat n) (drop (Z.to_nat k) bs).
Proof.
  intros E Hk Hn Hb. rewrite <- E. replace (len bs) with (k + (n + (len bs - k - n))) by lia.
  rewrite !load_split by lia. rewrite drop_app_length', take_app_length' by (rewrite load_length; lia). done.
Qed.
Lemma omap_snoc {A B} (f : A -> option B) l x : omap f (l ++ [x]) = omap f l ++ omap f [x].
Proof. apply omap_app. Qed.

(** The three reads of an entry of known bytes. *)
Lemma get_entry m a bs k n : load m a (len bs) = bs -> 0 <= a -> a + len bs <= 2 ^ 32 ->
  0 <= k -> 0 <= n -> k + n <= len bs -> get_le m (a ⊞ k) n = Ret (le_val (take (Z.to_nat n) (drop (Z.to_nat k) bs))).
Proof.
  intros E Ha Hb Hk Hn Hkn. unwrap64. rewrite get_le_ok by lia. by rewrite (load_sub m a bs k n).
Qed.

Lemma push_cpu_info lapic es pid aid f :
  Z.odd f = true -> (length (omap enabled es) < 16)%nat ->
  push_cpu (mkCpu aid (num_cpus (madt_info lapic es) =? 0) pid) (madt_info lapic es)
  = Ret (madt_info lapic (es ++ [LocalApic pid aid f])).
Proof.
  intros Hf Hl. unfold push_cpu, madt_info, set_cpus. cbn [cpus num_cpus ioapic local_apic_addr pci_ecam_base pci_start_bus pci_end_bus].
  rewrite !omap_snoc. cbn [omap list_omap enabled io_apic]. rewrite Hf, app_nil_r, imap_app. cbn [imap].
  set (l := imap cpu_at (omap enabled es)). assert (length l = length (omap enabled es)) as El by apply length_imap.
  rewrite length_app, len_app, take_ge, take_ge by (rewrite ?length_app; cbn [length]; lia). cbn [length].
  rewrite len_app. change (len [_]) with 1. unfold len in *. rewrite length_replicate.
  rewrite (proj2 (Z.ltb_lt _ _)) by lia. replace (Z.to_nat (Z.min 16 (Z.of_nat (length l)))) with (length l + 0)%nat by lia.
  rewrite insert_app_r. replace (16 - length l)%nat with (S (16 - (length l + 1))) by lia. cbn [replicate insert list_insert].
  rewrite <- app_assoc. do 2 f_equal; [|lia]. do 2 f_equal. unfold cpu_at, compose. cbn [fst snd]. f_equal.
  rewrite El. destruct (Z.eqb_spec (Z.min 16 (Z.of_nat (length (omap enabled es)))) 0), (Z.eqb_spec (Z.of_nat (length (omap enabled es) + 0)) 0); lia || done.
Qed.
Lemma full_info lapic es e : (16 <= length (omap enabled es))%nat -> io_apic e = None ->
  madt_info lapic (es ++ [e]) = madt_info lapic es.
Proof.
  intros Hl He. unfold madt_info. rewrite !omap_snoc. cbn [omap list_omap]. rewrite He, app_nil_r, imap_app.
  set (l := imap cpu_at (omap enabled es)). assert (length l = length (omap enabled es)) as El by apply length_imap.
  rewrite take_app_le by lia. rewrite len_app, length_app. set (k := imap _ _). pose proof (len_nonneg k).
  replace (16 - (length l + length k))%nat with (16 - length l)%nat by lia. f_equal. unfold len in *. lia.
Qed.
Lemma skip_info lapic es e : enabled e = None -> io_apic e = None -> madt_info lapic (es ++ [e]) = madt_info lapic es.
Proof. intros E1 E2. unfold madt_info. rewrite !omap_snoc. cbn [omap list_omap]. by rewrite E1, E2, !app_nil_r. Qed.

Lemma entry_len_min e : 2 <= len (encode e).
Proof.
  destruct e as [| |ty body]; [by vm_compute..|]. cbn [encode]. rewrite len_app. change (len [_; _]) with 2.
  pose proof (len_nonneg body). lia.
Qed.
Lemma entry_step m a e lapic es :
  0 <= a -> a + len (encode e) <= 2 ^ 32 -> load m a (len (encode e)) = encode e -> entry_ok e ->
  get_le m a 1 = Ret (le_val (take 1 (encode e))) /\ get_le m (a ⊞ 1) 1 = Ret (len (encode e)) /\
  madt_entry a (le_val (take 1 (encode e))) (len (encode e)) m (madt_info lapic es) = Ret (madt_info lapic (es ++ [e])).
Proof.
  intros Ha Hb Hl Hok. pose proof (entry_len_min e) as H2.
  split; [|split].
  - rewrite get_le_ok by lia. replace a with (a + 0) by lia. by rewrite (load_sub m a (encode e)) by (done || lia).
  - rewrite (get_entry m a (encode e)) by (done || lia). f_equal. destruct e as [| |ty body]; [done..|].
    change (take _ _) with [2 + len body]. cbn [encode le_val]. rewrite len_app. change (len [_; _]) with 2. lia.
  - pose proof (get_entry m a (encode e)) as G. unfold madt_entry. destruct e as [pid aid f|id ad gsi|ty body].
    + change (le_val (take 1 _)) with 0. change (len (encode _)) with 8 in *. cbn [Z.eqb Z.leb Z.compare Pos.compare Pos.compare_cont andb].
      cbn [num_cpus madt_info]. unfold MAX_CPUS. destruct (Z.ltb_spec (Z.min 16 (len (imap cpu_at (omap enabled es)))) 16) as [Hlt|Hge].
      * assert (get_le m (a ⊞ 4) 4 = Ret f) as G3 by (rewrite G by (done || lia); change (take _ _) with (le_bytes 4 f); by rewrite le4).
        rewrite (G 2 1), (G 3 1), G3 by (done || lia). cbn [mbind outcome_bind].
        change (take _ (drop (Z.to_nat 2) _)) with [pid]. change (take _ (drop (Z.to_nat 3) _)) with [aid]. cbn [le_val].
        rewrite Z.mul_0_r, !Z.add_0_r. assert (Z.land f 1 = f mod 2) as -> by (apply (Z.land_ones f 1); lia). rewrite Zmod_odd.
        destruct (Z.odd f) eqn:Ho; cbn [Z.eqb negb].
        -- apply (push_cpu_info lapic es pid aid f Ho). unfold len in Hlt. rewrite length_imap in Hlt. lia.
        -- rewrite skip_info; [done| |done]. cbn. by rewrite Ho.
      * rewrite full_info; [done| |done]. unfold len in Hge. rewrite length_imap in Hge. lia.
    + change (le_val (take 1 _)) with 1. change (len (encode _)) with 12 in *. cbn [Z.eqb Z.leb Z.compare Pos.compare Pos.compare_cont andb].
      destruct Hok as [Had Hgsi].
      assert (get_le m (a ⊞ 4) 4 = Ret ad) as G2 by (rewrite G by (done || lia); change (take _ _) with (le_bytes 4 ad); by rewrite le4).
      assert (get_le m (a ⊞ 8) 4 = Ret gsi) as G3 by (rewrite G by (done || lia); change (take _ _) with (le_bytes 4 gsi); by rewrite le4).
      rewrite (G 2 1), G2, G3 by (done || lia). cbn [mbind outcome_bind].
      change (take _ (drop (Z.to_nat 2) _)) with [id]. cbn [le_val]. rewrite Z.mul_0_r, Z.add_0_r.
      unfold madt_info, set_ioapic. cbn [cpus num_cpus ioapic local_apic_addr pci_ecam_base pci_start_bus pci_end_bus].
      rewrite !omap_snoc. cbn [omap list_omap enabled io_apic]. by rewrite app_nil_r, last_snoc.
    + change (le_val (take 1 _)) with (ty + 256 * 0). cbn in Hok. rewrite (proj2 (Z.eqb_neq _ 0)), (proj2 (Z.eqb_neq _ 1)) by lia.
      by rewrite skip_info.
Qed.

Lemma madt_entries_ok m madt lapic es2 : forall es1 offset fuel,
  let table := concat (encode <$> es2) in
  0 <= madt -> 0 <= offset -> madt + offset + len table < 2 ^ 32 -> load m (madt + offset) (len table) = table ->
  Forall entry_ok es2 -> (length es2 < fuel)%nat ->
  madt_entries fuel madt offset (offset + len table) m (madt_info lapic es1) = Ret (madt_info lapic (es1 ++ es2)).
Proof.
  induction es2 as [|e es2 IH]; intros es1 offset fuel table Hm Ho Hb Hl Hok Hf; (destruct fuel as [|fuel]; [lia|]); cbn [madt_entries].
  - change (len table) with 0. rewrite (proj2 (Z.leb_gt _ _)) by lia. by rewrite app_nil_r.
  - apply Forall_cons in Hok as [He Hok]. assert (table = encode e ++ concat (encode <$> es2)) as Et by done. clearbody table. subst table.
    set (rest := concat (encode <$> es2)) in *. rewrite len_app in *. pose proof (len_nonneg rest).
    apply load_app in Hl as [Hl1 Hl2]. pose proof (entry_len_min e).
    destruct (entry_step m (madt + offset) e lapic es1) as (E1 & E2 & E3); [lia..|done|done|].
    rewrite (proj2 (Z.leb_le _ _)) by lia. rewrite (u64_small (madt + offset)), E1 by lia. cbn [mbind outcome_bind].
    rewrite u64_small in E2 |- * by lia. replace (madt + (offset + 1)) with (madt + offset + 1) by lia. rewrite E2. cbn [mbind outcome_bind].
    rewrite (proj2 (Z.eqb_neq _ _)), E3 by lia. cbn [mbind outcome_bind].
    replace (offset + (len (encode e) + len rest)) with (offset + len (encode e) + len rest) by lia.
    rewrite (IH (es1 ++ [e])); [by rewrite <- app_assoc|lia|lia|lia| |done|cbn [length] in Hf; lia].
    replace (madt + (offset + len (encode e))) with (madt + offset + len (encode e)) by lia. done.
Qed.

Lemma table_len es : Z.of_nat (length es) <= len (concat (encode <$> es)).
Proof.
  induction es as [|e es IH]; [done|]. cbn [fmap list_fmap concat length]. rewrite len_app. pose proof (entry_len_min e). lia.
Qed.
Lemma parse_madt_ok m madt lapic es : madt_at m madt lapic es -> parse_madt madt m = Ret (madt_info lapic es).
Proof.
  intros (H0 & Hb & Hla & Hok & El & Ea & Et). pose proof (len_nonneg (concat (encode <$> es))). pose proof (table_len es).
  unfold parse_madt. unwrap64. rewrite (get_le_ok m (madt + 4)), El, le4 by lia. cbn [mbind outcome_bind].
  rewrite get_le_ok, Ea, le4 by lia. cbn [mbind outcome_bind].
  change (set_lapic lapic no_info) with (madt_info lapic []). rewrite (madt_entries_ok m madt lapic es []); [done|lia..|done|done|lia].
Qed.

Lemma first_with_in m target tabs a : first_with m target tabs = Some a -> a ∈ tabs.
Proof.
  unfold first_with. destruct (list_find _ tabs) as [[i x]|] eqn:E; [|done]. intros [= ->].
  apply list_find_Some in E as (E & _). by eapply list_elem_of_lookup_2.
Qed.
Lemma fw_mcfg_nonneg m f a : fw_in m f -> fw_mcfg m f = Some a -> 0 <= a.
Proof.
  intros (_ & _ & _ & _ & _ & _ & (_ & _ & _ & _ & _ & Ht) & Hx & _). unfold fw_mcfg.
  destruct (first_with m (bstr "MCFG") (fw_tabs f)) as [b|] eqn:E.
  - intros [= ->]. apply first_with_in in E. rewrite Forall_forall in Ht. by apply Ht.
  - intros Ea%first_with_in. destruct (2 <=? fw_rev f); [|rewrite Hx in Ea; by apply elem_of_nil in Ea].
    destruct Hx as [_ (_ & _ & _ & _ & _ & Hx)]. rewrite Forall_forall in Hx. by apply Hx.
Qed.
Lemma find_mcfg_ok m f : fw_in m f -> find_mcfg (0xE0000 + 16 * fw_slot f) m = Ret (window m <$> fw_mcfg m f).
Proof.
  intros Hf. pose proof (fw_mcfg_nonneg m f) as H0. pose proof Hf as (Hs & _ & _ & Er & Hr & Ea & Ht & Hx & _ & _ & Hm).
  unfold find_mcfg. rewrite (get_le_ok m _ 1), Er by lia. cbn [mbind outcome_bind le_val]. rewrite Z.mul_0_r, Z.add_0_r.
  rewrite (get_le_ok m _ 4), Ea, le4 by lia. cbn [mbind outcome_bind].
  rewrite (find_table_first m _ _ 4 _ _ (or_introl eq_refl) Ht : find_table_in_sdt _ _ _ 4 _ = _). cbn [mbind outcome_bind].
  assert ((if 2 <=? fw_rev f then xsdt_addr ← get_le m (0xE0000 + 16 * fw_slot f + 24) 8;
      find_table_in_sdt xsdt_addr (bstr "XSDT") (bstr "MCFG") 8 m else Ret None) = Ret (first_with m (bstr "MCFG") (fw_xtabs f))) as ->.
  { destruct (2 <=? fw_rev f); [|by rewrite Hx]. destruct Hx as [Ex Hx]. rewrite get_le_ok, Ex by lia. cbn [mbind outcome_bind].
    pose proof Hx as (? & ? & _). pose proof (len_nonneg (fw_xtabs f)). rewrite le_val_bytes, Z.mod_small by (change (256 ^ Z.of_nat 8) with (2 ^ 64); lia).
    apply (find_table_first m _ _ 8 _ _ (or_intror eq_refl) Hx). }
  cbn [mbind outcome_bind]. fold (fw_mcfg m f). destruct (fw_mcfg m f) as [a|] eqn:E; [|done].
  specialize (H0 a Hf eq_refl). specialize (Hm a eq_refl). unwrap64. rewrite !get_le_ok by lia. cbn [mbind outcome_bind].
  rewrite !load_1. cbn [le_val fmap option_fmap option_map]. unfold window. by rewrite !Z.mul_0_r, !Z.add_0_r.
Qed.

(** C37.  From the tables of the firmware the kernel learns exactly what they
    say: the enabled CPUs of the MADT in order, the first sixteen of them, the
    first one as the boot CPU; the last I/O APIC; the address of the local
    APICs; and the first configuration window of the MCFG, looked up in the RSDT
    and then, from revision 2 on, in the XSDT, or the default when there is none. *)
Theorem acpi_discovers_exactly m f : fw_in m f -> discover_cpus m = Ret (Some (fw_info m f)).
Proof.
  intros Hf. pose proof (find_mcfg_ok m f Hf) as Em. pose proof Hf as (Hs & Hv & Hn & _ & Hr & Ea & Ht & _ & Ew & Hmadt & _).
  unfold discover_cpus, find_rsdp. rewrite (rsdp_loop_first m _ _ (fw_slot f)) by (done || lia). cbn [mbind outcome_bind].
  rewrite get_le_ok, Ea, le4 by lia. cbn [mbind outcome_bind]. rewrite (find_madt_first _ _ _ Ht), Ew. cbn [mbind outcome_bind].
  rewrite (parse_madt_ok _ _ _ _ Hmadt), Em. cbn [mbind outcome_bind]. unfold fw_info. by destruct (fw_mcfg m f).
Qed.

(** ** Whatever the bytes *)

Definition info_ok (i : AcpiInfo) : Prop := len (cpus i) = 16 /\ 0 <= num_cpus i <= 16.
Lemma get_le_any m a n : a + n <= 2 ^ 32 -> exists x, get_le m a n = Ret x.
Proof. intros. eexists. by apply get_le_ok. Qed.
Lemma madt_entry_any m a ty l i : 0 <= a -> a + 12 <= 2 ^ 32 -> info_ok i -> exists i', madt_entry a ty l m i = Ret i' /\ info_ok i'.
Proof.
  intros Ha Hb Hi. unfold madt_entry. unwrap64. rewrite !get_le_ok by lia. cbn [mbind outcome_bind].
  destruct (ty =? 0).
  - destruct ((8 <=? l) && (num_cpus i <? MAX_CPUS)) eqn:E; [|by exists i]. zb. case_match; [|by exists i].
    destruct Hi as [Hl Hn]. unfold push_cpu, MAX_CPUS in *. rewrite (proj2 (Z.ltb_lt _ _)) by lia. eexists. split; [done|].
    split; cbn [set_cpus cpus num_cpus]; [|lia]. unfold len in *. by rewrite length_insert.
  - repeat case_match; eauto.
Qed.
Lemma madt_entries_any m madt : forall fuel offset length_ i,
  (forall x, 0 <= peek8 m x) -> 0 <= madt -> 0 <= offset -> madt + length_ + 12 <= 2 ^ 32 -> Z.max 0 (length_ - offset) < Z.of_nat fuel -> info_ok i ->
  exists i', madt_entries fuel madt offset length_ m i = Ret i' /\ info_ok i'.
Proof.
  induction fuel as [|fuel IH]; intros offset length_ i Hp Hm Ho Hb Hf Hi; [lia|]. cbn [madt_entries].
  destruct (Z.leb_spec (offset + 2) length_); [|by exists i]. unwrap64. rewrite !get_le_ok, !load_1 by lia. cbn [mbind outcome_bind le_val].
  rewrite !Z.mul_0_r, !Z.add_0_r. set (l := peek8 m (madt + (offset + 1))). assert (0 <= l) by apply Hp.
  destruct (Z.eqb_spec l 0); [by exists i|].
  destruct (madt_entry_any m (madt + offset) (peek8 m (madt + offset)) l i) as (i1 & -> & Hi1); [lia..|done|]. cbn [mbind outcome_bind].
  apply IH; (done || lia).
Qed.
(** A MADT of any contents is walked to its end without a panic, and never
    yields more than sixteen CPUs. *)
Theorem parse_madt_total m madt :
  (forall x, 0 <= peek8 m x < 256) -> 0 <= madt -> madt + 48 <= 2 ^ 32 -> madt + le_val (load m (madt + 4) 4) + 12 <= 2 ^ 32 ->
  exists i, parse_madt madt m = Ret i /\ info_ok i.
Proof.
  intros Hp H0 H40 Hb. unfold parse_madt. unwrap64. rewrite !get_le_ok by lia. cbn [mbind outcome_bind].
  apply madt_entries_any; [intros; apply Hp|lia..|done].
Qed.

Lemma madt_loop_runs_off m rsdt : (forall a, load m a 4 <> bstr "APIC") -> 0 <= rsdt ->
  (forall a, le_val (load m a 4) + 4 <= 2 ^ 32) -> forall n i, 0 <= i -> rsdt + 36 + i * 4 <= 2 ^ 32 ->
  2 ^ 32 < rsdt + 36 + (i + Z.of_nat n) * 4 -> madt_loop n rsdt i m = Panic.
Proof.
  intros Hno H0 Hv. induction n as [|n IH]; intros i Hi Hb Hn; [lia|]. cbn [madt_loop]. unwrap64.
  destruct (decide (rsdt + (36 + i * 4) + 4 <= 2 ^ 32)) as [Hin|Hout].
  - rewrite get_le_ok by done. cbn [mbind outcome_bind]. rewrite get_ok by apply Hv. cbn [mbind outcome_bind].
    rewrite bool_decide_false by apply Hno. apply IH; lia.
  - unfold get_le, get. by rewrite (proj2 (Z.leb_gt _ _)) by lia.
Qed.
(** An RSDT that states a length below its header is not rejected: the number of
    entries wraps around and the search runs over the memory behind the table.
    Where it meets no table it runs off the end of mapped memory, whatever the
    state of the other tables. *)
Theorem short_rsdt_halts m rsdt :
  0 <= rsdt -> rsdt + 36 <= 2 ^ 32 -> load m rsdt 4 = bstr "RSDT" -> le_val (load m (rsdt + 4) 4) < 36 ->
  (forall x, 0 <= peek8 m x) -> (forall a, load m a 4 <> bstr "APIC") -> (forall a, le_val (load m a 4) + 4 <= 2 ^ 32) ->
  find_madt rsdt m = Panic.
Proof.
  intros H0 Hb Hs Hl Hp Hno Hv. unfold find_madt. rewrite get_ok, Hs by lia. cbn [mbind outcome_bind].
  rewrite bool_decide_true by done. cbn [negb]. unwrap64. rewrite get_le_ok by lia. cbn [mbind outcome_bind].
  assert (0 <= le_val (load m (rsdt + 4) 4)) as Hl0.
  { generalize (rsdt + 4). intros a. unfold load. change (seqZ 0 4) with [0; 1; 2; 3]. cbn [fmap list_fmap le_val].
    pose proof (Hp (a + 0)). pose proof (Hp (a + 1)). pose proof (Hp (a + 2)). pose proof (Hp (a + 3)). lia. }
  apply madt_loop_runs_off; [done|done|done|lia|lia|]. unfold u64, wrap. set (l := le_val _) in *.
  replace ((l - 36) mod 2 ^ 64) with (l - 36 + 2 ^ 64) by (symmetry; rewrite <- (Z.mod_add _ 1) by lia; apply Z.mod_small; lia).
  pose proof (Z.div_mod (l - 36 + 2 ^ 64) 4). pose proof (Z.mod_pos_bound (l - 36 + 2 ^ 64) 4). lia.
Qed.

(** ** A machine with three CPUs, one of them disabled *)

Definition demo_entries : list MadtEntry :=
  [LocalApic 0 4 1; OtherEntry 2 [0; 0; 2; 0]; LocalApic 1 5 0; IoApic 2 0xFEC00000 0; LocalApic 2 6 1].
Definition demo_sdt (sig : list Z) (w : nat) (tabs : list Z) : list Z :=
  sig ++ le_bytes 4 (36 + Z.of_nat w * len tabs) ++ replicate 28 0 ++ concat (le_bytes w <$> tabs).
Definition demo_rsdp : list Z :=
  RSDP_SIGNATURE ++ [0] ++ replicate 6 0 ++ [2] ++ le_bytes 4 0x1000 ++ [0; 0; 0; 0] ++ le_bytes 8 0x2000.
Definition demo_fixed : list Z := <[8%nat := (- checksum (take 20 demo_rsdp)) mod 256]> demo_rsdp.
Definition demo_memory : gmap Z Z :=
  let table := concat (encode <$> demo_entries) in
  let m := store ∅ 0xE0020 demo_fixed in
  let m := store m 0x1000 (demo_sdt (bstr "RSDT") 4 [0x3000]) in
  let m := store m 0x2000 (demo_sdt (bstr "XSDT") 8 [0x3000; 0x4000]) in
  let m := store m 0x3000 (bstr "APIC" ++ le_bytes 4 (44 + len table) ++ replicate 28 0 ++ le_bytes 4 0xFEE00000 ++ replicate 4 0 ++ table) in
  store m 0x4000 (bstr "MCFG" ++ le_bytes 4 60 ++ replicate 36 0 ++ le_bytes 8 0xE0000000 ++ [0; 0; 0; 63; 0; 0; 0; 0]).
Definition demo_fw : firmware := mkFw 2 2 0x1000 [0x3000] 0x2000 [0x3000; 0x4000] 0x3000 0xFEE00000 demo_entries.

Lemma acpi_discovers_exactly_witness :
  discover_cpus demo_memory = Ret (Some (mkAcpi
    ([mkCpu 4 true 0; mkCpu 6 false 2] ++ replicate 14 (mkCpu 0 false 0)) 2 (Some (mkIoApic 2 0xFEC00000 0))
    0xFEE00000 0xE0000000 0 63)).
Proof.
  refine (eq_trans (acpi_discovers_exactly demo_memory demo_fw _) _); [|by vm_compute].
  split; [by vm_compute|]. split; [by vm_compute|]. split.
  { intros k Hk [Hv _]. cbn [fw_slot demo_fw] in Hk. assert (k = 0 \/ k = 1) as [-> | ->] by lia; by vm_compute in Hv. }
  split; [by vm_compute|]. split; [done|]. split; [by vm_compute|]. split.
  { split; [done|]. split; [done|]. split; [by vm_compute|]. split; [by vm_compute|]. split; [by vm_compute|]. by repeat constructor. }
  split.
  { split; [by vm_compute|]. split; [done|]. split; [done|]. split; [by vm_compute|]. split; [by vm_compute|]. split; [by vm_compute|].
    by repeat constructor. }
  split; [by vm_compute|]. split; [|intros a; replace (fw_mcfg demo_memory demo_fw) with (Some 0x4000) by (by vm_compute); by intros [= <-]].
  split; [done|]. split; [done|]. split; [done|]. split; [by repeat constructor|].
  split; [by vm_compute|]. split; by vm_compute.
Defined.
