(* ===== verification/Socket.v ===== *)
(** * The socket layer

    Models [src/src/net/socket.rs] and the parts of [src/src/net/mod.rs] it is
    polled through.  The TCP/IP stack (smoltcp) is not part of the repository:
    the class [Stack] is the interface the kernel uses of it, and [StackLaws]
    what its documentation says about handles and lengths.  A handle is a
    number; [sockets.get_mut::<T>(h)] panics unless the set has a socket of
    type [T] under [h].

    [socket], [accept] and [close] take the locks of the table, of the free
    descriptors and of the stack one after the other, so other CPUs run in
    between.  What such a call holds between two of its regions is a [flight],
    and [exec] runs one region; the calls themselves ([sys_socket],
    [sys_accept], [close]) are the regions in sequence.  The calls that work
    inside one [with_socket] are one region: other CPUs can then only take the
    stack's lock, to poll, to tear a closed socket down or to add a new one.
    The clock readings [t], [t'] are arguments. *)

From S2P Require Import Prelude Uaccess.

(** ** The stack *)

Inductive SkKind := Tcp | Udp | Dhcp.
#[export] Instance SkKind_eq_dec : EqDecision SkKind.
Proof. solve_decision. Defined.
(** The connection states the kernel tells apart. *)
Inductive TcpState := Established | CloseWait | Closed | TimeWait | OtherState.
#[export] Instance TcpState_eq_dec : EqDecision TcpState.
Proof. solve_decision. Defined.
Inductive UdpSend := UdpSent | UdpFull | UdpError.

(** An IPv4 address is its four bytes. *)
Record ip_ep := mkEp { ep_addr : list Z; ep_port : Z }.
Record listen_ep := mkListen { l_addr : option (list Z); l_port : Z }.
Definition UNSPECIFIED : list Z := [0; 0; 0; 0].

(** [dhcpv4::Config] and [dhcpv4::Event]; an address has its prefix length. *)
Record dhcp_config := mkConfig { c_address : list Z * Z; c_router : option (list Z); c_dns : list (list Z) }.
Inductive DhcpEvent := Configured (c : dhcp_config) | Deconfigured.

(** The calls that make a socket allocate its buffers, and abort the kernel when
    the heap is exhausted; the polls run the driver's transmit and receive
    code, which a device can make panic or loop.  Those four are partial, and
    [Panic] is any way of not returning. *)
Class Stack (N : Type) := {
  sk_kind : N -> Z -> option SkKind;
  add_tcp : Z -> Z -> N -> outcome (N * Z); (* receive and transmit buffer sizes *)
  add_udp : N -> outcome (N * Z);
  sk_remove : Z -> N -> N;
  tcp_listen : Z -> listen_ep -> N -> N * bool;
  tcp_nagle_off : Z -> N -> N;
  tcp_connect : Z -> ip_ep -> Z -> N -> N * bool;
  tcp_state : N -> Z -> TcpState;
  tcp_remote : N -> Z -> option ip_ep;
  tcp_abort : Z -> N -> N;
  tcp_close : Z -> N -> N;
  tcp_can_send : N -> Z -> bool;
  tcp_can_recv : N -> Z -> bool;
  tcp_is_active : N -> Z -> bool;
  tcp_is_listening : N -> Z -> bool;
  tcp_send : Z -> list Z -> N -> N * option Z;
  tcp_recv : Z -> Z -> N -> N * option (list Z);
  udp_bind : Z -> listen_ep -> N -> N * bool;
  udp_can_recv : N -> Z -> bool;
  udp_can_send : N -> Z -> bool;
  udp_send : Z -> list Z -> ip_ep -> N -> N * UdpSend;
  udp_recv : Z -> N -> N * option (list Z * ip_ep);
  udp_close : Z -> N -> N;
  drain_tx : N -> outcome N; (* the device's *)
  iface_poll : Z -> N -> outcome N;
  iface_set_addr : list Z * Z -> N -> N;
  iface_add_route : list Z -> N -> N;
  dhcp_poll : Z -> N -> N * option DhcpEvent;
}.

(** A handle belongs to one socket from [add] to [remove]; nothing else adds,
    removes or changes the type of a socket. *)
Definition keeps_kinds {N} `{Stack N} (n n' : N) : Prop := forall h, sk_kind n' h = sk_kind n h.
Class StackLaws (N : Type) `{Stack N} : Prop := {
  add_tcp_fresh a b n n' h : add_tcp a b n = Ret (n', h) -> sk_kind n h = None;
  add_tcp_kind a b n n' h h' : add_tcp a b n = Ret (n', h) -> sk_kind n' h' = if h' =? h then Some Tcp else sk_kind n h';
  add_udp_fresh n n' h : add_udp n = Ret (n', h) -> sk_kind n h = None;
  add_udp_kind n n' h h' : add_udp n = Ret (n', h) -> sk_kind n' h' = if h' =? h then Some Udp else sk_kind n h';
  remove_kind h n h' : sk_kind (sk_remove h n) h' = if h' =? h then None else sk_kind n h';
  listen_kind h e n : keeps_kinds n (fst (tcp_listen h e n));
  nagle_kind h n : keeps_kinds n (tcp_nagle_off h n);
  connect_kind h e p n : keeps_kinds n (fst (tcp_connect h e p n));
  abort_kind h n : keeps_kinds n (tcp_abort h n);
  tcp_close_kind h n : keeps_kinds n (tcp_close h n);
  tcp_send_kind h l n : keeps_kinds n (fst (tcp_send h l n));
  tcp_recv_kind h k n : keeps_kinds n (fst (tcp_recv h k n));
  bind_kind h e n : keeps_kinds n (fst (udp_bind h e n));
  udp_send_kind h l e n : keeps_kinds n (fst (udp_send h l e n));
  udp_recv_kind h n : keeps_kinds n (fst (udp_recv h n));
  udp_close_kind h n : keeps_kinds n (udp_close h n);
  drain_kind n n' : drain_tx n = Ret n' -> keeps_kinds n n';
  poll_kind t n n' : iface_poll t n = Ret n' -> keeps_kinds n n';
  set_addr_kind a n : keeps_kinds n (iface_set_addr a n);
  add_route_kind a n : keeps_kinds n (iface_add_route a n);
  dhcp_poll_kind h n : keeps_kinds n (fst (dhcp_poll h n));
  state_remove h n h' : h' <> h -> tcp_state (sk_remove h n) h' = tcp_state n h';
  state_abort h n h' : h' <> h -> tcp_state (tcp_abort h n) h' = tcp_state n h';
  tcp_recv_len h k n d : 0 <= k -> snd (tcp_recv h k n) = Some d -> len d <= k;
}.

(** Some state of the stack has no room for a socket; some state of the device
    makes a poll panic or loop. *)
Definition add_fails (N : Type) `{Stack N} : Prop :=
  exists n : N, (exists a b, add_tcp a b n = Panic) \/ add_udp n = Panic.
Definition poll_fails (N : Type) `{Stack N} : Prop :=
  exists n : N, drain_tx n = Panic \/ exists t, iface_poll t n = Panic.
(** A device whose polls return. *)
Class StackReturns (N : Type) `{Stack N} : Prop := { polls_return : ~ poll_fails N }.

(** ** The socket table *)

Definition SOCK_FD_BASE : Z := 500.
Definition LISTENER_POOL_SIZE : nat := 64.
Definition ACCEPT_HEAP_RESERVE : Z := 4 * 1024 * 1024.
Definition CLOSING_REAP_MS : Z := 15000.
Definition LISTENER_BUF_SIZE : Z := 2048.
Definition LISTENER_TX_BUF_SIZE : Z := 32768.

Inductive SockType := TcpStream | TcpListener | UdpDgram.
#[export] Instance SockType_eq_dec : EqDecision SockType.
Proof. solve_decision. Defined.

Record Socket := mkSocket {
  s_fd : Z;
  s_type : SockType;
  s_handle : Z;
  s_nonblock : bool;
  s_backlog : list Z;
  s_port : Z; (* local_port *)
  s_addr : list Z; (* local_addr *)
  s_connecting : bool;
  s_peer : option ip_ep; (* udp_peer *)
}.
Definition set_type (t : SockType) (k : Socket) : Socket :=
  mkSocket (s_fd k) t (s_handle k) (s_nonblock k) (s_backlog k) (s_port k) (s_addr k) (s_connecting k) (s_peer k).
Definition set_pool (h : Z) (l : list Z) (k : Socket) : Socket :=
  mkSocket (s_fd k) (s_type k) h (s_nonblock k) l (s_port k) (s_addr k) (s_connecting k) (s_peer k).
Definition set_nb (b : bool) (k : Socket) : Socket :=
  mkSocket (s_fd k) (s_type k) (s_handle k) b (s_backlog k) (s_port k) (s_addr k) (s_connecting k) (s_peer k).
Definition set_local (p : Z) (a : list Z) (k : Socket) : Socket :=
  mkSocket (s_fd k) (s_type k) (s_handle k) (s_nonblock k) (s_backlog k) p a (s_connecting k) (s_peer k).
Definition set_connecting (b : bool) (k : Socket) : Socket :=
  mkSocket (s_fd k) (s_type k) (s_handle k) (s_nonblock k) (s_backlog k) (s_port k) (s_addr k) b (s_peer k).
Definition set_peer (e : ip_ep) (k : Socket) : Socket :=
  mkSocket (s_fd k) (s_type k) (s_handle k) (s_nonblock k) (s_backlog k) (s_port k) (s_addr k) (s_connecting k) (Some e).

Section Sockets.
Context {N : Type} `{Stack N}.

Record socks := mkSocks {
  SOCKETS : list Socket;
  NEXT_SOCK_FD : Z;
  RECYCLED_FDS : list Z; (* top last, as in the Vec *)
  CLOSING_HANDLES : list (Z * Z);
  NEXT_EPHEMERAL : Z;
  NET_STATE : option N;
  dhcp_handle : option Z;
  DNS_SERVERS : list (list Z);
}.
Definition set_sockets (l : list Socket) (s : socks) : socks :=
  mkSocks l (NEXT_SOCK_FD s) (RECYCLED_FDS s) (CLOSING_HANDLES s) (NEXT_EPHEMERAL s) (NET_STATE s) (dhcp_handle s) (DNS_SERVERS s).
Definition set_net (n : N) (s : socks) : socks :=
  mkSocks (SOCKETS s) (NEXT_SOCK_FD s) (RECYCLED_FDS s) (CLOSING_HANDLES s) (NEXT_EPHEMERAL s) (Some n) (dhcp_handle s) (DNS_SERVERS s).
Definition set_closing (l : list (Z * Z)) (s : socks) : socks :=
  mkSocks (SOCKETS s) (NEXT_SOCK_FD s) (RECYCLED_FDS s) l (NEXT_EPHEMERAL s) (NET_STATE s) (dhcp_handle s) (DNS_SERVERS s).
Definition set_ephemeral (p : Z) (s : socks) : socks :=
  mkSocks (SOCKETS s) (NEXT_SOCK_FD s) (RECYCLED_FDS s) (CLOSING_HANDLES s) p (NET_STATE s) (dhcp_handle s) (DNS_SERVERS s).
Definition set_dns (l : list (list Z)) (s : socks) : socks :=
  mkSocks (SOCKETS s) (NEXT_SOCK_FD s) (RECYCLED_FDS s) (CLOSING_HANDLES s) (NEXT_EPHEMERAL s) (NET_STATE s) (dhcp_handle s) l.
Definition set_free (l : list Z) (s : socks) : socks :=
  mkSocks (SOCKETS s) (NEXT_SOCK_FD s) l (CLOSING_HANDLES s) (NEXT_EPHEMERAL s) (NET_STATE s) (dhcp_handle s) (DNS_SERVERS s).
(** The statics at boot, and the stack once the device is up (or not). *)
Definition boot_socks (n : option N) (dhcp : option Z) (dns : list (list Z)) : socks :=
  mkSocks [] SOCK_FD_BASE [] [] 49152 n dhcp dns.

(** [get_mut::<tcp::Socket>(h)] and [get_mut::<udp::Socket>(h)]. *)
Definition get_sk (k : SkKind) (h : Z) (n : N) : outcome unit :=
  if bool_decide (sk_kind n h = Some k) then Ret tt else Panic.

(** [with_net]. *)
Definition with_net {R} (s : socks) (f : N -> outcome R) : outcome R :=
  match NET_STATE s with Some n => f n | None => Panic end.

(** [iter().position(|s| s.fd == fd)]. *)
Fixpoint position (fd : Z) (l : list Socket) : option nat :=
  match l with
  | [] => None
  | k :: r => if s_fd k =? fd then Some 0%nat else S <$> position fd r
  end.

Definition with_socket {R} (fd : Z) (f : Socket -> socks -> outcome (Socket * socks * R)) (s : socks)
    : outcome (socks * option R) :=
  match position fd (SOCKETS s) with
  | None => Ret (s, None)
  | Some i =>
      match SOCKETS s !! i with
      | None => Panic
      | Some k =>
          '(k, s, r) ← f k s;
          Ret (set_sockets (<[i := k]> (SOCKETS s)) s, Some r)
      end
  end.

Definition is_socket_fd (fd : Z) (s : socks) : bool := existsb (fun k => s_fd k =? fd) (SOCKETS s).

Definition set_nonblock (fd : Z) (nb : bool) (s : socks) : outcome socks :=
  '(s, _) ← with_socket fd (fun k s => Ret (set_nb nb k, s, tt)) s; Ret s.

Definition alloc_fd (s : socks) : socks * Z :=
  match rev (RECYCLED_FDS s) with
  | fd :: r => (set_free (rev r) s, fd)
  | [] => (mkSocks (SOCKETS s) (i32 (NEXT_SOCK_FD s + 1)) (RECYCLED_FDS s) (CLOSING_HANDLES s) (NEXT_EPHEMERAL s) (NET_STATE s) (dhcp_handle s) (DNS_SERVERS s),
           NEXT_SOCK_FD s)
  end.

Definition alloc_ephemeral_port (s : socks) : socks * Z :=
  let p := NEXT_EPHEMERAL s in
  let port := 49152 + (p - 49152) mod 16384 in
  (set_ephemeral (if 65535 <=? port then 49152 else i32 (p + 1)) s, u16 port).

Definition listen_endpoint (addr : list Z) (port : Z) : listen_ep :=
  mkListen (if bool_decide (addr = UNSPECIFIED) then None else Some addr) port.

Definition install_fresh_listener (e : listen_ep) (n : N) : outcome (N * Z) :=
  '(n, h) ← add_tcp LISTENER_BUF_SIZE LISTENER_TX_BUF_SIZE n;
  let '(n, _) := tcp_listen h e n in
  Ret (tcp_nagle_off h n, h).

(** ** Polling *)

(** The reaper's loop from index [i]; each turn removes an entry or goes past
    it, so [fuel] of the list's length is enough. *)
Fixpoint gc_loop (fuel i : nat) (now : Z) (closing : list (Z * Z)) (n : N) : outcome (list (Z * Z) * N) :=
  match fuel with
  | O => Ret (closing, n)
  | S fuel' =>
      match closing !! i with
      | None => Ret (closing, n)
      | Some (h, t0) =>
          _ ← get_sk Tcp h n;
          let st := tcp_state n h in
          let done := bool_decide (st = Closed) || bool_decide (st = TimeWait) in
          let stranded := negb done && (CLOSING_REAP_MS <=? now ⊟ t0) in
          let n := if stranded then tcp_abort h n else n in
          if done || stranded then gc_loop fuel' i now (vec_swap_remove i closing) (sk_remove h n)
          else gc_loop fuel' (S i) now closing n
      end
  end.
Definition gc_closed_handles (t : Z) (s : socks) (n : N) : outcome socks :=
  '(l, n) ← gc_loop (length (CLOSING_HANDLES s)) 0 t (CLOSING_HANDLES s) n;
  Ret (set_net n (set_closing l s)).

(** The lease: [NetState::poll] applies what the DHCP client reports. *)
Definition dhcp_renew (s : socks) (n : N) : outcome (socks * N) :=
  match dhcp_handle s with
  | None => Ret (s, n)
  | Some h =>
      _ ← get_sk Dhcp h n;
      let '(n, e) := dhcp_poll h n in
      match e with
      | Some (Configured c) =>
          let n := iface_set_addr (c_address c) n in
          let n := match c_router c with Some r => iface_add_route r n | None => n end in
          Ret (set_dns (c_dns c) s, n)
      | Some Deconfigured | None => Ret (s, n)
      end
  end.

(** [t] is the interface's time, [t'] the reaper's. *)
Definition poll (t t' : Z) (s : socks) : outcome socks :=
  match NET_STATE s with
  | None => Ret s
  | Some n =>
      n ← drain_tx n;
      n ← iface_poll t n;
      '(s, n) ← dhcp_renew s n;
      gc_closed_handles t' s n
  end.

(** ** The system calls *)

Section Calls.
Context {M : Type} `{UserMem M}.

(** [u16::from_be_bytes]. *)
Definition be16 (l : list Z) : Z := le_val (rev l).

Definition read_sockaddr_in (addr_ptr : Z) (m : M) : result (Z * list Z) :=
  match um_in m addr_ptr 16 with
  | None => Err (- EFAULT)
  | Some sa =>
      if negb (le_val (take 2 sa) =? 2) then Err (- 97)
      else Ok (be16 (take 2 (drop 2 sa)), take 4 (drop 4 sa))
  end.

Definition write_sockaddr_in (addr_ptr addrlen_ptr port : Z) (ip : list Z) (m : M) : M * Z :=
  if addr_ptr =? 0 then (m, 0) else
  let sa := le_bytes 2 2 ++ rev (le_bytes 2 port) ++ ip ++ replicate 8 0 in
  match um_out m addr_ptr sa with
  | None => (m, - EFAULT)
  | Some m =>
      if addrlen_ptr =? 0 then (m, 0) else
      match um_out m addrlen_ptr (le_bytes 4 16) with
      | None => (m, - EFAULT)
      | Some m => (m, 0)
      end
  end.

(** The arguments' checks and the new stack socket. *)
Definition socket_add (domain sock_type : Z) (s : socks) : outcome (socks * result (SockType * Z * bool)) :=
  if negb (domain =? 2) && negb (domain =? 10) then Ret (s, Err (- 97)) else
  let raw_type := Z.land sock_type 0xf in
  let nonblock := negb (Z.land sock_type 0x800 =? 0) in
  if negb (raw_type =? 1) && negb (raw_type =? 2) then Ret (s, Err (- 93)) else
  match NET_STATE s with
  | None => Ret (s, Err (- 97))
  | Some n =>
      '(n, h) ← (if raw_type =? 1 then add_tcp 8192 8192 n else add_udp n);
      Ret (set_net n s, Ok (if raw_type =? 1 then TcpStream else UdpDgram, h, nonblock))
  end.
Definition new_socket (fd : Z) (t : SockType) (h : Z) (nb : bool) (port : Z) (addr : list Z) : Socket :=
  mkSocket fd t h nb [] port addr false None.
Definition push_socket (k : Socket) (s : socks) : socks := set_sockets (SOCKETS s ++ [k]) s.

Definition sys_socket (domain sock_type : Z) (s : socks) : outcome (socks * Z) :=
  '(s, r) ← socket_add domain sock_type s;
  match r with
  | Err e => Ret (s, e)
  | Ok (t, h, nb) =>
      let '(s, fd) := alloc_fd s in
      Ret (push_socket (new_socket fd t h nb 0 UNSPECIFIED) s, fd)
  end.

(** Binds a UDP socket that has no port yet; the result of the bind is not
    looked at. *)
Definition ensure_bound (k : Socket) (s : socks) : outcome (Socket * socks) :=
  if s_port k =? 0 then
    let '(s, p) := alloc_ephemeral_port s in
    let k := set_local p (s_addr k) k in
    with_net s (fun n =>
      _ ← get_sk Udp (s_handle k) n;
      Ret (k, set_net (fst (udp_bind (s_handle k) (mkListen None p) n)) s))
  else Ret (k, s).

Definition connect_tcp (remote : ip_ep) (k : Socket) (s : socks) : outcome (Socket * socks * Z) :=
  let '(s, local_port) := if negb (s_port k =? 0) then (s, s_port k) else alloc_ephemeral_port s in
  let k := set_connecting true (set_type TcpStream (set_local local_port (s_addr k) k)) in
  with_net s (fun n =>
    _ ← get_sk Tcp (s_handle k) n;
    let '(n, ok) := tcp_connect (s_handle k) remote local_port (tcp_nagle_off (s_handle k) n) in
    if ok : bool then Ret (k, set_net n s, - 115) else Ret (set_connecting false k, set_net n s, - 111)).

Definition sys_connect (fd addr_ptr : Z) (m : M) (s : socks) : outcome (socks * Z) :=
  match read_sockaddr_in addr_ptr m with
  | Err e => Ret (s, e)
  | Ok (port, addr) =>
      let remote := mkEp addr port in
      '(s, r) ← with_socket fd (fun k s =>
        match s_type k with
        | UdpDgram => '(k, s) ← ensure_bound (set_peer remote k) s; Ret (k, s, 0)
        | TcpStream | TcpListener => connect_tcp remote k s
        end) s;
      Ret (s, default (- EBADF) r)
  end.

Definition sys_bind (fd addr_ptr : Z) (m : M) (s : socks) : outcome (socks * Z) :=
  match read_sockaddr_in addr_ptr m with
  | Err e => Ret (s, e)
  | Ok (port, addr) =>
      '(s, r) ← with_socket fd (fun k s =>
        let '(s, port) := if port =? 0 then alloc_ephemeral_port s else (s, port) in
        let k := set_local port addr k in
        match s_type k with
        | UdpDgram =>
            with_net s (fun n =>
              _ ← get_sk Udp (s_handle k) n;
              let '(n, ok) := udp_bind (s_handle k) (listen_endpoint addr port) n in
              Ret (k, set_net n s, if ok : bool then 0 else - 98))
        | _ => Ret (k, s, 0)
        end) s;
      Ret (s, default (- EBADF) r)
  end.

(** [k] more listeners on the endpoint. *)
Fixpoint fill_pool (k : nat) (e : listen_ep) (n : N) : outcome (N * list Z) :=
  match k with
  | O => Ret (n, [])
  | S k' =>
      '(n, h) ← install_fresh_listener e n;
      '(n, l) ← fill_pool k' e n;
      Ret (n, h :: l)
  end.

Definition sys_listen (fd : Z) (s : socks) : outcome (socks * Z) :=
  '(s, r) ← with_socket fd (fun k s =>
    let k := set_type TcpListener k in
    with_net s (fun n =>
      let e := listen_endpoint (s_addr k) (s_port k) in
      _ ← get_sk Tcp (s_handle k) n;
      let '(n, ok) := tcp_listen (s_handle k) e n in
      if negb ok then Ret (k, set_net n s, - 98) else
      '(n, l) ← fill_pool (LISTENER_POOL_SIZE - 1) e n;
      Ret (set_pool (s_handle k) l k, set_net n s, 0))) s;
  Ret (s, default (- EBADF) r).

Definition acceptable (n : N) (h : Z) : bool :=
  bool_decide (tcp_state n h = Established) || bool_decide (tcp_state n h = CloseWait).

(** The first acceptable spare from index [i]. *)
Fixpoint scan_backlog (i : nat) (l : list Z) (n : N) : outcome (option (nat * Z)) :=
  match l with
  | [] => Ret None
  | h :: r =>
      _ ← get_sk Tcp h n;
      if acceptable n h then Ret (Some (i, h)) else scan_backlog (S i) r n
  end.

(** One capture attempt on listener [k]; [free] is the free kernel heap. *)
Definition capture (e : listen_ep) (free : Z) (k : Socket) (s : socks)
    : outcome (Socket * socks * option (Z * option ip_ep)) :=
  with_net s (fun n =>
    let over_budget := free <? ACCEPT_HEAP_RESERVE in
    _ ← get_sk Tcp (s_handle k) n;
    if acceptable n (s_handle k) then
      if over_budget then Ret (k, set_net (fst (tcp_listen (s_handle k) e (tcp_abort (s_handle k) n))) s, None)
      else
        '(n', h) ← install_fresh_listener e n;
        Ret (set_pool h (s_backlog k) k, set_net n' s, Some (s_handle k, tcp_remote n (s_handle k)))
    else
      r ← scan_backlog 0 (s_backlog k) n;
      match r with
      | None => Ret (k, s, None)
      | Some (i, h) =>
          if over_budget then Ret (k, set_net (fst (tcp_listen h e (tcp_abort h n))) s, None)
          else
            '(n', h') ← install_fresh_listener e n;
            Ret (set_pool (s_handle k) (<[i := h']> (s_backlog k)) k, set_net n' s, Some (h, tcp_remote n h))
      end).

(** What a call of [accept] keeps from the listener: it looks at the type, the
    port and the address once, before its loop. *)
Record accept_call := mkAccept { a_fd : Z; a_flags : Z; a_nonblock : bool; a_port : Z; a_addr : list Z }.

Definition accept_snapshot (fd flags : Z) (s : socks) : outcome (result accept_call) :=
  '(_, r) ← with_socket fd (fun k s =>
    Ret (k, s, if negb (bool_decide (s_type k = TcpListener)) then Err (- 95)
               else Ok (mkAccept fd flags (s_nonblock k || negb (Z.land flags 0x800 =? 0)) (s_port k) (s_addr k)))) s;
  Ret (default (Err (- EBADF)) r).

(** The region of one turn of the loop, after its poll: whatever socket has
    the descriptor now. *)
Definition accept_attempt (a : accept_call) (free : Z) (s : socks) : outcome (socks * option (Z * option ip_ep)) :=
  '(s, r) ← with_socket (a_fd a) (capture (listen_endpoint (a_addr a) (a_port a)) free) s;
  Ret (s, default None r).

Definition accepted_socket (a : accept_call) (fd h : Z) : Socket :=
  new_socket fd TcpStream h (negb (Z.land (a_flags a) 0x800 =? 0)) (a_port a) (a_addr a).

Definition accept_fill (addr_ptr addrlen_ptr : Z) (remote : option ip_ep) (m : M) : M :=
  match remote with
  | Some ep => fst (write_sockaddr_in addr_ptr addrlen_ptr (ep_port ep) (ep_addr ep) m)
  | None => m
  end.

(** The loop; each turn has its two clock readings, the free heap it sees, and
    what the other threads do while it has yielded.  [None]: still waiting when
    the turns end. *)
Fixpoint accept_loop (turns : list (Z * Z * Z * (socks -> socks))) (a : accept_call) (addr_ptr addrlen_ptr : Z) (m : M) (s : socks)
    : outcome (M * socks * option Z) :=
  match turns with
  | [] => Ret (m, s, None)
  | (t, t', free, others) :: turns =>
      s ← poll t t' s;
      '(s, r) ← accept_attempt a free s;
      match r with
      | Some (h, remote) =>
          let '(s, fd) := alloc_fd s in
          Ret (accept_fill addr_ptr addrlen_ptr remote m, push_socket (accepted_socket a fd h) s, Some fd)
      | None =>
          if a_nonblock a then Ret (m, s, Some (- EAGAIN))
          else accept_loop turns a addr_ptr addrlen_ptr m (others s)
      end
  end.
Definition sys_accept (turns : list (Z * Z * Z * (socks -> socks))) (fd addr_ptr addrlen_ptr flags : Z) (m : M) (s : socks)
    : outcome (M * socks * option Z) :=
  r ← accept_snapshot fd flags s;
  match r with
  | Err e => Ret (m, s, Some e)
  | Ok a => accept_loop turns a addr_ptr addrlen_ptr m s
  end.

Definition sys_getsockname (fd addr_ptr addrlen_ptr : Z) (m : M) (s : socks) : outcome (M * Z) :=
  '(_, r) ← with_socket fd (fun k s => Ret (k, s, (s_port k, s_addr k))) s;
  match r with
  | None => Ret (m, - EBADF)
  | Some (port, addr) => Ret (write_sockaddr_in addr_ptr addrlen_ptr port addr m)
  end.

Definition sys_getpeername (fd addr_ptr addrlen_ptr : Z) (m : M) (s : socks) : outcome (M * Z) :=
  '(_, r) ← with_socket fd (fun k s => with_net s (fun n =>
    _ ← get_sk Tcp (s_handle k) n; Ret (k, s, tcp_remote n (s_handle k)))) s;
  match r with
  | None => Ret (m, - EBADF)
  | Some (Some ep) => Ret (write_sockaddr_in addr_ptr addrlen_ptr (ep_port ep) (ep_addr ep) m)
  | Some None => Ret (m, - 107)
  end.

Definition sys_setsockopt (fd : Z) (s : socks) : Z := if is_socket_fd fd s then 0 else - EBADF.

Definition sys_getsockopt (fd level optname optval optlen : Z) (m : M) (s : socks) : outcome (M * socks * Z) :=
  if negb (is_socket_fd fd s) then Ret (m, s, - EBADF) else
  if (optval =? 0) || (optlen =? 0) then Ret (m, s, - EFAULT) else
  '(s, so) ← with_socket fd (fun k s =>
    if bool_decide (s_type k = TcpStream) && s_connecting k then
      with_net s (fun n =>
        _ ← get_sk Tcp (s_handle k) n;
        Ret (match tcp_state n (s_handle k) with
             | Established => (set_connecting false k, s, 0)
             | Closed | TimeWait | CloseWait => (set_connecting false k, s, 111)
             | OtherState => (k, s, 0)
             end))
    else Ret (k, s, 0)) s;
  match um_in m optlen 4 with
  | None => Ret (m, s, - EFAULT)
  | Some lenbuf =>
      let '(val, width) :=
        if (level =? 1) && (optname =? 4) then (default 0 so, 4)
        else if (level =? 1) && (optname =? 13) then (0, 8) else (0, 4) in
      if le_val lenbuf <? width then Ret (m, s, 0) else
      match um_out m optval (take (Z.to_nat width) (le_bytes 4 val ++ replicate 4 0)) with
      | None => Ret (m, s, - EFAULT)
      | Some m =>
          match um_out m optlen (le_bytes 4 width) with
          | None => Ret (m, s, - EFAULT)
          | Some m => Ret (m, s, 0)
          end
      end
  end.

Definition send_datagram (k : Socket) (endpoint : ip_ep) (buf len_ : Z) (m : M) (s : socks) : outcome (socks * Z) :=
  with_net s (fun n =>
    _ ← get_sk Udp (s_handle k) n;
    match um_in m buf len_ with
    | None => Ret (s, - EFAULT)
    | Some data =>
        let '(n, r) := udp_send (s_handle k) data endpoint n in
        Ret (set_net n s, match r with UdpSent => len_ | UdpFull => - EAGAIN | UdpError => - EINVAL end)
    end).

Definition sys_sendto (t t' : Z) (fd buf len_ dest_addr : Z) (m : M) (s : socks) : outcome (socks * Z) :=
  let dest := if dest_addr =? 0 then None
              else match read_sockaddr_in dest_addr m with Ok (port, v4) => Some (mkEp v4 port) | Err _ => None end in
  '(s, r) ← with_socket fd (fun k s =>
    match s_type k with
    | UdpDgram =>
        match (match dest with Some e => Some e | None => s_peer k end) with
        | None => Ret (k, s, - 89)
        | Some endpoint =>
            '(k, s) ← ensure_bound k s;
            '(s, r) ← send_datagram k endpoint buf len_ m s;
            s ← poll t t' s;
            Ret (k, s, r)
        end
    | TcpStream =>
        with_net s (fun n =>
          _ ← get_sk Tcp (s_handle k) n;
          if negb (tcp_can_send n (s_handle k)) then Ret (k, s, - EAGAIN) else
          match um_in m buf len_ with
          | None => Ret (k, s, - EFAULT)
          | Some data =>
              let '(n, r) := tcp_send (s_handle k) data n in
              Ret (k, set_net n s, default (- 104) r)
          end)
    | TcpListener => Ret (k, s, - 95)
    end) s;
  Ret (s, default (- EBADF) r).

(** A stream receives straight into the user buffer: the buffer is checked
    whole before data is taken, and the stack then writes a prefix of it.  A
    prefix that could not be written would be a fault in the kernel. *)
Definition recv_turn (fd buf len_ src_addr addrlen : Z) (m : M) (s : socks) : outcome (M * socks * Z) :=
  '(s, r) ← with_socket fd (fun k s =>
    match s_type k with
    | TcpStream =>
        with_net s (fun n =>
          _ ← get_sk Tcp (s_handle k) n;
          if negb (tcp_can_recv n (s_handle k)) then
            Ret (k, s, (m, if negb (tcp_is_active n (s_handle k)) then 0 else - EAGAIN))
          else
            match um_in m buf len_ with
            | None => Ret (k, s, (m, - EFAULT))
            | Some _ =>
                let '(n, r) := tcp_recv (s_handle k) len_ n in
                match r with
                | None => Ret (k, set_net n s, (m, - 104))
                | Some data =>
                    match um_out m buf data with
                    | Some m => Ret (k, set_net n s, (m, len data))
                    | None => Panic
                    end
                end
            end)
    | UdpDgram =>
        with_net s (fun n =>
          _ ← get_sk Udp (s_handle k) n;
          if negb (udp_can_recv n (s_handle k)) then Ret (k, s, (m, - EAGAIN)) else
          let '(n, r) := udp_recv (s_handle k) n in
          match r with
          | None => Ret (k, set_net n s, (m, - EAGAIN))
          | Some (data, ep) =>
              let n' := Z.min (len data) len_ in
              match um_out m buf (take (Z.to_nat n') data) with
              | None => Ret (k, set_net n s, (m, - EFAULT))
              | Some m => Ret (k, set_net n s, (fst (write_sockaddr_in src_addr addrlen (ep_port ep) (ep_addr ep) m), n'))
              end
          end)
    | TcpListener => Ret (k, s, (m, - EBADF))
    end) s;
  match r with
  | None => Ret (m, s, - EBADF)
  | Some (m, r) => Ret (m, s, r)
  end.
Definition sys_recvfrom (t t' : Z) (fd buf len_ src_addr addrlen : Z) (m : M) (s : socks) : outcome (M * socks * Z) :=
  s ← poll t t' s; recv_turn fd buf len_ src_addr addrlen m s.

End Calls.

(** ** Readiness and closing *)

Definition POLLIN : Z := 1.
Definition POLLOUT : Z := 4.
Definition POLLERR : Z := 8.
Definition POLLHUP : Z := 16.

Fixpoint any_active (l : list Z) (n : N) : outcome bool :=
  match l with
  | [] => Ret false
  | h :: r => _ ← get_sk Tcp h n; if tcp_is_active n h then Ret true else any_active r n
  end.

Definition poll_events (k : Socket) (n : N) : outcome (Socket * Z) :=
  let h := s_handle k in
  match s_type k with
  | TcpStream =>
      _ ← get_sk Tcp h n;
      if s_connecting k then
        Ret (match tcp_state n h with
             | Established => (set_connecting false k, POLLOUT)
             | Closed | TimeWait | CloseWait => (k, Z.lor POLLOUT POLLERR)
             | OtherState => (k, 0)
             end)
      else
        Ret (k, Z.lor (if tcp_can_recv n h then POLLIN else 0)
                 (Z.lor (if tcp_can_send n h then POLLOUT else 0)
                    (if negb (tcp_is_active n h) && negb (tcp_is_listening n h) then POLLHUP else 0)))
  | TcpListener =>
      b ← any_active (h :: s_backlog k) n;
      Ret (k, if b : bool then POLLIN else 0)
  | UdpDgram =>
      _ ← get_sk Udp h n;
      Ret (k, Z.lor (if udp_can_recv n h then POLLIN else 0) (if udp_can_send n h then POLLOUT else 0))
  end.
Definition poll_socket (fd : Z) (s : socks) : outcome (socks * Z) :=
  '(s, r) ← with_socket fd (fun k s => with_net s (fun n => '(k, ev) ← poll_events k n; Ret (k, s, ev))) s;
  Ret (s, default 0 r).

(** Closes and removes the listeners of a pool. *)
Fixpoint drop_pool (l : list Z) (n : N) : outcome N :=
  match l with
  | [] => Ret n
  | h :: r => _ ← get_sk Tcp h n; drop_pool r (sk_remove h (tcp_close h n))
  end.

Definition close_take (fd : Z) (s : socks) : socks * option Socket :=
  match position fd (SOCKETS s) with
  | None => (s, None)
  | Some i => (set_sockets (delete i (SOCKETS s)) s, SOCKETS s !! i)
  end.
Definition recycle_fd (fd : Z) (s : socks) : socks := set_free (RECYCLED_FDS s ++ [fd]) s.
Definition close_net (t : Z) (k : Socket) (s : socks) : outcome socks :=
  with_net s (fun n =>
    match s_type k with
    | TcpStream =>
        _ ← get_sk Tcp (s_handle k) n;
        Ret (set_net (tcp_close (s_handle k) n) (set_closing (CLOSING_HANDLES s ++ [(s_handle k, t)]) s))
    | TcpListener => n ← drop_pool (s_handle k :: s_backlog k) n; Ret (set_net n s)
    | UdpDgram =>
        _ ← get_sk Udp (s_handle k) n;
        Ret (set_net (sk_remove (s_handle k) (udp_close (s_handle k) n)) s)
    end).
Definition close (t : Z) (fd : Z) (s : socks) : outcome socks :=
  let '(s, r) := close_take fd s in
  match r with
  | None => Ret s
  | Some k => close_net t k (recycle_fd fd s)
  end.

(** [any_socket_ready]: the descriptors are listed first, then polled. *)
Fixpoint any_ready (fds : list Z) (s : socks) : outcome (socks * bool) :=
  match fds with
  | [] => Ret (s, false)
  | fd :: r =>
      '(s, ev) ← poll_socket fd s;
      if negb (Z.land ev POLLIN =? 0) then Ret (s, true) else any_ready r s
  end.
Definition any_socket_ready (s : socks) : outcome (socks * bool) :=
  any_ready (filter (fun fd => 0 <= fd) (s_fd <$> SOCKETS s)) s.

(** ** Interleaving

    What a call holds between two of its regions. *)
Inductive flight :=
  | FAdded (t : SockType) (h : Z) (nb : bool) (* socket: the stack's socket is there *)
  | FAccept (a : accept_call)                 (* accept: in its loop *)
  | FCaptured (a : accept_call) (h : Z)       (* accept: past its loop *)
  | FPush (k : Socket)                        (* socket, accept: the descriptor is allocated *)
  | FTaken (fd : Z) (k : Socket)              (* close: out of the table *)
  | FTeardown (k : Socket).                   (* close: the descriptor is free again *)

Record state := mkState { st_socks : socks; st_flights : list flight }.

Section Exec.
Context {M : Type} `{UserMem M}.

(** The regions, each by the call that runs it; [i] is the place of the call
    among those in flight. *)
Inductive op :=
  | OSocket (domain sock_type : Z)
  | OAccept (fd flags : Z)
  | OAttempt (i : nat) (free : Z)
  | OAlloc (i : nat)
  | OPush (i : nat)
  | OTake (fd : Z)
  | ORecycle (i : nat)
  | OTeardown (i : nat) (t : Z)
  | OPoll (t t' : Z)
  | OConnect (fd addr_ptr : Z) (m : M)
  | OBind (fd addr_ptr : Z) (m : M)
  | OListen (fd : Z)
  | OGetpeername (fd addr_ptr addrlen_ptr : Z) (m : M)
  | OGetsockopt (fd level optname optval optlen : Z) (m : M)
  | OSend (t t' fd buf len_ dest_addr : Z) (m : M)
  | ORecv (fd buf len_ src_addr addrlen : Z) (m : M)
  | OReady (fd : Z)
  | ONonblock (fd : Z) (nb : bool).

Definition exec (o : op) (st : state) : outcome state :=
  let s := st_socks st in
  let fl := st_flights st in
  match o with
  | OSocket domain sock_type =>
      '(s, r) ← socket_add domain sock_type s;
      Ret (mkState s (match r with Ok (t, h, nb) => fl ++ [FAdded t h nb] | Err _ => fl end))
  | OAccept fd flags =>
      r ← accept_snapshot fd flags s;
      Ret (mkState s (match r with Ok a => fl ++ [FAccept a] | Err _ => fl end))
  | OAttempt i free =>
      match fl !! i with
      | Some (FAccept a) =>
          '(s, r) ← accept_attempt a free s;
          Ret (mkState s (match r with
                          | Some (h, _) => <[i := FCaptured a h]> fl
                          | None => if a_nonblock a then delete i fl else fl
                          end))
      | _ => Ret st
      end
  | OAlloc i =>
      match fl !! i with
      | Some (FAdded t h nb) =>
          let '(s, fd) := alloc_fd s in Ret (mkState s (<[i := FPush (new_socket fd t h nb 0 UNSPECIFIED)]> fl))
      | Some (FCaptured a h) =>
          let '(s, fd) := alloc_fd s in Ret (mkState s (<[i := FPush (accepted_socket a fd h)]> fl))
      | _ => Ret st
      end
  | OPush i =>
      match fl !! i with
      | Some (FPush k) => Ret (mkState (push_socket k s) (delete i fl))
      | _ => Ret st
      end
  | OTake fd =>
      let '(s, r) := close_take fd s in
      Ret (mkState s (match r with Some k => fl ++ [FTaken fd k] | None => fl end))
  | ORecycle i =>
      match fl !! i with
      | Some (FTaken fd k) => Ret (mkState (recycle_fd fd s) (<[i := FTeardown k]> fl))
      | _ => Ret st
      end
  | OTeardown i t =>
      match fl !! i with
      | Some (FTeardown k) => s ← close_net t k s; Ret (mkState s (delete i fl))
      | _ => Ret st
      end
  | OPoll t t' => s ← poll t t' s; Ret (mkState s fl)
  | OConnect fd addr_ptr m => '(s, _) ← sys_connect fd addr_ptr m s; Ret (mkState s fl)
  | OBind fd addr_ptr m => '(s, _) ← sys_bind fd addr_ptr m s; Ret (mkState s fl)
  | OListen fd => '(s, _) ← sys_listen fd s; Ret (mkState s fl)
  | OGetpeername fd a l m => _ ← sys_getpeername fd a l m s; Ret st
  | OGetsockopt fd level optname optval optlen m =>
      '(_, s, _) ← sys_getsockopt fd level optname optval optlen m s; Ret (mkState s fl)
  | OSend t t' fd buf len_ dest m => '(s, _) ← sys_sendto t t' fd buf len_ dest m s; Ret (mkState s fl)
  | ORecv fd buf len_ src addrlen m => '(_, s, _) ← recv_turn fd buf len_ src addrlen m s; Ret (mkState s fl)
  | OReady fd => '(s, _) ← poll_socket fd s; Ret (mkState s fl)
  | ONonblock fd nb => s ← set_nonblock fd nb s; Ret (mkState s fl)
  end.

End Exec.

End Sockets.
#[global] Arguments socks N : clear implicits.
#[global] Arguments state N : clear implicits.
#[global] Arguments op M : clear implicits.
