(* ===== verification/SocketInv.v ===== *)
(** * The socket layer's invariant

    Every handle the kernel holds belongs to one holder (a socket of the
    table, a call in flight, the closing list, the DHCP client) and has the
    type its holder expects; every descriptor number handed out is in the
    table, in the free list or with a call in flight, once.  This file has the
    invariant, the stack's lemmas and the rule for what runs under the table
    lock ([with_socket_ok]); [SocketProps] has the calls. *)

From S2P Require Import Prelude Uaccess Socket.

Definition kind_of (t : SockType) : SkKind := match t with UdpDgram => Udp | _ => Tcp end.
Definition tcps (l : list Z) : list (Z * SkKind) := (fun h => (h, Tcp)) <$> l.
#[export] Instance tcps_perm : Proper ((≡ₚ) ==> (≡ₚ)) tcps.
Proof. intros l l' E. unfold tcps. by rewrite E. Qed.
Definition sock_own (k : Socket) : list (Z * SkKind) := (s_handle k, kind_of (s_type k)) :: tcps (s_backlog k).
Definition flight_own (f : flight) : list (Z * SkKind) :=
  match f with
  | FAdded t h _ => [(h, kind_of t)]
  | FAccept _ => []
  | FCaptured _ h => [(h, Tcp)]
  | FPush k | FTaken _ k | FTeardown k => sock_own k
  end.
Definition flight_fd (f : flight) : list Z :=
  match f with FPush k => [s_fd k] | FTaken fd _ => [fd] | _ => [] end.

Section Props.
Context {N : Type} `{HS : StackLaws N}.

Definition tbl_own (s : socks N) : list (Z * SkKind) := SOCKETS s ≫= sock_own.
Definition stack_own (s : socks N) : list (Z * SkKind) :=
  tcps (CLOSING_HANDLES s).*1 ++ ((fun h => (h, Dhcp)) <$> option_list (dhcp_handle s)).
Definition fds (st : state N) : list Z :=
  (s_fd <$> SOCKETS (st_socks st)) ++ RECYCLED_FDS (st_socks st) ++ (st_flights st ≫= flight_fd).

Definition net_ok (n : N) (L : list (Z * SkKind)) : Prop :=
  NoDup L.*1 /\ Forall (fun x => sk_kind n x.1 = Some x.2) L.
(** [L]: what is held outside the tables. *)
Definition ok (s : socks N) (L : list (Z * SkKind)) : Prop :=
  match NET_STATE s with
  | None => tbl_own s ++ stack_own s ++ L = []
  | Some n => net_ok n (tbl_own s ++ stack_own s ++ L)
  end.
Definition inv (st : state N) : Prop :=
  ok (st_socks st) (st_flights st ≫= flight_own) /\
  SOCK_FD_BASE <= NEXT_SOCK_FD (st_socks st) /\
  fds st ≡ₚ seqZ SOCK_FD_BASE (NEXT_SOCK_FD (st_socks st) - SOCK_FD_BASE).

(** ** The stack *)

#[export] Instance net_ok_perm n : Proper ((≡ₚ) ==> iff) (net_ok n).
Proof. intros L L' E. unfold net_ok. by rewrite E. Qed.

Lemma net_ok_keeps n n' L : keeps_kinds n n' -> net_ok n L -> net_ok n' L.
Proof. intros K [? F]. split; [done|]. eapply Forall_impl; [exact F|]. cbn. intros x Hx. by rewrite K. Qed.

Lemma net_ok_app_r n L L' : net_ok n (L ++ L') -> net_ok n L'.
Proof. unfold net_ok. rewrite fmap_app, NoDup_app, Forall_app. naive_solver. Qed.

Lemma net_ok_kind n h k L : net_ok n ((h, k) :: L) -> sk_kind n h = Some k.
Proof. intros [_ F]. by apply Forall_cons in F as [? _]. Qed.

Lemma net_ok_get n h k L : net_ok n ((h, k) :: L) -> get_sk k h n = Ret tt.
Proof. intros Hn. unfold get_sk. rewrite bool_decide_true; [done|]. by eapply net_ok_kind. Qed.

Lemma net_ok_get_other n h k k' L : net_ok n ((h, k) :: L) -> k <> k' -> get_sk k' h n = Panic.
Proof.
  intros Hn Hk. unfold get_sk. rewrite bool_decide_false; [done|].
  rewrite (net_ok_kind _ _ _ _ Hn). congruence.
Qed.

Lemma net_ok_fresh n n' h k L :
  sk_kind n h = None -> (forall h', sk_kind n' h' = if h' =? h then Some k else sk_kind n h') ->
  net_ok n L -> net_ok n' ((h, k) :: L).
Proof.
  intros Hf Hk [Hd F]. split; cbn.
  - constructor; [|done]. intros (x & -> & Hx)%list_elem_of_fmap.
    rewrite Forall_forall in F. specialize (F x Hx). congruence.
  - constructor; cbn; [by rewrite Hk, Z.eqb_refl|].
    eapply Forall_impl; [exact F|]. cbn. intros x Hx. rewrite Hk.
    destruct (Z.eqb_spec x.1 h) as [E|]; [|done]. rewrite E in Hx. congruence.
Qed.

Lemma net_ok_remove n h k L : net_ok n ((h, k) :: L) -> net_ok (sk_remove h n) L.
Proof.
  intros [Hd F]. cbn in Hd. apply NoDup_cons in Hd as [Hn Hd]. apply Forall_cons in F as [_ F].
  split; [done|]. rewrite Forall_forall in F |- *. intros x Hx. rewrite remove_kind.
  destruct (Z.eqb_spec x.1 h) as [E|]; [|by apply F].
  exfalso. apply Hn. rewrite <- E. by apply list_elem_of_fmap_2.
Qed.

Lemma install_listener_ok e n n' h L : install_fresh_listener e n = Ret (n', h) -> net_ok n L -> net_ok n' ((h, Tcp) :: L).
Proof.
  unfold install_fresh_listener. destruct (add_tcp _ _ n) as [[n1 h1]|] eqn:E1; [|done]. cbn [mbind outcome_bind].
  destruct (tcp_listen h1 e n1) as [n2 b] eqn:E2. intros [= <- <-] Hn.
  eapply net_ok_keeps; [apply nagle_kind|].
  eapply net_ok_keeps; [pose proof (listen_kind h1 e n1) as K; by rewrite E2 in K|].
  eapply net_ok_fresh; [by eapply add_tcp_fresh|intros h'; by eapply add_tcp_kind|done].
Qed.
Lemma install_listener_panic e n : install_fresh_listener e n = Panic -> add_fails N.
Proof.
  unfold install_fresh_listener. destruct (add_tcp _ _ n) as [[n1 h1]|] eqn:E1; cbn [mbind outcome_bind].
  - by destruct (tcp_listen h1 e n1).
  - intros _. exists n. left. eauto.
Qed.

Lemma fill_pool_ok k e n n' l L :
  fill_pool k e n = Ret (n', l) -> net_ok n L -> length l = k /\ net_ok n' (tcps l ++ L).
Proof.
  revert n n' l L. induction k as [|k IH]; intros n n' l L; cbn [fill_pool].
  - by intros [= <- <-].
  - destruct (install_fresh_listener e n) as [[n1 h]|] eqn:E1; [|done]. cbn [mbind outcome_bind].
    destruct (fill_pool k e n1) as [[n2 l2]|] eqn:E2; [|done]. cbn [mbind outcome_bind].
    intros [= <- <-] Hn. destruct (IH _ _ _ _ E2 (install_listener_ok _ _ _ _ _ E1 Hn)) as [<- Hok].
    split; [done|]. cbn. eapply net_ok_perm; [|exact Hok]. solve_Permutation.
Qed.
Lemma fill_pool_panic k e n : fill_pool k e n = Panic -> add_fails N.
Proof.
  revert n. induction k as [|k IH]; intros n; cbn [fill_pool]; [done|].
  destruct (install_fresh_listener e n) as [[n1 h]|] eqn:E1; cbn [mbind outcome_bind]; [|intros _; by eapply install_listener_panic].
  destruct (fill_pool k e n1) as [[n2 l2]|] eqn:E2; [done|]. intros _. by eapply IH.
Qed.

Lemma drop_pool_ok l n L : net_ok n (tcps l ++ L) -> exists n', drop_pool l n = Ret n' /\ net_ok n' L.
Proof.
  revert n. induction l as [|h l IH]; intros n Hn; cbn [drop_pool]; [by exists n|].
  cbn in Hn. rewrite (net_ok_get _ _ _ _ Hn). cbn [mbind outcome_bind].
  apply IH. eapply net_ok_remove, net_ok_keeps; [apply tcp_close_kind|exact Hn].
Qed.

(** ** The reaper *)
Lemma gc_loop_ok fuel i t l n L :
  net_ok n (tcps l.*1 ++ L) ->
  exists l' n', gc_loop fuel i t l n = Ret (l', n') /\ net_ok n' (tcps l'.*1 ++ L).
Proof.
  revert i l n. induction fuel as [|f IH]; intros i l n Hn; cbn [gc_loop]; [by exists l, n|].
  destruct (l !! i) as [[h t0]|] eqn:Hi; [|by exists l, n].
  assert (net_ok n ((h, Tcp) :: tcps (vec_swap_remove i l).*1 ++ L)) as Hn'.
  { by rewrite (vec_swap_remove_perm _ _ _ Hi) in Hn. }
  rewrite (net_ok_get _ _ _ _ Hn'). cbn [mbind outcome_bind].
  destruct (bool_decide _ || bool_decide _); cbn [negb andb orb].
  - apply IH. by eapply net_ok_remove.
  - destruct (CLOSING_REAP_MS <=? t ⊟ t0); [|by apply IH].
    apply IH. eapply net_ok_remove, net_ok_keeps; [apply abort_kind|exact Hn'].
Qed.

(** An entry the reaper frees: its connection is over, or it has been closing
    for too long. *)
Definition reapable (t : Z) (n : N) (x : Z * Z) : Prop :=
  tcp_state n x.1 = Closed \/ tcp_state n x.1 = TimeWait \/ CLOSING_REAP_MS <= t ⊟ x.2.
#[export] Instance reapable_dec t n x : Decision (reapable t n x).
Proof. unfold reapable. apply _. Defined.

Lemma reap_test t n h t0 :
  let done := bool_decide (tcp_state n h = Closed) || bool_decide (tcp_state n h = TimeWait) in
  done || (negb done && (CLOSING_REAP_MS <=? t ⊟ t0)) = bool_decide (reapable t n (h, t0)).
Proof.
  cbn zeta. symmetry. unfold reapable. cbn.
  destruct (Z.leb_spec CLOSING_REAP_MS (t ⊟ t0)); repeat case_bool_decide; cbn; intuition lia.
Qed.

Lemma reapable_ext t n n' x : tcp_state n' x.1 = tcp_state n x.1 -> reapable t n' x <-> reapable t n x.
Proof. intros E. unfold reapable. by rewrite E. Qed.

(** ** Polling *)

(** What a region leaves alone besides the sockets themselves. *)
Definition frame (s s' : socks N) : Prop :=
  SOCKETS s' = SOCKETS s /\ NEXT_SOCK_FD s' = NEXT_SOCK_FD s /\ RECYCLED_FDS s' = RECYCLED_FDS s /\
  dhcp_handle s' = dhcp_handle s.

Lemma dhcp_renew_ok s n L :
  net_ok n (stack_own s ++ L) ->
  exists s' n', dhcp_renew s n = Ret (s', n') /\ frame s s' /\ CLOSING_HANDLES s' = CLOSING_HANDLES s /\
    net_ok n' (stack_own s ++ L).
Proof.
  intros Hn. unfold dhcp_renew. destruct (dhcp_handle s) as [h|] eqn:Eh; [|by exists s, n].
  assert (get_sk Dhcp h n = Ret tt) as ->.
  { apply (net_ok_get _ _ _ (tcps (CLOSING_HANDLES s).*1 ++ L)). unfold stack_own in Hn. rewrite Eh in Hn.
    eapply net_ok_perm; [|exact Hn]. cbn. solve_Permutation. }
  cbn [mbind outcome_bind]. pose proof (dhcp_poll_kind h n) as K. destruct (dhcp_poll h n) as [n1 e]. cbn [fst] in K.
  apply (net_ok_keeps _ n1) in Hn; [|done].
  destruct e as [[c|]|]; [|by exists s, n1..].
  destruct (c_router c); eexists _, _; (split; [reflexivity|]); (split; [done|]); (split; [done|]);
    repeat (eapply net_ok_keeps; [first [apply add_route_kind|apply set_addr_kind]|]); done.
Qed.

Lemma poll_net_ok t t' s n L :
  NET_STATE s = Some n -> net_ok n (stack_own s ++ L) ->
  poll t t' s = Panic /\ poll_fails N \/
  exists s' n', poll t t' s = Ret s' /\ frame s s' /\ NET_STATE s' = Some n' /\ net_ok n' (stack_own s' ++ L).
Proof.
  intros E Hn. unfold poll. rewrite E.
  destruct (drain_tx n) as [na|] eqn:Ea; [|left; split; [done|exists n; by left]]. cbn [mbind outcome_bind].
  destruct (iface_poll t na) as [nb|] eqn:Eb; [|left; split; [done|exists na; right; by exists t]].
  cbn [mbind outcome_bind]. right.
  assert (net_ok nb (stack_own s ++ L)) as Hn1.
  { eapply net_ok_keeps; [by eapply poll_kind|]. by eapply net_ok_keeps; [eapply drain_kind|]. }
  destruct (dhcp_renew_ok _ _ _ Hn1) as (s1 & n1 & -> & (F1 & F2 & F3 & F4) & Hc & Hn2).
  cbn [mbind outcome_bind]. unfold gc_closed_handles.
  unfold stack_own in Hn2. rewrite <- Hc, <- (assoc_L (++)) in Hn2.
  destruct (gc_loop_ok (length (CLOSING_HANDLES s1)) 0 t' _ _ _ Hn2) as (l' & n' & -> & Hn3).
  cbn [mbind outcome_bind]. eexists _, n'. split; [reflexivity|]. split; [done|]. split; [done|].
  unfold stack_own. cbn. rewrite F4. by rewrite <- (assoc_L (++)).
Qed.

(** ** Regions under the table lock *)

Definition region {R} (P : Socket -> Prop) (own_r : R -> list (Z * SkKind))
    (f : Socket -> socks N -> outcome (Socket * socks N * R)) : Prop :=
  forall k s n L, P k -> NET_STATE s = Some n -> net_ok n (sock_own k ++ stack_own s ++ L) ->
  exists k' s' r n', f k s = Ret (k', s', r) /\ frame s s' /\ s_fd k' = s_fd k /\
    NET_STATE s' = Some n' /\ net_ok n' (own_r r ++ sock_own k' ++ stack_own s' ++ L).

(** A region whose stack calls may fail, when [E]. *)
Definition region_may {R} (E : Prop) (P : Socket -> Prop) (own_r : R -> list (Z * SkKind))
    (f : Socket -> socks N -> outcome (Socket * socks N * R)) : Prop :=
  forall k s n L, P k -> NET_STATE s = Some n -> net_ok n (sock_own k ++ stack_own s ++ L) ->
  f k s = Panic /\ E \/
  exists k' s' r n', f k s = Ret (k', s', r) /\ frame s s' /\ s_fd k' = s_fd k /\
    NET_STATE s' = Some n' /\ net_ok n' (own_r r ++ sock_own k' ++ stack_own s' ++ L).

Lemma position_Some fd l i : position fd l = Some i -> exists k, l !! i = Some k /\ s_fd k = fd.
Proof.
  revert i. induction l as [|k l IH]; intros i; cbn [position]; [done|].
  destruct (Z.eqb_spec (s_fd k) fd) as [E|E]; [intros [= <-]; by exists k|].
  intros (j & Hj & ->)%fmap_Some. destruct (IH j Hj) as (k' & ? & ?). by exists k'.
Qed.
Lemma position_None fd l : position fd l = None <-> Forall (fun k => s_fd k <> fd) l.
Proof.
  induction l as [|k l IH]; cbn [position]; [by split|]. rewrite Forall_cons, <- IH.
  destruct (Z.eqb_spec (s_fd k) fd); [naive_solver|]. rewrite fmap_None. naive_solver.
Qed.

Lemma bind_insert_perm {A B} (g : A -> list B) l i x y :
  l !! i = Some x -> g x ++ (<[i := y]> l ≫= g) ≡ₚ g y ++ (l ≫= g).
Proof.
  intros Hi. pose proof (lookup_lt_Some _ _ _ Hi). rewrite insert_take_drop by done.
  rewrite <- (take_drop_middle l i x Hi) at 3. rewrite !bind_app. cbn. solve_Permutation.
Qed.
Lemma bind_delete_perm {A B} (g : A -> list B) l i x :
  l !! i = Some x -> l ≫= g ≡ₚ g x ++ (delete i l ≫= g).
Proof. intros Hi. by rewrite (delete_Permutation l i x Hi) at 1. Qed.

Lemma delete_insert_same {A} (l : list A) i x : delete i (<[i := x]> l) = delete i l.
Proof. revert i. induction l as [|y l IH]; intros [|i]; cbn; [done..|]. f_equal. apply IH. Qed.

(** The socket that has the descriptor. *)
Definition lookup_fd (fd : Z) (s : socks N) : option Socket := i ← position fd (SOCKETS s); SOCKETS s !! i.

Lemma with_socket_may {R} E P own_r (f : Socket -> socks N -> outcome (Socket * socks N * R)) fd s L :
  region_may E P own_r f -> ok s L -> (forall k, lookup_fd fd s = Some k -> P k) ->
  with_socket fd f s = Panic /\ E \/
  exists s' r, with_socket fd f s = Ret (s', r) /\ s_fd <$> SOCKETS s' = s_fd <$> SOCKETS s /\
    NEXT_SOCK_FD s' = NEXT_SOCK_FD s /\ RECYCLED_FDS s' = RECYCLED_FDS s /\
    ok s' (from_option own_r [] r ++ L).
Proof.
  intros Hf Hok HP. unfold with_socket. destruct (position fd (SOCKETS s)) as [i|] eqn:Ei; [|right; by exists s, None].
  destruct (position_Some _ _ _ Ei) as (k & Hk & Efd). rewrite Hk.
  unfold ok, tbl_own in Hok. destruct (NET_STATE s) as [n|] eqn:En; cycle 1.
  { apply app_nil in Hok as [Hok _]. pose proof (bind_delete_perm sock_own _ _ _ Hk) as E0.
    rewrite Hok in E0. by apply Permutation_nil_l in E0. }
  set (rest := delete i (SOCKETS s) ≫= sock_own).
  assert (net_ok n (sock_own k ++ stack_own s ++ rest ++ L)) as Hn.
  { rewrite (bind_delete_perm sock_own _ _ _ Hk) in Hok. eapply net_ok_perm; [|exact Hok]. solve_Permutation. }
  assert (P k) as HPk by (apply HP; unfold lookup_fd; rewrite Ei; exact Hk).
  destruct (Hf k s n _ HPk En Hn) as [[-> ?]|Hret]; [by left|right]. destruct Hret
    as (k' & s' & r & n' & -> & (F1 & F2 & F3 & F4) & Hfd & En' & Hn').
  cbn [mbind outcome_bind]. eexists _, (Some r). split; [reflexivity|]. cbn. rewrite F1. split_and!; try done.
  - rewrite list_fmap_insert, Hfd, list_insert_id; [done|]. by rewrite list_lookup_fmap, Hk.
  - unfold ok, tbl_own. cbn. rewrite En'. eapply net_ok_perm; [|exact Hn'].
    change (stack_own (set_sockets _ s')) with (stack_own s').
    assert (<[i:=k']> (SOCKETS s) ≫= sock_own ≡ₚ sock_own k' ++ rest) as ->; [|solve_Permutation].
    rewrite (bind_delete_perm sock_own (<[i:=k']> (SOCKETS s)) i k').
    + by rewrite delete_insert_same.
    + apply list_lookup_insert_eq. by eapply lookup_lt_Some.
Qed.

Lemma with_socket_ok {R} P own_r (f : Socket -> socks N -> outcome (Socket * socks N * R)) fd s L :
  region P own_r f -> ok s L -> (forall k, lookup_fd fd s = Some k -> P k) ->
  exists s' r, with_socket fd f s = Ret (s', r) /\ s_fd <$> SOCKETS s' = s_fd <$> SOCKETS s /\
    NEXT_SOCK_FD s' = NEXT_SOCK_FD s /\ RECYCLED_FDS s' = RECYCLED_FDS s /\
    ok s' (from_option own_r [] r ++ L).
Proof.
  intros Hf Hok HP. destruct (with_socket_may False P own_r f fd s L) as [[_ []]|?]; try done.
  intros k s0 n L0 HPk En Hn. right. exact (Hf k s0 n L0 HPk En Hn).
Qed.

Lemma with_socket_panic {R} (f : Socket -> socks N -> outcome (Socket * socks N * R)) fd s k :
  lookup_fd fd s = Some k -> f k s = Panic -> with_socket fd f s = Panic.
Proof.
  unfold lookup_fd, with_socket. destruct (position fd (SOCKETS s)) as [i|]; cbn [mbind option_bind]; [|done].
  intros -> ->. reflexivity.
Qed.

Lemma lookup_fd_own fd s L k :
  ok s L -> lookup_fd fd s = Some k ->
  exists n L', NET_STATE s = Some n /\ net_ok n (sock_own k ++ L').
Proof.
  unfold lookup_fd, ok, tbl_own. destruct (position fd (SOCKETS s)) as [i|]; cbn [mbind option_bind]; [|done].
  intros Hok Hk. pose proof (bind_delete_perm sock_own _ _ _ Hk) as E.
  destruct (NET_STATE s) as [n|].
  - rewrite E, <- (assoc_L (++)) in Hok. by exists n, ((delete i (SOCKETS s) ≫= sock_own) ++ stack_own s ++ L).
  - apply app_nil in Hok as [Hok _]. rewrite Hok in E. by apply Permutation_nil_l in E.
Qed.

(** ** The calls' regions *)
Lemma own_get n k L K : net_ok n (sock_own k ++ L) -> kind_of (s_type k) = K -> get_sk K (s_handle k) n = Ret tt.
Proof. intros Hn <-. exact (net_ok_get _ _ _ _ Hn). Qed.

(** A region that only touches the stack, and no handle. *)
Lemma region_ret {R} (own_r : R -> list (Z * SkKind)) k k' s s' n n' L r :
  own_r r = [] -> sock_own k' = sock_own k -> s_fd k' = s_fd k -> frame s s' ->
  CLOSING_HANDLES s' = CLOSING_HANDLES s -> NET_STATE s' = Some n' -> keeps_kinds n n' ->
  net_ok n (sock_own k ++ stack_own s ++ L) ->
  exists k'' s'' r'' n'', Ret (k', s', r) = Ret (k'', s'', r'') /\ frame s s'' /\ s_fd k'' = s_fd k /\
    NET_STATE s'' = Some n'' /\ net_ok n'' (own_r r'' ++ sock_own k'' ++ stack_own s'' ++ L).
Proof.
  intros Hr Hk Hfd F Hc En K Hn. exists k', s', r, n'. split_and!; [done..|].
  rewrite Hr, Hk. unfold stack_own. rewrite Hc. destruct F as (_ & _ & _ & ->). by eapply net_ok_keeps.
Qed.

Lemma keeps_refl (n : N) : keeps_kinds n n.
Proof. done. Qed.
Lemma keeps_trans (n1 n2 n3 : N) : keeps_kinds n1 n2 -> keeps_kinds n2 n3 -> keeps_kinds n1 n3.
Proof. intros K1 K2 h. by rewrite K2, K1. Qed.

Lemma ephemeral_frame s s' p :
  alloc_ephemeral_port s = (s', p) ->
  frame s s' /\ CLOSING_HANDLES s' = CLOSING_HANDLES s /\ NET_STATE s' = NET_STATE s.
Proof. by intros [= <- <-]. Qed.

Lemma ensure_bound_ok k s n L :
  s_type k = UdpDgram -> NET_STATE s = Some n -> net_ok n (sock_own k ++ L) ->
  exists k' s' n', ensure_bound k s = Ret (k', s') /\ frame s s' /\ CLOSING_HANDLES s' = CLOSING_HANDLES s /\
    s_fd k' = s_fd k /\ sock_own k' = sock_own k /\ s_type k' = s_type k /\ s_handle k' = s_handle k /\
    NET_STATE s' = Some n' /\ keeps_kinds n n'.
Proof.
  intros Ht En Hn. unfold ensure_bound. destruct (s_port k =? 0); [|by exists k, s, n].
  destruct (alloc_ephemeral_port s) as [s1 p] eqn:E1. destruct (ephemeral_frame _ _ _ E1) as (F & Hc & En1).
  unfold with_net. rewrite En1, En.
  rewrite (own_get n (set_local p (s_addr k) k) L Udp); [|exact Hn|cbn; by rewrite Ht].
  cbn [mbind outcome_bind]. eexists _, _, _. split; [reflexivity|]. split_and!; try done. apply bind_kind.
Qed.

Lemma nonblock_region nb : region (R := unit) (fun _ => True) (fun _ => []) (fun k s => Ret (set_nb nb k, s, tt)).
Proof. intros k s n L _ En Hn. by eapply region_ret. Qed.

Lemma snapshot_region {R} (g : Socket -> R) : region (fun _ => True) (fun _ => []) (fun k s => Ret (k, s, g k)).
Proof. intros k s n L _ En Hn. by eapply region_ret. Qed.

End Props.
