(* ===== verification/SocketProps.v ===== *)
(** * The socket layer's theorems

    Every region of every call preserves the invariant of [SocketInv] whatever
    the other CPUs are doing, and panics in exactly three situations; what
    [accept] hands out; how descriptors are recycled; what the reaper frees. *)

From S2P Require Import Prelude Uaccess Socket SocketInv.

Section Calls.
Context {N : Type} `{HS : StackLaws N}.
Context {M : Type} {wf : M -> Prop} `{HM : UserMemLaws M wf}.

(** What a call other than [socket], [accept] and [close] does to the tables:
    [L] is held elsewhere. *)
Definition call_ok (s s' : socks N) (L : list (Z * SkKind)) : Prop :=
  s_fd <$> SOCKETS s' = s_fd <$> SOCKETS s /\ NEXT_SOCK_FD s' = NEXT_SOCK_FD s /\
  RECYCLED_FDS s' = RECYCLED_FDS s /\ ok s' L.

(** Runs the region of the goal's [with_socket] by [with_socket_ok]. *)
Ltac in_region P own Hok :=
  match goal with
  | |- context [with_socket ?fd ?f ?s] =>
      let Hf := fresh "Hf" in
      assert (region P own f) as Hf;
      [intros k s0 n L0 HP En Hn
      |destruct (with_socket_ok P own f fd s _ Hf Hok) as (s' & r & -> & Hfds & Hnext & Hrec & Hok'); clear Hf;
       [|cbn [mbind outcome_bind]]]
  end.
(** The same where the stack may fail; the failure is the first case. *)
Ltac in_region_may E P own Hok :=
  match goal with
  | |- context [with_socket ?fd ?f ?s] =>
      let Hf := fresh "Hf" in
      assert (region_may E P own f) as Hf;
      [intros k s0 n L0 HP En Hn
      |destruct (with_socket_may E P own f fd s _ Hf Hok) as [[-> ?]|(s' & r & -> & Hfds & Hnext & Hrec & Hok')]; clear Hf;
       [|by left|cbn [mbind outcome_bind]]]
  end.
Ltac unchanged := eapply region_ret; try done; try apply keeps_refl.

Lemma set_nonblock_ok fd nb s L : ok s L -> exists s', set_nonblock fd nb s = Ret s' /\ call_ok s s' L.
Proof.
  intros Hok. unfold set_nonblock. in_region (fun _ : Socket => True) (fun _ : unit => @nil (Z * SkKind)) Hok.
  - unchanged.
  - done.
  - exists s'. split; [done|]. split_and!; try done. by destruct r.
Qed.

Lemma snapshot_ok fd flags s L : ok s L -> exists r, accept_snapshot fd flags s = Ret r.
Proof.
  intros Hok. unfold accept_snapshot.
  in_region (fun _ : Socket => True) (fun _ : result accept_call => @nil (Z * SkKind)) Hok; [|done|by eexists].
  unchanged.
Qed.

Lemma connect_tcp_ok e k s n L :
  kind_of (s_type k) = Tcp -> NET_STATE s = Some n -> net_ok n (sock_own k ++ stack_own s ++ L) ->
  exists k' s' r n', connect_tcp e k s = Ret (k', s', r) /\ frame s s' /\ s_fd k' = s_fd k /\
    NET_STATE s' = Some n' /\ net_ok n' ([] ++ sock_own k' ++ stack_own s' ++ L).
Proof.
  intros Ek En Hn. unfold connect_tcp.
  assert (exists s1 p, (if negb (s_port k =? 0) then (s, s_port k) else alloc_ephemeral_port s) = (s1, p) /\
    frame s s1 /\ CLOSING_HANDLES s1 = CLOSING_HANDLES s /\ NET_STATE s1 = NET_STATE s)
    as (s1 & p & -> & F & Hc & En1).
  { destruct (negb _); [by exists s, (s_port k)|]. by eexists _, _. }
  cbn zeta. unfold with_net. rewrite En1, En. cbn [s_handle set_connecting set_type set_local].
  rewrite (own_get _ _ _ _ Hn Ek). cbn [mbind outcome_bind].
  pose proof (connect_kind (s_handle k) e p (tcp_nagle_off (s_handle k) n)) as K.
  destruct (tcp_connect _ _ _ _) as [n1 b]. cbn [fst] in K.
  apply (keeps_trans _ _ _ (nagle_kind (s_handle k) n)) in K.
  destruct b; apply (region_ret (fun _ : Z => [])  k _ s _ n n1); try done; unfold sock_own; cbn; by rewrite Ek.
Qed.

Lemma connect_ok fd a (m : M) s L : ok s L -> exists s' r, sys_connect fd a m s = Ret (s', r) /\ call_ok s s' L.
Proof.
  intros Hok. unfold sys_connect. destruct (read_sockaddr_in a m) as [[port addr]|e]; [|by exists s, e].
  in_region (fun _ : Socket => True) (fun _ : Z => @nil (Z * SkKind)) Hok; [|done|].
  - destruct (s_type k) eqn:Et; [apply (connect_tcp_ok _ _ _ n); by rewrite ?Et..|].
    destruct (ensure_bound_ok (set_peer (mkEp addr port) k) s0 n _ Et En Hn)
      as (k' & s1 & n1 & -> & F & Hc & Hfd & Ho & _ & _ & En1 & K).
    cbn [mbind outcome_bind]. by apply (region_ret _ k k' s0 s1 n n1).
  - eexists _, _. split; [reflexivity|]. split_and!; try done. by destruct r.
Qed.

Lemma bind_ok fd a (m : M) s L : ok s L -> exists s' r, sys_bind fd a m s = Ret (s', r) /\ call_ok s s' L.
Proof.
  intros Hok. unfold sys_bind. destruct (read_sockaddr_in a m) as [[port addr]|e]; [|by exists s, e].
  in_region (fun _ : Socket => True) (fun _ : Z => @nil (Z * SkKind)) Hok; [|done|].
  - assert (exists s1 p, (if port =? 0 then alloc_ephemeral_port s0 else (s0, port)) = (s1, p) /\
      frame s0 s1 /\ CLOSING_HANDLES s1 = CLOSING_HANDLES s0 /\ NET_STATE s1 = NET_STATE s0)
      as (s1 & p & -> & F & Hc & En1).
    { destruct (port =? 0); [by eexists _, _|by exists s0, port]. }
    cbn [s_type set_local]. rewrite En in En1.
    destruct (s_type k) eqn:Et; [by apply (region_ret _ k _ s0 s1 n n)..|].
    unfold with_net. rewrite En1. cbn [s_handle set_local].
    rewrite (own_get _ _ _ Udp Hn) by (by rewrite Et). cbn [mbind outcome_bind].
    pose proof (bind_kind (s_handle k) (listen_endpoint addr p) n) as K. destruct (udp_bind _ _ _) as [n1 b].
    by apply (region_ret _ k _ s0 _ n n1).
  - eexists _, _. split; [reflexivity|]. split_and!; try done. by destruct r.
Qed.

(** Ends a call after its region. *)
Ltac region_end := eexists _, _; split; [reflexivity|]; split_and!; try done; by match goal with r : option _ |- _ => destruct r end.

Lemma listen_ok fd s L :
  ok s L -> (forall k, lookup_fd fd s = Some k -> s_type k <> UdpDgram) ->
  sys_listen fd s = Panic /\ add_fails N \/ exists s' r, sys_listen fd s = Ret (s', r) /\ call_ok s s' L.
Proof.
  intros Hok Hudp. unfold sys_listen.
  in_region_may (add_fails N) (fun k => s_type k <> UdpDgram) (fun _ : Z => @nil (Z * SkKind)) Hok; [|done|right; region_end].
  assert (kind_of (s_type k) = Tcp) as Ek by (by destruct (s_type k)).
  unfold with_net. rewrite En. cbn [s_handle set_type s_addr s_port].
  rewrite (own_get _ _ _ _ Hn Ek). cbn [mbind outcome_bind].
  pose proof (listen_kind (s_handle k) (listen_endpoint (s_addr k) (s_port k)) n) as K.
  destruct (tcp_listen _ _ n) as [n1 b]. cbn [fst] in K. destruct b; cbn [negb].
  - destruct (fill_pool _ _ n1) as [[n2 l]|] eqn:El; cbn [mbind outcome_bind]; [right|left; eauto using fill_pool_panic].
    eexists _, _, _, n2. split; [reflexivity|]. split_and!; try done.
    apply (net_ok_app_r _ (tcps (s_backlog k))). apply (net_ok_keeps _ n1 _ K) in Hn.
    destruct (fill_pool_ok _ _ _ _ _ _ El Hn) as [_ Hn2]. eapply net_ok_perm; [|exact Hn2].
    unfold sock_own. cbn. rewrite Ek. change (stack_own (set_net n2 s0)) with (stack_own s0). solve_Permutation.
  - right. apply (region_ret _ k _ s0 _ n n1); try done. unfold sock_own. cbn. by rewrite Ek.
Qed.

Lemma listen_panics fd s L k :
  ok s L -> lookup_fd fd s = Some k -> s_type k = UdpDgram -> sys_listen fd s = Panic.
Proof.
  intros Hok Hk Ht. unfold sys_listen. rewrite (with_socket_panic _ _ _ k); [done..|].
  destruct (lookup_fd_own _ _ _ _ Hok Hk) as (n & L' & En & Hn).
  unfold with_net. rewrite En. cbn [s_handle set_type]. unfold sock_own in Hn. rewrite Ht in Hn.
  by rewrite (net_ok_get_other _ _ _ Tcp _ Hn).
Qed.

(** ** accept *)

Definition captured_own (r : option (Z * option ip_ep)) : list (Z * SkKind) :=
  match r with Some (h, _) => [(h, Tcp)] | None => [] end.

Lemma scan_backlog_ok j l n L :
  net_ok n (tcps l ++ L) ->
  exists r, scan_backlog j l n = Ret r /\
    match r with
    | None => Forall (fun h => acceptable n h = false) l
    | Some (i, h) => exists d, i = (j + d)%nat /\ l !! d = Some h /\ acceptable n h = true
    end.
Proof.
  revert j. induction l as [|h l IH] in L |- *; intros j Hn; cbn [scan_backlog]; [by exists None|].
  cbn in Hn. rewrite (net_ok_get _ _ _ _ Hn). cbn [mbind outcome_bind].
  destruct (acceptable n h) eqn:Ea.
  { eexists. split; [reflexivity|]. exists 0%nat. split; [lia|done]. }
  destruct (IH ((h, Tcp) :: L) (S j)) as (r & -> & Hr).
  { eapply net_ok_perm; [|exact Hn]. solve_Permutation. }
  exists r. split; [done|]. destruct r as [[i h']|]; [|by constructor].
  destruct Hr as (d & -> & ? & ?). exists (S d). split; [lia|done].
Qed.

Lemma tcps_insert l i h h' : l !! i = Some h -> (h, Tcp) :: tcps (<[i := h']> l) ≡ₚ (h', Tcp) :: tcps l.
Proof.
  intros Hi. pose proof (bind_insert_perm (fun h => [(h, Tcp)]) l i h h' Hi) as E.
  assert (forall l, l ≫= (fun h => [(h, Tcp)]) = tcps l) as Et by (by intros l0; induction l0; cbn; f_equal).
  by rewrite !Et in E.
Qed.

Lemma capture_region e free : region_may (add_fails N) (fun k => s_type k <> UdpDgram) captured_own (capture e free).
Proof.
  intros k s n L HP En Hn. assert (kind_of (s_type k) = Tcp) as Ek by (by destruct (s_type k)).
  assert (forall h, keeps_kinds n (fst (tcp_listen h e (tcp_abort h n)))) as Kr.
  { intros h. eapply keeps_trans; [apply abort_kind|apply listen_kind]. }
  unfold capture, with_net. rewrite En, (own_get _ _ _ _ Hn Ek). cbn [mbind outcome_bind].
  destruct (acceptable n (s_handle k)).
  - destruct (free <? ACCEPT_HEAP_RESERVE); [right; by eapply region_ret|].
    destruct (install_fresh_listener e n) as [[n1 h]|] eqn:Ei; cbn [mbind outcome_bind];
      [right|left; eauto using install_listener_panic]. apply (install_listener_ok _ _ _ _ _ Ei) in Hn.
    eexists _, _, _, n1. split; [reflexivity|]. split_and!; try done.
    eapply net_ok_perm; [|exact Hn]. unfold sock_own. cbn. rewrite Ek. solve_Permutation.
  - destruct (scan_backlog_ok 0 (s_backlog k) n ((s_handle k, Tcp) :: stack_own s ++ L)) as (r & -> & Hr).
    { eapply net_ok_perm; [|exact Hn]. unfold sock_own. cbn. rewrite Ek. solve_Permutation. }
    cbn [mbind outcome_bind]. destruct r as [[i h]|]; [|right; by eapply region_ret].
    destruct (free <? ACCEPT_HEAP_RESERVE); [right; by eapply region_ret|].
    destruct Hr as (d & -> & Hd & _). cbn [Nat.add].
    destruct (install_fresh_listener e n) as [[n1 h']|] eqn:Ei; cbn [mbind outcome_bind];
      [right|left; eauto using install_listener_panic]. apply (install_listener_ok _ _ _ _ _ Ei) in Hn.
    eexists _, _, _, n1. split; [reflexivity|]. split_and!; try done.
    eapply net_ok_perm; [|exact Hn]. unfold sock_own. cbn [captured_own s_backlog set_pool s_handle s_type].
    change (stack_own (set_net n1 s)) with (stack_own s). rewrite Ek.
    pose proof (tcps_insert _ _ _ h' Hd) as E.
    transitivity ((s_handle k, Tcp) :: ((h, Tcp) :: tcps (<[d:=h']> (s_backlog k))) ++ stack_own s ++ L);
      [solve_Permutation|]. rewrite E. solve_Permutation.
Qed.

Lemma attempt_ok a free s L :
  ok s L -> (forall k, lookup_fd (a_fd a) s = Some k -> s_type k <> UdpDgram) ->
  accept_attempt a free s = Panic /\ add_fails N \/
  exists s' r, accept_attempt a free s = Ret (s', r) /\ call_ok s s' (captured_own r ++ L).
Proof.
  intros Hok Hudp. unfold accept_attempt.
  destruct (with_socket_may _ _ _ _ (a_fd a) s L (capture_region (listen_endpoint (a_addr a) (a_port a)) free) Hok Hudp)
    as [[-> ?]|(s' & r & -> & Hfds & Hnext & Hrec & Hok')]; [by left|right].
  cbn [mbind outcome_bind]. exists s', (default None r). split; [done|]. split_and!; try done. by destruct r.
Qed.

Lemma attempt_panics a free s L k :
  ok s L -> lookup_fd (a_fd a) s = Some k -> s_type k = UdpDgram -> accept_attempt a free s = Panic.
Proof.
  intros Hok Hk Ht. unfold accept_attempt. rewrite (with_socket_panic _ _ _ k); [done..|].
  destruct (lookup_fd_own _ _ _ _ Hok Hk) as (n & L' & En & Hn).
  unfold capture, with_net. rewrite En. unfold sock_own in Hn. rewrite Ht in Hn.
  by rewrite (net_ok_get_other _ _ _ Tcp _ Hn).
Qed.

(** ** The other calls *)
Lemma getpeername_ok fd a l (m : M) s L :
  ok s L -> (forall k, lookup_fd fd s = Some k -> s_type k <> UdpDgram) ->
  exists r, sys_getpeername fd a l m s = Ret r.
Proof.
  intros Hok Hudp. unfold sys_getpeername.
  in_region (fun k => s_type k <> UdpDgram) (fun _ : option ip_ep => @nil (Z * SkKind)) Hok; [|done|].
  - assert (kind_of (s_type k) = Tcp) as Ek by (by destruct (s_type k)).
    unfold with_net. rewrite En, (own_get _ _ _ _ Hn Ek). cbn [mbind outcome_bind]. by unchanged.
  - destruct r as [[ep|]|]; by eexists.
Qed.

Lemma getpeername_panics fd a l (m : M) s L k :
  ok s L -> lookup_fd fd s = Some k -> s_type k = UdpDgram -> sys_getpeername fd a l m s = Panic.
Proof.
  intros Hok Hk Ht. unfold sys_getpeername. rewrite (with_socket_panic _ _ _ k); [done..|].
  destruct (lookup_fd_own _ _ _ _ Hok Hk) as (n & L' & En & Hn).
  unfold with_net. rewrite En. unfold sock_own in Hn. rewrite Ht in Hn.
  by rewrite (net_ok_get_other _ _ _ Tcp _ Hn).
Qed.

Lemma any_active_ok l n L : net_ok n (tcps l ++ L) -> exists b, any_active l n = Ret b.
Proof.
  induction l as [|h l IH] in L |- *; intros Hn; cbn [any_active]; [by eexists|].
  cbn in Hn. rewrite (net_ok_get _ _ _ _ Hn). cbn [mbind outcome_bind]. destruct (tcp_is_active n h); [by eexists|].
  apply (IH ((h, Tcp) :: L)). eapply net_ok_perm; [|exact Hn]. solve_Permutation.
Qed.

Lemma prefix_writable (m : M) a k d :
  wf m -> 0 <= a -> 0 <= k -> is_Some (um_in m a k) -> len d <= k -> is_Some (um_out m a d).
Proof.
  intros Hwf Ha Hk Hin Hd. apply (um_out_in m a d Hwf Ha). eapply um_in_prefix; try done. unfold len in *. lia.
Qed.

Lemma stack_own_same (s s' : socks N) :
  frame s s' -> CLOSING_HANDLES s' = CLOSING_HANDLES s -> stack_own s' = stack_own s.
Proof. intros (_ & _ & _ & Hd) Hc. unfold stack_own. by rewrite Hc, Hd. Qed.
Lemma frame_trans (s1 s2 s3 : socks N) : frame s1 s2 -> frame s2 s3 -> frame s1 s3.
Proof. unfold frame. intuition congruence. Qed.

Lemma send_datagram_ok k ep buf len_ (m : M) s n L :
  s_type k = UdpDgram -> NET_STATE s = Some n -> net_ok n (sock_own k ++ L) ->
  exists s' r n', send_datagram k ep buf len_ m s = Ret (s', r) /\ frame s s' /\
    CLOSING_HANDLES s' = CLOSING_HANDLES s /\ NET_STATE s' = Some n' /\ keeps_kinds n n'.
Proof.
  intros Ht En Hn. unfold send_datagram, with_net. rewrite En, (own_get _ _ _ Udp Hn) by (by rewrite Ht).
  cbn [mbind outcome_bind]. destruct (um_in m buf len_) as [d|]; [|by exists s, (- EFAULT), n].
  pose proof (udp_send_kind (s_handle k) d ep n) as K. destruct (udp_send _ _ _ _) as [n2 r]. by eexists _, _, n2.
Qed.

(** The datagram, then the poll that flushes it. *)
Lemma udp_send_region t t' k s n L buf len_ ep (m : M) :
  s_type k = UdpDgram -> NET_STATE s = Some n -> net_ok n (sock_own k ++ stack_own s ++ L) ->
  let f :=
    '(k, s) ← ensure_bound k s;
    '(s, r) ← send_datagram k ep buf len_ m s;
    s ← poll t t' s;
    Ret (k, s, r) in
  f = Panic /\ poll_fails N \/
  exists k' s' r n', f = Ret (k', s', r) /\ frame s s' /\ s_fd k' = s_fd k /\
    NET_STATE s' = Some n' /\ net_ok n' ([] ++ sock_own k' ++ stack_own s' ++ L).
Proof.
  intros Ht En Hn f. subst f.
  destruct (ensure_bound_ok k s n _ Ht En Hn) as (k1 & s1 & n1 & -> & F & Hc & Hfd & Ho & Ht1 & Hh & En1 & K).
  cbn [mbind outcome_bind]. apply (net_ok_keeps _ _ _ K) in Hn. rewrite <- Ho, <- (stack_own_same _ _ F Hc) in Hn.
  rewrite Ht in Ht1.
  destruct (send_datagram_ok k1 ep buf len_ m s1 n1 _ Ht1 En1 Hn) as (s2 & r & n2 & -> & F2 & Hc2 & En2 & K2).
  cbn [mbind outcome_bind]. apply (net_ok_keeps _ _ _ K2) in Hn. rewrite <- (stack_own_same _ _ F2 Hc2) in Hn.
  destruct (poll_net_ok t t' s2 n2 (sock_own k1 ++ L) En2) as [[-> ?]|(s3 & n3 & -> & F3 & En3 & Hn3)]; [|by left|right].
  { eapply net_ok_perm; [|exact Hn]. solve_Permutation. }
  eexists _, _, _, n3. split; [reflexivity|]. split_and!; try done.
  - eauto using frame_trans.
  - eapply net_ok_perm; [|exact Hn3]. solve_Permutation.
Qed.

Lemma getsockopt_ok fd level optname optval optlen (m : M) s L :
  ok s L -> exists m' s' r, sys_getsockopt fd level optname optval optlen m s = Ret (m', s', r) /\ call_ok s s' L.
Proof.
  intros Hok. unfold sys_getsockopt. destruct (negb _); [by eexists _, _, _|].
  destruct (_ || _); [by eexists _, _, _|].
  in_region (fun _ : Socket => True) (fun _ : Z => @nil (Z * SkKind)) Hok; [|done|].
  - destruct (bool_decide (s_type k = TcpStream) && s_connecting k) eqn:Eb; [|by unchanged].
    apply andb_true_iff in Eb as [Et _]. apply bool_decide_eq_true in Et.
    unfold with_net. rewrite En, (own_get _ _ _ Tcp Hn) by (by rewrite Et). cbn [mbind outcome_bind].
    destruct (tcp_state n (s_handle k)); by unchanged.
  - assert (call_ok s s' L) as Hc by (split_and!; try done; by destruct r).
    destruct (um_in m optlen 4) as [lb|]; [|by eexists _, _, _].
    destruct (if _ && _ then _ else _) as [val width]. destruct (_ <? _); [by eexists _, _, _|].
    destruct (um_out _ _ _) as [m1|]; [|by eexists _, _, _]. destruct (um_out _ _ _); by eexists _, _, _.
Qed.

Lemma sendto_ok t t' fd buf len_ dest (m : M) s L :
  ok s L -> sys_sendto t t' fd buf len_ dest m s = Panic /\ poll_fails N \/
    exists s' r, sys_sendto t t' fd buf len_ dest m s = Ret (s', r) /\ call_ok s s' L.
Proof.
  intros Hok. unfold sys_sendto.
  in_region_may (poll_fails N) (fun _ : Socket => True) (fun _ : Z => @nil (Z * SkKind)) Hok; [|done|right; region_end].
  destruct (s_type k) eqn:Et; [| |].
  - unfold with_net. rewrite En, (own_get _ _ _ Tcp Hn) by (by rewrite Et). cbn [mbind outcome_bind].
    destruct (negb _); [right; by unchanged|]. destruct (um_in m buf len_) as [d|]; [|right; by unchanged].
    pose proof (tcp_send_kind (s_handle k) d n) as K. destruct (tcp_send _ _ _) as [n1 r1].
    right. by apply (region_ret _ k k s0 _ n n1).
  - right. by unchanged.
  - destruct (match _ with Some e => Some e | None => s_peer k end) as [ep|]; [|right; by unchanged].
    by apply (udp_send_region t t' k s0 n L0 buf len_ ep m).
Qed.

Lemma recv_ok fd buf len_ src al (m : M) s L :
  ok s L -> wf m -> 0 <= buf -> 0 <= len_ ->
  exists m' s' r, recv_turn fd buf len_ src al m s = Ret (m', s', r) /\ call_ok s s' L.
Proof.
  intros Hok Hwf Hb Hl. unfold recv_turn.
  in_region (fun _ : Socket => True) (fun _ : M * Z => @nil (Z * SkKind)) Hok; [|done|].
  - destruct (s_type k) eqn:Et.
    + unfold with_net. rewrite En, (own_get _ _ _ Tcp Hn) by (by rewrite Et). cbn [mbind outcome_bind].
      destruct (negb _); [by unchanged|]. destruct (um_in m buf len_) as [d0|] eqn:Ein; [|by unchanged].
      pose proof (tcp_recv_kind (s_handle k) len_ n) as K. pose proof (tcp_recv_len (s_handle k) len_ n) as Hlen.
      destruct (tcp_recv _ _ _) as [n1 [d|]]; cbn [fst snd] in K, Hlen; [|by apply (region_ret _ k k s0 _ n n1)].
      destruct (prefix_writable m buf len_ d) as [m1 ->]; [done..|by eexists|by apply Hlen|].
      by apply (region_ret _ k k s0 _ n n1).
    + by unchanged.
    + unfold with_net. rewrite En, (own_get _ _ _ Udp Hn) by (by rewrite Et). cbn [mbind outcome_bind].
      destruct (negb _); [by unchanged|].
      pose proof (udp_recv_kind (s_handle k) n) as K. destruct (udp_recv _ _) as [n1 [[d ep]|]]; cbn [fst] in K;
        [destruct (um_out m buf _)|]; by apply (region_ret _ k k s0 _ n n1).
  - destruct r as [[m1 r]|]; eexists _, _, _; (split; [reflexivity|]); by split_and!.
Qed.

Lemma poll_events_ok k n L :
  net_ok n (sock_own k ++ L) ->
  exists k' ev, poll_events k n = Ret (k', ev) /\ s_fd k' = s_fd k /\ sock_own k' = sock_own k.
Proof.
  intros Hn. unfold poll_events. destruct (s_type k) eqn:Et.
  - rewrite (own_get _ _ _ Tcp Hn) by (by rewrite Et). cbn [mbind outcome_bind].
    destruct (s_connecting k); [destruct (tcp_state n (s_handle k))|]; by eexists _, _.
  - destruct (any_active_ok (s_handle k :: s_backlog k) n L) as [b ->].
    { unfold sock_own in Hn. by rewrite Et in Hn. }
    by eexists _, _.
  - rewrite (own_get _ _ _ Udp Hn) by (by rewrite Et). by eexists _, _.
Qed.

Lemma poll_socket_ok fd s L : ok s L -> exists s' r, poll_socket fd s = Ret (s', r) /\ call_ok s s' L.
Proof.
  intros Hok. unfold poll_socket.
  in_region (fun _ : Socket => True) (fun _ : Z => @nil (Z * SkKind)) Hok; [|done|region_end].
  unfold with_net. rewrite En. destruct (poll_events_ok k n _ Hn) as (k' & ev & -> & Hfd & Ho).
  cbn [mbind outcome_bind]. by apply (region_ret _ k k' s0 s0 n n).
Qed.

Lemma poll_may t t' s L :
  ok s L -> poll t t' s = Panic /\ poll_fails N \/ exists s', poll t t' s = Ret s' /\ call_ok s s' L.
Proof.
  intros Hok. destruct (NET_STATE s) as [n|] eqn:En; cycle 1.
  { right. exists s. split; [unfold poll; by rewrite En|done]. }
  unfold ok in Hok. rewrite En in Hok.
  destruct (poll_net_ok t t' s n (tbl_own s ++ L) En) as [[-> ?]|(s' & n' & -> & (F1 & F2 & F3 & F4) & En' & Hn')];
    [|by left|right].
  { eapply net_ok_perm; [|exact Hok]. solve_Permutation. }
  exists s'. split; [done|]. unfold call_ok, ok, tbl_own in *. rewrite F1, En'. split_and!; try done.
  eapply net_ok_perm; [|exact Hn']. solve_Permutation.
Qed.

Lemma poll_call t t' s L s' : ok s L -> poll t t' s = Ret s' -> call_ok s s' L.
Proof. intros Hok E. destruct (poll_may t t' s L Hok) as [[? _]|(s1 & E1 & Hc)]; congruence. Qed.

Lemma poll_ok `{!StackReturns N} t t' s L : ok s L -> exists s', poll t t' s = Ret s' /\ call_ok s s' L.
Proof. intros Hok. destruct (poll_may t t' s L Hok) as [[_ Hf]|?]; [by apply polls_return in Hf|done]. Qed.

(** ** socket, accept, close *)

#[local] Instance ok_perm s : Proper ((≡ₚ) ==> iff) (ok (N := N) s).
Proof.
  intros L L' E. unfold ok. destruct (NET_STATE s); [by rewrite E|].
  split; intros Hnil; apply app_nil in Hnil as [-> [-> ->]%app_nil]; cbn;
    [by apply Permutation_nil_l in E|by apply Permutation_nil_r in E].
Qed.

Lemma socket_add_ok d ty s L :
  ok s L -> socket_add d ty s = Panic /\ add_fails N \/ exists s' r, socket_add d ty s = Ret (s', r) /\
    call_ok s s' (match r with Ok (t, h, _) => [(h, kind_of t)] | Err _ => [] end ++ L).
Proof.
  intros Hok. unfold socket_add. destruct (_ && _); [right; by eexists _, _|]. cbn zeta.
  destruct (_ && _); [right; by eexists _, _|].
  destruct (NET_STATE s) as [n|] eqn:En; [|right; by eexists _, _].
  unfold ok in Hok. rewrite En in Hok.
  destruct (Z.land ty 15 =? 1).
  - destruct (add_tcp 8192 8192 n) as [[n1 h]|] eqn:Ea; [right|left; split; [done|exists n; left; eauto]].
    cbn [mbind outcome_bind]. eexists _, _. split; [reflexivity|]. split_and!; try done.
    apply (net_ok_fresh n n1 h Tcp) in Hok; [|by eapply add_tcp_fresh|intros h'; by eapply add_tcp_kind].
    unfold ok. cbn. eapply net_ok_perm; [|exact Hok].
    change (tbl_own (set_net n1 s)) with (tbl_own s). change (stack_own (set_net n1 s)) with (stack_own s).
    solve_Permutation.
  - destruct (add_udp n) as [[n1 h]|] eqn:Ea; [right|left; split; [done|exists n; by right]].
    cbn [mbind outcome_bind]. eexists _, _. split; [reflexivity|]. split_and!; try done.
    apply (net_ok_fresh n n1 h Udp) in Hok; [|by eapply add_udp_fresh|intros h'; by eapply add_udp_kind].
    unfold ok. cbn. eapply net_ok_perm; [|exact Hok].
    change (tbl_own (set_net n1 s)) with (tbl_own s). change (stack_own (set_net n1 s)) with (stack_own s).
    solve_Permutation.
Qed.

Lemma alloc_fd_ok (s s' : socks N) fd X :
  alloc_fd s = (s', fd) -> SOCK_FD_BASE <= NEXT_SOCK_FD s < i32_max ->
  X ++ RECYCLED_FDS s ≡ₚ seqZ SOCK_FD_BASE (NEXT_SOCK_FD s - SOCK_FD_BASE) ->
  SOCKETS s' = SOCKETS s /\ dhcp_handle s' = dhcp_handle s /\
  CLOSING_HANDLES s' = CLOSING_HANDLES s /\ NET_STATE s' = NET_STATE s /\ SOCK_FD_BASE <= NEXT_SOCK_FD s' /\
  fd :: X ++ RECYCLED_FDS s' ≡ₚ seqZ SOCK_FD_BASE (NEXT_SOCK_FD s' - SOCK_FD_BASE) /\
  (NEXT_SOCK_FD s' = NEXT_SOCK_FD s \/ RECYCLED_FDS s' = []).
Proof.
  unfold alloc_fd, i32_max. intros E Hn HX. destruct (rev (RECYCLED_FDS s)) as [|x r] eqn:Er.
  - injection E as <- <-. apply (f_equal (@rev Z)) in Er. rewrite rev_involutive in Er. cbn in Er.
    cbn [RECYCLED_FDS NEXT_SOCK_FD]. rewrite Er in *. rewrite app_nil_r in *.
    assert (i32 (NEXT_SOCK_FD s + 1) = NEXT_SOCK_FD s + 1) as ->.
    { unfold i32, signed, wrap. rewrite Z.mod_small by (unfold SOCK_FD_BASE in Hn; lia).
      change (2 ^ (32 - 1)) with (2 ^ 31). destruct (Z.ltb_spec (NEXT_SOCK_FD s + 1) (2 ^ 31)); lia. }
    split_and!; try done; [lia| |by right]. rewrite HX.
    replace (NEXT_SOCK_FD s + 1 - SOCK_FD_BASE) with ((NEXT_SOCK_FD s - SOCK_FD_BASE) + 1) by lia.
    rewrite seqZ_app, (seqZ_cons _ 1), (seqZ_nil _ (Z.pred 1)) by lia.
    replace (SOCK_FD_BASE + (NEXT_SOCK_FD s - SOCK_FD_BASE)) with (NEXT_SOCK_FD s) by lia. solve_Permutation.
  - injection E as <- <-. apply (f_equal (@rev Z)) in Er. rewrite rev_involutive in Er. cbn [rev] in Er.
    rewrite Er in HX. cbn. split_and!; try done; [lia| |by left]. rewrite <- HX. solve_Permutation.
Qed.

Lemma close_net_ok t k s L :
  ok s (sock_own k ++ L) -> exists s', close_net t k s = Ret s' /\ SOCKETS s' = SOCKETS s /\ call_ok s s' L.
Proof.
  unfold ok at 1. destruct (NET_STATE s) as [n|] eqn:En; cycle 1.
  { intros Hok. by destruct (tbl_own s), (stack_own s). }
  intros Hn. assert (net_ok n (sock_own k ++ tbl_own s ++ stack_own s ++ L)) as Hn'.
  { eapply net_ok_perm; [|exact Hn]. solve_Permutation. }
  unfold close_net, with_net. rewrite En. destruct (s_type k) eqn:Et.
  - rewrite (own_get _ _ _ Tcp Hn') by (by rewrite Et). cbn [mbind outcome_bind]. eexists. split; [reflexivity|].
    unfold call_ok. split_and!; try done. unfold ok. cbn. apply (net_ok_app_r _ (tcps (s_backlog k))).
    eapply net_ok_keeps; [apply tcp_close_kind|]. eapply net_ok_perm; [|exact Hn'].
    unfold sock_own. rewrite Et. unfold stack_own, tbl_own, tcps. cbn. rewrite !fmap_app. cbn. solve_Permutation.
  - destruct (drop_pool_ok (s_handle k :: s_backlog k) n (tbl_own s ++ stack_own s ++ L)) as (n' & -> & Hn2).
    { unfold sock_own in Hn'. by rewrite Et in Hn'. }
    cbn [mbind outcome_bind]. by eexists.
  - rewrite (own_get _ _ _ Udp Hn') by (by rewrite Et). cbn [mbind outcome_bind]. eexists. split; [reflexivity|].
    unfold call_ok. split_and!; try done. unfold ok. cbn. apply (net_ok_app_r _ (tcps (s_backlog k))).
    eapply net_ok_remove, net_ok_keeps; [apply udp_close_kind|]. unfold sock_own in Hn'. by rewrite Et in Hn'.
Qed.

(** ** Any interleaving *)

Definition udp_at (fd : Z) (s : socks N) : bool :=
  match lookup_fd fd s with Some k => bool_decide (s_type k = UdpDgram) | None => false end.

(** The regions that panic. *)
Definition panics (o : op M) (st : state N) : bool :=
  match o with
  | OListen fd | OGetpeername fd _ _ _ => udp_at fd (st_socks st)
  | OAttempt i _ =>
      match st_flights st !! i with Some (FAccept a) => udp_at (a_fd a) (st_socks st) | _ => false end
  | _ => false
  end.
(** The regions that make stack sockets, and those that poll, can fail in the
    stack or in the driver. *)
Definition stack_fails (o : op M) : Prop :=
  match o with
  | OSocket _ _ | OListen _ | OAttempt _ _ => add_fails N
  | OPoll _ _ | OSend _ _ _ _ _ _ _ => poll_fails N
  | _ => False
  end.
(** A receive starts from a well-formed machine, with unsigned arguments. *)
Definition op_ok (o : op M) : Prop :=
  match o with ORecv _ buf len_ _ _ m => wf m /\ 0 <= buf /\ 0 <= len_ | _ => True end.

(** A step of the tables [s]: a new descriptor number is made only when no
    closed one is free. *)
Definition stepped (s : socks N) (st' : state N) : Prop :=
  inv st' /\ (NEXT_SOCK_FD (st_socks st') = NEXT_SOCK_FD s \/ RECYCLED_FDS (st_socks st') = []).

Lemma stepped_same st : inv st -> stepped (st_socks st) st.
Proof. intros Hi. split; [done|by left]. Qed.

Lemma inv_call s s' fl fl' :
  inv (mkState s fl) -> call_ok s s' (fl' ≫= flight_own) -> fl' ≫= flight_fd ≡ₚ fl ≫= flight_fd ->
  stepped s (mkState s' fl').
Proof.
  intros (_ & Hb & Hf) (E1 & E2 & E3 & Hok) Hfl. split; [|by left]. split; [done|]. unfold fds in *. cbn in *.
  by rewrite E1, E2, E3, Hfl.
Qed.

Lemma udp_at_false fd s : udp_at fd s = false -> forall k, lookup_fd fd s = Some k -> s_type k <> UdpDgram.
Proof. unfold udp_at. intros E k Hk. rewrite Hk in E. by apply bool_decide_eq_false in E. Qed.
Lemma udp_at_true fd s : udp_at fd s = true -> exists k, lookup_fd fd s = Some k /\ s_type k = UdpDgram.
Proof.
  unfold udp_at. destruct (lookup_fd fd s) as [k|]; [|done]. intros E%bool_decide_eq_true. by exists k.
Qed.

Lemma call_ok_perm s s' L L' : L ≡ₚ L' -> call_ok s s' L -> call_ok s s' L'.
Proof. intros E (? & ? & ? & Hok). rewrite E in Hok. by split_and!. Qed.

Lemma attempt_inv i a free s fl :
  inv (mkState s fl) -> fl !! i = Some (FAccept a) -> udp_at (a_fd a) s = false ->
  accept_attempt a free s = Panic /\ add_fails N \/
  exists s' r, accept_attempt a free s = Ret (s', r) /\
    stepped s (mkState s' (match r with
                     | Some (h, _) => <[i := FCaptured a h]> fl
                     | None => if a_nonblock a then delete i fl else fl
                     end)).
Proof.
  intros Hi Hfl Hu. pose proof Hi as (Hok & _).
  destruct (attempt_ok a free s _ Hok (udp_at_false _ _ Hu)) as [[-> ?]|(s' & r & -> & Hc)]; [by left|right].
  exists s', r. split; [done|].
  destruct r as [[h rm]|]; [|destruct (a_nonblock a); [|by eapply inv_call]].
  - eapply inv_call; [exact Hi| |].
    + eapply call_ok_perm; [|exact Hc]. symmetry. apply (bind_insert_perm flight_own fl i (FAccept a) (FCaptured a h) Hfl).
    + apply (bind_insert_perm flight_fd fl i (FAccept a) (FCaptured a h) Hfl).
  - eapply inv_call; [exact Hi| |].
    + eapply call_ok_perm; [|exact Hc]. apply (bind_delete_perm flight_own fl i (FAccept a) Hfl).
    + symmetry. apply (bind_delete_perm flight_fd fl i (FAccept a) Hfl).
Qed.

Lemma alloc_inv i f k s s' fl fd :
  inv (mkState s fl) -> NEXT_SOCK_FD s < i32_max -> fl !! i = Some f -> flight_fd f = [] ->
  alloc_fd s = (s', fd) -> s_fd k = fd -> flight_own f ≡ₚ sock_own k ->
  stepped s (mkState s' (<[i := FPush k]> fl)).
Proof.
  intros (Hok & Hb & Hf) Hn Hi Hff Ea Hk Ho. unfold fds in Hf. cbn in *.
  destruct (alloc_fd_ok s s' fd ((s_fd <$> SOCKETS s) ++ (fl ≫= flight_fd)) Ea (conj Hb Hn))
    as (E1 & E2 & E3 & E4 & Hb' & Hf' & Hg).
  { rewrite <- Hf. solve_Permutation. }
  split; [|exact Hg]. split; [|split; [done|]]; cbn.
  - pose proof (bind_insert_perm flight_own fl i f (FPush k) Hi) as E. rewrite Ho in E. apply Permutation_app_inv_l in E.
    rewrite E. unfold ok, tbl_own, stack_own in *. by rewrite E1, E2, E3, E4.
  - unfold fds. cbn. rewrite E1, <- Hf'.
    pose proof (bind_insert_perm flight_fd fl i f (FPush k) Hi) as E. rewrite Hff in E. cbn in E.
    rewrite E, Hk. solve_Permutation.
Qed.

Lemma push_inv i k s fl :
  inv (mkState s fl) -> fl !! i = Some (FPush k) -> stepped s (mkState (push_socket k s) (delete i fl)).
Proof.
  intros (Hok & Hb & Hf) Hi. pose proof (bind_delete_perm flight_own fl i _ Hi) as Eo.
  pose proof (bind_delete_perm flight_fd fl i _ Hi) as Ef. cbn in *. split; [|by left]. split; [|split; [done|]].
  - cbn in *. rewrite Eo in Hok. unfold ok, tbl_own in *. cbn. rewrite bind_app. cbn. rewrite app_nil_r.
    change (stack_own (push_socket k s)) with (stack_own s).
    destruct (NET_STATE s); [eapply net_ok_perm; [|exact Hok]; solve_Permutation|].
    exfalso. by destruct (SOCKETS s ≫= sock_own), (stack_own s).
  - unfold fds in *. cbn in *. rewrite <- Hf, Ef, fmap_app. cbn. solve_Permutation.
Qed.

Lemma take_inv fd s s' r fl :
  inv (mkState s fl) -> close_take fd s = (s', r) ->
  stepped s (mkState s' (match r with Some k => fl ++ [FTaken fd k] | None => fl end)).
Proof.
  intros Hi. pose proof Hi as (Hok & Hb & Hf). unfold close_take.
  destruct (position fd (SOCKETS s)) as [i|] eqn:Ei; [|intros [= <- <-]; by apply stepped_same].
  destruct (position_Some _ _ _ Ei) as (k & Hk & Efd). rewrite Hk. intros [= <- <-].
  pose proof (bind_delete_perm sock_own _ i k Hk) as Eo. cbn in *. split; [|by left]. split; [|split; [done|]]; cbn.
  - rewrite bind_app. cbn. rewrite app_nil_r. unfold ok, tbl_own in *. cbn.
    change (stack_own (set_sockets _ s)) with (stack_own s). destruct (NET_STATE s).
    + eapply net_ok_perm; [|exact Hok]. rewrite Eo. solve_Permutation.
    + apply app_nil in Hok as [Hn _]. rewrite Hn in Eo. by apply Permutation_nil_l in Eo.
  - unfold fds in *. cbn in *. rewrite <- Hf, bind_app. cbn. rewrite (delete_Permutation _ _ _ Hk) at 2. cbn.
    rewrite Efd. solve_Permutation.
Qed.

Lemma recycle_inv i fd k s fl :
  inv (mkState s fl) -> fl !! i = Some (FTaken fd k) ->
  stepped s (mkState (recycle_fd fd s) (<[i := FTeardown k]> fl)).
Proof.
  intros (Hok & Hb & Hf) Hi. cbn in *. pose proof (bind_insert_perm flight_own fl i _ (FTeardown k) Hi) as Eo.
  pose proof (bind_insert_perm flight_fd fl i _ (FTeardown k) Hi) as Ef. split; [|by left].
  split; [|split; [done|]]; cbn.
  - apply Permutation_app_inv_l in Eo. by rewrite Eo.
  - unfold fds in *. cbn in *. rewrite <- Hf, <- Ef. solve_Permutation.
Qed.

Lemma teardown_inv i t k s fl :
  inv (mkState s fl) -> fl !! i = Some (FTeardown k) ->
  exists s', close_net t k s = Ret s' /\ stepped s (mkState s' (delete i fl)).
Proof.
  intros Hinv Hi. pose proof Hinv as (Hok & _). cbn in Hok. rewrite (bind_delete_perm flight_own fl i _ Hi) in Hok.
  destruct (close_net_ok t k s _ Hok) as (s' & -> & _ & Hc). exists s'. split; [done|].
  eapply inv_call; [exact Hinv|exact Hc|]. symmetry. apply (bind_delete_perm flight_fd fl i _ Hi).
Qed.

(** Ends a step whose call was shown [call_ok]. *)
Ltac by_call := eexists; split; [reflexivity|]; eapply inv_call; [eassumption|eassumption|done].

Lemma exec_total o st :
  inv st -> op_ok o -> NEXT_SOCK_FD (st_socks st) < i32_max ->
  if panics o st then exec o st = Panic else
  exec o st = Panic /\ stack_fails o \/ exists st', exec o st = Ret st' /\ stepped (st_socks st) st'.
Proof.
  destruct st as [s fl]. intros Hi Ho Hn. pose proof Hi as (Hok & _). pose proof (stepped_same _ Hi) as Hs. cbn in Hok, Hn.
  destruct o as [d ty|fd flags|i free|i|i|fd|i|i t|t t'|fd a m|fd a m|fd|fd a l m|fd lv on ov ol m
    |t t' fd b l d m|fd b l sa al m|fd|fd nb]; cbn [panics exec st_socks st_flights stack_fails].
  - destruct (socket_add_ok d ty s _ Hok) as [[-> ?]|(s' & r & -> & Hc)]; [by left|right]. cbn [mbind outcome_bind]. eexists. split; [reflexivity|].
    destruct r as [[[ty' h] nb]|]; [|by eapply inv_call].
    eapply inv_call; [exact Hi| |rewrite bind_app; cbn; by rewrite app_nil_r].
    eapply call_ok_perm; [|exact Hc]. rewrite bind_app. cbn. solve_Permutation.
  - right. destruct (snapshot_ok fd flags s _ Hok) as [r ->]. cbn [mbind outcome_bind]. eexists. split; [reflexivity|].
    destruct r as [a|]; [|done]. eapply inv_call; [exact Hi| |rewrite bind_app; cbn; by rewrite app_nil_r].
    split_and!; try done. rewrite bind_app. cbn. by rewrite app_nil_r.
  - destruct (fl !! i) as [[| a | | | |]|] eqn:Hfl; try (right; by eexists).
    destruct (udp_at (a_fd a) s) eqn:Hu.
    + destruct (udp_at_true _ _ Hu) as (k & Hk & Ht). by rewrite (attempt_panics a free s _ k Hok Hk Ht).
    + destruct (attempt_inv i a free s fl Hi Hfl Hu) as [[-> ?]|(s' & r & -> & Hi')]; [by left|right]. cbn [mbind outcome_bind]. by eexists.
  - destruct (fl !! i) as [[ty h nb| |a h| | |]|] eqn:Hfl; try (right; by eexists).
    + right. destruct (alloc_fd s) as [s' fd] eqn:Ea. eexists. split; [reflexivity|]. by eapply alloc_inv.
    + right. destruct (alloc_fd s) as [s' fd] eqn:Ea. eexists. split; [reflexivity|]. by eapply alloc_inv.
  - destruct (fl !! i) as [[| | | k | |]|] eqn:Hfl; try (right; by eexists).
    right. eexists. split; [reflexivity|]. by apply push_inv.
  - right. destruct (close_take fd s) as [s' r] eqn:Et. eexists. split; [reflexivity|]. by eapply take_inv.
  - destruct (fl !! i) as [[| | | |fd k|]|] eqn:Hfl; try (right; by eexists).
    right. eexists. split; [reflexivity|]. by apply recycle_inv.
  - destruct (fl !! i) as [[| | | | |k]|] eqn:Hfl; try (right; by eexists).
    right. destruct (teardown_inv i t k s fl Hi Hfl) as (s' & -> & Hi'). cbn [mbind outcome_bind]. by eexists.
  - destruct (poll_may t t' s _ Hok) as [[-> ?]|(s' & -> & Hc)]; [by left|right]. cbn [mbind outcome_bind]. by_call.
  - right. destruct (connect_ok fd a m s _ Hok) as (s' & r & -> & Hc). cbn [mbind outcome_bind]. by_call.
  - right. destruct (bind_ok fd a m s _ Hok) as (s' & r & -> & Hc). cbn [mbind outcome_bind]. by_call.
  - destruct (udp_at fd s) eqn:Hu.
    + destruct (udp_at_true _ _ Hu) as (k & Hk & Ht). by rewrite (listen_panics fd s _ k Hok Hk Ht).
    + destruct (listen_ok fd s _ Hok (udp_at_false _ _ Hu)) as [[-> ?]|(s' & r & -> & Hc)]; [by left|right]. cbn [mbind outcome_bind]. by_call.
  - destruct (udp_at fd s) eqn:Hu.
    + destruct (udp_at_true _ _ Hu) as (k & Hk & Ht). by rewrite (getpeername_panics fd a l m s _ k Hok Hk Ht).
    + right. destruct (getpeername_ok fd a l m s _ Hok (udp_at_false _ _ Hu)) as (r & ->). by eexists.
  - right. destruct (getsockopt_ok fd lv on ov ol m s _ Hok) as (m' & s' & r & -> & Hc). cbn [mbind outcome_bind]. by_call.
  - destruct (sendto_ok t t' fd b l d m s _ Hok) as [[-> ?]|(s' & r & -> & Hc)]; [by left|right]. cbn [mbind outcome_bind]. by_call.
  - right. destruct Ho as (Hw & Hb & Hl).
    destruct (recv_ok fd b l sa al m s _ Hok Hw Hb Hl) as (m' & s' & r & -> & Hc). cbn [mbind outcome_bind]. by_call.
  - right. destruct (poll_socket_ok fd s _ Hok) as (s' & r & -> & Hc). cbn [mbind outcome_bind]. by_call.
  - right. destruct (set_nonblock_ok fd nb s _ Hok) as (s' & -> & Hc). cbn [mbind outcome_bind]. by_call.
Qed.

(** ** The reaper *)
Lemma swap_remove_take {A} i (l : list A) x : l !! i = Some x -> take i (vec_swap_remove i l) = take i l.
Proof.
  intros Hi. pose proof (lookup_lt_Some _ _ _ Hi) as Hl. unfold vec_swap_remove.
  destruct (last l) as [y|] eqn:El; [|done]. destruct (_ =? _)%nat eqn:En; [by rewrite take_take, Nat.min_id|].
  apply Nat.eqb_neq in En. rewrite take_insert_ge by lia. apply last_Some in El as [l' ->].
  rewrite length_app in *. cbn in *. rewrite removelast_last, take_app_le by lia. done.
Qed.
Lemma swap_remove_drop {A} i (l : list A) x : l !! i = Some x -> drop i l ≡ₚ x :: drop i (vec_swap_remove i l).
Proof.
  intros Hi. apply (Permutation_app_inv_l (take i l)). rewrite take_drop.
  rewrite <- (swap_remove_take i l x Hi). etrans; [apply (vec_swap_remove_perm i l x Hi)|].
  rewrite <- (take_drop i (vec_swap_remove i l)) at 1. solve_Permutation.
Qed.
Lemma filter_ext {A} (P Q : A -> Prop) `{!forall x, Decision (P x)} `{!forall x, Decision (Q x)} (l : list A) :
  (forall x, x ∈ l -> P x <-> Q x) -> filter P l = filter Q l.
Proof.
  induction l as [|x l IH]; intros E; [done|]. rewrite !filter_cons, IH by set_solver.
  pose proof (E x ltac:(set_solver)). repeat case_decide; tauto.
Qed.

Lemma gc_end i t (l : list (Z * Z)) n :
  (length l <= i)%nat ->
  l ≡ₚ take i l ++ filter (fun x => ~ reapable t n x) (drop i l) /\
  forall h, sk_kind n h = None /\ h ∈ (filter (reapable t n) (drop i l)).*1 \/
            sk_kind n h = sk_kind n h /\ h ∉ (filter (reapable t n) (drop i l)).*1.
Proof.
  intros Hl. rewrite drop_ge, take_ge by done. split; [cbn; by rewrite app_nil_r|].
  intros h. right. split; [done|]. cbn. by apply not_elem_of_nil.
Qed.

Lemma gc_loop_exact fuel i t l n l' n' :
  NoDup l.*1 -> (length l <= i + fuel)%nat -> gc_loop fuel i t l n = Ret (l', n') ->
  l' ≡ₚ take i l ++ filter (fun x => ~ reapable t n x) (drop i l) /\
  forall h, sk_kind n' h = None /\ h ∈ (filter (reapable t n) (drop i l)).*1 \/
            sk_kind n' h = sk_kind n h /\ h ∉ (filter (reapable t n) (drop i l)).*1.
Proof.
  revert i l n. induction fuel as [|f IH]; intros i l n Hd Hf; cbn [gc_loop].
  { intros [= <- <-]. apply gc_end. lia. }
  destruct (l !! i) as [[h t0]|] eqn:Hi; cycle 1.
  { apply lookup_ge_None in Hi. intros [= <- <-]. by apply gc_end. }
  destruct (get_sk Tcp h n) as [u|]; cbn [mbind outcome_bind]; [|done].
  rewrite (reap_test t n h t0). case_bool_decide as Hr; cycle 1.
  - destruct (negb _ && _) eqn:Es.
    { exfalso. apply Hr. apply andb_true_iff in Es as [_ Es%Z.leb_le]. unfold reapable. cbn. tauto. }
    intros E. apply IH in E as [E1 E2]; [|done|lia].
    rewrite (drop_S l (h, t0) i Hi), filter_cons_True, filter_cons_False by naive_solver.
    rewrite (take_S_r l i _ Hi), <- (assoc_L (++)) in E1. done.
  - set (n1 := if negb _ && _ then tcp_abort h n else n). intros E.
    pose proof (vec_swap_remove_perm i l _ Hi) as Hp. pose proof Hd as Hd'. rewrite Hp in Hd'. cbn in Hd'.
    apply NoDup_cons in Hd' as [Hnh Hd'].
    apply IH in E as [E1 E2]; [|done|apply Permutation_length in Hp; cbn in Hp; lia].
    assert (forall y, y ∈ drop i (vec_swap_remove i l) -> reapable t (sk_remove h n1) y <-> reapable t n y) as Hy.
    { intros y Hy. apply reapable_ext. assert (y.1 <> h) as Hne.
      { intros <-. apply Hnh. apply list_elem_of_fmap_2. rewrite <- (take_drop i). set_solver. }
      rewrite state_remove by done. subst n1. destruct (negb _ && _); [|done]. by apply state_abort. }
    assert (forall h', sk_kind n1 h' = sk_kind n h') as K by (subst n1; destruct (negb _ && _); [apply abort_kind|done]).
    rewrite (swap_remove_take i l _ Hi) in E1. split.
    + rewrite E1, (swap_remove_drop i l _ Hi), filter_cons_False by naive_solver.
      f_equiv. erewrite filter_ext; [done|]. intros y Hin. by rewrite (Hy y Hin).
    + intros h'. specialize (E2 h'). rewrite remove_kind, K, (filter_ext _ _ _ Hy) in E2.
      rewrite (swap_remove_drop i l _ Hi), filter_cons_True by done. cbn.
      rewrite elem_of_cons. destruct (Z.eqb_spec h' h); naive_solver.
Qed.

(** ** Runs *)

(** The stack the kernel starts with: none, or one that has the DHCP client's
    socket when there is one. *)
Definition boots (n : option N) (dhcp : option Z) : Prop :=
  match dhcp, n with Some h, Some n => sk_kind n h = Some Dhcp | Some _, None => False | None, _ => True end.

(** The states of runs that stay in [Q]. *)
Inductive reach (Q : state N -> Prop) : state N -> Prop :=
  | reach_boot n dhcp dns : boots n dhcp -> reach Q (mkState (boot_socks n dhcp dns) [])
  | reach_exec st o st' :
      reach Q st -> op_ok o -> NEXT_SOCK_FD (st_socks st) < i32_max -> exec o st = Ret st' -> Q st' -> reach Q st'.

Lemma boot_inv n dhcp dns : boots n dhcp -> inv (mkState (boot_socks n dhcp dns) []).
Proof.
  intros Hb. split; [|split; [apply Z.le_refl|done]]. unfold ok, tbl_own, stack_own. cbn.
  destruct dhcp as [h|], n as [n|]; cbn in *; try done.
  - split; [apply NoDup_singleton|by constructor].
  - split; constructor.
Qed.

Lemma exec_stepped st o st' :
  inv st -> op_ok o -> NEXT_SOCK_FD (st_socks st) < i32_max -> exec o st = Ret st' -> stepped (st_socks st) st'.
Proof.
  intros Hi Ho Hn E. pose proof (exec_total o st Hi Ho Hn) as Ht. destruct (panics o st); [congruence|].
  destruct Ht as [[? _]|(st1 & E1 & Hs)]; congruence.
Qed.

Lemma reach_inv Q st : reach Q st -> inv st.
Proof. induction 1; [by apply boot_inv|]. by eapply exec_stepped. Qed.

(** What a call of the kernel has open: in the table, or with a call that is
    still running. *)
Definition open_fds (st : state N) : list Z := (s_fd <$> SOCKETS (st_socks st)) ++ (st_flights st ≫= flight_fd).

Lemma inv_count st :
  inv st -> NEXT_SOCK_FD (st_socks st) = SOCK_FD_BASE + len (open_fds st) + len (RECYCLED_FDS (st_socks st)).
Proof.
  intros (_ & Hb & Hf). apply Permutation_length in Hf. rewrite length_seqZ in Hf.
  unfold fds, open_fds, len in *. rewrite !length_app in *. lia.
Qed.

(** What [accept] takes from a listener's pool. *)
Definition pool (k : Socket) : list Z := s_handle k :: s_backlog k.

Lemma capture_spec e free k s n L k' s' r :
  s_type k <> UdpDgram -> NET_STATE s = Some n -> net_ok n (sock_own k ++ L) ->
  capture e free k s = Ret (k', s', r) ->
  s_type k' = s_type k /\ length (pool k') = length (pool k) /\
  match r with
  | Some (h, ep) => h ∈ pool k /\ acceptable n h = true /\ ACCEPT_HEAP_RESERVE <= free /\ ep = tcp_remote n h
  | None => free < ACCEPT_HEAP_RESERVE \/ forall h, h ∈ pool k -> acceptable n h = false
  end.
Proof.
  intros HP En Hn. assert (kind_of (s_type k) = Tcp) as Ek by (by destruct (s_type k)).
  unfold capture, with_net. rewrite En, (own_get _ _ _ _ Hn Ek). cbn [mbind outcome_bind].
  destruct (acceptable n (s_handle k)) eqn:Ea.
  - destruct (Z.ltb_spec free ACCEPT_HEAP_RESERVE).
    + intros [= <- <- <-]. by split_and!; [..|left].
    + destruct (install_fresh_listener e n) as [[n1 h]|]; [|done]. cbn [mbind outcome_bind]. intros [= <- <- <-]. split_and!; try done. by left.
  - destruct (scan_backlog_ok 0 (s_backlog k) n ((s_handle k, Tcp) :: L)) as (r0 & -> & Hr).
    { eapply net_ok_perm; [|exact Hn]. unfold sock_own. cbn. rewrite Ek. solve_Permutation. }
    cbn [mbind outcome_bind]. destruct r0 as [[i h]|].
    + destruct Hr as (d & -> & Hd & Hh). destruct (Z.ltb_spec free ACCEPT_HEAP_RESERVE).
      * intros [= <- <- <-]. by split_and!; [..|left].
      * destruct (install_fresh_listener e n) as [[n1 h']|]; [|done]. cbn [mbind outcome_bind]. intros [= <- <- <-]. unfold pool. cbn. rewrite length_insert.
        split_and!; try done. right. by eapply list_elem_of_lookup_2.
    + intros [= <- <- <-]. split_and!; try done. right. intros h [->|Hh]%elem_of_cons; [done|].
      rewrite Forall_forall in Hr. by apply Hr.
Qed.

Lemma lookup_fd_updated fd (s s' : socks N) i k k' :
  position fd (SOCKETS s) = Some i -> SOCKETS s !! i = Some k -> s_fd k' = s_fd k -> SOCKETS s' = SOCKETS s ->
  lookup_fd fd (set_sockets (<[i := k']> (SOCKETS s')) s') = Some k'.
Proof.
  intros Hp Hk Hfd Hs. unfold lookup_fd. cbn. rewrite Hs. clear Hs s'.
  revert i Hp Hk. induction (SOCKETS s) as [|x l IH]; intros i Hp Hk; [done|]. cbn [position] in Hp.
  destruct (Z.eqb_spec (s_fd x) fd) as [E|E].
  - injection Hp as <-. injection Hk as ->. cbn. by rewrite Hfd, E, Z.eqb_refl.
  - apply fmap_Some in Hp as (j & Hj & ->). cbn in Hk |- *.
    destruct (Z.eqb_spec (s_fd x) fd); [done|]. specialize (IH j Hj Hk).
    destruct (position fd (<[j:=k']> l)) as [j'|]; cbn in IH |- *; [done|done].
Qed.

Lemma capture_frame e free k (s : socks N) k' s' r :
  capture e free k s = Ret (k', s', r) -> s_fd k' = s_fd k /\ SOCKETS s' = SOCKETS s.
Proof.
  unfold capture, with_net. destruct (NET_STATE s) as [n|]; [|done].
  destruct (get_sk Tcp (s_handle k) n); cbn [mbind outcome_bind]; [|done].
  destruct (acceptable n (s_handle k)); [|destruct (scan_backlog _ _ n) as [[[i h]|]|]; cbn [mbind outcome_bind]];
    try destruct (free <? ACCEPT_HEAP_RESERVE); try destruct (install_fresh_listener e n) as [[]|]; cbn [mbind outcome_bind]; intros [=]; by subst.
Qed.

Lemma attempt_spec a free s L s' r n k :
  ok s L -> NET_STATE s = Some n -> lookup_fd (a_fd a) s = Some k -> s_type k <> UdpDgram ->
  accept_attempt a free s = Ret (s', r) ->
  exists k', lookup_fd (a_fd a) s' = Some k' /\ s_type k' = s_type k /\ length (pool k') = length (pool k) /\
  match r with
  | Some (h, ep) => h ∈ pool k /\ acceptable n h = true /\ ACCEPT_HEAP_RESERVE <= free /\ ep = tcp_remote n h
  | None => free < ACCEPT_HEAP_RESERVE \/ forall h, h ∈ pool k -> acceptable n h = false
  end.
Proof.
  intros Hok En Hk Ht. unfold accept_attempt, with_socket.
  destruct (lookup_fd_own _ _ _ _ Hok Hk) as (n0 & L' & En0 & Hn). assert (n0 = n) as -> by congruence.
  unfold lookup_fd in Hk. destruct (position (a_fd a) (SOCKETS s)) as [i|] eqn:Ep; cbn [mbind option_bind] in Hk; [|done].
  rewrite Hk. set (e := listen_endpoint _ _). destruct (capture e free k s) as [[[k' s1] r1]|] eqn:Ec; [|done].
  cbn [mbind outcome_bind]. intros [= <- <-]. exists k'.
  destruct (capture_spec e free k s n L' k' s1 r1 Ht En Hn Ec) as (H1 & H2 & H3).
  destruct (capture_frame e free k s k' s1 r1 Ec) as [Hfd Hs].
  split_and!; try done. by apply (lookup_fd_updated _ s s1 i k k').
Qed.

(** ** Theorems *)

(** Everything the kernel holds of the stack. *)
Definition own (st : state N) : list (Z * SkKind) :=
  tbl_own (st_socks st) ++ stack_own (st_socks st) ++ (st_flights st ≫= flight_own).

Lemma elem_of_delete_ne {A} (l : list A) i j x : j <> i -> l !! j = Some x -> x ∈ delete i l.
Proof.
  intros Hj Hx. destruct (decide (j < i)%nat) as [Hlt|Hge].
  - apply (list_elem_of_lookup_2 _ j). by rewrite list_lookup_delete_lt.
  - apply (list_elem_of_lookup_2 _ (pred j)). rewrite list_lookup_delete_ge by lia. by replace (S (pred j)) with j by lia.
Qed.

Lemma captured_alone a h i st :
  inv st -> st_flights st !! i = Some (FCaptured a h) ->
  h ∉ (tbl_own (st_socks st)).*1 /\
  forall j f, j <> i -> st_flights st !! j = Some f -> h ∉ (flight_own f).*1.
Proof.
  intros (Hok & _) Hi. rewrite (bind_delete_perm flight_own _ _ _ Hi) in Hok. unfold ok in Hok.
  destruct (NET_STATE (st_socks st)) as [n|]; cycle 1.
  { exfalso. by destruct (tbl_own (st_socks st)), (stack_own (st_socks st)). }
  assert (net_ok n ((h, Tcp) :: tbl_own (st_socks st) ++ stack_own (st_socks st) ++
    (delete i (st_flights st) ≫= flight_own))) as [Hd _].
  { eapply net_ok_perm; [|exact Hok]. cbn. solve_Permutation. }
  cbn in Hd. apply NoDup_cons in Hd as [Hnin _]. rewrite !fmap_app, !not_elem_of_app in Hnin.
  destruct Hnin as (H1 & _ & H2). split; [done|]. intros j f Hj Hf Hin. apply H2.
  apply list_elem_of_fmap in Hin as (x & -> & Hx). apply list_elem_of_fmap_2.
  apply list_elem_of_bind. exists f. split; [done|]. by apply (elem_of_delete_ne _ i j).
Qed.


(** C21.  In every reachable state no two descriptors are equal (in the table,
    free, or with a call in flight) and all are numbers handed out so far; and
    every stack handle held by a socket, a listener's pool, a call in flight,
    the closing list or the DHCP client has one holder and is a socket of the
    type that holder uses it as. *)
Theorem socket_ownership st :
  reach (fun _ => True) st ->
  NoDup (fds st) /\ (forall fd, fd ∈ fds st <-> SOCK_FD_BASE <= fd < NEXT_SOCK_FD (st_socks st)) /\
  match NET_STATE (st_socks st) with
  | Some n => NoDup (own st).*1 /\ forall h K, (h, K) ∈ own st -> sk_kind n h = Some K
  | None => own st = []
  end.
Proof.
  intros (Hok & Hb & Hf)%reach_inv. split_and!.
  - rewrite Hf. apply NoDup_seqZ.
  - intros fd. rewrite Hf, elem_of_seqZ. lia.
  - unfold ok in Hok. unfold own. destruct (NET_STATE (st_socks st)) as [n|]; [|done].
    destruct Hok as [Hd F]. split; [done|]. rewrite Forall_forall in F. intros h K HK. apply (F _ HK).
Qed.

(** C22.  A turn of [accept] takes a connection exactly when one of its
    listener's sockets has one and the heap reserve is free; what it takes was
    in that listener's pool, the pool keeps its size, and from then on the
    connection is in no pool, no table entry and no other call: it is handed
    out once, whatever other acceptors run. *)
Theorem accept_hands_out_once st i a free st' n k :
  reach (fun _ => True) st -> NEXT_SOCK_FD (st_socks st) < i32_max -> NET_STATE (st_socks st) = Some n ->
  st_flights st !! i = Some (FAccept a) ->
  lookup_fd (a_fd a) (st_socks st) = Some k -> s_type k = TcpListener ->
  exec (OAttempt i free : op M) st = Ret st' ->
  exists k', lookup_fd (a_fd a) (st_socks st') = Some k' /\ s_type k' = TcpListener /\
    length (pool k') = length (pool k) /\
    ((ACCEPT_HEAP_RESERVE <= free /\ exists h, h ∈ pool k /\ acceptable n h = true /\
        st_flights st' = <[i := FCaptured a h]> (st_flights st) /\
        h ∉ (tbl_own (st_socks st')).*1 /\
        forall j f, j <> i -> st_flights st' !! j = Some f -> h ∉ (flight_own f).*1)
     \/ ((free < ACCEPT_HEAP_RESERVE \/ forall h, h ∈ pool k -> acceptable n h = false) /\
         st_flights st' = if a_nonblock a then delete i (st_flights st) else st_flights st)).
Proof.
  intros Hr%reach_inv Hn En Hi Hk Ht E.
  pose proof (exec_stepped st (OAttempt i free) st' Hr I Hn E) as [Hr' _].
  pose proof Hr as (Hok & _). cbn [exec] in E. rewrite Hi in E.
  destruct (accept_attempt a free (st_socks st)) as [[s' r]|] eqn:Ea; [|done].
  cbn [mbind outcome_bind] in E. injection E as <-.
  destruct (attempt_spec a free _ _ s' r n k Hok En Hk ltac:(by rewrite Ht) Ea) as (k' & Hk' & Ht' & Hp & Hcase).
  exists k'. cbn [st_socks st_flights]. split_and!; [done|congruence|done|].
  destruct r as [[h ep]|]; [left|by right]. destruct Hcase as (Hin & Hacc & Hfree & _). split; [done|].
  exists h. destruct (captured_alone _ _ _ _ Hr' (list_lookup_insert_eq _ _ _ (lookup_lt_Some _ _ _ Hi))) as [H1 H2].
  by split_and!.
Qed.

(** The descriptor numbers of sockets stay below the base plus the largest
    number of sockets open at once, however many are opened and closed: closed
    numbers are used again before new ones are made. *)
Theorem socket_fds_bounded P st :
  reach (fun st => len (open_fds st) <= P) st -> 0 <= P ->
  forall fd, fd ∈ fds st -> SOCK_FD_BASE <= fd < SOCK_FD_BASE + P.
Proof.
  intros Hr HP fd Hfd. pose proof (reach_inv _ _ Hr) as (_ & Hb & Hf).
  rewrite Hf, elem_of_seqZ in Hfd. enough (NEXT_SOCK_FD (st_socks st) <= SOCK_FD_BASE + P) by lia.
  clear Hfd Hf Hb. induction Hr as [n dhcp dns Hb|st o st' Hr IH Ho Hn E HQ]; [cbn; lia|].
  destruct (exec_stepped st o st' (reach_inv _ _ Hr) Ho Hn E) as [Hi [->|Hrec]]; [done|].
  rewrite (inv_count _ Hi), Hrec. unfold len in *. cbn. lia.
Qed.

(** The reaper frees exactly the closing connections that are over or have
    been closing for fifteen seconds: those leave the closing list and the
    stack, and nothing else does. *)
Theorem reaper_exact t s (n : N) :
  net_ok n (tcps (CLOSING_HANDLES s).*1) ->
  exists s' n', gc_closed_handles t s n = Ret s' /\ NET_STATE s' = Some n' /\
    CLOSING_HANDLES s' ≡ₚ filter (fun x => ~ reapable t n x) (CLOSING_HANDLES s) /\
    forall h, sk_kind n' h = None /\ h ∈ (filter (reapable t n) (CLOSING_HANDLES s)).*1 \/
              sk_kind n' h = sk_kind n h /\ h ∉ (filter (reapable t n) (CLOSING_HANDLES s)).*1.
Proof.
  intros Hn. unfold gc_closed_handles.
  destruct (gc_loop_ok (length (CLOSING_HANDLES s)) 0 t (CLOSING_HANDLES s) n []) as (l' & n' & E & _).
  { by rewrite app_nil_r. }
  rewrite E. cbn [mbind outcome_bind]. eexists _, n'. split; [reflexivity|]. split; [done|].
  destruct Hn as [Hd _]. unfold tcps in Hd. rewrite <- list_fmap_compose in Hd. cbn in Hd. rewrite list_fmap_id in Hd.
  by apply gc_loop_exact in E.
Qed.

(** A blocking [accept] whose descriptor has been closed does not return for as
    long as no other thread gets the number again: its loop looks the
    descriptor up, but takes its absence for no connection yet. *)
Theorem accept_closed_spins `{!StackReturns N} turns a p l (m : M) s L :
  let closed s := ok s L /\ lookup_fd (a_fd a) s = None in
  Forall (fun tu : Z * Z * Z * (socks N -> socks N) => forall s, closed s -> closed (snd tu s)) turns ->
  closed s -> a_nonblock a = false -> exists s', accept_loop turns a p l m s = Ret (m, s', None).
Proof.
  intros closed Ht. revert s. induction Ht as [|[[[t t'] free] others] turns Ho _ IH]; intros s [Hok Hfd] Hnb;
    cbn [accept_loop]; [by eexists|].
  destruct (poll_ok t t' s L Hok) as (s1 & -> & Hfds & _ & _ & Hok1). cbn [mbind outcome_bind].
  assert (position (a_fd a) (SOCKETS s1) = None) as Hp.
  { apply position_None. apply (Forall_fmap s_fd (fun x => x <> a_fd a)). rewrite Hfds. apply Forall_fmap.
    apply position_None. unfold lookup_fd in Hfd. destruct (position (a_fd a) (SOCKETS s)) as [i|] eqn:Ei; [|done].
    destruct (position_Some _ _ _ Ei) as (k & Hk & _). cbn in Hfd. congruence. }
  unfold accept_attempt, with_socket. rewrite Hp. cbn [mbind outcome_bind default]. rewrite Hnb.
  apply IH; [|done]. apply (Ho s1). split; [done|]. unfold lookup_fd. by rewrite Hp.
Qed.

(** What is written as a peer's address reads back as it. *)
Theorem sockaddr_roundtrip a port ip (m m' : M) :
  wf m -> 0 < a -> 0 <= port < 2 ^ 16 -> length ip = 4%nat ->
  write_sockaddr_in a 0 port ip m = (m', 0) -> read_sockaddr_in a m' = Ok (port, ip).
Proof.
  intros Hwf Ha Hp Hip. unfold write_sockaddr_in. destruct (Z.eqb_spec a 0); [lia|]. cbn zeta.
  set (sa := le_bytes 2 2 ++ _). destruct (um_out m a sa) as [m1|] eqn:Eo; [|by intros [=]].
  intros [= ->]. unfold read_sockaddr_in. pose proof (um_in_out m a sa m' Hwf ltac:(lia) Eo) as Hin.
  assert (len sa = 16) as El by (subst sa; unfold len; rewrite !length_app, length_rev, !le_bytes_length, length_replicate, Hip; done).
  rewrite El in Hin. rewrite Hin. subst sa. destruct ip as [|i0 [|i1 [|i2 [|i3 [|]]]]]; try done.
  cbn. unfold be16. cbn. do 2 f_equal. rewrite <- (Z.mod_small port (2 ^ 16)) at 3 by done.
  change (2 ^ 16) with 65536. Z.div_mod_to_equations. lia.
Qed.

End Calls.
