(* ===== verification/SocketDemo.v ===== *)
(** * The socket layer's theorems at concrete runs

    A small stack that satisfies [StackLaws]: handles count up, a listening
    socket under handle 0 gets a connection at the next poll.  The runs open a
    listener, accept on it, and recycle descriptors under a waiting [accept]. *)

From S2P Require Import Prelude Paging PagingRefine Confinement Uaccess Socket SocketInv SocketProps.

#[local] Existing Instance ua_layout.
#[local] Existing Instance ua_layout_ok.

Record dnet := mkDnet { d_next : Z; d_socks : gmap Z (SkKind * TcpState) }.
Definition d_kind (n : dnet) (h : Z) : option SkKind := if h <? d_next n then fst <$> d_socks n !! h else None.
Definition d_add (k : SkKind) (n : dnet) : dnet * Z :=
  (mkDnet (d_next n + 1) (<[d_next n := (k, Closed)]> (d_socks n)), d_next n).
Definition d_set (h : Z) (st : TcpState) (n : dnet) : dnet :=
  mkDnet (d_next n) (alter (fun x => (x.1, st)) h (d_socks n)).
Definition d_state (n : dnet) (h : Z) : TcpState := from_option snd Closed (d_socks n !! h).
Definition d_poll (n : dnet) : dnet :=
  match d_state n 0 with OtherState => d_set 0 Established n | _ => n end.

#[local] Instance dnet_stack : Stack dnet := {|
  sk_kind := d_kind;
  add_tcp _ _ n := Ret (d_add Tcp n);
  add_udp n := Ret (d_add Udp n);
  sk_remove h n := mkDnet (d_next n) (delete h (d_socks n));
  tcp_listen h _ n := (d_set h OtherState n, true);
  tcp_nagle_off _ n := n;
  tcp_connect h _ _ n := (d_set h OtherState n, true);
  tcp_state := d_state;
  tcp_remote _ _ := Some (mkEp [10; 0; 2; 2] 40000);
  tcp_abort h n := d_set h Closed n;
  tcp_close h n := d_set h Closed n;
  tcp_can_send _ _ := true;
  tcp_can_recv _ _ := true;
  tcp_is_active _ _ := true;
  tcp_is_listening _ _ := false;
  tcp_send _ l n := (n, Some (len l));
  tcp_recv _ _ n := (n, Some []);
  udp_bind _ _ n := (n, true);
  udp_can_recv _ _ := false;
  udp_can_send _ _ := true;
  udp_send _ _ _ n := (n, UdpSent);
  udp_recv _ n := (n, None);
  udp_close _ n := n;
  drain_tx n := Ret n;
  iface_poll _ n := Ret (d_poll n);
  iface_set_addr _ n := n;
  iface_add_route _ n := n;
  dhcp_poll _ n := (n, None);
|}.

Lemma d_add_kind k n h : d_kind (fst (d_add k n)) h = if h =? d_next n then Some k else d_kind n h.
Proof.
  unfold d_kind, d_add. cbn. destruct (Z.eqb_spec h (d_next n)) as [->|Hne].
  - rewrite lookup_insert_eq. by destruct (Z.ltb_spec (d_next n) (d_next n + 1)); [|lia].
  - rewrite lookup_insert_ne by done. destruct (Z.ltb_spec h (d_next n + 1)), (Z.ltb_spec h (d_next n)); try done; lia.
Qed.
Lemma d_set_kind h st n : keeps_kinds n (d_set h st n).
Proof.
  intros h'. cbn. unfold d_kind, d_set. cbn. destruct (decide (h = h')) as [->|].
  - rewrite lookup_alter_eq. by destruct (d_socks n !! h').
  - by rewrite lookup_alter_ne.
Qed.
Lemma d_fresh n : d_kind n (d_next n) = None.
Proof. unfold d_kind. by rewrite Z.ltb_irrefl. Qed.
Lemma d_poll_kind n : keeps_kinds n (d_poll n).
Proof. unfold d_poll. destruct (d_state n 0); try done. apply d_set_kind. Qed.

#[local] Instance dnet_returns : StackReturns dnet.
Proof. split. by intros (n & [?|[t ?]]). Qed.

#[local] Instance dnet_laws : StackLaws dnet.
Proof.
  split; cbn; try done; intros; simplify_eq/=; try apply d_set_kind; try apply d_poll_kind; try apply d_fresh; try apply d_add_kind.
  - unfold d_kind. cbn. destruct (Z.eqb_spec h' h) as [->|].
    + rewrite lookup_delete_eq. by destruct (_ <? _).
    + by rewrite lookup_delete_ne.
  - done.
  - unfold d_state. cbn. by rewrite lookup_delete_ne.
  - unfold d_state, d_set. cbn. by rewrite lookup_alter_ne.
  - unfold len. cbn. lia.
Qed.

(** ** Runs *)

Definition step_ok (o : op machine) : bool := match o with ORecv _ _ _ _ _ _ => false | _ => true end.
Fixpoint run (q : state dnet -> bool) (ops : list (op machine)) (st : state dnet) : option (state dnet) :=
  match ops with
  | [] => Some st
  | o :: ops =>
      if step_ok o && (NEXT_SOCK_FD (st_socks st) <? i32_max) then
        match exec o st with
        | Ret st' => if q st' then run q ops st' else None
        | Panic => None
        end
      else None
  end.

Lemma run_reach (Q : state dnet -> Prop) q ops st st' :
  (forall st, q st = true -> Q st) -> reach (wf := wf_machine) Q st -> run q ops st = Some st' ->
  reach (wf := wf_machine) Q st'.
Proof.
  intros Hq. revert st. induction ops as [|o ops IH]; intros st Hr; cbn [run]; [by intros [= <-]|].
  destruct (step_ok o) eqn:Eo; [|done]. destruct (Z.ltb_spec (NEXT_SOCK_FD (st_socks st)) i32_max); [|done].
  cbn [andb]. destruct (exec o st) as [st1|] eqn:Ex; [|done]. destruct (q st1) eqn:Eq; [|done].
  apply IH. eapply (reach_exec (wf := wf_machine) Q st o); eauto. by destruct o.
Qed.

Definition boot : state dnet := mkState (boot_socks (Some (mkDnet 0 ∅)) None []) [].
Lemma boot_reach Q : reach (wf := wf_machine) Q boot.
Proof. by apply (reach_boot Q (Some (mkDnet 0 ∅)) None []). Qed.
Definition after (ops : list (op machine)) : state dnet := default boot (run (fun _ => true) ops boot).
Lemma after_reach ops : reach (wf := wf_machine) (fun _ => True) (after ops).
Proof.
  unfold after. destruct (run _ ops boot) as [st|] eqn:E; [|apply boot_reach].
  apply (run_reach (fun _ => True) (fun _ => true) ops boot st); [done|apply boot_reach|done].
Qed.

(** [socket], run without interruption. *)
Definition open_sock (ty : Z) : list (op machine) := [OSocket 2 ty; OAlloc 0; OPush 0].
(** A listener on descriptor 500 and a blocking [accept] on it. *)
Definition listening : list (op machine) := open_sock 1 ++ [OListen 500; OAccept 500 0].


Lemma socket_ownership_witness :
  NoDup (fds (after listening)) /\ length (SOCKETS (st_socks (after listening))) = 1%nat.
Proof.
  split; [|vm_compute; reflexivity].
  exact (proj1 (socket_ownership (wf := wf_machine) (after listening) (after_reach listening))).
Defined.

Definition ready : state dnet := after (listening ++ [OPoll 0 0]).
Definition accepted : state dnet := after (listening ++ [OPoll 0 0; OAttempt 0 ACCEPT_HEAP_RESERVE]).
Definition ready_net : dnet := default (mkDnet 0 ∅) (NET_STATE (st_socks ready)).
Definition the_listener : Socket := default (new_socket 0 UdpDgram 0 false 0 []) (lookup_fd 500 (st_socks ready)).

Lemma accept_hands_out_once_witness :
  exists k', lookup_fd 500 (st_socks accepted) = Some k' /\ length (pool k') = 64%nat.
Proof.
  destruct (accept_hands_out_once (wf := wf_machine) ready 0 (mkAccept 500 0 false 0 UNSPECIFIED) ACCEPT_HEAP_RESERVE
    accepted ready_net the_listener (after_reach _)) as (k' & Hk & _ & Hl & _); [vm_compute; reflexivity..|].
  exists k'. split; [exact Hk|]. rewrite Hl. vm_compute. reflexivity.
Defined.
(** The connection of handle 0 is the one taken. *)
Lemma accepted_handle : st_flights accepted = [FCaptured (mkAccept 500 0 false 0 UNSPECIFIED) 0].
Proof. vm_compute. reflexivity. Qed.

(** Two sockets opened and closed in turn: one descriptor number. *)
Definition churn : list (op machine) :=
  open_sock 1 ++ [OTake 500; ORecycle 0; OTeardown 0 0] ++ open_sock 2 ++ [OTake 500].
Definition one_open (st : state dnet) : bool := len (open_fds st) <=? 1.
Definition churned : state dnet := default boot (run one_open churn boot).

Lemma socket_fds_bounded_witness :
  fds churned = [500] /\ forall fd, fd ∈ fds churned -> SOCK_FD_BASE <= fd < SOCK_FD_BASE + 1.
Proof.
  split; [vm_compute; reflexivity|].
  apply (socket_fds_bounded (wf := wf_machine) 1 churned); [|lia].
  apply (run_reach _ one_open churn boot); [|apply boot_reach|vm_compute; reflexivity].
  intros st. unfold one_open. apply Z.leb_le.
Defined.

(** Handle 0 is over, handle 1 is stranded, handle 2 is still closing. *)
Definition closing_net : dnet :=
  d_set 2 OtherState (d_set 1 OtherState (fst (d_add Tcp (fst (d_add Tcp (fst (d_add Tcp (mkDnet 0 ∅)))))))).
Definition closing_socks : socks dnet :=
  mkSocks [] SOCK_FD_BASE [] [(0, 19000); (1, 1000); (2, 19000)] 49152 (Some closing_net) None [].

Lemma reaper_exact_witness :
  exists s', gc_closed_handles 20000 closing_socks closing_net = Ret s' /\ CLOSING_HANDLES s' ≡ₚ [(2, 19000)].
Proof.
  destruct (reaper_exact 20000 closing_socks closing_net) as (s' & n' & E & _ & Hp & _).
  { split; [vm_compute; repeat constructor; set_solver|vm_compute; repeat constructor]. }
  exists s'. split; [exact E|]. rewrite Hp. vm_compute. reflexivity.
Defined.
