(* ===== verification/Epoll.v ===== *)
(** * Readiness: epoll and ppoll

    Models [epoll_drop_fd], [sys_epoll_ctl], [sys_epoll_wait] and [sys_ppoll] of
    [src/src/syscall.rs].  One table serves every epoll descriptor.  A blocking
    call polls the stack, scans, and yields.  A turn of it has as arguments the
    readings it makes (clock, serial line status) and what the other threads do
    while it has yielded; [None] is a call still waiting when its turns end. *)

From S2P Require Import Prelude Uaccess Pipe Clock Socket.

Definition EPOLL_MAX : nat := 1024.
Record EpollEntry := mkEntry { e_fd : Z; e_data : Z; e_events : Z }.
Definition free_entry : EpollEntry := mkEntry (-1) 0 0.
Definition EPOLL_TABLE : list EpollEntry := replicate EPOLL_MAX free_entry.

Definition EPOLLIN : Z := 1.
Definition EPOLLOUT : Z := 4.
Definition EPOLLERR : Z := 8.
Definition EPOLLHUP : Z := 16.

Definition epoll_drop_fd (fd : Z) (tbl : list EpollEntry) : list EpollEntry :=
  (fun e => if e_fd e =? fd then free_entry else e) <$> tbl.

(** The first entry of the descriptor [k] becomes [e]. *)
Fixpoint set_first (k : Z) (e : EpollEntry) (tbl : list EpollEntry) : option (list EpollEntry) :=
  match tbl with
  | [] => None
  | x :: r => if e_fd x =? k then Some (e :: r) else cons x <$> set_first k e r
  end.

Section Epoll.
Context {N : Type} `{Stack N}.
Context {M : Type} `{UserMem M}.

(** What the calls work on. *)
Record world := mkWorld {
  w_pipes : pstate;
  w_table : list EpollEntry;
  w_clock : clock;
  w_socks : socks N;
  w_mem : M;
}.
Definition set_w (c : clock) (s : socks N) (m : M) (w : world) : world := mkWorld (w_pipes w) (w_table w) c s m.

(** A turn: the poll's two clocks, per entry the serial line's data-ready bit
    and the place of a clock read, the place of the deadline test, and the
    other threads' work during the yield that ends it. *)
Record turn := mkTurn {
  t_poll : Z * Z;
  t_lsr : nat -> bool;
  t_here : nat -> here;
  t_now : here;
  t_others : world -> world;
}.

Definition sys_epoll_ctl (op fd event_ptr : Z) (m : M) (tbl : list EpollEntry) : list EpollEntry * Z :=
  if op =? 2 then (epoll_drop_fd fd tbl, 0) else
  match (if event_ptr =? 0 then Some (0, 0)
         else ev ← um_in m event_ptr 12; Some (le_val (take 4 ev), le_val (drop 4 ev))) with
  | None => (tbl, - EFAULT)
  | Some (events, data) =>
      let e := mkEntry fd data events in
      match set_first fd e tbl with
      | Some tbl => (tbl, 0)
      | None => match set_first (-1) e tbl with Some tbl => (tbl, 0) | None => (tbl, 0) end
      end
  end.

Definition epoll_revents (lsr : bool) (h : here) (p : pstate) (e : EpollEntry) (c : clock) (s : socks N)
    : outcome (clock * socks N * Z) :=
  if e_fd e =? 51 then let '(c, b) := timerfd_ready h c in Ret (c, s, if b : bool then EPOLLIN else 0)
  else if e_fd e =? 0 then Ret (c, s, if lsr then EPOLLIN else 0)
  else if is_pipe_fd (e_fd e) p then Ret (c, s, if has_data (e_fd e) p then EPOLLIN else 0)
  else if is_socket_fd (e_fd e) s then
    '(s, sev) ← poll_socket (e_fd e) s;
    Ret (c, s, Z.land sev (Z.lor (e_events e) (Z.lor EPOLLERR EPOLLHUP)))
  else Ret (c, s, 0).

Definition event_bytes (revents data : Z) : list Z := le_bytes 4 revents ++ le_bytes 8 data.

(** The table from its [i]-th entry on. *)
Fixpoint epoll_scan (tu : turn) (max ptr : Z) (p : pstate) (tbl : list EpollEntry) (i : nat) (count : Z)
    (c : clock) (s : socks N) (m : M) : outcome (clock * socks N * M * Z) :=
  match tbl with
  | [] => Ret (c, s, m, count)
  | e :: tbl =>
      if i64 max <=? count then Ret (c, s, m, count) else
      if e_fd e <? 0 then epoll_scan tu max ptr p tbl (S i) count c s m else
      '(c, s, rev) ← epoll_revents (t_lsr tu i) (t_here tu i) p e c s;
      if rev =? 0 then epoll_scan tu max ptr p tbl (S i) count c s m else
      match um_out m (ptr ⊞ (count ⊠ 12)) (event_bytes rev (e_data e)) with
      | Some m => epoll_scan tu max ptr p tbl (S i) (count + 1) c s m
      | None => epoll_scan tu max ptr p tbl (S i) count c s m
      end
  end.

Definition epoll_deadline (timeout_ms : Z) (h : here) (c : clock) : clock * option Z :=
  if timeout_ms =? -1 then (c, None)
  else if timeout_ms =? 0 then (c, Some 0)
  else if 0 <? timeout_ms then
    let '(c, now) := monotonic_ns h c in (c, Some (saturating_add now (timeout_ms ⊠ 1000000)))
  else (c, Some 0).

Definition epoll_turn (tu : turn) (ptr max : Z) (w : world) : outcome (world * Z) :=
  s ← poll (fst (t_poll tu)) (snd (t_poll tu)) (w_socks w);
  '(c, s, m, count) ← epoll_scan tu max ptr (w_pipes w) (w_table w) 0 0 (w_clock w) s (w_mem w);
  Ret (set_w c s m w, count).

Fixpoint epoll_loop (turns : list turn) (deadline : option Z) (ptr max : Z) (w : world) : outcome (world * option Z) :=
  match turns with
  | [] => Ret (w, None)
  | tu :: turns =>
      '(w, count) ← epoll_turn tu ptr max w;
      if 0 <? count then Ret (w, Some count) else
      match deadline with
      | None => epoll_loop turns deadline ptr max (t_others tu w)
      | Some d =>
          if d =? 0 then Ret (w, Some 0) else
          let '(c, now) := monotonic_ns (t_now tu) (w_clock w) in
          let w := set_w c (w_socks w) (w_mem w) w in
          if d <=? now then Ret (w, Some 0) else epoll_loop turns deadline ptr max (t_others tu w)
      end
  end.
Definition sys_epoll_wait (turns : list turn) (h : here) (events_ptr maxevents timeout_ms : Z) (w : world)
    : outcome (world * option Z) :=
  let '(c, deadline) := epoll_deadline timeout_ms h (w_clock w) in
  epoll_loop turns deadline events_ptr maxevents (set_w c (w_socks w) (w_mem w) w).

(** ** ppoll *)

(** [fd] and [events] of a [struct pollfd]. *)
Definition poll_revents (lsr : bool) (h : here) (p : pstate) (fd events : Z) (c : clock) (s : socks N)
    : outcome (clock * socks N * Z) :=
  let want_in := negb (Z.land events POLLIN =? 0) in
  if fd =? 0 then Ret (c, s, if want_in && lsr then POLLIN else 0)
  else if fd =? 51 then
    if want_in then let '(c, b) := timerfd_ready h c in Ret (c, s, if b : bool then POLLIN else 0) else Ret (c, s, 0)
  else if is_pipe_fd fd p then Ret (c, s, if want_in && has_data fd p then POLLIN else 0)
  else if is_socket_fd fd s then '(s, ev) ← poll_socket fd s; Ret (c, s, Z.land ev events)
  else Ret (c, s, 0).

(** The array as a list of entries of eight bytes; the window is one access,
    so the entries are read and written back together. *)
Fixpoint ppoll_entries (tu : turn) (p : pstate) (n i : nat) (bytes : list Z) (c : clock) (s : socks N)
    : outcome (clock * socks N * list Z * Z) :=
  match n with
  | O => Ret (c, s, [], 0)
  | S n' =>
      let pfd := take 8 bytes in
      let fd := i32 (le_val (take 4 pfd)) in
      let events := le_val (take 2 (drop 4 pfd)) in
      '(c, s, rev) ← if events =? 0 then Ret (c, s, 0)
                     else poll_revents (t_lsr tu i) (t_here tu i) p fd events c s;
      '(c, s, rest, ready) ← ppoll_entries tu p n' (S i) (drop 8 bytes) c s;
      Ret (c, s, take 6 pfd ++ le_bytes 2 rev ++ rest, (if rev =? 0 then 0 else 1) + ready)
  end.

(** [scan_once]: no entry is ready when the array cannot be accessed. *)
Definition ppoll_scan (tu : turn) (ptr nfds : Z) (p : pstate) (c : clock) (s : socks N) (m : M)
    : outcome (clock * socks N * M * Z) :=
  match um_in m ptr (saturating_mul nfds 8) with
  | None => Ret (c, s, m, 0)
  | Some bytes =>
      '(c, s, bytes, ready) ← ppoll_entries tu p (Z.to_nat nfds) 0 bytes c s;
      match um_out m ptr bytes with Some m => Ret (c, s, m, ready) | None => Panic end
  end.

Definition ppoll_deadline (timeout_ptr : Z) (h : here) (m : M) (c : clock) : clock * result (option Z) :=
  if timeout_ptr =? 0 then (c, Ok None) else
  match um_in m timeout_ptr 16 with
  | None => (c, Err (- EFAULT))
  | Some ts =>
      let ns := saturating_add (saturating_mul (le_val (take 8 ts)) 1000000000) (le_val (drop 8 ts)) in
      let '(c, now) := monotonic_ns h c in (c, Ok (Some (saturating_add now ns)))
  end.

Definition ppoll_turn (tu : turn) (ptr nfds : Z) (w : world) : outcome (world * Z) :=
  '(c, s, m, n) ← ppoll_scan tu ptr nfds (w_pipes w) (w_clock w) (w_socks w) (w_mem w);
  Ret (set_w c s m w, n).

(** The loop after the first scan: it yields before it polls. *)
Fixpoint ppoll_loop (turns : list turn) (target : option Z) (ptr nfds : Z) (w : world) : outcome (world * option Z) :=
  match turns with
  | [] => Ret (w, None)
  | tu :: turns =>
      let w := t_others tu w in
      s ← poll (fst (t_poll tu)) (snd (t_poll tu)) (w_socks w);
      '(w, n) ← ppoll_turn tu ptr nfds (set_w (w_clock w) s (w_mem w) w);
      if 0 <? n then Ret (w, Some n) else
      match target with
      | None => ppoll_loop turns target ptr nfds w
      | Some d =>
          let '(c, now) := monotonic_ns (t_now tu) (w_clock w) in
          let w := set_w c (w_socks w) (w_mem w) w in
          if d <=? now then Ret (w, Some 0) else ppoll_loop turns target ptr nfds w
      end
  end.
(** The first turn polls, reads the timeout, yields and scans. *)
Definition sys_ppoll (first : turn) (turns : list turn) (ptr nfds timeout_ptr : Z) (w : world)
    : outcome (world * option Z) :=
  s ← poll (fst (t_poll first)) (snd (t_poll first)) (w_socks w);
  let '(c, target) := ppoll_deadline timeout_ptr (t_now first) (w_mem w) (w_clock w) in
  let w := set_w c s (w_mem w) w in
  match target with
  | Err e => Ret (w, Some e)
  | Ok target =>
      '(w, n) ← ppoll_turn first ptr nfds (t_others first w);
      if 0 <? n then Ret (w, Some n) else ppoll_loop turns target ptr nfds w
  end.

End Epoll.
#[global] Arguments world N M : clear implicits.
#[global] Arguments turn N M : clear implicits.
