(* ===== verification/EpollProps.v ===== *)
(** * Readiness: theorems

    The table of [epoll_ctl] is a finite map of bounded size; a scan reports
    exactly the ready entries, in table order, each as if it had been scanned
    alone; a timed wait ends. *)

From S2P Require Import Prelude Uaccess Pipe Clock Socket SocketInv SocketProps Epoll.

(** ** The table *)

Definition used (tbl : list EpollEntry) : list EpollEntry := filter (fun e => e_fd e <> -1) tbl.
Definition kv (e : EpollEntry) : Z * (Z * Z) := (e_fd e, (e_events e, e_data e)).
Definition ep_map (tbl : list EpollEntry) : gmap Z (Z * Z) := list_to_map (kv <$> used tbl).
Definition ep_ok (tbl : list EpollEntry) : Prop := length tbl = EPOLL_MAX /\ NoDup (e_fd <$> used tbl).

Lemma used_cons e tbl : used (e :: tbl) = if e_fd e =? -1 then used tbl else e :: used tbl.
Proof.
  unfold used. rewrite filter_cons. destruct (Z.eqb_spec (e_fd e) (-1)); case_decide; naive_solver.
Qed.

Lemma ep_map_cons e tbl :
  ep_map (e :: tbl) = if e_fd e =? -1 then ep_map tbl else <[e_fd e := (e_events e, e_data e)]> (ep_map tbl).
Proof. unfold ep_map. rewrite used_cons. by destruct (e_fd e =? -1). Qed.

Lemma ep_map_None fd tbl : ep_map tbl !! fd = None <-> fd ∉ e_fd <$> used tbl.
Proof.
  unfold ep_map. rewrite <- not_elem_of_list_to_map. by rewrite <- list_fmap_compose.
Qed.

Lemma drop_used fd tbl : fd <> -1 -> used (epoll_drop_fd fd tbl) = filter (fun e => e_fd e <> fd) (used tbl).
Proof.
  intros Hfd. induction tbl as [|e tbl IH]; [done|]. unfold epoll_drop_fd in *. cbn [fmap list_fmap].
  rewrite !used_cons. destruct (Z.eqb_spec (e_fd e) fd) as [E|E]; cbn.
  - rewrite IH. destruct (Z.eqb_spec (e_fd e) (-1)); [lia|]. by rewrite filter_cons_False by naive_solver.
  - rewrite IH. destruct (Z.eqb_spec (e_fd e) (-1)); [done|]. by rewrite filter_cons_True.
Qed.

Lemma drop_map fd tbl : fd <> -1 -> ep_map (epoll_drop_fd fd tbl) = delete fd (ep_map tbl).
Proof.
  intros Hfd. induction tbl as [|e tbl IH]; [symmetry; apply delete_empty|]. unfold epoll_drop_fd in *. cbn [fmap list_fmap].
  rewrite !ep_map_cons, IH. destruct (Z.eqb_spec (e_fd e) fd) as [->|E]; cbn.
  - destruct (Z.eqb_spec fd (-1)); [lia|]. by rewrite delete_insert_eq.
  - destruct (Z.eqb_spec (e_fd e) (-1)); [done|]. by rewrite delete_insert_ne.
Qed.

Lemma drop_ok fd tbl : ep_ok tbl -> ep_ok (epoll_drop_fd fd tbl).
Proof.
  intros [Hl Hd]. destruct (decide (fd = -1)) as [->|Hfd].
  - assert (forall t, used (epoll_drop_fd (-1) t) = used t) as E.
    { induction t as [|e t IH]; [done|]. unfold epoll_drop_fd in *. cbn [fmap list_fmap]. rewrite !used_cons, IH.
      by destruct (e_fd e =? -1) eqn:E; cbn; rewrite ?E. }
    split; [unfold epoll_drop_fd; by rewrite length_fmap|by rewrite E].
  - split; [unfold epoll_drop_fd; by rewrite length_fmap|]. rewrite drop_used by done.
    eapply sublist_NoDup; [exact Hd|]. apply fmap_sublist, sublist_filter.
Qed.

Lemma set_first_old fd e tbl tbl' :
  fd <> -1 -> e_fd e = fd -> set_first fd e tbl = Some tbl' -> NoDup (e_fd <$> used tbl) ->
  e_fd <$> used tbl' = e_fd <$> used tbl /\ length tbl' = length tbl /\ is_Some (ep_map tbl !! fd) /\
  ep_map tbl' = <[fd := (e_events e, e_data e)]> (ep_map tbl).
Proof.
  intros Hfd He. revert tbl'. induction tbl as [|x tbl IH]; intros tbl' Hs Hd; [done|]. cbn [set_first] in Hs.
  rewrite used_cons in Hd |- *. rewrite ep_map_cons. destruct (Z.eqb_spec (e_fd x) fd) as [E|E].
  - injection Hs as <-. rewrite used_cons, ep_map_cons, E, He. destruct (Z.eqb_spec fd (-1)); [done|]. cbn.
    split_and!; [congruence|done|rewrite lookup_insert_eq; by eexists|by rewrite insert_insert_eq].
  - apply fmap_Some in Hs as (t & Ht & ->). rewrite used_cons, ep_map_cons.
    destruct (Z.eqb_spec (e_fd x) (-1)) as [E1|E1].
    + destruct (IH t Ht Hd) as (? & ? & ? & ?). split_and!; try done. cbn. by f_equal.
    + cbn in Hd. apply NoDup_cons in Hd as [_ Hd]. destruct (IH t Ht Hd) as (H1 & H2 & H3 & H4). cbn.
      split_and!; [by f_equal|by f_equal|by rewrite lookup_insert_ne|by rewrite H4, insert_insert_ne].
Qed.

Lemma set_first_none k e tbl : set_first k e tbl = None <-> Forall (fun x => e_fd x <> k) tbl.
Proof.
  induction tbl as [|x tbl IH]; cbn [set_first]; [by split|]. rewrite Forall_cons, <- IH.
  destruct (Z.eqb_spec (e_fd x) k); [naive_solver|]. rewrite fmap_None. naive_solver.
Qed.

Lemma set_first_new fd e tbl tbl' :
  fd <> -1 -> e_fd e = fd -> set_first (-1) e tbl = Some tbl' -> Forall (fun x => e_fd x <> fd) tbl ->
  used tbl' ≡ₚ e :: used tbl /\ length tbl' = length tbl /\
  ep_map tbl' = <[fd := (e_events e, e_data e)]> (ep_map tbl).
Proof.
  intros Hfd He. revert tbl'. induction tbl as [|x tbl IH]; intros tbl' Hs Hn; [done|]. cbn [set_first] in Hs.
  apply Forall_cons in Hn as [Hx Hn]. rewrite (used_cons x), (ep_map_cons x).
  destruct (Z.eqb_spec (e_fd x) (-1)) as [E|E].
  - injection Hs as <-. rewrite used_cons, ep_map_cons, He. by destruct (Z.eqb_spec fd (-1)).
  - apply fmap_Some in Hs as (t & Ht & ->). destruct (IH t Ht Hn) as (H1 & H2 & H3).
    rewrite used_cons, ep_map_cons. destruct (Z.eqb_spec (e_fd x) (-1)); [done|].
    split_and!; [rewrite H1; by rewrite Permutation_swap|cbn; by f_equal|]. rewrite H3. by rewrite insert_insert_ne.
Qed.

Lemma full_size tbl : ep_ok tbl -> Forall (fun x => e_fd x <> -1) tbl <-> size (ep_map tbl) = EPOLL_MAX.
Proof.
  intros [Hl Hd]. unfold ep_map. rewrite map_size_list_to_map; [|by rewrite <- list_fmap_compose].
  rewrite length_fmap, <- Hl. clear Hl Hd. split.
  - induction 1 as [|x tbl Hx _ IH]; [done|]. rewrite used_cons. destruct (Z.eqb_spec (e_fd x) (-1)); [done|]. cbn. by rewrite IH.
  - induction tbl as [|x tbl IH]; intros E; [constructor|]. rewrite used_cons in E.
    pose proof (length_filter (fun e => e_fd e <> -1) tbl : (length (used tbl) <= length tbl)%nat).
    destruct (Z.eqb_spec (e_fd x) (-1)); cbn in E; [lia|]. constructor; [done|]. apply IH. lia.
Qed.

Lemma map_size_used tbl : ep_ok tbl -> (size (ep_map tbl) <= EPOLL_MAX)%nat.
Proof.
  intros [Hl Hd]. unfold ep_map. rewrite map_size_list_to_map; [|by rewrite <- list_fmap_compose].
  rewrite length_fmap, <- Hl. apply length_filter.
Qed.

Section Ctl.
Context {M : Type} `{UserMem M}.

(** The event a call of [epoll_ctl] asks for. *)
Definition ctl_event (ptr : Z) (m : M) : option (Z * Z) :=
  if ptr =? 0 then Some (0, 0) else ev ← um_in m ptr 12; Some (le_val (take 4 ev), le_val (drop 4 ev)).

(** What [epoll_ctl] means: a map from descriptor to events and user data that
    holds at most [EPOLL_MAX] descriptors; an addition to a full map is lost. *)
Definition ctl_spec (op fd ptr : Z) (m : M) (g : gmap Z (Z * Z)) : gmap Z (Z * Z) * Z :=
  if op =? 2 then (delete fd g, 0) else
  match ctl_event ptr m with
  | None => (g, - EFAULT)
  | Some ev =>
      if bool_decide (is_Some (g !! fd)) || (size g <? EPOLL_MAX)%nat then (<[fd := ev]> g, 0) else (g, 0)
  end.

(** The slot table of [epoll_ctl] implements a finite map from descriptor to
    registered events and user data, bounded by its 1024 slots, on every
    operation and every descriptor but -1; an addition to a full table is lost
    although the call reports success. *)
Theorem epoll_table_refines_map op fd ptr (m : M) tbl :
  ep_ok tbl -> fd <> -1 ->
  ep_ok (fst (sys_epoll_ctl op fd ptr m tbl)) /\
  (ep_map (fst (sys_epoll_ctl op fd ptr m tbl)), snd (sys_epoll_ctl op fd ptr m tbl)) = ctl_spec op fd ptr m (ep_map tbl).
Proof.
  intros Hok Hfd. unfold sys_epoll_ctl, ctl_spec. destruct (op =? 2).
  { cbn [fst snd]. rewrite drop_map by done. split; [by apply drop_ok|done]. }
  fold (ctl_event ptr m). destruct (ctl_event ptr m) as [[ev dt]|]; [|done].
  pose proof Hok as [Hl Hd]. set (e := mkEntry fd dt ev). destruct (set_first fd e tbl) as [t1|] eqn:E1.
  - destruct (set_first_old fd e tbl t1 Hfd eq_refl E1 Hd) as (H1 & H2 & H3 & H4). cbn [fst snd].
    rewrite bool_decide_true by done. cbn [orb]. split; [split; [congruence|by rewrite H1]|by rewrite H4].
  - apply set_first_none in E1. assert (ep_map tbl !! fd = None) as Hn.
    { apply ep_map_None. intros (x & -> & Hx)%list_elem_of_fmap. apply list_elem_of_filter in Hx as [_ Hx].
      rewrite Forall_forall in E1. by apply (E1 x Hx). }
    rewrite (bool_decide_false (is_Some _)) by (rewrite Hn; by intros [? ?]). cbn [orb].
    destruct (set_first (-1) e tbl) as [t2|] eqn:E2.
    + destruct (set_first_new fd e tbl t2 Hfd eq_refl E2 E1) as (H1 & H2 & H3). cbn [fst snd].
      assert (size (ep_map tbl) < EPOLL_MAX)%nat as Hsz.
      { destruct (decide (size (ep_map tbl) = EPOLL_MAX)) as [Hs|Hs].
        - apply (full_size tbl Hok) in Hs. apply (set_first_none (-1) e) in Hs. congruence.
        - pose proof (map_size_used tbl Hok). lia. }
      apply Nat.ltb_lt in Hsz. rewrite Hsz. split; [|by rewrite H3]. split; [congruence|]. rewrite H1. cbn.
      constructor; [|done]. by apply ep_map_None.
    + apply set_first_none, (full_size tbl Hok) in E2. cbn [fst snd]. rewrite E2, Nat.ltb_irrefl. done.
Qed.

End Ctl.

(** ** The scan *)

Section Scan.
Context {N : Type} `{HS : StackLaws N} `{HR : !StackReturns N}.
Context {M : Type} {wf : M -> Prop} `{HM : UserMemLaws M wf}.
Implicit Types (s : socks N) (c : clock) (m : M) (tu : turn N M).

Lemma is_socket_fd_lookup fd s : is_socket_fd fd s = bool_decide (is_Some (lookup_fd fd s)).
Proof.
  unfold is_socket_fd, lookup_fd. symmetry. destruct (position fd (SOCKETS s)) as [i|] eqn:Ei;
    cbn [mbind option_bind].
  - destruct (position_Some _ _ _ Ei) as (k & -> & Hk). rewrite bool_decide_true by (by eexists). symmetry.
    apply existsb_exists. destruct (position_Some _ _ _ Ei) as (k' & Hk' & E). exists k'.
    split; [apply list_elem_of_In; by eapply list_elem_of_lookup_2|by apply Z.eqb_eq].
  - rewrite bool_decide_false by (by intros [? ?]). symmetry. apply position_None in Ei.
    apply not_true_iff_false. intros (k & Hk & E)%existsb_exists. apply list_elem_of_In in Hk.
    rewrite Forall_forall in Ei. apply Z.eqb_eq in E. by apply (Ei k Hk).
Qed.

Lemma position_insert fd fd' l i k k' :
  position fd l = Some i -> l !! i = Some k -> s_fd k' = s_fd k -> position fd' (<[i := k']> l) = position fd' l.
Proof.
  revert i. induction l as [|x l IH]; intros i Hp Hk Hfd; [done|]. cbn [position] in Hp.
  destruct (Z.eqb_spec (s_fd x) fd) as [E|E].
  - injection Hp as <-. injection Hk as ->. cbn. by rewrite Hfd.
  - apply fmap_Some in Hp as (j & Hj & ->). cbn in Hk.
    change (<[S j := k']> (x :: l)) with (x :: <[j := k']> l). cbn [position]. by rewrite (IH j Hj Hk Hfd).
Qed.

(** What a readiness test of another descriptor leaves alone. *)
Definition same_at (fd : Z) (s s' : socks N) : Prop := lookup_fd fd s' = lookup_fd fd s /\ NET_STATE s' = NET_STATE s.

Lemma poll_socket_spec fd s L :
  ok s L ->
  exists s' r, poll_socket fd s = Ret (s', r) /\ ok s' L /\ (forall fd', fd' <> fd -> same_at fd' s s') /\
  (forall s0, same_at fd s0 s -> exists s0', poll_socket fd s0 = Ret (s0', r)).
Proof.
  intros Hok. destruct (poll_socket_ok fd s L Hok) as (s' & r & E & _ & _ & _ & Hok'). exists s', r.
  split; [done|]. split; [done|]. unfold same_at, poll_socket, with_socket, lookup_fd in *.
  destruct (position fd (SOCKETS s)) as [i|] eqn:Ei; cbn [mbind option_bind outcome_bind] in *; cycle 1.
  { injection E as <- <-. split; [done|]. intros s0 [H1 H2].
    destruct (position fd (SOCKETS s0)) as [i0|] eqn:E0; [|by eexists].
    destruct (position_Some _ _ _ E0) as (k0 & Hk0 & _). cbn [mbind option_bind] in H1. by rewrite Hk0 in H1. }
  destruct (position_Some _ _ _ Ei) as (k & Hk & Efd). rewrite Hk in *. unfold with_net in *.
  destruct (NET_STATE s) as [n|] eqn:En; cbn [mbind outcome_bind] in *; [|done].
  destruct (poll_events k n) as [[k' ev]|] eqn:Ep; cbn [mbind outcome_bind] in *; [|done].
  injection E as <- <-. assert (s_fd k' = s_fd k) as Hfd.
  { destruct (lookup_fd_own fd s L k Hok) as (n0 & L' & E0 & Hn).
    { unfold lookup_fd. by rewrite Ei. }
    rewrite En in E0. injection E0 as <-. destruct (poll_events_ok k n L' Hn) as (? & ? & E1 & ? & _). congruence. }
  split.
  - intros fd' Hne. cbn. rewrite (position_insert fd fd' _ i k k') by done. split; [|done].
    destruct (position fd' (SOCKETS s)) as [j|] eqn:Ej; [|done]. cbn. apply list_lookup_insert_ne.
    intros ->. destruct (position_Some _ _ _ Ej) as (x & Hx & Ex). congruence.
  - intros s0 [H1 H2]. destruct (position fd (SOCKETS s0)) as [i0|]; cbn in H1; [|done].
    rewrite <- H1, <- H2. cbn [mbind outcome_bind]. rewrite Ep. cbn [mbind outcome_bind]. by eexists.
Qed.

(** The events of an entry scanned alone. *)
Definition alone tu (p : pstate) c s (i : nat) (e : EpollEntry) : Z :=
  match epoll_revents (t_lsr tu i) (t_here tu i) p e c s with Ret (_, _, r) => r | Panic => 0 end.

Lemma revents_spec tu p c0 s0 i e c s L :
  ok s L -> same_at (e_fd e) s0 s -> (e_fd e = 51 -> c = c0) ->
  exists c' s', epoll_revents (t_lsr tu i) (t_here tu i) p e c s = Ret (c', s', alone tu p c0 s0 i e) /\ ok s' L /\
    (forall fd', fd' <> e_fd e -> same_at fd' s s' /\ (fd' = 51 -> c' = c)).
Proof.
  intros Hok Hsame Hc. unfold alone, epoll_revents. destruct (Z.eqb_spec (e_fd e) 51) as [E|E].
  { rewrite (Hc E). destruct (timerfd_ready (t_here tu i) c0) as [c1 b]. eexists _, _. split; [reflexivity|].
    split; [done|]. intros fd' Hne. split; [done|]. congruence. }
  destruct (e_fd e =? 0); [by eexists _, _|]. destruct (is_pipe_fd (e_fd e) p); [by eexists _, _|].
  rewrite !is_socket_fd_lookup. destruct Hsame as [Hl Hn]. rewrite Hl. case_bool_decide; [|by eexists _, _].
  destruct (poll_socket_spec (e_fd e) s L Hok) as (s' & r & -> & Hok' & Hs & Hr).
  destruct (Hr s0 (conj Hl Hn)) as [s0' ->]. cbn [mbind outcome_bind].
  eexists _, _. split; [reflexivity|]. split; [done|]. intros fd' Hne. split; [by apply Hs|done].
Qed.

(** The ready entries in table order, each as if scanned alone. *)
Fixpoint ready_events tu (p : pstate) c s (i : nat) (tbl : list EpollEntry) : list (Z * Z) :=
  match tbl with
  | [] => []
  | e :: tbl =>
      if (e_fd e <? 0) || (alone tu p c s i e =? 0) then ready_events tu p c s (S i) tbl
      else (alone tu p c s i e, e_data e) :: ready_events tu p c s (S i) tbl
  end.
(** Storing events in the caller's array: a slot that cannot be written is used
    for the next one. *)
Fixpoint report (max ptr : Z) (evs : list (Z * Z)) (count : Z) m : M * Z :=
  match evs with
  | [] => (m, count)
  | (r, d) :: evs =>
      if i64 max <=? count then (m, count) else
      match um_out m (ptr ⊞ (count ⊠ 12)) (event_bytes r d) with
      | Some m => report max ptr evs (count + 1) m
      | None => report max ptr evs count m
      end
  end.

Lemma report_full max ptr evs count m : i64 max <= count -> report max ptr evs count m = (m, count).
Proof. intros Hc. destruct evs as [|[r d] evs]; cbn; [done|]. by destruct (Z.leb_spec (i64 max) count); [|lia]. Qed.

Lemma scan_report tu max ptr p c0 s0 tbl i count c s m L :
  ok s L -> NoDup (e_fd <$> filter (fun e => 0 <= e_fd e) tbl) ->
  (forall e, e ∈ tbl -> 0 <= e_fd e -> same_at (e_fd e) s0 s /\ (e_fd e = 51 -> c = c0)) ->
  exists c' s', let '(m', k) := report max ptr (ready_events tu p c0 s0 i tbl) count m in
    epoll_scan tu max ptr p tbl i count c s m = Ret (c', s', m', k) /\ ok s' L.
Proof.
  revert i count c s m. induction tbl as [|e tbl IH]; intros i count c s m Hok Hd Hsame; cbn [epoll_scan ready_events].
  { by exists c, s. }
  destruct (Z.leb_spec (i64 max) count) as [Hfull|Hroom].
  { rewrite report_full by done. by exists c, s. }
  destruct (Z.ltb_spec (e_fd e) 0) as [Hneg|Hpos]; cbn [orb].
  { rewrite filter_cons_False in Hd by lia. apply IH; [done|done|]. intros x Hx. apply Hsame. by right. }
  rewrite filter_cons_True in Hd by lia. cbn in Hd. apply NoDup_cons in Hd as [Hnin Hd].
  destruct (Hsame e ltac:(by left) Hpos) as [H1 H2].
  destruct (revents_spec tu p c0 s0 i e c s L Hok H1 H2) as (c1 & s1 & -> & Hok1 & Hother). cbn [mbind outcome_bind].
  assert (forall x, x ∈ tbl -> 0 <= e_fd x -> same_at (e_fd x) s0 s1 /\ (e_fd x = 51 -> c1 = c0)) as Hsame1.
  { intros x Hx Hx0. destruct (Hsame x ltac:(by right) Hx0) as [[A1 A2] A3]. destruct (Hother (e_fd x)) as [[B1 B2] B3].
    { intros E. apply Hnin. rewrite <- E. apply list_elem_of_fmap_2, list_elem_of_filter. done. }
    split; [split; congruence|]. intros E. rewrite (B3 E). by apply A3. }
  destruct (Z.eqb_spec (alone tu p c0 s0 i e) 0) as [E0|E0]; [by apply IH|]. cbn [report].
  destruct (Z.leb_spec (i64 max) count); [lia|].
  destruct (um_out m _ _) as [m1|]; by apply IH.
Qed.

Lemma ok_used_nonneg tbl : ep_ok tbl -> NoDup (e_fd <$> filter (fun e => 0 <= e_fd e) tbl).
Proof.
  intros [_ Hd]. assert (filter (fun e => 0 <= e_fd e) tbl = filter (fun e => 0 <= e_fd e) (used tbl)) as ->.
  { clear. induction tbl as [|e tbl IH]; [done|]. rewrite used_cons. destruct (Z.eqb_spec (e_fd e) (-1)) as [E|E].
    - rewrite filter_cons_False by lia. done.
    - rewrite !filter_cons. by rewrite IH. }
  eapply sublist_NoDup; [exact Hd|]. apply fmap_sublist, sublist_filter.
Qed.

(** *** When a descriptor is ready

    Stated on the state of what the descriptor names, not on the scan. *)

Inductive source := STimer | SConsole | SPipe | SSocket (k : Socket) (n : N) | SNone.
Definition source_of (p : pstate) s (fd : Z) : source :=
  if decide (fd = 51) then STimer
  else if decide (fd = 0) then SConsole
  else if decide (Exists (fun q => read_fd q = fd \/ write_fd q = fd) (pipes p)) then SPipe
  else match lookup_fd fd s, NET_STATE s with
       | Some k, Some n => SSocket k n
       | _, _ => SNone
       end.

(** There is something to read: the armed timer has expired, a character is on
    the serial line, the pipe it is the read end of holds bytes, a stream or a
    datagram socket has received data, a listener has a connection in its pool. *)
Definition readable (lsr : bool) (h : here) c (x : source) (p : pstate) (fd : Z) : Prop :=
  match x with
  | STimer => TIMERFD_DEADLINE_NS c <> 0 /\ TIMERFD_DEADLINE_NS c <= snd (monotonic_ns h c)
  | SConsole => lsr = true
  | SPipe => exists q, q ∈ pipes p /\ read_fd q = fd /\ contents q <> []
  | SSocket k n =>
      match s_type k with
      | TcpStream => s_connecting k = false /\ tcp_can_recv n (s_handle k) = true
      | TcpListener => exists a, a ∈ s_handle k :: s_backlog k /\ tcp_is_active n a = true
      | UdpDgram => udp_can_recv n (s_handle k) = true
      end
  | SNone => False
  end.
(** There is room to write; a connection attempt that is over counts. *)
Definition writable (x : source) : Prop :=
  match x with
  | SSocket k n =>
      match s_type k with
      | TcpStream => if s_connecting k then tcp_state n (s_handle k) <> OtherState
                     else tcp_can_send n (s_handle k) = true
      | TcpListener => False
      | UdpDgram => udp_can_send n (s_handle k) = true
      end
  | _ => False
  end.
(** A connection attempt ended without a connection. *)
Definition failed (x : source) : Prop :=
  match x with
  | SSocket k n => s_type k = TcpStream /\ s_connecting k = true
      /\ tcp_state n (s_handle k) <> OtherState /\ tcp_state n (s_handle k) <> Established
  | _ => False
  end.
(** The connection of a stream is over. *)
Definition hung_up (x : source) : Prop :=
  match x with
  | SSocket k n => s_type k = TcpStream /\ s_connecting k = false
      /\ tcp_is_active n (s_handle k) = false /\ tcp_is_listening n (s_handle k) = false
  | _ => False
  end.
Definition is_sock (x : source) : Prop := match x with SSocket _ _ => True | _ => False end.

(** The events [r] to report of an entry: EPOLLIN (bit 0) and EPOLLOUT (bit 2)
    of a socket as registered, EPOLLERR (bit 3) and EPOLLHUP (bit 4) always,
    EPOLLIN of anything else whether registered or not. *)
Record reports (lsr : bool) (h : here) (p : pstate) c s (e : EpollEntry) (r : Z) : Prop := {
  rp_in : Z.testbit r 0 = true <->
    readable lsr h c (source_of p s (e_fd e)) p (e_fd e)
    /\ (is_sock (source_of p s (e_fd e)) -> Z.testbit (e_events e) 0 = true);
  rp_out : Z.testbit r 2 = true <-> writable (source_of p s (e_fd e)) /\ Z.testbit (e_events e) 2 = true;
  rp_err : Z.testbit r 3 = true <-> failed (source_of p s (e_fd e));
  rp_hup : Z.testbit r 4 = true <-> hung_up (source_of p s (e_fd e));
  rp_rest i : i <> 0 -> i <> 2 -> i <> 3 -> i <> 4 -> Z.testbit r i = false;
}.

Definition evbits (a b x y : bool) : Z :=
  Z.lor (if a then 1 else 0) (Z.lor (if b then 4 else 0) (Z.lor (if x then 8 else 0) (if y then 16 else 0))).
Lemma evbits_spec (a b x y : bool) (i : Z) :
  Z.testbit (evbits a b x y) i = (i =? 0) && a || (i =? 2) && b || (i =? 3) && x || (i =? 4) && y.
Proof.
  destruct (Z.ltb_spec i 0) as [Hn|Hn].
  { rewrite Z.testbit_neg_r by done. by rewrite !(proj2 (Z.eqb_neq _ _)) by lia. }
  destruct (Z.ltb_spec i 5) as [H5|H5].
  - assert (i = 0 \/ i = 1 \/ i = 2 \/ i = 3 \/ i = 4) as [->|[->|[->|[->| ->]]]] by lia;
      by destruct a, b, x, y.
  - rewrite !(proj2 (Z.eqb_neq _ _)) by lia. cbn [andb orb].
    apply Z.bits_above_log2; [by destruct a, b, x, y|]. apply Z.le_lt_trans with 4; [by destruct a, b, x, y|lia].
Qed.

(** A descriptor that is not a socket only ever reports EPOLLIN. *)
Lemma reports_in lsr h p c s e (b : bool) :
  ~ is_sock (source_of p s (e_fd e)) ->
  (b = true <-> readable lsr h c (source_of p s (e_fd e)) p (e_fd e)) ->
  reports lsr h p c s e (if b then EPOLLIN else 0).
Proof.
  intros Hs Hb. set (x := source_of p s (e_fd e)) in *.
  assert ((if b then EPOLLIN else 0) = evbits b false false false) as -> by (by destruct b).
  split; intros; rewrite evbits_spec; fold x; cbn [Z.eqb andb orb].
  - rewrite !orb_false_r, Hb. tauto.
  - clear Hb. destruct x; cbn in *; naive_solver.
  - clear Hb. destruct x; cbn in *; naive_solver.
  - clear Hb. destruct x; cbn in *; naive_solver.
  - by rewrite !(proj2 (Z.eqb_neq _ _)) by done.
Qed.

Lemma reports_sock lsr h p c s e k n (a b x y : bool) :
  source_of p s (e_fd e) = SSocket k n ->
  (a = true <-> readable lsr h c (SSocket k n) p (e_fd e)) -> (b = true <-> writable (SSocket k n)) ->
  (x = true <-> failed (SSocket k n)) -> (y = true <-> hung_up (SSocket k n)) ->
  reports lsr h p c s e (Z.land (evbits a b x y) (Z.lor (e_events e) (Z.lor EPOLLERR EPOLLHUP))).
Proof.
  intros Ex Ha Hb Hc Hd. assert (Z.lor EPOLLERR EPOLLHUP = evbits false false true true) as -> by done.
  split; intros; rewrite ?Ex, Z.land_spec, Z.lor_spec, !evbits_spec; cbn [Z.eqb Pos.eqb andb orb].
  - rewrite <- Ha. rewrite !orb_false_r, andb_true_iff. cbn. tauto.
  - rewrite <- Hb. rewrite !orb_false_r, andb_true_iff. done.
  - rewrite <- Hc. by rewrite !orb_false_r, orb_true_r, andb_true_r.
  - rewrite <- Hd. by rewrite orb_true_r, andb_true_r.
  - by rewrite !(proj2 (Z.eqb_neq _ _)) by done.
Qed.

Lemma any_active_spec l n b : any_active l n = Ret b -> b = true <-> exists a, a ∈ l /\ tcp_is_active n a = true.
Proof.
  induction l as [|a l IH]; cbn [any_active].
  - intros [= <-]. split; [done|]. by intros (a & Ha%elem_of_nil & _).
  - destruct (get_sk Tcp a n); cbn [mbind outcome_bind]; [|done]. destruct (tcp_is_active n a) eqn:Ea.
    + intros [= <-]. split; [|done]. intros _. exists a. split; [by left|done].
    + intros E. rewrite (IH E). split; intros (a' & Ha & Hx); exists a'; (split; [|done]); [by right|].
      apply elem_of_cons in Ha as [->|Ha]; [congruence|done].
Qed.

(** What [poll_events] finds out about a socket. *)
Lemma poll_events_spec lsr h c p fd k n k' ev :
  poll_events k n = Ret (k', ev) ->
  exists (a b x y : bool), ev = evbits a b x y
    /\ (a = true <-> readable lsr h c (SSocket k n) p fd) /\ (b = true <-> writable (SSocket k n))
    /\ (x = true <-> failed (SSocket k n)) /\ (y = true <-> hung_up (SSocket k n)).
Proof.
  unfold poll_events. cbn [readable writable failed hung_up]. destruct (s_type k) eqn:Et.
  - destruct (get_sk Tcp (s_handle k) n); cbn [mbind outcome_bind]; [|done].
    destruct (s_connecting k) eqn:Ec.
    + destruct (tcp_state n (s_handle k)) eqn:Es; intros [= <- <-].
      * exists false, true, false, false. split; [done|]. naive_solver.
      * exists false, true, true, false. split; [done|]. naive_solver.
      * exists false, true, true, false. split; [done|]. naive_solver.
      * exists false, true, true, false. split; [done|]. naive_solver.
      * exists false, false, false, false. split; [done|]. naive_solver.
    + intros [= <- <-]. exists (tcp_can_recv n (s_handle k)), (tcp_can_send n (s_handle k)), false,
        (negb (tcp_is_active n (s_handle k)) && negb (tcp_is_listening n (s_handle k))).
      split; [by destruct (tcp_can_recv _ _), (tcp_can_send _ _), (_ && _)|].
      rewrite andb_true_iff, !negb_true_iff. naive_solver.
  - destruct (any_active _ n) as [b|] eqn:Ea; cbn [mbind outcome_bind]; [|done]. intros [= <- <-].
    apply any_active_spec in Ea. exists b, false, false, false. split; [by destruct b|].
    split; [done|]. naive_solver.
  - destruct (get_sk Udp (s_handle k) n); cbn [mbind outcome_bind]; [|done]. intros [= <- <-].
    exists (udp_can_recv n (s_handle k)), (udp_can_send n (s_handle k)), false, false.
    split; [by destruct (udp_can_recv _ _), (udp_can_send _ _)|]. naive_solver.
Qed.

Lemma contents_nonempty q : pipe_ok q -> contents q <> [] <-> head q <> tail q.
Proof.
  intros [_ Hh Ht]. unfold contents. split.
  - intros Hc E. apply Hc. by rewrite E, Z.sub_diag.
  - intros Hne Hc. apply fmap_nil_inv in Hc. apply (f_equal length) in Hc. rewrite length_seqZ in Hc. cbn in Hc.
    assert ((tail q - head q) mod PIPE_BUF_SIZE <> 0) as Hz.
    { unfold PIPE_BUF_SIZE in *. Z.div_mod_to_equations. lia. }
    pose proof (Z.mod_pos_bound (tail q - head q) PIPE_BUF_SIZE eq_refl). lia.
Qed.

Lemma is_pipe_source p fd : is_pipe_fd fd p = bool_decide (Exists (fun q => read_fd q = fd \/ write_fd q = fd) (pipes p)).
Proof.
  apply eq_true_iff_eq. unfold is_pipe_fd. rewrite bool_decide_eq_true, existsb_exists, Exists_exists.
  split; intros (q & Hq & E); exists q; rewrite ?list_elem_of_In in *; (split; [done|]); zb; naive_solver lia.
Qed.

Lemma has_data_spec p fd :
  Forall pipe_ok (pipes p) ->
  has_data fd p = true <-> exists q, q ∈ pipes p /\ read_fd q = fd /\ contents q <> [].
Proof.
  intros Hp. unfold has_data. rewrite existsb_exists.
  split; intros (q & Hq & E); exists q; rewrite ?list_elem_of_In in *.
  - apply andb_true_iff in E as [E1 E2]. unfold is_empty in E2. apply negb_true_iff in E2. zb.
    split; [done|]. split; [done|]. apply contents_nonempty; [|done]. rewrite Forall_forall in Hp.
    apply Hp. by apply list_elem_of_In.
  - destruct E as [<- E]. split; [done|]. rewrite Z.eqb_refl. cbn. apply negb_true_iff, Z.eqb_neq.
    apply contents_nonempty; [|done]. rewrite Forall_forall in Hp. apply Hp. by apply list_elem_of_In.
Qed.

Lemma alone_reports tu p c s i e L :
  ok s L -> Forall pipe_ok (pipes p) -> reports (t_lsr tu i) (t_here tu i) p c s e (alone tu p c s i e).
Proof.
  intros Hok Hp. unfold alone, epoll_revents.
  destruct (Z.eqb_spec (e_fd e) 51) as [E1|E1].
  { assert (source_of p s (e_fd e) = STimer) as Ex by (unfold source_of; by rewrite decide_True).
    unfold timerfd_ready. destruct (Z.eqb_spec (TIMERFD_DEADLINE_NS c) 0) as [E0|E0].
    - apply (reports_in _ _ _ _ _ _ false); rewrite Ex; [tauto|]. cbn. naive_solver.
    - destruct (monotonic_ns _ c) as [c1 now] eqn:En. apply reports_in; rewrite Ex; [tauto|].
      cbn [readable]. rewrite En. cbn. rewrite Z.leb_le. naive_solver. }
  destruct (Z.eqb_spec (e_fd e) 0) as [E2|E2].
  { assert (source_of p s (e_fd e) = SConsole) as Ex by (unfold source_of; by rewrite decide_False, decide_True).
    apply reports_in; rewrite Ex; [tauto|done]. }
  rewrite is_pipe_source. case_bool_decide as E3.
  { assert (source_of p s (e_fd e) = SPipe) as Ex.
    { unfold source_of. by rewrite decide_False, decide_False, decide_True. }
    apply reports_in; rewrite Ex; [tauto|]. cbn. by apply has_data_spec. }
  assert (source_of p s (e_fd e) = match lookup_fd (e_fd e) s, NET_STATE s with Some k, Some n => SSocket k n | _, _ => SNone end) as Ex.
  { unfold source_of. by rewrite decide_False, decide_False, decide_False. }
  rewrite is_socket_fd_lookup. case_bool_decide as E4; cycle 1.
  { apply (reports_in _ _ _ _ _ _ false); rewrite Ex; destruct (lookup_fd (e_fd e) s) as [k|];
      [by destruct E4|tauto|by destruct E4|by cbn]. }
  destruct E4 as [k Hk]. destruct (lookup_fd_own _ _ _ _ Hok Hk) as (n & L' & En & Hn). rewrite Hk, En in Ex.
  destruct (poll_events_ok k n L' Hn) as (k' & ev & Ep & _).
  destruct (poll_events_spec (t_lsr tu i) (t_here tu i) c p (e_fd e) k n k' ev Ep) as (a & b & x & y & -> & Hr).
  assert (exists s', poll_socket (e_fd e) s = Ret (s', evbits a b x y)) as [s' ->].
  { unfold poll_socket, with_socket, with_net. unfold lookup_fd in Hk.
    destruct (position (e_fd e) (SOCKETS s)) as [j|]; cbn [mbind option_bind] in Hk; [|done].
    rewrite Hk, En, Ep. cbn [mbind outcome_bind]. by eexists. }
  cbn [mbind outcome_bind]. apply reports_sock with k n; [done|apply Hr..].
Qed.

(** The reports of a table, entry by entry, and the events stored for them: the
    entries in use with something to report. *)
Definition events_of (tbl : list EpollEntry) (rs : list Z) : list (Z * Z) :=
  omap (fun '(e, r) => if (e_fd e <? 0) || (r =? 0) then None else Some (r, e_data e)) (zip tbl rs).

Lemma ready_events_of tu p c s tbl i :
  exists rs, length rs = length tbl /\ events_of tbl rs = ready_events tu p c s i tbl
    /\ forall j e r, tbl !! j = Some e -> rs !! j = Some r -> r = alone tu p c s (i + j)%nat e.
Proof.
  revert i. induction tbl as [|e tbl IH]; intros i; [by exists []|].
  destruct (IH (S i)) as (rs & Hl & He & Hr). exists (alone tu p c s i e :: rs). cbn.
  split; [by rewrite Hl|]. split.
  - unfold events_of in *. cbn. rewrite He. by destruct (_ || _).
  - intros [|j] e' r' Ht Hj; cbn in *; [simplify_eq; by rewrite Nat.add_0_r|].
    rewrite (Hr j e' r' Ht Hj). f_equal. lia.
Qed.

(** The slots of the caller's array can be written. *)
Definition slots_ok (ptr max : Z) m : Prop := forall k, 0 <= k < max -> is_Some (um_in m (ptr + 12 * k) 12).

Lemma report_count max ptr evs count m :
  wf m -> 0 <= ptr -> ptr + 12 * max < 2 ^ 64 -> 0 <= count <= max -> max < 2 ^ 63 -> slots_ok ptr max m ->
  snd (report max ptr evs count m) = Z.min max (count + len evs).
Proof.
  revert count m. induction evs as [|[r d] evs IH]; intros count m Hwf Hp Hm Hc Hmax Hs; cbn [report].
  { unfold len. cbn. lia. }
  assert (i64 max = max) as ->.
  { unfold i64, signed, wrap. rewrite Z.mod_small by lia. change (2 ^ (64 - 1)) with (2 ^ 63).
    by destruct (Z.ltb_spec max (2 ^ 63)); [|lia]. }
  destruct (Z.leb_spec max count) as [Hfull|Hroom]; [unfold len; cbn; lia|].
  assert (ptr ⊞ (count ⊠ 12) = ptr + 12 * count) as Ea.
  { rewrite (u64_small (count * 12)) by lia. rewrite u64_small by lia. lia. }
  rewrite Ea. assert (is_Some (um_out m (ptr + 12 * count) (event_bytes r d))) as [m1 E1].
  { apply um_out_in; [done|lia|]. replace (len (event_bytes r d)) with 12; [apply Hs; lia|].
    unfold len, event_bytes. by rewrite length_app, !le_bytes_length. }
  rewrite E1. assert (wf m1) as Hwf1 by (by apply (um_out_wf m (ptr + 12 * count) (event_bytes r d) m1 Hwf ltac:(lia))).
  rewrite IH; [unfold len; cbn [length]; lia|done|lia..|].
  intros k Hk.
  apply (um_in_same m (ptr + 12 * count) (event_bytes r d) m1 (ptr + 12 * k) 12 Hwf ltac:(lia) ltac:(lia) ltac:(lia) E1). by apply Hs.
Qed.

(** C32.  One turn of [epoll_wait] polls the network (whose polls return, by
    [StackReturns]), then stores in the caller's
    array, in table order and up to the room it gave, one event for exactly the
    entries in use that have something to report, and returns their number.
    What an entry reports is given by the state of what its descriptor names
    ([reports]): EPOLLIN of a socket, listener, pipe, timer or console that can
    be read, EPOLLOUT of a socket that can be written or whose connection
    attempt is over, EPOLLERR of a failed attempt, EPOLLHUP of a finished
    connection.  Sockets report EPOLLIN and EPOLLOUT as registered; the others
    report EPOLLIN whatever they were registered for. *)
Theorem epoll_reports_exactly tu ptr max (w : world N M) L :
  ok (w_socks w) L -> ep_ok (w_table w) -> Forall pipe_ok (pipes (w_pipes w)) -> wf (w_mem w) ->
  0 <= ptr -> 0 <= max < 2 ^ 63 -> ptr + 12 * max < 2 ^ 64 -> slots_ok ptr max (w_mem w) ->
  exists s1 w' rs, poll (fst (t_poll tu)) (snd (t_poll tu)) (w_socks w) = Ret s1 /\
    length rs = length (w_table w) /\
    (forall i e r, w_table w !! i = Some e -> rs !! i = Some r ->
       reports (t_lsr tu i) (t_here tu i) (w_pipes w) (w_clock w) s1 e r) /\
    let evs := events_of (w_table w) rs in
    epoll_turn tu ptr max w = Ret (w', Z.min max (len evs)) /\
    w_mem w' = fst (report max ptr evs 0 (w_mem w)) /\ ok (w_socks w') L.
Proof.
  intros Hok Htbl Hpi Hwf Hp Hm Hpm Hs.
  destruct (poll_ok (fst (t_poll tu)) (snd (t_poll tu)) (w_socks w) L Hok) as (s1 & E1 & _ & _ & _ & Hok1).
  destruct (scan_report tu max ptr (w_pipes w) (w_clock w) s1 (w_table w) 0 0 (w_clock w) s1 (w_mem w) L Hok1
    (ok_used_nonneg _ Htbl)) as (c' & s' & Hscan); [done|].
  pose proof (report_count max ptr (ready_events tu (w_pipes w) (w_clock w) s1 0 (w_table w)) 0 (w_mem w)
    Hwf Hp Hpm ltac:(lia) ltac:(lia) Hs) as Hcount.
  destruct (ready_events_of tu (w_pipes w) (w_clock w) s1 (w_table w) 0) as (rs & Hrl & Hre & Hra).
  rewrite <- Hre in *. destruct (report _ _ _ _ _) as [m' k] eqn:Er. cbn [snd] in Hcount.
  destruct Hscan as [Hscan Hok'].
  eexists s1, _, rs. split; [done|]. split; [done|]. split.
  { intros i e r He Hr. rewrite (Hra i e r He Hr). by eapply alone_reports. }
  cbn zeta. rewrite Er. unfold epoll_turn. rewrite E1. cbn [mbind outcome_bind].
  rewrite Hscan. cbn [mbind outcome_bind]. rewrite Hcount, Z.add_0_l. split; [reflexivity|]. done.
Qed.

(** ** Waiting *)

(** Clocks with one calibration. *)
Definition same_cal (c c' : clock) : Prop := TSC_FREQ_HZ c' = TSC_FREQ_HZ c /\ TSC_OFFSETS c' = TSC_OFFSETS c.
Lemma same_cal_trans c1 c2 c3 : same_cal c1 c2 -> same_cal c2 c3 -> same_cal c1 c3.
Proof. unfold same_cal. intuition congruence. Qed.

Lemma monotonic_cal h c : same_cal c (fst (monotonic_ns h c)).
Proof. done. Qed.
Lemma monotonic_reaches h c c0 :
  same_cal c0 c -> tsc_to_ns c0 (corrected_tsc_bsp h c0) <= snd (monotonic_ns h c).
Proof.
  intros [E1 E2]. unfold monotonic_ns, tsc_to_ns, corrected_tsc_bsp. cbn [snd]. rewrite E1, E2. apply Z.le_max_r.
Qed.
Lemma timerfd_ready_cal h c : same_cal c (fst (timerfd_ready h c)).
Proof. unfold timerfd_ready. destruct (_ =? 0); [done|]. by destruct (monotonic_ns h c) eqn:E; injection E as <- <-. Qed.

Lemma revents_cal lsr h p e c s c' s' r : epoll_revents lsr h p e c s = Ret (c', s', r) -> same_cal c c'.
Proof.
  unfold epoll_revents. pose proof (timerfd_ready_cal h c) as K. destruct (e_fd e =? 51).
  { destruct (timerfd_ready h c) as [c1 b]. by intros [= <- <- <-]. }
  destruct (e_fd e =? 0); [by intros [= <- <- <-]|]. destruct (is_pipe_fd _ _); [by intros [= <- <- <-]|].
  destruct (is_socket_fd _ _); [|by intros [= <- <- <-]].
  destruct (poll_socket _ _) as [[s1 sev]|]; cbn [mbind outcome_bind]; [|done]. by intros [= <- <- <-].
Qed.

Lemma scan_cal tu max ptr p tbl i count c s m c' s' m' k :
  epoll_scan tu max ptr p tbl i count c s m = Ret (c', s', m', k) -> same_cal c c' /\ count <= k.
Proof.
  revert i count c s m. induction tbl as [|e tbl IH]; intros i count c s m; cbn [epoll_scan]; [by intros [= <- <- <- <-]|].
  destruct (_ <=? _); [by intros [= <- <- <- <-]|]. destruct (_ <? _); [by intros ?%IH|].
  destruct (epoll_revents _ _ _ _ _ _) as [[[c1 s1] r]|] eqn:E; cbn [mbind outcome_bind]; [|done].
  apply revents_cal in E. intros Hs. enough (same_cal c1 c' /\ count <= k) as [H1 H2] by (eauto using same_cal_trans).
  destruct (r =? 0); [by apply IH in Hs|]. destruct (um_out _ _ _); apply IH in Hs as [? ?]; split; try done; lia.
Qed.

(** A state a wait runs in: the socket layer's invariant, a well-formed table,
    and the clock as calibrated. *)
Definition waits_in (c0 : clock) (L : list (Z * SkKind)) (w : world N M) : Prop :=
  ok (w_socks w) L /\ ep_ok (w_table w) /\ same_cal c0 (w_clock w).

Lemma epoll_turn_ok tu ptr max w c0 L :
  waits_in c0 L w -> exists w' k, epoll_turn tu ptr max w = Ret (w', k) /\ 0 <= k /\ waits_in c0 L w'.
Proof.
  intros (Hok & Ht & Hc). unfold epoll_turn.
  destruct (poll_ok (fst (t_poll tu)) (snd (t_poll tu)) (w_socks w) L Hok) as (s1 & -> & _ & _ & _ & Hok1).
  cbn [mbind outcome_bind].
  destruct (scan_report tu max ptr (w_pipes w) (w_clock w) s1 (w_table w) 0 0 (w_clock w) s1 (w_mem w) L Hok1
    (ok_used_nonneg _ Ht)) as (c' & s' & Hscan); [done|].
  destruct (report _ _ _ _ _) as [m' k]. destruct Hscan as [Hscan Hok']. rewrite Hscan. cbn [mbind outcome_bind].
  apply scan_cal in Hscan as [Hcal Hk]. eexists _, k. split; [reflexivity|]. split; [done|].
  split_and!; [done|done|]. by eapply same_cal_trans.
Qed.

Lemma epoll_loop_ends turns tu d ptr max w c0 L :
  Forall (fun tu => forall w, waits_in c0 L w -> waits_in c0 L (t_others tu w)) turns ->
  waits_in c0 L w -> d <= tsc_to_ns c0 (corrected_tsc_bsp (t_now tu) c0) ->
  exists w' r, epoll_loop (turns ++ [tu]) (Some d) ptr max w = Ret (w', Some r) /\ 0 <= r.
Proof.
  intros Ho. revert w. induction Ho as [|tu1 turns H1 _ IH]; intros w Hw Hd; cbn [app epoll_loop].
  - destruct (epoll_turn_ok tu ptr max w c0 L Hw) as (w1 & k & -> & Hk & (_ & _ & Hcal)). cbn [mbind outcome_bind].
    destruct (0 <? k); [by eexists _, k|]. destruct (d =? 0); [by eexists _, 0|].
    pose proof (monotonic_reaches (t_now tu) (w_clock w1) c0 Hcal) as Hn.
    destruct (monotonic_ns (t_now tu) (w_clock w1)) as [c1 now]. cbn [snd] in Hn.
    destruct (Z.leb_spec d now); [by eexists _, 0|lia].
  - destruct (epoll_turn_ok tu1 ptr max w c0 L Hw) as (w1 & k & -> & Hk & Hw1). cbn [mbind outcome_bind].
    destruct (0 <? k); [by eexists _, k|]. destruct (d =? 0); [by eexists _, 0|].
    pose proof (monotonic_cal (t_now tu1) (w_clock w1)) as Hcal.
    destruct (monotonic_ns (t_now tu1) (w_clock w1)) as [c1 now]. cbn [fst] in Hcal.
    destruct (d <=? now); [by eexists _, 0|]. apply IH; [|done]. apply H1.
    destruct Hw1 as (A1 & A2 & A3). split_and!; [done|done|]. by eapply same_cal_trans.
Qed.

(** C33.  A call of [epoll_wait] with a timeout returns, a count or zero, at the
    latest in the first turn whose clock is at the deadline, whatever the
    other threads do to sockets, pipes and registrations meanwhile, as long as
    the polls of the network return ([StackReturns]). *)
Theorem epoll_wait_ends turns tu h ptr max timeout (w : world N M) L :
  let c0 := w_clock w in
  waits_in c0 L w -> 0 < timeout < 2 ^ 31 ->
  Forall (fun tu => forall w, waits_in c0 L w -> waits_in c0 L (t_others tu w)) turns ->
  snd (monotonic_ns h c0) + timeout * 1000000 <= tsc_to_ns c0 (corrected_tsc_bsp (t_now tu) c0) ->
  exists w' r, sys_epoll_wait (turns ++ [tu]) h ptr max timeout w = Ret (w', Some r) /\ 0 <= r.
Proof.
  intros c0 Hw Ht Ho Hd. unfold sys_epoll_wait, epoll_deadline.
  destruct (Z.eqb_spec timeout (-1)); [lia|]. destruct (Z.eqb_spec timeout 0); [lia|].
  destruct (Z.ltb_spec 0 timeout); [|lia]. fold c0. pose proof (monotonic_cal h c0) as Hcal.
  destruct (monotonic_ns h c0) as [c1 now]. cbn [fst snd] in *.
  apply (epoll_loop_ends turns tu _ ptr max _ c0 L Ho).
  - destruct Hw as (A1 & A2 & A3). by split_and!.
  - unfold saturating_add. rewrite u64_small by lia. lia.
Qed.

(** [ppoll] on an array that cannot be accessed reports no error: without a
    timeout it never returns. *)
Theorem ppoll_bad_array_waits first turns ptr nfds (w : world N M) L :
  let bad w := ok (w_socks w) L /\ um_in (w_mem w) ptr (saturating_mul nfds 8) = None in
  Forall (fun tu => forall w, bad w -> bad (t_others tu w)) (first :: turns) -> bad w ->
  exists w', sys_ppoll first turns ptr nfds 0 w = Ret (w', None).
Proof.
  intros bad Ho Hw. apply Forall_cons in Ho as [Hf Ho]. unfold sys_ppoll. destruct Hw as [Hok Hm].
  destruct (poll_ok (fst (t_poll first)) (snd (t_poll first)) (w_socks w) L Hok) as (s1 & -> & _ & _ & _ & Hok1).
  cbn [mbind outcome_bind ppoll_deadline]. cbn. set (w1 := t_others first _).
  assert (bad w1) as Hb1 by (by apply Hf). unfold ppoll_turn, ppoll_scan. destruct Hb1 as [Hk1 Hm1]. rewrite Hm1.
  cbn [mbind outcome_bind]. cbn. set (w2 := set_w _ _ _ w1).
  assert (bad w2) as Hb2 by done. clearbody w2. clear -Ho Hb2 HS HR. revert w2 Hb2.
  induction Ho as [|tu turns Ht _ IH]; intros w2 Hb; cbn [ppoll_loop]; [by eexists|].
  destruct (Ht w2 Hb) as [Hk Hm].
  destruct (poll_ok (fst (t_poll tu)) (snd (t_poll tu)) _ L Hk) as (s3 & -> & _ & _ & _ & Hok3).
  cbn [mbind outcome_bind]. unfold ppoll_turn, ppoll_scan. cbn [w_mem set_w]. rewrite Hm. cbn [mbind outcome_bind].
  cbn. by apply IH.
Qed.

End Scan.
