(* ===== verification/Rng.v ===== *)
(** * The kernel's random number generator

    Models [src/src/rng.rs].  The ChaCha20 generator is a library: the class
    [Csprng] is its interface.  The hardware generator is two streams of
    attempts, [None] for an attempt that left the carry flag clear. *)

From S2P Require Import Prelude.

Class Csprng (R : Type) := {
  from_seed : list Z -> R;
  fill_bytes : R -> Z -> R * list Z;
}.
Class CsprngLaws (R : Type) `{Csprng R} : Prop := {
  fill_bytes_len r n : 0 <= n -> len (snd (fill_bytes r n)) = n;
}.

Definition RESEED_BYTES : Z := Z.shiftl 1 20.

(** What the processor has, and the attempts made so far of each kind. *)
Record HwRng := mkHw { rdrand : bool; rdseed : bool }.
Record attempts := mkAttempts { seeds : nat; rands : nat }.

(** CPUID leaf 1 ECX and leaf 7 EBX. *)
Definition detect (ecx1 ebx7 : Z) : HwRng := mkHw (Z.testbit ecx1 30) (Z.testbit ebx7 18).

Section Rng.
Context {R : Type} `{Csprng R}.
Context (rdseed_step rdrand_step : nat -> option Z).

(** At most [n] attempts from the [i]-th on. *)
Fixpoint try_step (step : nat -> option Z) (n i : nat) : nat * option Z :=
  match n with
  | O => (i, None)
  | S n' => match step i with Some v => (S i, Some v) | None => try_step step n' (S i) end
  end.

Definition hw_word (hw : HwRng) (a : attempts) : attempts * option Z :=
  let '(i, v) := if rdseed hw then try_step rdseed_step 1024 (seeds a) else (seeds a, None) in
  match v with
  | Some v => (mkAttempts i (rands a), Some v)
  | None =>
      let '(j, v) := if rdrand hw then try_step rdrand_step 64 (rands a) else (rands a, None) in
      (mkAttempts i j, v)
  end.

Fixpoint hw_words (n : nat) (hw : HwRng) (a : attempts) : outcome (attempts * list Z) :=
  match n with
  | O => Ret (a, [])
  | S n' =>
      let '(a, w) := hw_word hw a in
      match w with
      | None => Panic
      | Some w => '(a, ws) ← hw_words n' hw a; Ret (a, w :: ws)
      end
  end.

Definition fold_words (ws : list Z) : list Z :=
  zip_with Z.lxor (take 4 ws) (drop 4 ws) ≫= le_bytes 8.
Definition gather_seed (hw : HwRng) (a : attempts) : outcome (attempts * list Z) :=
  '(a, ws) ← hw_words 8 hw a; Ret (a, fold_words ws).

Record rng := mkRng { HW : HwRng; CSPRNG : option R; SINCE_RESEED : Z; hw_used : attempts }.
Definition rng_boot : rng := mkRng (mkHw false false) None 0 (mkAttempts 0 0).

Definition rng_init (hw : HwRng) (g : rng) : outcome rng :=
  if negb (rdrand hw) && negb (rdseed hw) then Panic else
  '(a, seed) ← gather_seed hw (hw_used g);
  Ret (mkRng hw (Some (from_seed seed)) 0 a).

Definition fill (n : Z) (g : rng) : outcome (rng * list Z) :=
  match CSPRNG g with
  | None => Panic
  | Some r =>
      let '(r, out) := fill_bytes r n in
      let total := SINCE_RESEED g ⊞ n in
      if RESEED_BYTES <=? total then
        '(a, newseed) ← gather_seed (HW g) (hw_used g);
        let '(_, cur) := fill_bytes r 32 in
        Ret (mkRng (HW g) (Some (from_seed (zip_with Z.lxor newseed cur))) 0 a, out)
      else Ret (mkRng (HW g) (Some r) total (hw_used g), out)
  end.

(** ** Properties *)
Lemma try_step_Some step n i j v : try_step step n i = (j, Some v) -> step (pred j) = Some v /\ (i < j <= i + n)%nat.
Proof.
  revert i. induction n as [|n IH]; intros i; cbn [try_step]; [done|].
  destruct (step i) as [w|] eqn:E; [intros [= <- <-]; cbn; split; [done|lia]|]. intros Ht.
  destruct (IH (S i) Ht). split; [done|lia].
Qed.

Lemma hw_word_accepted hw a a' v :
  hw_word hw a = (a', Some v) ->
  (rdseed hw = true /\ rdseed_step (pred (seeds a')) = Some v) \/
  (rdrand hw = true /\ rdrand_step (pred (rands a')) = Some v).
Proof.
  unfold hw_word. destruct (rdseed hw).
  - destruct (try_step rdseed_step 1024 (seeds a)) as [i [w|]] eqn:E.
    + intros [= <- <-]. left. split; [done|]. by apply try_step_Some in E as [? _].
    + destruct (rdrand hw); [|by intros [=]].
      destruct (try_step rdrand_step 64 (rands a)) as [j w] eqn:E2. intros [= <- ->]. right. split; [done|].
      by apply try_step_Some in E2 as [? _].
  - destruct (rdrand hw); [|by intros [=]].
    destruct (try_step rdrand_step 64 (rands a)) as [j w] eqn:E2. intros [= <- ->]. right. split; [done|].
    by apply try_step_Some in E2 as [? _].
Qed.

(** Seeded, and less than the reseed interval since. *)
Definition seeded (g : rng) : Prop := is_Some (CSPRNG g) /\ 0 <= SINCE_RESEED g < RESEED_BYTES.

Lemma rng_init_seeds hw g g' : rng_init hw g = Ret g' -> seeded g' /\ (rdrand hw = true \/ rdseed hw = true).
Proof.
  unfold rng_init. destruct (rdrand hw) eqn:E1, (rdseed hw) eqn:E2; cbn [negb andb]; try done;
    (destruct (gather_seed hw (hw_used g)) as [[a sd]|]; cbn [mbind outcome_bind]; [|done]); intros [= <-];
    (split; [split; [by eexists|by vm_compute]|tauto]).
Qed.

(** Every request is answered by the generator in place when it was made, in
    full, and leaves the generator seeded and within its interval. *)
Theorem fill_exact `{!CsprngLaws R} n g g' out :
  seeded g -> 0 <= n < 2 ^ 63 -> fill n g = Ret (g', out) ->
  exists r, CSPRNG g = Some r /\ out = snd (fill_bytes r n) /\ len out = n /\ seeded g'.
Proof.
  intros [[r Hr] Hs] Hn. unfold fill. rewrite Hr. pose proof (fill_bytes_len r n ltac:(lia)) as Hl.
  destruct (fill_bytes r n) as [r1 o] eqn:Ef. cbn [snd] in *. unfold RESEED_BYTES in *. change (Z.shiftl 1 20) with 1048576 in *.
  rewrite u64_small by lia. destruct (Z.leb_spec 1048576 (SINCE_RESEED g + n)).
  - destruct (gather_seed (HW g) (hw_used g)) as [[a sd]|]; cbn [mbind outcome_bind]; [|done].
    destruct (fill_bytes r1 32) as [r2 cur]. intros [= <- <-]. exists r. rewrite Ef. do 3 (split; [done|]).
    split; [by eexists|by vm_compute].
  - intros [= <- <-]. exists r. rewrite Ef. do 3 (split; [done|]). split; [by eexists|cbn; unfold RESEED_BYTES].
    change (Z.shiftl 1 20) with 1048576. lia.
Qed.

End Rng.
#[global] Arguments rng R : clear implicits.
