(* ===== verification/Syscalls.v ===== *)
(** * The file system calls

    Models the calls of [src/src/syscall.rs] that work on descriptors and paths:
    how [read], [write], [close] and the others find the component that a
    descriptor number belongs to (RAM filesystem, archive, pipes, sockets,
    synthetic files) and what they pass on.  The state is the components'
    states side by side.  [tt] holds the clock readings of a poll of the stack;
    [cpio] is the archive.  Serial output is the list of bytes sent. *)

From S2P Require Import Prelude TmpfsTree Uaccess FdTable Cpio Tmpfs Vfs Pipe Clock Socket Epoll Rng.

(** Loads through a raw user pointer: a fault in the kernel under SMAP. *)
Class RawLoad (M : Type) := raw_load : M -> Z -> Z -> outcome (list Z).
#[export] Instance machine_raw_load : RawLoad machine := fun m a n => vload_n (Z.to_nat n) m a.

Definition FD_DEVNULL : Z := 100.
Definition FD_SYNTH_ZERO : Z := 101.
Definition FD_SYNTH_DIR : Z := 102.
Definition FD_DEV_RANDOM : Z := 103.
Definition FD_RESOLV_CONF : Z := 104.
Definition MARK : list Z := bstr "serial_shell ready".

Definition ends_with (s suffix : list Z) : bool :=
  (length suffix <=? length s)%nat && bool_decide (drop (length s - length suffix) s = suffix).
(** [windows(w.len()).any(|x| x == w)] for a nonempty [w]. *)
Fixpoint has_window (w s : list Z) : bool :=
  match s with
  | [] => false
  | _ :: r => bool_decide (take (length w) s = w) || has_window w r
  end.

(** [Display] of an address, and [resolv_conf] of [src/src/net/mod.rs]. *)
Definition show_byte (b : Z) : list Z :=
  (if 100 <=? b then [48 + b / 100] else []) ++ (if 10 <=? b then [48 + b / 10 mod 10] else []) ++ [48 + b mod 10].
Fixpoint show_addr (a : list Z) : list Z :=
  match a with
  | [] => []
  | [b] => show_byte b
  | b :: r => show_byte b ++ [46] ++ show_addr r
  end.
Definition resolv_conf (dns : list (list Z)) : list Z :=
  dns ≫= (fun a => bstr "nameserver " ++ show_addr a ++ [10]).

Section Syscalls.
Context {N : Type} `{Stack N}.
Context {R : Type} `{Csprng R}.
Context (rdseed_step rdrand_step : nat -> option Z).
Context (cpio : list Z).

Record kernel := mkKernel {
  k_tmp : Tmpfs.state;
  k_vfs : vstate;
  k_pipes : pstate;
  k_table : list EpollEntry;
  k_clock : clock;
  k_socks : socks N;
  k_rng : rng R;
  k_resolv : list Z * Z; (* RESOLV: content and position *)
  k_serial : list Z;
  k_quiet : bool;
  k_blocking : bool; (* FUTEX_BLOCKING *)
}.
Definition set_tmp x k := mkKernel x (k_vfs k) (k_pipes k) (k_table k) (k_clock k) (k_socks k) (k_rng k) (k_resolv k) (k_serial k) (k_quiet k) (k_blocking k).
Definition set_vfs x k := mkKernel (k_tmp k) x (k_pipes k) (k_table k) (k_clock k) (k_socks k) (k_rng k) (k_resolv k) (k_serial k) (k_quiet k) (k_blocking k).
Definition set_pipes x k := mkKernel (k_tmp k) (k_vfs k) x (k_table k) (k_clock k) (k_socks k) (k_rng k) (k_resolv k) (k_serial k) (k_quiet k) (k_blocking k).
Definition set_table x k := mkKernel (k_tmp k) (k_vfs k) (k_pipes k) x (k_clock k) (k_socks k) (k_rng k) (k_resolv k) (k_serial k) (k_quiet k) (k_blocking k).
Definition set_clock x k := mkKernel (k_tmp k) (k_vfs k) (k_pipes k) (k_table k) x (k_socks k) (k_rng k) (k_resolv k) (k_serial k) (k_quiet k) (k_blocking k).
Definition set_socks x k := mkKernel (k_tmp k) (k_vfs k) (k_pipes k) (k_table k) (k_clock k) x (k_rng k) (k_resolv k) (k_serial k) (k_quiet k) (k_blocking k).
Definition set_rng x k := mkKernel (k_tmp k) (k_vfs k) (k_pipes k) (k_table k) (k_clock k) (k_socks k) x (k_resolv k) (k_serial k) (k_quiet k) (k_blocking k).
Definition set_resolv x k := mkKernel (k_tmp k) (k_vfs k) (k_pipes k) (k_table k) (k_clock k) (k_socks k) (k_rng k) x (k_serial k) (k_quiet k) (k_blocking k).
Definition send_serial x k := mkKernel (k_tmp k) (k_vfs k) (k_pipes k) (k_table k) (k_clock k) (k_socks k) (k_rng k) (k_resolv k) (k_serial k ++ x) (k_quiet k) (k_blocking k).
Definition boot_complete k := mkKernel (k_tmp k) (k_vfs k) (k_pipes k) (k_table k) (k_clock k) (k_socks k) (k_rng k) (k_resolv k) (k_serial k) true true.

Section Mem.
Context {M : Type} `{UserMem M} `{RawLoad M}.

(** ** Paths *)

(** [copy_user_cstr] through the interface of user memory. *)
Fixpoint um_cstr (left : nat) (m : M) (src n : Z) (dst : list Z) : result (list Z) :=
  match left with
  | O => Ok dst
  | S left' =>
      match um_in m (src ⊞ n) 1 with
      | Some [b] => if b =? 0 then Ok dst else um_cstr left' m src (n + 1) (dst ++ [b])
      | _ => Err (- EFAULT)
      end
  end.
Definition copy_path (ptr : Z) (m : M) : list Z :=
  match um_cstr 255 m ptr 0 [] with Ok p => p | Err _ => [] end.

(** The arms that act on a path of the RAM filesystem, or fail with [err]. *)
Definition on_tmp (ptr : Z) (err : Z) (m : M) (k : kernel) (f : list Z -> Tmpfs.state -> outcome (Tmpfs.state * Z))
    : outcome (kernel * Z) :=
  let path := copy_path ptr m in
  if owns_path path then '(t, r) ← f path (k_tmp k); Ret (set_tmp t k, r) else Ret (k, err).
Definition sys_access (ptr : Z) (m : M) (k : kernel) : outcome (kernel * Z) :=
  on_tmp ptr (- ENOENT) m k (fun p t => Ret (t, Tmpfs.access p t)).
Definition sys_truncate (ptr length_ : Z) (m : M) (k : kernel) : outcome (kernel * Z) :=
  on_tmp ptr (- 13) m k (fun p t => Tmpfs.truncate p length_ t).
Definition sys_mkdir (ptr mode : Z) (m : M) (k : kernel) : outcome (kernel * Z) :=
  on_tmp ptr (- 13) m k (fun p t => Ret (Tmpfs.mkdir p mode t)).
Definition sys_rmdir (ptr : Z) (m : M) (k : kernel) : outcome (kernel * Z) :=
  on_tmp ptr (- 13) m k (fun p t => Ret (Tmpfs.rmdir p t)).
Definition sys_unlink (ptr : Z) (m : M) (k : kernel) : outcome (kernel * Z) :=
  on_tmp ptr (- 13) m k (fun p t => Ret (Tmpfs.unlink p t)).
Definition sys_unlinkat (ptr flags : Z) (m : M) (k : kernel) : outcome (kernel * Z) :=
  on_tmp ptr (- 13) m k (fun p t => Ret (if negb (Z.land flags 0x200 =? 0) then Tmpfs.rmdir p t else Tmpfs.unlink p t)).
Definition sys_rename (old_ptr new_ptr : Z) (m : M) (k : kernel) : outcome (kernel * Z) :=
  let old := copy_path old_ptr m in
  let new := copy_path new_ptr m in
  if owns_path old && owns_path new then
    let '(t, r) := Tmpfs.rename old new (k_tmp k) in Ret (set_tmp t k, r)
  else Ret (k, - 18).

Definition synth_cpu_file (path : list Z) : bool :=
  starts_with path (bstr "/sys/devices/system/cpu/cpu") &&
  (ends_with path (bstr "/topology/physical_package_id") || ends_with path (bstr "/topology/core_id")
   || ends_with path (bstr "/topology/thread_siblings_list") || ends_with path (bstr "/topology/core_siblings_list")).
Definition synth_dir (path : list Z) : bool :=
  bool_decide (path = bstr "/sys/devices/system/node") || bool_decide (path = bstr "/sys/devices/system/cpu")
  || starts_with path (bstr "/sys/devices/system/node/node") || starts_with path (bstr "/sys/devices/system/cpu/cpu").

Definition open_path (path : list Z) (flags mode : Z) (k : kernel) : outcome (kernel * Z) :=
  if bool_decide (path = bstr "/dev/null") then Ret (k, FD_DEVNULL) else
  if bool_decide (path = bstr "/dev/urandom") || bool_decide (path = bstr "/dev/random") then Ret (k, FD_DEV_RANDOM) else
  if bool_decide (path = bstr "/tyn/resolv.conf") then
    Ret (set_resolv (resolv_conf (DNS_SERVERS (k_socks k)), 0) k, FD_RESOLV_CONF) else
  if synth_cpu_file path then Ret (k, FD_SYNTH_ZERO) else
  if synth_dir path then Ret (k, FD_SYNTH_DIR) else
  if owns_path path then let '(t, r) := Tmpfs.open path flags mode (k_tmp k) in Ret (set_tmp t k, r) else
  '(v, vfs_fd) ← Vfs.open cpio path (k_vfs k);
  let k := set_vfs v k in
  if 0 <=? vfs_fd then Ret (k, vfs_fd) else
  d ← is_dir_prefix cpio path;
  if d : bool then let '(v, r) := open_dir path (k_vfs k) in Ret (set_vfs v k, r) else Ret (k, - ENOENT).
Definition sys_open (path_ptr flags mode : Z) (m : M) (k : kernel) : outcome (kernel * Z) :=
  open_path (copy_path path_ptr m) flags mode k.

(** ** Status *)

(** The 144-byte [struct stat]. *)
Definition stat_buf (mode size blksize : Z) : list Z :=
  replicate 24 0 ++ le_bytes 4 mode ++ replicate 20 0 ++ le_bytes 8 size ++ le_bytes 8 blksize ++ replicate 80 0.
Definition out_or_fault (buf : Z) (bs : list Z) (r : Z) (m : M) : M * Z :=
  match um_out m buf bs with Some m => (m, r) | None => (m, - EFAULT) end.
Definition put_stat (buf : Z) (st : list Z) (m : M) : M * Z :=
  if buf =? 0 then (m, 0) else out_or_fault buf st 0 m.

Definition sys_stat (path_ptr buf : Z) (m : M) (k : kernel) : outcome (kernel * M * Z) :=
  let path := copy_path path_ptr m in
  if owns_path path then let '(m, r) := Tmpfs.stat path buf (k_tmp k) m in Ret (k, m, r) else
  if bool_decide (path = bstr "/dev/urandom") || bool_decide (path = bstr "/dev/random") || bool_decide (path = bstr "/dev/null")
  then let '(m, r) := put_stat buf (stat_buf 0x21b6 0 0) m in Ret (k, m, r) else
  if bool_decide (path = bstr "/tyn/resolv.conf") then
    let '(m, r) := put_stat buf (stat_buf 0x81a4 (len (resolv_conf (DNS_SERVERS (k_socks k)))) 0) m in Ret (k, m, r) else
  '(v, vfs_fd) ← Vfs.open cpio path (k_vfs k);
  if 0 <=? vfs_fd then
    size ← fstat_size (i32 vfs_fd) v;
    let '(v, _) := Vfs.close (i32 vfs_fd) v in
    let '(m, r) := put_stat buf (stat_buf 0x81a4 (default 0 size) 4096) m in
    Ret (set_vfs v k, m, r)
  else
    let k := set_vfs v k in
    d ← is_dir_prefix cpio path;
    if d || synth_dir path then let '(m, r) := put_stat buf (stat_buf 0x41ed 0 0) m in Ret (k, m, r)
    else Ret (k, m, - ENOENT).

Definition sys_fstat (fd buf : Z) (m : M) (k : kernel) : outcome (M * Z) :=
  if is_tmpfs_fd (k_tmp k) fd then Ret (Tmpfs.fstat fd buf (k_tmp k) m) else
  if (fd =? FD_SYNTH_DIR) || is_dir_fd fd (k_vfs k) then Ret (put_stat buf (stat_buf 0x41ed 0 4096) m) else
  if (fd =? FD_DEV_RANDOM) || (fd =? FD_DEVNULL) then Ret (put_stat buf (stat_buf 0x21b6 0 4096) m) else
  if fd =? FD_RESOLV_CONF then Ret (put_stat buf (stat_buf 0x81a4 (len (fst (k_resolv k))) 4096) m) else
  size ← fstat_size fd (k_vfs k);
  Ret (put_stat buf (stat_buf 0x81a4 (default 0 size) 4096) m).

Definition sys_newfstatat (dirfd path_ptr buf : Z) (m : M) (k : kernel) : outcome (kernel * M * Z) :=
  let by_path := negb (path_ptr =? 0) &&
    match um_in m path_ptr 1 with Some [b] => negb (b =? 0) | _ => false end in
  if by_path then sys_stat path_ptr buf m k
  else '(m, r) ← sys_fstat dirfd buf m k; Ret (k, m, r).

Definition sys_getdents64 (fd buf count : Z) (m : M) (k : kernel) : outcome (kernel * M * Z) :=
  if fd =? FD_SYNTH_DIR then Ret (k, m, 0) else
  if is_tmpfs_fd (k_tmp k) fd then
    '(t, m, r) ← Tmpfs.getdents64 fd buf count (k_tmp k) m; Ret (set_tmp t k, m, r)
  else '(v, m, r) ← Vfs.getdents64 cpio fd buf count (k_vfs k) m; Ret (set_vfs v k, m, r).

(** ** Reading and writing *)

Definition sys_write (tt : Z * Z) (fd buf count : Z) (m : M) (k : kernel) : outcome (kernel * M * Z) :=
  if is_tmpfs_fd (k_tmp k) fd then '(t, r) ← Tmpfs.write fd buf count (k_tmp k) m; Ret (set_tmp t k, m, r) else
  if (fd =? 1) || (fd =? 2) then
    match um_in m buf count with
    | None => Ret (k, m, - EFAULT)
    | Some bs =>
        let k := send_serial bs k in
        let found := negb (k_quiet k) && (len MARK <=? count) && has_window MARK bs in
        Ret (if found then boot_complete k else k, m, i64 count)
    end
  else if fd =? FD_DEVNULL then Ret (k, m, i64 count)
  else if is_pipe_fd fd (k_pipes k) then '(p, m, r) ← Pipe.write fd buf count (k_pipes k) m; Ret (set_pipes p k, m, r)
  else if is_socket_fd fd (k_socks k) then
    '(s, r) ← sys_sendto (fst tt) (snd tt) fd buf count 0 m (k_socks k); Ret (set_socks s k, m, r)
  else Ret (k, m, - EBADF).

(** The bytes [rx] that the serial line delivers; what is stored, and echoed. *)
Fixpoint stdin_loop (rx : list Z) (room : nat) (buf n : Z) (m : M) (k : kernel) : outcome (kernel * M * Z) :=
  match rx, room with
  | byte :: rx, S room =>
      let '(b, echo) := if (byte =? 13) || (byte =? 10) then (10, [13; 10])
                        else if (byte =? 0x7f) || (byte =? 0x08) then (0x7f, [8; 32; 8])
                        else (byte, [byte]) in
      m ← um_raw m (buf ⊞ n) [b];
      stdin_loop rx room buf (n + 1) m (send_serial echo k)
  | _, _ => Ret (k, m, n)
  end.
(** [None]: nothing typed yet. *)
Definition sys_read_stdin (rx : list Z) (buf count : Z) (m : M) (k : kernel) : outcome (kernel * M * option Z) :=
  if count =? 0 then Ret (k, m, Some 0) else
  match rx with
  | [] => Ret (k, m, None)
  | _ => '(k, m, n) ← stdin_loop rx (Z.to_nat count) buf 0 m k; Ret (k, m, Some n)
  end.

(** [fill_raw] into a checked window. *)
Definition fill_user (buf count : Z) (m : M) (k : kernel) : outcome (kernel * M * Z) :=
  match um_in m buf count with
  | None => Ret (k, m, - EFAULT)
  | Some _ =>
      '(g, out) ← fill rdseed_step rdrand_step count (k_rng k);
      match um_out m buf out with Some m => Ret (set_rng g k, m, i64 count) | None => Panic end
  end.
Definition sys_getrandom (buf len_ : Z) (m : M) (k : kernel) : outcome (kernel * M * Z) :=
  if (buf =? 0) || (len_ =? 0) then Ret (k, m, 0) else fill_user buf len_ m k.

Definition read_resolv (buf count : Z) (m : M) (k : kernel) : kernel * M * Z :=
  let '(content, pos) := k_resolv k in
  let remaining := saturating_sub (len content) pos in
  if remaining =? 0 then (k, m, 0) else
  let n := Z.min remaining count in
  match um_out m buf (take (Z.to_nat n) (drop (Z.to_nat pos) content)) with
  | None => (k, m, - EFAULT)
  | Some m => (set_resolv (content, pos + n) k, m, n)
  end.

Definition sys_read (tt : Z * Z) (h : here) (rx : list Z) (fd buf count : Z) (m : M) (k : kernel)
    : outcome (kernel * M * option Z) :=
  let ret (x : kernel * M * Z) := let '(k, m, r) := x in Ret (k, m, Some r) in
  if fd =? 0 then sys_read_stdin rx buf count m k else
  if is_tmpfs_fd (k_tmp k) fd then '(t, m, r) ← Tmpfs.read fd buf count (k_tmp k) m; ret (set_tmp t k, m, r) else
  if is_vfs_fd fd (k_vfs k) then '(v, m, r) ← Vfs.read cpio fd buf count (k_vfs k) m; ret (set_vfs v k, m, r) else
  if is_pipe_fd fd (k_pipes k) then '(p, m, r) ← Pipe.read fd buf count (k_pipes k) m; ret (set_pipes p k, m, r) else
  if fd =? FD_DEV_RANDOM then
    if count =? 0 then ret (k, m, 0) else x ← fill_user buf count m k; ret x
  else
  if fd =? FD_RESOLV_CONF then ret (read_resolv buf count m k) else
  if fd =? FD_SYNTH_ZERO then
    if 2 <=? count then let '(m, r) := out_or_fault buf (bstr "0" ++ [10]) 2 m in ret (k, m, r) else ret (k, m, 0)
  else
  if fd =? 51 then
    let '(c, n) := timerfd_consume h (k_clock k) in
    let k := set_clock c k in
    if n =? 0 then ret (k, m, - EAGAIN) else
    m ← (if 8 <=? count then um_raw m buf (le_bytes 8 n) else Ret m);
    ret (k, m, 8)
  else
  if is_socket_fd fd (k_socks k) then
    '(m, s, r) ← sys_recvfrom (fst tt) (snd tt) fd buf count 0 0 m (k_socks k); ret (set_socks s k, m, r)
  else ret (k, m, 0).

(** An [IoVec] of a user array. *)
Definition read_user_iovec (iov i : Z) (m : M) : option (Z * Z) :=
  v ← um_in m (iov ⊞ (i ⊠ 16)) 16; Some (le_val (take 8 v), le_val (drop 8 v)).

(** The entries from the [i]-th on, [left] of them. *)
Fixpoint writev_loop (tt : Z * Z) (left : nat) (fd iov i total : Z) (m : M) (k : kernel) : outcome (kernel * M * Z) :=
  match left with
  | O => Ret (k, m, total)
  | S left' =>
      match read_user_iovec iov i m with
      | None => Ret (k, m, if 0 <? total then total else - EFAULT)
      | Some (base, vlen) =>
          if vlen =? 0 then writev_loop tt left' fd iov (i + 1) total m k else
          '(k, m, written) ← sys_write tt fd base vlen m k;
          if written <? 0 then Ret (k, m, if 0 <? total then total else written) else
          let total := i64 (total + written) in
          if written <? vlen then Ret (k, m, total) else writev_loop tt left' fd iov (i + 1) total m k
      end
  end.
Definition sys_writev (tt : Z * Z) (fd iov iovcnt : Z) (m : M) (k : kernel) : outcome (kernel * M * Z) :=
  writev_loop tt (Z.to_nat iovcnt) fd iov 0 0 m k.

(** [readv]; a read of the serial line that has to wait is [None]. *)
Fixpoint readv_loop (tt : Z * Z) (h : here) (rx : list Z) (left : nat) (fd iov i total : Z) (m : M) (k : kernel)
    : outcome (kernel * M * option Z) :=
  match left with
  | O => Ret (k, m, Some total)
  | S left' =>
      match read_user_iovec iov i m with
      | None => Ret (k, m, Some (if total =? 0 then - EFAULT else total))
      | Some (base, vlen) =>
          '(k, m, r) ← sys_read tt h rx fd base vlen m k;
          match r with
          | None => Ret (k, m, None)
          | Some n =>
              if n <? 0 then Ret (k, m, Some (if total =? 0 then n else total)) else
              let total := i64 (total + n) in
              if n <? vlen then Ret (k, m, Some total) else readv_loop tt h (drop (Z.to_nat n) rx) left' fd iov (i + 1) total m k
          end
      end
  end.

Definition sys_pread64 (fd buf count offset : Z) (m : M) (k : kernel) : outcome (M * Z) :=
  if is_tmpfs_fd (k_tmp k) fd then Tmpfs.pread fd buf count offset (k_tmp k) m
  else if is_vfs_fd fd (k_vfs k) then Vfs.pread cpio fd buf count offset (k_vfs k) m
  else Ret (m, 0).
Definition sys_pwrite64 (fd buf count offset : Z) (m : M) (k : kernel) : outcome (kernel * Z) :=
  if is_tmpfs_fd (k_tmp k) fd then '(t, r) ← Tmpfs.pwrite fd buf count offset (k_tmp k) m; Ret (set_tmp t k, r)
  else Ret (k, - EBADF).
Definition sys_lseek (fd offset whence : Z) (k : kernel) : outcome (kernel * Z) :=
  if is_tmpfs_fd (k_tmp k) fd then let '(t, r) := Tmpfs.lseek fd offset whence (k_tmp k) in Ret (set_tmp t k, r)
  else if is_vfs_fd fd (k_vfs k) then '(v, r) ← Vfs.lseek fd offset whence (k_vfs k); Ret (set_vfs v k, r)
  else Ret (k, 0).
Definition sys_dup (fd : Z) (k : kernel) : outcome (kernel * Z) :=
  if is_vfs_fd fd (k_vfs k) then '(v, r) ← Vfs.dup fd (k_vfs k); Ret (set_vfs v k, r) else Ret (k, - EBADF).
Definition sys_ftruncate (fd length_ : Z) (k : kernel) : outcome (kernel * Z) :=
  '(t, r) ← Tmpfs.ftruncate fd length_ (k_tmp k); Ret (set_tmp t k, r).

(** ** sendfile

    [kbuf] is the address of the handler's buffer on the kernel stack.  Each
    round that goes on has sent at least a byte, so [fuel] above the count is
    enough. *)
Definition CHUNK : Z := 4096.
Fixpoint sendfile_loop (fuel : nat) (tt : Z * Z) (kbuf out_fd in_fd off total remaining : Z) (m : M) (k : kernel)
    : outcome (kernel * M * (Z + Z)) := (* [inl]: the call returns; [inr]: the offset at the end, total being its advance *)
  match fuel with
  | O => Ret (k, m, inr off)
  | S fuel' =>
      if remaining =? 0 then Ret (k, m, inr off) else
      let want := Z.min remaining CHUNK in
      '(m, nread) ← Vfs.pread cpio in_fd kbuf want off (k_vfs k) m;
      if nread <? 0 then Ret (k, m, if 0 <? total then inr off else inl nread) else
      if nread =? 0 then Ret (k, m, inr off) else
      '(s, nsent) ← sys_sendto (fst tt) (snd tt) out_fd kbuf nread 0 m (k_socks k);
      let k := set_socks s k in
      if nsent <? 0 then Ret (k, m, if 0 <? total then inr off else inl nsent) else
      if nsent <? nread then Ret (k, m, inr (off ⊞ nsent)) else
      sendfile_loop fuel' tt kbuf out_fd in_fd (off ⊞ nsent) (total + nsent) (remaining - nsent) m k
  end.
Definition sys_sendfile (tt : Z * Z) (kbuf out_fd in_fd offset_ptr count : Z) (m : M) (k : kernel)
    : outcome (kernel * M * Z) :=
  if negb (is_socket_fd out_fd (k_socks k)) then Ret (k, m, - EINVAL) else
  if negb (is_vfs_fd in_fd (k_vfs k)) then Ret (k, m, - EINVAL) else
  let use_offset := negb (offset_ptr =? 0) in
  '(k, start) ← (if use_offset then bs ← raw_load m offset_ptr 8; Ret (k, le_val bs)
                 else '(v, p) ← Vfs.lseek in_fd 0 1 (k_vfs k); Ret (set_vfs v k, p));
  if start <? 0 then Ret (k, m, start) else
  '(k, m, r) ← sendfile_loop (S (Z.to_nat count)) tt kbuf out_fd in_fd start 0 count m k;
  match r with
  | inl e => Ret (k, m, e)
  | inr off =>
      if use_offset then m ← um_raw m offset_ptr (le_bytes 8 off); Ret (k, m, i64 (off ⊟ start))
      else '(v, _) ← Vfs.lseek in_fd (i64 off) 0 (k_vfs k); Ret (set_vfs v k, m, i64 (off ⊟ start))
  end.

(** ** Descriptors *)

(** [t] is the closing time of a socket, [tt] the clocks of the poll after. *)
Definition sys_close (t : Z) (tt : Z * Z) (fd : Z) (k : kernel) : outcome kernel :=
  let k := set_table (epoll_drop_fd fd (k_table k)) k in
  let k := set_tmp (fst (Tmpfs.close fd (k_tmp k))) k in
  let k := set_vfs (fst (Vfs.close fd (k_vfs k))) k in
  let k := set_vfs (fst (close_dir fd (k_vfs k))) k in
  let k := set_pipes (Pipe.close fd (k_pipes k)) k in
  s ← Socket.close t fd (k_socks k);
  s ← poll (fst tt) (snd tt) s;
  Ret (set_socks s k).

Definition sys_fcntl (fd cmd arg : Z) (k : kernel) : outcome (kernel * Z) :=
  if cmd =? 4 then
    let nb := negb (Z.land arg 0x800 =? 0) in
    if is_pipe_fd fd (k_pipes k) then Ret (set_pipes (Pipe.set_nonblock fd nb (k_pipes k)) k, 0)
    else if is_socket_fd fd (k_socks k) then s ← Socket.set_nonblock fd nb (k_socks k); Ret (set_socks s k, 0)
    else Ret (k, 0)
  else Ret (k, 0).

Definition sys_pipe (fds : Z) (m : M) (k : kernel) : kernel * M * Z :=
  if fds =? 0 then (k, m, - EINVAL) else
  let '(p, (r, w)) := Pipe.create (k_pipes k) in
  let '(m, e) := out_or_fault fds (le_bytes 4 r ++ le_bytes 4 w) 0 m in
  (set_pipes p k, m, e).

(** ** Small calls *)

Definition sys_readlink (path buf bufsiz : Z) (m : M) : M * Z :=
  if bool_decide (copy_path path m = bstr "/proc/self/exe") then
    let target := bstr "/otp/erts-15.2.7/bin/beam.smp" in
    let n := Z.min (len target) bufsiz in
    out_or_fault buf (take (Z.to_nat n) target) n m
  else (m, - EINVAL).
Definition sys_getcwd (buf size : Z) (m : M) : M * Z :=
  if size <? 2 then (m, - 34) else out_or_fault buf [47; 0] 1 m.
Definition uname_fields : list (list Z) :=
  [bstr "Linux"; bstr "tyn.local"; bstr "6.1.0-tyn"; bstr "Tyn Kernel"; bstr "x86_64"].
Definition sys_uname (buf : Z) (m : M) : M * Z :=
  out_or_fault buf (uname_fields ≫= (fun f => f ++ replicate (65 - length f) 0)) 0 m.
Definition sys_sched_getaffinity (num_cpus len_ mask : Z) (m : M) : M * Z :=
  if 8 <=? len_ then
    let ncpus := Z.min num_cpus 64 in
    let mask_val := if 64 <=? ncpus then u64_max else Z.shiftl 1 ncpus - 1 in
    out_or_fault mask (le_bytes 8 mask_val ++ replicate (Z.to_nat (len_ - 8)) 0) 8 m
  else (m, - EINVAL).
Definition sys_prlimit64 (old : Z) (m : M) : M * Z :=
  if old =? 0 then (m, 0) else out_or_fault old (le_bytes 8 (8 * 1024 * 1024) ++ le_bytes 8 u64_max) 0 m.

End Mem.
End Syscalls.
#[global] Arguments kernel N R : clear implicits.
