(* ===== verification/Dispatch.v ===== *)
(** * The system call dispatcher

    Models [syscall_dispatch_inner] of [src/src/syscall.rs]: from the number and
    the five argument registers to the handler, with the conversions of the
    arguments, and the handlers written in the arms themselves ([gettimeofday],
    [getrusage], [select], [sendmsg], [recvmsg]).  A call returns, goes on in the
    scheduler ([ToSched]: the operations of [Sched]), or waits ([Waits]: the
    loops of [Socket], [Epoll] and [Syscalls] that take turns). *)

From S2P Require Import Prelude TmpfsTree Uaccess FdTable Cpio Tmpfs Vfs Pipe Clock Mmap Socket Epoll Rng Syscalls.

(** What a handler finds around it: the thread's number and its saved R9, the
    number of CPUs, the buffer of [sendfile] on the kernel stack, the clock
    readings of a poll and of a close, the places of its counter reads, the bytes
    on the serial line, and the pages of the paravirtual clock. *)
Record env := mkEnv {
  e_thread : Z;
  e_r9 : Z;
  e_cpus : Z;
  e_kbuf : Z;
  e_poll : Z * Z;
  e_close : Z;
  e_here : here;
  e_here2 : here;
  e_rx : list Z;
  e_page : nat -> VcpuTimeInfo;
  e_pv : pvclock;
}.

Inductive sched_call :=
  | SSetFs (addr : Z)
  | SClone (fn_ptr stack tls child_tid parent_tid flags : Z)
  | SFutexWait (uaddr val : Z) (deadline : option Z)
  | SFutexWake (uaddr val : Z)
  | SYield
  | SExit
  | SHalt (status : Z).
Inductive wait_call :=
  | WAccept (fd addr_ptr addrlen_ptr flags : Z)
  | WEpoll (events_ptr maxevents timeout_ms : Z)
  | WPpoll (fds_ptr nfds timeout_ptr : Z)
  | WSelect (deadline : option Z)
  | WStdin.
Inductive answer :=
  | Returns (r : Z)
  | ToSched (c : sched_call)
  | Waits (w : wait_call).

Definition ENOSYS : Z := 38.

Section Dispatch.
Context {N : Type} `{Stack N}.
Context {R : Type} `{Csprng R}.
Context (rdseed_step rdrand_step : nat -> option Z).
Context (cpio : list Z).
Context {M : Type} `{UserMem M} `{RawLoad M}.

Record os := mkOs { o_k : kernel N R; o_mm : mm }.

(** The relative [timespec] of a user pointer as a deadline. *)
Definition read_deadline (ptr : Z) (h : here) (m : M) (c : clock) : option (clock * option Z) :=
  if ptr =? 0 then Some (c, None) else
  ts ← um_in m ptr 16;
  let dur := saturating_add (saturating_mul (le_val (take 8 ts)) 1000000000) (le_val (drop 8 ts)) in
  let '(c, now) := monotonic_ns h c in Some (c, Some (saturating_add now dur)).

Definition sys_futex (uaddr op val timeout_ptr : Z) (h : here) (m : M) (k : kernel N R) : kernel N R * answer :=
  let cmd := Z.land op 0x7f in
  if (cmd =? 0) || (cmd =? 9) then
    match read_deadline timeout_ptr h m (k_clock k) with
    | None => (k, Returns (- EFAULT))
    | Some (c, d) => (set_clock c k, ToSched (SFutexWait uaddr (u32 val) d))
    end
  else if cmd =? 1 then (k, ToSched (SFutexWake uaddr (u32 val)))
  else (k, Returns 0).

Definition sys_clone (e : env) (flags stack parent_tid child_tid tls : Z) : answer :=
  if stack =? 0 then Returns (- EINVAL) else ToSched (SClone (e_r9 e) stack tls child_tid parent_tid flags).

Definition sys_arch_prctl (code addr : Z) : answer :=
  if code =? 0x1002 then ToSched (SSetFs addr) else Returns (- EINVAL).

Definition sys_gettimeofday (e : env) (tv : Z) (m : M) (c : clock) : outcome (M * clock * Z) :=
  if tv =? 0 then Ret (m, c, 0) else
  let '(c, ns) := realtime_ns (e_page e) (e_pv e) (e_here e) (e_here2 e) c in
  m ← um_raw m tv (le_bytes 8 (ns / 1000000000));
  m ← um_raw m (tv ⊞ 8) (le_bytes 8 ((ns / 1000) mod 1000000));
  Ret (m, c, 0).

Definition sys_getrusage (h : here) (usage : Z) (m : M) (c : clock) : M * clock * Z :=
  if usage =? 0 then (m, c, 0) else
  let '(c, ns) := monotonic_ns h c in
  let ru := le_bytes 8 (ns / 1000000000) ++ le_bytes 8 ((ns / 1000) mod 1000000) ++ replicate 128 0 in
  (default m (um_out m usage ru), c, 0).

Definition sys_select (e : env) (nfds timeout_ptr : Z) (m : M) (k : kernel N R) : outcome (kernel N R * answer) :=
  s ← (if 0 <? nfds then poll (fst (e_poll e)) (snd (e_poll e)) (k_socks k) else Ret (k_socks k));
  let k := set_socks s k in
  if timeout_ptr =? 0 then Ret (k, Waits (WSelect None)) else
  sec ← raw_load m timeout_ptr 8;
  usec ← raw_load m (timeout_ptr ⊞ 8) 8;
  let ns := saturating_add (saturating_mul (le_val sec) 1000000000) (saturating_mul (le_val usec) 1000) in
  let '(c, now) := monotonic_ns (e_here e) (k_clock k) in
  Ret (set_clock c k, Waits (WSelect (Some (saturating_add now ns)))).

(** The lengths of the entries from the [i]-th on. *)
Fixpoint iov_total (left : nat) (iov_ptr i total : Z) (m : M) : outcome Z :=
  match left with
  | O => Ret total
  | S left' => l ← raw_load m (iov_ptr ⊞ (i ⊠ 16) ⊞ 8) 8; iov_total left' iov_ptr (i + 1) (i64 (total + i64 (le_val l))) m
  end.
Definition sys_sendmsg (fd msg : Z) (m : M) (k : kernel N R) : outcome (kernel N R * M * Z) :=
  iov_ptr ← raw_load m (msg ⊞ 16) 8;
  iov_len ← raw_load m (msg ⊞ 24) 8;
  total ← iov_total (Z.to_nat (le_val iov_len)) (le_val iov_ptr) 0 0 m;
  if is_pipe_fd fd (k_pipes k) then
    base ← raw_load m (le_val iov_ptr) 8;
    '(p, m, _) ← Pipe.write fd (le_val base) (u64 total) (k_pipes k) m; Ret (set_pipes p k, m, total)
  else Ret (k, m, total).
Definition sys_recvmsg (e : env) (fd msg : Z) (m : M) (k : kernel N R) : outcome (kernel N R * M * Z) :=
  if is_socket_fd fd (k_socks k) then
    iov_ptr ← raw_load m (msg ⊞ 16) 8;
    iov_len ← raw_load m (msg ⊞ 24) 8;
    if 0 <? le_val iov_len then
      base ← raw_load m (le_val iov_ptr) 8;
      l ← raw_load m (le_val iov_ptr ⊞ 8) 8;
      '(m, s, r) ← sys_recvfrom (fst (e_poll e)) (snd (e_poll e)) fd (le_val base) (le_val l) 0 0 m (k_socks k);
      Ret (set_socks s k, m, r)
    else Ret (k, m, 0)
  else Ret (k, m, - EAGAIN).

Definition syscall_dispatch_inner (e : env) (nr a0 a1 a2 a3 a4 : Z) (m : M) (o : os) : outcome (os * M * answer) :=
  let k := o_k o in
  let ret r := Ret (o, m, Returns r) in
  let go a := Ret (o, m, a) in
  let with_k k m a := Ret (mkOs k (o_mm o), m, a) in
  let kz (x : outcome (kernel N R * Z)) := '(k, r) ← x; with_k k m (Returns r) in
  let kmz (x : outcome (kernel N R * M * Z)) := '(k, m, r) ← x; with_k k m (Returns r) in
  let kmo (x : outcome (kernel N R * M * option Z)) :=
    '(k, m, r) ← x; with_k k m (match r with Some r => Returns r | None => Waits WStdin end) in
  let mz (x : M * Z) := let '(m, r) := x in Ret (o, m, Returns r) in
  let sz (x : outcome (socks N * Z)) := '(s, r) ← x; with_k (set_socks s k) m (Returns r) in
  let mmz (x : mm * Z) := let '(g, r) := x in Ret (mkOs k g, m, Returns r) in
  let mcz (x : M * clock * Z) := let '(m, c, r) := x in with_k (set_clock c k) m (Returns r) in
  let fd := i32 a0 in
  match nr with
  | 1 => kmz (sys_write (e_poll e) fd a1 a2 m k)
  | 0 => kmo (sys_read rdseed_step rdrand_step cpio (e_poll e) (e_here e) (e_rx e) fd a1 a2 m k)
  | 231 => go (ToSched (SHalt (i32 a0)))
  | 12 => mmz (sys_brk a0 (o_mm o))
  | 9 => let '(g, m, r) := sys_mmap a0 a1 (i32 a3) (o_mm o) m in Ret (mkOs k g, m, Returns r)
  | 11 => mmz (sys_munmap a0 a1 (o_mm o))
  | 10 | 28 => ret 0
  | 158 => go (sys_arch_prctl (i32 a0) a1)
  | 218 => ret 1
  | 273 => ret 0
  | 334 => ret (- ENOSYS)
  | 39 => ret 1
  | 102 | 107 | 104 | 108 => ret 0
  | 63 => mz (sys_uname a0 m)
  | 204 => mz (sys_sched_getaffinity (e_cpus e) a1 a2 m)
  | 229 => mz (sys_clock_getres a1 m)
  | 302 => mz (sys_prlimit64 a3 m)
  | 2 => kz (sys_open cpio a0 a1 a2 m k)
  | 257 => kz (sys_open cpio a1 a2 a3 m k)
  | 3 => k ← sys_close (e_close e) (e_poll e) fd k; with_k k m (Returns 0)
  | 4 => kmz (sys_stat cpio a0 a1 m k)
  | 5 => '(m, r) ← sys_fstat fd a1 m k; with_k k m (Returns r)
  | 262 => kmz (sys_newfstatat cpio fd a1 a2 m k)
  | 8 => kz (sys_lseek fd (i64 a1) (i32 a2) k)
  | 72 => kz (sys_fcntl fd (i32 a1) a2 k)
  | 21 => kz (sys_access a0 m k)
  | 269 => kz (sys_access a1 m k)
  | 89 => mz (sys_readlink a0 a1 a2 m)
  | 267 => mz (sys_readlink a1 a2 a3 m)
  | 217 => kmz (sys_getdents64 cpio fd a1 a2 m k)
  | 22 | 293 => kmz (Ret (sys_pipe a0 m k))
  | 291 | 213 => ret 50
  | 283 => ret 51
  | 233 => let '(tbl, r) := sys_epoll_ctl (i32 a1) (i32 a2) a3 m (k_table k) in with_k (set_table tbl k) m (Returns r)
  | 232 | 281 => go (Waits (WEpoll a1 a2 (i32 a3)))
  | 13 | 14 | 131 => ret 0
  | 16 => ret (- 25)
  | 17 => '(m, r) ← sys_pread64 cpio fd a1 a2 a3 m k; with_k k m (Returns r)
  | 18 => kz (sys_pwrite64 fd a1 a2 a3 m k)
  | 228 => mcz (sys_clock_gettime (e_page e) (e_pv e) (i32 a0) a1 (e_here e) (e_here2 e) m (k_clock k))
  | 40 => kmz (sys_sendfile cpio (e_poll e) (e_kbuf e) fd (i32 a1) a2 a3 m k)
  | 32 => kz (sys_dup fd k)
  | 20 => kmz (sys_writev (e_poll e) fd a1 a2 m k)
  | 19 => kmo (readv_loop rdseed_step rdrand_step cpio (e_poll e) (e_here e) (e_rx e) (Z.to_nat a2) fd a1 0 0 m k)
  | 318 => kmz (sys_getrandom rdseed_step rdrand_step a0 a1 m k)
  | 79 => mz (sys_getcwd a0 a1 m)
  | 96 => x ← sys_gettimeofday e a0 m (k_clock k); mcz x
  | 98 => mcz (sys_getrusage (e_here e) a1 m (k_clock k))
  | 186 => ret (e_thread e + 1)
  | 270 => ret 0
  | 319 | 435 => ret (- ENOSYS)
  | 200 | 234 => ret 0
  | 203 => ret 0
  | 53 => kmz (Ret (sys_pipe a3 m k))
  | 157 => ret 0
  | 202 => let '(k, a) := sys_futex a0 a1 a2 a3 (e_here e) m k in with_k k m a
  | 271 => go (Waits (WPpoll a0 a1 a2))
  | 23 => '(k, a) ← sys_select e fd a4 m k; with_k k m a
  | 286 => let '(c, r) := sys_timerfd_settime (i32 a1) a2 (e_here e) m (k_clock k) in with_k (set_clock c k) m (Returns r)
  | 24 => ret 0
  | 35 => go (ToSched SYield)
  | 57 => ret 42
  | 56 => go (sys_clone e a0 a1 a2 a3 a4)
  | 60 => go (ToSched SExit)
  | 41 => sz (sys_socket (i32 a0) (i32 a1) (k_socks k))
  | 42 => sz (sys_connect fd a1 m (k_socks k))
  | 43 | 288 => go (Waits (WAccept fd a1 a2 (i32 a3)))
  | 44 => sz (sys_sendto (fst (e_poll e)) (snd (e_poll e)) fd a1 a2 a4 m (k_socks k))
  | 45 =>
      '(m, s, r) ← sys_recvfrom (fst (e_poll e)) (snd (e_poll e)) fd a1 a2 a4 (e_r9 e) m (k_socks k);
      with_k (set_socks s k) m (Returns r)
  | 46 => kmz (sys_sendmsg fd a1 m k)
  | 47 => kmz (sys_recvmsg e fd a1 m k)
  | 48 => ret 0
  | 49 => sz (sys_bind fd a1 m (k_socks k))
  | 50 => sz (sys_listen fd (k_socks k))
  | 51 => '(m, r) ← sys_getsockname fd a1 a2 m (k_socks k); with_k k m (Returns r)
  | 52 => '(m, r) ← sys_getpeername fd a1 a2 m (k_socks k); with_k k m (Returns r)
  | 54 => ret (sys_setsockopt fd (k_socks k))
  | 55 => '(m, s, r) ← sys_getsockopt fd (i32 a1) (i32 a2) a3 a4 m (k_socks k); with_k (set_socks s k) m (Returns r)
  | 76 => kz (sys_truncate a0 a1 m k)
  | 77 => kz (sys_ftruncate fd a1 k)
  | 82 => kz (sys_rename a0 a1 m k)
  | 264 | 316 => kz (sys_rename a1 a3 m k)
  | 83 => kz (sys_mkdir a0 a1 m k)
  | 258 => kz (sys_mkdir a1 a2 m k)
  | 84 => kz (sys_rmdir a0 m k)
  | 87 => kz (sys_unlink a0 m k)
  | 263 => kz (sys_unlinkat a1 a2 m k)
  | _ => ret (- ENOSYS)
  end.

End Dispatch.
#[global] Arguments os N R : clear implicits.
