(* ===== verification/SyscallsInv.v ===== *)
(** * The file system calls: descriptor numbers

    Which component a descriptor number belongs to, the number ranges the
    components draw from, and that every system call and every step of
    the socket layer keeps each component inside its range. *)

From S2P Require Import Prelude TmpfsTree Uaccess Mmap FdTable Cpio Tmpfs TmpfsInv TmpfsProps Vfs VfsProps Pipe Clock Socket SocketInv SocketProps Epoll Rng Syscalls Dispatch.

Lemma bind_ret {A B} (x : outcome A) (f : A -> outcome B) y :
  x ≫= f = Ret y -> exists a, x = Ret a /\ f a = Ret y.
Proof. destruct x as [a|]; [|done]. intros E. by exists a. Qed.

Lemma list_filter_all {A} (P : A -> Prop) `{!forall x, Decision (P x)} l : Forall P l -> filter P l = l.
Proof. induction 1; [done|]. rewrite filter_cons_True by done. by f_equal. Qed.
Lemma Forall_filter {A} (P Q : A -> Prop) `{!forall x, Decision (P x)} l : Forall Q l -> Forall Q (filter P l).
Proof. rewrite !Forall_forall. intros Hq x [_ Hx]%list_elem_of_filter. by apply Hq. Qed.

(** Runs a hypothesis [f = Ret x] through its binds and tests. *)
Ltac run H :=
  repeat (cbn beta iota zeta in H;
    lazymatch type of H with
    | mbind _ ?x = Ret _ =>
        let a := fresh "a" in let E := fresh "E" in
        apply bind_ret in H as (a & E & H)
    | (match ?x with _ => _ end) = Ret _ =>
        let E := fresh "E" in destruct x eqn:E
    | Ret _ = Ret _ => injection H as H; subst
    | Panic = Ret _ => discriminate H
    end).

(** ** The archive *)

(** Files draw from 1000 up, directory handles are 900 plus their slot. *)
Record vrange (v : vstate) : Prop := {
  vr_next : 1000 <= next_vfs_fd v;
  vr_live : Forall (fun fd => 1000 <= fd < next_vfs_fd v) (live_fds (files v));
  vr_tbl : table_ok (files v);
  vr_dirs i x : (d_fd <$> dirs v) !! i = Some x -> x = -1 \/ x = DIR_FD_BASE + Z.of_nat i;
  vr_slots : length (dirs v) = 8%nat;
}.

(** The same descriptors. *)
Definition same_v (v v' : vstate) : Prop :=
  live_fds (files v') = live_fds (files v) /\ next_vfs_fd v' = next_vfs_fd v /\ d_fd <$> dirs v' = d_fd <$> dirs v.

Lemma same_v_range v v' : same_v v v' -> vrange v -> vrange v'.
Proof.
  intros (E1 & E2 & E3) [Hn Hl Ht Hd Hs]. split; rewrite ?E1, ?E2, ?E3; try done.
  - unfold table_ok. by rewrite E1.
  - by rewrite <- (length_fmap d_fd), E3, length_fmap.
Qed.

Lemma get_file_Ret v fd i f : get_file v fd = Some (i, Ret f) -> files v !! i = Some (Some f).
Proof. unfold get_file. destruct (find (files v) fd) as [j|]; [|done]. intros [= <- E]. by destruct (files v !! j) as [[]|]; simplify_eq. Qed.

Lemma put_file_same v i f p : files v !! i = Some (Some f) -> same_v v (put_file i (with_pos f p) v).
Proof. intros Hi. split; [|done]. cbn. by apply live_pos. Qed.

Lemma install_range off l pos v : vrange v -> next_vfs_fd v < i32_max -> vrange (fst (install off l pos v)).
Proof.
  intros [Hn Hl Ht Hd Hs] Hb. unfold install, i32_max in *. rewrite i32_small, u64_small by lia. cbn [files].
  set (e := mkOpenFile (next_vfs_fd v) off l pos).
  assert (Forall (fun fd => 1000 <= fd < next_vfs_fd v + 1) (live_fds (files v))) as Hl'
    by (eapply Forall_impl; [exact Hl|]; cbn; lia).
  pose proof (alloc_spec (files v) e) as Ha. destruct (alloc (files v) e) as [t [k|]]; cbn.
  - destruct Ha as (Hk & _ & ->). pose proof (live_fill (files v) k e Hk) as Ef.
    split; cbn; try done; [lia| |].
    + rewrite Ef. constructor; [cbn; lia|done].
    + unfold table_ok. rewrite Ef. constructor; [|done]. intros Hin. rewrite Forall_forall in Hl.
      specialize (Hl _ Hin). cbn in Hl. lia.
  - destruct Ha as [-> _]. split; cbn; try done. lia.
Qed.

Lemma open_range cpio path v v' r :
  vrange v -> next_vfs_fd v < i32_max -> Vfs.open cpio path v = Ret (v', r) -> vrange v'.
Proof.
  intros Hv Hb H. unfold Vfs.open in H. run H; [|done].
  match goal with E : install ?o ?l ?p v = _ |- _ => pose proof (install_range o l p v Hv Hb) as Hi; by rewrite E in Hi end.
Qed.

Lemma dup_range fd v v' r : vrange v -> next_vfs_fd v < i32_max -> Vfs.dup fd v = Ret (v', r) -> vrange v'.
Proof.
  intros Hv Hb H. unfold Vfs.dup in H. run H; [|done].
  match goal with E : install ?o ?l ?p v = _ |- _ => pose proof (install_range o l p v Hv Hb) as Hi; by rewrite E in Hi end.
Qed.

Lemma lseek_same fd o w v v' r : Vfs.lseek fd o w v = Ret (v', r) -> same_v v v'.
Proof.
  intros H. unfold Vfs.lseek in H. run H; try done; by eapply put_file_same, get_file_Ret.
Qed.

Lemma free_live t fd : table_ok t -> live_fds (fst (free t fd)) ≡ₚ filter (fun x => x <> fd) (live_fds t).
Proof.
  intros Ht. unfold free. pose proof (find_spec t fd Ht) as Hf. destruct (find t fd) as [k|]; cbn [fst].
  - destruct Hf as (f & Hk & Hfd & _). pose proof (live_clear _ _ _ Hk) as E. unfold table_ok in Ht. rewrite E in *.
    rewrite filter_cons_False by naive_solver. apply NoDup_cons in Ht as [Hn _].
    rewrite list_filter_all; [done|]. rewrite Forall_forall. naive_solver.
  - rewrite list_filter_all; [done|]. rewrite Forall_forall. intros x Hx ->.
    apply live_elem in Hx as (f & Hin & <-). apply list_elem_of_lookup in Hin as [i Hi].
    rewrite (abs_lookup _ _ _ Ht Hi) in Hf. done.
Qed.

Lemma close_range fd v : vrange v -> vrange (fst (Vfs.close fd v)).
Proof.
  intros [Hn Hl Ht Hd Hs]. pose proof (free_live (files v) fd Ht) as E. split; cbn; try done.
  - rewrite E. by apply Forall_filter.
  - unfold table_ok in *. rewrite E. by apply NoDup_filter.
Qed.

Section VfsMem.
Context {M : Type} `{UserMem M}.

Lemma read_same cpio fd buf count v (m : M) v' m' r : Vfs.read cpio fd buf count v m = Ret (v', m', r) -> same_v v v'.
Proof. intros H'. unfold Vfs.read in H'. run H'; try done; by eapply put_file_same, get_file_Ret. Qed.

Lemma getdents_same cpio fd buf count v (m : M) v' m' r :
  Vfs.getdents64 cpio fd buf count v m = Ret (v', m', r) -> same_v v v'.
Proof.
  intros H'. unfold Vfs.getdents64 in H'. run H'; try done. split_and!; try done. cbn.
  match goal with E : find_dir _ _ = Some _ |- _ => apply list_find_Some in E as (Hi & _) end.
  rewrite list_fmap_insert. cbn. apply list_insert_id. rewrite list_lookup_fmap, Hi. done.
Qed.

End VfsMem.

(** The numbers that directory handles have. *)
Lemma open_dir_fds p ds i :
  let '(ds', r) := open_dir_from i p ds in
  length ds' = length ds /\
  forall j x, (d_fd <$> ds') !! j = Some x -> (d_fd <$> ds) !! j = Some x \/ x = DIR_FD_BASE + Z.of_nat (i + j).
Proof.
  revert i. induction ds as [|d ds IH]; intros i; cbn [open_dir_from]; [split; [done|by left]|].
  destruct (d_fd d =? -1).
  - split; [done|]. intros [|j] x Hx; [|by left]. cbn in *. right. injection Hx as <-. unfold DIR_FD_BASE. lia.
  - specialize (IH (S i)). destruct (open_dir_from (S i) p ds) as [ds' r]. destruct IH as [Hl IH].
    split; [cbn; by rewrite Hl|]. intros [|j] x Hx; [by left|]. cbn in *. rewrite Nat.add_succ_r. by apply IH.
Qed.

Lemma open_dir_range path v : vrange v -> vrange (fst (open_dir path v)).
Proof.
  intros [Hn Hl Ht Hd Hs]. unfold open_dir. set (p := if starts_with path [SLASH] then _ else _).
  pose proof (open_dir_fds p (dirs v) 0) as Ho. destruct (open_dir_from 0 p (dirs v)) as [ds r]. destruct Ho as [Hlen Ho].
  split; cbn; try done; [|by rewrite Hlen]. intros i x Hx. destruct (Ho i x Hx) as [?| ->]; auto.
Qed.

Lemma close_dir_fds fd ds i :
  NoDup (filter (fun x => x <> -1) (d_fd <$> ds)) -> fd <> -1 ->
  (d_fd <$> fst (close_dir_from fd ds)) !! i = (fun x => if x =? fd then -1 else x) <$> (d_fd <$> ds) !! i.
Proof.
  intros Hd Hfd. revert i. induction ds as [|d ds IH]; intros i; cbn [close_dir_from]; [done|].
  cbn [fmap list_fmap] in Hd. rewrite filter_cons in Hd.
  destruct (Z.eqb_spec (d_fd d) fd) as [E|E].
  - rewrite decide_True in Hd by lia. apply NoDup_cons in Hd as [Hn _].
    destruct i as [|i]; cbn; [by rewrite E, Z.eqb_refl|].
    destruct ((d_fd <$> ds) !! i) as [x|] eqn:Ei; rewrite ?Ei; [|done]. cbn.
    destruct (Z.eqb_spec x fd) as [->|]; [|done]. exfalso. apply Hn. rewrite E. apply list_elem_of_filter.
    split; [done|by eapply list_elem_of_lookup_2].
  - assert (NoDup (filter (fun x => x <> -1) (d_fd <$> ds))) as Hd' by (case_decide; [by inversion Hd|done]).
    specialize (IH Hd'). destruct (close_dir_from fd ds) as [ds' r]. destruct i as [|i]; [|by apply IH].
    cbn. by destruct (Z.eqb_spec (d_fd d) fd).
Qed.

Lemma close_dir_length fd ds : length (fst (close_dir_from fd ds)) = length ds.
Proof.
  induction ds as [|d ds IH]; [done|]. cbn. destruct (d_fd d =? fd); [done|].
  destruct (close_dir_from fd ds). cbn in *. by rewrite IH.
Qed.

(** Directory handles have distinct numbers: each names its slot. *)
Lemma dirs_distinct ds (i : nat) :
  (forall j x, ds !! j = Some x -> x = -1 \/ x = DIR_FD_BASE + Z.of_nat (i + j)) ->
  NoDup (filter (fun x => x <> -1) ds).
Proof.
  revert i. induction ds as [|d ds IH]; intros i Hd; [constructor|].
  assert (forall j x, ds !! j = Some x -> x = -1 \/ x = DIR_FD_BASE + Z.of_nat (S i + j)) as Hd'.
  { intros j x Hx. destruct (Hd (S j) x Hx) as [?|E]; [by left|]. right. lia. }
  rewrite filter_cons. case_decide; [|by apply (IH (S i))]. constructor; [|by apply (IH (S i))].
  intros [_ [j Hj]%list_elem_of_lookup]%list_elem_of_filter. destruct (Hd' j d Hj) as [?|E]; [done|].
  destruct (Hd 0%nat d eq_refl) as [?|E']; [done|]. lia.
Qed.

Lemma vrange_dirs v : vrange v -> NoDup (filter (fun x => x <> -1) (d_fd <$> dirs v)).
Proof. intros Hv. by apply (dirs_distinct _ 0), vr_dirs. Qed.

Lemma close_dir_free ds : d_fd <$> fst (close_dir_from (-1) ds) = d_fd <$> ds.
Proof.
  induction ds as [|d ds IH]; [done|]. cbn. destruct (Z.eqb_spec (d_fd d) (-1)) as [->|]; [done|].
  destruct (close_dir_from (-1) ds). cbn in *. by rewrite IH.
Qed.

Lemma close_dir_range fd v : vrange v -> vrange (fst (close_dir fd v)).
Proof.
  intros Hv. pose proof (close_dir_fds fd (dirs v)) as Hc. pose proof (close_dir_free (dirs v)) as Hf.
  pose proof (close_dir_length fd (dirs v)) as Hl. pose proof (vrange_dirs v Hv) as Hnd. destruct Hv as [Hn Hlv Ht Hd Hs].
  unfold close_dir. destruct (decide (fd = -1)) as [->|Hfd].
  - destruct (close_dir_from (-1) (dirs v)) as [ds r]. cbn in *. split; cbn; try done; [by rewrite Hf|by rewrite Hl].
  - destruct (close_dir_from fd (dirs v)) as [ds r]. cbn in *. split; cbn; try done; [|by rewrite Hl]. intros i x Hx.
    rewrite Hc in Hx by done. apply fmap_Some in Hx as (y & Hy & ->). destruct (y =? fd); [by left|by apply Hd].
Qed.

(** ** Pipes *)

(** Both ends are free or number 200 and up. *)
Definition end_ok (next fd : Z) : Prop := fd = -1 \/ 200 <= fd < next.
Record prange (p : pstate) : Prop := {
  pr_next : 200 <= next_pipe_fd p;
  pr_ends : Forall (fun q => end_ok (next_pipe_fd p) (read_fd q) /\ end_ok (next_pipe_fd p) (write_fd q)) (pipes p);
}.

Definition ends (p : pstate) : list (Z * Z) := (fun q => (read_fd q, write_fd q)) <$> pipes p.
Definition same_p (p p' : pstate) : Prop := ends p' = ends p /\ next_pipe_fd p' = next_pipe_fd p.

Lemma prange_ends p :
  prange p <-> 200 <= next_pipe_fd p /\ Forall (fun e => end_ok (next_pipe_fd p) e.1 /\ end_ok (next_pipe_fd p) e.2) (ends p).
Proof.
  unfold ends. rewrite Forall_fmap. split; [by intros []|by intros []].
Qed.

Lemma same_p_range p p' : same_p p p' -> prange p -> prange p'.
Proof. intros [E1 E2]. rewrite !prange_ends, E1, E2. done. Qed.

Lemma set_pipe_same p i q q' :
  pipes p !! i = Some q -> read_fd q' = read_fd q -> write_fd q' = write_fd q -> same_p p (set_pipe i q' p).
Proof.
  intros Hi E1 E2. split; [|done]. unfold ends. cbn. rewrite list_fmap_insert, E1, E2.
  apply list_insert_id. by rewrite list_lookup_fmap, Hi.
Qed.

Lemma push_loop_ends bs : forall p w p' w',
  push_loop bs p w = Ret (p', w') -> read_fd p' = read_fd p /\ write_fd p' = write_fd p.
Proof.
  induction bs as [|b bs IH]; intros p w p' w' H; cbn [push_loop] in H; run H; try done. by apply IH in H.
Qed.

Lemma pop_loop_ends fuel : forall c n p p' bs,
  pop_loop fuel c n p = Ret (p', bs) -> read_fd p' = read_fd p /\ write_fd p' = write_fd p.
Proof.
  induction fuel as [|fuel IH]; intros c n p p' bs H; cbn [pop_loop] in H; run H; try done.
  match goal with E : pop_loop _ _ _ _ = Ret ?a |- _ => destruct a; by apply IH in E end.
Qed.

Lemma pset_nonblock_same fd nb p : same_p p (Pipe.set_nonblock fd nb p).
Proof.
  unfold Pipe.set_nonblock. destruct (list_find _ (pipes p)) as [[i q]|] eqn:E; [|done].
  apply list_find_Some in E as (Hi & _). by eapply set_pipe_same.
Qed.

Lemma create_range p : prange p -> next_pipe_fd p < i32_max - 1 -> prange (fst (Pipe.create p)).
Proof.
  intros [Hn He] Hb. unfold Pipe.create, i32_max in *. rewrite !u64_small, !i32_small by lia. cbn [pipes].
  assert (Forall (fun q => end_ok (next_pipe_fd p + 2) (read_fd q) /\ end_ok (next_pipe_fd p + 2) (write_fd q)) (pipes p)) as He'.
  { eapply Forall_impl; [exact He|]. unfold end_ok. intros q. lia. }
  destruct (list_find _ (pipes p)) as [[i q]|]; split; cbn; try lia; [|done].
  apply Forall_insert; [done|]. unfold end_ok. cbn. lia.
Qed.

Lemma pclose_range fd p : prange p -> prange (Pipe.close fd p).
Proof.
  intros [Hn He]. split; [done|]. cbn. apply Forall_fmap. eapply Forall_impl; [exact He|].
  intros q Hq. unfold compose, close_pipe. case_match; [|done]. case_match; cbn; [by split; left|].
  split; [by left|apply Hq].
Qed.

Section PipeMem.
Context {M : Type} `{UserMem M}.

Lemma pwrite_same fd a c p (m : M) p' m' r : Pipe.write fd a c p m = Ret (p', m', r) -> same_p p p'.
Proof.
  intros H'. unfold Pipe.write in H'. run H'; try done.
  match goal with E : list_find _ _ = Some _, E2 : push_loop _ _ _ = Ret ?a |- _ =>
    apply list_find_Some in E as (Hi & _); destruct a; apply push_loop_ends in E2 as [? ?] end.
  by eapply set_pipe_same.
Qed.

Lemma pread_same fd a c p (m : M) p' m' r : Pipe.read fd a c p m = Ret (p', m', r) -> same_p p p'.
Proof.
  intros H'. unfold Pipe.read in H'. run H'; try done.
  match goal with E : list_find _ _ = Some _, E2 : pop_loop _ _ _ _ = Ret ?a |- _ =>
    apply list_find_Some in E as (Hi & _); destruct a; apply pop_loop_ends in E2 as [? ?] end.
  by eapply set_pipe_same.
Qed.

End PipeMem.

(** ** The kernel *)

Inductive owner := OTmp | OFile | ODir | OPipe | OSock.

Section Kernel.
Context {N : Type} `{HS : StackLaws N}.
Context {R : Type} `{Csprng R}.
Context (rdseed_step rdrand_step : nat -> option Z).
Context (cpio : list Z).
Context {M : Type} {wf : M -> Prop} `{HM : UserMemLaws M wf} `{!RawLoad M}.

(** The components that take a descriptor number for theirs. *)
Definition owners (fd : Z) (k : kernel N R) : list owner :=
  (if is_tmpfs_fd (k_tmp k) fd then [OTmp] else []) ++ (if is_vfs_fd fd (k_vfs k) then [OFile] else []) ++
  (if is_dir_fd fd (k_vfs k) then [ODir] else []) ++ (if is_pipe_fd fd (k_pipes k) then [OPipe] else []) ++
  (if is_socket_fd fd (k_socks k) then [OSock] else []).

(** A system call, with the user memory and the surroundings it finds, or a step
    of the socket layer by some thread. *)
Inductive kcall :=
  | KSys (e : env) (nr a0 a1 a2 a3 a4 : Z) (m : M)
  | KRegion (o : op M).

(** The kernel, and the socket calls between two of their regions. *)
Definition kstate : Type := os N R * list flight.

Definition kexec (c : kcall) (x : kstate) : outcome kstate :=
  let '(o, fl) := x in
  match c with
  | KSys e nr a0 a1 a2 a3 a4 m =>
      '(o, _, _) ← syscall_dispatch_inner rdseed_step rdrand_step cpio e nr a0 a1 a2 a3 a4 m o; Ret (o, fl)
  | KRegion op =>
      st ← exec op (mkState (k_socks (o_k o)) fl);
      Ret (mkOs (set_socks (st_socks st) (o_k o)) (o_mm o), st_flights st)
  end.

(** Registers hold 64-bit words.  [readv], [writev] and [recvmsg] find buffers in
    user memory and make the calls [read], [write] and [recvfrom] on them; runs
    have those calls instead. *)
Definition kcall_ok (c : kcall) : Prop :=
  match c with
  | KSys _ nr a0 a1 a2 a3 a4 m =>
      wf m /\ Forall (fun x => u64_arg x = true) [a0; a1; a2; a3; a4] /\ nr <> 19 /\ nr <> 20 /\ nr <> 47
  | KRegion o => op_ok (wf := wf) o
  end.

(** The counters are inside their ranges: fewer than 150 pipes made, 400 socket
    numbers in use, 3000 archive files opened or queried, and 2^31 RAM files
    opened so far. *)
Definition bounded (k : kernel N R) : Prop :=
  next_fd (k_tmp k) < i32_max /\ next_vfs_fd (k_vfs k) <= TMPFS_FD_BASE /\ next_pipe_fd (k_pipes k) <= SOCK_FD_BASE /\ NEXT_SOCK_FD (k_socks k) <= DIR_FD_BASE.

Definition kinv (x : kernel N R * list flight) : Prop :=
  TmpfsInv.inv (k_tmp (fst x)) /\ vrange (k_vfs (fst x)) /\ prange (k_pipes (fst x)) /\ inv (mkState (k_socks (fst x)) (snd x)).

(** *** What the calls change *)

(** The descriptors are the same. *)
Definition same (k k' : kernel N R) (fl : list flight) : Prop :=
  k_tmp k' = k_tmp k /\   same_v (k_vfs k) (k_vfs k') /\ same_p (k_pipes k) (k_pipes k') /\
  (inv (mkState (k_socks k) fl) -> call_ok (k_socks k) (k_socks k') (fl ≫= flight_own)).

Lemma inv_call_same s s' fl : inv (mkState s fl) -> call_ok s s' (fl ≫= flight_own) -> inv (mkState s' fl).
Proof. intros Hi Hc. by apply (inv_call s s' fl fl Hi Hc). Qed.

Lemma same_kinv k k' fl : same k k' fl -> kinv (k, fl) -> kinv (k', fl).
Proof.
  intros (Ht & Hv & Hp & Hs) (Kt & Kv & Kp & Ks). cbn in *. split_and!; cbn.
  - by rewrite Ht.
  - by eapply same_v_range.
  - by eapply same_p_range.
  - eapply inv_call_same; [done|by apply Hs].
Qed.

Lemma call_ok_refl s fl : inv (mkState s fl) -> call_ok s s (fl ≫= flight_own).
Proof. intros [Hok _]. by split_and!. Qed.
Lemma call_ok_trans s1 s2 s3 L : call_ok s1 s2 L -> call_ok s2 s3 L -> call_ok s1 s3 L.
Proof. intros (E1 & E2 & E3 & _) (F1 & F2 & F3 & Hok). split_and!; congruence. Qed.
Lemma same_refl k fl : same k k fl.
Proof. split_and!; try done. apply call_ok_refl. Qed.

(** A change outside the descriptor tables. *)
Lemma same_other k k' fl : k_tmp k' = k_tmp k -> k_vfs k' = k_vfs k -> k_pipes k' = k_pipes k -> k_socks k' = k_socks k -> same k k' fl.
Proof. intros E0 E1 E2 E3. unfold same. rewrite E1, E2, E3. split_and!; try done. apply call_ok_refl. Qed.
Lemma same_set_vfs k v fl : same_v (k_vfs k) v -> same k (set_vfs v k) fl.
Proof. intros Hv. split_and!; try done. apply call_ok_refl. Qed.
Lemma same_set_pipes k p fl : same_p (k_pipes k) p -> same k (set_pipes p k) fl.
Proof. intros Hp. split_and!; try done. apply call_ok_refl. Qed.
Lemma same_set_socks k s fl :
  (inv (mkState (k_socks k) fl) -> call_ok (k_socks k) s (fl ≫= flight_own)) -> same k (set_socks s k) fl.
Proof. intros Hs. by split_and!. Qed.
Lemma same_trans k1 k2 k3 fl : same k1 k2 fl -> same k2 k3 fl -> same k1 k3 fl.
Proof.
  intros (D & (A1 & A2 & A3) & (B1 & B2) & C) (D' & (A1' & A2' & A3') & (B1' & B2') & C'). split; [congruence|].
  split; [split_and!; congruence|]. split; [split; congruence|]. intros Hi. eapply call_ok_trans; [by apply C|]. apply C'. by eapply inv_call_same, C.
Qed.

Lemma sendto_same t t' fd b l d (m : M) s s' r fl :
  sys_sendto t t' fd b l d m s = Ret (s', r) -> inv (mkState s fl) -> call_ok s s' (fl ≫= flight_own).
Proof.
  intros E [Hok _]. destruct (sendto_ok t t' fd b l d m s _ Hok) as [[E1 _]|(s1 & r1 & E1 & Hc)]; [congruence|]. rewrite E1 in E. by injection E as <- <-.
Qed.
Lemma recvfrom_same t t' fd b l sa al (m : M) s m' s' r fl :
  wf m -> 0 <= b -> 0 <= l -> sys_recvfrom t t' fd b l sa al m s = Ret (m', s', r) ->
  inv (mkState s fl) -> call_ok s s' (fl ≫= flight_own).
Proof.
  intros Hw Hb Hl E [Hok _]. unfold sys_recvfrom in E. apply bind_ret in E as (s1 & E1 & E).
  pose proof (poll_call t t' s _ s1 Hok E1) as Hc.
  destruct (recv_ok fd b l sa al m s1 _ (proj2 (proj2 (proj2 Hc))) Hw Hb Hl) as (m2 & s2 & r2 & E2 & Hc2).
  rewrite E2 in E. injection E as <- <- <-. by eapply call_ok_trans.
Qed.
Lemma nonblock_same fd nb s s' fl :
  Socket.set_nonblock fd nb s = Ret s' -> inv (mkState s fl) -> call_ok s s' (fl ≫= flight_own).
Proof. intros E [Hok _]. destruct (set_nonblock_ok fd nb s _ Hok) as (s1 & E1 & Hc). rewrite E1 in E. by injection E as <-. Qed.

(** The change of a call's branch, found from the component call in it. *)
Ltac keep_call :=
  lazymatch goal with
  | E : Vfs.read _ _ _ _ _ _ = Ret _ |- _ => exact (same_set_vfs _ _ _ (read_same _ _ _ _ _ _ _ _ _ E))
  | E : Vfs.getdents64 _ _ _ _ _ _ = Ret _ |- _ => exact (same_set_vfs _ _ _ (getdents_same _ _ _ _ _ _ _ _ _ E))
  | E : Vfs.lseek _ _ _ _ = Ret _ |- _ => exact (same_set_vfs _ _ _ (lseek_same _ _ _ _ _ _ E))
  | E : Pipe.write _ _ _ _ _ = Ret _ |- _ => exact (same_set_pipes _ _ _ (pwrite_same _ _ _ _ _ _ _ _ E))
  | E : Pipe.read _ _ _ _ _ = Ret _ |- _ => exact (same_set_pipes _ _ _ (pread_same _ _ _ _ _ _ _ _ E))
  | E : sys_sendto _ _ _ _ _ _ _ _ = Ret _ |- _ => exact (same_set_socks _ _ _ (sendto_same _ _ _ _ _ _ _ _ _ _ _ E))
  | E : Socket.set_nonblock _ _ _ = Ret _ |- _ => exact (same_set_socks _ _ _ (nonblock_same _ _ _ _ _ E))
  | |- same _ (set_pipes (Pipe.set_nonblock _ _ _) _) _ => apply same_set_pipes, pset_nonblock_same
  end.
Ltac keep_same := first [apply same_refl | apply same_other; reflexivity | keep_call].

(** A call that has worked on the RAM filesystem, or only inside the other
    components. *)
Definition kept_tmp (t t' : Tmpfs.state) : Prop := TmpfsInv.inv t -> next_fd t < i32_max -> TmpfsInv.inv t'.
Definition kept (k k' : kernel N R) (fl : list flight) : Prop :=
  same k k' fl \/ exists t, k' = set_tmp t k /\ kept_tmp (k_tmp k) t.

Lemma kept_kinv k k' fl : kept k k' fl -> next_fd (k_tmp k) < i32_max -> kinv (k, fl) -> kinv (k', fl).
Proof.
  intros [Hs|(t & -> & Ht)] Hn Hk; [by eapply same_kinv|]. destruct Hk as (Kt & Kr). split; [by apply Ht|exact Kr].
Qed.
Lemma kept_same k k' fl : same k k' fl -> kept k k' fl.
Proof. by left. Qed.
Lemma kept_set k t fl : kept_tmp (k_tmp k) t -> kept k (set_tmp t k) fl.
Proof. right. by exists t. Qed.

Lemma tmp_step o t (m : M) t' m' r : wf m -> args_ok o = true -> step o t m = Ret (t', m', r) -> kept_tmp t t'.
Proof. intros Hw Ha E Hi Hn. by eapply step_ret. Qed.

Lemma kept_write fd b c t (m : M) t' r :
  wf m -> u64_arg b = true -> u64_arg c = true -> Tmpfs.write fd b c t m = Ret (t', r) -> kept_tmp t t'.
Proof.
  intros Hw Hb Hc E. eapply (tmp_step (OpWrite fd b c) t m t' m r); [done|cbn; by rewrite Hb, Hc|]. cbn. by rewrite E.
Qed.
Lemma kept_pwrite fd b c o t (m : M) t' r :
  wf m -> u64_arg b = true -> u64_arg c = true -> u64_arg o = true -> Tmpfs.pwrite fd b c o t m = Ret (t', r) -> kept_tmp t t'.
Proof.
  intros Hw Hb Hc Ho E. eapply (tmp_step (OpPwrite fd b c o) t m t' m r); [done|cbn; by rewrite Hb, Hc, Ho|]. cbn. by rewrite E.
Qed.
Lemma kept_read fd b c t (m : M) t' m' r :
  wf m -> u64_arg b = true -> u64_arg c = true -> Tmpfs.read fd b c t m = Ret (t', m', r) -> kept_tmp t t'.
Proof.
  intros Hw Hb Hc E. eapply (tmp_step (OpRead fd b c) t m t' m' r); [done|cbn; by rewrite Hb, Hc|exact E].
Qed.
Lemma kept_getdents fd b c t (m : M) t' m' r :
  wf m -> u64_arg b = true -> u64_arg c = true -> Tmpfs.getdents64 fd b c t m = Ret (t', m', r) -> kept_tmp t t'.
Proof.
  intros Hw Hb Hc E. eapply (tmp_step (OpGetdents fd b c) t m t' m' r); [done|cbn; by rewrite Hb, Hc|exact E].
Qed.
Lemma kept_lseek fd o w t t' r : Tmpfs.lseek fd o w t = (t', r) -> kept_tmp t t'.
Proof. intros E Hi _. pose proof (lseek_inv fd o w t Hi) as Hl. by rewrite E in Hl. Qed.
Lemma kept_ftruncate fd l t t' r : u64_arg l = true -> Tmpfs.ftruncate fd l t = Ret (t', r) -> kept_tmp t t'.
Proof.
  unfold u64_arg. intros Hl E Hi _. zb. unfold Tmpfs.ftruncate in E. run E; try done.
  by apply resize_core_ret in E as []; [..|lia].
Qed.
Lemma kept_truncate p l t t' r : u64_arg l = true -> Tmpfs.truncate p l t = Ret (t', r) -> kept_tmp t t'.
Proof.
  unfold u64_arg. intros Hl E Hi _. zb. unfold Tmpfs.truncate in E. run E; try done.
  by apply resize_core_ret in E as []; [..|lia].
Qed.
Lemma kept_open p f mo t t' r : Tmpfs.open p f mo t = (t', r) -> kept_tmp t t'.
Proof. intros E Hi Hn. pose proof (open_inv p f mo t Hi Hn) as Ho. by rewrite E in Ho. Qed.
Lemma kept_rename o n t t' r : Tmpfs.rename o n t = (t', r) -> kept_tmp t t'.
Proof. intros E Hi _. pose proof (rename_inv o n t Hi) as Ho. by rewrite E in Ho. Qed.

Ltac keep_tmp :=
  lazymatch goal with
  | E : Tmpfs.write _ _ _ _ _ = Ret _ |- _ => refine (kept_write _ _ _ _ _ _ _ _ _ _ E); assumption
  | E : Tmpfs.pwrite _ _ _ _ _ _ = Ret _ |- _ => refine (kept_pwrite _ _ _ _ _ _ _ _ _ _ _ _ E); assumption
  | E : Tmpfs.read _ _ _ _ _ = Ret _ |- _ => refine (kept_read _ _ _ _ _ _ _ _ _ _ _ E); assumption
  | E : Tmpfs.getdents64 _ _ _ _ _ = Ret _ |- _ => refine (kept_getdents _ _ _ _ _ _ _ _ _ _ _ E); assumption
  | E : Tmpfs.lseek _ _ _ _ = _ |- _ => exact (kept_lseek _ _ _ _ _ _ E)
  | E : Tmpfs.ftruncate _ _ _ = Ret _ |- _ => refine (kept_ftruncate _ _ _ _ _ _ E); assumption
  | E : Tmpfs.open _ _ _ _ = _ |- _ => exact (kept_open _ _ _ _ _ _ E)
  | E : Tmpfs.rename _ _ _ = _ |- _ => exact (kept_rename _ _ _ _ _ E)
  | H : forall p t t' r, ?f p t = Ret (t', r) -> kept_tmp t t', E : ?f _ _ = Ret _ |- _ => exact (H _ _ _ _ E)
  end.
Ltac keep := first [apply kept_same; keep_same | apply kept_set; keep_tmp].

Lemma sys_write_kept tt fd b c m k k' m' r fl :
  wf m -> u64_arg b = true -> u64_arg c = true -> sys_write tt fd b c m k = Ret (k', m', r) -> kept k k' fl.
Proof. intros Hw Hb Hc E. unfold sys_write in E. run E; try case_match; keep. Qed.

Lemma fill_user_same b c m k k' m' r fl : fill_user rdseed_step rdrand_step b c m k = Ret (k', m', r) -> same k k' fl.
Proof. intros E. unfold fill_user in E. run E; keep_same. Qed.

Lemma stdin_same rx : forall room b n m k k' m' r fl, stdin_loop rx room b n m k = Ret (k', m', r) -> same k k' fl.
Proof.
  induction rx as [|x rx IH]; intros room b n m k k' m' r fl E; destruct room as [|room]; cbn [stdin_loop] in E;
    [run E; keep_same..|].
  destruct (if (x =? 13) || (x =? 10) then _ else _) as [ch echo]. apply bind_ret in E as (m1 & _ & E).
  apply IH with (fl := fl) in E. eapply same_trans; [|exact E]. keep_same.
Qed.

Lemma read_stdin_same rx b c m k k' m' r fl : sys_read_stdin rx b c m k = Ret (k', m', r) -> same k k' fl.
Proof. intros E. unfold sys_read_stdin in E. run E; eauto using stdin_same, same_refl. Qed.

Lemma read_resolv_same b c m k k' m' r fl : read_resolv b c m k = (k', m', r) -> same k k' fl.
Proof.
  unfold read_resolv. intros E. destruct (k_resolv k). repeat case_match; simplify_eq; keep_same.
Qed.

Lemma sys_read_kept tt h rx fd b c m k k' m' r fl :
  wf m -> u64_arg b = true -> u64_arg c = true ->
  sys_read rdseed_step rdrand_step cpio tt h rx fd b c m k = Ret (k', m', r) -> kept k k' fl.
Proof.
  intros Hw Hb Hc E. assert (0 <= b /\ 0 <= c) as [? ?] by (unfold u64_arg in *; zb; lia). unfold sys_read in E.
  run E; try keep; apply kept_same;
    eauto using recvfrom_same, read_stdin_same, read_resolv_same, fill_user_same, same_set_socks.
Qed.

Lemma sendfile_loop_same fuel tt kbuf o i fl : forall off total left m k k' m' r,
  sendfile_loop cpio fuel tt kbuf o i off total left m k = Ret (k', m', r) -> same k k' fl.
Proof.
  induction fuel as [|fuel IH]; intros off total left m k k' m' r E; cbn [sendfile_loop] in E; [run E; keep_same|].
  run E; try keep_same. eapply same_trans; [|by eapply IH]. keep_same.
Qed.

Lemma sendfile_same tt kbuf o i p c m k k' m' r fl :
  sys_sendfile cpio tt kbuf o i p c m k = Ret (k', m', r) -> same k k' fl.
Proof.
  intros E. unfold sys_sendfile in E. destruct (negb (is_socket_fd _ _)); [run E; keep_same|].
  destruct (negb (is_vfs_fd _ _)); [run E; keep_same|].
  apply bind_ret in E as ([k1 start] & E1 & E).
  assert (same k k1 fl) as H1' by (run E1; keep_same). eapply same_trans; [exact H1'|]. clear E1 H1'.
  destruct (start <? 0); [run E; keep_same|]. apply bind_ret in E as ([[k2 m2] res] & E2 & E).
  apply sendfile_loop_same with (fl := fl) in E2. eapply same_trans; [exact E2|]. run E; keep_same.
Qed.

(** *** The calls that make or end descriptors *)
Lemma kinv_set_vfs k v fl : vrange v -> kinv (k, fl) -> kinv (set_vfs v k, fl).
Proof. intros Hv (Ht & _ & Hp & Hs). by split_and!. Qed.
Lemma kinv_set_tmp k t fl : kept_tmp (k_tmp k) t -> bounded k -> kinv (k, fl) -> kinv (set_tmp t k, fl).
Proof. intros Ht (Hn & _) Hk. eapply kept_kinv; [by apply kept_set|done|done]. Qed.

Lemma open_path_kinv path flags mode k k' r fl :
  kinv (k, fl) -> bounded k -> open_path cpio path flags mode k = Ret (k', r) -> kinv (k', fl).
Proof.
  intros Hk Hbd E. pose proof Hk as (_ & Hv & _). pose proof Hbd as (_ & Hb & _). assert (next_vfs_fd (k_vfs k) < i32_max) as Hlt
    by (unfold i32_max, TMPFS_FD_BASE in *; lia).
  unfold open_path in E. run E; try done; try by eapply kinv_set_vfs; [eapply open_range|].
  { apply kinv_set_tmp; [keep_tmp|done|done]. }
  match goal with Eo : open_dir ?p ?v = _ |- _ => pose proof (open_dir_range p v) as Hd; rewrite Eo in Hd end.
  cbn in *. apply kinv_set_vfs; [|apply kinv_set_vfs; [|done]]; eauto using open_range.
Qed.

Lemma stat_kinv p b m k k' m' r fl :
  kinv (k, fl) -> bounded k -> sys_stat cpio p b m k = Ret (k', m', r) -> kinv (k', fl).
Proof.
  intros Hk Hbd E. pose proof Hk as (_ & Hv & _). pose proof Hbd as (_ & Hb & _). assert (next_vfs_fd (k_vfs k) < i32_max) as Hlt
    by (unfold i32_max, TMPFS_FD_BASE in *; lia).
  unfold sys_stat in E. run E; try done; try by eapply kinv_set_vfs; [eapply open_range|].
  match goal with Eo : Vfs.close ?fd ?v = _ |- _ => pose proof (close_range fd v) as Hd; rewrite Eo in Hd end.
  cbn in *. apply kinv_set_vfs; eauto using open_range.
Qed.

Lemma sclose_ok t fd s fl :
  inv (mkState s fl) -> exists s', Socket.close t fd s = Ret s' /\ inv (mkState s' fl) /\
    s_fd <$> SOCKETS s' ≡ₚ filter (fun x => x <> fd) (s_fd <$> SOCKETS s).
Proof.
  intros Hi. unfold Socket.close. pose proof (take_inv fd s) as Ht. unfold close_take in *.
  pose proof (position_None fd (SOCKETS s)) as Hnone.
  assert (NoDup (s_fd <$> SOCKETS s)) as Hd.
  { destruct Hi as (_ & _ & Hf). unfold fds in Hf. cbn in Hf.
    pose proof (NoDup_seqZ SOCK_FD_BASE (NEXT_SOCK_FD s - SOCK_FD_BASE)) as Hn. rewrite <- Hf in Hn.
    by apply NoDup_app in Hn as [? _]. }
  destruct (position fd (SOCKETS s)) as [i|] eqn:Ei.
  - destruct (position_Some _ _ _ Ei) as (k & Hk & Efd). rewrite Hk in *.
    destruct (Ht _ _ fl Hi eq_refl) as [Hi1 _].
    assert ((fl ++ [FTaken fd k]) !! length fl = Some (FTaken fd k)) as Hl by (by rewrite lookup_app_r, Nat.sub_diag).
    destruct (recycle_inv (length fl) fd k _ _ Hi1 Hl) as [Hi2 _]. rewrite insert_app_r_alt, Nat.sub_diag in Hi2 by done. cbn [insert list_insert] in Hi2.
    assert ((fl ++ [FTeardown k]) !! length fl = Some (FTeardown k)) as Hl' by (by rewrite lookup_app_r, Nat.sub_diag).
    destruct (teardown_inv (length fl) t k _ _ Hi2 Hl') as (s' & E & Hi3 & _). rewrite E. exists s'. split; [done|].
    split; [by rewrite delete_middle, app_nil_r in Hi3|].
    destruct Hi2 as [Hok2 _]. cbn in Hok2. rewrite bind_app in Hok2. cbn in Hok2. rewrite app_nil_r in Hok2.
    apply (ok_perm _ _ _ (Permutation_app_comm _ (sock_own k))) in Hok2.
    destruct (close_net_ok t k _ _ Hok2) as (s1 & E1 & Hs & _). rewrite E in E1. injection E1 as <-.
    rewrite Hs. cbn. rewrite (delete_Permutation _ _ _ Hk) in Hd |- * at 2. cbn [fmap list_fmap] in *. rewrite Efd in *.
    rewrite filter_cons_False by naive_solver. apply NoDup_cons in Hd as [Hn _].
    rewrite list_filter_all; [done|]. rewrite Forall_forall. naive_solver.
  - exists s. split; [done|]. split; [done|]. rewrite list_filter_all; [done|]. apply Forall_fmap. by apply Hnone.
Qed.

Lemma sys_close_may t tt fd k fl :
  kinv (k, fl) -> sys_close t tt fd k = Panic /\ poll_fails N \/
  exists k', sys_close t tt fd k = Ret k' /\ kinv (k', fl) /\
    k_tmp k' = fst (Tmpfs.close fd (k_tmp k)) /\ k_vfs k' = fst (close_dir fd (fst (Vfs.close fd (k_vfs k)))) /\
    k_pipes k' = Pipe.close fd (k_pipes k) /\ k_table k' = epoll_drop_fd fd (k_table k) /\
    s_fd <$> SOCKETS (k_socks k') ≡ₚ filter (fun x => x <> fd) (s_fd <$> SOCKETS (k_socks k)).
Proof.
  intros (Ht & Hv & Hp & Hs). cbn in *. unfold sys_close. cbn [k_socks set_table set_tmp set_vfs set_pipes].
  destruct (sclose_ok t fd (k_socks k) fl Hs) as (s1 & -> & Hi1 & Hf1). cbn [mbind outcome_bind].
  pose proof Hi1 as [Hok1 _]. destruct (poll_may (fst tt) (snd tt) s1 _ Hok1) as [[-> ?]|(s2 & -> & Hc)];
    [by left|right]. cbn [mbind outcome_bind].
  eexists. split; [reflexivity|]. split; [|split_and!; try done; cbn [k_socks set_socks]; destruct Hc as (-> & _); exact Hf1].
  split; [by apply close_inv|]. split; [by apply close_dir_range, close_range|].
  split; [by apply pclose_range|by eapply inv_call_same].
Qed.

Lemma on_tmp_kept ptr err (m : M) k f k' r fl :
  (forall p t t' r, f p t = Ret (t', r) -> kept_tmp t t') -> on_tmp ptr err m k f = Ret (k', r) -> kept k k' fl.
Proof. intros Hf E. unfold on_tmp in E. run E; keep. Qed.

Lemma on_tmp_inv ptr err (m : M) k (f : list Z -> Tmpfs.state -> Tmpfs.state * Z) k' r fl :
  (forall p t, TmpfsInv.inv t -> TmpfsInv.inv (fst (f p t))) -> on_tmp ptr err m k (fun p t => Ret (f p t)) = Ret (k', r) ->
  kept k k' fl.
Proof.
  intros Hf. apply on_tmp_kept. intros p t t' r' [= E] Hi _. specialize (Hf p t Hi). by rewrite E in Hf.
Qed.

Lemma sys_unlinkat_kept ptr flags (m : M) k k' r fl : sys_unlinkat ptr flags m k = Ret (k', r) -> kept k k' fl.
Proof. apply on_tmp_inv. intros p t Hi. case_match; [by apply rmdir_inv|by apply unlink_inv]. Qed.

Lemma sys_rename_kept o n (m : M) k k' r fl : sys_rename o n m k = Ret (k', r) -> kept k k' fl.
Proof.
  intros E. unfold sys_rename in E. destruct (owns_path _ && owns_path _); [|run E; keep].
  destruct (Tmpfs.rename _ _ _) as [t r'] eqn:Er. injection E as <- <-. keep.
Qed.

Lemma sys_getdents64_kept fd b c (m : M) k k' m' r fl :
  wf m -> u64_arg b = true -> u64_arg c = true -> sys_getdents64 cpio fd b c m k = Ret (k', m', r) -> kept k k' fl.
Proof. intros Hw Hb Hc E. unfold sys_getdents64 in E. run E; keep. Qed.
Lemma sys_pwrite64_kept fd b c o (m : M) k k' r fl :
  wf m -> u64_arg b = true -> u64_arg c = true -> u64_arg o = true -> sys_pwrite64 fd b c o m k = Ret (k', r) -> kept k k' fl.
Proof. intros Hw Hb Hc Ho E. unfold sys_pwrite64 in E. run E; keep. Qed.
Lemma sys_lseek_kept fd o w (k k' : kernel N R) r fl : sys_lseek fd o w k = Ret (k', r) -> kept k k' fl.
Proof. intros E. unfold sys_lseek in E. run E; keep. Qed.
Lemma sys_ftruncate_kept fd l (k k' : kernel N R) r fl : u64_arg l = true -> sys_ftruncate fd l k = Ret (k', r) -> kept k k' fl.
Proof. intros Hl E. unfold sys_ftruncate in E. run E; keep. Qed.
Lemma sys_truncate_kept ptr l (m : M) k k' r fl : u64_arg l = true -> sys_truncate ptr l m k = Ret (k', r) -> kept k k' fl.
Proof. intros Hl. apply on_tmp_kept. intros p t t' r'. by apply kept_truncate. Qed.
Lemma sys_mkdir_kept ptr mode (m : M) k k' r fl : sys_mkdir ptr mode m k = Ret (k', r) -> kept k k' fl.
Proof. apply on_tmp_inv. intros p t. apply mkdir_inv. Qed.
Lemma sys_rmdir_kept ptr (m : M) k k' r fl : sys_rmdir ptr m k = Ret (k', r) -> kept k k' fl.
Proof. apply on_tmp_inv. intros p t. apply rmdir_inv. Qed.
Lemma sys_unlink_kept ptr (m : M) k k' r fl : sys_unlink ptr m k = Ret (k', r) -> kept k k' fl.
Proof. apply on_tmp_inv. intros p t. apply unlink_inv. Qed.
Lemma sys_getrandom_kept b l (m : M) k k' m' r fl :
  sys_getrandom rdseed_step rdrand_step b l m k = Ret (k', m', r) -> kept k k' fl.
Proof. intros E. unfold sys_getrandom in E. run E; first [keep|apply kept_same; by eapply fill_user_same]. Qed.
Lemma sys_fcntl_kept fd c a (k k' : kernel N R) r fl : sys_fcntl fd c a k = Ret (k', r) -> kept k k' fl.
Proof. intros E. unfold sys_fcntl in E. run E; keep. Qed.

Lemma pipe_kinv f (m : M) k k' m' r fl :
  kinv (k, fl) -> bounded k -> sys_pipe f m k = (k', m', r) -> kinv (k', fl).
Proof.
  intros (Ht & Hv & Hp & Hs) (_ & _ & Hb & _) E. cbn in *. unfold sys_pipe in E.
  destruct (f =? 0); [by injection E as <- <- <-|].
  assert (prange (fst (Pipe.create (k_pipes k)))) as Hc by (apply create_range; [done|unfold i32_max, SOCK_FD_BASE in *; lia]).
  destruct (Pipe.create (k_pipes k)) as [p [rf wfd]], (out_or_fault _ _ _ _). injection E as <- <- <-. by split_and!.
Qed.

(** *** The dispatcher *)
Lemma newfstatat_kinv d p b (m : M) k k' m' r fl :
  kinv (k, fl) -> bounded k -> sys_newfstatat cpio d p b m k = Ret (k', m', r) -> kinv (k', fl).
Proof. intros Hk Hb E. unfold sys_newfstatat in E. run E; [|done]. by eapply stat_kinv. Qed.

Lemma dup_kinv fd (k k' : kernel N R) r fl : kinv (k, fl) -> bounded k -> sys_dup fd k = Ret (k', r) -> kinv (k', fl).
Proof.
  intros Hk (_ & Hb & _) E. unfold sys_dup in E. run E; [|done]. destruct Hk as (Kt & Kv & Kr). split; [done|]. split; [|done].
  cbn in *. eapply dup_range; [exact Kv| |eassumption]. unfold i32_max, TMPFS_FD_BASE in *. lia.
Qed.

Lemma close_kinv t tt fd k k' fl : kinv (k, fl) -> sys_close t tt fd k = Ret k' -> kinv (k', fl).
Proof. intros Hk E. destruct (sys_close_may t tt fd k fl Hk) as [[E2 _]|(k2 & E2 & Hk2 & _)]; [congruence|]. rewrite E in E2. by injection E2 as <-. Qed.

Lemma sock_inv o s fl s' :
  inv (mkState s fl) -> op_ok (wf := wf) o -> NEXT_SOCK_FD s < i32_max ->
  exec o (mkState s fl) = Ret (mkState s' fl) -> inv (mkState s' fl).
Proof. intros Hi Ho Hn E. by eapply exec_stepped. Qed.

Lemma sys_socket_inv d ty s s' r fl :
  inv (mkState s fl) -> NEXT_SOCK_FD s < i32_max -> sys_socket d ty s = Ret (s', r) -> inv (mkState s' fl).
Proof.
  intros Hi Hn E. unfold sys_socket in E. pose proof Hi as [Hok _].
  destruct (socket_add_ok d ty s _ Hok) as [[E1 _]|(s1 & r1 & E1 & Hc)]; rewrite E1 in E; [done|]. cbn [mbind outcome_bind] in E.
  destruct (exec_stepped (wf := wf) (mkState s fl) (OSocket d ty) (mkState s1 (match r1 with Ok (t, h, nb) => fl ++ [FAdded t h nb] | Err _ => fl end)))
    as [Hi1 _]; [done|done|done|cbn [exec st_socks st_flights]; by rewrite E1|].
  destruct r1 as [[[t h] nb]|]; [|injection E as <- <-; done].
  destruct (alloc_fd s1) as [s2 fd] eqn:Ea. injection E as <- <-. set (k := new_socket fd t h nb 0 UNSPECIFIED).
  assert ((fl ++ [FAdded t h nb]) !! length fl = Some (FAdded t h nb)) as Hl by (by rewrite lookup_app_r, Nat.sub_diag).
  destruct Hc as (_ & Hnext & _). destruct (alloc_inv (length fl) _ k s1 s2 _ fd Hi1 ltac:(lia) Hl eq_refl Ea eq_refl) as [Hi2 _];
    [done|]. rewrite insert_app_r_alt, Nat.sub_diag in Hi2 by done. cbn [insert list_insert] in Hi2.
  assert ((fl ++ [FPush k]) !! length fl = Some (FPush k)) as Hl' by (by rewrite lookup_app_r, Nat.sub_diag).
  destruct (push_inv (length fl) k s2 _ Hi2 Hl') as [Hi3 _]. by rewrite delete_middle, app_nil_r in Hi3.
Qed.

Lemma kinv_set_socks k s fl : inv (mkState s fl) -> kinv (k, fl) -> kinv (set_socks s k, fl).
Proof. intros Hi (Ht & Hv & Hp & _). by split_and!. Qed.
Lemma kinv_other k k' fl :
  k_tmp k' = k_tmp k -> k_vfs k' = k_vfs k -> k_pipes k' = k_pipes k -> k_socks k' = k_socks k -> kinv (k, fl) -> kinv (k', fl).
Proof. intros E1 E2 E3 E4. by apply same_kinv, same_other. Qed.

Lemma kinv_socks k fl : kinv (k, fl) -> inv (mkState (k_socks k) fl).
Proof. by intros (_ & _ & _ & Hs). Qed.
Lemma sock_kinv o k s fl :
  kinv (k, fl) -> NEXT_SOCK_FD (k_socks k) < i32_max -> op_ok (wf := wf) o ->
  exec o (mkState (k_socks k) fl) = Ret (mkState s fl) -> kinv (set_socks s k, fl).
Proof. intros Hk Hn Ho E. apply kinv_set_socks; [|done]. by eapply sock_inv, E; [apply kinv_socks| |]. Qed.
Lemma recvfrom_kinv t t' fd b l sa al (m : M) k m' s' r fl :
  wf m -> u64_arg b = true -> u64_arg l = true ->
  sys_recvfrom t t' fd b l sa al m (k_socks k) = Ret (m', s', r) -> kinv (k, fl) -> kinv (set_socks s' k, fl).
Proof.
  unfold u64_arg. intros Hw Hb Hl E Hk. zb. apply kinv_set_socks; [|done].
  eapply inv_call_same; [by apply kinv_socks|]. eapply recvfrom_same; [exact Hw| | |exact E|by apply kinv_socks]; lia.
Qed.

Lemma sys_access_kept ptr (m : M) k k' r fl : sys_access ptr m k = Ret (k', r) -> kept k k' fl.
Proof. apply on_tmp_kept. intros p t t' r' [= -> _]. by intros Hi _. Qed.

Lemma sys_futex_same u op v t h (m : M) (k k' : kernel N R) a fl : sys_futex u op v t h m k = (k', a) -> same k k' fl.
Proof. unfold sys_futex. intros E. repeat case_match; simplify_eq; keep_same. Qed.

Lemma sys_select_kinv e n t (m : M) (k k' : kernel N R) a fl : kinv (k, fl) -> sys_select e n t m k = Ret (k', a) -> kinv (k', fl).
Proof.
  intros Hk E. unfold sys_select in E. apply bind_ret in E as (s & Es & E).
  assert (kinv (set_socks s k, fl)) as Hk1.
  { destruct (0 <? n); [|injection Es as <-; by apply (kinv_other k)].
    pose proof Hk as (_ & _ & _ & [Hok _]). pose proof (poll_call (fst (e_poll e)) (snd (e_poll e)) _ _ s Hok Es) as Hc. apply kinv_set_socks; [|done].
    eapply inv_call_same; [|exact Hc]. apply Hk. }
  run E; [done|]. by apply (kinv_other (set_socks s k)).
Qed.

Lemma sys_sendmsg_same fd msg (m : M) (k k' : kernel N R) m' r fl : sys_sendmsg fd msg m k = Ret (k', m', r) -> same k k' fl.
Proof. intros E. unfold sys_sendmsg in E. run E; keep_same. Qed.

(** The arm of a call, from the handler's result in it. *)
Ltac arm Hk Hb Hn Hs :=
  cbn [o_k o_mm];
  lazymatch goal with
  | E : sys_write _ _ _ _ _ _ = Ret _ |- _ => refine (kept_kinv _ _ _ (sys_write_kept _ _ _ _ _ _ _ _ _ _ _ _ _ E) Hn Hk); assumption
  | E : sys_read _ _ _ _ _ _ _ _ _ _ _ = Ret _ |- _ =>
      refine (kept_kinv _ _ _ (sys_read_kept _ _ _ _ _ _ _ _ _ _ _ _ _ _ _ E) Hn Hk); assumption
  | E : sys_getdents64 _ _ _ _ _ _ = Ret _ |- _ =>
      refine (kept_kinv _ _ _ (sys_getdents64_kept _ _ _ _ _ _ _ _ _ _ _ _ E) Hn Hk); assumption
  | E : sys_pwrite64 _ _ _ _ _ _ = Ret _ |- _ =>
      refine (kept_kinv _ _ _ (sys_pwrite64_kept _ _ _ _ _ _ _ _ _ _ _ _ _ E) Hn Hk); assumption
  | E : sys_lseek _ _ _ _ = Ret _ |- _ => exact (kept_kinv _ _ _ (sys_lseek_kept _ _ _ _ _ _ _ E) Hn Hk)
  | E : sys_ftruncate _ _ _ = Ret _ |- _ => refine (kept_kinv _ _ _ (sys_ftruncate_kept _ _ _ _ _ _ _ E) Hn Hk); assumption
  | E : sys_truncate _ _ _ _ = Ret _ |- _ => refine (kept_kinv _ _ _ (sys_truncate_kept _ _ _ _ _ _ _ _ E) Hn Hk); assumption
  | E : sys_mkdir _ _ _ _ = Ret _ |- _ => exact (kept_kinv _ _ _ (sys_mkdir_kept _ _ _ _ _ _ _ E) Hn Hk)
  | E : sys_rmdir _ _ _ = Ret _ |- _ => exact (kept_kinv _ _ _ (sys_rmdir_kept _ _ _ _ _ _ E) Hn Hk)
  | E : sys_unlink _ _ _ = Ret _ |- _ => exact (kept_kinv _ _ _ (sys_unlink_kept _ _ _ _ _ _ E) Hn Hk)
  | E : sys_unlinkat _ _ _ _ = Ret _ |- _ => exact (kept_kinv _ _ _ (sys_unlinkat_kept _ _ _ _ _ _ _ E) Hn Hk)
  | E : sys_rename _ _ _ _ = Ret _ |- _ => exact (kept_kinv _ _ _ (sys_rename_kept _ _ _ _ _ _ _ E) Hn Hk)
  | E : sys_access _ _ _ = Ret _ |- _ => exact (kept_kinv _ _ _ (sys_access_kept _ _ _ _ _ _ E) Hn Hk)
  | E : sys_getrandom _ _ _ _ _ _ = Ret _ |- _ => exact (kept_kinv _ _ _ (sys_getrandom_kept _ _ _ _ _ _ _ _ E) Hn Hk)
  | E : sys_fcntl _ _ _ _ = Ret _ |- _ => exact (kept_kinv _ _ _ (sys_fcntl_kept _ _ _ _ _ _ _ E) Hn Hk)
  | E : sys_sendfile _ _ _ _ _ _ _ _ _ = Ret _ |- _ => exact (same_kinv _ _ _ (sendfile_same _ _ _ _ _ _ _ _ _ _ _ _ E) Hk)
  | E : sys_sendmsg _ _ _ _ = Ret _ |- _ => exact (same_kinv _ _ _ (sys_sendmsg_same _ _ _ _ _ _ _ _ E) Hk)
  | E : sys_futex _ _ _ _ _ _ _ = _ |- _ => exact (same_kinv _ _ _ (sys_futex_same _ _ _ _ _ _ _ _ _ _ E) Hk)
  | E : sys_select _ _ _ _ _ = Ret _ |- _ => exact (sys_select_kinv _ _ _ _ _ _ _ _ Hk E)
  | E : sys_open _ _ _ _ _ _ = Ret _ |- _ => exact (open_path_kinv _ _ _ _ _ _ _ Hk Hb E)
  | E : sys_stat _ _ _ _ _ = Ret _ |- _ => exact (stat_kinv _ _ _ _ _ _ _ _ Hk Hb E)
  | E : sys_newfstatat _ _ _ _ _ _ = Ret _ |- _ => exact (newfstatat_kinv _ _ _ _ _ _ _ _ _ Hk Hb E)
  | E : sys_dup _ _ = Ret _ |- _ => exact (dup_kinv _ _ _ _ _ Hk Hb E)
  | E : Ret (sys_pipe _ _ _) = Ret _ |- _ => injection E as E; exact (pipe_kinv _ _ _ _ _ _ _ Hk Hb E)
  | E : sys_close _ _ _ _ = Ret _ |- _ => exact (close_kinv _ _ _ _ _ _ Hk E)
  | E : sys_socket _ _ _ = Ret _ |- _ => exact (kinv_set_socks _ _ _ (sys_socket_inv _ _ _ _ _ _ (kinv_socks _ _ Hk) Hs E) Hk)
  | E : sys_connect ?fd ?a ?m _ = Ret _ |- _ => refine (sock_kinv (OConnect fd a m) _ _ _ Hk Hs I _); cbn [exec st_socks st_flights]; by rewrite E
  | E : sys_bind ?fd ?a ?m _ = Ret _ |- _ => refine (sock_kinv (OBind fd a m) _ _ _ Hk Hs I _); cbn [exec st_socks st_flights]; by rewrite E
  | E : sys_listen ?fd _ = Ret _ |- _ => refine (sock_kinv (OListen fd) _ _ _ Hk Hs I _); cbn [exec st_socks st_flights]; by rewrite E
  | E : sys_getsockopt ?fd ?a ?b ?c ?d ?m _ = Ret _ |- _ =>
      refine (sock_kinv (OGetsockopt fd a b c d m) _ _ _ Hk Hs I _); cbn [exec st_socks st_flights]; by rewrite E
  | E : sys_sendto ?t ?t' ?fd ?b ?l ?d ?m _ = Ret _ |- _ =>
      refine (sock_kinv (OSend t t' fd b l d m) _ _ _ Hk Hs I _); cbn [exec st_socks st_flights]; by rewrite E
  | E : sys_recvfrom _ _ _ _ _ _ _ ?m _ = Ret _ |- _ => refine (recvfrom_kinv _ _ _ _ _ _ _ _ _ _ _ _ _ _ _ _ E Hk); assumption
  | |- _ => first [exact Hk | apply (kinv_other _ _ _ eq_refl eq_refl eq_refl eq_refl Hk)]
  end.

(** Every system call keeps every component's descriptors in their range. *)
Lemma dispatch_kinv e nr a0 a1 a2 a3 a4 m o o' m' a fl :
  kcall_ok (KSys e nr a0 a1 a2 a3 a4 m) -> bounded (o_k o) -> kinv (o_k o, fl) ->
  syscall_dispatch_inner rdseed_step rdrand_step cpio e nr a0 a1 a2 a3 a4 m o = Ret (o', m', a) -> kinv (o_k o', fl).
Proof.
  destruct o as [k g]. cbn [o_k]. intros (Hw & Ha & N1 & N2 & N3) Hb Hk E. pose proof Hb as (Hn & _ & _ & Hsb).
  assert (NEXT_SOCK_FD (k_socks k) < i32_max) as Hs by (unfold i32_max, DIR_FD_BASE in *; lia).
  decompose_Forall_hyps. unfold syscall_dispatch_inner in E. cbn [o_k o_mm] in E.
  run E; first [exfalso; congruence | arm Hk Hb Hn Hs].
Qed.

Lemma kexec_kinv c o fl o' fl' :
  kcall_ok c -> bounded (o_k o) -> kinv (o_k o, fl) -> kexec c (o, fl) = Ret (o', fl') -> kinv (o_k o', fl').
Proof.
  intros Ha Hb Hk E. destruct c as [e nr a0 a1 a2 a3 a4 m|op]; cbn [kexec] in E.
  - apply bind_ret in E as ([[o1 m1] a] & E & [= <- <-]). by eapply dispatch_kinv.
  - apply bind_ret in E as ([s1 fl1] & E & [= <- <-]). destruct Hk as (Kt & Kv & Kp & Ks).
    split; [done|]. split; [done|]. split; [done|]. refine (proj1 (exec_stepped _ _ _ Ks Ha _ E)).
    destruct Hb as (_ & _ & _ & Hb). cbn. unfold i32_max, DIR_FD_BASE in *. lia.
Qed.

End Kernel.
