(* ===== verification/SyscallsProps.v ===== *)
(** * The file system calls: theorems

    A descriptor number belongs to one component at most, closing it ends it
    there and touches nothing else, and a vectored write is a contiguous prefix
    of its buffers. *)

From S2P Require Import Prelude TmpfsTree Paging Confinement Uaccess Mmap FdTable Cpio Tmpfs TmpfsInv Vfs VfsProps Pipe Clock Socket SocketInv SocketProps Epoll EpollProps Rng Syscalls Dispatch SyscallsInv.

Lemma vfs_boot_range : vrange vfs_boot.
Proof.
  assert (live_fds (files vfs_boot) = []) as E by by vm_compute.
  split; unfold table_ok; rewrite ?E; try done; [apply NoDup_nil_2|].
  intros i x Hx. left. apply list_lookup_fmap_Some in Hx as (d & -> & Hd).
  change (replicate 8 (mkDirSlot (-1) [] false) !! i = Some d) in Hd. by apply lookup_replicate in Hd as [-> _].
Qed.

Section Props.
Context {N : Type} `{HS : StackLaws N}.
Context {R : Type} `{Csprng R}.
Context (rdseed_step rdrand_step : nat -> option Z).
Context (cpio : list Z).
Context {M : Type} {wf : M -> Prop} `{HM : UserMemLaws M wf} `{!RawLoad M}.

(** The kernel after the components' initialisation. *)
Definition boot_kernel (n : option N) (dhcp : option Z) (dns : list (list Z)) (t : Tmpfs.state) (c : clock) (g : rng R) : kernel N R :=
  mkKernel (Tmpfs.init t) vfs_boot pipe_boot EPOLL_TABLE c (boot_socks n dhcp dns) g ([], 0) [] false false.

(** Runs of system calls and socket steps whose states stay [bounded]. *)
Inductive kreach : kstate -> Prop :=
  | kreach_boot n dhcp dns t c g mm :
      boots n dhcp -> next_fd t = TMPFS_FD_BASE -> kreach (mkOs (boot_kernel n dhcp dns t c g) mm, [])
  | kreach_call c o fl o' fl' :
      kreach (o, fl) -> kcall_ok (wf := wf) c ->
      kexec rdseed_step rdrand_step cpio c (o, fl) = Ret (o', fl') -> bounded (o_k o') -> kreach (o', fl').

Lemma kreach_ok o fl : kreach (o, fl) -> kinv (o_k o, fl) /\ bounded (o_k o).
Proof.
  intros Hr. remember (o, fl) as x eqn:Ex. revert o fl Ex.
  induction Hr as [n dhcp dns t c g mm Hb Ht|c o1 fl1 o' fl' Hr IH Ha E Hbd]; intros o fl [= <- <-].
  - split; [|unfold bounded; cbn; rewrite Ht; by vm_compute]. split_and!.
    + apply TmpfsProps.init_inv. rewrite Ht. by vm_compute.
    + exact vfs_boot_range.
    + split; [by vm_compute|]. apply Forall_replicate. split; by left.
    + by apply boot_inv.
  - split; [|done]. destruct (IH o1 fl1 eq_refl) as [Hk Hb1]. by eapply kexec_kinv.
Qed.

(** ** Who owns a number *)
Lemma is_tmpfs_range t fd : is_tmpfs_fd t fd = true -> TMPFS_FD_BASE <= fd.
Proof. unfold is_tmpfs_fd. destruct (Z.ltb_spec fd TMPFS_FD_BASE); [done|lia]. Qed.

Lemma is_vfs_live fd v : is_vfs_fd fd v = true <-> fd ∈ live_fds (files v).
Proof.
  unfold is_vfs_fd, FdTable.find. generalize 0%nat. induction (files v) as [|[f|] t IH]; intros i; cbn [find_from].
  - by rewrite elem_of_nil.
  - rewrite live_cons, elem_of_cons. destruct (Z.eqb_spec (f_fd f) fd) as [->|Hne]; [tauto|]. rewrite IH. naive_solver.
  - apply IH.
Qed.

Lemma is_dir_slot fd v : is_dir_fd fd v = true <-> fd ∈ d_fd <$> dirs v.
Proof. unfold is_dir_fd. rewrite existsb_exists, list_elem_of_fmap. setoid_rewrite list_elem_of_In. split; intros (d & ? & ?); exists d; zb; split; auto; by apply Z.eqb_eq. Qed.

Lemma is_pipe_end fd p : is_pipe_fd fd p = true <-> exists e, e ∈ ends p /\ (e.1 = fd \/ e.2 = fd).
Proof.
  unfold is_pipe_fd, ends. rewrite existsb_exists. setoid_rewrite list_elem_of_fmap. split.
  - intros (q & Hq & E). apply list_elem_of_In in Hq. exists (read_fd q, write_fd q). split; [by exists q|].
    apply orb_true_iff in E as [E|E]; zb; auto.
  - intros (e & (q & -> & Hq) & E). exists q. split; [by apply list_elem_of_In|]. cbn in E.
    destruct E as [<-|<-]; rewrite Z.eqb_refl; [done|apply orb_true_r].
Qed.

Lemma is_socket_open fd (s : socks N) : is_socket_fd fd s = true <-> fd ∈ s_fd <$> SOCKETS s.
Proof.
  unfold is_socket_fd. rewrite existsb_exists, list_elem_of_fmap. split; intros (q & ? & ?); exists q.
  - zb. split; [done|by apply list_elem_of_In].
  - split; [by apply list_elem_of_In|by apply Z.eqb_eq].
Qed.

(** The range of each component's numbers. *)
Lemma owner_ranges (k : kernel N R) fl fd : kinv (k, fl) ->
  (is_tmpfs_fd (k_tmp k) fd = true -> TMPFS_FD_BASE <= fd) /\
  (is_vfs_fd fd (k_vfs k) = true -> 1000 <= fd < next_vfs_fd (k_vfs k)) /\
  (is_dir_fd fd (k_vfs k) = true -> fd <> -1 -> 900 <= fd < 908) /\
  (is_pipe_fd fd (k_pipes k) = true -> fd <> -1 -> 200 <= fd < next_pipe_fd (k_pipes k)) /\
  (is_socket_fd fd (k_socks k) = true -> 500 <= fd < NEXT_SOCK_FD (k_socks k)).
Proof.
  intros (_ & Hv & Hp & Hs). cbn in *. split_and!.
  - apply is_tmpfs_range.
  - rewrite is_vfs_live. destruct Hv as [_ Hl _ _ _]. rewrite Forall_forall in Hl. apply Hl.
  - rewrite is_dir_slot. intros [i Hi]%list_elem_of_lookup Hfd. pose proof Hi as Hlt%lookup_lt_Some.
    rewrite length_fmap, (vr_slots _ Hv) in Hlt. destruct (vr_dirs _ Hv i fd Hi) as [?|E]; [done|]. unfold DIR_FD_BASE in E. lia.
  - rewrite is_pipe_end. intros (e & He & Ee) Hfd. apply prange_ends in Hp as [_ Hp]. rewrite Forall_forall in Hp.
    destruct (Hp e He) as [H1' H2']. unfold end_ok in *. destruct Ee; lia.
  - rewrite is_socket_open. intros Hin. destruct Hs as (_ & _ & Hf). unfold fds in Hf. cbn in Hf.
    assert (fd ∈ seqZ SOCK_FD_BASE (NEXT_SOCK_FD (k_socks k) - SOCK_FD_BASE)) as Hq%elem_of_seqZ
      by (rewrite <- Hf; apply elem_of_app; by left).
    unfold SOCK_FD_BASE in Hq. lia.
Qed.

(** ** What closing does *)
Lemma tmp_close_owner t fd fd' :
  TmpfsInv.inv t -> is_tmpfs_fd (fst (Tmpfs.close fd t)) fd' = is_tmpfs_fd t fd' && negb (fd' =? fd).
Proof.
  intros Hi. apply Bool.eq_iff_eq_true. rewrite andb_true_iff, negb_true_iff, Z.eqb_neq. unfold Tmpfs.close.
  destruct (Z.ltb_spec fd TMPFS_FD_BASE) as [Hlt|Hge]; cbn [fst].
  { split; [|tauto]. intros E. split; [done|]. apply is_tmpfs_range in E. lia. }
  destruct (tmpfs t) as [fs|] eqn:Ef; cbn [fst]; [|unfold is_tmpfs_fd; rewrite Ef; destruct (_ <? _); naive_solver].
  destruct (inv_get t fs Hi Ef) as [_ [Hd _ _ _]]. unfold is_tmpfs_fd.
  assert (forall l, existsb (fun o => o_fd o =? fd') l = true <-> fd' ∈ o_fd <$> l) as He.
  { intros l. rewrite existsb_exists, list_elem_of_fmap. split; intros (o & ? & ?); exists o.
    - zb. split; [done|by apply list_elem_of_In].
    - split; [by apply list_elem_of_In|by apply Z.eqb_eq]. }
  destruct (find_fd fd (opens fs)) as [[i o]|] eqn:Ei; cbn [fst put tmpfs]; rewrite ?Ef; cbn [opens set_opens];
    (destruct (Z.ltb_spec fd' TMPFS_FD_BASE); [naive_solver|]); rewrite !He.
  - apply list_find_Some in Ei as (Ho & Efd & _). change (NoDup (o_fd <$> opens fs)) in Hd.
    rewrite (delete_Permutation _ _ _ Ho) in Hd |- * at 2. cbn [fmap list_fmap] in *. rewrite elem_of_cons, Efd in *.
    apply NoDup_cons in Hd as [Hn _]. split; [|tauto]. intros Hin. split; [by right|]. by intros ->.
  - apply list_find_None in Ei. split; [|tauto]. intros Hin. split; [done|]. intros ->.
    apply list_elem_of_fmap in Hin as (o & -> & Ho). rewrite Forall_forall in Ei. by apply (Ei o).
Qed.

Lemma vfs_close_owner v fd fd' :
  vrange v -> is_vfs_fd fd' (fst (close_dir fd (fst (Vfs.close fd v)))) = is_vfs_fd fd' v && negb (fd' =? fd).
Proof.
  intros Hv. apply Bool.eq_iff_eq_true. rewrite andb_true_iff, negb_true_iff, Z.eqb_neq, !is_vfs_live.
  assert (files (fst (close_dir fd (fst (Vfs.close fd v)))) = fst (free (files v) fd)) as ->
    by (unfold close_dir; by destruct (close_dir_from _ _)).
  rewrite (free_live _ fd (vr_tbl _ Hv)), list_elem_of_filter. tauto.
Qed.

Lemma dir_close_owner v fd fd' :
  vrange v -> fd <> -1 -> fd' <> -1 ->
  is_dir_fd fd' (fst (close_dir fd (fst (Vfs.close fd v)))) = is_dir_fd fd' v && negb (fd' =? fd).
Proof.
  intros Hv Hfd Hfd'. apply Bool.eq_iff_eq_true. rewrite andb_true_iff, negb_true_iff, Z.eqb_neq, !is_dir_slot.
  assert (dirs (fst (close_dir fd (fst (Vfs.close fd v)))) = fst (close_dir_from fd (dirs v))) as ->
    by (unfold close_dir; cbn [fst Vfs.close dirs set_files]; by destruct (close_dir_from _ _)).
  rewrite !list_elem_of_lookup. setoid_rewrite (close_dir_fds fd (dirs v)); [|by apply vrange_dirs|done].
  split.
  - intros (i & (x & Hx & E)%fmap_Some). destruct (Z.eqb_spec x fd); [done|]. subst. eauto.
  - intros ((i & Hi) & Hne). exists i. rewrite Hi. cbn. by rewrite (proj2 (Z.eqb_neq _ _) Hne).
Qed.

(** The write end of a pipe stays. *)
Lemma pipe_close_owner p fd fd' :
  fd <> -1 -> fd' <> -1 ->
  is_pipe_fd fd' (Pipe.close fd p) = if fd' =? fd then bool_decide (fd ∈ (ends p).*2) else is_pipe_fd fd' p.
Proof.
  intros Hfd Hfd'. apply Bool.eq_iff_eq_true. rewrite is_pipe_end.
  assert (ends (Pipe.close fd p) = (fun e => if e.1 =? fd then (-1, e.2) else e) <$> ends p) as ->.
  { unfold ends, Pipe.close. cbn [pipes]. rewrite <- !list_fmap_compose. apply list_fmap_ext. intros i q _.
    unfold compose, close_pipe. cbn. destruct (read_fd q =? fd); [|done].
    destruct (Z.eqb_spec (write_fd q) (-1)) as [E|]; cbn; by rewrite ?E. }
  destruct (Z.eqb_spec fd' fd) as [->|Hne].
  - rewrite bool_decide_eq_true. split.
    + intros (e & (e0 & -> & He0)%list_elem_of_fmap & Ee). apply list_elem_of_fmap. exists e0. split; [|done].
      destruct (Z.eqb_spec (e0.1) fd) as [|Hn]; cbn in Ee; destruct Ee as [?|?]; try done; lia.
    + intros (e & -> & He)%list_elem_of_fmap. eexists. split; [by apply list_elem_of_fmap_2|]. case_match; cbn; auto.
  - rewrite is_pipe_end. split.
    + intros (e & (e0 & -> & He0)%list_elem_of_fmap & Ee). exists e0. split; [done|].
      destruct (Z.eqb_spec (e0.1) fd) as [|Hn]; cbn in Ee; destruct Ee as [?|?]; auto; lia.
    + intros (e & He & Ee). eexists. split; [by apply list_elem_of_fmap_2|].
      destruct (Z.eqb_spec (e.1) fd); cbn; destruct Ee; auto; lia.
Qed.

Lemma socket_close_owner (s s' : socks N) fd fd' :
  s_fd <$> SOCKETS s' ≡ₚ filter (fun x => x <> fd) (s_fd <$> SOCKETS s) ->
  is_socket_fd fd' s' = is_socket_fd fd' s && negb (fd' =? fd).
Proof.
  intros E. apply Bool.eq_iff_eq_true. rewrite andb_true_iff, negb_true_iff, Z.eqb_neq, !is_socket_open, E, list_elem_of_filter.
  tauto.
Qed.

(** ** Vectored writes *)

(** The entries of the array from the [i]-th on point at these buffers. *)
Fixpoint iovs_at (m : M) (iov i : Z) (bss : list (list Z)) : Prop :=
  match bss with
  | [] => True
  | bs :: r => (exists base, read_user_iovec iov i m = Some (base, len bs) /\ um_in m base (len bs) = Some bs) /\ iovs_at m iov (i + 1) r
  end.

Lemma list_find_insert {A} (P : A -> Prop) `{!forall x, Decision (P x)} l i x y :
  list_find P l = Some (i, x) -> P y -> list_find P (<[i := y]> l) = Some (i, y).
Proof.
  intros (Hi & Hx & Hb)%list_find_Some Hy. apply list_find_Some. split_and!; [|done|].
  - apply list_lookup_insert_eq. by eapply lookup_lt_Some.
  - intros j z Hz Hlt. rewrite list_lookup_insert_ne in Hz by lia. by eapply Hb.
Qed.

Definition plain_pipe (fd : Z) (k : kernel N R) : Prop :=
  is_tmpfs_fd (k_tmp k) fd = false /\ fd <> 1 /\ fd <> 2 /\ fd <> FD_DEVNULL.

Lemma write_pipe tt fd base bs (m : M) (k : kernel N R) i p :
  plain_pipe fd k -> list_find (fun p => write_fd p = fd) (pipes (k_pipes k)) = Some (i, p) -> pipe_ok p ->
  um_in m base (len bs) = Some bs ->
  exists p', sys_write tt fd base (len bs) m k =
      Ret (set_pipes (set_pipe i p' (k_pipes k)) k, m, Z.min (len bs) (CAPACITY - len (contents p))) /\
    pipe_ok p' /\ abs p' = mkQueue (contents p ++ take (Z.to_nat (CAPACITY - len (contents p))) bs) (read_fd p) (write_fd p) (nonblock p).
Proof.
  intros (Ht & H1' & H2' & H3') Hf Hp Hm. destruct (push_loop_spec bs p 0 Hp) as (p' & E & Hp' & Ha). exists p'. split; [|done].
  assert (is_pipe_fd fd (k_pipes k) = true) as Hfd.
  { apply is_pipe_end. pose proof Hf as (Hi & Ew & _)%list_find_Some. exists (read_fd p, write_fd p). split; [|by right].
    apply (list_elem_of_fmap_2 (fun q => (read_fd q, write_fd q))). by eapply list_elem_of_lookup_2. }
  unfold sys_write. rewrite Ht. destruct (Z.eqb_spec fd 1), (Z.eqb_spec fd 2), (Z.eqb_spec fd FD_DEVNULL); try done. cbn [orb].
  rewrite Hfd. unfold Pipe.write. rewrite Hf, Hm, E. cbn [mbind outcome_bind fst snd]. done.
Qed.

Lemma writev_pipe tt fd iov (m : M) bss : forall j total (k : kernel N R) i p,
  plain_pipe fd k -> list_find (fun p => write_fd p = fd) (pipes (k_pipes k)) = Some (i, p) -> pipe_ok p ->
  0 <= total <= len (contents p) -> iovs_at m iov j bss ->
  exists p', writev_loop tt (length bss) fd iov j total m k =
      Ret (set_pipes (set_pipe i p' (k_pipes k)) k, m, total + Z.min (len (concat bss)) (CAPACITY - len (contents p))) /\
    pipe_ok p' /\
    abs p' = mkQueue (contents p ++ take (Z.to_nat (CAPACITY - len (contents p))) (concat bss)) (read_fd p) (write_fd p) (nonblock p).
Proof.
  induction bss as [|bs bss IH]; intros j total k i p Hk Hf Hp Ht Hv; cbn [length writev_loop concat];
    pose proof (contents_bound p Hp) as Hc.
  { exists p. split; [|split; [done|by rewrite take_nil, app_nil_r]]. pose proof Hf as (Hi & _)%list_find_Some.
    unfold set_pipe. rewrite list_insert_id by done. change (len (@nil Z)) with 0. rewrite Z.min_l, Z.add_0_r by lia.
    destruct k as [? ? []]. done. }
  destruct Hv as ((base & -> & Hm) & Hv). cbn [mbind outcome_bind]. pose proof (len_nonneg bs). pose proof (len_nonneg (concat bss)).
  destruct (Z.eqb_spec (len bs) 0) as [E0|E0].
  { destruct bs; [|rewrite len_cons in E0; pose proof (len_nonneg bs); lia]. by apply IH. }
  destruct (write_pipe tt fd base bs m k i p Hk Hf Hp Hm) as (p1 & -> & Hp1 & Ha). cbn [mbind outcome_bind].
  rewrite (proj2 (Z.ltb_ge _ _)) by lia. unfold CAPACITY, PIPE_BUF_SIZE in *. rewrite i64_small by lia.
  rewrite len_app, take_app. destruct (Z.ltb_spec (Z.min (len bs) (4096 - 1 - len (contents p))) (len bs)) as [Hlt|Hge].
  - exists p1. split; [do 2 f_equal; lia|]. split; [done|]. rewrite Ha. do 2 f_equal.
    replace (_ - length bs)%nat with 0%nat by (unfold len in *; lia). by rewrite app_nil_r.
  - unfold abs in Ha at 1. injection Ha as Ec Er Ew En. rewrite take_ge in Ec by (unfold len in *; lia).
    destruct (IH (j + 1) (total + Z.min (len bs) (4096 - 1 - len (contents p)))
                 (set_pipes (set_pipe i p1 (k_pipes k)) k) i p1) as (p' & -> & Hp' & Ha').
    + done.
    + cbn. apply list_find_insert with (x := p); [done|]. pose proof Hf as (_ & ? & _)%list_find_Some. congruence.
    + done.
    + rewrite Ec, len_app. lia.
    + done.
    + exists p'. split; [|split; [done|]].
      * cbn [k_pipes set_pipes]. unfold set_pipe. cbn [pipes next_pipe_fd]. rewrite list_insert_insert_eq, Ec, len_app.
        do 2 f_equal. lia.
      * rewrite Ha', Ec, Er, Ew, En, len_app, <- app_assoc, (take_ge bs) by (unfold len in *; lia). do 4 f_equal.
        unfold len in *. lia.
Qed.

(** ** Properties *)

(** The free slots of the directory and pipe tables: their descriptor fields are
    -1, as is the read end of a pipe closed on that side only. *)
Definition free_dir (k : kernel N R) : Prop := Exists (fun d => d_fd d = -1) (dirs (k_vfs k)).
Definition free_end (k : kernel N R) : Prop := Exists (fun p => read_fd p = -1 \/ write_fd p = -1) (pipes (k_pipes k)).
#[export] Instance free_dir_dec k : Decision (free_dir k).
Proof. unfold free_dir. apply _. Defined.
#[export] Instance free_end_dec k : Decision (free_end k).
Proof. unfold free_end. apply _. Defined.

Lemma minus_one_dir k : is_dir_fd (-1) (k_vfs k) = bool_decide (free_dir k).
Proof.
  apply eq_true_iff_eq. unfold is_dir_fd, free_dir. rewrite bool_decide_eq_true, existsb_exists, Exists_exists.
  split; intros (d & Hd & E); exists d; rewrite ?list_elem_of_In in *; (split; [done|]); by apply Z.eqb_eq.
Qed.
Lemma minus_one_pipe k : is_pipe_fd (-1) (k_pipes k) = bool_decide (free_end k).
Proof.
  apply eq_true_iff_eq. unfold is_pipe_fd, free_end. rewrite bool_decide_eq_true, existsb_exists, Exists_exists.
  split; intros (d & Hd & E); exists d; rewrite ?list_elem_of_In in *; (split; [done|]);
    rewrite orb_true_iff, !Z.eqb_eq in *; done.
Qed.

(** C29.  A descriptor number other than -1 belongs to one component: in every
    state reached by system calls with any numbers and arguments ([readv],
    [writev] and [recvmsg] as the calls they make), and any interleaving of the
    socket calls of other threads, at most one of the RAM filesystem, the
    archive's files, its directory handles, the pipes and the sockets takes it
    for its own, and none takes the numbers below 200 of the standard streams
    and the synthetic files.  So the order in which [read], [write] and the
    others ask the components does not matter.  The number -1 is not a
    descriptor, yet it has owners: the directory handles take it exactly while
    they have a free slot, and the pipes exactly while a slot or an end is
    free.  All this holds while the counters are inside their ranges. *)
Theorem fd_one_owner o fl fd :
  kreach (o, fl) ->
  if fd =? -1
  then owners fd (o_k o) = (if bool_decide (free_dir (o_k o)) then [ODir] else [])
                           ++ (if bool_decide (free_end (o_k o)) then [OPipe] else [])
  else (length (owners fd (o_k o)) <= 1)%nat /\ (fd < 200 -> owners fd (o_k o) = []).
Proof.
  destruct o as [k g]. intros [Hk (_ & Hv & Hp & Hs)]%kreach_ok. cbn [o_k] in *.
  destruct (owner_ranges k fl fd Hk) as (R1 & R2 & R3 & R4 & R5).
  unfold TMPFS_FD_BASE, SOCK_FD_BASE, DIR_FD_BASE in *. unfold owners. destruct (Z.eqb_spec fd (-1)) as [->|Hfd].
  - rewrite minus_one_dir, minus_one_pipe.
    destruct (is_tmpfs_fd (k_tmp k) (-1)); [specialize (R1 eq_refl); lia|].
    destruct (is_vfs_fd (-1) (k_vfs k)); [specialize (R2 eq_refl); lia|].
    destruct (is_socket_fd (-1) (k_socks k)); [specialize (R5 eq_refl); lia|]. cbn. by rewrite app_nil_r.
  - destruct (is_tmpfs_fd (k_tmp k) fd), (is_vfs_fd fd (k_vfs k)), (is_dir_fd fd (k_vfs k)), (is_pipe_fd fd (k_pipes k)),
      (is_socket_fd fd (k_socks k)); cbn; try specialize (R1 eq_refl); try specialize (R2 eq_refl); try specialize (R3 eq_refl Hfd);
      try specialize (R4 eq_refl Hfd); try specialize (R5 eq_refl); (split; [lia|]); intros; try done; lia.
Qed.

(** C30.  [close] ends a descriptor (a number other than -1) and nothing else: from
    every such state it returns (if the poll of the network it ends with does);
    afterwards no component takes the number for its own and epoll has no
    registration of it, so that its next owner starts clean, with the one
    exception that the write end of a pipe stays open; and every other number
    has the owners and the registration it had. *)
Theorem close_exact `{!StackReturns N} o fl t tt fd :
  kreach (o, fl) -> fd <> -1 ->
  exists k', sys_close t tt fd (o_k o) = Ret k' /\
    owners fd k' = (if bool_decide (fd ∈ (ends (k_pipes (o_k o))).*2) then [OPipe] else []) /\
    ep_map (k_table k') !! fd = None /\
    forall fd', fd' <> fd -> fd' <> -1 ->
      owners fd' k' = owners fd' (o_k o) /\ ep_map (k_table k') !! fd' = ep_map (k_table (o_k o)) !! fd'.
Proof.
  destruct o as [k g]. cbn [o_k]. intros [Hk _]%kreach_ok Hfd. cbn [o_k] in Hk.
  destruct (sys_close_may rdseed_step rdrand_step t tt fd k fl Hk) as [[_ Hf]|(k' & E & _ & Et & Ev & Ep & Ee & Es)];
    [by apply polls_return in Hf|].
  destruct Hk as (Ht & Hv & _ & _). cbn in Ht, Hv. exists k'. split; [done|]. unfold owners. rewrite Et, Ev, Ep, Ee.
  rewrite (drop_map fd) by done. split; [|split; [apply lookup_delete_eq|]].
  - rewrite tmp_close_owner, vfs_close_owner, dir_close_owner, pipe_close_owner, (socket_close_owner _ _ _ _ Es) by done.
    rewrite Z.eqb_refl, !andb_false_r. cbn. by rewrite app_nil_r.
  - intros fd' Hne Hfd'. rewrite lookup_delete_ne by done. split; [|done].
    rewrite tmp_close_owner, vfs_close_owner, dir_close_owner, pipe_close_owner, (socket_close_owner _ _ _ _ Es) by done.
    rewrite (proj2 (Z.eqb_neq _ _) Hne). cbn [negb]. by rewrite !andb_true_r.
Qed.

(** C31.  On a pipe a vectored write is one write of the buffers put together:
    it appends to the pipe the prefix of their concatenation that fits, in order,
    reports its length, and changes nothing else, however the bytes are divided
    among the buffers. *)
Theorem writev_gathers tt fd iov bss (m : M) (k : kernel N R) i p :
  plain_pipe fd k -> pstate_ok (k_pipes k) ->
  list_find (fun p => write_fd p = fd) (pipes (k_pipes k)) = Some (i, p) -> iovs_at m iov 0 bss ->
  exists p', sys_writev tt fd iov (len bss) m k =
      Ret (set_pipes (set_pipe i p' (k_pipes k)) k, m, Z.min (len (concat bss)) (CAPACITY - len (contents p))) /\
    pipe_ok p' /\ read_fd p' = read_fd p /\ write_fd p' = write_fd p /\
    contents p' = contents p ++ take (Z.to_nat (CAPACITY - len (contents p))) (concat bss).
Proof.
  intros Hk Hst Hf Hv. assert (pipe_ok p) as Hp by by eapply find_ok. pose proof (len_nonneg (contents p)).
  destruct (writev_pipe tt fd iov m bss 0 0 k i p Hk Hf Hp ltac:(lia) Hv) as (p' & E & Hp' & [= E1 E2 E3 E4]).
  exists p'. split; [|done]. unfold sys_writev. replace (Z.to_nat (len bss)) with (length bss) by (unfold len; lia).
  rewrite E, Z.add_0_l. done.
Qed.

(** ** sendfile *)
Lemma sendto_blind t t' fd buf n (m : M) (s s' : socks N) r :
  um_in m buf n = None -> sys_sendto t t' fd buf n 0 m s = Ret (s', r) -> r < 0.
Proof.
  intros Hm E. unfold sys_sendto in E. cbn [Z.eqb] in E. apply bind_ret in E as ([s1 o] & E & [= <- <-]).
  unfold with_socket in E. destruct (position fd (SOCKETS s)) as [i|]; [|injection E as <- <-; by vm_compute].
  destruct (SOCKETS s !! i) as [q|]; [|done]. apply bind_ret in E as ([[q1 s2] r1] & E & [= <- <-]). cbn [default from_option id].
  destruct (s_type q).
  - unfold with_net in E. destruct (NET_STATE s) as [n0|]; [|done]. apply bind_ret in E as ([] & _ & E). rewrite Hm in E.
    destruct (negb _); by injection E as <- <- <-.
  - by injection E as <- <- <-.
  - destruct (s_peer q) as [ep|]; [|by injection E as <- <- <-]. apply bind_ret in E as ([q2 s3] & _ & E).
    apply bind_ret in E as ([s4 r2] & E2 & E). apply bind_ret in E as (s5 & _ & [= <- <- <-]).
    unfold send_datagram, with_net in E2. destruct (NET_STATE s3) as [n0|]; [|done].
    apply bind_ret in E2 as ([] & _ & E2). rewrite Hm in E2. by injection E2 as <- <-.
Qed.

End Props.

(** On the machine, with SMAP. *)
Section Machine.
Context {N : Type} `{HS : Stack N}.
Context {R : Type} `{Csprng R}.
Context `{Layout}.

(** With an offset in user memory the call faults in the kernel before it has
    done anything. *)
Theorem sendfile_offset_faults cpio tt kbuf out_fd in_fd offset_ptr count (m : machine) (k : kernel N R) pa :
  wf_machine m -> user_at (tabs m) offset_ptr pa -> offset_ptr <> 0 ->
  is_socket_fd out_fd (k_socks k) = true -> is_vfs_fd in_fd (k_vfs k) = true ->
  sys_sendfile cpio tt kbuf out_fd in_fd offset_ptr count m k = Panic.
Proof.
  intros [_ Hac] (_ & x & Hw & Hu & _) Hne Ho Hi. unfold sys_sendfile. rewrite Ho, Hi, (proj2 (Z.eqb_neq _ _) Hne). cbn [negb].
  unfold raw_load, machine_raw_load. change (Z.to_nat 8) with 8%nat. cbn [vload_n]. unfold vload. by rewrite Hw, Hu, Hac.
Qed.

(** Without one it sends nothing: the socket layer refuses the kernel's own
    buffer, which is not user memory. *)
Theorem sendfile_sends_nothing cpio tt kbuf out_fd in_fd count (m : machine) (k k' : kernel N R) m' r :
  (forall bs m', um_raw m kbuf bs = Ret m' -> forall n, 0 < n -> um_in m' kbuf n = None) ->
  sys_sendfile cpio tt kbuf out_fd in_fd 0 count m k = Ret (k', m', r) -> r <= 0.
Proof.
  intros Hk E. unfold sys_sendfile in E. change (negb (0 =? 0)) with false in E. cbn iota in E.
  destruct (negb (is_socket_fd _ _)); [by injection E as <- <- <-|].
  destruct (negb (is_vfs_fd _ _)); [by injection E as <- <- <-|].
  apply bind_ret in E as ([k1 start] & E1 & E). destruct (Z.ltb_spec start 0); [injection E as <- <- <-; lia|].
  apply bind_ret in E as ([[k2 m2] res] & E2 & E).
  assert (res = inr start \/ exists e, res = inl e /\ e <= 0) as [->|(e & -> & He)].
  - cbn [sendfile_loop] in E2. destruct (count =? 0); [injection E2 as <- <- <-; by left|].
    apply bind_ret in E2 as ([m3 nread] & Er & E2). destruct (Z.ltb_spec nread 0).
    { injection E2 as <- <- <-. right. exists nread. split; [done|lia]. }
    destruct (Z.eqb_spec nread 0); [injection E2 as <- <- <-; by left|].
    apply bind_ret in E2 as ([s3 nsent] & Es & E2).
    assert (um_in m3 kbuf nread = None) as Hn.
    { unfold Vfs.pread in Er. run Er; try done; try (unfold EBADF in *; lia). eapply Hk; [eassumption|lia]. }
    apply sendto_blind in Es; [|done]. rewrite (proj2 (Z.ltb_lt _ _)) in E2 by done. injection E2 as <- <- <-.
    right. exists nsent. split; [done|lia].
  - apply bind_ret in E as ([v p] & _ & [= <- <- <-]). rewrite Z.sub_diag. by vm_compute.
  - by injection E as <- <- <-.
Qed.

(** Paths are copied by [copy_user_cstr]. *)
Theorem um_cstr_machine left (m : machine) src : ac m = false -> forall n dst,
  cstr_loop left m src n dst = Panic \/ cstr_loop left m src n dst = Ret (m, um_cstr left m src n dst).
Proof.
  intros Hac. assert (clac (stac m) = m) as Hcl by (destruct m; cbn in *; by subst).
  induction left as [|left IH]; intros n dst; cbn [cstr_loop um_cstr]; [by right|].
  cbn [um_in machine_user_mem]. unfold copy_from_user. destruct (user_accessible (tabs m) (src ⊞ n) 1); cbn [negb]; [|by right].
  change (Z.to_nat 1) with 1%nat. cbn [vload_n]. destruct (vload (stac m) (src ⊞ n)) as [b|]; cbn [mbind outcome_bind]; [|by left].
  rewrite Hcl. destruct (b =? 0); [by right|apply IH].
Qed.

End Machine.
