(* ===== verification/SyscallsDemo.v ===== *)
(** * The system call theorems at concrete runs

    A kernel with the demonstration stack, archive and machine: it opens a file
    of each kind, a pipe and a socket, waits for them with epoll, and closes
    them.  The last run shows what happens outside the bounds. *)

From S2P Require Import Prelude TmpfsTree Paging PagingRefine Confinement Uaccess Mmap FdTable Cpio Tmpfs TmpfsInv TmpfsProps Vfs VfsProps Pipe Clock Socket SocketInv SocketProps SocketDemo Epoll EpollProps Rng Syscalls Dispatch SyscallsInv SyscallsProps.

#[local] Existing Instance ua_layout.
#[local] Existing Instance ua_layout_ok.
#[local] Existing Instance dnet_stack.
#[local] Existing Instance dnet_laws.
#[local] Existing Instance dnet_returns.
#[local] Instance demo_rng : Csprng nat := {| from_seed _ := 0%nat; fill_bytes r n := (S r, replicate (Z.to_nat n) 0) |}.

(** The machine with a path at 0x500000. *)
Definition path_at (p : list Z) : machine := default demo_machine (um_out demo_machine 0x500000 (p ++ [0])).
Definition m_tmp : machine := path_at (bstr "/tmp/a").
Definition m_arch : machine := path_at (bstr "/bin/start.boot").
Lemma path_at_wf p : wf_machine (path_at p).
Proof.
  unfold path_at. destruct (um_out demo_machine 0x500000 (p ++ [0])) as [m|] eqn:E; [|exact demo_machine_wf].
  eapply (um_out_wf (M := machine)); [exact demo_machine_wf| |exact E]. lia.
Qed.

Definition hw (_ : nat) : option Z := Some 1.
Definition arch : list Z := archive [demo_member].
Notation demo_kernel := (kernel dnet nat).
Notation demo_state := (kstate (N := dnet) (R := nat)).
Definition k_boot : demo_kernel :=
  boot_kernel (Some (mkDnet 0 ∅)) None [] (Tmpfs.mkState None TMPFS_FD_BASE) boot_clock rng_boot.
Definition o_boot : os dnet nat := mkOs k_boot mm_boot.
Definition d_env : env :=
  mkEnv 0 0 1 0x200000 (0, 0) 0 (mkHere 0 0) (mkHere 0 0) [] (fun _ => mkVti 0 0 0 0 0 0) (mkPv false 0 []).

(** A system call with a path in memory: its number and arguments. *)
Record dcall := mkCall { c_nr : Z; c_args : Z * Z * Z; c_path : string }.
Definition kc (c : dcall) : kcall (M := machine) :=
  let '(a0, a1, a2) := c_args c in KSys d_env (c_nr c) a0 a1 a2 0 0 (path_at (bstr (c_path c))).
Definition dcall_ok (c : dcall) : bool :=
  let '(a0, a1, a2) := c_args c in
  u64_arg a0 && u64_arg a1 && u64_arg a2 && negb (c_nr c =? 19) && negb (c_nr c =? 20) && negb (c_nr c =? 47).
Definition in_bounds (k : demo_kernel) : bool :=
  (next_fd (k_tmp k) <? i32_max) && (next_vfs_fd (k_vfs k) <=? TMPFS_FD_BASE) && (next_pipe_fd (k_pipes k) <=? SOCK_FD_BASE)
  && (NEXT_SOCK_FD (k_socks k) <=? DIR_FD_BASE).
Fixpoint krun (cs : list dcall) (x : demo_state) : option demo_state :=
  match cs with
  | [] => Some x
  | c :: cs =>
      if dcall_ok c then
        match kexec hw hw arch (kc c) x with
        | Ret x' => if in_bounds (o_k (fst x')) then krun cs x' else None
        | Panic => None
        end
      else None
  end.

Lemma krun_reach cs x x' :
  kreach (wf := wf_machine) hw hw arch x -> krun cs x = Some x' -> kreach (wf := wf_machine) hw hw arch x'.
Proof.
  revert x. induction cs as [|c cs IH]; intros [o fl] Hr; cbn [krun]; [by intros [= <-]|].
  destruct (dcall_ok c) eqn:Ec; [|done]. destruct (kexec hw hw arch (kc c) (o, fl)) as [[o' fl']|] eqn:Ex; [|done].
  cbn [fst]. destruct (in_bounds (o_k o')) eqn:Eb; [|done]. apply IH. eapply kreach_call; [exact Hr| |exact Ex|].
  - unfold dcall_ok, kc in *. destruct (c_args c) as [[a0 a1] a2]. unfold u64_arg in Ec. zb.
    split; [apply path_at_wf|]. split; [|done]. unfold u64_arg. repeat constructor; apply andb_true_intro; split; first [apply Z.leb_le; lia|apply Z.ltb_lt; lia].
  - unfold in_bounds in Eb. zb. by split_and!.
Qed.

Definition k_after (cs : list dcall) : demo_state := default (o_boot, []) (krun cs (o_boot, [])).
Lemma k_after_reach cs : kreach (wf := wf_machine) hw hw arch (fst (k_after cs), snd (k_after cs)).
Proof.
  assert (kreach (wf := wf_machine) hw hw arch (o_boot, [])) as Hb by (by apply kreach_boot).
  unfold k_after. destruct (krun cs (o_boot, [])) as [x|] eqn:E; [|exact Hb].
  pose proof (krun_reach _ _ _ Hb E) as Hr. by destruct x.
Qed.

(** One descriptor of each kind: a RAM file 4000, an archive file 1000, a
    directory 900, a pipe 200 and 201, a socket 500. *)
Definition one_each : list dcall :=
  [mkCall 2 (0x500000, 0x42, 0) "/tmp/a"; mkCall 2 (0x500000, 0, 0) "/bin/start.boot"; mkCall 2 (0x500000, 0, 0) "/bin";
   mkCall 22 (0x600000, 0, 0) "/"; mkCall 41 (2, 1, 0) "/"].
Definition k_each : demo_kernel := o_k (fst (k_after one_each)).

Definition m_minus : machine := default demo_machine (um_out demo_machine 0x700000 [1; 2]).

Lemma fd_one_owner_witness :
  ((length (owners 500 k_each) <= 1)%nat /\ (500 < 200 -> owners 500 k_each = [])) /\
  owners (-1) k_each = [ODir; OPipe] /\
  (fun fd => owners fd k_each) <$> [4000; 1000; 900; 200; 201; 500] = [[OTmp]; [OFile]; [ODir]; [OPipe]; [OPipe]; [OSock]].
Proof.
  split; [exact (fd_one_owner (wf := wf_machine) hw hw arch _ _ 500 (k_after_reach one_each))|].
  split; [|vm_compute; reflexivity].
  pose proof (fd_one_owner (wf := wf_machine) hw hw arch _ _ (-1) (k_after_reach one_each)) as H1.
  etransitivity; [exact H1|]. vm_compute. reflexivity.
Defined.

(** A write to the number -1, as after a failed [open], is no error: the bytes go
    to a free slot of the pipe table, and a read of -1 gives them back. *)
Example minus_one_is_written :
  ('(k1, m1, w) ← sys_write (0, 0) (-1) 0x700000 2 m_minus k_boot;
   '(k2, m2, r) ← sys_read hw hw arch (0, 0) (mkHere 0 0) [] (-1) 0x600000 2 m1 k1;
   Ret (w, r, um_in m2 0x600000 2)) = Ret (2, Some 2, Some [1; 2]).
Proof. vm_compute. reflexivity. Qed.

Lemma close_exact_witness : exists k', sys_close 0 (0, 0) 500 k_each = Ret k' /\ owners 500 k' = [].
Proof.
  destruct (close_exact (wf := wf_machine) hw hw arch _ _ 0 (0, 0) 500 (k_after_reach one_each) ltac:(done)) as (k' & E & Ho & _).
  exists k'. split; [exact E|]. rewrite Ho. vm_compute. reflexivity.
Defined.

(** Two entries: two bytes at 0x700000, three at 0x700010. *)
Definition m_iov : machine := default demo_machine (
  m ← um_out demo_machine 0x500000 (le_bytes 8 0x700000 ++ le_bytes 8 2 ++ le_bytes 8 0x700010 ++ le_bytes 8 3);
  m ← um_out m 0x700000 [1; 2]; um_out m 0x700010 [3; 4; 5]).
Definition piped : demo_kernel := o_k (fst (k_after [mkCall 22 (0x600000, 0, 0) "/"])).

Lemma writev_gathers_witness :
  exists p', sys_writev (0, 0) 201 0x500000 2 m_iov piped = Ret (set_pipes (set_pipe 0 p' (k_pipes piped)) piped, m_iov, 5) /\
    contents p' = [1; 2; 3; 4; 5].
Proof.
  destruct (writev_gathers (0, 0) 201 0x500000 [[1; 2]; [3; 4; 5]] m_iov piped 0 (mkPipe (buf empty) 0 0 200 201 false))
    as (p' & E & _ & _ & _ & Ec).
  - repeat split; vm_compute; (reflexivity || discriminate).
  - split; [vm_compute; reflexivity|].
    assert (pipes (k_pipes piped) = <[0%nat := mkPipe (buf empty) 0 0 200 201 false]> (replicate MAX_PIPES empty)) as ->
      by (vm_compute; reflexivity).
    apply Forall_insert.
    + apply Forall_replicate, empty_ok.
    + destruct empty_ok. by split.
  - vm_compute. reflexivity.
  - split; [exists 0x700000; split; vm_compute; reflexivity|].
    split; [exists 0x700010; split; vm_compute; reflexivity|exact I].
  - exists p'. split; [exact E|]. rewrite Ec. vm_compute. reflexivity.
Defined.

(** ** epoll *)

Definition m_event : machine := default demo_machine (um_out demo_machine 0x500000 (le_bytes 4 1 ++ le_bytes 8 77)).

Lemma boot_table_ok : ep_ok EPOLL_TABLE.
Proof. split; [vm_compute; reflexivity|]. assert (used EPOLL_TABLE = []) as -> by (vm_compute; reflexivity). constructor. Qed.

Lemma epoll_table_refines_map_witness :
  (ep_map (fst (sys_epoll_ctl 1 200 0x500000 m_event EPOLL_TABLE)), snd (sys_epoll_ctl 1 200 0x500000 m_event EPOLL_TABLE))
  = (<[200 := (1, 77)]> ∅, 0).
Proof.
  rewrite (proj2 (epoll_table_refines_map 1 200 0x500000 m_event EPOLL_TABLE boot_table_ok ltac:(done))).
  vm_compute. reflexivity.
Defined.

(** A registered pipe with a byte in it. *)
Definition watched : list EpollEntry := fst (sys_epoll_ctl 1 200 0x500000 m_event EPOLL_TABLE).
Lemma watched_ok : ep_ok watched.
Proof.
  assert (watched = mkEntry 200 77 1 :: replicate 1023 free_entry) as -> by (vm_compute; reflexivity).
  assert (used (mkEntry 200 77 1 :: replicate 1023 free_entry) = [mkEntry 200 77 1]) as E by (vm_compute; reflexivity).
  split; [vm_compute; reflexivity|]. rewrite E. apply NoDup_singleton.
Qed.
Definition holding : pstate := mkPstate [mkPipe (<[0%nat := 9]> (buf empty)) 0 1 200 201 false] 202.
Definition d_socks0 : socks dnet := boot_socks (Some (mkDnet 0 ∅)) None [].
Lemma d_socks0_ok : ok d_socks0 [].
Proof. split; constructor. Qed.
Definition ep_world : world dnet machine := mkWorld holding watched boot_clock d_socks0 demo_machine.
Definition quiet_turn (tsc : Z) : turn dnet machine := mkTurn (0, 0) (fun _ => false) (fun _ => mkHere 0 tsc) (mkHere 0 tsc) (fun w => w).

Lemma holding_ok : Forall pipe_ok (pipes (w_pipes ep_world)).
Proof. repeat constructor; vm_compute; congruence. Qed.

Lemma ep_turn_result :
  match epoll_turn (quiet_turn 0) 0x600000 4 ep_world with
  | Ret (w1, n) => n = 1 /\ um_in (w_mem w1) 0x600000 12 = Some (event_bytes 1 77)
  | Panic => False
  end.
Proof. vm_compute. by split. Qed.

Lemma epoll_reports_exactly_witness :
  exists w' rs, epoll_turn (quiet_turn 0) 0x600000 4 ep_world = Ret (w', Z.min 4 (len (events_of (w_table ep_world) rs)))
    /\ Z.min 4 (len (events_of (w_table ep_world) rs)) = 1
    /\ um_in (w_mem w') 0x600000 12 = Some (event_bytes 1 77)
    /\ forall r, rs !! 0%nat = Some r -> Z.testbit r 0 = true.
Proof.
  destruct (epoll_reports_exactly (wf := wf_machine) (quiet_turn 0) 0x600000 4 ep_world [] d_socks0_ok watched_ok
    holding_ok demo_machine_wf) as (s1 & w' & rs & _ & _ & Hr & E & _ & _); [lia|lia|lia| |].
  - intros k Hk. assert (k = 0 \/ k = 1 \/ k = 2 \/ k = 3) as [->|[->|[->| ->]]] by lia; vm_compute; eauto.
  - exists w', rs. split; [exact E|].
    pose proof ep_turn_result as E1. rewrite E in E1. destruct E1 as [Hn E2].
    split; [exact Hn|]. split; [exact E2|].
    intros r H0. apply (Hr 0%nat (mkEntry 200 77 1) r ltac:(vm_compute; reflexivity) H0). split; [|intros []].
    exists (mkPipe (<[0%nat := 9]> (buf empty)) 0 1 200 201 false). split; [by left|]. by split.
Defined.

(** Nothing is ready; the deadline of one millisecond has passed at the second
    turn (the counter runs at 2 GHz). *)
Definition idle_world : world dnet machine := mkWorld pipe_boot EPOLL_TABLE boot_clock d_socks0 demo_machine.

Lemma epoll_wait_ends_witness :
  exists w' r, sys_epoll_wait ([quiet_turn 0] ++ [quiet_turn 4000000]) (mkHere 0 0) 0x600000 4 1 idle_world = Ret (w', Some r) /\ 0 <= r.
Proof.
  apply (epoll_wait_ends [quiet_turn 0] (quiet_turn 4000000) (mkHere 0 0) 0x600000 4 1 idle_world []).
  - split; [exact d_socks0_ok|]. split; [exact boot_table_ok|done].
  - lia.
  - constructor; [done|constructor].
  - vm_compute. discriminate.
Defined.

(** ** Outside the bounds *)

(** Every [stat] of an archive file uses up a descriptor number. *)
Definition stat_once (k : demo_kernel) : demo_kernel :=
  match sys_stat arch 0x500000 0 m_arch k with Ret (k, _, _) => k | Panic => k end.
Definition k_at (n : Z) : demo_kernel := set_vfs (mkVstate (files vfs_boot) n (dirs vfs_boot)) k_boot.

Lemma stat_counts n : 1000 <= n < i32_max -> stat_once (k_at n) = k_at (n + 1).
Proof.
  intros Hn. unfold i32_max in Hn. unfold stat_once, sys_stat.
  assert (copy_path 0x500000 m_arch = bstr "/bin/start.boot") as -> by (vm_compute; reflexivity).
  assert (owns_path (bstr "/bin/start.boot") = false) as -> by (vm_compute; reflexivity).
  rewrite !bool_decide_false by (vm_compute; discriminate). cbn [orb].
  assert (lookup arch (bstr "/bin/start.boot") = Ret (Some (128, 3))) as E by (vm_compute; reflexivity).
  unfold Vfs.open. rewrite E. cbn [mbind outcome_bind].
  change (k_vfs (k_at n)) with (mkVstate (files vfs_boot) n (dirs vfs_boot)).
  unfold install. cbn [next_vfs_fd files dirs]. rewrite i32_small, u64_small by lia.
  change (files vfs_boot) with (@None OpenFile :: replicate 255 None). cbn [alloc alloc_from set_files].
  rewrite (proj2 (Z.leb_le _ _)) by lia. rewrite i32_small by lia.
  unfold fstat_size, get_file, Vfs.close, free. cbn [files FdTable.find find_from f_fd next_vfs_fd dirs set_files].
  rewrite Z.eqb_refl. cbn. done.
Qed.

Lemma stats_count (j : nat) : (j <= 3000)%nat -> Nat.iter j stat_once k_boot = k_at (1000 + Z.of_nat j).
Proof.
  induction j as [|j IH]; intros Hj; [done|]. change (Nat.iter (S j) stat_once k_boot) with (stat_once (Nat.iter j stat_once k_boot)). rewrite IH by lia.
  rewrite stat_counts by (unfold i32_max; lia). f_equal. lia.
Qed.

(** After 3000 of them the archive and the RAM filesystem hand out the same
    number: the next file of each kind is 4000, both components take it for
    theirs, reads of it go to the RAM file, and one [close] closes both. *)
Example archive_fd_collides :
  ('(k1, f1) ← sys_open arch 0x500000 0x42 0 m_tmp (Nat.iter 3000 stat_once k_boot);
   '(k2, f2) ← sys_open arch 0x500000 0 0 m_arch k1;
   k3 ← sys_close 0 (0, 0) 4000 k2;
   Ret (f1, f2, owners 4000 k2, owners 4000 k3)) = Ret (4000, 4000, [OTmp; OFile], []).
Proof. rewrite stats_count by lia. vm_compute. reflexivity. Qed.
