(* ===== verification/OwningQueue.v ===== *)
(** * Queues that own their buffers, and blocking requests

    Models [src/virtio-drivers-patched/src/queue/owning.rs] (except for [poll],
    which is in [Vsock]) and [add_notify_wait_pop] of [queue.rs], over the
    virtqueues of [Virtqueue].  Memory is a function from addresses to bytes. *)

From S2P Require Import Prelude Virtqueue VirtqueueProps.
Open Scope mach_scope.

(** ** Memory *)

Definition mem_load (m : Z -> Z) (a n : Z) : list Z := (fun i => m (a + i)) <$> seqZ 0 n.
Definition mem_store (m : Z -> Z) (a : Z) (bs : list Z) : Z -> Z :=
  fun x => if (a <=? x) && (x <? a + len bs) then nth (Z.to_nat (x - a)) bs 0 else m x.

(** ** Blocking requests *)

(** [spin] is what happens elsewhere during a turn of the waiting loop; [None]
    when the fuel runs out. *)
Section Blocking.
Context {S : Type} (get_q : S -> VirtQueue) (set_q : VirtQueue -> S -> S) (spin : S -> S) (notify : Z -> S -> S).
Variable SIZE : Z.

Fixpoint wait_can_pop (fuel : nat) (s : S) : option S :=
  if can_pop (get_q s) then Some s else
  match fuel with
  | O => None
  | Datatypes.S fuel' => wait_can_pop fuel' (spin s)
  end.

Definition add_notify_wait_pop (fuel : nat) (box_addr : Z) (inputs outputs : list bslice) (s : S)
    : option (outcome (S * vresult Z)) :=
  match add SIZE box_addr inputs outputs (get_q s) with
  | Panic => Some Panic
  | Ret (q, VErr e) => Some (Ret (set_q q s, VErr e))
  | Ret (q, VOk token) =>
      let s := set_q q s in
      let s := if should_notify q then notify (queue_idx q) s else s in
      match wait_can_pop fuel s with
      | None => None
      | Some s =>
          match pop_used SIZE token inputs outputs (get_q s) with
          | Panic => Some Panic
          | Ret (q, r) => Some (Ret (set_q q s, r))
          end
      end
  end.
End Blocking.

(** ** Owning queues *)

Record OwningQueue := mkOwning { oq_queue : VirtQueue; oq_buffers : list Z }.

Section Owning.
Variables SIZE BUFFER_SIZE : Z.

(** The loop of [new] from buffer [i]; [place] is the allocator. *)
Fixpoint owning_new_loop (n : nat) (i : Z) (place : Z -> Z) (q : VirtQueue) (buffers : list Z)
    : outcome (vresult OwningQueue) :=
  match n with
  | O => Ret (VOk (mkOwning q buffers))
  | Datatypes.S n' =>
      '(q, r) ← add SIZE 0 [] [mkSlice (place i) BUFFER_SIZE] q;
      match r with
      | VErr e => Ret (VErr e)
      | VOk token => if negb (token =? i) then Panic else owning_new_loop n' (i + 1) place q (buffers ++ [place i])
      end
  end.
Definition owning_new (place : Z -> Z) (q : VirtQueue) : outcome (vresult OwningQueue) :=
  owning_new_loop (Z.to_nat SIZE) 0 place q [].

(** The second result is whether the device is notified. *)
Definition add_buffer_to_queue (index : Z) (o : OwningQueue) : outcome (OwningQueue * bool * vresult unit) :=
  match oq_buffers o !! Z.to_nat index with
  | None => Ret (o, false, VErr WrongToken)
  | Some buffer =>
      '(q, r) ← add SIZE 0 [] [mkSlice buffer BUFFER_SIZE] (oq_queue o);
      let o := mkOwning q (oq_buffers o) in
      match r with
      | VErr e => Ret (o, false, VErr e)
      | VOk new_token => if negb (new_token =? index) then Panic else Ret (o, should_notify q, VOk tt)
      end
  end.

(** The bytes of the popped buffer and its token. *)
Definition pop (m : Z -> Z) (o : OwningQueue) : outcome (OwningQueue * vresult (option (list Z * Z))) :=
  match peek_used SIZE (oq_queue o) with
  | None => Ret (o, VOk None)
  | Some token =>
      buffer ← index (oq_buffers o) token;
      '(q, r) ← pop_used SIZE token [] [mkSlice buffer BUFFER_SIZE] (oq_queue o);
      let o := mkOwning q (oq_buffers o) in
      match r with
      | VErr e => Ret (o, VErr e)
      | VOk n => if BUFFER_SIZE <? n then Panic else Ret (o, VOk (Some (mem_load m buffer n, token)))
      end
  end.
End Owning.

(** ** Memory lemmas *)
Lemma mem_load_len m a n : len (mem_load m a n) = Z.max 0 n.
Proof. unfold mem_load, len. rewrite length_fmap, length_seqZ. lia. Qed.

Lemma mem_load_ext m m' a n : (forall x, a <= x < a + n -> m x = m' x) -> mem_load m a n = mem_load m' a n.
Proof. intros Hm. apply list_fmap_ext. intros i k Hk. apply lookup_seqZ in Hk as [-> Hk]. apply Hm. lia. Qed.

Lemma mem_store_ne m a bs x : ~ (a <= x < a + len bs) -> mem_store m a bs x = m x.
Proof. intros Hx. unfold mem_store. destruct (Z.leb_spec a x), (Z.ltb_spec x (a + len bs)); try done; lia. Qed.

Lemma mem_load_store m a bs : mem_load (mem_store m a bs) a (len bs) = bs.
Proof.
  apply list_eq_same_length with (n := length bs); [done|unfold mem_load, len; rewrite length_fmap, length_seqZ; lia|].
  intros i x y Hi Hx Hy. unfold mem_load in Hx. rewrite list_lookup_fmap, (proj2 (lookup_seqZ 0 (len bs) i (Z.of_nat i))) in Hx by (unfold len; lia).
  cbn in Hx. injection Hx as <-. unfold mem_store. rewrite (proj2 (Z.leb_le _ _)), (proj2 (Z.ltb_lt _ _)) by (unfold len; lia). cbn [andb].
  replace (Z.to_nat (a + Z.of_nat i - a)) with i by lia. by apply nth_lookup_Some.
Qed.

(** ** What a queue operation leaves alone *)

(** The rings, as far as the descriptor bookkeeping goes. *)
Record same_outside (q q' : VirtQueue) : Prop := {
  so_rings : same_rings q q';
  so_idx : queue_idx q' = queue_idx q;
}.
#[global] Instance same_outside_pre : PreOrder same_outside.
Proof.
  split.
  - intros q. by repeat split.
  - intros q1 q2 q3 [[(A1 & A2 & A3 & A4 & A5) (A6 & A7 & A8 & A9 & A10) [A11 A12]] A13] [[(B1 & B2 & B3 & B4 & B5) (B6 & B7 & B8 & B9 & B10) [B11 B12]] B13].
    repeat split; congruence.
Qed.

Lemma add_loop_outside SIZE l last q q' j : add_loop SIZE l last q = Ret (q', j) -> same_outside q q'.
Proof.
  revert last q. induction l as [|[b dir] l IH]; intros last q; cbn [add_loop]; [by intros [= <- <-]|].
  destruct (b_len b =? 0); [done|]. destruct (rd_shadow SIZE q (free_head q)) as [d|]; [|done]. cbn [mbind outcome_bind].
  destruct (set_buf b dir DESC_NEXT d) as [d'|]; [|done]. cbn [mbind outcome_bind]. intros E. apply IH in E. etrans; [|exact E]. by repeat split.
Qed.
Lemma add_direct_outside SIZE l q q' j : add_direct SIZE l q = Ret (q', j) -> same_outside q q'.
Proof.
  unfold add_direct. destruct (add_loop SIZE l (free_head q) q) as [[q1 last]|] eqn:E1; [|done]. cbn [mbind outcome_bind].
  destruct (rd_shadow SIZE q1 last) as [d|]; [|done]. cbn [mbind outcome_bind]. intros [= <- <-]. apply add_loop_outside in E1. etrans; [exact E1|]. by repeat split.
Qed.
Lemma add_indirect_outside SIZE a l q q' j : add_indirect SIZE a l q = Ret (q', j) -> same_outside q q'.
Proof.
  unfold add_indirect. destruct (indirect_table l 0) as [t|]; [|done]. cbn [mbind outcome_bind]. destruct l as [|x l]; [done|].
  destruct (negb _); [done|]. destruct (indirect_lists q (free_head q)); [done|].
  destruct (rd_shadow _ _ _) as [d|]; [|done]. cbn [mbind outcome_bind]. destruct (set_buf _ _ _ _) as [d'|]; [|done]. cbn [mbind outcome_bind].
  intros [= <- <-]. by repeat split.
Qed.

(** Adding touches neither the used ring nor the driver's place in it. *)
Lemma add_keeps SIZE a ins outs q q' r : add SIZE a ins outs q = Ret (q', r) ->
  vq_used_idx q' = vq_used_idx q /\ vq_used_ring q' = vq_used_ring q /\ last_used_idx q' = last_used_idx q
  /\ queue_idx q' = queue_idx q /\ event_idx q' = event_idx q /\ indirect q' = indirect q
  /\ vq_used_flags q' = vq_used_flags q /\ vq_avail_event q' = vq_avail_event q.
Proof.
  unfold add. destruct (_ && _); [by intros [= <- <-]|]. destruct (_ || _); [by intros [= <- <-]|].
  match goal with |- context [if ?b then add_indirect _ _ _ _ else _] => destruct b end.
  - destruct (add_indirect _ _ _ q) as [[q1 h]|] eqn:E; [|done]. cbn [mbind outcome_bind]. intros [= <- <-].
    apply add_indirect_outside in E as [[_ (? & ? & ? & ? & ?) [? ?]] ?]. done.
  - destruct (add_direct _ _ q) as [[q1 h]|] eqn:E; [|done]. cbn [mbind outcome_bind]. intros [= <- <-].
    apply add_direct_outside in E as [[_ (? & ? & ? & ? & ?) [? ?]] ?]. done.
Qed.

Lemma recycle_loop_outside SIZE l nx o q q' n : recycle_loop SIZE l nx o q = Ret (q', n) -> same_outside q q'.
Proof.
  revert nx q. induction l as [|[b dir] l IH]; intros nx q; cbn [recycle_loop]; [by intros [= <- <-]|].
  destruct (b_len b =? 0); [done|]. destruct nx as [i|]; [|done]. destruct (rd_shadow SIZE q i) as [d|]; [|done]. cbn [mbind outcome_bind].
  intros E. apply IH in E. etrans; [|exact E]. by repeat split.
Qed.
Lemma recycle_outside SIZE h l q q' : recycle_descriptors SIZE h l q = Ret q' -> same_outside q q'.
Proof.
  unfold recycle_descriptors. destruct (rd_shadow _ _ _) as [d|]; [|done]. cbn [mbind outcome_bind]. destruct (Z.testbit _ _).
  - destruct (indirect_lists _ _) as [[a t]|]; [|done]. destruct (negb _); [done|]. destruct (existsb _ _); [done|]. intros [= <-]. by repeat split.
  - destruct (recycle_loop _ _ _ _ _) as [[q1 nx]|] eqn:E; [|done]. cbn [mbind outcome_bind]. destruct nx; [done|]. intros [= <-].
    apply recycle_loop_outside in E. etrans; [|exact E]. by repeat split.
Qed.
Lemma pop_keeps SIZE t ins outs q q' r : pop_used SIZE t ins outs q = Ret (q', r) ->
  vq_used_idx q' = vq_used_idx q /\ vq_used_ring q' = vq_used_ring q /\ avail_idx q' = avail_idx q
  /\ vq_avail_ring_idx q' = vq_avail_ring_idx q /\ vq_avail_ring q' = vq_avail_ring q
  /\ queue_idx q' = queue_idx q /\ event_idx q' = event_idx q /\ indirect q' = indirect q.
Proof.
  unfold pop_used. destruct (negb _); [by intros [= <- <-]|]. destruct (negb _); [by intros [= <- <-]|].
  destruct (recycle_descriptors _ _ _ _) as [q1|] eqn:E; [|done]. cbn [mbind outcome_bind]. intros [= <- <-].
  apply recycle_outside in E as [[(? & ? & ? & ? & ?) (? & ? & ? & ? & ?) [? ?]] ?]. cbn [event_idx set_last_used_idx]. destruct (event_idx q1) eqn:Ee; cbn; split_and!; congruence.
Qed.

(** ** A blocking request that the device answers *)

Section BlockingProps.
Context {S : Type} (get_q : S -> VirtQueue) (set_q : VirtQueue -> S -> S) (spin : S -> S) (notify : Z -> S -> S).
Variable SIZE : Z.
Hypothesis SIZE_ok : SIZE <= 2 ^ 15.
Hypothesis get_set : forall q s, get_q (set_q q s) = q.
Hypothesis get_notify : forall i s, get_q (notify i s) = get_q s.
(** The device writes what it may write of the queue. *)
Hypothesis spin_device : forall s, exists D fl idx ring ev, get_q (spin s) = device_writes D fl idx ring ev (get_q s).

Lemma wait_rep fuel s s' σ n : vq_rep SIZE (get_q s) σ n -> wait_can_pop get_q spin fuel s = Some s' ->
  vq_rep SIZE (get_q s') σ n /\ can_pop (get_q s') = true.
Proof.
  revert s. induction fuel as [|fuel IH]; intros s Hs; cbn [wait_can_pop]; destruct (can_pop (get_q s)) eqn:Ec; try done; try (by intros [= <-]).
  apply IH. destruct (spin_device s) as (D & fl & idx & ring & ev & ->). by apply vq_rep_device.
Qed.

Lemma rep_token (SZ : Z) q σ n t l : vq_rep SZ q σ n -> σ !! t = Some l -> idx_ok SZ t = true.
Proof.
  intros (free & chains & HQ & _ & -> & _) Ht. apply (token_map_lookup _ _ _ _ _ _ HQ) in Ht as (c & Hc & <- & _).
  eapply vo_range; [done|]. apply elem_of_app. right. apply list_elem_of_In, in_concat. exists (ch_ids c). split; [apply in_map; by apply list_elem_of_In|].
  apply list_elem_of_In. eapply ch_token_in. pose proof (vo_chains _ _ _ _ HQ) as HC. rewrite Forall_forall in HC. by apply HC.
Qed.
Lemma rep_avail (SZ : Z) q σ n : vq_rep SZ q σ n -> vq_avail_ring_idx q = avail_idx q.
Proof. intros (free & chains & HQ & _). apply (vo_avail _ _ _ _ HQ). Qed.

(** When the device answers with the token, the request ends with the length the
    device gives, and the queue has the requests it had before. *)
Lemma blocking_request fuel a ins outs s σ n s2 used :
  let l := InputOutputIter ins outs in
  vq_rep SIZE (get_q s) σ n -> Forall good_buf l -> l <> [] -> cost (get_q s) l <= n -> len l <= SIZE ->
  exists q1 t, add SIZE a ins outs (get_q s) = Ret (q1, VOk t) /\ dev_read SIZE q1 t = view l /\ σ !! t = None
  /\ idx_ok SIZE t = true /\ vq_avail_ring q1 = fupd (vq_avail_ring (get_q s)) (Z.land (avail_idx (get_q s)) (SIZE - 1)) t
  /\ avail_idx q1 = u16 (avail_idx (get_q s) + 1) /\ vq_avail_ring_idx q1 = avail_idx q1 /\
  let s1 := if should_notify q1 then notify (queue_idx q1) (set_q q1 s) else set_q q1 s in
  (wait_can_pop get_q spin fuel s1 = Some s2 -> indirect (get_q s2) = indirect (get_q s) ->
   u16 (fst (vq_used_ring (get_q s2) (used_slot SIZE (get_q s2)))) = t -> snd (vq_used_ring (get_q s2) (used_slot SIZE (get_q s2))) = used ->
   exists q3, add_notify_wait_pop get_q set_q spin notify SIZE fuel a ins outs s = Some (Ret (set_q q3 s2, VOk used))
     /\ pop_used SIZE t ins outs (get_q s2) = Ret (q3, VOk used) /\ vq_rep SIZE q3 σ n /\ last_used_idx q3 = u16 (last_used_idx (get_q s2) + 1)).
Proof.
  cbn zeta. set (l := InputOutputIter ins outs). intros Hq Hg Hne Hcost Hlen. pose proof (add_refines SIZE (get_q s) σ n a ins outs SIZE_ok Hq Hg Hne) as HA. fold l in HA.
  rewrite bool_decide_true in HA by done. destruct HA as (q1 & t & E & Hfresh & Hrep & Hread & Hring & Hidx).
  exists q1, t. split_and!; [done|done|done|exact (rep_token _ _ _ _ _ _ Hrep (lookup_insert_eq _ _ _))|done|done|exact (rep_avail _ _ _ _ Hrep)|].
  intros Hw Hind Ht Hused. assert (vq_rep SIZE (get_q (if should_notify q1 then notify (queue_idx q1) (set_q q1 s) else set_q q1 s)) (<[t := l]> σ) (n - cost (get_q s) l)) as Hrep1.
  { destruct (should_notify q1); rewrite ?get_notify, ?get_set; done. }
  destruct (wait_rep fuel _ _ _ _ Hrep1 Hw) as [Hrep2 Hcan].
  pose proof (pop_refines SIZE (get_q s2) _ _ t ins outs SIZE_ok Hrep2 (lookup_insert_eq _ _ _)) as HP. fold l in HP.
  destruct (vq_used_ring (get_q s2) (used_slot SIZE (get_q s2))) as [id u]. cbn [fst snd] in *. rewrite Hcan in HP. subst t u. cbn [negb] in HP. rewrite Z.eqb_refl in HP. cbn [negb] in HP.
  destruct HP as (q3 & Ep & Hrep3 & Hlast & _ & _). exists q3. split_and!; [|done| |done].
  - unfold add_notify_wait_pop. rewrite E, Hw, Ep. done.
  - rewrite delete_insert_id in Hrep3 by done. unfold cost in *. rewrite Hind in Hrep3.
    replace n with (n - (if indirect (get_q s) && (1 <? len l) then 1 else len l) + (if indirect (get_q s) && (1 <? len l) then 1 else len l)) by lia. done.
Qed.
End BlockingProps.
