(* ===== verification/Vsock.v ===== *)
(** * The virtio socket driver

    Models [protocol.rs], [error.rs], [vsock.rs] and [connectionmanager.rs] of
    [src/virtio-drivers-patched/src/device/socket/], and [OwningQueue::poll] of
    [queue/owning.rs].  The driver is written over the class [SocketDevice],
    which has what it uses of its queues: taking a filled buffer from the
    receive queue, giving it back, and sending a packet and waiting until the
    device has read it.  [VsockDevice] has the queues themselves.

    A call may wait for the device for ever ([None]), panic, or return an error;
    what it did before the error stays done. *)

From S2P Require Import Prelude Virtqueue.
Open Scope mach_scope.

Inductive SocketError :=
  | ConnectionExists | NotConnected | PeerSocketShutdown | BufferTooShort
  | OutputBufferTooShort (n : Z) | BufferTooLong (n max : Z) | UnknownOperation (op : Z)
  | InvalidOperation | InvalidNumber | UnexpectedDataInPacket | InsufficientBufferSpaceInPeer
  | RecycledWrongBuffer.

(** [crate::Error]. *)
Inductive Error := QueueError (e : VirtError) | SocketDeviceError (e : SocketError).
Inductive res (A : Type) := Ok (a : A) | Err (e : Error).
Arguments Ok {A} a.
Arguments Err {A} e.
Definition from_vresult {A} (r : vresult A) : res A :=
  match r with VOk a => Ok a | VErr e => Err (QueueError e) end.

(** ** Calls *)

Definition call (S A : Type) : Type := S -> option (outcome (S * res A)).
Definition ok {S A} (a : A) : call S A := fun s => Some (Ret (s, Ok a)).
Definition error {S A} (e : SocketError) : call S A := fun s => Some (Ret (s, Err (SocketDeviceError e))).
Definition and_then {S A B} (m : call S A) (k : A -> call S B) : call S B := fun s =>
  match m s with
  | None => None
  | Some Panic => Some Panic
  | Some (Ret (s, Err e)) => Some (Ret (s, Err e))
  | Some (Ret (s, Ok a)) => k a s
  end.
Declare Scope call_scope.
Delimit Scope call_scope with call.
Notation "'let?' x := m 'in' k" := (and_then m (fun x => k)) (at level 200, x name, m at level 100, k at level 200) : call_scope.
Open Scope call_scope.

Definition get {S A} (f : S -> A) : call S A := fun s => Some (Ret (s, Ok (f s))).
Definition modify {S} (f : S -> S) : call S unit := fun s => Some (Ret (f s, Ok tt)).

(** ** The protocol *)

Definition VIRTIO_VSOCK_TYPE_STREAM : Z := 1.

Record VsockAddr := mkAddr { cid : Z; port : Z }.
#[export] Instance VsockAddr_eq_dec : EqDecision VsockAddr.
Proof. solve_decision. Defined.

Record VirtioVsockHdr := mkHdr {
  h_src_cid : Z; h_dst_cid : Z; h_src_port : Z; h_dst_port : Z; h_len : Z;
  h_socket_type : Z; h_op : Z; h_flags : Z; h_buf_alloc : Z; h_fwd_cnt : Z;
}.
Definition HDR_SIZE : Z := 44.

(** [as_bytes] and [read_from_prefix] of the packed structure. *)
Definition as_bytes (h : VirtioVsockHdr) : list Z :=
  le_bytes 8 (h_src_cid h) ++ le_bytes 8 (h_dst_cid h) ++ le_bytes 4 (h_src_port h) ++ le_bytes 4 (h_dst_port h)
  ++ le_bytes 4 (h_len h) ++ le_bytes 2 (h_socket_type h) ++ le_bytes 2 (h_op h) ++ le_bytes 4 (h_flags h)
  ++ le_bytes 4 (h_buf_alloc h) ++ le_bytes 4 (h_fwd_cnt h).
Definition field (b : list Z) (at_ n : nat) : Z := le_val (take n (drop at_ b)).
Definition read_from_prefix (b : list Z) : option VirtioVsockHdr :=
  if len b <? HDR_SIZE then None else
  Some (mkHdr (field b 0 8) (field b 8 8) (field b 16 4) (field b 20 4) (field b 24 4)
              (field b 28 2) (field b 30 2) (field b 32 4) (field b 36 4) (field b 40 4)).

Inductive VirtioVsockOp := Invalid | Request | Response | Rst | Shutdown | Rw | CreditUpdate | CreditRequest.
Definition op_code (op : VirtioVsockOp) : Z :=
  match op with
  | Invalid => 0 | Request => 1 | Response => 2 | Rst => 3 | Shutdown => 4 | Rw => 5
  | CreditUpdate => 6 | CreditRequest => 7
  end.
Definition op_try_from (v : Z) : res VirtioVsockOp :=
  match v with
  | 0 => Ok Invalid | 1 => Ok Request | 2 => Ok Response | 3 => Ok Rst | 4 => Ok Shutdown | 5 => Ok Rw
  | 6 => Ok CreditUpdate | 7 => Ok CreditRequest
  | _ => Err (SocketDeviceError (UnknownOperation v))
  end.

Definition source (h : VirtioVsockHdr) : VsockAddr := mkAddr (h_src_cid h) (h_src_port h).
Definition destination (h : VirtioVsockHdr) : VsockAddr := mkAddr (h_dst_cid h) (h_dst_port h).
Definition check_data_is_empty (h : VirtioVsockHdr) : res unit :=
  if h_len h =? 0 then Ok tt else Err (SocketDeviceError UnexpectedDataInPacket).

Definition STREAM_SHUTDOWN_RECEIVE : Z := Z.shiftl 1 0.
Definition STREAM_SHUTDOWN_SEND : Z := Z.shiftl 1 1.

(** ** Events *)

Inductive DisconnectReason := DisconnectReset | DisconnectShutdown.
#[export] Instance DisconnectReason_eq_dec : EqDecision DisconnectReason.
Proof. solve_decision. Defined.
Inductive VsockEventType :=
  | ConnectionRequest | Connected | Disconnected (reason : DisconnectReason) | Received (length : Z)
  | EventCreditRequest | EventCreditUpdate.
Record VsockEvent := mkEvent {
  e_source : VsockAddr; e_destination : VsockAddr;
  e_buffer_allocation : Z; e_forward_count : Z; (* buffer_status *)
  e_type : VsockEventType;
}.

Definition from_header (header : VirtioVsockHdr) : res VsockEvent :=
  match op_try_from (h_op header) with
  | Err e => Err e
  | Ok op =>
      let event t := Ok (mkEvent (source header) (destination header) (h_buf_alloc header) (h_fwd_cnt header) t) in
      let no_data t := match check_data_is_empty header with Err e => Err e | Ok _ => event t end in
      match op with
      | Request => no_data ConnectionRequest
      | Response => no_data Connected
      | CreditUpdate => no_data EventCreditUpdate
      | Rst => no_data (Disconnected DisconnectReset)
      | Shutdown => no_data (Disconnected DisconnectShutdown)
      | Rw => event (Received (h_len header))
      | CreditRequest => no_data EventCreditRequest
      | Invalid => Err (SocketDeviceError InvalidOperation)
      end
  end.

Definition read_header_and_body (buffer : list Z) : res (VirtioVsockHdr * list Z) :=
  match read_from_prefix buffer with
  | None => Err (SocketDeviceError BufferTooShort)
  | Some header =>
      match checked_add HDR_SIZE (h_len header) with
      | None => Err (SocketDeviceError InvalidNumber)
      | Some data_end =>
          if data_end <=? len buffer
          then Ok (header, take (Z.to_nat (h_len header)) (drop (Z.to_nat HDR_SIZE) buffer))
          else Err (SocketDeviceError BufferTooShort)
      end
  end.

(** ** Connections *)

Record ConnectionInfo := mkInfo {
  dst : VsockAddr; src_port : Z;
  peer_buf_alloc : Z; peer_fwd_cnt : Z; tx_cnt : Z;
  buf_alloc : Z; fwd_cnt : Z;
  has_pending_credit_request : bool;
}.
Definition ConnectionInfo_new (destination : VsockAddr) (src_port : Z) : ConnectionInfo :=
  mkInfo destination src_port 0 0 0 0 0 false.
Definition set_buf_alloc (v : Z) (i : ConnectionInfo) : ConnectionInfo :=
  mkInfo (dst i) (src_port i) (peer_buf_alloc i) (peer_fwd_cnt i) (tx_cnt i) v (fwd_cnt i) (has_pending_credit_request i).
Definition set_tx_cnt (v : Z) (i : ConnectionInfo) : ConnectionInfo :=
  mkInfo (dst i) (src_port i) (peer_buf_alloc i) (peer_fwd_cnt i) v (buf_alloc i) (fwd_cnt i) (has_pending_credit_request i).
Definition set_pending_credit (v : bool) (i : ConnectionInfo) : ConnectionInfo :=
  mkInfo (dst i) (src_port i) (peer_buf_alloc i) (peer_fwd_cnt i) (tx_cnt i) (buf_alloc i) (fwd_cnt i) v.

Definition update_for_event (event : VsockEvent) (i : ConnectionInfo) : ConnectionInfo :=
  mkInfo (dst i) (src_port i) (e_buffer_allocation event) (e_forward_count event) (tx_cnt i) (buf_alloc i) (fwd_cnt i)
    (match e_type event with EventCreditUpdate => false | _ => has_pending_credit_request i end).
Definition done_forwarding (length : Z) (i : ConnectionInfo) : ConnectionInfo :=
  mkInfo (dst i) (src_port i) (peer_buf_alloc i) (peer_fwd_cnt i) (tx_cnt i) (buf_alloc i) (u32 (fwd_cnt i + u32 length))
    (has_pending_credit_request i).
Definition peer_free (i : ConnectionInfo) : Z := u32 (peer_buf_alloc i - u32 (tx_cnt i - peer_fwd_cnt i)).

(** [new_header] with the operation, length and flags its callers fill in. *)
Definition new_header (i : ConnectionInfo) (src_cid : Z) (op : VirtioVsockOp) (len flags : Z) : VirtioVsockHdr :=
  mkHdr src_cid (cid (dst i)) (src_port i) (port (dst i)) len VIRTIO_VSOCK_TYPE_STREAM (op_code op) flags
    (buf_alloc i) (fwd_cnt i).

Definition matches_connection (event : VsockEvent) (i : ConnectionInfo) (guest_cid : Z) : bool :=
  bool_decide (e_source event = dst i) && (cid (e_destination event) =? guest_cid)
  && (port (e_destination event) =? src_port i).

(** ** The driver *)

(** [rx_pop] and [rx_add] are [OwningQueue::pop] (the bytes and the token of a
    buffer) and [add_buffer_to_queue] on the receive queue; [tx_send] is
    [add_notify_wait_pop] on the transmit queue, the input buffers given by their
    contents. *)
Class SocketDevice (D : Type) := {
  rx_pop : D -> outcome (D * vresult (option (list Z * Z)));
  rx_add : Z -> D -> outcome (D * vresult unit);
  tx_send : list (list Z) -> D -> option (outcome (D * vresult Z));
}.

Record VirtIOSocket (D : Type) := mkSocket { device : D; guest_cid : Z }.
Arguments mkSocket {D} device guest_cid.
Arguments device {D} v.
Arguments guest_cid {D} v.

Section Driver.
Context {D : Type} `{SocketDevice D}.

(** [OwningQueue::poll] on the receive queue.  The handler works on the state
    [S] of its caller. *)
Definition owning_poll {S T} (handler : list Z -> S -> outcome (S * res (option T)))
    (sd : S * D) : outcome (S * D * res (option T)) :=
  let '(s, d) := sd in
  '(d, r) ← rx_pop d;
  match r with
  | VErr e => Ret (s, d, Err (QueueError e))
  | VOk None => Ret (s, d, Ok None)
  | VOk (Some (buffer, token)) =>
      '(s, result) ← handler buffer s;
      '(d, r) ← rx_add token d;
      Ret (s, d, match r with VErr e => Err (QueueError e) | VOk _ => result end)
  end.

Definition send_packet_to_tx_queue (header : VirtioVsockHdr) (buffer : list Z) : call (VirtIOSocket D) unit := fun s =>
  let inputs := match buffer with [] => [as_bytes header] | _ => [as_bytes header; buffer] end in
  match tx_send inputs (device s) with
  | None => None
  | Some Panic => Some Panic
  | Some (Ret (d, VErr e)) => Some (Ret (mkSocket d (guest_cid s), Err (QueueError e)))
  | Some (Ret (d, VOk _)) => Some (Ret (mkSocket d (guest_cid s), Ok tt))
  end.

(** The calls that send a header only. *)
Definition send_op (op : VirtioVsockOp) (flags : Z) (i : ConnectionInfo) : call (VirtIOSocket D) unit := fun s =>
  send_packet_to_tx_queue (new_header i (guest_cid s) op 0 flags) [] s.
Definition driver_connect (i : ConnectionInfo) : call (VirtIOSocket D) unit := send_op Request 0 i.
Definition accept (i : ConnectionInfo) : call (VirtIOSocket D) unit := send_op Response 0 i.
Definition request_credit (i : ConnectionInfo) : call (VirtIOSocket D) unit := send_op CreditRequest 0 i.
Definition credit_update (i : ConnectionInfo) : call (VirtIOSocket D) unit := send_op CreditUpdate 0 i.
Definition shutdown_with_hints (i : ConnectionInfo) (hints : Z) : call (VirtIOSocket D) unit := send_op Shutdown hints i.
Definition driver_shutdown (i : ConnectionInfo) : call (VirtIOSocket D) unit :=
  shutdown_with_hints i (Z.lor STREAM_SHUTDOWN_SEND STREAM_SHUTDOWN_RECEIVE).
Definition driver_force_close (i : ConnectionInfo) : call (VirtIOSocket D) unit := send_op Rst 0 i.

(** A call of the driver from a caller that also holds [X]. *)
Definition with_driver {X A} (m : call (VirtIOSocket D) A) : call (X * VirtIOSocket D) A := fun '(x, s) =>
  match m s with
  | None => None
  | Some Panic => Some Panic
  | Some (Ret (s, r)) => Some (Ret ((x, s), r))
  end.

(** [connection_info] is changed in place: the first half of the state. *)
Definition check_peer_buffer_is_sufficient (buffer_len : Z) : call (ConnectionInfo * VirtIOSocket D) unit :=
  let? i := get fst in
  if buffer_len <=? peer_free i then ok tt
  else
    let? _ := (if has_pending_credit_request i then ok tt
               else let? _ := with_driver (request_credit i) in
                    modify (fun '(i, s) => (set_pending_credit true i, s))) in
    error InsufficientBufferSpaceInPeer.
Definition driver_send (buffer : list Z) : call (ConnectionInfo * VirtIOSocket D) unit :=
  let? _ := check_peer_buffer_is_sufficient (len buffer) in
  let len := u32 (len buffer) in
  let? i := get fst in
  let? s := get snd in
  let header := new_header i (guest_cid s) Rw len 0 in
  let? _ := modify (fun '(i, s) => (set_tx_cnt (u32 (tx_cnt i + len)) i, s)) in
  with_driver (send_packet_to_tx_queue header buffer).

Definition driver_poll {S} (handler : VsockEvent -> list Z -> S -> outcome (S * res (option VsockEvent)))
    (s : S * VirtIOSocket D) : outcome (S * VirtIOSocket D * res (option VsockEvent)) :=
  '(x, d, r) ← owning_poll (fun buffer x =>
      match read_header_and_body buffer with
      | Err e => Ret (x, Err e)
      | Ok (header, body) =>
          match from_header header with
          | Err e => Ret (x, Err e)
          | Ok event => handler event body x
          end
      end) (fst s, device (snd s));
  Ret (x, mkSocket d (guest_cid (snd s)), r).
End Driver.
