(* ===== verification/VsockManager.v ===== *)
(** * The connection manager of the virtio socket driver

    Models [connectionmanager.rs] of
    [src/virtio-drivers-patched/src/device/socket/] over the driver of [Vsock]:
    ring buffers, the list of connections and every call of the manager. *)

From S2P Require Import Prelude Virtqueue Vsock.
Open Scope mach_scope.

Definition DEFAULT_PER_CONNECTION_BUFFER_CAPACITY : Z := 1024.

(** ** Ring buffers *)

Record RingBuffer := mkRing { rb_buffer : list Z; rb_used : Z; rb_start : Z }.
Definition ring_new (capacity : Z) : RingBuffer := mkRing (replicate (Z.to_nat capacity) 0) 0 0.
Definition is_empty (r : RingBuffer) : bool := rb_used r =? 0.
Definition free (r : RingBuffer) : Z := len (rb_buffer r) ⊟ rb_used r.

(** A remainder by zero panics. *)
Definition rem (a n : Z) : outcome Z := if n =? 0 then Panic else Ret (a mod n).

Definition ring_add (bytes : list Z) (r : RingBuffer) : outcome (RingBuffer * bool) :=
  if free r <? len bytes then Ret (r, false) else
  first_available ← rem (rb_start r ⊞ rb_used r) (len (rb_buffer r));
  let before := Z.min (len bytes) (len (rb_buffer r) ⊟ first_available) in
  head ← slice bytes 0 before;
  b ← splice (rb_buffer r) first_available head;
  b ← splice b 0 (drop (Z.to_nat before) bytes);
  Ret (mkRing b (rb_used r ⊞ len bytes) (rb_start r), true).

(** The bytes stored at the front of an output buffer of [out_len]. *)
Definition drain (out_len : Z) (r : RingBuffer) : outcome (RingBuffer * list Z) :=
  let bytes_read := Z.min (rb_used r) out_len in
  let before := Z.min bytes_read (len (rb_buffer r) ⊟ rb_start r) in
  let after := saturating_sub bytes_read before in
  head ← slice (rb_buffer r) (rb_start r) (rb_start r ⊞ before);
  tail ← slice (rb_buffer r) 0 after;
  start ← rem (rb_start r ⊞ bytes_read) (len (rb_buffer r));
  Ret (mkRing (rb_buffer r) (rb_used r ⊟ bytes_read) start, head ++ tail).

(** ** Connections *)

Record Connection := mkConn { info : ConnectionInfo; buffer : RingBuffer; peer_requested_shutdown : bool }.
Definition set_info (i : ConnectionInfo) (c : Connection) : Connection := mkConn i (buffer c) (peer_requested_shutdown c).
Definition set_buffer (b : RingBuffer) (c : Connection) : Connection := mkConn (info c) b (peer_requested_shutdown c).
Definition set_shutdown (c : Connection) : Connection := mkConn (info c) (buffer c) true.
Definition Connection_new (peer : VsockAddr) (local_port buffer_capacity : Z) : Connection :=
  mkConn (set_buf_alloc buffer_capacity (ConnectionInfo_new peer local_port)) (ring_new buffer_capacity) false.

Definition is_for (peer : VsockAddr) (local_port : Z) (c : Connection) : Prop :=
  dst (info c) = peer /\ src_port (info c) = local_port.
#[export] Instance is_for_dec peer local_port c : Decision (is_for peer local_port c).
Proof. unfold is_for. solve_decision. Defined.

Definition get_connection (connections : list Connection) (peer : VsockAddr) (local_port : Z) : option (nat * Connection) :=
  list_find (is_for peer local_port) connections.
Definition get_connection_for_event (connections : list Connection) (event : VsockEvent) (local_cid : Z)
    : option (nat * Connection) :=
  list_find (fun c => matches_connection event (info c) local_cid = true) connections.

(** ** The manager *)

Record VsockConnectionManager (D : Type) := mkManager {
  driver : VirtIOSocket D;
  per_connection_buffer_capacity : Z;
  connections : list Connection;
  listening_ports : list Z;
}.
Arguments mkManager {D} driver per_connection_buffer_capacity connections listening_ports.
Arguments driver {D} v.
Arguments per_connection_buffer_capacity {D} v.
Arguments connections {D} v.
Arguments listening_ports {D} v.

Section Manager.
Context {D : Type} `{SocketDevice D}.
Notation manager := (VsockConnectionManager D).

Definition set_driver (d : VirtIOSocket D) (m : manager) : manager :=
  mkManager d (per_connection_buffer_capacity m) (connections m) (listening_ports m).
Definition set_connections (l : list Connection) (m : manager) : manager :=
  mkManager (driver m) (per_connection_buffer_capacity m) l (listening_ports m).
Definition set_ports (l : list Z) (m : manager) : manager :=
  mkManager (driver m) (per_connection_buffer_capacity m) (connections m) l.
Definition update_connection (i : nat) (c : Connection) (m : manager) : manager :=
  set_connections (<[i := c]> (connections m)) m.
Definition swap_remove_connection (i : nat) (m : manager) : manager :=
  set_connections (vec_swap_remove i (connections m)) m.

Definition new_with_capacity (driver : VirtIOSocket D) (per_connection_buffer_capacity : Z) : manager :=
  mkManager driver per_connection_buffer_capacity [] [].
Definition manager_new (driver : VirtIOSocket D) : manager :=
  new_with_capacity driver DEFAULT_PER_CONNECTION_BUFFER_CAPACITY.
Definition manager_cid (m : manager) : Z := guest_cid (driver m).

Definition listen (port : Z) (m : manager) : manager :=
  if bool_decide (port ∈ listening_ports m) then m else set_ports (listening_ports m ++ [port]) m.
Definition unlisten (port : Z) (m : manager) : manager :=
  set_ports (filter (fun p => p <> port) (listening_ports m)) m.

(** [self.driver.f(..)]. *)
Definition on_driver {A} (f : call (VirtIOSocket D) A) : call manager A := fun m =>
  match f (driver m) with
  | None => None
  | Some Panic => Some Panic
  | Some (Ret (d, r)) => Some (Ret (set_driver d m, r))
  end.
(** [get_connection(..)?]. *)
Definition find_connection (peer : VsockAddr) (local_port : Z) : call manager (nat * Connection) := fun m =>
  match get_connection (connections m) peer local_port with
  | Some p => ok p m
  | None => error NotConnected m
  end.

Definition connect (destination : VsockAddr) (src_port : Z) : call manager unit := fun m =>
  if existsb (fun c => bool_decide (is_for destination src_port c)) (connections m) then error ConnectionExists m else
  let new_connection := Connection_new destination src_port (per_connection_buffer_capacity m) in
  (let? _ := on_driver (driver_connect (info new_connection)) in
   modify (fun m => set_connections (connections m ++ [new_connection]) m)) m.

(** [connection.info] is changed in place, also when the call fails. *)
Definition send (destination : VsockAddr) (src_port : Z) (bytes : list Z) : call manager unit :=
  let? p := find_connection destination src_port in
  fun m =>
    match driver_send bytes (info (snd p), driver m) with
    | None => None
    | Some Panic => Some Panic
    | Some (Ret ((i, d), r)) => Some (Ret (update_connection (fst p) (set_info i (snd p)) (set_driver d m), r))
    end.

(** The closure of [poll]. *)
Definition handle_event (guest_cid capacity : Z) (event : VsockEvent) (body : list Z) (conns : list Connection)
    : outcome (list Connection * res (option VsockEvent)) :=
  let found :=
    match get_connection_for_event conns event guest_cid with
    | Some (i, c) => Some (i, c, conns)
    | None =>
        match e_type event with
        | ConnectionRequest =>
            if negb (cid (e_destination event) =? guest_cid) then None else
            let c := Connection_new (e_source event) (port (e_destination event)) capacity in
            Some (length conns, c, conns ++ [c])
        | _ => None
        end
    end in
  match found with
  | None => Ret (conns, Ok None)
  | Some (i, c, conns) =>
      let c := set_info (update_for_event event (info c)) c in
      match e_type event with
      | Received length =>
          '(b, added) ← ring_add body (buffer c);
          Ret (<[i := set_buffer b c]> conns,
               if added : bool then Ok (Some event) else Err (SocketDeviceError (OutputBufferTooShort length)))
      | _ => Ret (<[i := c]> conns, Ok (Some event))
      end
  end.

(** The [match] of [poll] on the event of connection [i]. *)
Definition after_event (event : VsockEvent) (i : nat) (c : Connection) : call manager (option VsockEvent) :=
  match e_type event with
  | ConnectionRequest =>
      fun m =>
        if bool_decide (port (e_destination event) ∈ listening_ports m) then
          (let? _ := on_driver (accept (info c)) in
           ok (Some event)) m
        else
          (let? _ := on_driver (driver_force_close (info c)) in
           let? _ := modify (swap_remove_connection i) in
           ok None) m
  | Connected => ok (Some event)
  | Disconnected reason =>
      if is_empty (buffer c) then
        let? _ := (if bool_decide (reason = DisconnectShutdown) then on_driver (driver_force_close (info c)) else ok tt) in
        let? _ := modify (swap_remove_connection i) in
        ok (Some event)
      else
        let? _ := modify (update_connection i (set_shutdown c)) in
        ok (Some event)
  | Received _ => ok (Some event)
  | EventCreditRequest =>
      let? _ := on_driver (credit_update (info c)) in
      ok None
  | EventCreditUpdate => ok (Some event)
  end.

Definition poll : call manager (option VsockEvent) := fun m =>
  let guest_cid := manager_cid m in
  match driver_poll (handle_event guest_cid (per_connection_buffer_capacity m)) (connections m, driver m) with
  | Panic => Some Panic
  | Ret (conns, d, r) =>
      let m := set_connections conns (set_driver d m) in
      match r with
      | Err e => Some (Ret (m, Err e))
      | Ok None => ok None m
      | Ok (Some event) =>
          match get_connection_for_event (connections m) event guest_cid with
          | None => Some Panic
          | Some (i, c) => after_event event i c m
          end
      end
  end.

(** The bytes read; [out_len] is the length of the output buffer. *)
Definition recv (peer : VsockAddr) (src_port out_len : Z) : call manager (list Z) :=
  let? p := find_connection peer src_port in
  fun m =>
    match drain out_len (buffer (snd p)) with
    | Panic => Some Panic
    | Ret (b, bytes) =>
        let c := set_info (done_forwarding (len bytes) (info (snd p))) (set_buffer b (snd p)) in
        (let? _ := modify (update_connection (fst p) c) in
         if peer_requested_shutdown c && is_empty (buffer c) then
           let? _ := on_driver (driver_force_close (info c)) in
           let? _ := modify (swap_remove_connection (fst p)) in
           ok bytes
         else ok bytes) m
    end.

Definition recv_buffer_available_bytes (peer : VsockAddr) (src_port : Z) : call manager Z :=
  let? p := find_connection peer src_port in ok (rb_used (buffer (snd p))).
Definition update_credit (peer : VsockAddr) (src_port : Z) : call manager unit :=
  let? p := find_connection peer src_port in on_driver (credit_update (info (snd p))).
Definition shutdown (destination : VsockAddr) (src_port : Z) : call manager unit :=
  let? p := find_connection destination src_port in on_driver (driver_shutdown (info (snd p))).
Definition force_close (destination : VsockAddr) (src_port : Z) : call manager unit :=
  let? p := find_connection destination src_port in
  let? _ := on_driver (driver_force_close (info (snd p))) in
  modify (swap_remove_connection (fst p)).

(** [None] also when the fuel runs out. *)
Fixpoint wait_for_event (fuel : nat) : call manager VsockEvent :=
  match fuel with
  | O => fun _ => None
  | S fuel' =>
      let? r := poll in
      match r with
      | Some event => ok event
      | None => wait_for_event fuel'
      end
  end.
End Manager.
