(* ===== verification/VsockProps.v ===== *)
(** * Virtio sockets: the manager as a map of connections

    What the class [SocketDevice] promises ([SocketLaws]); header encoding; ring
    buffers as bounded queues; and the refinement: the manager implements a map
    from addresses to connections, each of them an independent state machine
    over a queue of bytes. *)

From S2P Require Import Prelude Virtqueue Vsock VsockManager.
Open Scope mach_scope.

(** ** Ring buffers *)

Record ring_ok (cap : Z) (r : RingBuffer) : Prop := {
  ro_cap : 0 < cap < 2 ^ 32;
  ro_len : len (rb_buffer r) = cap;
  ro_used : 0 <= rb_used r <= cap;
  ro_start : 0 <= rb_start r < cap;
}.

(** The bytes in the buffer, oldest first. *)
Definition ring_data (r : RingBuffer) : list Z :=
  (fun k => default 0 (rb_buffer r !! Z.to_nat ((rb_start r + k) mod len (rb_buffer r)))) <$> seqZ 0 (rb_used r).

Lemma ring_data_len cap r : ring_ok cap r -> len (ring_data r) = rb_used r.
Proof. intros [_ _ ? _]. unfold ring_data, len. rewrite length_fmap, length_seqZ. lia. Qed.

Lemma ring_data_lookup r (i : nat) : Z.of_nat i < rb_used r ->
  ring_data r !! i = Some (default 0 (rb_buffer r !! Z.to_nat ((rb_start r + Z.of_nat i) mod len (rb_buffer r)))).
Proof.
  intros Hi. unfold ring_data. rewrite list_lookup_fmap, (proj2 (lookup_seqZ 0 (rb_used r) i (Z.of_nat i))) by lia. done.
Qed.

Lemma mod_once x c : 0 <= x < 2 * c -> (x < c /\ x mod c = x) \/ (c <= x /\ x mod c = x - c).
Proof.
  intros Hx. destruct (Z_lt_ge_dec x c); [left|right]; (split; [lia|]); [apply Z.mod_small; lia|].
  replace x with (x - c + 1 * c) at 1 by lia. rewrite Z.mod_add by lia. apply Z.mod_small. lia.
Qed.

Lemma ring_new_ok cap : 0 < cap < 2 ^ 32 -> ring_ok cap (ring_new cap) /\ ring_data (ring_new cap) = [].
Proof.
  intros Hc. split; [|done]. split; cbn; [done| |lia|lia]. unfold len. rewrite length_replicate. lia.
Qed.

Lemma lookup_splice {A} (l bs : list A) at_ s (j : nat) : splice l at_ bs = Ret s ->
  s !! j = if bool_decide (at_ <= Z.of_nat j < at_ + len bs) then bs !! (j - Z.to_nat at_)%nat else l !! j.
Proof.
  unfold splice. case_match; [|done]. intros [= <-]. zb. unfold len in *.
  assert (length (take (Z.to_nat at_) l) = Z.to_nat at_) as Ht by (rewrite length_take; lia).
  case_bool_decide.
  - rewrite lookup_app_r, Ht, lookup_app_l by lia. done.
  - destruct (decide (Z.of_nat j < at_)).
    + rewrite lookup_app_l, lookup_take_lt by lia. done.
    + rewrite !lookup_app_r, Ht, lookup_drop by lia. f_equal. lia.
Qed.

Lemma ring_add_ok cap r bs : ring_ok cap r ->
  if len (ring_data r) + len bs <=? cap
  then exists r', ring_add bs r = Ret (r', true) /\ ring_ok cap r' /\ ring_data r' = ring_data r ++ bs
  else ring_add bs r = Ret (r, false).
Proof.
  intros Hr. rewrite (ring_data_len cap) by done. pose proof Hr as [Hc Hl Hu Hs]. unfold ring_add, free. rewrite Hl. unwrap64.
  pose proof (len_nonneg bs) as Hb. destruct (Z.leb_spec (rb_used r + len bs) cap).
  2:{ rewrite (proj2 (Z.ltb_lt _ _)) by lia. done. }
  rewrite (proj2 (Z.ltb_ge _ _)) by lia. unfold rem. rewrite (proj2 (Z.eqb_neq cap 0)) by lia. cbn [mbind outcome_bind].
  rewrite (u64_small (rb_start r + rb_used r)) by lia. pose proof (Z.mod_pos_bound (rb_start r + rb_used r) cap ltac:(lia)) as Hfa.
  set (fa := (rb_start r + rb_used r) mod cap) in *. rewrite (u64_small (cap - fa)) by lia. remember (Z.min (len bs) (cap - fa)) as n eqn:En.
  rewrite slice_ok by lia. cbn [mbind outcome_bind]. rewrite Z.sub_0_r, drop_0.
  destruct (splice (rb_buffer r) fa (take (Z.to_nat n) bs)) as [b1|] eqn:E1.
  2:{ rewrite splice_ok in E1; [done|lia|]. rewrite len_take by lia. lia. }
  cbn [mbind outcome_bind]. pose proof (splice_len _ _ _ _ E1) as L1. rewrite Hl in L1.
  destruct (splice b1 0 (drop (Z.to_nat n) bs)) as [b2|] eqn:E2.
  2:{ rewrite splice_ok in E2; [done|lia|]. rewrite len_drop by lia. lia. }
  cbn [mbind outcome_bind]. pose proof (splice_len _ _ _ _ E2) as L2. rewrite L1 in L2. rewrite (u64_small (rb_used r + len bs)) by lia.
  eexists. split; [done|]. assert (ring_ok cap (mkRing b2 (rb_used r + len bs) (rb_start r))) as Hok' by (split; cbn; lia).
  split; [done|]. apply list_eq_same_length with (n := Z.to_nat (rb_used r + len bs)).
  { rewrite length_app. pose proof (ring_data_len cap r Hr). unfold len in *. lia. }
  { pose proof (ring_data_len cap _ Hok') as E. cbn in E. unfold len in *. lia. }
  intros i x y Hi. rewrite ring_data_lookup by (cbn; lia). cbn [rb_buffer rb_start]. rewrite L2.
  pose proof (Z.mod_pos_bound (rb_start r + Z.of_nat i) cap ltac:(lia)) as Hp. set (p := (rb_start r + Z.of_nat i) mod cap) in *.
  rewrite (lookup_splice _ _ _ _ _ E2), (lookup_splice _ _ _ _ _ E1), len_take, len_drop, Z2Nat.id by lia.
  destruct (decide (Z.of_nat i < rb_used r)) as [Hlt|Hge].
  - assert (~ 0 <= p < 0 + Z.max 0 (len bs - n) /\ ~ fa <= p < fa + Z.min n (len bs)) as [? ?].
    { pose proof (mod_once (rb_start r + rb_used r) cap ltac:(lia)). pose proof (mod_once (rb_start r + Z.of_nat i) cap ltac:(lia)). lia. }
    rewrite !bool_decide_false by done. rewrite lookup_app_l by (pose proof (ring_data_len cap r Hr); unfold len in *; lia).
    rewrite ring_data_lookup by done. rewrite Hl. subst p. congruence.
  - rewrite lookup_app_r by (pose proof (ring_data_len cap r Hr); unfold len in *; lia).
    assert (length (ring_data r) = Z.to_nat (rb_used r)) as -> by (pose proof (ring_data_len cap r Hr); unfold len in *; lia).
    assert ((p = fa + (Z.of_nat i - rb_used r) /\ Z.of_nat i - rb_used r < n /\ len bs - n <= p)
      \/ (n = cap - fa /\ p = Z.of_nat i - rb_used r - n /\ p < len bs - n)) as [(Ep & ? & ?)|(En' & Ep & ?)].
    { pose proof (mod_once (rb_start r + rb_used r) cap ltac:(lia)). pose proof (mod_once (rb_start r + Z.of_nat i) cap ltac:(lia)). lia. }
    + rewrite bool_decide_false, bool_decide_true by lia. rewrite lookup_take_lt by lia.
      replace (Z.to_nat p - Z.to_nat fa)%nat with (i - Z.to_nat (rb_used r))%nat by lia.
      intros [= <-] ->. done.
    + rewrite bool_decide_true by lia. rewrite lookup_drop. replace (Z.to_nat n + (Z.to_nat p - Z.to_nat 0))%nat with (i - Z.to_nat (rb_used r))%nat by lia.
      intros [= <-] ->. done.
Qed.

Lemma drain_ok cap r n : ring_ok cap r -> 0 <= n ->
  exists r', drain n r = Ret (r', take (Z.to_nat n) (ring_data r)) /\ ring_ok cap r'
    /\ ring_data r' = drop (Z.to_nat n) (ring_data r).
Proof.
  intros Hr Hn. pose proof Hr as [Hc Hl Hu Hs]. pose proof (ring_data_len cap r Hr) as Hd. unfold drain, saturating_sub. rewrite Hl.
  rewrite (u64_small (cap - rb_start r)) by lia. remember (Z.min (rb_used r) n) as k eqn:Ek.
  remember (Z.min k (cap - rb_start r)) as b eqn:Eb. rewrite Z.max_l by lia.
  rewrite (u64_small (rb_start r + b)), (slice_ok _ (rb_start r)), slice_ok by lia. cbn [mbind outcome_bind].
  rewrite (u64_small (rb_start r + k)), (u64_small (rb_used r - k)) by lia.
  unfold rem. rewrite (proj2 (Z.eqb_neq cap 0)) by lia. cbn [mbind outcome_bind].
  replace (rb_start r + b - rb_start r) with b by lia. rewrite Z.sub_0_r, drop_0. eexists. split; [do 2 f_equal|split].
  - apply list_eq_same_length with (n := Z.to_nat k).
    { rewrite length_take. unfold len in *. lia. }
    { rewrite length_app, !length_take, length_drop. unfold len in *. lia. }
    intros i x y Hi. rewrite lookup_take_lt, ring_data_lookup by lia. rewrite Hl.
    pose proof (mod_once (rb_start r + Z.of_nat i) cap ltac:(lia)) as Hm. set (p := _ mod cap) in *.
    assert (length (take (Z.to_nat b) (drop (Z.to_nat (rb_start r)) (rb_buffer r))) = Z.to_nat b) as Et
      by (rewrite length_take, length_drop; unfold len in *; lia).
    destruct (decide (Z.of_nat i < b)).
    + rewrite lookup_app_l, lookup_take_lt, lookup_drop by lia.
      replace (Z.to_nat (rb_start r) + i)%nat with (Z.to_nat p) by lia. intros -> . cbn. congruence.
    + rewrite lookup_app_r, Et, lookup_take_lt by lia.
      replace (i - Z.to_nat b)%nat with (Z.to_nat p) by lia. intros ->. cbn. congruence.
  - pose proof (Z.mod_pos_bound (rb_start r + k) cap ltac:(lia)). split; cbn; lia.
  - apply list_eq_same_length with (n := Z.to_nat (rb_used r - k)).
    { rewrite length_drop. unfold len in *. lia. }
    { unfold ring_data. cbn. rewrite length_fmap, length_seqZ. lia. }
    intros i x y Hi. rewrite lookup_drop, !ring_data_lookup by (cbn; lia). cbn [rb_buffer rb_start]. rewrite Hl.
    rewrite Z.add_mod_idemp_l by lia. destruct (decide (n < rb_used r)); [|lia].
    replace (rb_start r + k + Z.of_nat i) with (rb_start r + Z.of_nat (Z.to_nat n + i)) by lia. congruence.
Qed.

(** ** Packets *)

Definition packet : Type := VirtioVsockHdr * list Z.
Definition packet_bytes (p : packet) : list Z := as_bytes (fst p) ++ snd p.
Record hdr_ok (h : VirtioVsockHdr) : Prop := {
  ho_cids : 0 <= h_src_cid h < 2 ^ 64 /\ 0 <= h_dst_cid h < 2 ^ 64;
  ho_ports : 0 <= h_src_port h < 2 ^ 32 /\ 0 <= h_dst_port h < 2 ^ 32;
  ho_len : 0 <= h_len h < 2 ^ 32;
  ho_op : 0 <= h_socket_type h < 2 ^ 16 /\ 0 <= h_op h < 2 ^ 16 /\ 0 <= h_flags h < 2 ^ 32;
  ho_credit : 0 <= h_buf_alloc h < 2 ^ 32 /\ 0 <= h_fwd_cnt h < 2 ^ 32;
}.

Lemma as_bytes_len h : len (as_bytes h) = HDR_SIZE.
Proof. reflexivity. Qed.

(** Reading a packet back gives its header and its body. *)
Lemma packet_round_trip p : hdr_ok (fst p) -> h_len (fst p) = len (snd p) ->
  read_header_and_body (packet_bytes p) = Ok p.
Proof.
  destruct p as [h body]. cbn [fst snd]. intros [H1 H2 H3 H4 H5] Hl. unfold read_header_and_body, packet_bytes. cbn [fst snd].
  assert (read_from_prefix (as_bytes h ++ body) = Some h) as ->.
  { unfold read_from_prefix. rewrite len_app, as_bytes_len. pose proof (len_nonneg body).
    rewrite (proj2 (Z.ltb_ge _ _)) by lia. f_equal.
    replace (field _ 0 8) with (le_val (le_bytes 8 (h_src_cid h))) by reflexivity.
    replace (field _ 8 8) with (le_val (le_bytes 8 (h_dst_cid h))) by reflexivity.
    replace (field _ 16 4) with (le_val (le_bytes 4 (h_src_port h))) by reflexivity.
    replace (field _ 20 4) with (le_val (le_bytes 4 (h_dst_port h))) by reflexivity.
    replace (field _ 24 4) with (le_val (le_bytes 4 (h_len h))) by reflexivity.
    replace (field _ 28 2) with (le_val (le_bytes 2 (h_socket_type h))) by reflexivity.
    replace (field _ 30 2) with (le_val (le_bytes 2 (h_op h))) by reflexivity.
    replace (field _ 32 4) with (le_val (le_bytes 4 (h_flags h))) by reflexivity.
    replace (field _ 36 4) with (le_val (le_bytes 4 (h_buf_alloc h))) by reflexivity.
    replace (field _ 40 4) with (le_val (le_bytes 4 (h_fwd_cnt h))) by reflexivity.
    rewrite !le_val_bytes, !Z.mod_small by (cbn; lia). by destruct h. }
  unfold checked_add. rewrite (proj2 (Z.ltb_lt _ _)) by (unfold HDR_SIZE; lia).
  rewrite len_app, as_bytes_len, Hl, (proj2 (Z.leb_le _ _)) by lia. f_equal. f_equal.
  change (drop (Z.to_nat HDR_SIZE) (as_bytes h ++ body)) with body. unfold len. rewrite Nat2Z.id. by rewrite take_ge.
Qed.

(** ** What the queues promise *)

(** [inbox]: the packets put in the receive queue and not yet taken out, oldest
    first; [outbox]: the packets sent that the host has not yet fetched.
    [popped t d]: buffer [t] is taken out and not yet given back. *)
Class SocketLaws (D : Type) `{SocketDevice D} := {
  dev_ok : D -> Prop;
  popped : Z -> D -> Prop;
  inbox : D -> list (list Z);
  outbox : D -> list (list Z);
  rx_pop_none d : dev_ok d -> inbox d = [] ->
    exists d', rx_pop d = Ret (d', VOk None) /\ dev_ok d' /\ inbox d' = [] /\ outbox d' = outbox d;
  rx_pop_some d p r : dev_ok d -> inbox d = p :: r ->
    exists d' t, rx_pop d = Ret (d', VOk (Some (p, t))) /\ popped t d' /\ inbox d' = r /\ outbox d' = outbox d;
  rx_add_ok d t : popped t d ->
    exists d', rx_add t d = Ret (d', VOk tt) /\ dev_ok d' /\ inbox d' = inbox d /\ outbox d' = outbox d;
  tx_send_ok d bs : dev_ok d -> bs <> [] -> len bs <= 2 -> Forall (fun b => 0 < len b < 2 ^ 32) bs ->
    exists d' n, tx_send bs d = Some (Ret (d', VOk n)) /\ dev_ok d' /\ inbox d' = inbox d
      /\ outbox d' = outbox d ++ [concat bs];
}.

(** ** The specification: one connection *)

Definition key : Type := VsockAddr * Z.

Record sconn := mkSconn { s_info : ConnectionInfo; s_data : list Z; s_shut : bool }.
Definition s_new (cap : Z) (k : key) : sconn := mkSconn (set_buf_alloc cap (ConnectionInfo_new (fst k) (snd k))) [] false.
Definition s_set_info (i : ConnectionInfo) (c : sconn) : sconn := mkSconn i (s_data c) (s_shut c).

(** What a call does to its connection, the packets it sends and its result. *)
Definition reply (A : Type) : Type := option sconn * list packet * res A.
Definition refuse {A} (e : SocketError) (c : option sconn) : reply A := (c, [], Err (SocketDeviceError e)).
Definition bare (op : VirtioVsockOp) (flags cid : Z) (c : sconn) : packet := (new_header (s_info c) cid op 0 flags, []).

Definition s_connect (cap cid : Z) (k : key) (c : option sconn) : reply unit :=
  match c with
  | Some _ => refuse ConnectionExists c
  | None => (Some (s_new cap k), [bare Request 0 cid (s_new cap k)], Ok tt)
  end.
Definition s_send (cid : Z) (bytes : list Z) (c : option sconn) : reply unit :=
  match c with
  | None => refuse NotConnected c
  | Some s =>
      let i := s_info s in
      if len bytes <=? peer_free i then
        (Some (s_set_info (set_tx_cnt (u32 (tx_cnt i + len bytes)) i) s), [(new_header i cid Rw (len bytes) 0, bytes)], Ok tt)
      else if has_pending_credit_request i then refuse InsufficientBufferSpaceInPeer c
      else (Some (s_set_info (set_pending_credit true i) s), [bare CreditRequest 0 cid s],
            Err (SocketDeviceError InsufficientBufferSpaceInPeer))
  end.
Definition s_recv (cid n : Z) (c : option sconn) : reply (list Z) :=
  match c with
  | None => refuse NotConnected c
  | Some s =>
      let bytes := take (Z.to_nat n) (s_data s) in
      let s' := mkSconn (done_forwarding (len bytes) (s_info s)) (drop (Z.to_nat n) (s_data s)) (s_shut s) in
      if s_shut s && bool_decide (s_data s' = []) then (None, [bare Rst 0 cid s'], Ok bytes) else (Some s', [], Ok bytes)
  end.
Definition s_available (c : option sconn) : reply Z :=
  match c with None => refuse NotConnected c | Some s => (c, [], Ok (len (s_data s))) end.
Definition s_credit (cid : Z) (c : option sconn) : reply unit :=
  match c with None => refuse NotConnected c | Some s => (c, [bare CreditUpdate 0 cid s], Ok tt) end.
Definition s_shutdown (cid : Z) (c : option sconn) : reply unit :=
  match c with None => refuse NotConnected c | Some s => (c, [bare Shutdown 3 cid s], Ok tt) end.
Definition s_close (cid : Z) (c : option sconn) : reply unit :=
  match c with None => refuse NotConnected c | Some s => (None, [bare Rst 0 cid s], Ok tt) end.

(** An event for the connection [k]: a request makes the connection, the peer's
    credit is noted, and received bytes are stored if they fit; then the event is
    answered. *)
Definition s_answer (cid : Z) (listening : bool) (ev : VsockEvent) (s : sconn) : reply (option VsockEvent) :=
  match e_type ev with
  | ConnectionRequest =>
      if listening then (Some s, [bare Response 0 cid s], Ok (Some ev)) else (None, [bare Rst 0 cid s], Ok None)
  | Disconnected reason =>
      match s_data s with
      | [] => (None, if bool_decide (reason = DisconnectShutdown) then [bare Rst 0 cid s] else [], Ok (Some ev))
      | _ => (Some (mkSconn (s_info s) (s_data s) true), [], Ok (Some ev))
      end
  | EventCreditRequest => (Some s, [bare CreditUpdate 0 cid s], Ok None)
  | Connected | Received _ | EventCreditUpdate => (Some s, [], Ok (Some ev))
  end.
Definition s_start (cap : Z) (k : key) (ev : VsockEvent) (c : option sconn) : option sconn :=
  match c, e_type ev with None, ConnectionRequest => Some (s_new cap k) | _, _ => c end.
Definition s_event (cap cid : Z) (listening : bool) (k : key) (ev : VsockEvent) (body : list Z) (c : option sconn)
    : reply (option VsockEvent) :=
  match s_start cap k ev c with
  | None => (None, [], Ok None)
  | Some s =>
      let s := s_set_info (update_for_event ev (s_info s)) s in
      match e_type ev with
      | Received n =>
          if len (s_data s) + len body <=? cap
          then s_answer cid listening ev (mkSconn (s_info s) (s_data s ++ body) (s_shut s))
          else (Some s, [], Err (SocketDeviceError (OutputBufferTooShort n)))
      | _ => s_answer cid listening ev s
      end
  end.

Definition event_of (p : list Z) : res (VsockEvent * list Z) :=
  match read_header_and_body p with
  | Err e => Err e
  | Ok (h, body) => match from_header h with Err e => Err e | Ok ev => Ok (ev, body) end
  end.
Definition event_key (ev : VsockEvent) : key := (e_source ev, port (e_destination ev)).

(** ** The list of connections as a map *)

Definition conn_key (c : Connection) : key := (dst (info c), src_port (info c)).
Definition lookup_conn (l : list Connection) (k : key) : option Connection := snd <$> get_connection l (fst k) (snd k).
Definition abs_conn (c : Connection) : sconn := mkSconn (info c) (ring_data (buffer c)) (peer_requested_shutdown c).
Definition conns_ok (cap : Z) (l : list Connection) : Prop :=
  Forall (fun c => ring_ok cap (buffer c)) l /\ NoDup (conn_key <$> l).

Lemma is_for_key k c : is_for (fst k) (snd k) c <-> conn_key c = k.
Proof. destruct k as [a p]. unfold is_for, conn_key. cbn. split; [intros [-> ->]; done|intros [= -> ->]; done]. Qed.

Lemma get_connection_spec l k i c : NoDup (conn_key <$> l) ->
  get_connection l (fst k) (snd k) = Some (i, c) <-> l !! i = Some c /\ conn_key c = k.
Proof.
  intros Hn. unfold get_connection. rewrite list_find_Some. setoid_rewrite is_for_key. split; [tauto|]. intros [Hi Hk].
  split_and!; [done..|]. intros j y Hj Hlt E. assert (i = j); [|lia].
  eapply (NoDup_lookup _ i j k Hn); rewrite list_lookup_fmap; [by rewrite Hi, <- Hk|by rewrite Hj, <- E].
Qed.

Lemma lookup_conn_spec l k c : NoDup (conn_key <$> l) -> lookup_conn l k = Some c <-> c ∈ l /\ conn_key c = k.
Proof.
  intros Hn. unfold lookup_conn. rewrite fmap_Some. split.
  - intros ([i y] & E & ->). apply get_connection_spec in E as [Hi Hk]; [|done]. split; [|done]. by eapply list_elem_of_lookup_2.
  - intros [Hc Hk]. apply list_elem_of_lookup in Hc as [i Hi]. exists (i, c). split; [|done]. by apply get_connection_spec.
Qed.

(** Two maps that agree on membership agree. *)
Lemma lookup_conn_ext l l' k : NoDup (conn_key <$> l) -> NoDup (conn_key <$> l') ->
  (forall c, conn_key c = k -> c ∈ l <-> c ∈ l') -> lookup_conn l k = lookup_conn l' k.
Proof.
  intros Hn Hn' HE. apply option_eq. intros c. rewrite !lookup_conn_spec by done. specialize (HE c). naive_solver.
Qed.

Lemma lookup_conn_none l k : NoDup (conn_key <$> l) -> lookup_conn l k = None <-> k ∉ conn_key <$> l.
Proof.
  intros Hn. rewrite eq_None_not_Some. unfold is_Some. setoid_rewrite lookup_conn_spec; [|done]. rewrite list_elem_of_fmap.
  split; intros H E; apply H; naive_solver.
Qed.

Lemma lookup_insert_conn cap l i c c' k : conns_ok cap l -> l !! i = Some c -> conn_key c' = conn_key c -> ring_ok cap (buffer c') ->
  conns_ok cap (<[i := c']> l) /\ lookup_conn (<[i := c']> l) k = if decide (k = conn_key c) then Some c' else lookup_conn l k.
Proof.
  intros [Hf Hn] Hi Hk Hr.
  assert (NoDup (conn_key <$> <[i := c']> l)) as Hn'.
  { rewrite list_fmap_insert, list_insert_id; [done|]. by rewrite list_lookup_fmap, Hi, Hk. }
  split; [split; [by apply Forall_insert|done]|]. case_decide as E.
  - apply lookup_conn_spec; [done|]. split; [|congruence]. eapply list_elem_of_lookup_2, list_lookup_insert_eq. by eapply lookup_lt_Some.
  - apply lookup_conn_ext; [done..|]. intros x Hx. rewrite !list_elem_of_lookup.
    split; intros [j Hj]; exists j.
    + apply list_lookup_insert_Some in Hj as [(-> & -> & _)|[_ ?]]; [congruence|done].
    + apply list_lookup_insert_Some. right. split; [|done]. intros <-. congruence.
Qed.

Lemma lookup_push_conn cap l c k : conns_ok cap l -> lookup_conn l (conn_key c) = None -> ring_ok cap (buffer c) ->
  conns_ok cap (l ++ [c]) /\ lookup_conn (l ++ [c]) k = if decide (k = conn_key c) then Some c else lookup_conn l k.
Proof.
  intros [Hf Hn] HN Hr. apply lookup_conn_none in HN; [|done].
  assert (NoDup (conn_key <$> l ++ [c])) as Hn'.
  { rewrite fmap_app. apply NoDup_app. split_and!; [done| |apply NoDup_singleton]. intros x Hx ->%list_elem_of_singleton. done. }
  split; [split; [by apply Forall_app; split; [|constructor]|done]|]. case_decide as E.
  - apply lookup_conn_spec; [done|]. split; [apply elem_of_app; right; by left|done].
  - apply lookup_conn_ext; [done..|]. intros x Hx. rewrite elem_of_app, list_elem_of_singleton. naive_solver.
Qed.

Lemma lookup_remove_conn cap l i c k : conns_ok cap l -> l !! i = Some c ->
  conns_ok cap (vec_swap_remove i l)
  /\ lookup_conn (vec_swap_remove i l) k = if decide (k = conn_key c) then None else lookup_conn l k.
Proof.
  intros [Hf Hn] Hi. pose proof (vec_swap_remove_perm i l c Hi) as HP. generalize dependent (vec_swap_remove i l). intros l' HP.
  pose proof Hn as HN. rewrite HP in HN. cbn in HN. apply NoDup_cons in HN as [Hni Hn'].
  rewrite HP in Hf. apply Forall_cons in Hf as [_ Hf]. split; [done|]. case_decide as E.
  - subst k. by apply lookup_conn_none.
  - apply lookup_conn_ext; [done..|]. intros x Hx. rewrite HP, elem_of_cons. naive_solver.
Qed.

Lemma event_connection l ev cid_ : get_connection_for_event l ev cid_
  = if cid (e_destination ev) =? cid_ then get_connection l (e_source ev) (port (e_destination ev)) else None.
Proof.
  unfold get_connection_for_event, get_connection, matches_connection. destruct (Z.eqb_spec (cid (e_destination ev)) cid_) as [E|E].
  - apply list_find_ext. intros x. unfold is_for. rewrite !andb_true_iff, bool_decide_eq_true, !Z.eqb_eq. naive_solver.
  - apply list_find_None, Forall_forall. intros x _. rewrite !andb_true_iff, Z.eqb_eq. naive_solver.
Qed.

(** ** The manager refines the map *)

Section Refine.
Context {D : Type} `{HL : SocketLaws D}.
Notation manager := (VsockConnectionManager D).

Definition conn (m : manager) (k : key) : option sconn := abs_conn <$> lookup_conn (connections m) k.
Definition dev (m : manager) : D := device (driver m).
Notation cap m := (per_connection_buffer_capacity m).

Record mgr_ok (m : manager) : Prop := {
  mo_dev : dev_ok (dev m);
  mo_cap : 0 < cap m < 2 ^ 32;
  mo_conns : conns_ok (cap m) (connections m);
}.

(** [m'] is [m] with the entry [k] replaced, [out] sent, and [inb] left to read. *)
Record effect (m m' : manager) (k : key) (c : option sconn) (out : list packet) (inb : list (list Z)) : Prop := {
  ef_ok : mgr_ok m';
  ef_conn k' : conn m' k' = if decide (k' = k) then c else conn m k';
  ef_out : outbox (dev m') = outbox (dev m) ++ (packet_bytes <$> out);
  ef_in : inbox (dev m') = inb;
  ef_rest : manager_cid m' = manager_cid m /\ cap m' = cap m /\ listening_ports m' = listening_ports m;
}.

Definition sent (d d' : D) (out : list packet) : Prop :=
  dev_ok d' /\ inbox d' = inbox d /\ outbox d' = outbox d ++ (packet_bytes <$> out).

Lemma sent_none d : dev_ok d -> sent d d [].
Proof. intros. split_and!; [done..|]. cbn. by rewrite app_nil_r. Qed.

Lemma send_packet_run h body (s : VirtIOSocket D) : dev_ok (device s) -> len body < 2 ^ 32 ->
  exists d', send_packet_to_tx_queue h body s = Some (Ret (mkSocket d' (guest_cid s), Ok tt)) /\ sent (device s) d' [(h, body)].
Proof.
  intros Hd Hl. unfold send_packet_to_tx_queue.
  set (bs := match body with [] => _ | _ => _ end).
  assert (Forall (fun b => 0 < len b < 2 ^ 32) bs) as Hf.
  { assert (0 < len (as_bytes h) < 2 ^ 32) by (rewrite as_bytes_len; unfold HDR_SIZE; lia).
    subst bs. destruct body as [|b body]; repeat (apply Forall_cons; split); done. }
  destruct (tx_send_ok (device s) bs Hd) as (d' & n & -> & Hd' & Hi & Ho); [by subst bs; destruct body| |done|].
  { subst bs. by destruct body. }
  exists d'. split; [done|]. split_and!; [done..|]. rewrite Ho. cbn. f_equal. f_equal. unfold packet_bytes. cbn [fst snd].
  subst bs. destruct body; cbn [concat]; by rewrite !app_nil_r.
Qed.

Lemma on_driver_run op flags i m : dev_ok (dev m) ->
  exists d', on_driver (send_op op flags i) m = Some (Ret (set_driver (mkSocket d' (manager_cid m)) m, Ok tt))
    /\ sent (dev m) d' [(new_header i (manager_cid m) op 0 flags, [])].
Proof.
  intros Hd. unfold on_driver, send_op.
  destruct (send_packet_run (new_header i (guest_cid (driver m)) op 0 flags) [] (driver m) Hd ltac:(done)) as (d' & -> & Hs).
  by exists d'.
Qed.

(** The result of a call, by the list it leaves. *)
Lemma effect_intro m d' l k c out inb : mgr_ok m -> dev_ok d' -> conns_ok (cap m) l ->
  (forall k', abs_conn <$> lookup_conn l k' = if decide (k' = k) then c else conn m k') ->
  outbox d' = outbox (dev m) ++ (packet_bytes <$> out) -> inbox d' = inb ->
  effect m (mkManager (mkSocket d' (manager_cid m)) (cap m) l (listening_ports m)) k c out inb.
Proof. intros [H1 H2 H3] Hd Hl Hc Ho Hi. split; [by split|done..]. Qed.

Lemma effect_same m d' k out : mgr_ok m -> sent (dev m) d' out ->
  effect m (set_driver (mkSocket d' (manager_cid m)) m) k (conn m k) out (inbox (dev m)).
Proof.
  intros Hm (Hd & Hi & Ho). apply effect_intro; try done; [apply Hm|]. intros k'. by case_decide; subst.
Qed.
Lemma effect_nothing m k : mgr_ok m -> effect m m k (conn m k) [] (inbox (dev m)).
Proof.
  intros Hm. pose proof (effect_same m (dev m) k [] Hm (sent_none _ (mo_dev _ Hm))) as E.
  by destruct m as [[d c] cp l p].
Qed.
Lemma effect_update m d' i c c' out : mgr_ok m -> sent (dev m) d' out -> connections m !! i = Some c ->
  conn_key c' = conn_key c -> ring_ok (cap m) (buffer c') ->
  effect m (update_connection i c' (set_driver (mkSocket d' (manager_cid m)) m)) (conn_key c) (Some (abs_conn c')) out (inbox (dev m)).
Proof.
  intros Hm (Hd & Hi & Ho) Hc Hk Hr. pose proof (fun k => lookup_insert_conn _ _ i c c' k (mo_conns _ Hm) Hc Hk Hr) as HI.
  refine (effect_intro m d' (<[i := c']> (connections m)) _ _ out _ Hm Hd _ _ Ho Hi); [exact (proj1 (HI (conn_key c)))|]. intros k'. etrans; [exact (f_equal (fmap abs_conn) (proj2 (HI k')))|]. by case_decide.
Qed.
Lemma effect_remove m d' i c out : mgr_ok m -> sent (dev m) d' out -> connections m !! i = Some c ->
  effect m (swap_remove_connection i (set_driver (mkSocket d' (manager_cid m)) m)) (conn_key c) None out (inbox (dev m)).
Proof.
  intros Hm (Hd & Hi & Ho) Hc. pose proof (fun k => lookup_remove_conn _ _ i c k (mo_conns _ Hm) Hc) as HI.
  refine (effect_intro m d' (vec_swap_remove i (connections m)) _ _ out _ Hm Hd _ _ Ho Hi); [exact (proj1 (HI (conn_key c)))|]. intros k'. etrans; [exact (f_equal (fmap abs_conn) (proj2 (HI k')))|]. by case_decide.
Qed.
Lemma effect_push m d' c out : mgr_ok m -> sent (dev m) d' out -> conn m (conn_key c) = None -> ring_ok (cap m) (buffer c) ->
  effect m (set_connections (connections m ++ [c]) (set_driver (mkSocket d' (manager_cid m)) m)) (conn_key c) (Some (abs_conn c)) out (inbox (dev m)).
Proof.
  intros Hm (Hd & Hi & Ho) Hc Hr. apply fmap_None in Hc. pose proof (fun k => lookup_push_conn _ _ c k (mo_conns _ Hm) Hc Hr) as HI.
  refine (effect_intro m d' (connections m ++ [c]) _ _ out _ Hm Hd _ _ Ho Hi); [exact (proj1 (HI (conn_key c)))|]. intros k'. etrans; [exact (f_equal (fmap abs_conn) (proj2 (HI k')))|]. by case_decide.
Qed.

(** Effects on one entry compose. *)
Lemma effect_trans m1 m2 m3 k c c' o o' i i' : effect m1 m2 k c o i -> effect m2 m3 k c' o' i' -> effect m1 m3 k c' (o ++ o') i'.
Proof.
  intros [A1 A2 A3 A4 (A5 & A6 & A7)] [B1 B2 B3 B4 (B5 & B6 & B7)]. split; [done| | |done|split_and!; congruence].
  - intros k'. rewrite B2, A2. by case_decide.
  - rewrite B3, A3, fmap_app. by rewrite app_assoc.
Qed.

Lemma find_run k (m : manager) : conns_ok (cap m) (connections m) ->
  match conn m k with
  | None => find_connection (fst k) (snd k) m = error NotConnected m
  | Some s => exists i c, find_connection (fst k) (snd k) m = ok (i, c) m /\ get_connection (connections m) (fst k) (snd k) = Some (i, c)
      /\ connections m !! i = Some c /\ conn_key c = k /\ s = abs_conn c /\ ring_ok (cap m) (buffer c)
  end.
Proof.
  intros [Hf Hn]. unfold conn, lookup_conn, find_connection.
  destruct (get_connection _ _ _) as [[i c]|] eqn:E; cbn; [|done]. pose proof E as E'. apply get_connection_spec in E' as [Hi Hk]; [|done].
  exists i, c. split_and!; try done. by eapply Forall_lookup_1 in Hf.
Qed.

(** The call [f] on [m] does to the entry [k] what [r] says, and nothing else. *)
Definition implements {A} (f : call manager A) (m : manager) (k : key) (r : reply A) : Prop :=
  let '(c, out, result) := r in
  exists m', f m = Some (Ret (m', result)) /\ effect m m' k c out (inbox (dev m)).

Lemma not_connected {A} (m : manager) k : mgr_ok m -> conn m k = None -> implements (A := A) (error NotConnected) m k (refuse NotConnected None).
Proof. intros Hm Hc. exists m. split; [done|]. rewrite <- Hc. by apply effect_nothing. Qed.

(** A call that finds its connection first. *)
Lemma find_implements {A} (f : nat * Connection -> call manager A) m k (g : option sconn -> reply A) : mgr_ok m ->
  g None = refuse NotConnected None ->
  (forall i c, conn m k = Some (abs_conn c) -> connections m !! i = Some c -> conn_key c = k -> ring_ok (cap m) (buffer c) ->
     implements (f (i, c)) m k (g (Some (abs_conn c)))) ->
  implements (let? p := find_connection (fst k) (snd k) in f p)%call m k (g (conn m k)).
Proof.
  intros Hm Hg Hf. pose proof (find_run k m (mo_conns _ Hm)) as HF. destruct (conn m k) as [s|] eqn:Ec.
  - destruct HF as (i & c & HE & _ & Hi & Hk & -> & Hr). specialize (Hf i c eq_refl Hi Hk Hr). unfold implements, and_then in *.
    rewrite HE. exact Hf.
  - rewrite Hg. pose proof (not_connected (A := A) m k Hm Ec) as HN. unfold implements, and_then in *. cbn in *. by rewrite HF.
Qed.

Lemma mgr_connect_ok m k : mgr_ok m -> implements (connect (fst k) (snd k)) m k (s_connect (cap m) (manager_cid m) k (conn m k)).
Proof.
  intros Hm. pose proof (find_run k m (mo_conns _ Hm)) as HF. unfold connect.
  destruct (conn m k) as [s|] eqn:Ec; cbn [s_connect].
  - destruct HF as (i & c & _ & _ & Hi & Hk & -> & _).
    assert (existsb (fun c => bool_decide (is_for (fst k) (snd k) c)) (connections m) = true) as E.
    { apply existsb_exists. exists c. split; [by apply list_elem_of_In, (list_elem_of_lookup_2 _ i)|]. by apply bool_decide_eq_true, is_for_key. }
    exists m. rewrite E. split; [done|]. rewrite <- Ec. by apply effect_nothing.
  - assert (existsb (fun c => bool_decide (is_for (fst k) (snd k) c)) (connections m) = false) as E.
    { apply not_true_iff_false. intros (c & Hc & Hk%bool_decide_eq_true)%existsb_exists. apply is_for_key in Hk.
      apply fmap_None, lookup_conn_none in Ec; [|apply (mo_conns _ Hm)]. apply Ec. rewrite <- Hk. apply list_elem_of_fmap. exists c.
      split; [done|]. by apply list_elem_of_In. }
    destruct (on_driver_run Request 0 (s_info (s_new (cap m) k)) m (mo_dev _ Hm)) as (d' & Hr & Hs).
    pose proof (mo_cap _ Hm) as Hcap. destruct (ring_new_ok (cap m) Hcap) as [Hro Hrd].
    assert (abs_conn (Connection_new (fst k) (snd k) (cap m)) = s_new (cap m) k) as Ea by done.
    assert (conn_key (Connection_new (fst k) (snd k) (cap m)) = k) as Ek by by destruct k.
    eexists. rewrite E. split.
    + unfold and_then. change (driver_connect _) with (send_op (D := D) Request 0 (s_info (s_new (cap m) k))). rewrite Hr. done.
    + pose proof (effect_push m d' (Connection_new (fst k) (snd k) (cap m)) _ Hm Hs ltac:(by rewrite Ek) Hro) as EF.
      rewrite Ek, Ea in EF. exact EF.
Qed.

Lemma send_op_implements op flags i m k : mgr_ok m ->
  implements (on_driver (send_op op flags i)) m k (conn m k, [(new_header i (manager_cid m) op 0 flags, [])], Ok tt).
Proof.
  intros Hm. destruct (on_driver_run op flags i m (mo_dev _ Hm)) as (d' & E & Hs). eexists. split; [exact E|]. by apply effect_same.
Qed.

Lemma available_ok m k : mgr_ok m -> implements (recv_buffer_available_bytes (fst k) (snd k)) m k (s_available (conn m k)).
Proof.
  intros Hm. apply (find_implements (fun p => ok (rb_used (buffer (snd p))))); [done..|]. intros i c Hc Hi Hk Hr.
  exists m. split; [|rewrite <- Hc; by apply effect_nothing]. unfold ok. cbn. by rewrite (ring_data_len (cap m)).
Qed.
Lemma credit_ok m k : mgr_ok m -> implements (update_credit (fst k) (snd k)) m k (s_credit (manager_cid m) (conn m k)).
Proof.
  intros Hm. apply (find_implements (fun p => on_driver (credit_update (info (snd p))))); [done..|]. intros i c Hc Hi Hk Hr.
  cbn [s_credit]. rewrite <- Hc. by apply send_op_implements.
Qed.
Lemma shutdown_ok m k : mgr_ok m -> implements (shutdown (fst k) (snd k)) m k (s_shutdown (manager_cid m) (conn m k)).
Proof.
  intros Hm. apply (find_implements (fun p => on_driver (driver_shutdown (info (snd p))))); [done..|]. intros i c Hc Hi Hk Hr.
  cbn [s_shutdown]. rewrite <- Hc. by apply send_op_implements.
Qed.

(** Sending a reset and dropping the connection. *)
Lemma reset_run i c m : mgr_ok m -> connections m !! i = Some c ->
  exists m1, on_driver (driver_force_close (info c)) m = Some (Ret (m1, Ok tt))
    /\ effect m (swap_remove_connection i m1) (conn_key c) None [bare Rst 0 (manager_cid m) (abs_conn c)] (inbox (dev m)).
Proof.
  intros Hm Hi. destruct (on_driver_run Rst 0 (info c) m (mo_dev _ Hm)) as (d' & E & Hs). eexists. split; [exact E|].
  by apply effect_remove.
Qed.
Lemma close_ok m k : mgr_ok m -> implements (force_close (fst k) (snd k)) m k (s_close (manager_cid m) (conn m k)).
Proof.
  intros Hm. apply (find_implements (fun p => let? _ := on_driver (driver_force_close (info (snd p))) in modify (swap_remove_connection (fst p)))%call);
    [done..|]. intros i c Hc Hi <- Hr. destruct (reset_run i c m Hm Hi) as (m1 & E & EF).
  eexists. split; [|exact EF]. unfold and_then. cbn [fst snd]. by rewrite E.
Qed.

Lemma mgr_recv_ok m k n : mgr_ok m -> 0 <= n -> implements (recv (fst k) (snd k) n) m k (s_recv (manager_cid m) n (conn m k)).
Proof.
  intros Hm Hn. apply find_implements; [done..|]. intros i c Hc Hi <- Hr. cbn [fst snd].
  destruct (drain_ok (cap m) (buffer c) n Hr Hn) as (b & E & Hb & Hd). unfold implements, s_recv. cbn [s_data abs_conn].
  set (bytes := take (Z.to_nat n) (ring_data (buffer c))) in *.
  set (c' := set_info (done_forwarding (len bytes) (info c)) (set_buffer b c)).
  assert (abs_conn c' = mkSconn (done_forwarding (len bytes) (info c)) (drop (Z.to_nat n) (ring_data (buffer c))) (peer_requested_shutdown c)) as Ec'
    by (unfold abs_conn; cbn; by rewrite Hd).
  pose proof (effect_update m (dev m) i c c' [] Hm (sent_none _ (mo_dev _ Hm)) Hi eq_refl Hb) as EU.
  assert (update_connection i c' (set_driver (mkSocket (dev m) (manager_cid m)) m) = update_connection i c' m) as Eu by by destruct m as [[? ?] ? ? ?].
  rewrite Eu in EU. cbn [s_info s_shut s_data abs_conn].
  assert (is_empty b = bool_decide (drop (Z.to_nat n) (ring_data (buffer c)) = [])) as Ee.
  { unfold is_empty. pose proof (ring_data_len _ _ Hb) as Hl. rewrite Hd in Hl. rewrite <- Hl. apply eq_true_iff_eq.
    rewrite Z.eqb_eq, bool_decide_eq_true. split; [apply len_zero_nil|by intros ->]. }
  rewrite E, <- Ee. cbn [peer_requested_shutdown buffer set_info set_buffer].
  destruct (peer_requested_shutdown c && is_empty b) eqn:Ez.
  - destruct (reset_run i c' (update_connection i c' m) (ef_ok _ _ _ _ _ _ EU)) as (m1 & E1 & EF).
    { apply list_lookup_insert_eq. by eapply lookup_lt_Some. }
    exists (swap_remove_connection i m1). split.
    + unfold and_then, modify at 1. fold c'. by rewrite E1.
    + rewrite Ec' in EF. pose proof (effect_trans _ _ _ _ _ _ _ _ _ _ EU EF) as ET. cbn [app] in ET.
      destruct (ef_rest _ _ _ _ _ _ EU) as (Ecid & _). rewrite Ecid, (ef_in _ _ _ _ _ _ EU) in ET. exact ET.
  - exists (update_connection i c' m). rewrite <- Ec'. split; [|exact EU]. done.
Qed.

Lemma peer_free_range i : 0 <= peer_free i < 2 ^ 32.
Proof. apply wrap_range. lia. Qed.

Lemma send_ok m k bytes : mgr_ok m -> implements (send (fst k) (snd k) bytes) m k (s_send (manager_cid m) bytes (conn m k)).
Proof.
  intros Hm. apply find_implements; [done..|]. intros i c Hc Hi <- Hr. cbn [fst snd]. unfold implements, s_send.
  cbn [s_info abs_conn]. unfold driver_send, check_peer_buffer_is_sufficient. pose proof (peer_free_range (info c)) as Hpf.
  unfold and_then at 1 2. unfold get at 1. cbn [fst]. destruct (Z.leb_spec (len bytes) (peer_free (info c))) as [Hle|Hgt].
  - pose proof (len_nonneg bytes). unfold and_then, ok, get, modify, with_driver. cbn [fst snd]. rewrite (u32_small (len bytes)) by lia.
    destruct (send_packet_run (new_header (info c) (guest_cid (driver m)) Rw (len bytes) 0) bytes (driver m) (mo_dev _ Hm) ltac:(lia)) as (d' & -> & Hs).
    eexists. split; [done|]. cbn [s_set_info s_data s_shut].
    by apply (effect_update m d' i c (set_info (set_tx_cnt (u32 (tx_cnt (info c) + len bytes)) (info c)) c)).
  - destruct (has_pending_credit_request (info c)) eqn:Ep.
    + exists (update_connection i (set_info (info c) c) (set_driver (driver m) m)). split; [done|].
      pose proof (effect_update m (dev m) i c (set_info (info c) c) [] Hm (sent_none _ (mo_dev _ Hm)) Hi eq_refl Hr) as EU.
      unfold refuse. by destruct m as [[? ?] ? ? ?], c.
    + unfold and_then, with_driver, request_credit, send_op.
      destruct (send_packet_run (new_header (info c) (guest_cid (driver m)) CreditRequest 0 0) [] (driver m) (mo_dev _ Hm) ltac:(done)) as (d' & -> & Hs).
      eexists. split; [done|].
      by apply (effect_update m d' i c (set_info (set_pending_credit true (info c)) c)).
Qed.

Lemma answer_ok m i c ev : mgr_ok m -> connections m !! i = Some c -> conn_key c = event_key ev ->
  implements (after_event ev i c) m (event_key ev)
    (s_answer (manager_cid m) (bool_decide (port (e_destination ev) ∈ listening_ports m)) ev (abs_conn c)).
Proof.
  intros Hm Hi Hk. pose proof (proj1 (mo_conns _ Hm)) as Hf. eapply Forall_lookup_1 in Hf; [|exact Hi]. cbn beta in Hf.
  assert (conn m (event_key ev) = Some (abs_conn c)) as Hc.
  { unfold conn. rewrite (proj2 (lookup_conn_spec _ _ c (proj2 (mo_conns _ Hm)))); [done|]. split; [|done]. by eapply list_elem_of_lookup_2. }
  assert (forall r, implements (ok (Some ev)) m (event_key ev) (Some (abs_conn c), [], Ok r) <-> r = Some ev) as Hsame.
  { intros r. split; [intros (m' & [=] & _); congruence|]. intros ->. exists m. split; [done|]. rewrite <- Hc. by apply effect_nothing. }
  unfold after_event, s_answer. destruct (e_type ev) as [| |reason|n| |] eqn:Et; try by apply Hsame.
  - case_bool_decide as Hp.
    + destruct (on_driver_run Response 0 (info c) m (mo_dev _ Hm)) as (d' & E & Hs). eexists. split.
      * rewrite bool_decide_true by done. unfold and_then, accept. rewrite E. done.
      * rewrite <- Hc. by apply effect_same.
    + destruct (reset_run i c m Hm Hi) as (m1 & E & EF). rewrite Hk in EF. eexists. split; [|exact EF].
      rewrite bool_decide_false by done. unfold and_then. by rewrite E.
  - assert (is_empty (buffer c) = match s_data (abs_conn c) with [] => true | _ => false end) as ->.
    { unfold is_empty. rewrite <- (ring_data_len _ _ Hf). cbn. by destruct (ring_data (buffer c)). }
    destruct (s_data (abs_conn c)) as [|x l] eqn:Ed.
    + case_bool_decide as Hr.
      * destruct (reset_run i c m Hm Hi) as (m1 & E & EF). rewrite Hk in EF. eexists. split; [|exact EF].
        unfold and_then. by rewrite E.
      * pose proof (effect_remove m (dev m) i c [] Hm (sent_none _ (mo_dev _ Hm)) Hi) as EF. rewrite Hk in EF.
        exists (swap_remove_connection i m). split; [done|]. by destruct m as [[? ?] ? ? ?].
    + pose proof (effect_update m (dev m) i c (set_shutdown c) [] Hm (sent_none _ (mo_dev _ Hm)) Hi eq_refl Hf) as EF. rewrite Hk in EF.
      exists (update_connection i (set_shutdown c) m). split; [done|]. rewrite <- Ed. by destruct m as [[? ?] ? ? ?].
  - destruct (on_driver_run CreditUpdate 0 (info c) m (mo_dev _ Hm)) as (d' & E & Hs). eexists. split.
    + unfold and_then, credit_update. rewrite E. done.
    + rewrite <- Hc. by apply effect_same.
Qed.

(** The closure of [poll], on the list of connections. *)
Lemma handle_event_ok cp l ev body : 0 < cp < 2 ^ 32 -> conns_ok cp l ->
  let k := event_key ev in
  let cid_ := cid (e_destination ev) in
  match s_start cp k ev (abs_conn <$> lookup_conn l k) with
  | None => handle_event cid_ cp ev body l = Ret (l, Ok None) /\ lookup_conn l k = None
  | Some s =>
      let s := s_set_info (update_for_event ev (s_info s)) s in
      exists l' i c, conns_ok cp l' /\ l' !! i = Some c /\ conn_key c = k
        /\ (forall k', lookup_conn l' k' = if decide (k' = k) then Some c else lookup_conn l k') /\
      match e_type ev with
      | Received n =>
          if len (s_data s) + len body <=? cp
          then handle_event cid_ cp ev body l = Ret (l', Ok (Some ev)) /\ abs_conn c = mkSconn (s_info s) (s_data s ++ body) (s_shut s)
          else handle_event cid_ cp ev body l = Ret (l', Err (SocketDeviceError (OutputBufferTooShort n))) /\ abs_conn c = s
      | _ => handle_event cid_ cp ev body l = Ret (l', Ok (Some ev)) /\ abs_conn c = s
      end
  end.
Proof.
  intros Hcap Hl. cbn zeta. unfold handle_event. rewrite event_connection, Z.eqb_refl. unfold lookup_conn. cbn [fst snd event_key].
  destruct (get_connection l _ _) as [[i c]|] eqn:Eg; cbn [snd fmap option_fmap option_map s_start].
  - apply (get_connection_spec l (event_key ev)) in Eg as [Hi Hk]; [|apply Hl].
    pose proof (proj1 Hl) as Hf. eapply Forall_lookup_1 in Hf; [|exact Hi]. cbn beta in Hf.
    assert (forall b, ring_ok cp b -> let c' := set_buffer b (set_info (update_for_event ev (info c)) c) in
      conns_ok cp (<[i := c']> l) /\ <[i := c']> l !! i = Some c' /\ conn_key c' = event_key ev
      /\ (forall k', lookup_conn (<[i := c']> l) k' = if decide (k' = event_key ev) then Some c' else lookup_conn l k')) as HI.
    { intros b Hb c'. rewrite <- Hk. split; [apply (lookup_insert_conn cp l i c c' (event_key ev) Hl Hi eq_refl Hb)|].
      split; [apply list_lookup_insert_eq; by eapply lookup_lt_Some|]. split; [done|].
      intros k'. apply (lookup_insert_conn cp l i c c' k' Hl Hi eq_refl Hb). }
    cbn [s_data s_set_info abs_conn].
    destruct (e_type ev) as [| |reason|n| |] eqn:Et;
      try (destruct (HI (buffer c) Hf) as (H1 & H2 & H3 & H4); eexists _, i, _; split_and!; [exact H1|exact H2|exact H3|exact H4|..]; by destruct c).
    pose proof (ring_add_ok cp (buffer c) body Hf) as HA. cbn [buffer set_info].
    destruct (len (ring_data (buffer c)) + len body <=? cp).
    + destruct HA as (b & -> & Hb & Hd). destruct (HI b Hb) as (H1 & H2 & H3 & H4). eexists _, i, _.
      split_and!; [exact H1|exact H2|exact H3|exact H4|done|]. unfold abs_conn. cbn. by rewrite Hd.
    + rewrite HA. destruct (HI (buffer c) Hf) as (H1 & H2 & H3 & H4). eexists _, i, _.
      split_and!; [exact H1|exact H2|exact H3|exact H4|done|done].
  - destruct (e_type ev) as [| |reason|n| |] eqn:Et; try by split.
    cbn [negb]. set (c := set_info _ _). destruct (ring_new_ok cp Hcap) as [Hr _].
    assert (conn_key c = event_key ev) as Hk by done.
    assert (lookup_conn l (conn_key c) = None) as HN by (unfold lookup_conn; rewrite Hk; cbn; by rewrite Eg).
    exists (l ++ [c]), (length l), c. rewrite <- Hk.
    split_and!; [apply (lookup_push_conn cp l c (conn_key c) Hl HN Hr)|by rewrite list_lookup_middle|done| | |done].
    + intros k'. apply (lookup_push_conn cp l c k' Hl HN Hr).
    + by rewrite insert_app_r_alt, Nat.sub_diag by lia.
Qed.

(** [f] leaves every connection alone and [inb] to read. *)
Definition idle {A} (f : call manager A) (m : manager) (r : res A) (inb : list (list Z)) : Prop :=
  exists m', f m = Some (Ret (m', r)) /\ forall k, effect m m' k (conn m k) [] inb.

Definition poll_spec (m : manager) : Prop :=
  match inbox (dev m) with
  | [] => idle poll m (Ok None) []
  | p :: rest =>
      match event_of p with
      | Err e => idle poll m (Err e) rest
      | Ok (ev, body) =>
          if cid (e_destination ev) =? manager_cid m then
            let '(c, out, result) := s_event (cap m) (manager_cid m) (bool_decide (port (e_destination ev) ∈ listening_ports m))
                                       (event_key ev) ev body (conn m (event_key ev)) in
            exists m', poll m = Some (Ret (m', result)) /\ effect m m' (event_key ev) c out rest
          else idle poll m (Ok None) rest
      end
  end.

Lemma idle_intro m d' k inb : mgr_ok m -> dev_ok d' -> outbox d' = outbox (dev m) -> inbox d' = inb ->
  effect m (set_connections (connections m) (set_driver (mkSocket d' (manager_cid m)) m)) k (conn m k) [] inb.
Proof.
  intros Hm Hd Ho Hi. refine (effect_intro m d' (connections m) k _ [] inb Hm Hd (mo_conns _ Hm) _ _ Hi).
  - intros k'. by case_decide; subst.
  - cbn. by rewrite app_nil_r.
Qed.

Lemma mgr_poll_ok m : mgr_ok m -> poll_spec m.
Proof.
  intros Hm. pose proof (mo_dev _ Hm) as Hd. unfold poll_spec, idle, poll, driver_poll, owning_poll. cbn [fst snd].
  destruct (inbox (dev m)) as [|p rest] eqn:Ei.
  { destruct (rx_pop_none (dev m) Hd Ei) as (d' & E & Hd' & Hi' & Ho'). unfold dev in E. rewrite E. cbn [mbind outcome_bind].
    eexists. split; [done|]. intros k. by apply idle_intro. }
  destruct (rx_pop_some (dev m) p rest Hd Ei) as (d1 & t & E & Hp & Hi1 & Ho1). unfold dev in E. rewrite E. cbn [mbind outcome_bind].
  destruct (rx_add_ok d1 t Hp) as (d2 & E2 & Hd2 & Hi2 & Ho2). rewrite Hi1 in Hi2. rewrite Ho1 in Ho2. unfold event_of.
  destruct (read_header_and_body p) as [[h body]|e]; [destruct (from_header h) as [ev|e]|]; cbn [mbind outcome_bind]; rewrite ?E2; cbn [mbind outcome_bind].
  2,3: eexists; (split; [done|]); intros k; by apply idle_intro.
  destruct (Z.eqb_spec (cid (e_destination ev)) (manager_cid m)) as [Ec|Ec].
  2:{ unfold handle_event. rewrite event_connection, (proj2 (Z.eqb_neq _ _)) by done. exists (set_connections (connections m) (set_driver (mkSocket d2 (manager_cid m)) m)).
      split; [|intros k; by apply idle_intro]. destruct (e_type ev); done. }
  pose proof (handle_event_ok (cap m) (connections m) ev body (mo_cap _ Hm) (mo_conns _ Hm)) as HH. cbn zeta in HH.
  change (abs_conn <$> lookup_conn (connections m) (event_key ev)) with (conn m (event_key ev)) in HH. rewrite Ec in HH. unfold s_event.
  destruct (s_start _ _ _ _) as [s|] eqn:Es.
  2:{ destruct HH as [-> HN]. cbn [mbind outcome_bind]. rewrite ?E2. cbn [mbind outcome_bind]. eexists. split; [done|].
      rewrite <- (proj2 (fmap_None _ _) HN : conn m (event_key ev) = None). by apply idle_intro. }
  destruct HH as (l' & i & c & Hl' & Hi' & Hk & Hlk & HH).
  set (m2 := set_connections l' (set_driver (mkSocket d2 (guest_cid (driver m))) m)).
  assert (effect m m2 (event_key ev) (Some (abs_conn c)) [] rest) as EF.
  { refine (effect_intro m d2 l' _ _ [] rest Hm Hd2 Hl' _ _ Hi2); [|cbn; by rewrite app_nil_r].
    intros k'. rewrite Hlk. by case_decide. }
  assert (exists m', match get_connection_for_event (connections m2) ev (manager_cid m) with
            | None => Some Panic | Some (i, c) => after_event ev i c m2 end = Some (Ret (m', (s_answer (manager_cid m)
              (bool_decide (port (e_destination ev) ∈ listening_ports m)) ev (abs_conn c)).2))
            /\ effect m m' (event_key ev) (s_answer (manager_cid m) (bool_decide (port (e_destination ev) ∈ listening_ports m)) ev (abs_conn c)).1.1
                 (s_answer (manager_cid m) (bool_decide (port (e_destination ev) ∈ listening_ports m)) ev (abs_conn c)).1.2 rest) as (m' & Em' & EF').
  { rewrite event_connection, Ec, Z.eqb_refl.
    change (get_connection _ _ _) with (get_connection l' (fst (event_key ev)) (snd (event_key ev))). rewrite (proj2 (get_connection_spec l' (event_key ev) i c (proj2 Hl')) (conj Hi' Hk)).
    pose proof (answer_ok m2 i c ev (ef_ok _ _ _ _ _ _ EF) Hi' Hk) as HA. unfold implements in HA.
    change (manager_cid m2) with (manager_cid m) in HA. change (listening_ports m2) with (listening_ports m) in HA.
    destruct (s_answer _ _ _ _) as [[oc out] r]. destruct HA as (m' & -> & EA). exists m'. split; [done|].
    rewrite (ef_in _ _ _ _ _ _ EF) in EA. exact (effect_trans _ _ _ _ _ _ _ _ _ _ EF EA). }
  destruct (e_type ev) as [| |reason|n| |] eqn:Et;
    try (destruct HH as [HE HA]; rewrite HE; cbn [mbind outcome_bind]; rewrite ?E2; cbn [mbind outcome_bind]; fold m2; rewrite Em', <- HA;
         destruct (s_answer _ _ _ _) as [[oc out] r]; by exists m').
  cbn zeta. destruct (len (s_data (s_set_info (update_for_event ev (s_info s)) s)) + len body <=? cap m).
  - destruct HH as [HE HA]; rewrite HE; cbn [mbind outcome_bind]; rewrite ?E2; cbn [mbind outcome_bind]; fold m2; rewrite Em', <- HA.
    destruct (s_answer _ _ _ _) as [[oc out] r]; by exists m'.
  - destruct HH as [HE HA]; rewrite HE; cbn [mbind outcome_bind]; rewrite ?E2; cbn [mbind outcome_bind]; fold m2. exists m2.
    split; [done|]. by rewrite <- HA.
Qed.

End Refine.

(** ** Queues that fail *)

Section Failures.
Context {D : Type} `{SocketDevice D}.
Notation manager := (VsockConnectionManager D).
Notation cap m := (per_connection_buffer_capacity m).

(** The buffers a packet is sent in. *)
Definition tx_pieces (p : packet) : list (list Z) :=
  match snd p with [] => [as_bytes (fst p)] | _ => [as_bytes (fst p); snd p] end.

(** [m'] is [m] with the entry [k] replaced and the device in the state [d]. *)
Record leaves (m m' : manager) (k : key) (c : option sconn) (d : D) : Prop := {
  lv_dev : dev m' = d;
  lv_conns : conns_ok (cap m) (connections m');
  lv_conn k' : conn m' k' = if decide (k' = k) then c else conn m k';
  lv_rest : manager_cid m' = manager_cid m /\ cap m' = cap m /\ listening_ports m' = listening_ports m;
}.
(** When the queue refuses a packet that [r] says is sent, the call returns that
    error and leaves the entry as [c]. *)
Definition refused {A} (f : call manager A) (m : manager) (k : key) (d : D) (p : packet) (c : option sconn) : Prop :=
  forall d' e, tx_send (tx_pieces p) d = Some (Ret (d', VErr e)) ->
    exists m', f m = Some (Ret (m', Err (QueueError e))) /\ leaves m m' k c d'.
Definition unsent {A} (f : call manager A) (m : manager) (k : key) (r : reply A) (c : option sconn) : Prop :=
  forall p, p ∈ snd (fst r) -> refused f m k (dev m) p c.

(** What is left of a connection whose packet was refused: a [send] has already
    counted its bytes as sent, and a [recv] has taken its bytes out of the
    buffer; a request for credit is not pending. *)
Definition u_send (bytes : list Z) (c : option sconn) : option sconn :=
  (fun s => if len bytes <=? peer_free (s_info s)
            then s_set_info (set_tx_cnt (u32 (tx_cnt (s_info s) + len bytes)) (s_info s)) s else s) <$> c.
Definition u_recv (n : Z) (c : option sconn) : option sconn :=
  (fun s => mkSconn (done_forwarding (len (take (Z.to_nat n) (s_data s))) (s_info s)) (drop (Z.to_nat n) (s_data s)) (s_shut s)) <$> c.
(** An event that was noted and not answered: the connection stays, also one that
    only the event made. *)
Definition u_event (cap : Z) (k : key) (ev : VsockEvent) (body : list Z) (c : option sconn) : option sconn :=
  (fun s =>
     let i := update_for_event ev (s_info s) in
     match e_type ev with
     | Received _ => if len (s_data s) + len body <=? cap then mkSconn i (s_data s ++ body) (s_shut s) else s_set_info i s
     | _ => s_set_info i s
     end) <$> s_start cap k ev c.

Definition poll_failures (m : manager) : Prop :=
  (forall d e, rx_pop (dev m) = Ret (d, VErr e) ->
     exists m', poll m = Some (Ret (m', Err (QueueError e))) /\ forall k, leaves m m' k (conn m k) d) /\
  (forall d1 p t d2 r, rx_pop (dev m) = Ret (d1, VOk (Some (p, t))) -> rx_add t d1 = Ret (d2, r) ->
     let ignored := forall e, r = VErr e -> exists m', poll m = Some (Ret (m', Err (QueueError e))) /\ forall k, leaves m m' k (conn m k) d2 in
     match event_of p with
     | Err _ => ignored
     | Ok (ev, body) =>
         if cid (e_destination ev) =? manager_cid m then
           let k := event_key ev in
           let c := u_event (cap m) k ev body (conn m k) in
           (forall e, r = VErr e -> exists m', poll m = Some (Ret (m', Err (QueueError e))) /\ leaves m m' k c d2) /\
           (r = VOk tt -> forall p',
              p' ∈ snd (fst (s_event (cap m) (manager_cid m) (bool_decide (port (e_destination ev) ∈ listening_ports m)) k ev body (conn m k))) ->
              refused poll m k d2 p' c)
         else ignored
     end).

Lemma leaves_intro m d l k c : conns_ok (cap m) l -> (forall k', abs_conn <$> lookup_conn l k' = if decide (k' = k) then c else conn m k') ->
  leaves m (mkManager (mkSocket d (manager_cid m)) (cap m) l (listening_ports m)) k c d.
Proof. intros Hl Hc. by split. Qed.
Lemma leaves_same m d k : conns_ok (cap m) (connections m) -> leaves m (set_driver (mkSocket d (manager_cid m)) m) k (conn m k) d.
Proof. intros Hl. apply leaves_intro; [done|]. intros k'. by case_decide; subst. Qed.
Lemma leaves_update m d i c c' : conns_ok (cap m) (connections m) -> connections m !! i = Some c -> conn_key c' = conn_key c ->
  ring_ok (cap m) (buffer c') ->
  leaves m (update_connection i c' (set_driver (mkSocket d (manager_cid m)) m)) (conn_key c) (Some (abs_conn c')) d.
Proof.
  intros Hl Hc Hk Hr. pose proof (fun k => lookup_insert_conn _ _ i c c' k Hl Hc Hk Hr) as HI.
  apply (leaves_intro m d (<[i := c']> (connections m))); [exact (proj1 (HI (conn_key c)))|].
  intros k'. etrans; [exact (f_equal (fmap abs_conn) (proj2 (HI k')))|]. by case_decide.
Qed.

Lemma send_packet_refused h body (s : VirtIOSocket D) d e : tx_send (tx_pieces (h, body)) (device s) = Some (Ret (d, VErr e)) ->
  send_packet_to_tx_queue h body s = Some (Ret (mkSocket d (guest_cid s), Err (QueueError e))).
Proof. intros E. unfold send_packet_to_tx_queue. change (match body with [] => _ | _ => _ end) with (tx_pieces (h, body)). by rewrite E. Qed.
Lemma send_op_refused op flags i m d e : tx_send (tx_pieces (new_header i (manager_cid m) op 0 flags, [])) (dev m) = Some (Ret (d, VErr e)) ->
  on_driver (send_op op flags i) m = Some (Ret (set_driver (mkSocket d (manager_cid m)) m, Err (QueueError e))).
Proof. intros E. unfold on_driver, send_op. apply send_packet_refused in E. unfold manager_cid in *. by rewrite E. Qed.
(** A call that finds its connection first. *)
Lemma find_unsent {A} (f : nat * Connection -> call manager A) m k (g : option sconn -> reply A) (u : option sconn -> option sconn) :
  conns_ok (cap m) (connections m) -> snd (fst (g None)) = [] ->
  (forall i c, conn m k = Some (abs_conn c) -> connections m !! i = Some c -> conn_key c = k -> ring_ok (cap m) (buffer c) ->
     unsent (f (i, c)) m k (g (Some (abs_conn c))) (u (Some (abs_conn c)))) ->
  unsent (let? p := find_connection (fst k) (snd k) in f p)%call m k (g (conn m k)) (u (conn m k)).
Proof.
  intros Hm Hg Hf. pose proof (find_run k m Hm) as HF. destruct (conn m k) as [s|] eqn:Ec.
  - destruct HF as (i & c & HE & _ & Hi & Hk & -> & Hr). specialize (Hf i c eq_refl Hi Hk Hr). unfold unsent, refused, and_then in *.
    rewrite HE. exact Hf.
  - intros p. rewrite Hg. by intros ?%elem_of_nil.
Qed.

Lemma connect_unsent m k : conns_ok (cap m) (connections m) ->
  unsent (connect (fst k) (snd k)) m k (s_connect (cap m) (manager_cid m) k (conn m k)) (conn m k).
Proof.
  intros Hm p. destruct (conn m k) as [s|] eqn:Ec; cbn [s_connect refuse fst snd]; [by intros ?%elem_of_nil|].
  intros ->%list_elem_of_singleton d e E. unfold connect.
  assert (existsb (fun c => bool_decide (is_for (fst k) (snd k) c)) (connections m) = false) as ->.
  { apply not_true_iff_false. intros (c & Hc & Hk%bool_decide_eq_true)%existsb_exists. apply is_for_key in Hk.
    apply fmap_None, lookup_conn_none in Ec; [|apply Hm]. apply Ec. rewrite <- Hk. apply list_elem_of_fmap. exists c.
    split; [done|]. by apply list_elem_of_In. }
  apply send_op_refused in E. unfold and_then. change (driver_connect _) with (send_op (D := D) Request 0 (s_info (s_new (cap m) k))).
  rewrite E. eexists. split; [done|]. rewrite <- Ec. by apply leaves_same.
Qed.

Lemma send_op_unsent op flags i m k r : conns_ok (cap m) (connections m) ->
  unsent (on_driver (send_op op flags i)) m k (r, [(new_header i (manager_cid m) op 0 flags, [])], Ok tt) (conn m k).
Proof.
  intros Hm p ->%list_elem_of_singleton d e E. apply send_op_refused in E. rewrite E. eexists. split; [done|]. by apply leaves_same.
Qed.
Lemma credit_unsent m k : conns_ok (cap m) (connections m) ->
  unsent (update_credit (fst k) (snd k)) m k (s_credit (manager_cid m) (conn m k)) (conn m k).
Proof.
  intros Hm. apply (find_unsent (fun p => on_driver (credit_update (info (snd p)))) m k (s_credit (manager_cid m)) (fun c => c)); [done..|].
  intros i c Hc Hi Hk Hr. rewrite <- Hc at 2. by apply send_op_unsent.
Qed.
Lemma shutdown_unsent m k : conns_ok (cap m) (connections m) ->
  unsent (shutdown (fst k) (snd k)) m k (s_shutdown (manager_cid m) (conn m k)) (conn m k).
Proof.
  intros Hm. apply (find_unsent (fun p => on_driver (driver_shutdown (info (snd p)))) m k (s_shutdown (manager_cid m)) (fun c => c)); [done..|].
  intros i c Hc Hi Hk Hr. rewrite <- Hc at 2. by apply send_op_unsent.
Qed.
Lemma close_unsent m k : conns_ok (cap m) (connections m) ->
  unsent (force_close (fst k) (snd k)) m k (s_close (manager_cid m) (conn m k)) (conn m k).
Proof.
  intros Hm. apply (find_unsent (fun p => let? _ := on_driver (driver_force_close (info (snd p))) in modify (swap_remove_connection (fst p)))%call
    m k (s_close (manager_cid m)) (fun c => c)); [done..|].
  intros i c Hc Hi Hk Hr p ->%list_elem_of_singleton d e E. apply send_op_refused in E. unfold and_then. cbn [snd s_info abs_conn] in *.
  change (driver_force_close (info c)) with (send_op (D := D) Rst 0 (info c)). rewrite E. eexists. split; [done|]. rewrite <- Hc. by apply leaves_same.
Qed.

Lemma recv_unsent m k n : conns_ok (cap m) (connections m) -> 0 <= n ->
  unsent (recv (fst k) (snd k) n) m k (s_recv (manager_cid m) n (conn m k)) (u_recv n (conn m k)).
Proof.
  intros Hm Hn. apply find_unsent; [done..|]. intros i c Hc Hi <- Hr p. cbn [fst snd].
  destruct (drain_ok (cap m) (buffer c) n Hr Hn) as (b & E & Hb & Hd). cbn [s_recv s_data s_info s_shut abs_conn].
  destruct (peer_requested_shutdown c && bool_decide (drop (Z.to_nat n) (ring_data (buffer c)) = [])) eqn:Ez; cbn [fst snd]; [|by intros ?%elem_of_nil].
  apply andb_true_iff in Ez as [Ez1 Ez2%bool_decide_eq_true].
  intros ->%list_elem_of_singleton d e Et. rewrite E. cbn [peer_requested_shutdown buffer set_info set_buffer]. unfold and_then, modify at 1.
  set (c' := set_info _ _).
  assert (is_empty b = true) as ->.
  { unfold is_empty. rewrite <- (ring_data_len _ _ Hb), Hd, Ez2. done. }
  rewrite Ez1. cbn [andb]. apply (send_op_refused Rst 0 _ (update_connection i c' m)) in Et.
  cbn [s_info] in Et.
  change (driver_force_close _) with (send_op (D := D) Rst 0 (done_forwarding (len (take (Z.to_nat n) (ring_data (buffer c)))) (info c))). rewrite Et. eexists. split; [done|].
  pose proof (leaves_update m d i c c' Hm Hi eq_refl Hb) as HL. unfold abs_conn in HL. cbn [c' set_info set_buffer buffer info peer_requested_shutdown] in HL.
  rewrite Hd in HL. exact HL.
Qed.

Lemma send_unsent m k bytes : conns_ok (cap m) (connections m) ->
  unsent (send (fst k) (snd k) bytes) m k (s_send (manager_cid m) bytes (conn m k)) (u_send bytes (conn m k)).
Proof.
  intros Hm. apply find_unsent; [done..|]. intros i c Hc Hi <- Hr p. cbn [fst snd].
  cbn [s_send u_send s_info abs_conn fmap option_fmap option_map]. unfold driver_send, check_peer_buffer_is_sufficient. pose proof (peer_free_range (info c)) as Hpf.
  destruct (Z.leb_spec (len bytes) (peer_free (info c))) as [Hle|Hgt].
  - pose proof (len_nonneg bytes). intros ->%list_elem_of_singleton d e E. unfold and_then, ok, get, modify, with_driver. cbn [fst snd].
    rewrite (proj2 (Z.leb_le _ _) Hle), (u32_small (len bytes)) by lia. cbn match beta. cbn [fst snd]. apply (send_packet_refused _ _ (driver m)) in E. unfold manager_cid in E. cbn [s_info abs_conn] in E. rewrite E.
    eexists. split; [done|]. by apply (leaves_update m d i c (set_info (set_tx_cnt (u32 (tx_cnt (info c) + len bytes)) (info c)) c)).
  - destruct (has_pending_credit_request (info c)) eqn:Ep; [by intros ?%elem_of_nil|].
    intros ->%list_elem_of_singleton d e E. unfold and_then, get, with_driver, request_credit, send_op. cbn [fst snd].
    rewrite (proj2 (Z.leb_gt _ _) Hgt), Ep. cbn match beta. cbn [fst snd]. apply (send_packet_refused _ _ (driver m)) in E. unfold manager_cid in E. cbn [s_info abs_conn] in E. rewrite E.
    eexists. split; [done|]. pose proof (leaves_update m d i c (set_info (info c) c) Hm Hi eq_refl Hr) as HL. by destruct c.
Qed.

Lemma answer_unsent m i c ev : conns_ok (cap m) (connections m) -> connections m !! i = Some c -> conn_key c = event_key ev ->
  unsent (after_event ev i c) m (event_key ev)
    (s_answer (manager_cid m) (bool_decide (port (e_destination ev) ∈ listening_ports m)) ev (abs_conn c)) (conn m (event_key ev)).
Proof.
  intros Hm Hi Hk p. pose proof (proj1 Hm) as Hf. eapply Forall_lookup_1 in Hf; [|exact Hi]. cbn beta in Hf.
  unfold after_event, s_answer. destruct (e_type ev) as [| |reason|n| |] eqn:Et; try by intros ?%elem_of_nil.
  - case_bool_decide as Hp; intros ->%list_elem_of_singleton d e E; apply send_op_refused in E; unfold and_then, accept, driver_force_close;
      rewrite ?(bool_decide_true _ Hp), ?(bool_decide_false _ Hp); cbn [s_info abs_conn] in E; rewrite E; eexists; (split; [done|]); by apply leaves_same.
  - assert (is_empty (buffer c) = match s_data (abs_conn c) with [] => true | _ => false end) as ->.
    { unfold is_empty. rewrite <- (ring_data_len _ _ Hf). cbn. by destruct (ring_data (buffer c)). }
    destruct (s_data (abs_conn c)) as [|x l] eqn:Ed; [|by intros ?%elem_of_nil]. case_bool_decide as Hr; [|by intros ?%elem_of_nil].
    intros ->%list_elem_of_singleton d e E. apply send_op_refused in E. unfold and_then, driver_force_close. cbn [s_info abs_conn] in E. rewrite E.
    eexists. split; [done|]. by apply leaves_same.
  - intros ->%list_elem_of_singleton d e E. apply send_op_refused in E. unfold and_then, credit_update. cbn [s_info abs_conn] in E. rewrite E.
    eexists. split; [done|]. by apply leaves_same.
Qed.

(** What the closure of [poll] notes. *)
Lemma handle_noted cp l ev body cid_ listening : 0 < cp < 2 ^ 32 -> conns_ok cp l -> cid (e_destination ev) = cid_ ->
  let k := event_key ev in
  let c0 := abs_conn <$> lookup_conn l k in
  exists l' r, handle_event cid_ cp ev body l = Ret (l', r) /\ conns_ok cp l'
    /\ (forall k', abs_conn <$> lookup_conn l' k' = if decide (k' = k) then u_event cp k ev body c0 else abs_conn <$> lookup_conn l k')
    /\ (snd (fst (s_event cp cid_ listening k ev body c0)) = [] \/
        r = Ok (Some ev) /\ exists i c, l' !! i = Some c /\ conn_key c = k /\ s_event cp cid_ listening k ev body c0 = s_answer cid_ listening ev (abs_conn c)).
Proof.
  intros Hcp Hl <-. pose proof (handle_event_ok cp l ev body Hcp Hl) as HH. cbn zeta in *. unfold u_event, s_event.
  destruct (s_start _ _ _ _) as [s|] eqn:Es.
  2:{ destruct HH as [-> HN]. eexists l, _. split_and!; [done..| |by left]. intros k'. case_decide as E; [|done]. subst k'. by rewrite HN. }
  destruct HH as (l' & i & c & Hl' & Hi & Hk & Hlk & HH). cbn [fmap option_fmap option_map].
  assert (forall x, abs_conn c = x -> forall k', abs_conn <$> lookup_conn l' k' = if decide (k' = event_key ev) then Some x else abs_conn <$> lookup_conn l k') as HL.
  { intros x <- k'. rewrite Hlk. by case_decide. }
  destruct (e_type ev) as [| |reason|n| |] eqn:Et; cbn [s_data s_set_info] in *;
    try (destruct HH as [-> HA]; eexists l', _; split_and!; [done..|by apply HL|right]; split; [done|]; exists i, c; by rewrite HA).
  destruct (len (s_data s) + len body <=? cp); destruct HH as [-> HA]; (eexists l', _; split_and!; [done..|by apply HL|]); [right|by left].
  split; [done|]. exists i, c. by rewrite HA.
Qed.

Lemma poll_unsent m : 0 < cap m < 2 ^ 32 -> conns_ok (cap m) (connections m) -> poll_failures m.
Proof.
  intros Hcap Hm. assert (forall d k, leaves m (set_connections (connections m) (set_driver (mkSocket d (manager_cid m)) m)) k (conn m k) d) as Hidle.
  { intros d k. exact (leaves_same m d k Hm). }
  split.
  { intros d e E. unfold poll, driver_poll, owning_poll. cbn [fst snd]. unfold dev in E. rewrite E. cbn [mbind outcome_bind].
    eexists. split; [done|]. intros k. apply Hidle. }
  intros d1 p t d2 r E1 E2. cbn zeta. unfold refused, poll, driver_poll, owning_poll, event_of. cbn [fst snd]. unfold dev in E1. rewrite E1. cbn [mbind outcome_bind].
  destruct (read_header_and_body p) as [[h body]|e0]; [destruct (from_header h) as [ev|e0]|]; cbn [mbind outcome_bind].
  2,3: rewrite E2; cbn [mbind outcome_bind]; intros e ->; eexists; (split; [done|]); intros k; apply Hidle.
  destruct (Z.eqb_spec (cid (e_destination ev)) (manager_cid m)) as [Ec|Ec].
  2:{ unfold handle_event. rewrite event_connection, (proj2 (Z.eqb_neq _ _)) by done. cbn [mbind outcome_bind]. intros e ->.
      exists (set_connections (connections m) (set_driver (mkSocket d2 (manager_cid m)) m)). split; [|intros k; apply Hidle].
      destruct (e_type ev); cbn [negb mbind outcome_bind]; rewrite E2; done. }
  destruct (handle_noted (cap m) (connections m) ev body (manager_cid m) (bool_decide (port (e_destination ev) ∈ listening_ports m)) Hcap Hm Ec)
    as (l' & res & HE & Hl' & HL & Hout).
  change (abs_conn <$> lookup_conn (connections m) (event_key ev)) with (conn m (event_key ev)) in *.
  set (m2 := set_connections l' (set_driver (mkSocket d2 (guest_cid (driver m))) m)).
  assert (leaves m m2 (event_key ev) (u_event (cap m) (event_key ev) ev body (conn m (event_key ev))) d2) as HL2 by exact (leaves_intro m d2 l' _ _ Hl' HL).
  rewrite HE. cbn [mbind outcome_bind]. rewrite E2. cbn [mbind outcome_bind]. split; [intros e ->; by exists m2|]. intros -> p' Hp'.
  destruct Hout as [Hout|(-> & i & c & Hi & Hk & Hs)]; [rewrite Hout in Hp'; by apply elem_of_nil in Hp'|]. rewrite Hs in Hp'.
  intros d' e Et. fold m2. change (connections m2) with l'. rewrite event_connection, Ec, Z.eqb_refl.
  change (get_connection _ _ _) with (get_connection l' (fst (event_key ev)) (snd (event_key ev))).
  rewrite (proj2 (get_connection_spec l' (event_key ev) i c (proj2 Hl')) (conj Hi Hk)).
  destruct (answer_unsent m2 i c ev Hl' Hi Hk p' Hp' d' e Et) as (m' & Em & [A1 A2 A3 A4]). exists m'. split; [exact Em|].
  split; [done|done| |exact A4]. intros k'. rewrite A3, !(lv_conn _ _ _ _ _ HL2).
  destruct (decide (k' = event_key ev)) as [->|E]; rewrite ?decide_True by done; done.
Qed.

(** C39.  The connection manager implements a map from pairs of peer address and
    local port to independent connections.

    As long as the queues keep the promises of [SocketLaws] -- which [VsockDevice]
    proves of the driver's own queues -- every call returns; it does to its own
    connection, and answers and sends, exactly what the specification of that
    call says, every refusal of the manager included; no other connection
    changes.  A poll takes one packet from the device, whatever its bytes: a
    malformed one is reported, one for nobody is dropped, and one for a
    connection is handled as that connection's event.  A request for a
    connection that exists is an event like any other, and not ignored as a
    comment in [poll] says: it is accepted again, or the connection is reset if
    the port is no longer listened on.

    When a queue fails, whatever the queues promise otherwise: the call returns
    the queue's error, no other connection changes, and its own is left as
    [u_send], [u_recv] and [u_event] say.  In particular a refused [connect]
    leaves no connection, a refused [force_close] leaves it open, and a refused
    [send] has used its credit. *)
Theorem manager_refines_map m k : 0 < cap m < 2 ^ 32 -> conns_ok (cap m) (connections m) ->
  (forall HL : SocketLaws D, dev_ok (dev m) ->
    implements (connect (fst k) (snd k)) m k (s_connect (cap m) (manager_cid m) k (conn m k))
    /\ (forall bytes, implements (send (fst k) (snd k) bytes) m k (s_send (manager_cid m) bytes (conn m k)))
    /\ (forall n, 0 <= n -> implements (recv (fst k) (snd k) n) m k (s_recv (manager_cid m) n (conn m k)))
    /\ implements (recv_buffer_available_bytes (fst k) (snd k)) m k (s_available (conn m k))
    /\ implements (update_credit (fst k) (snd k)) m k (s_credit (manager_cid m) (conn m k))
    /\ implements (shutdown (fst k) (snd k)) m k (s_shutdown (manager_cid m) (conn m k))
    /\ implements (force_close (fst k) (snd k)) m k (s_close (manager_cid m) (conn m k))
    /\ poll_spec m)
  /\ unsent (connect (fst k) (snd k)) m k (s_connect (cap m) (manager_cid m) k (conn m k)) (conn m k)
  /\ (forall bytes, unsent (send (fst k) (snd k) bytes) m k (s_send (manager_cid m) bytes (conn m k)) (u_send bytes (conn m k)))
  /\ (forall n, 0 <= n -> unsent (recv (fst k) (snd k) n) m k (s_recv (manager_cid m) n (conn m k)) (u_recv n (conn m k)))
  /\ unsent (update_credit (fst k) (snd k)) m k (s_credit (manager_cid m) (conn m k)) (conn m k)
  /\ unsent (shutdown (fst k) (snd k)) m k (s_shutdown (manager_cid m) (conn m k)) (conn m k)
  /\ unsent (force_close (fst k) (snd k)) m k (s_close (manager_cid m) (conn m k)) (conn m k)
  /\ poll_failures m.
Proof.
  intros Hcap Hc. split.
  - intros HL Hd. assert (mgr_ok m) as Hm by by split. split_and!.
    + by apply mgr_connect_ok.
    + intros bytes. by apply send_ok.
    + intros n Hn. by apply mgr_recv_ok.
    + by apply available_ok.
    + by apply credit_ok.
    + by apply shutdown_ok.
    + by apply close_ok.
    + by apply mgr_poll_ok.
  - split_and!.
    + by apply connect_unsent.
    + intros bytes. by apply send_unsent.
    + intros n Hn. by apply recv_unsent.
    + by apply credit_unsent.
    + by apply shutdown_unsent.
    + by apply close_unsent.
    + by apply poll_unsent.
Qed.
End Failures.
