(* ===== verification/VsockPair.v ===== *)
(** * One virtio socket connection between two managers

    The two ends of a connection as the specification of [VsockProps] has them,
    and the packets of the connection on their way between them, in order.  The
    invariant says that no byte is lost, duplicated or reordered, and that the
    credit the ends give each other is never exceeded. *)

From S2P Require Import Prelude Virtqueue Vsock VsockManager VsockProps.
Open Scope mach_scope.

(** A value for each end. *)
Record two (A : Type) := mkTwo { at_false : A; at_true : A }.
Arguments mkTwo {A} at_false at_true.
Definition tget {A} (t : two A) (x : bool) : A := let 'mkTwo a b := t in if x then b else a.
Coercion tget : two >-> Funclass.
Definition bupd {A} (t : two A) (x : bool) (v : A) : two A :=
  let 'mkTwo a b := t in if x then mkTwo a v else mkTwo v b.

Section Pair.
(** The addresses of the ends ([false] asked for the connection) and their
    buffer capacities. *)
Variable addr : bool -> VsockAddr.
Variable cap : bool -> Z.
Hypothesis addr_ok : forall x, 0 <= cid (addr x) < 2 ^ 64 /\ 0 <= port (addr x) < 2 ^ 32.
Hypothesis cap_ok : forall x, 0 < cap x < 2 ^ 32.

Definition pair_key (x : bool) : key := (addr (negb x), port (addr x)).

(** [psent x] and [pgot x]: what [x] sent and what it received; [pk x]: the
    packets on their way from [x]. *)
Record pair := mkPair {
  pc : two (option sconn);
  psent : two (list Z);
  pgot : two (list Z);
  pk : two (list packet);
}.

(** A call of [x] with the given reply, sending and receiving bytes. *)
Definition pair_call {A} (x : bool) (r : reply A) (tx rx : list Z) (s : pair) : pair :=
  mkPair (bupd (pc s) x (fst (fst r))) (bupd (psent s) x (psent s x ++ tx)) (bupd (pgot s) x (pgot s x ++ rx))
    (bupd (pk s) x (pk s x ++ snd (fst r))).
Definition sent_of {A} (r : reply A) (bytes : list Z) : list Z := match snd r with Ok _ => bytes | Err _ => [] end.
Definition got_of (r : reply (list Z)) : list Z := match snd r with Ok b => b | Err _ => [] end.
Definition with_len (n : Z) (h : VirtioVsockHdr) : VirtioVsockHdr :=
  mkHdr (h_src_cid h) (h_dst_cid h) (h_src_port h) (h_dst_port h) n (h_socket_type h) (h_op h) (h_flags h) (h_buf_alloc h) (h_fwd_cnt h).

Inductive pair_step : pair -> pair -> Prop :=
  | ps_send x bytes s : let r := s_send (cid (addr x)) bytes (pc s x) in
      pair_step s (pair_call x r (sent_of r bytes) [] s)
  | ps_recv x n s : 0 <= n -> let r := s_recv (cid (addr x)) n (pc s x) in
      pair_step s (pair_call x r [] (got_of r) s)
  | ps_credit x s : pair_step s (pair_call x (s_credit (cid (addr x)) (pc s x)) [] [] s)
  | ps_shutdown x s : pair_step s (pair_call x (s_shutdown (cid (addr x)) (pc s x)) [] [] s)
  | ps_close x s : pair_step s (pair_call x (s_close (cid (addr x)) (pc s x)) [] [] s)
  | ps_event x listening h body rest ev s :
      pk s (negb x) = (h, body) :: rest -> from_header h = Ok ev ->
      pair_step s (pair_call x (s_event (cap x) (cid (addr x)) listening (pair_key x) ev body (pc s x)) [] []
                     (mkPair (pc s) (psent s) (pgot s) (bupd (pk s) (negb x) rest)))
  | ps_split x k1 h body k2 n s :
      pk s x = k1 ++ (h, body) :: k2 -> h_op h = op_code Rw -> 0 <= n <= len body ->
      pair_step s (mkPair (pc s) (psent s) (pgot s)
        (bupd (pk s) x (k1 ++ (with_len n h, take (Z.to_nat n) body) :: (with_len (len body - n) h, drop (Z.to_nat n) body) :: k2))).

(** ** The invariant *)

(** A packet of the connection, sent by [x]. *)
Record pkt_ok (x : bool) (p : packet) : Prop := {
  po_hdr : hdr_ok (fst p);
  po_ends : source (fst p) = addr x /\ destination (fst p) = addr (negb x);
  po_len : h_len (fst p) = len (snd p);
  po_op : exists op, h_op (fst p) = op_code op /\ op <> Invalid /\ (op <> Rw -> snd p = []);
  po_cap : h_buf_alloc (fst p) = cap x;
}.
Definition is_request (p : packet) : Prop := h_op (fst p) = op_code Request.
Definition flight (k : list packet) : list Z := concat (snd <$> k).

(** The forward counts of the packets [k], from one known to be at least [f],
    never decrease and end at most at [g]. *)
Fixpoint counts (f : Z) (k : list packet) (g : Z) : Prop :=
  match k with
  | [] => f <= g
  | p :: k => exists f', f <= f' /\ h_fwd_cnt (fst p) = f' mod 2 ^ 32 /\ counts f' k g
  end.

(** The request of the connection is still on its way. *)
Definition waiting (s : pair) : Prop := exists p k, pk s false = p :: k /\ is_request p.

(** What [x] knows of its own connection, and of [negb x] by the packets it has seen. *)
Record end_ok (s : pair) (x : bool) (c : sconn) : Prop := {
  eo_key : dst (s_info c) = addr (negb x) /\ src_port (s_info c) = port (addr x);
  eo_cap : buf_alloc (s_info c) = cap x;
  eo_fwd : fwd_cnt (s_info c) = len (pgot s x) mod 2 ^ 32;
  eo_tx : tx_cnt (s_info c) = len (psent s x) mod 2 ^ 32;
  eo_credit : exists f, 0 <= f /\ peer_fwd_cnt (s_info c) = f mod 2 ^ 32 /\ 0 <= peer_buf_alloc (s_info c) <= cap (negb x)
    /\ len (psent s x) - f <= peer_buf_alloc (s_info c) /\ counts f (pk s (negb x)) (len (pgot s (negb x)));
  eo_data : pgot s x ++ s_data c ++ flight (pk s (negb x)) = psent s (negb x);
}.

Record pair_ok (s : pair) : Prop := {
  pp_pkts x : Forall (pkt_ok x) (pk s x);
  pp_request : (forall p, p ∈ pk s true -> ~ is_request p) /\ (forall p, p ∈ tail (pk s false) -> ~ is_request p);
  pp_waiting : waiting s -> pc s true = None /\ psent s true = [] /\ pgot s true = [] /\ pgot s false = [] /\ pk s true = []
    /\ flight (pk s false) = psent s false;
  pp_end x c : pc s x = Some c -> end_ok s x c;
  pp_counts x : exists f, 0 <= f /\ counts f (pk s x) (len (pgot s x));
  pp_prefix x : pgot s (negb x) `prefix_of` psent s x;
  pp_bound x : len (psent s x) <= len (pgot s (negb x)) + cap (negb x);
}.

Lemma bupd_eq {A} (t : two A) x v : bupd t x v x = v.
Proof. by destruct t, x. Qed.
Lemma bupd_negb {A} (t : two A) x v : bupd t x v (negb x) = t (negb x).
Proof. by destruct t, x. Qed.
Lemma bupd_negb' {A} (t : two A) x v : bupd t (negb x) v x = t x.
Proof. by destruct t, x. Qed.
Lemma bupd_twice {A} (t : two A) x v w : bupd (bupd t x v) x w = bupd t x w.
Proof. by destruct t, x. Qed.
Lemma bupd_same {A} (t : two A) x : bupd t x (t x) = t.
Proof. by destruct t, x. Qed.

Lemma flight_app k k' : flight (k ++ k') = flight k ++ flight k'.
Proof. unfold flight. by rewrite fmap_app, concat_app. Qed.

Lemma counts_le f k g : counts f k g -> f <= g.
Proof. revert f. induction k as [|p k IH]; intros f; [done|]. intros (f' & Hf & _ & Hc). apply IH in Hc. lia. Qed.
Lemma counts_weaken f k g g' : counts f k g -> g <= g' -> counts f k g'.
Proof. revert f. induction k as [|p k IH]; intros f; cbn; [lia|]. intros (f' & Hf & Hp & Hc) Hg. exists f'. split_and!; [done..|]. by apply IH. Qed.
Lemma counts_app f k k' g : counts f k g -> Forall (fun p => h_fwd_cnt (fst p) = g mod 2 ^ 32) k' -> counts f (k ++ k') g.
Proof.
  intros Hc Hk'. revert f Hc. induction k as [|p k IH]; intros f.
  - cbn [app]. intros Hf. cbn in Hf. revert f Hf. induction k' as [|p k' IH']; intros f Hf; [done|]. apply Forall_cons in Hk' as [Hp Hk'].
    exists g. split_and!; [done..|]. by apply IH'.
  - intros (f' & Hf & Hp & Hc). exists f'. split_and!; [done..|]. by apply IH.
Qed.

(** What [peer_free] computes modulo 2^32. *)
Lemma peer_free_exact i t f : tx_cnt i = t mod 2 ^ 32 -> peer_fwd_cnt i = f mod 2 ^ 32 -> 0 <= t - f <= peer_buf_alloc i ->
  peer_buf_alloc i < 2 ^ 32 -> peer_free i = peer_buf_alloc i - (t - f).
Proof.
  intros Ht Hf Hb Ha. unfold peer_free, u32, wrap. rewrite Ht, Hf, <- Zminus_mod, (Z.mod_small (t - f)) by lia.
  apply Z.mod_small. lia.
Qed.

(** ** Calls *)

(** A packet [x] may send when it has received [g] bytes. *)
Definition fresh (x : bool) (g : Z) (p : packet) : Prop :=
  pkt_ok x p /\ ~ is_request p /\ h_fwd_cnt (fst p) = g mod 2 ^ 32.

Lemma both (P : bool -> Prop) x : P x -> P (negb x) -> forall y, P y.
Proof. intros H1 H2 y. by destruct x, y. Qed.

(** A call of [x] on its open connection [c], which takes [rx] out of the buffer
    and sends [out] with the bytes [tx]. *)
Section Call.
Context (s : pair) (x : bool) (c : sconn) (c' : option sconn) (out : list packet) (tx rx d : list Z).
Hypothesis Hs : pair_ok s.
Hypothesis Hc : pc s x = Some c.
Hypothesis Hd : s_data c = rx ++ d.
Hypothesis Hout : Forall (fresh x (len (pgot s x) + len rx)) out.
Hypothesis Htx : flight out = tx.
Hypothesis Hfree : tx = [] \/ len tx <= peer_free (s_info c).
Hypothesis Hc' : forall e, c' = Some e -> s_data e = d /\ dst (s_info e) = dst (s_info c) /\ src_port (s_info e) = src_port (s_info c)
  /\ buf_alloc (s_info e) = buf_alloc (s_info c) /\ fwd_cnt (s_info e) = (len (pgot s x) + len rx) mod 2 ^ 32
  /\ tx_cnt (s_info e) = (len (psent s x) + len tx) mod 2 ^ 32
  /\ peer_fwd_cnt (s_info e) = peer_fwd_cnt (s_info c) /\ peer_buf_alloc (s_info e) = peer_buf_alloc (s_info c).

Let s' : pair := mkPair (bupd (pc s) x c') (bupd (psent s) x (psent s x ++ tx)) (bupd (pgot s) x (pgot s x ++ rx))
  (bupd (pk s) x (pk s x ++ out)).

Lemma call_credit f : peer_fwd_cnt (s_info c) = f mod 2 ^ 32 -> 0 <= peer_buf_alloc (s_info c) <= cap (negb x) ->
  len (psent s x) - f <= peer_buf_alloc (s_info c) -> f <= len (pgot s (negb x)) ->
  len (psent s x) + len tx - f <= peer_buf_alloc (s_info c).
Proof.
  intros Ef Ha Hle Hfg. destruct Hfree as [-> |Hf]; [rewrite len_nil; lia|]. pose proof (cap_ok (negb x)).
  rewrite (peer_free_exact _ (len (psent s x)) f) in Hf; [lia|apply (pp_end _ Hs x c Hc)|done| |lia].
  pose proof (prefix_length _ _ (pp_prefix _ Hs x)). unfold len in *. lia.
Qed.

Lemma call_no_request p : p ∈ out -> ~ is_request p.
Proof. intros Hp. by apply (proj1 (Forall_forall _ _) Hout p Hp). Qed.

Lemma call_counts f : counts f (pk s x) (len (pgot s x)) -> counts f (pk s x ++ out) (len (pgot s x) + len rx).
Proof.
  intros Hf. pose proof (len_nonneg rx). apply counts_app; [eapply counts_weaken; [done|lia]|].
  eapply Forall_impl; [exact Hout|]. by intros p (_ & _ & ?).
Qed.

Lemma call_request : (forall p, p ∈ pk s' true -> ~ is_request p) /\ (forall p, p ∈ tail (pk s' false) -> ~ is_request p).
Proof.
  destruct (pp_request _ Hs) as [R1 R2]. pose proof call_no_request as Hnr. subst s'. cbn [pk]. destruct x; cbn [negb] in *.
  - rewrite bupd_eq, (bupd_negb _ true). split; [|done]. intros p [?|?]%elem_of_app; auto.
  - rewrite bupd_eq, (bupd_negb _ false). split; [done|]. destruct (pk s false) as [|p0 k0]; cbn in *.
    + intros p Hp. apply Hnr. destruct out; [done|]. by right.
    + intros p [?|?]%elem_of_app; auto.
Qed.

Lemma call_waiting : waiting s' -> pc s' true = None /\ psent s' true = [] /\ pgot s' true = [] /\ pgot s' false = [] /\ pk s' true = []
  /\ flight (pk s' false) = psent s' false.
Proof.
  pose proof call_no_request as Hnr. pose proof (eo_data _ _ _ (pp_end _ Hs x c Hc)) as E6. rewrite Hd in E6.
  intros (p & k & Hk & Hp). subst s'. cbn [pc psent pgot pk] in *. destruct x; cbn [negb] in *.
  - rewrite (bupd_negb _ true) in Hk. destruct (pp_waiting _ Hs) as (HN & _); [by exists p, k|]. congruence.
  - rewrite !bupd_eq, !(bupd_negb _ false) in *. destruct (pk s false) as [|p0 k0] eqn:Ek; cbn [app] in Hk.
    { subst out. by specialize (Hnr p ltac:(by left)). }
    injection Hk as -> <-. destruct (pp_waiting _ Hs) as (W1 & W2 & W3 & W4 & W5 & W6); [by exists p, k0|]. rewrite Ek in W6.
    rewrite W2, W4, W5 in E6. apply app_eq_nil in E6 as [_ [[-> _]%app_eq_nil _]%app_eq_nil]. rewrite W4. split_and!; try done.
    by rewrite (flight_app (p :: k0)), Htx, W6.
Qed.

Lemma call_self e : c' = Some e -> end_ok s' x e.
Proof.
  intros He. pose proof (pp_end _ Hs x c Hc) as [[E1 E1'] E2 E3 E4 (f & Hf0 & Ef & Ha & Hle & Hcn) E6]. pose proof (counts_le _ _ _ Hcn) as Hfg.
  destruct (Hc' e He) as (G1 & G2 & G3 & G4 & G5 & G6 & G7 & G8). pose proof (call_credit f Ef Ha Hle Hfg) as Hcr. rewrite Hd in E6. subst s'.
  split; cbn [pc psent pgot pk]; rewrite ?bupd_eq, ?bupd_negb, ?len_app; [split; congruence|congruence|done|done| |].
  - exists f. split_and!; try done; try congruence; lia.
  - by rewrite G1, <- E6, <- !app_assoc.
Qed.

Lemma call_other e : pc s (negb x) = Some e -> end_ok s' (negb x) e.
Proof.
  intros He. destruct (pp_end _ Hs (negb x) e He) as [F1 F2 F3 F4 (f & Hf0 & Ef & Ha & Hle & Hcn) F6]. subst s'. rewrite negb_involutive in *.
  split; cbn [pc psent pgot pk]; rewrite ?negb_involutive, ?bupd_eq, ?bupd_negb, ?len_app; try done.
  - exists f. split_and!; try done; try lia. by apply call_counts.
  - by rewrite flight_app, Htx, <- F6, <- !app_assoc.
Qed.

Lemma call_ok : pair_ok s'.
Proof.
  pose proof (pp_end _ Hs x c Hc) as [_ _ _ _ (f & Hf0 & Ef & Ha & Hle & Hcn) E6]. pose proof (counts_le _ _ _ Hcn) as Hfg.
  pose proof (call_credit f Ef Ha Hle Hfg) as Hcr. pose proof (len_nonneg rx). rewrite Hd in E6.
  split; [|exact call_request|exact call_waiting|..]; (refine (both _ x _ _); cbn [pc psent pgot pk s']; rewrite ?negb_involutive, ?bupd_eq, ?bupd_negb).
  - apply Forall_app. split; [apply Hs|]. eapply Forall_impl; [exact Hout|]. by intros p (? & _).
  - apply Hs.
  - exact call_self.
  - exact call_other.
  - destruct (pp_counts _ Hs x) as (f' & Hf' & Hcx). exists f'. rewrite len_app. split; [done|]. by apply call_counts.
  - apply Hs.
  - apply prefix_app_r, Hs.
  - rewrite <- E6. exists (d ++ flight (pk s (negb x))). by rewrite <- !app_assoc.
  - rewrite len_app. lia.
  - rewrite len_app. pose proof (pp_bound _ Hs (negb x)) as HB. rewrite negb_involutive in HB. lia.
Qed.
End Call.

(** ** Receiving *)

(** [x] takes the oldest packet; its connection, old or new, is then [c] with the
    credit of the packet and the bytes of its body. *)
Section Pop.
Context (s : pair) (x : bool) (h : VirtioVsockHdr) (body : list Z) (rest : list packet).
Hypothesis Hs : pair_ok s.
Hypothesis Hk : pk s (negb x) = (h, body) :: rest.

Lemma pop_no_request p : p ∈ rest -> ~ is_request p.
Proof.
  destruct (pp_request _ Hs) as [R1 R2]. intros Hp. destruct x; cbn [negb] in *; [apply R2|apply R1]; rewrite Hk; [done|by right].
Qed.

Lemma pop_waiting c' : ~ waiting (mkPair (bupd (pc s) x c') (psent s) (pgot s) (bupd (pk s) (negb x) rest)).
Proof.
  pose proof pop_no_request as Hnr. intros (p & k & Ek & Hp). cbn [pk] in Ek. destruct x; cbn [negb] in *.
  - rewrite bupd_eq in Ek. apply (Hnr p); [|done]. rewrite Ek. by left.
  - rewrite (bupd_negb' _ false) in Ek. destruct (pp_waiting _ Hs) as (_ & _ & _ & _ & W & _); [by exists p, k|]. congruence.
Qed.

Lemma pop_ok c' :
  (forall c, c' = Some c -> end_ok (mkPair (bupd (pc s) x c') (psent s) (pgot s) (bupd (pk s) (negb x) rest)) x c) ->
  pair_ok (mkPair (bupd (pc s) x c') (psent s) (pgot s) (bupd (pk s) (negb x) rest)).
Proof.
  intros He. pose proof pop_no_request as Hnr.
  split; [| |intros HW; by apply pop_waiting in HW|..]; try (refine (both _ x _ _); cbn [pc psent pgot pk]; rewrite ?negb_involutive, ?bupd_eq, ?bupd_negb, ?bupd_negb').
  - apply Hs.
  - pose proof (pp_pkts _ Hs (negb x)) as HF. rewrite Hk in HF. by apply Forall_cons in HF as [_ ?].
  - destruct (pp_request _ Hs) as [R1 R2]. cbn [pk]. destruct x; cbn [negb] in *; rewrite bupd_eq.
    + rewrite (bupd_negb' _ true). split; [done|]. intros p Hp. apply Hnr. destruct rest; [done|by right].
    + rewrite (bupd_negb' _ false). by split.
  - exact He.
  - intros e Ee. destruct (pp_end _ Hs (negb x) e Ee) as [F1 F2 F3 F4 F5 F6]. rewrite negb_involutive in *.
    split; cbn [pc psent pgot pk]; rewrite ?negb_involutive, ?bupd_negb'; done.
  - apply Hs.
  - destruct (pp_counts _ Hs (negb x)) as (f & Hf & Hcn). rewrite Hk in Hcn. destruct Hcn as (f' & Hff & _ & Hcn). exists f'. split; [lia|done].
  - apply Hs.
  - pose proof (pp_prefix _ Hs (negb x)) as HP. by rewrite negb_involutive in HP.
  - apply Hs.
  - pose proof (pp_bound _ Hs (negb x)) as HP. by rewrite negb_involutive in HP.
Qed.

(** Noting the credit of the packet. *)
Lemma pop_credit f t : 0 <= f -> t - f <= cap (negb x) -> counts f (pk s (negb x)) (len (pgot s (negb x))) ->
  exists f', 0 <= f' /\ h_fwd_cnt h = f' mod 2 ^ 32 /\ 0 <= h_buf_alloc h <= cap (negb x) /\ t - f' <= h_buf_alloc h
    /\ counts f' rest (len (pgot s (negb x))).
Proof.
  intros Hf Ht Hcn. rewrite Hk in Hcn. destruct Hcn as (f' & Hff & Ef & Hcn).
  pose proof (pp_pkts _ Hs (negb x)) as HF. rewrite Hk in HF. apply Forall_cons in HF as [[_ _ _ _ Hcap] _]. cbn in Hcap.
  pose proof (cap_ok (negb x)). exists f'. rewrite Hcap. split_and!; try done; lia.
Qed.
End Pop.

(** ** Every step keeps the invariant *)
Lemma header_fresh x i op n flags body g :
  op <> Request -> op <> Invalid -> (op <> Rw -> body = []) -> n = len body -> n < 2 ^ 32 -> 0 <= flags < 2 ^ 32 ->
  dst i = addr (negb x) -> src_port i = port (addr x) -> buf_alloc i = cap x -> fwd_cnt i = g mod 2 ^ 32 ->
  fresh x g (new_header i (cid (addr x)) op n flags, body).
Proof.
  intros H1 H2 H3 -> H4 H5 E1 E2 E3 E4. pose proof (addr_ok x). pose proof (addr_ok (negb x)). pose proof (cap_ok x).
  pose proof (len_nonneg body). pose proof (Z.mod_pos_bound g (2 ^ 32) eq_refl).
  split; [|split; [unfold is_request; cbn; by destruct op|done]].
  split; cbn [fst snd new_header h_len h_buf_alloc]; [split; cbn; rewrite ?E1, ?E2, ?E3, ?E4; try lia| |done|by exists op|done].
  - unfold VIRTIO_VSOCK_TYPE_STREAM. destruct op; cbn; lia.
  - unfold source, destination. cbn. rewrite E1, E2. destruct (addr x), (addr (negb x)). done.
Qed.

Lemma bare_fresh s x c op flags g : end_ok s x c -> g = len (pgot s x) -> op <> Request -> op <> Invalid -> 0 <= flags < 2 ^ 32 ->
  fresh x g (bare op flags (cid (addr x)) c).
Proof. intros [[E1 E2] E3 E4 _ _ _] -> H1 H2 Hf. apply header_fresh; try done. Qed.

(** A call that only sends packets without a body, and may drop the connection or
    note that the peer is done. *)
Lemma plain_call_ok {A} s x c c' out (r : res A) :
  pair_ok s -> pc s x = Some c -> Forall (fresh x (len (pgot s x))) out -> flight out = [] ->
  (forall e, c' = Some e -> s_data e = s_data c /\ (s_info e = s_info c \/ s_info e = set_pending_credit true (s_info c))) ->
  pair_ok (pair_call x (c', out, r) [] [] s).
Proof.
  intros Hs Hc Hout Htx Hc'. pose proof (pp_end _ Hs x c Hc) as [_ _ E3 E4 _ _].
  unshelve refine (call_ok s x c c' out [] [] (s_data c) Hs Hc eq_refl _ Htx (or_introl eq_refl) _); rewrite !len_nil, !Z.add_0_r; [done|].
  intros e He. destruct (Hc' e He) as [-> [-> | ->]]; cbn; done.
Qed.

Lemma same_call_ok {A} s x (r : res A) : pair_ok s -> pair_ok (pair_call x (pc s x, [], r) [] [] s).
Proof. intros Hs. unfold pair_call. cbn. rewrite !app_nil_r, !bupd_same. by destruct s. Qed.

Lemma send_step_ok s x bytes : pair_ok s ->
  let r := s_send (cid (addr x)) bytes (pc s x) in pair_ok (pair_call x r (sent_of r bytes) [] s).
Proof.
  intros Hs. cbn zeta. destruct (pc s x) as [c|] eqn:Hc; [|unfold s_send, refuse, sent_of; cbn; rewrite <- Hc; by apply same_call_ok].
  pose proof (pp_end _ Hs x c Hc) as HE. pose proof HE as [[E1 E1'] E2 E3 E4 _ _]. unfold s_send.
  pose proof (peer_free_range (s_info c)). destruct (Z.leb_spec (len bytes) (peer_free (s_info c))); [|destruct (has_pending_credit_request _)].
  - unfold sent_of. cbn [snd]. unshelve refine (call_ok s x c _ _ bytes [] (s_data c) Hs Hc eq_refl _ _ _ _); rewrite ?len_nil, ?Z.add_0_r.
    + constructor; [|done]. by apply header_fresh; try done; lia.
    + unfold flight. cbn. by rewrite app_nil_r.
    + by right.
    + intros e [= <-]. cbn. rewrite E4. split_and!; try done. unfold u32, wrap. by rewrite Zplus_mod_idemp_l.
  - unfold sent_of, refuse. cbn [snd]. rewrite <- Hc. by apply same_call_ok.
  - unfold sent_of. cbn [snd]. apply (plain_call_ok s x c); try done.
    + constructor; [|done]. by eapply bare_fresh.
    + intros e [= <-]. cbn. auto.
Qed.

Lemma recv_step_ok s x n : pair_ok s -> 0 <= n ->
  let r := s_recv (cid (addr x)) n (pc s x) in pair_ok (pair_call x r [] (got_of r) s).
Proof.
  intros Hs Hn. cbn zeta. destruct (pc s x) as [c|] eqn:Hc; [|unfold s_recv, refuse, got_of; cbn; rewrite <- Hc; by apply same_call_ok].
  pose proof (pp_end _ Hs x c Hc) as HE. pose proof HE as [[E1 E1'] E2 E3 E4 _ _]. unfold s_recv.
  set (bytes := take (Z.to_nat n) (s_data c)). set (i := done_forwarding (len bytes) (s_info c)).
  assert (fwd_cnt i = (len (pgot s x) + len bytes) mod 2 ^ 32) as Ei.
  { subst i. cbn. rewrite E3. unfold u32, wrap. by rewrite Zplus_mod_idemp_l, Zplus_mod_idemp_r. }
  pose proof (take_drop (Z.to_nat n) (s_data c)) as Etd. fold bytes in Etd.
  destruct (s_shut c && _); unfold got_of; cbn [snd].
  - unshelve refine (call_ok s x c None [bare Rst 0 (cid (addr x)) (mkSconn i (drop (Z.to_nat n) (s_data c)) (s_shut c))] [] bytes _ Hs Hc (eq_sym Etd) _ eq_refl (or_introl eq_refl) _); [|done].
    constructor; [|done]. by apply header_fresh.
  - unshelve refine (call_ok s x c _ [] [] bytes _ Hs Hc (eq_sym Etd) _ eq_refl (or_introl eq_refl) _); [done|].
    intros e [= <-]. cbn [s_info s_data]. split_and!; try done. rewrite len_nil, Z.add_0_r. done.
Qed.

Lemma answer_step_ok s x listening ev c : pair_ok s -> pc s x = Some c ->
  pair_ok (pair_call x (s_answer (cid (addr x)) listening ev c) [] [] s).
Proof.
  intros Hs Hc. pose proof (pp_end _ Hs x c Hc) as HE.
  assert (forall op, op <> Request -> op <> Invalid -> Forall (fresh x (len (pgot s x))) [bare op 0 (cid (addr x)) c]) as HB.
  { intros op H1 H2. constructor; [|done]. by eapply bare_fresh. }
  unfold s_answer. destruct (e_type ev) as [| |reason|n| |].
  - destruct listening; apply (plain_call_ok s x c); try done; try (by apply HB). intros e [= <-]. auto.
  - rewrite <- Hc. by apply same_call_ok.
  - destruct (s_data c) eqn:Ed.
    + apply (plain_call_ok s x c); try done; case_bool_decide; try done. by apply HB.
    + apply (plain_call_ok s x c); try done. intros e [= <-]. auto.
  - rewrite <- Hc. by apply same_call_ok.
  - apply (plain_call_ok s x c); try done; [by apply HB|]. intros e [= <-]. auto.
  - rewrite <- Hc. by apply same_call_ok.
Qed.

Lemma from_header_spec h ev : from_header h = Ok ev ->
  e_buffer_allocation ev = h_buf_alloc h /\ e_forward_count ev = h_fwd_cnt h
  /\ e_source ev = source h /\ e_destination ev = destination h
  /\ (e_type ev = ConnectionRequest -> h_op h = op_code Request)
  /\ match e_type ev with Received n => h_op h = op_code Rw /\ n = h_len h | _ => h_op h <> op_code Rw end.
Proof.
  unfold from_header, op_try_from. destruct (h_op h) as [|p|p] eqn:Eo; try done.
  destruct p as [[[p|p|]|[p|p|]|]|[[p|p|]|[p|p|]|]|]; try done; unfold check_data_is_empty; try destruct (h_len h =? 0); try done; intros [= <-]; cbn; split_and!; try done; lia.
Qed.

(** A packet of the connection for an open end adds its body and its credit. *)
Lemma pop_open s x h body rest c ev : pair_ok s -> pk s (negb x) = (h, body) :: rest -> from_header h = Ok ev -> pc s x = Some c ->
  pair_ok (mkPair (bupd (pc s) x (Some (mkSconn (update_for_event ev (s_info c)) (s_data c ++ body) (s_shut c))))
             (psent s) (pgot s) (bupd (pk s) (negb x) rest)).
Proof.
  intros Hs Hk Hev Hc. destruct (from_header_spec h ev Hev) as (Ea & Ef & _). pose proof (pp_end _ Hs x c Hc) as [E1 E2 E3 E4 (f & Hf0 & _ & Hb & Hle & Hcn) E6].
  apply (pop_ok s x h body rest Hs Hk). intros e [= <-].
  destruct (pop_credit s x h body rest Hs Hk f (len (psent s x)) Hf0 ltac:(lia) Hcn) as (f' & P1 & P2 & P3 & P4 & P5).
  split; cbn [pc psent pgot pk s_info s_data]; rewrite ?bupd_eq; try done.
  - exists f'. cbn. rewrite Ea, Ef. done.
  - rewrite <- E6, Hk. unfold flight. cbn. by rewrite <- !app_assoc.
Qed.

(** The request makes the connection. *)
Lemma pop_request s h body rest ev : pair_ok s -> pk s false = (h, body) :: rest -> from_header h = Ok ev -> is_request (h, body) ->
  pair_ok (mkPair (bupd (pc s) true (Some (mkSconn (update_for_event ev (s_info (s_new (cap true) (pair_key true)))) body false)))
             (psent s) (pgot s) (bupd (pk s) false rest)).
Proof.
  intros Hs Hk Hev Hr. destruct (from_header_spec h ev Hev) as (Ea & Ef & _).
  destruct (pp_waiting _ Hs) as (W1 & W2 & W3 & W4 & W5 & W6); [by eexists _, _|]. destruct (pp_counts _ Hs false) as (f & Hf0 & Hcn).
  apply (pop_ok s true h body rest Hs Hk). intros e [= <-]. pose proof (cap_ok false).
  destruct (pop_credit s true h body rest Hs Hk f 0 Hf0 ltac:(cbn; lia) Hcn) as (f' & P1 & P2 & P3 & P4 & P5).
  split; cbn [pc psent pgot pk s_info s_data negb]; rewrite ?bupd_eq, ?W2, ?W3; try done.
  - exists f'. cbn. rewrite Ea, Ef. done.
  - rewrite <- W6, Hk. done.
Qed.

Lemma open_not_request s x h body rest c : pair_ok s -> pk s (negb x) = (h, body) :: rest -> pc s x = Some c -> h_op h <> op_code Request.
Proof.
  intros Hs Hk Hc Hr. destruct x; cbn [negb] in *.
  - destruct (pp_waiting _ Hs) as (W & _); [by eexists _, _|]. congruence.
  - apply (proj1 (pp_request _ Hs) (h, body)); [|done]. rewrite Hk. by left.
Qed.

Lemma event_step_ok s x listening h body rest ev : pair_ok s -> pk s (negb x) = (h, body) :: rest -> from_header h = Ok ev ->
  pair_ok (pair_call x (s_event (cap x) (cid (addr x)) listening (pair_key x) ev body (pc s x)) [] []
             (mkPair (pc s) (psent s) (pgot s) (bupd (pk s) (negb x) rest))).
Proof.
  intros Hs Hk Hev. destruct (from_header_spec h ev Hev) as (Ea & Ef & _ & _ & Hreq & Hrw).
  pose proof (pp_pkts _ Hs (negb x)) as HF. rewrite Hk in HF. apply Forall_cons in HF as [[_ _ _ (op & Eop & _ & Hbody) _] _]. cbn [fst snd] in *.
  assert (h_op h <> op_code Rw -> body = []) as Hnb by (intros Hn; apply Hbody; congruence).
  assert (forall c1, pair_ok (mkPair (bupd (pc s) x (Some c1)) (psent s) (pgot s) (bupd (pk s) (negb x) rest)) ->
    pair_ok (pair_call x (s_answer (cid (addr x)) listening ev c1) [] [] (mkPair (pc s) (psent s) (pgot s) (bupd (pk s) (negb x) rest)))) as Hans.
  { intros c1 H1. pose proof (answer_step_ok _ x listening ev c1 H1 (bupd_eq _ _ _)) as H2. unfold pair_call in *. cbn [pc psent pgot pk] in *.
    by rewrite bupd_twice in H2. }
  unfold s_event, s_start. destruct (pc s x) as [c|] eqn:Hc.
  - pose proof (pop_open s x h body rest c ev Hs Hk Hev Hc) as H1. apply Hans in H1. cbn [s_set_info s_info s_data s_shut].
    pose proof (open_not_request s x h body rest c Hs Hk Hc) as Hnr.
    destruct (e_type ev) as [| |reason|n| |] eqn:Et; try (rewrite (Hnb Hrw), app_nil_r in H1; by destruct c).
    rewrite (proj2 (Z.leb_le _ _)); [done|]. pose proof (pp_bound _ Hs (negb x)) as HB. rewrite negb_involutive in HB.
    rewrite <- (eo_data _ _ _ (pp_end _ Hs x c Hc)), Hk in HB. unfold flight in HB. cbn in HB. rewrite !len_app in HB.
    pose proof (len_nonneg (concat (snd <$> rest))). lia.
  - destruct (e_type ev) as [| |reason|n| |] eqn:Et.
    1:{ specialize (Hreq eq_refl). destruct x; cbn [negb] in *.
        - pose proof (pop_request s h body rest ev Hs Hk Hev Hreq) as H1. apply Hans in H1. rewrite (Hnb Hrw) in H1. exact H1.
        - exfalso. apply (proj1 (pp_request _ Hs) (h, body)); [|done]. rewrite Hk. by left. }
    all: pose proof (pop_ok s x h body rest Hs Hk None ltac:(done)) as H1; rewrite <- Hc in H1; rewrite bupd_same in H1;
      pose proof (same_call_ok _ x (Ok None : res (option VsockEvent)) H1) as H2; cbn [pc] in H2; by rewrite Hc in H2.
Qed.

(** ** Packets cut in two *)

Section Split.
Context (h : VirtioVsockHdr) (body : list Z) (n : Z).
Hypothesis Hop : h_op h = op_code Rw.
Hypothesis Hn : 0 <= n <= len body.
Let p1 : packet := (with_len n h, take (Z.to_nat n) body).
Let p2 : packet := (with_len (len body - n) h, drop (Z.to_nat n) body).

Lemma split_pkt_ok x : pkt_ok x (h, body) -> pkt_ok x p1 /\ pkt_ok x p2.
Proof.
  intros [[H1 H2 H3 H4 H5] P2 P3 P4 P5]. cbn [fst snd] in *.
  split; (split; [split| | | |]; cbn [fst snd with_len h_len p1 p2]; try done; try lia; [|by exists Rw]).
  - rewrite len_take by lia. lia.
  - rewrite len_drop by lia. lia.
Qed.
Lemma split_flight k1 k2 : flight (k1 ++ p1 :: p2 :: k2) = flight (k1 ++ (h, body) :: k2).
Proof. rewrite !flight_app. f_equal. unfold flight. cbn. by rewrite app_assoc, take_drop. Qed.
Lemma split_counts f g k1 k2 : counts f (k1 ++ (h, body) :: k2) g -> counts f (k1 ++ p1 :: p2 :: k2) g.
Proof.
  revert f. induction k1 as [|q k1 IH]; intros f; cbn [app counts].
  - intros (f' & Hf & Ef & Hc). exists f'. split_and!; [done..|]. exists f'. done.
  - intros (f' & Hf & Ef & Hc). exists f'. split_and!; [done..|]. by apply IH.
Qed.
Lemma split_not_request : ~ is_request p1 /\ ~ is_request p2.
Proof. unfold is_request. cbn. rewrite Hop. done. Qed.

Lemma split_step_ok s x k1 k2 : pair_ok s -> pk s x = k1 ++ (h, body) :: k2 ->
  pair_ok (mkPair (pc s) (psent s) (pgot s) (bupd (pk s) x (k1 ++ p1 :: p2 :: k2))).
Proof.
  intros Hs Hk. destruct split_not_request as [N1 N2].
  assert (waiting (mkPair (pc s) (psent s) (pgot s) (bupd (pk s) x (k1 ++ p1 :: p2 :: k2))) -> waiting s) as HW.
  { intros (p & k & Ek & Hp). cbn [pk] in Ek. destruct x; [rewrite (bupd_negb _ true) in Ek; by exists p, k|]. rewrite bupd_eq in Ek.
    destruct k1 as [|q k1]; cbn [app] in *; injection Ek as <- <-; [done|]. by exists q, (k1 ++ (h, body) :: k2). }
  split; try (refine (both _ x _ _); cbn [pc psent pgot pk]; rewrite ?negb_involutive, ?bupd_eq, ?bupd_negb).
  - pose proof (pp_pkts _ Hs x) as HF. rewrite Hk in HF. apply Forall_app in HF as [? HF]. apply Forall_cons in HF as [Hp ?].
    apply split_pkt_ok in Hp as [? ?]. apply Forall_app. split; [done|]. by do 2 (apply Forall_cons; split; [done|]).
  - apply Hs.
  - destruct (pp_request _ Hs) as [R1 R2]. cbn [pk]. destruct x; rewrite bupd_eq; [rewrite (bupd_negb _ true)|rewrite (bupd_negb _ false)]; rewrite Hk in *; (split; [|]); try done.
    + intros p. specialize (R1 p). revert R1. rewrite !elem_of_app, !elem_of_cons. naive_solver.
    + intros p. specialize (R2 p). revert R2. destruct k1 as [|q k1]; cbn; rewrite ?elem_of_app, ?elem_of_cons; naive_solver.
  - intros HW'. destruct (pp_waiting _ Hs (HW HW')) as (W1 & W2 & W3 & W4 & W5 & W6). cbn [pc psent pgot pk]. destruct x.
    + rewrite W5 in Hk. by destruct k1.
    + rewrite bupd_eq, (bupd_negb _ false). split_and!; try done. etrans; [apply split_flight|]. rewrite Hk in W6. exact W6.
  - intros c Hc. destruct (pp_end _ Hs x c Hc) as [E1 E2 E3 E4 E5 E6]. split; cbn [pc psent pgot pk]; rewrite ?bupd_negb; done.
  - intros c Hc. destruct (pp_end _ Hs (negb x) c Hc) as [E1 E2 E3 E4 (f & F1 & F2 & F3 & F4 & F5) E6]. rewrite negb_involutive in *.
    split; cbn [pc psent pgot pk]; rewrite ?negb_involutive, ?bupd_eq; try done.
    + exists f. split_and!; try done; try lia. apply split_counts. rewrite Hk in F5. exact F5.
    + rewrite <- E6, Hk. do 2 f_equal. apply split_flight.
  - destruct (pp_counts _ Hs x) as (f & Hf & Hc). exists f. split; [done|]. apply split_counts. rewrite Hk in Hc. exact Hc.
  - apply Hs.
  - apply Hs.
  - pose proof (pp_prefix _ Hs (negb x)) as HP. by rewrite negb_involutive in HP.
  - apply Hs.
  - pose proof (pp_bound _ Hs (negb x)) as HP. by rewrite negb_involutive in HP.
Qed.
End Split.

Lemma pair_step_ok s s' : pair_ok s -> pair_step s s' -> pair_ok s'.
Proof.
  intros Hs Hst. destruct Hst as [x bytes s|x n s Hn|x s|x s|x s|x listening h body rest ev s Hk Hev|x k1 h body k2 n s Hk Hop Hn].
  - by apply send_step_ok.
  - by apply recv_step_ok.
  - destruct (pc s x) as [c|] eqn:Hc; unfold s_credit, refuse; [|rewrite <- Hc; by apply same_call_ok].
    apply (plain_call_ok s x c); try done; [|by intros e [= <-]; auto]. constructor; [|done]. eapply bare_fresh; try done. by apply Hs.
  - destruct (pc s x) as [c|] eqn:Hc; unfold s_shutdown, refuse; [|rewrite <- Hc; by apply same_call_ok].
    apply (plain_call_ok s x c); try done; [|by intros e [= <-]; auto]. constructor; [|done]. eapply bare_fresh; try done. by apply Hs.
  - destruct (pc s x) as [c|] eqn:Hc; unfold s_close, refuse; [|rewrite <- Hc; by apply same_call_ok].
    apply (plain_call_ok s x c); try done. constructor; [|done]. eapply bare_fresh; try done. by apply Hs.
  - by apply (event_step_ok s x listening h body rest ev).
  - by apply (split_step_ok h body n Hop Hn s x k1 k2).
Qed.

(** After the call that asks for the connection. *)
Definition pair_start : pair :=
  mkPair (mkTwo (Some (s_new (cap false) (pair_key false))) None) (mkTwo [] []) (mkTwo [] [])
    (mkTwo [bare Request 0 (cid (addr false)) (s_new (cap false) (pair_key false))] []).

Lemma pair_start_ok : pair_ok pair_start.
Proof.
  pose proof (addr_ok false). pose proof (addr_ok true). pose proof (cap_ok false). pose proof (cap_ok true).
  split; cbn [pc psent pgot pk pair_start].
  - intros []; cbn; [done|]. constructor; [|done]. split; cbn; [split; cbn; unfold VIRTIO_VSOCK_TYPE_STREAM; lia| |done|by exists Request|done].
    unfold source, destination. cbn. by destruct (addr false), (addr true).
  - split; cbn; intros p Hp; by apply elem_of_nil in Hp.
  - done.
  - intros [] c; cbn; [done|]. intros [= <-]. split; cbn; try done. exists 0. split_and!; cbn; lia || done.
  - intros []; exists 0; cbn; (split; [done|]); [done|]. exists 0. done.
  - by intros [].
  - intros []; cbn; lia.
Qed.
End Pair.
