(* ===== verification/VsockNet.v ===== *)
(** * Two connection managers and the host between them

    Two managers, each over its own device, and a host that fetches the packets
    they send, may cut data packets in two, routes them by destination, and puts
    them in the receive queue of the other side.  Both sides may call anything on
    any of their connections, and packets of third parties, well formed or not,
    may arrive at any time.  One connection between them is followed from the
    moment it is asked for: what arrives is what was sent. *)

From S2P Require Import Prelude Virtqueue Vsock VsockManager VsockProps VsockPair.
Open Scope mach_scope.

(** What the host does with a device: it takes the oldest packet sent, or fills a
    receive buffer if there is one the packet fits in. *)
Class SocketHost (D : Type) `{SocketLaws D} := {
  host_take : D -> D;
  host_put : list Z -> D -> option D;
  host_take_ok d p r : dev_ok d -> outbox d = p :: r ->
    dev_ok (host_take d) /\ inbox (host_take d) = inbox d /\ outbox (host_take d) = r;
  host_put_ok d p d' : dev_ok d -> host_put p d = Some d' ->
    dev_ok d' /\ inbox d' = inbox d ++ [p] /\ outbox d' = outbox d;
}.

(** ** Replies *)

Definition key_ok (k : key) : Prop :=
  0 <= cid (fst k) < 2 ^ 64 /\ 0 <= port (fst k) < 2 ^ 32 /\ 0 <= snd k < 2 ^ 32.
Definition info_key (i : ConnectionInfo) : key := (dst i, src_port i).
Definition sane (cap : Z) (k : key) (c : sconn) : Prop :=
  info_key (s_info c) = k /\ buf_alloc (s_info c) = cap /\ 0 <= fwd_cnt (s_info c) < 2 ^ 32.
(** A packet the connection [k] sends. *)
Definition from_conn (cid_ cap : Z) (k : key) (p : packet) : Prop :=
  exists i op flags, fst p = new_header i cid_ op (len (snd p)) flags /\ info_key i = k /\ buf_alloc i = cap
    /\ 0 <= fwd_cnt i < 2 ^ 32 /\ 0 <= flags < 2 ^ 32 /\ len (snd p) < 2 ^ 32.
Definition reply_ok {A} (cid_ cap : Z) (k : key) (r : reply A) : Prop :=
  (forall c, fst (fst r) = Some c -> sane cap k c) /\ Forall (from_conn cid_ cap k) (snd (fst r)).

Lemma bare_from cid_ cap k c op flags : sane cap k c -> 0 <= flags < 2 ^ 32 -> from_conn cid_ cap k (bare op flags cid_ c).
Proof. intros (H1 & H2 & H3) Hf. exists (s_info c), op, flags. done. Qed.

Lemma sane_new cap k : sane cap k (s_new cap k).
Proof. split; [by destruct k|]. split; [done|]. cbn. lia. Qed.

Lemma reply_ok_bare {A} cid_ cap k c c' op flags (r : res A) : sane cap k c -> 0 <= flags < 2 ^ 32 ->
  (forall e, c' = Some e -> sane cap k e) -> reply_ok cid_ cap k (c', [bare op flags cid_ c], r).
Proof. intros Hc Hf Hc'. split; [done|]. constructor; [|done]. by apply bare_from. Qed.
Lemma reply_ok_silent {A} cid_ cap k c' (r : res A) : (forall e, c' = Some e -> sane cap k e) -> reply_ok cid_ cap k (c', [], r).
Proof. intros Hc'. split; [done|]. constructor. Qed.

Lemma replies_ok cid_ cap k c : (forall e, c = Some e -> sane cap k e) ->
  reply_ok cid_ cap k (s_connect cap cid_ k c)
  /\ (forall bytes, reply_ok cid_ cap k (s_send cid_ bytes c)) /\ (forall n, reply_ok cid_ cap k (s_recv cid_ n c))
  /\ reply_ok cid_ cap k (s_available c) /\ reply_ok cid_ cap k (s_credit cid_ c)
  /\ reply_ok cid_ cap k (s_shutdown cid_ c) /\ reply_ok cid_ cap k (s_close cid_ c).
Proof.
  intros Hc. pose proof (sane_new cap k) as Hn.
  destruct c as [c|].
  2:{ split_and!; intros; try by apply reply_ok_silent. apply reply_ok_bare; [done|lia|]. by intros e [= <-]. }
  specialize (Hc c eq_refl). pose proof Hc as (H1 & H2 & H3).
  assert (forall e, Some c = Some e -> sane cap k e) as HS by by intros e [= <-].
  split_and!.
  - by apply reply_ok_silent.
  - intros bytes. unfold s_send. pose proof (peer_free_range (s_info c)). destruct (Z.leb_spec (len bytes) (peer_free (s_info c))); [|destruct (has_pending_credit_request _)].
    + split; [by intros e [= <-]|]. constructor; [|done]. exists (s_info c), Rw, 0. cbn [fst snd]. split_and!; try done; lia.
    + by apply reply_ok_silent.
    + apply reply_ok_bare; [done|lia|]. by intros e [= <-].
  - intros n. unfold s_recv. set (e := mkSconn _ _ _). assert (sane cap k e) as He.
    { split; [done|]. split; [done|]. cbn. apply (wrap_range 32). lia. }
    destruct (_ && _); [by apply reply_ok_bare|]. apply reply_ok_silent. by intros ? [= <-].
  - by apply reply_ok_silent.
  - by apply reply_ok_bare.
  - by apply reply_ok_bare.
  - by apply reply_ok_bare.
Qed.

Lemma event_reply_ok cid_ cap k listening ev body c : (forall e, c = Some e -> sane cap k e) ->
  reply_ok cid_ cap k (s_event cap cid_ listening k ev body c).
Proof.
  intros Hc. unfold s_event. assert (forall s, s_start cap k ev c = Some s -> sane cap k s) as Hs.
  { intros s. unfold s_start. destruct c as [c|]; [intros [= <-]; by apply Hc|]. destruct (e_type ev); intros [= <-]. apply sane_new. }
  destruct (s_start cap k ev c) as [s|]; [|by apply reply_ok_silent]. specialize (Hs s eq_refl).
  assert (forall d f, sane cap k (mkSconn (update_for_event ev (s_info s)) d f)) as Hu by (intros; exact Hs).
  assert (forall d f, reply_ok cid_ cap k (s_answer cid_ listening ev (mkSconn (update_for_event ev (s_info s)) d f))) as HA.
  { intros d f. specialize (Hu d f) as Hd. unfold s_answer. destruct (e_type ev) as [| |reason|n| |];
      [destruct listening|..|]; try (apply reply_ok_silent; by intros e [= <-]); try (apply reply_ok_bare; [done|lia|by intros e [= <-]]).
    destruct d; cbn [s_data]; [case_bool_decide; [by apply reply_ok_bare|by apply reply_ok_silent]|]. apply reply_ok_silent. intros e [= <-]. apply Hu. }
  destruct (e_type ev); try apply HA. cbn [s_set_info s_data s_info s_shut]. case_match; [apply HA|]. apply reply_ok_silent. intros e [= <-]. apply Hu.
Qed.

(** ** Packets *)

Definition wf (p : packet) : Prop := hdr_ok (fst p) /\ h_len (fst p) = len (snd p).
Definition dec (b : list Z) : option packet := match read_header_and_body b with Ok p => Some p | Err _ => None end.

Lemma dec_bytes p : wf p -> dec (packet_bytes p) = Some p.
Proof. intros [H1 H2]. unfold dec. by rewrite packet_round_trip. Qed.
Lemma dec_list l : Forall wf l -> omap dec (packet_bytes <$> l) = l.
Proof. induction 1 as [|p l Hp _ IH]; [done|]. cbn [fmap list_fmap omap list_omap]. rewrite dec_bytes by done. by f_equal. Qed.

Lemma from_conn_wf cid_ cap k p : 0 <= cid_ < 2 ^ 64 -> 0 < cap < 2 ^ 32 -> key_ok k -> from_conn cid_ cap k p ->
  wf p /\ source (fst p) = mkAddr cid_ (snd k) /\ destination (fst p) = fst k.
Proof.
  intros Hcid Hcap (K1 & K2 & K3) (i & op & flags & Hp & Hk & Ha & Hf & Hfl & Hl). unfold info_key in Hk. subst k.
  destruct p as [h body]. cbn [fst snd] in *. subst h. pose proof (len_nonneg body). split; [|split; [done|unfold destination; cbn; by destruct (dst i)]]. split; [|done].
  split; cbn; rewrite ?Ha; try lia. unfold VIRTIO_VSOCK_TYPE_STREAM. destruct op; cbn; lia.
Qed.

(** Any bytes that parse give a header in range. *)
Lemma le_val_bound bs : Forall (fun b => is_byte b = true) bs -> 0 <= le_val bs < 256 ^ len bs.
Proof.
  induction 1 as [|b bs Hb _ IH]; [done|]. unfold is_byte in Hb. zb. cbn [le_val]. rewrite len_cons, Z.pow_add_r by (apply len_nonneg || lia). lia.
Qed.
Lemma field_bound b at_ n : Forall (fun b => is_byte b = true) b -> 0 <= field b at_ n < 256 ^ Z.of_nat n.
Proof.
  intros Hb. unfold field. pose proof (le_val_bound (take n (drop at_ b))) as H. 
  assert (256 ^ len (take n (drop at_ b)) <= 256 ^ Z.of_nat n) by (apply Z.pow_le_mono_r; [lia|]; unfold len; rewrite length_take; lia).
  specialize (H ltac:(by apply Forall_take, Forall_drop)). lia.
Qed.
Lemma dec_hdr_ok b p : Forall (fun b => is_byte b = true) b -> dec b = Some p -> hdr_ok (fst p).
Proof.
  intros Hb. unfold dec, read_header_and_body, read_from_prefix. destruct (len b <? HDR_SIZE); [done|].
  pose proof (fun a => field_bound b a 8 Hb) as F8. pose proof (fun a => field_bound b a 4 Hb) as F4. pose proof (fun a => field_bound b a 2 Hb) as F2.
  change (256 ^ Z.of_nat 8) with (2 ^ 64) in F8. change (256 ^ Z.of_nat 4) with (2 ^ 32) in F4. change (256 ^ Z.of_nat 2) with (2 ^ 16) in F2.
  destruct (checked_add _ _) as [z|]; [|done]. destruct (z <=? len b); [|done]. intros [= <-]. split; cbn [fst h_src_cid h_dst_cid h_src_port h_dst_port h_len h_socket_type h_op h_flags h_buf_alloc h_fwd_cnt];
    pose proof (F8 0%nat); pose proof (F8 8%nat); pose proof (F4 16%nat); pose proof (F4 20%nat); pose proof (F4 24%nat);
    pose proof (F2 28%nat); pose proof (F2 30%nat); pose proof (F4 32%nat); pose proof (F4 36%nat); pose proof (F4 40%nat); lia.
Qed.

(** ** The network *)

Section Net.
Context {D : Type} `{HH : SocketHost D}.
Notation manager := (VsockConnectionManager D).
Variable addr : bool -> VsockAddr.
Variable cap : bool -> Z.
Hypothesis addr_ok : forall x, 0 <= cid (addr x) < 2 ^ 64 /\ 0 <= port (addr x) < 2 ^ 32.
Hypothesis cap_ok : forall x, 0 < cap x < 2 ^ 32.
Notation own := (pair_key addr).

(** A side: its manager, and what it sent and received on the connection. *)
Record side := mkSide { mg : manager; gsent : list Z; ggot : list Z }.
Record net := mkNet { sides : two side; chan : two (list packet) }.
Definition set_mg (m : manager) (s : side) : side := mkSide m (gsent s) (ggot s).
Definition set_dev (d : D) (s : side) : side := set_mg (set_driver (mkSocket d (manager_cid (mg s))) (mg s)) s.

Inductive mop :=
  | OListen (p : Z) | OUnlisten (p : Z) | OConnect (k : key) | OSend (k : key) (bytes : list Z) | OPoll
  | ORecv (k : key) (n : Z) | OAvailable (k : key) | OCredit (k : key) | OShutdown (k : key) | OClose (k : key).

(** A call of a side; [None] when it panics or does not return. *)
Definition after_call {A} (s : side) (r : option (outcome (manager * res A))) (f : A -> side -> side) : option side :=
  match r with
  | Some (Ret (m, Ok a)) => Some (f a (set_mg m s))
  | Some (Ret (m, Err _)) => Some (set_mg m s)
  | _ => None
  end.
Definition run_op (k0 : key) (o : mop) (s : side) : option side :=
  match o with
  | OListen p => Some (set_mg (listen p (mg s)) s)
  | OUnlisten p => Some (set_mg (unlisten p (mg s)) s)
  | OConnect k => after_call s (connect (fst k) (snd k) (mg s)) (fun _ s => s)
  | OSend k bytes => after_call s (send (fst k) (snd k) bytes (mg s))
      (fun _ s => if decide (k = k0) then mkSide (mg s) (gsent s ++ bytes) (ggot s) else s)
  | OPoll => after_call s (poll (mg s)) (fun _ s => s)
  | ORecv k n => after_call s (recv (fst k) (snd k) n (mg s))
      (fun bytes s => if decide (k = k0) then mkSide (mg s) (gsent s) (ggot s ++ bytes) else s)
  | OAvailable k => after_call s (recv_buffer_available_bytes (fst k) (snd k) (mg s)) (fun _ s => s)
  | OCredit k => after_call s (update_credit (fst k) (snd k) (mg s)) (fun _ s => s)
  | OShutdown k => after_call s (shutdown (fst k) (snd k) (mg s)) (fun _ s => s)
  | OClose k => after_call s (force_close (fst k) (snd k) (mg s)) (fun _ s => s)
  end.
(** What the types of the code say of the arguments. *)
Definition typed (o : mop) : Prop :=
  match o with OConnect k => key_ok k | ORecv _ n => 0 <= n | _ => True end.
(** The connection is not made a second time by a call: a side that does not have
    it does not ask for it.  ([VsockDemo.reconnect_loses_bytes] is what happens
    otherwise.) *)
Definition op_ok (k0 : key) (s : side) (o : mop) : Prop :=
  typed o /\ (o = OConnect k0 -> is_Some (conn (mg s) k0)).

(** A packet of the connection from [x]. *)
Definition of_pair (x : bool) (p : packet) : Prop := source (fst p) = addr x /\ destination (fst p) = addr (negb x).

Inductive net_step : net -> net -> Prop :=
  | ns_op x o n s : op_ok (own x) (sides n x) o -> run_op (own x) o (sides n x) = Some s ->
      net_step n (mkNet (bupd (sides n) x s) (chan n))
  | ns_fetch x n p rest h body : outbox (dev (mg (sides n x))) = p :: rest -> read_header_and_body p = Ok (h, body) ->
      net_step n (mkNet (bupd (sides n) x (set_dev (host_take (dev (mg (sides n x)))) (sides n x)))
        (bupd (chan n) x (chan n x ++ (if h_dst_cid h =? cid (addr (negb x)) then [(h, body)] else []))))
  | ns_deliver x n p rest d : chan n (negb x) = p :: rest -> host_put (packet_bytes p) (dev (mg (sides n x))) = Some d ->
      net_step n (mkNet (bupd (sides n) x (set_dev d (sides n x))) (bupd (chan n) (negb x) rest))
  | ns_split x n h body rest j : chan n x = (h, body) :: rest -> h_op h = op_code Rw -> 0 <= j <= len body ->
      net_step n (mkNet (sides n) (bupd (chan n) x
        ((with_len j h, take (Z.to_nat j) body) :: (with_len (len body - j) h, drop (Z.to_nat j) body) :: rest)))
  | ns_inject x n b d : Forall (fun c => is_byte c = true) b -> (forall p, dec b = Some p -> ~ of_pair (negb x) p) ->
      host_put b (dev (mg (sides n x))) = Some d ->
      net_step n (mkNet (bupd (sides n) x (set_dev d (sides n x))) (chan n)).

(** The connection as the pair of its ends. *)
#[local] Instance of_pair_dec x p : Decision (of_pair x p).
Proof. unfold of_pair. apply _. Defined.
Definition transit (n : net) (x : bool) : list packet :=
  omap dec (inbox (dev (mg (sides n (negb x))))) ++ chan n x ++ omap dec (outbox (dev (mg (sides n x)))).
Definition each {A} (f : bool -> A) : two A := mkTwo (f false) (f true).
Definition abs (n : net) : pair :=
  mkPair (each (fun x => conn (mg (sides n x)) (own x))) (each (fun x => gsent (sides n x))) (each (fun x => ggot (sides n x)))
    (each (fun x => filter (of_pair x) (transit n x))).

Record side_ok (x : bool) (s : side) : Prop := {
  so_mgr : mgr_ok (mg s);
  so_cid : manager_cid (mg s) = cid (addr x);
  so_cap : per_connection_buffer_capacity (mg s) = cap x;
  so_conns k c : conn (mg s) k = Some c -> key_ok k /\ sane (cap x) k c;
  so_out : exists l, outbox (dev (mg s)) = packet_bytes <$> l /\ Forall wf l;
  so_in b p : b ∈ inbox (dev (mg s)) -> dec b = Some p -> hdr_ok (fst p);
}.
Record net_ok (n : net) : Prop := {
  no_side x : side_ok x (sides n x);
  no_chan x : Forall wf (chan n x);
  no_pair : pair_ok addr cap (abs n);
}.

Lemma each_get {A} (f : bool -> A) x : each f x = f x.
Proof. by destruct x. Qed.

(** ** A call of one side *)

(** What [x] sends on another of its connections is not of this one. *)
Lemma own_packets x k out : key_ok k -> Forall (from_conn (cid (addr x)) (cap x) k) out ->
  Forall wf out /\ filter (of_pair x) out = if decide (k = own x) then out else [].
Proof.
  intros Hk Hout.
  assert (Forall (fun p => wf p /\ source (fst p) = mkAddr (cid (addr x)) (snd k) /\ destination (fst p) = fst k) out) as HF.
  { eapply Forall_impl; [exact Hout|]. intros p Hp. by eapply from_conn_wf; [apply addr_ok|apply cap_ok| |]. }
  split; [eapply Forall_impl; [exact HF|]; by intros p [? _]|]. clear Hout Hk. induction HF as [|p out (_ & Hs & Hd) _ IH]; [by case_decide|].
  case_decide as E.
  - rewrite filter_cons_True; [by rewrite IH|]. subst k. unfold of_pair. rewrite Hs, Hd. cbn. by destruct (addr x).
  - rewrite filter_cons_False; [done|]. unfold of_pair. rewrite Hs, Hd. intros [E1 E2]. apply E. destruct k as [a q]. cbn in *. unfold pair_key. by rewrite E2, <- E1.
Qed.

Lemma side_call x s m k c out inb : side_ok x s -> effect (mg s) m k c out inb -> (forall b, b ∈ inb -> b ∈ inbox (dev (mg s))) ->
  (forall e, c = Some e -> key_ok k /\ sane (cap x) k e) -> Forall wf out -> forall gs gg, side_ok x (mkSide m gs gg).
Proof.
  intros [S1 S2 S3 S4 (l & S5 & S6) S7] [E1 E2 E3 E4 (E5 & E6 & _)] Hin Hc Hw gs gg. split; cbn [mg]; [done|congruence|congruence| | |].
  - intros k' e. rewrite E2. case_decide; [subst; by apply Hc|by apply S4].
  - exists (l ++ out). rewrite E3, S5, fmap_app. split; [done|]. by apply Forall_app.
  - intros b p Hb. rewrite E4 in Hb. by apply S7, Hin.
Qed.

(** The packets on their way when [x] has sent more and read [b] of its queue. *)
Lemma abs_call n x s out inb b : outbox (dev (mg s)) = outbox (dev (mg (sides n x))) ++ (packet_bytes <$> out) -> Forall wf out ->
  inbox (dev (mg (sides n x))) = b ++ inb -> inbox (dev (mg s)) = inb ->
  let n' := mkNet (bupd (sides n) x s) (chan n) in
  filter (of_pair x) (transit n' x) = filter (of_pair x) (transit n x) ++ filter (of_pair x) out
  /\ filter (of_pair (negb x)) (transit n (negb x)) = filter (of_pair (negb x)) (omap dec b) ++ filter (of_pair (negb x)) (transit n' (negb x)).
Proof.
  intros Ho Hw Hb Hi. cbn zeta. unfold transit. cbn [sides chan]. rewrite negb_involutive, bupd_eq, bupd_negb, Ho, Hi, Hb, !omap_app, dec_list by done.
  rewrite <- !filter_app. rewrite <- !app_assoc. done.
Qed.

Lemma abs_side n x s : abs (mkNet (bupd (sides n) x s) (chan n))
  = mkPair (bupd (pc (abs n)) x (conn (mg s) (own x))) (bupd (psent (abs n)) x (gsent s)) (bupd (pgot (abs n)) x (ggot s))
      (each (fun y => filter (of_pair y) (transit (mkNet (bupd (sides n) x s) (chan n)) y))).
Proof. destruct n as [[a b] [c d]]. by destruct x. Qed.

(** A call on the connection [k] of [x] acts on the pair as its reply says, if [k]
    is the connection followed, and not at all otherwise. *)
Lemma call_sim {A} n x (f : call manager A) k (r : reply A) :
  net_ok n -> implements f (mg (sides n x)) k r -> reply_ok (cid (addr x)) (cap x) k r -> (key_ok k \/ fst r = (None, [])) ->
  exists m, f (mg (sides n x)) = Some (Ret (m, snd r)) /\ forall gs gg,
    side_ok x (mkSide m gs gg)
    /\ abs (mkNet (bupd (sides n) x (mkSide m gs gg)) (chan n))
       = mkPair (if decide (k = own x) then bupd (pc (abs n)) x (fst (fst r)) else pc (abs n)) (bupd (psent (abs n)) x gs) (bupd (pgot (abs n)) x gg)
           (if decide (k = own x) then bupd (pk (abs n)) x (pk (abs n) x ++ snd (fst r)) else pk (abs n)).
Proof.
  intros Hn Hf [Hr1 Hr2] Hk. destruct r as [[c out] res]. cbn [fst snd] in *. destruct Hf as (m & Em & EF). exists m. split; [done|]. intros gs gg.
  assert (Forall wf out /\ filter (of_pair x) out = if decide (k = own x) then out else []) as [Hw Hfo].
  { destruct Hk as [Hk|[= -> ->]]; [by apply own_packets|]. split; [done|]. by case_decide. }
  assert (forall e, c = Some e -> key_ok k /\ sane (cap x) k e) as Hce.
  { intros e He. split; [|by apply Hr1]. destruct Hk as [?|[= -> ->]]; [done|congruence]. }
  split; [by eapply side_call; [apply Hn|exact EF|done| |]|].
  destruct (abs_call n x (mkSide m gs gg) out (inbox (dev (mg (sides n x)))) [] (ef_out _ _ _ _ _ _ EF) Hw eq_refl (ef_in _ _ _ _ _ _ EF)) as [T1 T2].
  rewrite abs_side. f_equal.
  - cbn [mg]. rewrite (ef_conn _ _ _ _ _ _ EF (own x)). destruct (decide (k = own x)) as [-> |Hne].
    + by rewrite decide_True.
    + rewrite decide_False by congruence. rewrite <- (each_get (fun x => conn (mg (sides n x)) (own x))). apply bupd_same.
  - cbn [omap list_omap] in T2. rewrite Hfo in T1. cbn [app] in T2. destruct x; cbn [negb] in *; unfold each; cbn [abs pk each].
    + rewrite T1. change (filter (of_pair false) [] ++ ?a) with a in T2. rewrite <- T2. case_decide; [done|]. by rewrite app_nil_r.
    + rewrite T1. change (filter (of_pair true) [] ++ ?a) with a in T2. rewrite <- T2. case_decide; [done|]. by rewrite app_nil_r.
Qed.

Lemma net_ok_side n x s : net_ok n -> side_ok x s -> pair_ok addr cap (abs (mkNet (bupd (sides n) x s) (chan n))) ->
  net_ok (mkNet (bupd (sides n) x s) (chan n)).
Proof.
  intros Hn Hs Hp. split; [|apply Hn|done]. refine (both _ x _ _); cbn [sides]; rewrite ?bupd_eq, ?bupd_negb; [done|apply Hn].
Qed.

(** ** Polling *)

(** The pair when [x] has taken [p] from its queue with the given effect. *)
Lemma pop_sim n x p rest m k c out : net_ok n -> inbox (dev (mg (sides n x))) = p :: rest -> effect (mg (sides n x)) m k c out rest ->
  (c = None /\ out = [] \/ key_ok k) -> (forall e, c = Some e -> sane (cap x) k e) -> Forall (from_conn (cid (addr x)) (cap x) k) out ->
  let s := set_mg m (sides n x) in
  side_ok x s /\ exists k', pk (abs n) (negb x) = filter (of_pair (negb x)) (omap dec [p]) ++ k'
    /\ abs (mkNet (bupd (sides n) x s) (chan n))
       = mkPair (if decide (k = own x) then bupd (pc (abs n)) x c else pc (abs n)) (psent (abs n)) (pgot (abs n))
           (bupd (bupd (pk (abs n)) (negb x) k') x (pk (abs n) x ++ if decide (k = own x) then out else [])).
Proof.
  intros Hn Hi EF Hk Hc Hout. cbn zeta.
  assert (Forall wf out /\ filter (of_pair x) out = if decide (k = own x) then out else []) as [Hw Hfo].
  { destruct Hk as [[_ ->]|Hk]; [|by apply own_packets]. split; [done|]. by case_decide. }
  split.
  { apply (side_call x (sides n x) m k c out rest); try done; [apply Hn| |].
    - intros b Hb. rewrite Hi. by right.
    - intros e He. split; [|by apply Hc]. destruct Hk as [[? _]|?]; [congruence|done]. }
  destruct (abs_call n x (set_mg m (sides n x)) out rest [p] (ef_out _ _ _ _ _ _ EF) Hw Hi (ef_in _ _ _ _ _ _ EF)) as [T1 T2].
  rewrite Hfo in T1. eexists. split; [|rewrite abs_side; f_equal].
  - cbn [abs pk]. rewrite each_get. exact T2.
  - cbn [mg set_mg]. rewrite (ef_conn _ _ _ _ _ _ EF (own x)). destruct (decide (k = own x)) as [-> |Hne].
    + by rewrite decide_True.
    + rewrite decide_False by congruence. rewrite <- (each_get (fun x => conn (mg (sides n x)) (own x))). apply bupd_same.
  - cbn [gsent set_mg]. rewrite <- (each_get (fun x => gsent (sides n x))). apply bupd_same.
  - cbn [ggot set_mg]. rewrite <- (each_get (fun x => ggot (sides n x))). apply bupd_same.
  - destruct x; cbn [negb abs pk each bupd tget] in *; unfold each; by rewrite T1.
Qed.

Lemma ops_code h op : h_op h = op_code op -> op_try_from (h_op h) = Ok op.
Proof. intros ->. by destruct op. Qed.

(** A packet of the connection is well formed. *)
Lemma pkt_event x h body : pkt_ok addr cap x (h, body) -> exists ev, from_header h = Ok ev.
Proof.
  intros [_ _ Hl (op & Hop & Hne & Hb) _]. cbn [fst snd] in *. unfold from_header. rewrite (ops_code h op Hop). unfold check_data_is_empty.
  destruct op; try done; try (rewrite Hl, Hb by done; cbn); by eexists.
Qed.

Lemma own_key_ok x : key_ok (own x).
Proof. unfold key_ok, pair_key. cbn. pose proof (addr_ok x). pose proof (addr_ok (negb x)). lia. Qed.

Lemma own_sane n x e : net_ok n -> conn (mg (sides n x)) (own x) = Some e -> sane (cap x) (own x) e.
Proof. intros Hn He. by apply (so_conns _ _ (no_side _ Hn x)). Qed.

(** A packet of nobody, or of another connection of which nothing comes. *)
Lemma pop_ignored n x p rest m : net_ok n -> inbox (dev (mg (sides n x))) = p :: rest ->
  (forall k, effect (mg (sides n x)) m k (conn (mg (sides n x)) k) [] rest) -> (forall q, dec p = Some q -> ~ of_pair (negb x) q) ->
  net_ok (mkNet (bupd (sides n) x (set_mg m (sides n x))) (chan n)).
Proof.
  intros Hn Hi EF Hq. destruct (pop_sim n x p rest m _ _ [] Hn Hi (EF (own x)) (or_intror (own_key_ok x)) (fun e => own_sane n x e Hn) (Forall_nil_2 _)) as [Hs (k' & Ek & Ea)].
  apply net_ok_side; [done..|]. rewrite Ea, !decide_True by done.
  assert (filter (of_pair (negb x)) (omap dec [p]) = []) as E0.
  { cbn [omap list_omap]. destruct (dec p) as [q|]; [|done]. rewrite filter_cons_False; [done|by apply Hq]. }
  rewrite E0 in Ek. cbn [app] in Ek. subst k'. rewrite bupd_same, app_nil_r, bupd_same.
  rewrite <- (each_get (fun x => conn (mg (sides n x)) (own x))). change (each _) with (pc (abs n)). rewrite bupd_same.
  pose proof (no_pair _ Hn) as HP. by destruct (abs n).
Qed.

Lemma poll_event n x p rest h body ev m c out : net_ok n -> inbox (dev (mg (sides n x))) = p :: rest -> read_header_and_body p = Ok (h, body) ->
  from_header h = Ok ev -> cid (e_destination ev) = cid (addr x) ->
  forall listening, fst (s_event (cap x) (cid (addr x)) listening (event_key ev) ev body (conn (mg (sides n x)) (event_key ev))) = (c, out) ->
  effect (mg (sides n x)) m (event_key ev) c out rest ->
  net_ok (mkNet (bupd (sides n) x (set_mg m (sides n x))) (chan n)).
Proof.
  intros Hn Hi Hd Hev Hcid listening Hr EF. pose proof (no_side _ Hn x) as Hx. destruct (from_header_spec h ev Hev) as (_ & _ & Es & Ed & _).
  assert (dec p = Some (h, body)) as Hdec by (unfold dec; by rewrite Hd).
  assert (hdr_ok h) as [K1 K2 _ _ _] by (apply (so_in _ _ Hx p (h, body)); [rewrite Hi; by left|done]).
  assert (key_ok (event_key ev)) as Hk by (unfold key_ok, event_key; rewrite Es, Ed; cbn; lia).
  destruct (event_reply_ok (cid (addr x)) (cap x) (event_key ev) listening ev body (conn (mg (sides n x)) (event_key ev))) as [R1 R2].
  { intros e He. by apply (so_conns _ _ Hx). }
  rewrite Hr in R1, R2. cbn [fst snd] in R1, R2.
  destruct (pop_sim n x p rest m _ c out Hn Hi EF (or_intror Hk) R1 R2) as [Hs (k' & Ek & Ea)].
  apply net_ok_side; [done..|]. rewrite Ea. cbn [omap list_omap] in Ek. rewrite Hdec in Ek.
  assert (event_key ev = own x <-> of_pair (negb x) (h, body)) as Hown.
  { unfold event_key, pair_key, of_pair. cbn [fst]. rewrite negb_involutive, <- Es, <- Ed. destruct (e_destination ev) as [dc dp], (addr x) as [xc xp]. cbn in *.
    split; [intros [= -> ->]; by subst|intros [-> [= -> ->]]; done]. }
  destruct (decide (event_key ev = own x)) as [E|E].
  - rewrite filter_cons_True in Ek by by apply Hown. cbn [app] in Ek.
    pose proof (event_step_ok addr cap addr_ok cap_ok (abs n) x listening h body k' ev (no_pair _ Hn) Ek Hev) as HP.
    unfold pair_call in HP. cbn [pc psent pgot pk] in HP. rewrite !app_nil_r, !bupd_same, bupd_negb' in HP.
    change (pc (abs n) x) with (each (fun x => conn (mg (sides n x)) (own x)) x) in HP. rewrite each_get, <- E, Hr in HP. exact HP.
  - rewrite filter_cons_False in Ek by by rewrite <- Hown. cbn [app] in Ek. change (filter (of_pair (negb x)) []) with (@nil packet) in Ek. cbn [app] in Ek.
    subst k'. rewrite bupd_same, app_nil_r, bupd_same. pose proof (no_pair _ Hn) as HP. by destruct (abs n).
Qed.

Lemma poll_sim n x : net_ok n ->
  exists m r, poll (mg (sides n x)) = Some (Ret (m, r)) /\ net_ok (mkNet (bupd (sides n) x (set_mg m (sides n x))) (chan n)).
Proof.
  intros Hn. pose proof (no_side _ Hn x) as Hx. pose proof (mgr_poll_ok _ (so_mgr _ _ Hx)) as HP. unfold poll_spec in HP.
  destruct (inbox (dev (mg (sides n x)))) as [|p rest] eqn:Ei.
  { destruct HP as (m & Em & EF).
    destruct (call_sim n x poll (own x) (conn (mg (sides n x)) (own x), [], Ok None) Hn) as (m' & Em' & HM).
    { exists m. split; [done|]. rewrite Ei. apply EF. }
    { apply reply_ok_silent. intros e. by apply own_sane. }
    { left. apply own_key_ok. }
    exists m', (Ok None). split; [done|]. destruct (HM (gsent (sides n x)) (ggot (sides n x))) as [Hs Ea]. apply net_ok_side; [done..|].
    unfold set_mg. rewrite Ea, !decide_True by done. cbn [fst snd]. rewrite app_nil_r, bupd_same.
    rewrite <- (each_get (fun x => conn (mg (sides n x)) (own x))), <- (each_get (fun x => gsent (sides n x))), <- (each_get (fun x => ggot (sides n x))).
    rewrite !bupd_same. apply Hn. }
  unfold event_of in HP. destruct (read_header_and_body p) as [[h body]|e] eqn:Er.
  2:{ destruct HP as (m & Em & EF). exists m, (Err e). split; [done|]. apply (pop_ignored n x p rest); try done.
      intros q. unfold dec. by rewrite Er. }
  assert (dec p = Some (h, body)) as Hdec by (unfold dec; by rewrite Er).
  destruct (from_header h) as [ev|e] eqn:Eh.
  2:{ destruct HP as (m & Em & EF). exists m, (Err e). split; [done|]. apply (pop_ignored n x p rest); try done.
      intros q Hq Hof. rewrite Hdec in Hq. injection Hq as <-. assert (pkt_ok addr cap (negb x) (h, body)) as Hpk.
      { eapply (proj1 (Forall_forall _ _) (pp_pkts _ _ _ (no_pair _ Hn) (negb x))). cbn [abs pk]. rewrite each_get. apply list_elem_of_filter. split; [done|].
        unfold transit. rewrite negb_involutive, Ei. cbn [omap list_omap]. rewrite Hdec. by left. }
      destruct (pkt_event _ _ _ Hpk). congruence. }
  rewrite (so_cid _ _ Hx), (so_cap _ _ Hx) in HP. destruct (Z.eqb_spec (cid (e_destination ev)) (cid (addr x))) as [Ec|Ec].
  - destruct (s_event _ _ _ _ _ _ _) as [[c out] r] eqn:Es. destruct HP as (m & Em & EF). exists m, r. split; [done|].
    eapply (poll_event n x p rest h body ev m c out); try done. by rewrite Es.
  - destruct HP as (m & Em & EF). exists m, (Ok None). split; [done|]. apply (pop_ignored n x p rest); try done.
    intros q Hq [_ Hof]. rewrite Hdec in Hq. injection Hq as <-. cbn [fst] in Hof. rewrite negb_involutive in Hof.
    destruct (from_header_spec h ev Eh) as (_ & _ & _ & Ed & _). congruence.
Qed.

(** ** Every call *)
Lemma call_op {A} n x (f : call manager A) k (r : reply A) (g : A -> side -> side) tx rx :
  net_ok n -> implements f (mg (sides n x)) k r -> reply_ok (cid (addr x)) (cap x) k r -> (key_ok k \/ fst r = (None, [])) ->
  (forall m, match snd r with Ok a => g a (set_mg m (sides n x)) | Err _ => set_mg m (sides n x) end
     = mkSide m (gsent (sides n x) ++ tx) (ggot (sides n x) ++ rx)) ->
  (k <> own x -> tx = [] /\ rx = []) -> (k = own x -> pair_ok addr cap (pair_call x r tx rx (abs n))) ->
  exists s, after_call (sides n x) (f (mg (sides n x))) g = Some s /\ net_ok (mkNet (bupd (sides n) x s) (chan n)).
Proof.
  intros Hn Hf Hr Hk Hg Hne Heq. destruct (call_sim n x f k r Hn Hf Hr Hk) as (m & Em & HM).
  destruct (HM (gsent (sides n x) ++ tx) (ggot (sides n x) ++ rx)) as [Hs Ea].
  exists (mkSide m (gsent (sides n x) ++ tx) (ggot (sides n x) ++ rx)). split.
  { unfold after_call. rewrite Em. specialize (Hg m). destruct (snd r); by rewrite <- Hg. }
  apply net_ok_side; [done..|]. rewrite Ea.
  destruct (decide (k = own x)) as [E|E].
  - specialize (Heq E). unfold pair_call in Heq. cbn [abs psent pgot] in Heq. rewrite !each_get in Heq. exact Heq.
  - destruct (Hne E) as [-> ->]. rewrite !app_nil_r.
    rewrite <- (each_get (fun x => gsent (sides n x))), <- (each_get (fun x => ggot (sides n x))). rewrite !bupd_same. apply Hn.
Qed.

Lemma conn_key_ok {A} n x k (f : option sconn -> reply A) : net_ok n -> fst (f None) = (None, []) ->
  key_ok k \/ fst (f (conn (mg (sides n x)) k)) = (None, []).
Proof.
  intros Hn Hf. destruct (conn (mg (sides n x)) k) as [c|] eqn:Ec; [left|by right]. by eapply (so_conns _ _ (no_side _ Hn x)).
Qed.

Lemma ports_op n x l : net_ok n -> net_ok (mkNet (bupd (sides n) x (set_mg (set_ports l (mg (sides n x))) (sides n x))) (chan n)).
Proof.
  intros Hn. destruct (no_side _ Hn x) as [[M1 M2 M3] S2 S3 S4 S5 S6]. apply net_ok_side; [done|by split; [split|..]|].
  assert (abs (mkNet (bupd (sides n) x (set_mg (set_ports l (mg (sides n x))) (sides n x))) (chan n)) = abs n) as ->; [|apply Hn].
  destruct n as [[[ma ? ?] [mb ? ?]] [? ?]]. by destruct x.
Qed.

Lemma op_sim n x o : net_ok n -> op_ok (own x) (sides n x) o ->
  exists s, run_op (own x) o (sides n x) = Some s /\ net_ok (mkNet (bupd (sides n) x s) (chan n)).
Proof.
  intros Hn [Ho Hagain]. pose proof (no_side _ Hn x) as Hx. pose proof (so_mgr _ _ Hx) as Hm.
  assert (forall k, conn (mg (sides n x)) k = if decide (k = own x) then pc (abs n) x else conn (mg (sides n x)) k) as Hpc.
  { intros k. case_decide; [|done]. subst k. cbn [abs pc]. by rewrite each_get. }
  assert (forall k, k = own x -> conn (mg (sides n x)) k = pc (abs n) x) as Hpc' by (intros k ->; rewrite Hpc; by rewrite decide_True).
  pose proof (fun k => replies_ok (cid (addr x)) (cap x) k (conn (mg (sides n x)) k) (fun e He => proj2 (so_conns _ _ Hx k e He))) as HR.
  pose proof (pair_step_ok addr cap addr_ok cap_ok (abs n)) as HS. pose proof (no_pair _ Hn) as HP.
  rewrite <- (so_cid _ _ Hx), <- (so_cap _ _ Hx) in HR. pose proof (so_cid _ _ Hx) as Ecid. pose proof (so_cap _ _ Hx) as Ecap.
  destruct o as [p|p|k|k bytes| |k j|k|k|k|k]; cbn [run_op typed] in *.
  - eexists. split; [done|]. unfold listen. case_bool_decide; [|by apply ports_op].
    pose proof (ports_op n x (listening_ports (mg (sides n x))) Hn) as HH'. by destruct (mg (sides n x)).
  - eexists. split; [done|]. by apply ports_op.
  - eapply (call_op n x _ k _ _ [] []); [done|by apply mgr_connect_ok|rewrite <- Ecid, <- Ecap; apply (HR k)|by left|..]; try done.
    + intros m. rewrite !app_nil_r. by destruct (snd _).
    + intros E. destruct (Hagain ltac:(by rewrite E)) as [e He]. rewrite <- E, (Hpc' k E) in He. rewrite (Hpc' k E), He. cbn [s_connect]. unfold refuse.
      rewrite <- He. by apply same_call_ok.
  - set (r := s_send (manager_cid (mg (sides n x))) bytes (conn (mg (sides n x)) k)).
    eapply (call_op n x _ k r _ (if decide (k = own x) then sent_of r bytes else []) []); [done|by apply send_ok|rewrite <- Ecid, <- Ecap; apply (HR k)|by apply conn_key_ok|..].
    + intros m. unfold sent_of. rewrite app_nil_r. destruct (snd r); case_decide; by rewrite ?app_nil_r.
    + intros E. by rewrite decide_False.
    + intros E. rewrite decide_True by done. apply HS; [done|]. subst r. rewrite (Hpc' k E), Ecid. apply ps_send.
  - destruct (poll_sim n x Hn) as (m & r & -> & Hok). eexists. split; [|exact Hok]. by destruct r.
  - set (r := s_recv (manager_cid (mg (sides n x))) j (conn (mg (sides n x)) k)).
    eapply (call_op n x _ k r _ [] (if decide (k = own x) then got_of r else [])); [done|by apply mgr_recv_ok|rewrite <- Ecid, <- Ecap; apply (HR k)|by apply conn_key_ok|..].
    + intros m. unfold got_of. rewrite app_nil_r. destruct (snd r); case_decide; by rewrite ?app_nil_r.
    + intros E. by rewrite decide_False.
    + intros E. rewrite decide_True by done. apply HS; [done|]. subst r. rewrite (Hpc' k E), Ecid. by apply ps_recv.
  - eapply (call_op n x _ k _ _ [] []); [done|by apply available_ok|rewrite <- Ecid, <- Ecap; apply (HR k)|by apply conn_key_ok|..]; try done.
    + intros m. rewrite !app_nil_r. by destruct (snd _).
    + intros E. rewrite (Hpc' k E). unfold s_available, refuse. destruct (pc (abs n) x) eqn:Ep; rewrite <- Ep; by apply same_call_ok.
  - eapply (call_op n x _ k _ _ [] []); [done|by apply credit_ok|rewrite <- Ecid, <- Ecap; apply (HR k)|by apply conn_key_ok|..]; try done.
    + intros m. rewrite !app_nil_r. by destruct (snd _).
    + intros E. apply HS; [done|]. rewrite (Hpc' k E), Ecid. apply ps_credit.
  - eapply (call_op n x _ k _ _ [] []); [done|by apply shutdown_ok|rewrite <- Ecid, <- Ecap; apply (HR k)|by apply conn_key_ok|..]; try done.
    + intros m. rewrite !app_nil_r. by destruct (snd _).
    + intros E. apply HS; [done|]. rewrite (Hpc' k E), Ecid. apply ps_shutdown.
  - eapply (call_op n x _ k _ _ [] []); [done|by apply close_ok|rewrite <- Ecid, <- Ecap; apply (HR k)|by apply conn_key_ok|..]; try done.
    + intros m. rewrite !app_nil_r. by destruct (snd _).
    + intros E. apply HS; [done|]. rewrite (Hpc' k E), Ecid. apply ps_close.
Qed.

Lemma op_returns n x o : net_ok n -> typed o -> exists s, run_op (own x) o (sides n x) = Some s.
Proof.
  intros Hn Ho. destruct o as [p|p|k|k bytes| |k j|k|k|k|k].
  3:{ pose proof (mgr_connect_ok (mg (sides n x)) k (so_mgr _ _ (no_side _ Hn x))) as HC. unfold implements in HC.
      cbn [run_op]. unfold after_call. destruct (s_connect _ _ _ _) as [[c out] []], HC as (m & -> & _); by eexists. }
  all: edestruct (op_sim n x) as (s & E & _); [done|by split; [exact Ho|]|]; by exists s.
Qed.

(** ** The host *)
Lemma side_dev x s d l : side_ok x s -> dev_ok d -> outbox d = packet_bytes <$> l -> Forall wf l ->
  (forall b p, b ∈ inbox d -> dec b = Some p -> hdr_ok (fst p)) -> side_ok x (set_dev d s).
Proof. intros [[M1 M2 M3] S2 S3 S4 S5 S6] Hd Hl Hw Hi. split; [by split|done|done|done|by exists l|done]. Qed.

(** A step of the host that leaves the packets of the connection in order. *)
Lemma host_sim n x d (ch : two (list packet)) : net_ok n -> side_ok x (set_dev d (sides n x)) -> (forall y, Forall wf (ch y)) ->
  let n' := mkNet (bupd (sides n) x (set_dev d (sides n x))) ch in
  (forall y, filter (of_pair y) (transit n' y) = filter (of_pair y) (transit n y)) -> net_ok n'.
Proof.
  intros Hn Hs Hch n' Ht. split; [|done|].
  - refine (both _ x _ _); cbn [n' sides]; rewrite ?bupd_eq, ?bupd_negb; [done|apply Hn].
  - assert (abs n' = abs n) as ->; [|apply Hn].
    assert (each (fun x => filter (of_pair x) (transit n' x)) = each (fun x => filter (of_pair x) (transit n x))) as E by (unfold each; by rewrite !Ht).
    unfold abs. rewrite E. subst n'. destruct n as [[a b] c]. by destruct x.
Qed.

Lemma fetch_sim n x p rest h body : net_ok n -> outbox (dev (mg (sides n x))) = p :: rest -> read_header_and_body p = Ok (h, body) ->
  net_ok (mkNet (bupd (sides n) x (set_dev (host_take (dev (mg (sides n x)))) (sides n x)))
    (bupd (chan n) x (chan n x ++ (if h_dst_cid h =? cid (addr (negb x)) then [(h, body)] else [])))).
Proof.
  intros Hn Ho Hr. pose proof (no_side _ Hn x) as Hx. destruct (so_out _ _ Hx) as (l & El & Hl). rewrite Ho in El. destruct l as [|q l]; [done|].
  pose proof (f_equal (List.hd []) El) as Ep. pose proof (f_equal (@List.tl _) El) as Erest. cbn [fmap list_fmap List.hd List.tl] in Ep, Erest. apply Forall_cons in Hl as [Hq Hl].
  pose proof (dec_bytes q Hq) as Hd. rewrite <- Ep in Hd. assert (dec p = Some (h, body)) as Hdec by (unfold dec; by rewrite Hr). rewrite Hdec in Hd. injection Hd as <-.
  destruct (host_take_ok _ p rest (mo_dev _ (so_mgr _ _ Hx)) Ho) as (T1 & T2 & T3). apply host_sim; [done|..].
  - eapply side_dev; [done|done|by rewrite T3|done|]. intros b q. rewrite T2. apply Hx.
  - refine (both _ x _ _); rewrite ?bupd_eq, ?bupd_negb; [|apply Hn]. apply Forall_app. split; [apply Hn|]. case_match; [by constructor|done].
  - refine (both _ x _ _); unfold transit; cbn [sides chan]; rewrite ?negb_involutive, ?bupd_eq, ?bupd_negb; cbn [dev set_dev set_mg mg set_driver driver device].
    + change (dev (set_driver _ _)) with (host_take (dev (mg (sides n x)))). rewrite T3, Ho. cbn [omap list_omap]. rewrite Hdec, !filter_app, <- !app_assoc.
      f_equal. f_equal. rewrite filter_cons. destruct (Z.eqb_spec (h_dst_cid h) (cid (addr (negb x)))) as [E|E].
      * rewrite filter_cons. by destruct (decide _).
      * rewrite decide_False; [done|]. intros [_ E']. cbn [fst] in E'. apply E. by rewrite <- E'.
    + change (dev (set_driver _ _)) with (host_take (dev (mg (sides n x)))). by rewrite T2.
Qed.

Lemma deliver_sim n x p rest d : net_ok n -> chan n (negb x) = p :: rest -> host_put (packet_bytes p) (dev (mg (sides n x))) = Some d ->
  net_ok (mkNet (bupd (sides n) x (set_dev d (sides n x))) (bupd (chan n) (negb x) rest)).
Proof.
  intros Hn Hc Hp. pose proof (no_side _ Hn x) as Hx. destruct (host_put_ok _ _ d (mo_dev _ (so_mgr _ _ Hx)) Hp) as (T1 & T2 & T3).
  pose proof (no_chan _ Hn (negb x)) as HF. rewrite Hc in HF. apply Forall_cons in HF as [Hw HF]. destruct (so_out _ _ Hx) as (l & El & Hl). apply host_sim; [done|..].
  - eapply side_dev; [done|done|by rewrite T3|done|]. intros b q. rewrite T2, elem_of_app, list_elem_of_singleton. intros [Hb| ->]; [by apply Hx|].
    rewrite dec_bytes by done. intros [= <-]. apply Hw.
  - refine (both _ x _ _); rewrite ?bupd_eq, ?bupd_negb'; [apply Hn|done].
  - refine (both _ x _ _); unfold transit; cbn [sides chan]; rewrite ?negb_involutive, ?bupd_eq, ?bupd_negb, ?bupd_negb'.
    + change (dev (mg (set_dev d (sides n x)))) with d. by rewrite T3.
    + change (dev (mg (set_dev d (sides n x)))) with d. rewrite T2, omap_app, Hc. cbn [omap list_omap]. rewrite dec_bytes by done. by rewrite <- app_assoc.
Qed.

Lemma inject_sim n x b d : net_ok n -> Forall (fun c => is_byte c = true) b -> (forall p, dec b = Some p -> ~ of_pair (negb x) p) ->
  host_put b (dev (mg (sides n x))) = Some d -> net_ok (mkNet (bupd (sides n) x (set_dev d (sides n x))) (chan n)).
Proof.
  intros Hn Hb Hno Hp. pose proof (no_side _ Hn x) as Hx. destruct (host_put_ok _ _ d (mo_dev _ (so_mgr _ _ Hx)) Hp) as (T1 & T2 & T3).
  destruct (so_out _ _ Hx) as (l & El & Hl). apply host_sim; [done| |apply Hn|].
  - eapply side_dev; [done|done|by rewrite T3|done|]. intros b' q. rewrite T2, elem_of_app, list_elem_of_singleton. intros [Hb'| ->]; [by apply Hx|].
    by apply dec_hdr_ok.
  - refine (both _ x _ _); unfold transit; cbn [sides chan]; rewrite ?negb_involutive, ?bupd_eq, ?bupd_negb.
    + change (dev (mg (set_dev d (sides n x)))) with d. by rewrite T3.
    + change (dev (mg (set_dev d (sides n x)))) with d. rewrite T2, omap_app, !filter_app. f_equal.
      cbn [omap list_omap]. destruct (dec b) as [p|] eqn:Ed; [|by rewrite app_nil_r]. rewrite filter_cons_False by by apply Hno. by rewrite app_nil_r.
Qed.

Lemma split_sim n x h body rest j : net_ok n -> chan n x = (h, body) :: rest -> h_op h = op_code Rw -> 0 <= j <= len body ->
  net_ok (mkNet (sides n) (bupd (chan n) x ((with_len j h, take (Z.to_nat j) body) :: (with_len (len body - j) h, drop (Z.to_nat j) body) :: rest))).
Proof.
  intros Hn Hc Hop Hj. set (n' := mkNet _ _). pose proof (no_chan _ Hn x) as HF. rewrite Hc in HF. apply Forall_cons in HF as [[[H1 H2 H3 H4 H5] Hlen] HF]. cbn [fst snd] in *.
  assert (pk (abs n') = bupd (pk (abs n)) x (filter (of_pair x) (transit n' x))) as Epk by (subst n'; destruct n as [[? ?] [? ?]]; by destruct x).
  assert (abs n' = mkPair (pc (abs n)) (psent (abs n)) (pgot (abs n)) (pk (abs n'))) as Ea by done. rewrite Epk in Ea.
  assert (transit n' x = omap dec (inbox (dev (mg (sides n (negb x))))) ++ (with_len j h, take (Z.to_nat j) body) :: (with_len (len body - j) h, drop (Z.to_nat j) body)
            :: rest ++ omap dec (outbox (dev (mg (sides n x))))) as Et by (unfold transit; cbn [sides chan n']; by rewrite bupd_eq).
  split; [apply Hn| |].
  - refine (both _ x _ _); cbn [n' chan]; rewrite ?bupd_eq, ?bupd_negb; [|apply Hn]. repeat apply Forall_cons_2; try done; (split; [split; cbn; try done; lia|]); cbn [fst snd with_len h_len].
    + rewrite len_take by lia. lia.
    + rewrite len_drop by lia. lia.
  - rewrite Ea. assert (pk (abs n) x = filter (of_pair x) (omap dec (inbox (dev (mg (sides n (negb x))))))
      ++ filter (of_pair x) ((h, body) :: rest ++ omap dec (outbox (dev (mg (sides n x)))))) as Ex.
    { cbn [abs pk]. rewrite each_get. unfold transit. by rewrite Hc, filter_app. }
    destruct (decide (of_pair x (h, body))) as [Hof|Hof].
    + rewrite Et, filter_app. rewrite (filter_cons_True _ (h, body)) in Ex by done. rewrite !filter_cons_True by done.
      by apply (split_step_ok addr cap addr_ok cap_ok h body j Hop Hj (abs n) x _ _ (no_pair _ Hn)).
    + rewrite (filter_cons_False _ (h, body)) in Ex by done.
      assert (filter (of_pair x) (transit n' x) = pk (abs n) x) as ->.
      { rewrite Et, filter_app. rewrite !filter_cons_False by done. exact (eq_sym Ex). }
      rewrite bupd_same.
      pose proof (no_pair _ Hn) as HP. by destruct (abs n).
Qed.

Lemma net_step_ok n n' : net_ok n -> net_step n n' -> net_ok n'.
Proof.
  intros Hn Hst. destruct Hst as [x o n s Ho Hr|x n p rest h body Ho Hr|x n p rest d Hc Hp|x n h body rest j Hc Hop Hj|x n b d Hb Hno Hp].
  - destruct (op_sim n x o Hn Ho) as (s' & E & Hok). congruence.
  - by eapply fetch_sim.
  - by eapply deliver_sim.
  - by apply split_sim.
  - by eapply inject_sim.
Qed.

(** ** The theorem *)

(** Nothing of the connection exists yet. *)
Definition fresh_net (n : net) : Prop := forall x,
  side_ok x (sides n x) /\ Forall wf (chan n x) /\ conn (mg (sides n x)) (own x) = None
  /\ gsent (sides n x) = [] /\ ggot (sides n x) = [] /\ filter (of_pair x) (transit n x) = [].

(** Runs from the call of the first side that asks for the connection. *)
Inductive net_reach (n0 : net) : net -> Prop :=
  | nr_start m : connect (fst (own false)) (snd (own false)) (mg (sides n0 false)) = Some (Ret (m, Ok tt)) ->
      net_reach n0 (mkNet (bupd (sides n0) false (set_mg m (sides n0 false))) (chan n0))
  | nr_step n n' : net_reach n0 n -> net_step n n' -> net_reach n0 n'.

Lemma start_ok n0 m : fresh_net n0 -> connect (fst (own false)) (snd (own false)) (mg (sides n0 false)) = Some (Ret (m, Ok tt)) ->
  net_ok (mkNet (bupd (sides n0) false (set_mg m (sides n0 false))) (chan n0)).
Proof.
  intros Hf Hm. destruct (Hf false) as (Hs & Hw & Hc & G1 & G2 & Ht). destruct (Hf true) as (Hs' & Hw' & Hc' & G1' & G2' & Ht').
  pose proof (mgr_connect_ok (mg (sides n0 false)) (own false) (so_mgr _ _ Hs)) as HC.
  rewrite Hc, (so_cid _ _ Hs), (so_cap _ _ Hs) in HC. destruct HC as (m' & Em & EF). rewrite Hm in Em. injection Em as <-.
  destruct (own_packets false (own false) [bare Request 0 (cid (addr false)) (s_new (cap false) (own false))] (own_key_ok false)) as [Hwf Hfo].
  { constructor; [|done]. apply bare_from; [apply sane_new|lia]. }
  rewrite decide_True in Hfo by done.
  destruct (abs_call n0 false (set_mg m (sides n0 false)) _ _ [] (ef_out _ _ _ _ _ _ EF) Hwf eq_refl (ef_in _ _ _ _ _ _ EF)) as [T1 T2].
  rewrite Ht, Hfo in T1. cbn [negb omap list_omap app] in T2. rewrite Ht' in T2.
  split.
  - intros []; cbn [sides]; [by rewrite (bupd_negb _ false)|rewrite bupd_eq].
    eapply side_call; [exact Hs|exact EF|done| |done]. intros e [= <-]. split; [apply own_key_ok|apply sane_new].
  - intros []; done.
  - assert (abs (mkNet (bupd (sides n0) false (set_mg m (sides n0 false))) (chan n0)) = pair_start addr cap) as ->; [|by apply pair_start_ok].
    rewrite abs_side. unfold pair_start. cbn [set_mg mg gsent ggot]. rewrite (ef_conn _ _ _ _ _ _ EF (own false)), decide_True by done.
    unfold abs. cbn [pc psent pgot]. unfold each. cbn [bupd]. rewrite Hc', G1, G1', G2, G2', T1. cbn [app].
    change (filter (of_pair true) [] ++ ?a) with a in T2. by rewrite <- T2.
Qed.

Lemma net_reach_ok n0 n : fresh_net n0 -> net_reach n0 n -> net_ok n.
Proof. intros Hf. induction 1 as [m Hm|n n' _ IH Hst]; [by apply start_ok|by eapply net_step_ok]. Qed.

(** C38.  Two connection managers and a host between them, which may delay and cut
    packets, from the call with which one side asks for a connection.  Both sides
    make any calls on any connections, in any order, and there are any foreign
    packets; the one exception is that a side that does not have the connection
    (any more, or not yet) does not call [connect] for it.  Then, in both
    directions of the connection, what is received is at every moment a prefix of
    what was sent; while the receiver's connection exists, the bytes received,
    those in its buffer and those on their way are together exactly those sent;
    the bytes sent and not yet received never exceed the receiver's buffer, so
    that none is refused; and no call, the excepted one included, panics or
    hangs.  The exception is needed: [VsockDemo.reconnect_loses_bytes]. *)
Theorem vsock_stream n0 n x : fresh_net n0 -> net_reach n0 n ->
  ggot (sides n (negb x)) `prefix_of` gsent (sides n x)
  /\ (forall c, conn (mg (sides n (negb x))) (own (negb x)) = Some c ->
        ggot (sides n (negb x)) ++ s_data c ++ flight (filter (of_pair x) (transit n x)) = gsent (sides n x))
  /\ len (gsent (sides n x)) <= len (ggot (sides n (negb x))) + cap (negb x)
  /\ (forall o, typed o -> exists s, run_op (own x) o (sides n x) = Some s).
Proof.
  intros Hf Hr. pose proof (net_reach_ok n0 n Hf Hr) as Hn. pose proof (no_pair _ Hn) as HP. split_and!.
  - pose proof (pp_prefix _ _ _ HP x) as H1. cbn [abs psent pgot] in H1. by rewrite !each_get in H1.
  - intros c Hc. rewrite <- (each_get (fun x => conn (mg (sides n x)) (own x)) (negb x)) in Hc.
    pose proof (eo_data _ _ _ _ _ (pp_end _ _ _ HP (negb x) c Hc)) as H1. cbn [abs psent pgot pk] in H1.
    by rewrite !each_get, negb_involutive in H1.
  - pose proof (pp_bound _ _ _ HP x) as H1. cbn [abs psent pgot] in H1. by rewrite !each_get in H1.
  - intros o. by apply op_returns.
Qed.
End Net.
