(* ===== verification/VsockDevice.v ===== *)
(** * Virtio sockets over virtqueues

    The queues behind the class [SocketDevice]: a receive queue that owns its
    buffers and a transmit queue, in memory shared with a host that serves them
    in order.  The theorems show that they keep the promises [SocketLaws] and
    [SocketHost], so that the theorems on the connection manager hold of the
    driver with its queues.  [pci_socket_new] is [VirtIOSocket::new] over the
    PCI transport. *)

From S2P Require Import Prelude Virtqueue VirtqueueProps OwningQueue Vsock VsockManager VsockProps VsockPair VsockNet.
Open Scope mach_scope.

Definition QUEUE_SIZE : Z := 8.
Definition DEFAULT_RX_BUFFER_SIZE : Z := 512.
Notation RX_SIZE := DEFAULT_RX_BUFFER_SIZE.

(** [q_sent]: what the host read from the transmit queue and has not passed on;
    [q_kicks]: the notifications.  The buffers given to the transmit queue lie
    from [q_at] on. *)
Record queues := mkQueues {
  q_rx : OwningQueue;
  q_tx : VirtQueue;
  q_mem : Z -> Z;
  q_at : Z;
  q_kicks : list Z;
  q_sent : list (list Z);
}.
Definition set_q_rx (o : OwningQueue) (d : queues) : queues := mkQueues o (q_tx d) (q_mem d) (q_at d) (q_kicks d) (q_sent d).
Definition set_q_tx (q : VirtQueue) (d : queues) : queues := mkQueues (q_rx d) q (q_mem d) (q_at d) (q_kicks d) (q_sent d).
Definition set_q_mem (m : Z -> Z) (d : queues) : queues := mkQueues (q_rx d) (q_tx d) m (q_at d) (q_kicks d) (q_sent d).
Definition set_q_sent (l : list (list Z)) (d : queues) : queues := mkQueues (q_rx d) (q_tx d) (q_mem d) (q_at d) (q_kicks d) l.
Definition kick (i : Z) (d : queues) : queues := mkQueues (q_rx d) (q_tx d) (q_mem d) (q_at d) (i :: q_kicks d) (q_sent d).

(** ** The host *)

(** One completion: the entry [(token, n)] is put in the used ring. *)
Definition complete (token n : Z) (q : VirtQueue) : VirtQueue :=
  set_used (vq_used_flags q) (u16 (vq_used_idx q + 1)) (fupd (vq_used_ring q) (Z.land (vq_used_idx q) (QUEUE_SIZE - 1)) (token, n)) (vq_avail_event q) q.
Definition next_avail (q : VirtQueue) : Z := vq_avail_ring q (Z.land (vq_used_idx q) (QUEUE_SIZE - 1)).

Definition gather (m : Z -> Z) (chain : list (Z * Z * bool)) : list Z :=
  concat ((fun x => if snd x : bool then [] else mem_load m (fst (fst x)) (snd (fst x))) <$> chain).
(** The host reads a request of the transmit queue, if there is one. *)
Definition serve_tx (d : queues) : queues :=
  let q := q_tx d in
  if vq_used_idx q =? vq_avail_ring_idx q then d else
  let token := next_avail q in
  set_q_sent (q_sent d ++ [gather (q_mem d) (dev_read QUEUE_SIZE q token)]) (set_q_tx (complete token 0 q) d).
(** The host writes a packet to the next receive buffer, if it fits. *)
Definition put_rx (p : list Z) (d : queues) : option queues :=
  let q := oq_queue (q_rx d) in
  if vq_used_idx q =? vq_avail_ring_idx q then None else
  let token := next_avail q in
  match dev_read QUEUE_SIZE q token with
  | [(a, n, true)] =>
      if len p <=? n then
        Some (set_q_mem (mem_store (q_mem d) a p) (set_q_rx (mkOwning (complete token (len p) q) (oq_buffers (q_rx d))) d))
      else None
  | _ => None
  end.

(** ** The driver's side *)

(** The inputs of a request, one after the other in memory. *)
Fixpoint lay_out (a : Z) (inputs : list (list Z)) : list bslice :=
  match inputs with [] => [] | b :: r => mkSlice a (len b) :: lay_out (a + len b) r end.

#[export] Instance queues_device : SocketDevice queues := {
  rx_pop d :=
    '(o, r) ← pop QUEUE_SIZE RX_SIZE (q_mem d) (q_rx d);
    Ret (set_q_rx o d, r);
  rx_add t d :=
    '(o, notified, r) ← add_buffer_to_queue QUEUE_SIZE RX_SIZE t (q_rx d);
    Ret ((if notified : bool then kick (queue_idx (oq_queue o)) else Datatypes.id) (set_q_rx o d), r);
  tx_send inputs d :=
    add_notify_wait_pop q_tx set_q_tx serve_tx kick QUEUE_SIZE 1 0 (lay_out (q_at d) inputs) []
      (set_q_mem (mem_store (q_mem d) (q_at d) (concat inputs)) d);
}.

(** ** Adding and popping one receive buffer *)
Lemma slot_mod x : Z.land x (QUEUE_SIZE - 1) = x mod 8.
Proof. change (QUEUE_SIZE - 1) with (Z.ones 3). by rewrite Z.land_ones. Qed.
Lemma u16_mod8 x : u16 x mod 8 = x mod 8.
Proof. unfold u16, wrap. change (2 ^ 16) with (8 * 8192). rewrite Z.rem_mul_r by lia. rewrite Z.mul_comm, Z.mod_add, Z.mod_mod by lia. done. Qed.

(** A receive buffer at [a] in descriptor [t]. *)
Definition posted (q : VirtQueue) (t a : Z) : Prop :=
  vq_desc q t = desc_shadow q t /\ exists nx, desc_shadow q t = mkDesc a RX_SIZE DESC_WRITE nx.

Lemma posted_read q t a : posted q t a -> dev_read QUEUE_SIZE q t = [(a, RX_SIZE, true)].
Proof. intros [E1 (nx & E2)]. unfold dev_read. change (Z.to_nat QUEUE_SIZE) with 8%nat. cbn [dev_chain]. rewrite E1, E2. done. Qed.

Lemma rd_ok q t : 0 <= t < 8 -> rd_shadow QUEUE_SIZE q t = Ret (desc_shadow q t).
Proof. intros Ht. unfold rd_shadow, idx_ok. by rewrite (proj2 (Z.leb_le 0 t)), (proj2 (Z.ltb_lt t QUEUE_SIZE)) by (unfold QUEUE_SIZE; lia). Qed.

Lemma rx_add_one a q t : free_head q = t -> 0 <= t < 8 -> 0 <= num_used q < 8 -> 0 <= avail_idx q < 2 ^ 16 ->
  exists q', add QUEUE_SIZE 0 [] [mkSlice a RX_SIZE] q = Ret (q', VOk t) /\ posted q' t a
    /\ (forall j b, j <> t -> posted q j b -> posted q' j b) /\ num_used q' = num_used q + 1
    /\ free_head q' = d_next (desc_shadow q t) /\ (forall j, j <> t -> desc_shadow q' j = desc_shadow q j)
    /\ avail_idx q' = u16 (avail_idx q + 1) /\ vq_avail_ring_idx q' = u16 (avail_idx q + 1)
    /\ vq_avail_ring q' = fupd (vq_avail_ring q) (avail_idx q mod 8) t.
Proof.
  intros Ht Hr Hn Ha. unfold add. change ((len [] =? 0) && (len [mkSlice a RX_SIZE] =? 0)) with false. cbn [len].
  change (len [] + len [mkSlice a RX_SIZE]) with 1. rewrite (proj2 (Z.ltb_ge QUEUE_SIZE (num_used q + 1))), (proj2 (Z.ltb_ge QUEUE_SIZE 1)) by (unfold QUEUE_SIZE; lia).
  rewrite !andb_false_r. change (1 <? 1) with false. rewrite ?andb_false_r. cbn [orb].
  change (InputOutputIter [] [mkSlice a RX_SIZE]) with [(mkSlice a RX_SIZE, DeviceToDriver)]. unfold add_direct. cbn [add_loop b_len].
  change (RX_SIZE =? 0) with false. rewrite Ht, (rd_ok q t) by done. cbn [mbind outcome_bind].
  change (set_buf (mkSlice a RX_SIZE) DeviceToDriver DESC_NEXT (desc_shadow q t)) with (Ret (mkDesc a RX_SIZE 3 (d_next (desc_shadow q t)))). cbn [mbind outcome_bind].
  rewrite rd_ok by done. cbn [mbind outcome_bind]. eexists. split; [done|].
  cbn. rewrite slot_mod, !fupd_eq. unfold posted. cbn. rewrite !fupd_eq. cbn. split_and!; try done.
  - by eexists.
  - intros j b Hj [E1 E2]. rewrite !fupd_ne by done. done.
  - unfold u16, len. cbn [length]. rewrite wrap_small; lia.
  - intros j Hj. by rewrite !fupd_ne by done.
Qed.

Lemma rx_pop_one a q t : can_pop q = true -> u16 (fst (vq_used_ring q (used_slot QUEUE_SIZE q))) = t -> 0 <= t < 8 -> 0 < num_used q <= 8 ->
  posted q t a ->
  exists q', pop_used QUEUE_SIZE t [] [mkSlice a RX_SIZE] q = Ret (q', VOk (snd (vq_used_ring q (used_slot QUEUE_SIZE q))))
    /\ free_head q' = t /\ num_used q' = num_used q - 1 /\ last_used_idx q' = u16 (last_used_idx q + 1)
    /\ (forall j b, j <> t -> posted q j b -> posted q' j b).
Proof.
  intros Hc Ht Hr Hn [E1 (nx & E2)]. unfold pop_used. rewrite Hc, Ht, Z.eqb_refl. cbn [negb].
  change (InputOutputIter [] [mkSlice a RX_SIZE]) with [(mkSlice a RX_SIZE, DeviceToDriver)].
  unfold recycle_descriptors. rewrite rd_ok by done. cbn [mbind outcome_bind].
  cbn [set_free_head desc_shadow]. rewrite E2. cbn [d_flags]. change (Z.testbit DESC_WRITE 2) with false. cbn [recycle_loop b_len]. change (RX_SIZE =? 0) with false.
  rewrite rd_ok by done. cbn [mbind outcome_bind]. cbn [desc_shadow set_free_head]. rewrite E2.
  change (next (unset_buf (mkDesc a RX_SIZE DESC_WRITE nx))) with (@None Z). cbn [mbind outcome_bind]. eexists. split; [done|].
  assert (u16 (num_used q - 1) = num_used q - 1) as En by (unfold u16; rewrite wrap_small; lia).
  split_and!; try (destruct (event_idx _); cbn; done).
  intros j b Hj [F1 F2]. unfold posted. destruct (event_idx _); cbn; rewrite !fupd_ne by done; done.
Qed.

(** ** The receive queue *)

(** [U]: the buffers filled and not yet popped, with the packets [P]; [V]: those
    the host may fill; [t0]: a buffer taken out. *)
Section Rx.
Context (d : queues) (t0 : option Z) (U V : list Z) (P : list (list Z)).
Let q : VirtQueue := oq_queue (q_rx d).
Let bufs : list Z := oq_buffers (q_rx d).

Record rx_inv : Prop := {
  ri_bufs : length bufs = 8%nat;
  ri_apart i j a b : bufs !! i = Some a -> bufs !! j = Some b -> a + RX_SIZE <= q_at d /\ (i <> j -> a + RX_SIZE <= b \/ b + RX_SIZE <= a);
  ri_perm : option_list t0 ++ U ++ V ≡ₚ seqZ 0 8;
  ri_free t : t0 = Some t -> free_head q = t;
  ri_num : num_used q = len U + len V;
  ri_posted t a : t ∈ U ++ V -> bufs !! Z.to_nat t = Some a -> posted q t a;
  ri_last : 0 <= last_used_idx q < 2 ^ 16;
  ri_used : vq_used_idx q = u16 (last_used_idx q + len U);
  ri_ring j t p : U !! j = Some t -> P !! j = Some p -> vq_used_ring q ((last_used_idx q + Z.of_nat j) mod 8) = (t, len p);
  ri_idx : avail_idx q = u16 (last_used_idx q + len U + len V) /\ vq_avail_ring_idx q = avail_idx q;
  ri_avail j t : V !! j = Some t -> vq_avail_ring q ((last_used_idx q + len U + Z.of_nat j) mod 8) = t;
  ri_pkts : length P = length U;
  ri_mem j t p a : U !! j = Some t -> P !! j = Some p -> bufs !! Z.to_nat t = Some a -> len p <= RX_SIZE /\ mem_load (q_mem d) a (len p) = p;
}.

Hypothesis HI : rx_inv.

Lemma ri_token t : t ∈ U ++ V -> 0 <= t < 8.
Proof.
  intros Ht. assert (t ∈ seqZ 0 8) as Hs by (rewrite <- (ri_perm HI); apply elem_of_app; by right). apply elem_of_seqZ in Hs. lia.
Qed.
Lemma ri_buf t : t ∈ U ++ V -> exists a, bufs !! Z.to_nat t = Some a.
Proof. intros Ht. apply ri_token in Ht. apply lookup_lt_is_Some_2. rewrite (ri_bufs HI). lia. Qed.
Lemma ri_size : len (option_list t0) + len U + len V = 8.
Proof. pose proof (Permutation_length (ri_perm HI)) as E. rewrite !length_app, length_seqZ in E. unfold len. lia. Qed.
Lemma ri_nodup : NoDup (option_list t0 ++ U ++ V).
Proof. rewrite (ri_perm HI). apply NoDup_seqZ. Qed.
End Rx.

Definition q_inbox (d : queues) : list (list Z) :=
  let q := oq_queue (q_rx d) in
  (fun j => let e := vq_used_ring q ((last_used_idx q + j) mod 8) in
            mem_load (q_mem d) (nth (Z.to_nat (fst e)) (oq_buffers (q_rx d)) 0) (snd e))
  <$> seqZ 0 (u16 (vq_used_idx q - last_used_idx q)).

Lemma used_count d t0 U V P : rx_inv d t0 U V P -> u16 (vq_used_idx (oq_queue (q_rx d)) - last_used_idx (oq_queue (q_rx d))) = len U.
Proof.
  intros HI. rewrite (ri_used _ _ _ _ _ HI). pose proof (ri_size _ _ _ _ _ HI). pose proof (len_nonneg U). pose proof (len_nonneg V). pose proof (len_nonneg (option_list t0)).
  unfold u16, wrap. rewrite Zminus_mod_idemp_l. rewrite Z.mod_small; lia.
Qed.

Lemma inbox_inv d t0 U V P : rx_inv d t0 U V P -> q_inbox d = P.
Proof.
  intros HI. unfold q_inbox. rewrite (used_count _ _ _ _ _ HI). pose proof (ri_pkts _ _ _ _ _ HI) as Hl.
  apply list_eq_same_length with (n := length P); [done|rewrite length_fmap, length_seqZ; unfold len; lia|].
  intros j x y Hj Hx Hy. destruct (lookup_lt_is_Some_2 U j ltac:(lia)) as [t Ht].
  rewrite list_lookup_fmap, (proj2 (lookup_seqZ 0 (len U) j (Z.of_nat j))) in Hx by (unfold len; lia). cbn [fmap option_fmap option_map] in Hx. injection Hx as <-.
  rewrite (ri_ring _ _ _ _ _ HI j t y Ht Hy). cbn [fst snd].
  destruct (ri_buf _ _ _ _ _ HI t) as [a Ha]; [apply elem_of_app; left; by eapply list_elem_of_lookup_2|].
  rewrite (nth_lookup_Some _ _ _ _ Ha). by eapply (ri_mem _ _ _ _ _ HI).
Qed.

(** What the receive queue needs of the rest of the state. *)
Lemma rx_inv_ext d d' t0 U V P : rx_inv d t0 U V P -> q_rx d' = q_rx d -> q_at d' = q_at d -> (forall x, x < q_at d -> q_mem d' x = q_mem d x) ->
  rx_inv d' t0 U V P.
Proof.
  intros HI Er Ea Em. pose proof HI as [I1 I2 I3 I4 I5 I6 I7 I8 I9 I10 I11 I12 I13]. split; rewrite ?Er, ?Ea; try done.
  intros j t p a Hu Hp Hb. destruct (I13 j t p a Hu Hp Hb) as [H1 H2]. split; [done|]. rewrite <- H2 at 2.
  apply mem_load_ext. intros x Hx. apply Em. destruct (I2 _ _ a a Hb Hb) as [H3 _]. lia.
Qed.

Lemma pop_none d V P : rx_inv d None [] V P -> pop QUEUE_SIZE RX_SIZE (q_mem d) (q_rx d) = Ret (q_rx d, VOk None).
Proof.
  intros HI. unfold pop, peek_used, can_pop. rewrite (ri_used _ _ _ _ _ HI), len_nil, Z.add_0_r. unfold u16.
  rewrite wrap_small by apply HI. by rewrite Z.eqb_refl.
Qed.

Lemma pop_some d t U V p P : rx_inv d None (t :: U) V (p :: P) ->
  exists o, pop QUEUE_SIZE RX_SIZE (q_mem d) (q_rx d) = Ret (o, VOk (Some (p, t))) /\ rx_inv (set_q_rx o d) (Some t) U V P.
Proof.
  intros HI. pose proof (ri_size _ _ _ _ _ HI) as Hsz. pose proof (used_count _ _ _ _ _ HI) as Huc. pose proof (ri_nodup _ _ _ _ _ HI) as Hnd. rewrite len_cons in *. change (len (option_list None)) with 0 in *.
  pose proof (len_nonneg U). pose proof (len_nonneg V). pose proof (ri_ring _ _ _ _ _ HI 0 t p eq_refl eq_refl) as Hring. rewrite Z.add_0_r in Hring.
  assert (t ∈ (t :: U) ++ V) as Hin by by left. pose proof (ri_token _ _ _ _ _ HI t Hin) as Ht. destruct (ri_buf _ _ _ _ _ HI t Hin) as [a Ha].
  destruct (ri_mem _ _ _ _ _ HI 0 t p a eq_refl eq_refl Ha) as [Hpl Hpm]. pose proof (ri_posted _ _ _ _ _ HI t a Hin Ha) as Hpost.
  pose proof HI as [I1 I2 I3 I4 I5 I6 I7 I8 I9 I10 I11 I12 I13]. rewrite len_cons in *. set (q := oq_queue (q_rx d)) in *.
  assert (can_pop q = true) as Hcan.
  { unfold can_pop. apply negb_true_iff, Z.eqb_neq. intros E. rewrite <- E, Z.sub_diag in Huc. change (u16 0) with 0 in Huc. lia. }
  assert (vq_used_ring q (used_slot QUEUE_SIZE q) = (t, len p)) as Hslot by (unfold used_slot; by rewrite slot_mod).
  assert (u16 t = t) as Hu16 by (unfold u16; apply wrap_small; lia).
  destruct (rx_pop_one a q t Hcan ltac:(by rewrite Hslot) Ht ltac:(lia) Hpost) as (q' & Ep & P1 & P2 & P3 & P4). rewrite Hslot in Ep. cbn [snd] in Ep.
  destruct (pop_keeps _ _ _ _ _ _ _ Ep) as (K1 & K2 & K3 & K4 & K5 & _).
  exists (mkOwning q' (oq_buffers (q_rx d))). split.
  { unfold pop, peek_used. fold q. rewrite Hcan, Hslot. cbn [fst]. rewrite Hu16. unfold index. rewrite (proj2 (Z.leb_le 0 t)), Ha by lia. cbn [mbind outcome_bind].
    rewrite Ep. cbn [mbind outcome_bind]. by rewrite (proj2 (Z.ltb_ge _ _)), Hpm by lia. }
  assert (forall j x, U !! j = Some x -> x <> t) as Hne.
  { intros j x Hx ->. cbn in Hnd. apply NoDup_cons in Hnd as [Hni _]. apply Hni, elem_of_app. left. by eapply list_elem_of_lookup_2. }
  assert (forall x y, (u16 (last_used_idx q + 1) + x + y) mod 8 = (last_used_idx q + 1 + x + y) mod 8) as Hm8.
  { intros x y. rewrite <- !Z.add_assoc. rewrite <- (Zplus_mod_idemp_l (u16 _)), u16_mod8, Zplus_mod_idemp_l. f_equal. lia. }
  split; cbn [set_q_rx q_rx oq_queue oq_buffers q_at q_mem]; fold q; rewrite ?P1, ?P2, ?P3, ?K1, ?K2, ?K3, ?K4, ?K5; try done.
  - congruence.
  - lia.
  - intros x b Hx Hb. apply P4; [|apply I6; [by right|done]]. intros ->. cbn in Hnd. by apply NoDup_cons in Hnd as [? _].
  - apply wrap_range. lia.
  - rewrite I8. unfold u16, wrap. rewrite Zplus_mod_idemp_l. f_equal. lia.
  - intros j x y Hx Hy. rewrite <- (Z.add_0_r (u16 _ + Z.of_nat j)), Hm8. rewrite <- (I9 (S j) x y Hx Hy). f_equal. f_equal. lia.
  - destruct I10 as [I10 I10']. split; [|done]. rewrite I10. rewrite <- (Z.add_assoc (u16 _)). unfold u16, wrap. rewrite Zplus_mod_idemp_l. f_equal. lia.
  - intros j x Hx. rewrite Hm8. etrans; [|exact (I11 j x Hx)]. do 2 f_equal. lia.
  - cbn in I12. lia.
  - intros j x y b Hx Hy. exact (I13 (S j) x y b Hx Hy).
Qed.

Lemma add_back d t U V P : rx_inv d (Some t) U V P ->
  exists o n, add_buffer_to_queue QUEUE_SIZE RX_SIZE t (q_rx d) = Ret (o, n, VOk tt) /\ rx_inv (set_q_rx o d) None U (V ++ [t]) P.
Proof.
  intros HI. pose proof (ri_size _ _ _ _ _ HI) as Hsz. pose proof (ri_nodup _ _ _ _ _ HI) as Hnd. cbn [option_list app] in Hnd. apply NoDup_cons in Hnd as [Hni Hnd].
  change (len (option_list (Some t))) with 1 in Hsz. pose proof (len_nonneg U). pose proof (len_nonneg V).
  pose proof HI as [I1 I2 I3 I4 I5 I6 I7 I8 I9 I10 I11 I12 I13]. set (q := oq_queue (q_rx d)) in *.
  assert (0 <= t < 8) as Ht. { assert (t ∈ seqZ 0 8) as Hs by (rewrite <- I3; by left). apply elem_of_seqZ in Hs. lia. }
  destruct (lookup_lt_is_Some_2 (oq_buffers (q_rx d)) (Z.to_nat t) ltac:(rewrite I1; lia)) as [a Ha].
  assert (0 <= avail_idx q < 2 ^ 16) as Hav by (rewrite (proj1 I10); apply wrap_range; lia).
  destruct (rx_add_one a q t (I4 t eq_refl) Ht ltac:(lia) Hav) as (q' & E & A1 & A2 & A3 & _ & _ & A4 & A5 & A6).
  destruct (add_keeps _ _ _ _ _ _ _ E) as (K1 & K2 & K3 & _).
  exists (mkOwning q' (oq_buffers (q_rx d))), (should_notify q'). split.
  { unfold add_buffer_to_queue. rewrite Ha. fold q. rewrite E. cbn [mbind outcome_bind]. by rewrite Z.eqb_refl. }
  assert (forall j x, V !! j = Some x -> (last_used_idx q + len U + Z.of_nat j) mod 8 <> avail_idx q mod 8) as Hslot.
  { intros j x Hx. rewrite (proj1 I10), u16_mod8. apply lookup_lt_Some in Hx. unfold len in *. intros Em. Z.div_mod_to_equations. lia. }
  split; cbn [set_q_rx q_rx oq_queue oq_buffers q_at q_mem]; fold q; rewrite ?A3, ?A4, ?A5, ?A6, ?K1, ?K2, ?K3; try done.
  - cbn [option_list app]. rewrite <- I3. cbn [option_list app]. solve_Permutation.
  - rewrite len_app. change (len [t]) with 1. lia.
  - intros x b. rewrite app_assoc, elem_of_app, list_elem_of_singleton. intros [Hx| ->] Hb.
    + apply A2; [|by apply I6]. intros ->. done.
    + replace b with a by congruence. done.
  - rewrite len_app. change (len [t]) with 1. split; [|done]. rewrite (proj1 I10). unfold u16, wrap. rewrite Zplus_mod_idemp_l. f_equal. lia.
  - intros j x Hx. apply lookup_app_Some in Hx as [Hx|[Hj Hx]].
    + rewrite fupd_ne by by eapply Hslot. by apply I11.
    + apply list_lookup_singleton_Some in Hx as [Hj0 <-]. rewrite (proj1 I10), u16_mod8.
      replace (last_used_idx q + len U + Z.of_nat j) with (last_used_idx q + len U + len V) by (unfold len in *; lia). apply fupd_eq.
Qed.

(** ** The transmit queue *)

Definition tx_inv (d : queues) : Prop :=
  vq_rep QUEUE_SIZE (q_tx d) ∅ 8 /\ vq_used_idx (q_tx d) = last_used_idx (q_tx d) /\ avail_idx (q_tx d) = last_used_idx (q_tx d).

Lemma mem_load_app m a n k : 0 <= n -> 0 <= k -> mem_load m a (n + k) = mem_load m a n ++ mem_load m (a + n) k.
Proof.
  intros Hn Hk. unfold mem_load. rewrite seqZ_app, fmap_app by lia. f_equal. rewrite <- (Z.add_0_r (0 + n)). rewrite Z.add_0_l. rewrite <- fmap_add_seqZ, <- list_fmap_compose.
  apply list_fmap_ext. intros i x _. cbn. f_equal. lia.
Qed.
Lemma gather_lay_out m a bs : mem_load m a (len (concat bs)) = concat bs -> gather m (view (InputOutputIter (lay_out a bs) [])) = concat bs.
Proof.
  unfold InputOutputIter. cbn [map]. rewrite app_nil_r. revert a. induction bs as [|b bs IH]; intros a Hm; cbn in *; [done|].
  rewrite len_app, mem_load_app in Hm by apply len_nonneg.
  apply app_inj_1 in Hm as [H1 H2]; [|pose proof (mem_load_len m a (len b)); unfold len in *; lia]. f_equal; [exact H1|]. exact (IH _ H2).
Qed.
Lemma lay_out_len a bs : len (lay_out a bs) = len bs.
Proof. revert a. induction bs as [|b bs IH]; intros a; cbn; [done|]. rewrite !len_cons. by rewrite IH. Qed.
Lemma lay_out_good a bs : Forall (fun b => 0 < len b < 2 ^ 32) bs -> Forall good_buf (InputOutputIter (lay_out a bs) []).
Proof.
  unfold InputOutputIter. cbn [map]. rewrite app_nil_r. intros Hb. revert a. induction Hb as [|b bs Hb _ IH]; intros a; cbn; constructor; [|done]. done.
Qed.

Lemma tx_served d bs : tx_inv d -> bs <> [] -> len bs <= 2 -> Forall (fun b => 0 < len b < 2 ^ 32) bs ->
  exists d', tx_send bs d = Some (Ret (d', VOk 0)) /\ tx_inv d' /\ q_rx d' = q_rx d /\ q_at d' = q_at d /\ q_sent d' = q_sent d ++ [concat bs]
    /\ q_mem d' = mem_store (q_mem d) (q_at d) (concat bs).
Proof.
  intros (Hrep & Hu & Ha) Hne Hlen Hb. set (s := set_q_mem (mem_store (q_mem d) (q_at d) (concat bs)) d).
  assert (0 <= last_used_idx (q_tx d) < 2 ^ 16) as Hlast by (destruct Hrep as (? & ? & HQ & _); apply HQ).
  set (ins := lay_out (q_at d) bs) in *. assert (len ins = len bs) as Eil by apply lay_out_len.
  assert (len (InputOutputIter ins []) = len bs) as El by (rewrite iter_length, Eil; unfold len; cbn; lia).
  assert (InputOutputIter ins [] <> []) as Hine by (intros E; rewrite E in El; destruct bs; [done|rewrite len_cons in El; pose proof (len_nonneg bs); change (len []) with 0 in El; lia]).
  assert (forall x, exists D fl idx ring ev, q_tx (serve_tx x) = device_writes D fl idx ring ev (q_tx x)) as Hspin.
  { intros x. unfold serve_tx. destruct (_ =? _).
    - exists (vq_desc (q_tx x)), (vq_used_flags (q_tx x)), (vq_used_idx (q_tx x)), (vq_used_ring (q_tx x)), (vq_avail_event (q_tx x)). by destruct (q_tx x).
    - exists (vq_desc (q_tx x)). do 4 eexists. cbn. unfold complete, device_writes. f_equal. }
  destruct (blocking_request q_tx set_q_tx serve_tx kick QUEUE_SIZE ltac:(unfold QUEUE_SIZE; lia) ltac:(done) ltac:(done) Hspin 1 0 ins [] s ∅ 8
    (let q1 := match add QUEUE_SIZE 0 ins [] (q_tx s) with Ret (q1, _) => q1 | Panic => q_tx s end in
     serve_tx (if should_notify q1 then kick (queue_idx q1) (set_q_tx q1 s) else set_q_tx q1 s)) 0)
    as (q1 & t & E & Hread & _ & Ht & Hring & Hidx & Hridx & K); [done|by apply lay_out_good|done|unfold cost; destruct (_ && _); lia|unfold QUEUE_SIZE; lia|].
  rewrite E in K. cbn zeta in K. set (s1 := if should_notify q1 then kick (queue_idx q1) (set_q_tx q1 s) else set_q_tx q1 s) in *.
  assert (q_tx s1 = q1) as Eq1 by (unfold s1; by destruct (should_notify q1)).
  destruct (add_keeps _ _ _ _ _ _ _ E) as (K1 & K2 & K3 & K4 & K5 & K6 & _ & _). change (q_tx s) with (q_tx d) in *.
  assert (next_avail q1 = t) as Hna by (unfold next_avail; rewrite Hring, K1, Hu, Ha; apply fupd_eq).
  assert (u16 (last_used_idx (q_tx d) + 1) <> last_used_idx (q_tx d)) as Hneq by (unfold u16, wrap; Z.div_mod_to_equations; lia).
  assert (serve_tx s1 = set_q_sent (q_sent d ++ [concat bs]) (set_q_tx (complete t 0 q1) s1)) as Es.
  { unfold serve_tx. rewrite Eq1, Hridx, Hidx, K1, Hu, Ha, (proj2 (Z.eqb_neq _ _)), Hna by done. rewrite Hread.
    f_equal. unfold s1. replace (q_sent (if should_notify q1 then _ else _)) with (q_sent d) by by destruct (should_notify q1). do 2 f_equal.
    replace (q_mem (if should_notify q1 then _ else _)) with (mem_store (q_mem d) (q_at d) (concat bs)) by by destruct (should_notify q1).
    apply gather_lay_out, mem_load_store. }
  assert (q_tx (serve_tx s1) = complete t 0 q1) as Eq2 by by rewrite Es.
  unfold idx_ok, QUEUE_SIZE in Ht. zb.
  destruct K as (q3 & Ef & Ep & Hrep3 & Hl3).
  { cbn [wait_can_pop]. rewrite Eq1. unfold can_pop at 1. rewrite K1, K3, Hu, Z.eqb_refl. cbn [negb]. rewrite Eq2. unfold can_pop. cbn. rewrite K1, K3, Hu, (proj2 (Z.eqb_neq _ _)) by (by apply not_eq_sym). done. }
  { by rewrite Eq2. }
  { rewrite Eq2. unfold used_slot, complete. cbn. rewrite K3, K1, Hu, fupd_eq. cbn. unfold u16. apply wrap_small. lia. }
  { rewrite Eq2. unfold used_slot, complete. cbn. by rewrite K3, K1, Hu, fupd_eq. }
  destruct (pop_keeps _ _ _ _ _ _ _ Ep) as (L1 & L2 & L3 & L4 & _). rewrite Eq2 in L1, L3, Hl3. cbn in L1, L3, Hl3.
  exists (set_q_tx q3 (serve_tx s1)). split_and!; [exact Ef| |rewrite Es..].
  - split; [exact Hrep3|]. cbn [q_tx set_q_tx]. split; congruence.
  - unfold s1. by destruct (should_notify q1).
  - unfold s1. by destruct (should_notify q1).
  - done.
  - unfold s1. by destruct (should_notify q1).
Qed.

(** ** A packet from the host *)
Lemma put_ok d U V P p d' : rx_inv d None U V P -> put_rx p d = Some d' ->
  exists t V', rx_inv d' None (U ++ [t]) V' (P ++ [p]) /\ q_tx d' = q_tx d /\ q_sent d' = q_sent d.
Proof.
  intros HI Hp. pose proof (ri_size _ _ _ _ _ HI) as Hsz. pose proof (ri_nodup _ _ _ _ _ HI) as Hnd. change (NoDup (U ++ V)) in Hnd.
  change (len (option_list None)) with 0 in Hsz. pose proof (len_nonneg U). unfold put_rx in Hp.
  pose proof HI as [I1 I2 I3 I4 I5 I6 I7 I8 I9 [I10 I10'] I11 I12 I13]. set (q := oq_queue (q_rx d)) in *.
  destruct (Z.eqb_spec (vq_used_idx q) (vq_avail_ring_idx q)) as [|Hne]; [done|].
  destruct V as [|t V]; [rewrite I8, I10', I10, len_nil, Z.add_0_r in Hne; done|]. rewrite len_cons in *. pose proof (len_nonneg V).
  assert (t ∈ U ++ t :: V) as Hin by (apply elem_of_app; right; by left). pose proof (ri_token _ _ _ _ _ HI t Hin) as Ht. destruct (ri_buf _ _ _ _ _ HI t Hin) as [a Ha].
  assert (next_avail q = t) as Hna. { unfold next_avail. rewrite slot_mod, I8, u16_mod8. etrans; [|exact (I11 0%nat t eq_refl)]. f_equal. by rewrite Z.add_0_r. }
  rewrite Hna, (posted_read q t a) in Hp by by apply I6. destruct (Z.leb_spec (len p) RX_SIZE) as [Hlp|]; [|done]. injection Hp as <-.
  assert (Z.land (vq_used_idx q) (QUEUE_SIZE - 1) = (last_used_idx q + len U) mod 8) as Hsl by by rewrite slot_mod, I8, u16_mod8.
  exists t, V. split; [|done]. split; cbn [set_q_mem set_q_rx q_rx oq_queue oq_buffers q_at q_mem]; fold q; unfold complete; cbn; rewrite ?Hsl; try done.
  - rewrite <- I3. cbn [option_list app]. by rewrite <- app_assoc.
  - rewrite I5, len_app. change (len [t]) with 1. lia.
  - intros x b Hx. apply I6. by rewrite <- app_assoc in Hx.
  - rewrite I8, len_app. change (len [t]) with 1. unfold u16, wrap. rewrite Zplus_mod_idemp_l. f_equal. lia.
  - intros j x y Hx Hy. apply lookup_app_Some in Hx as [Hx|[Hj Hx]].
    + pose proof (lookup_lt_Some _ _ _ Hx). rewrite lookup_app_l in Hy by lia. rewrite fupd_ne; [by apply I9|]. unfold len in *. intros Em. Z.div_mod_to_equations. lia.
    + apply list_lookup_singleton_Some in Hx as [Hj0 <-]. replace (Z.of_nat j) with (len U) by (unfold len; lia). rewrite fupd_eq.
      rewrite lookup_app_r in Hy by lia. apply list_lookup_singleton_Some in Hy as [_ <-]. done.
  - rewrite len_app. change (len [t]) with 1. split; [rewrite I10|done]. f_equal. lia.
  - intros j x Hx. etrans; [|exact (I11 (S j) x Hx)]. f_equal. rewrite len_app. change (len [t]) with 1. f_equal. lia.
  - rewrite !length_app, I12. done.
  - intros j x y b Hx Hy Hb. apply lookup_app_Some in Hx as [Hx|[Hj Hx]].
    + pose proof (lookup_lt_Some _ _ _ Hx). rewrite lookup_app_l in Hy by lia. destruct (I13 j x y b Hx Hy Hb) as [J1 J2]. split; [done|]. rewrite <- J2 at 2.
      assert (x ∈ U) as HxU by by eapply list_elem_of_lookup_2. pose proof (ri_token _ _ _ _ _ HI x ltac:(apply elem_of_app; by left)) as Hxr.
      apply mem_load_ext. intros z Hz. apply mem_store_ne. destruct (I2 _ _ a b Ha Hb) as [_ Hd]. assert (x <> t) as Hxt.
      { intros ->. apply NoDup_app in Hnd as (_ & Hd' & _). apply (Hd' t HxU). by left. }
      specialize (Hd ltac:(lia)). lia.
    + apply list_lookup_singleton_Some in Hx as [Hj0 <-]. rewrite lookup_app_r in Hy by lia. apply list_lookup_singleton_Some in Hy as [_ <-].
      replace b with a by congruence. split; [done|]. apply mem_load_store.
Qed.

(** ** The promises of the queues *)

Definition q_ok (d : queues) : Prop := (exists U V P, rx_inv d None U V P) /\ tx_inv d.
Definition q_popped (t : Z) (d : queues) : Prop := (exists U V P, rx_inv d (Some t) U V P) /\ tx_inv d.

Lemma queues_pop_none d : q_ok d -> q_inbox d = [] -> exists d', rx_pop d = Ret (d', VOk None) /\ q_ok d' /\ q_inbox d' = [] /\ q_sent d' = q_sent d.
Proof.
  intros [(U & V & P & HI) HT] Hn. pose proof (inbox_inv _ _ _ _ _ HI) as E. rewrite Hn in E. subst P.
  pose proof (ri_pkts _ _ _ _ _ HI) as El. destruct U; [|done]. exists d. cbn [rx_pop queues_device]. rewrite (pop_none _ _ _ HI). cbn [mbind outcome_bind].
  split; [by destruct d|]. split; [|done]. split; [by exists [], V, []|done].
Qed.
Lemma queues_pop_some d p r : q_ok d -> q_inbox d = p :: r ->
  exists d' t, rx_pop d = Ret (d', VOk (Some (p, t))) /\ q_popped t d' /\ q_inbox d' = r /\ q_sent d' = q_sent d.
Proof.
  intros [(U & V & P & HI) HT] Hn. pose proof (inbox_inv _ _ _ _ _ HI) as E. rewrite Hn in E. subst P.
  pose proof (ri_pkts _ _ _ _ _ HI) as El. destruct U as [|t U]; [done|]. destruct (pop_some _ _ _ _ _ _ HI) as (o & Eo & HI').
  exists (set_q_rx o d), t. cbn [rx_pop queues_device]. rewrite Eo. split_and!; [done| |by eapply inbox_inv|done]. split; [by exists U, V, r|done].
Qed.
Lemma queues_add d t : q_popped t d -> exists d', rx_add t d = Ret (d', VOk tt) /\ q_ok d' /\ q_inbox d' = q_inbox d /\ q_sent d' = q_sent d.
Proof.
  intros [(U & V & P & HI) HT]. destruct (add_back _ _ _ _ _ HI) as (o & n & Eo & HI'). rewrite (inbox_inv _ _ _ _ _ HI).
  eexists. cbn [rx_add queues_device]. rewrite Eo. split; [done|]. cbn -[kick]. assert (rx_inv ((if n : bool then kick (queue_idx (oq_queue o)) else Datatypes.id) (set_q_rx o d)) None U (V ++ [t]) P) as HI2.
  { destruct n; [|done]. by eapply rx_inv_ext. }
  split_and!; [|by eapply inbox_inv|by destruct n]. split; [by exists U, (V ++ [t]), P|]. by destruct n.
Qed.
Lemma queues_send d bs : q_ok d -> bs <> [] -> len bs <= 2 -> Forall (fun b => 0 < len b < 2 ^ 32) bs ->
  exists d' n, tx_send bs d = Some (Ret (d', VOk n)) /\ q_ok d' /\ q_inbox d' = q_inbox d /\ q_sent d' = q_sent d ++ [concat bs].
Proof.
  intros [(U & V & P & HI) HT] Hne Hl Hb. destruct (tx_served d bs HT Hne Hl Hb) as (d' & Es & HT' & Er & Ea & Ese & Em).
  assert (rx_inv d' None U V P) as HI'. { eapply rx_inv_ext; [exact HI|done|done|]. intros x Hx. rewrite Em. apply mem_store_ne. lia. }
  exists d', 0. split_and!; [done| |by rewrite (inbox_inv _ _ _ _ _ HI), (inbox_inv _ _ _ _ _ HI')|done]. split; [by exists U, V, P|done].
Qed.

#[export] Instance queues_laws : SocketLaws queues := {
  dev_ok := q_ok; popped := q_popped; inbox := q_inbox; outbox := q_sent;
  rx_pop_none := queues_pop_none; rx_pop_some := queues_pop_some; rx_add_ok := queues_add; tx_send_ok := queues_send;
}.

Lemma queues_take d p r : q_ok d -> q_sent d = p :: r ->
  q_ok (set_q_sent (tail (q_sent d)) d) /\ q_inbox (set_q_sent (tail (q_sent d)) d) = q_inbox d /\ q_sent (set_q_sent (tail (q_sent d)) d) = r.
Proof.
  intros [(U & V & P & HI) HT] E. rewrite E. cbn. split_and!; [|done|done]. split; [|done]. exists U, V, P. by eapply rx_inv_ext.
Qed.
Lemma queues_put d p d' : q_ok d -> put_rx p d = Some d' -> q_ok d' /\ q_inbox d' = q_inbox d ++ [p] /\ q_sent d' = q_sent d.
Proof.
  intros [(U & V & P & HI) HT] E. destruct (put_ok _ _ _ _ _ _ HI E) as (t & V' & HI' & Et & Es). rewrite (inbox_inv _ _ _ _ _ HI), (inbox_inv _ _ _ _ _ HI').
  split_and!; [|done|done]. split; [by exists (U ++ [t]), V', (P ++ [p])|]. unfold tx_inv. by rewrite Et.
Qed.

#[export] Instance queues_host : SocketHost queues := {
  host_take d := set_q_sent (tail (q_sent d)) d; host_put := put_rx;
  host_take_ok := queues_take; host_put_ok := queues_put;
}.
