(* ===== verification/VsockInit.v ===== *)
(** * Starting the virtio socket driver

    [VirtIOSocket::new] of [vsock.rs] over a PCI transport, and what is left when
    it fails or when the driver is dropped.  The theorem shows that the driver
    that is made and the device agree on the features and the queues, and that
    its queues are in the state from which the promises of [VsockDevice] hold. *)

From S2P Require Import Prelude Virtqueue VirtqueueProps OwningQueue Pci VirtioPci VirtioPciProps NetInit Vsock VsockManager VsockProps VsockPair VsockNet VsockDevice.
Open Scope mach_scope.

Definition RX_QUEUE_IDX : Z := 0.
Definition TX_QUEUE_IDX : Z := 1.
Definition EVENT_QUEUE_IDX : Z := 2.
(** RING_EVENT_IDX, RING_INDIRECT_DESC, VERSION_1. *)
Definition SUPPORTED_FEATURES : Z := 2 ^ 29 + 2 ^ 28 + 2 ^ 32.

Record PciSocket := mkPciSocket { ps_rx : OwningQueue; ps_tx : VirtQueue; ps_event : VirtQueue; ps_guest_cid : Z }.

Section Start.
Context {D : Type} `{Mmio D}.
Variable t : PciTransport.

Definition read_guest_cid (d : D) : outcome (D * vresult Z) :=
  '(d, r) ← read_config_space t 4 4 0 d;
  match r with
  | VErr e => Ret (d, VErr e)
  | VOk low =>
      '(d, r) ← read_config_space t 4 4 4 d;
      match r with
      | VErr e => Ret (d, VErr e)
      | VOk high => Ret (d, VOk (Z.lor low (Z.shiftl high 32)))
      end
  end.

(** [place] is where the allocator puts the receive buffers. *)
Definition pci_socket_new (fuel : nat) (place : Z -> Z) (dma : Z) (d : D) : option (outcome (D * Z * vresult PciSocket)) :=
  if negb (HDR_SIZE <? RX_SIZE) then Some Panic else
  let '(d, negotiated) := begin_init t SUPPORTED_FEATURES d in
  match read_consistent t fuel read_guest_cid d with
  | None => None
  | Some Panic => Some Panic
  | Some (Ret (d, VErr e)) => fail t fuel e dma d
  | Some (Ret (d, VOk guest_cid)) =>
      let indirect := Z.testbit negotiated 28 in
      let event_idx := Z.testbit negotiated 29 in
      match pci_vq_new QUEUE_SIZE t RX_QUEUE_IDX indirect event_idx dma d with
      | (d, dma, VErr e) => fail t fuel e dma d
      | (d, dma, VOk rx) =>
          match pci_vq_new QUEUE_SIZE t TX_QUEUE_IDX indirect event_idx dma d with
          | (d, dma, VErr e) => fail t fuel e dma d
          | (d, dma, VOk tx) =>
              match pci_vq_new QUEUE_SIZE t EVENT_QUEUE_IDX indirect event_idx dma d with
              | (d, dma, VErr e) => fail t fuel e dma d
              | (d, dma, VOk event) =>
                  match owning_new QUEUE_SIZE RX_SIZE place rx with
                  | Panic => Some Panic
                  | Ret (VErr e) => fail t fuel e dma d
                  | Ret (VOk rx) =>
                      let d := finish_init t d in
                      match (if should_notify (oq_queue rx) then notify t RX_QUEUE_IDX d else Ret d) with
                      | Panic => Some Panic
                      | Ret d => Some (Ret (d, dma, VOk (mkPciSocket rx tx event guest_cid)))
                      end
                  end
              end
          end
      end
  end.

(** The queues of a PCI transport cannot be unset; then the transport is
    dropped. *)
Definition socket_drop (fuel : nat) (d : D) : option D := drop_transport t fuel d.
End Start.

(** The driver in memory [m], with the transmit buffers from [at_] on. *)
Definition socket_of (m : Z -> Z) (at_ : Z) (s : PciSocket) : VirtIOSocket queues :=
  mkSocket (mkQueues (ps_rx s) (ps_tx s) m at_ [] []) (ps_guest_cid s).

(** ** The receive buffers *)

(** The first [i] buffers are posted. *)
Record filling (place : Z -> Z) (q0 : VirtQueue) (i : Z) (q : VirtQueue) : Prop := {
  fi_idx : avail_idx q = i /\ vq_avail_ring_idx q = i /\ num_used q = i;
  fi_used : last_used_idx q = 0 /\ vq_used_idx q = 0 /\ vq_used_flags q = 0 /\ vq_avail_event q = 0;
  fi_free : flist (desc_shadow q) (free_head q) (seqZ i (8 - i));
  fi_posted j : 0 <= j < i -> posted q j (place j) /\ vq_avail_ring q j = j;
  fi_mode : event_idx q = event_idx q0 /\ indirect q = indirect q0;
}.

Lemma fill_one place q0 i q : filling place q0 i q -> 0 <= i < 8 ->
  exists q', add QUEUE_SIZE 0 [] [mkSlice (place i) RX_SIZE] q = Ret (q', VOk i) /\ filling place q0 (i + 1) q'.
Proof.
  intros [(I1 & I2 & I3) (U1 & U2 & U3 & U4) HF HP [M1 M2]] Hi. rewrite seqZ_cons in HF by lia. destruct HF as [Hh HF].
  destruct (rx_add_one (place i) q i Hh Hi ltac:(lia) ltac:(lia)) as (q' & E & A1 & A2 & A3 & A4 & A5 & A6 & A7 & A8).
  destruct (add_keeps _ _ _ _ _ _ _ E) as (K1 & K2 & K3 & _ & K6 & K7 & K4 & K5). exists q'. split; [done|].
  assert (u16 (avail_idx q + 1) = i + 1) as Eu by (rewrite I1; unfold u16; apply wrap_small; lia). split.
  - rewrite A6, A7, A3, Eu. lia.
  - rewrite K1, K3, K4, K5. done.
  - rewrite A4. replace (8 - (i + 1)) with (Z.pred (8 - i)) by lia. replace (i + 1) with (Z.succ i) by lia. eapply flist_ext; [|exact HF].
    intros j Hj. apply elem_of_seqZ in Hj. apply A5. lia.
  - intros j Hj. rewrite A8, I1, Z.mod_small by lia. destruct (decide (j = i)) as [->|Hne]; [by rewrite fupd_eq|].
    destruct (HP j ltac:(lia)) as [HP1 HP2]. rewrite fupd_ne by done. split; [by apply A2|done].
  - by rewrite K6, K7.
Qed.

Lemma fill_all place q0 n : forall i q bufs, i + Z.of_nat n = 8 -> 0 <= i -> filling place q0 i q -> bufs = place <$> seqZ 0 i ->
  exists q', owning_new_loop QUEUE_SIZE RX_SIZE n i place q bufs = Ret (VOk (mkOwning q' (place <$> seqZ 0 8))) /\ filling place q0 8 q'.
Proof.
  induction n as [|n IH]; intros i q bufs Hn Hi HF ->; cbn [owning_new_loop].
  - replace i with 8 in * by lia. by exists q.
  - destruct (fill_one place q0 i q HF ltac:(lia)) as (q' & -> & HF'). cbn [mbind outcome_bind]. rewrite Z.eqb_refl. cbn [negb].
    apply IH; [lia|lia|done|]. rewrite (seqZ_app 0 i 1), fmap_app by lia. by rewrite Z.add_0_l.
Qed.

(** Receive buffers that do not overlap, below the transmit buffers. *)
Definition placed (place : Z -> Z) (at_ : Z) : Prop :=
  forall i j, 0 <= i < 8 -> 0 <= j < 8 -> place i + RX_SIZE <= at_ /\ (i <> j -> place i + RX_SIZE <= place j \/ place j + RX_SIZE <= place i).

Lemma filled_inv place q0 m at_ tx q : filling place q0 8 q -> placed place at_ ->
  rx_inv (mkQueues (mkOwning q (place <$> seqZ 0 8)) tx m at_ [] []) None [] (seqZ 0 8) [].
Proof.
  intros [(I1 & I2 & I3) (U1 & U2 & U3 & U4) HF HP _] Hpl.
  assert (forall i a, (place <$> seqZ 0 8) !! i = Some a -> (i < 8)%nat /\ a = place (Z.of_nat i)) as Hb.
  { intros i a Ha. rewrite list_lookup_fmap in Ha. destruct (seqZ 0 8 !! i) as [x|] eqn:Ex; [|done]. apply lookup_seqZ in Ex as [-> Hi]. cbn in Ha. injection Ha as <-. split; [lia|done]. }
  split; cbn [q_rx oq_queue oq_buffers q_at q_mem]; rewrite ?I1, ?I2, ?I3, ?U1, ?U2; try done.
  - intros i j a b Ha Hb'. apply Hb in Ha as [Hi ->]. apply Hb in Hb' as [Hj ->]. destruct (Hpl (Z.of_nat i) (Z.of_nat j) ltac:(lia) ltac:(lia)) as [H1 H2].
    split; [done|]. intros Hne. apply H2. lia.
  - intros t a Ht Ha. apply elem_of_seqZ in Ht. apply Hb in Ha as [_ ->]. rewrite Z2Nat.id by lia. apply HP. lia.
  - intros j t Hj. apply lookup_seqZ in Hj as [-> Hj]. change (len []) with 0. rewrite !Z.add_0_l, Z.mod_small by lia. apply HP. lia.
Qed.

Lemma new_filling used max legacy idx ind ev dma dma' q lay place :
  vq_new QUEUE_SIZE used max legacy idx ind ev dma = (dma', VOk (q, lay)) -> filling place q 0 q.
Proof.
  intros E. pose proof (new_ok QUEUE_SIZE used max legacy idx ind ev dma dma' q lay ltac:(unfold QUEUE_SIZE; lia) E) as HQ.
  unfold vq_new in E. destruct used; [done|]. destruct (max <? QUEUE_SIZE); [done|]. destruct (if legacy then _ else _) as [x [l|e]]; [|done].
  injection E as _ Eq _. split; [by rewrite <- Eq..|exact (vo_free _ _ _ _ HQ)|lia|done].
Qed.
Lemma new_tx used max legacy idx ind ev dma dma' q lay r m at_ :
  vq_new QUEUE_SIZE used max legacy idx ind ev dma = (dma', VOk (q, lay)) -> tx_inv (mkQueues r q m at_ [] []).
Proof.
  intros E. split; [exact (new_rep QUEUE_SIZE used max legacy idx ind ev dma dma' q lay ltac:(unfold QUEUE_SIZE; lia) E)|].
  unfold vq_new in E. destruct used; [done|]. destruct (max <? QUEUE_SIZE); [done|]. destruct (if legacy then _ else _) as [x [l|e]]; [|done].
  injection E as _ Eq _. by rewrite <- Eq.
Qed.

(** ** The driver and the device agree *)

Section Agree.
Variables (t : PciTransport) (place : Z -> Z) (at_ : Z).
Hypothesis placed_ok : placed place at_.

(** The place of the guest's CID in the device's configuration. *)
Definition cid_of (a : Z) (d : vdev) : Z := Z.lor (d_config d (a - d_base d)) (Z.shiftl (d_config d (a + 4 - d_base d)) 32).
Definition config_apart (d : vdev) : Prop := forall a n, config_space t = Some (a, n) -> d_base d + 56 <= a /\ a + 8 <= 2 ^ 64.

Lemma get_outside o d : 56 <= o -> dev_get o d = d_config d o.
Proof. intros Ho. unfold dev_get. destruct o as [|p|p]; [lia| |lia]. repeat (destruct p as [p|p|]; try lia; try done). Qed.

Lemma cid_read fuel (d : vdev) : reaches t d -> config_apart d ->
  match config_space t with
  | Some (a, n) =>
      if n ⊠ 4 <? 8 then read_consistent t (S fuel) (read_guest_cid t) d = Some (Ret (d, VErr ConfigSpaceTooSmall))
      else read_consistent t (S fuel) (read_guest_cid t) d = Some (Ret (d, VOk (cid_of a d)))
  | None => read_consistent t (S fuel) (read_guest_cid t) d = Some (Ret (d, VErr ConfigSpaceMissing))
  end.
Proof.
  intros Hr Ha. cbn [read_consistent]. unfold read_config_generation, read_guest_cid, read_config_space. rewrite cfg_get_eq by done.
  cbn [Z.ltb Z.compare Pos.compare Pos.compare_cont negb]. change (0 mod 4 =? 0) with true. change (4 mod 4 =? 0) with true. cbn [negb].
  destruct (config_space t) as [[a n]|] eqn:Ec; cbn [mbind outcome_bind]; [|by rewrite cfg_get_eq, Z.eqb_refl by done].
  change (0 ⊞ 4) with 4. change (4 ⊞ 4) with 8. cbn [mmio_read vdev_mmio]. destruct (Ha a n Ec) as [Ha1 Ha2]. pose proof Hr as (_ & Hb0 & _).
  unfold cid_of. rewrite (u64_small (a + 0)), (u64_small (a + 4)) by lia. rewrite Z.add_0_r, !get_outside by lia.
  destruct (Z.ltb_spec (n ⊠ 4) 8); [destruct (Z.ltb_spec (n ⊠ 4) 4)|rewrite (proj2 (Z.ltb_ge _ 4)) by lia]; cbn [mbind outcome_bind].
  all: by rewrite cfg_get_eq, Z.eqb_refl, ?get_outside by (done || lia).
Qed.

(** The place of a queue's doorbell, inside the notification region. *)
Definition doorbell (d : vdev) (q : Z) : Z := fst (notify_region t) + q_notify (d_queues d q) * notify_off_multiplier t.
Definition bell_ok (d : vdev) (q : Z) : Prop :=
  notify_off_multiplier t mod 2 = 0 /\ 0 <= q_notify (d_queues d q) /\ 0 <= notify_off_multiplier t /\ d_base d + 56 <= fst (notify_region t)
  /\ doorbell d q < 2 ^ 64 /\ q_notify (d_queues d q) * notify_off_multiplier t < 2 * snd (notify_region t).

(** What starting needs of the device and of the allocator of DMA memory. *)
Definition can_start (dma dma' : Z) (d : vdev) (l0 l1 l2 : VirtQueueLayout) : Prop :=
  (exists a n, config_space t = Some (a, n) /\ 8 <= n ⊠ 4) /\ (forall i, 0 <= i < 3 -> QUEUE_SIZE <= q_size (d_queues d i)) /\
  exists dma1 dma2, allocate_flexible QUEUE_SIZE dma = (dma1, VOk l0) /\ allocate_flexible QUEUE_SIZE dma1 = (dma2, VOk l1)
    /\ allocate_flexible QUEUE_SIZE dma2 = (dma', VOk l2).

Lemma vq_new_ok_iff max idx ind ev dma dma' q l : vq_new QUEUE_SIZE false max false idx ind ev dma = (dma', VOk (q, l)) ->
  QUEUE_SIZE <= max /\ allocate_flexible QUEUE_SIZE dma = (dma', VOk l) /\ event_idx q = ev /\ indirect q = ind.
Proof.
  unfold vq_new. destruct (Z.ltb_spec max QUEUE_SIZE); [done|]. destruct (allocate_flexible QUEUE_SIZE dma) as [x [y|]]; [|done]. intros [= <- <- <-]. done.
Qed.
Lemma vq_new_err max idx ind ev dma dma' e : vq_new QUEUE_SIZE false max false idx ind ev dma = (dma', VErr e) ->
  QUEUE_SIZE <= max -> forall x l, allocate_flexible QUEUE_SIZE dma <> (x, VOk l).
Proof.
  unfold vq_new. intros E Hm x l Ha. rewrite (proj2 (Z.ltb_ge _ _)), Ha in E by done. done.
Qed.

(** One queue of three. *)
Lemma queue_step idx neg dma (d : vdev) : reaches t d -> q_enabled (d_queues d idx) = 0 ->
  let x := pci_vq_new QUEUE_SIZE t idx (Z.testbit neg 28) (Z.testbit neg 29) dma d in
  (exists d' dma' e, x = (d', dma', VErr e) /\ reaches t d'
    /\ (QUEUE_SIZE <= q_size (d_queues d idx) -> forall y l, allocate_flexible QUEUE_SIZE dma <> (y, VOk l)))
  \/ exists d' dma' q l, x = (d', dma', VOk q) /\ reaches t d' /\ d_accepted d' = d_accepted d
    /\ (forall i, d_queues d' i = if i =? idx then given QUEUE_SIZE d idx l else d_queues d i)
    /\ (QUEUE_SIZE <= q_size (d_queues d idx) /\ allocate_flexible QUEUE_SIZE dma = (dma', VOk l) /\ event_idx q = Z.testbit neg 29 /\ indirect q = Z.testbit neg 28)
    /\ vq_new QUEUE_SIZE false (q_size (d_queues d idx)) false idx (Z.testbit neg 28) (Z.testbit neg 29) dma = (dma', VOk (q, l)).
Proof.
  intros Hr Hq. cbn zeta. destruct (vq_new_run QUEUE_SIZE t idx (Z.testbit neg 28) (Z.testbit neg 29) dma d Hr Hq) as (d' & Hr' & _ & N & _ & E).
  destruct (vq_new _ _ _ _ _ _ _ dma) as [dma' [[q l]|e]] eqn:EV.
  - right. destruct E as [E Q]. exists d', dma', q, l. split_and!; try done; by apply vq_new_ok_iff in EV as (? & ? & ? & ?).
  - left. exists d', dma', e. split_and!; [done|done|]. by eapply vq_new_err.
Qed.
Lemma finish_run (d : vdev) : reaches t d ->
  d_accepted (finish_init t d) = d_accepted d /\ d_status (finish_init t d) = 15 /\ d_queues (finish_init t d) = d_queues d /\ d_base (finish_init t d) = d_base d.
Proof.
  intros Hr. unfold finish_init, set_status. dev. cbn [fst device_status].
  change (u8 (Z.lor (Z.lor (Z.lor ACKNOWLEDGE DRIVER) FEATURES_OK) DRIVER_OK)) with 15. done.
Qed.
Lemma filled_notifies q0 q : filling place q0 8 q -> should_notify q = true.
Proof. intros [(I1 & _) (_ & _ & U3 & U4) _ _ _]. unfold should_notify. rewrite I1, U3, U4. by destruct (event_idx q). Qed.

(** How starting ends: a failure leaves the device reset; after a success the
    device has the driver's features and queues, and the driver its CID and
    queues that keep their promises. *)
Definition start_spec (dma : Z) (m : Z -> Z) (d : vdev) (x : option (outcome (vdev * Z * vresult PciSocket))) : Prop :=
  exists d' dma' r, x = Some (Ret (d', dma', r)) /\
    match r with
    | VErr _ => (forall l0 l1 l2 dma', ~ can_start dma dma' d l0 l1 l2) /\ d_status d' = 0 /\ forall i, q_enabled (d_queues d' i) = 0
    | VOk s =>
        (exists l0 l1 l2, can_start dma dma' d l0 l1 l2
          /\ forall i, d_queues d' i = if i =? 0 then given QUEUE_SIZE d 0 l0 else if i =? 1 then given QUEUE_SIZE d 1 l1
                                       else if i =? 2 then given QUEUE_SIZE d 2 l2 else reset_queue (d_queues d i))
        /\ d_accepted d' = Z.land (d_features d) SUPPORTED_FEATURES /\ d_status d' = 15
        /\ (exists b, d_bell d' = (doorbell d RX_QUEUE_IDX, RX_QUEUE_IDX) :: b)
        /\ (exists a n, config_space t = Some (a, n) /\ ps_guest_cid s = cid_of a d)
        /\ Forall (fun q => indirect q = Z.testbit (d_accepted d') 28 /\ event_idx q = Z.testbit (d_accepted d') 29) [oq_queue (ps_rx s); ps_tx s; ps_event s]
        /\ (let v := device (socket_of m at_ s) in dev_ok v /\ inbox v = [] /\ outbox v = [])
    end.

Lemma failed_run fuel e dma dma1 m (d d1 : vdev) : reaches t d1 -> (forall l0 l1 l2 dma', ~ can_start dma dma' d l0 l1 l2) ->
  start_spec dma m d (fail t (S fuel) e dma1 d1).
Proof. intros Hr Hn. destruct (fail_run t (A := PciSocket) fuel e dma1 d1 Hr) as (d' & -> & HS & HQ). by exists d', dma1, (VErr e). Qed.

(** C40.  Starting the socket driver over a PCI transport ends, on every path.  It
    succeeds exactly when the device has its configuration and three queues of
    at least eight entries and there is memory for them.  Then driver and device
    agree on the features and on the place of every queue, the device is told
    that the driver is ready and that there are receive buffers, the guest has
    the CID of the configuration, and the queues keep every promise the
    connection manager relies on, with nothing received or sent.  When it fails
    the device is reset and no queue is left enabled. *)
Theorem socket_starts fuel dma m (d : vdev) :
  reaches t d -> 0 <= d_features d < 2 ^ 64 -> config_apart d -> bell_ok d RX_QUEUE_IDX ->
  start_spec dma m d (pci_socket_new t (S fuel) place dma d).
Proof.
  intros Hr Hf Hc Hbell. unfold pci_socket_new. change (negb (HDR_SIZE <? RX_SIZE)) with false. cbn match.
  destruct (begin_init_negotiates t d SUPPORTED_FEATURES Hr Hf ltac:(by vm_compute)) as (d1 & -> & N1 & S1 & F1 & Q1 & B1 & C1 & Hr1). set (neg := Z.land (d_features d) SUPPORTED_FEATURES) in *.
  assert (d_base d1 = d_base d) as Eb by (destruct Hr as [<- _], Hr1 as [<- _]; done).
  pose proof (cid_read fuel d1 Hr1 ltac:(unfold config_apart; by rewrite Eb)) as Hcfg.
  destruct (config_space t) as [[a n]|] eqn:Ecs.
  2:{ rewrite Hcfg. apply failed_run; [done|]. intros l0 l1 l2 x ((? & ? & E & _) & _). congruence. }
  destruct (Z.ltb_spec (n ⊠ 4) 8) as [Hn|Hn]; rewrite Hcfg; clear Hcfg.
  { apply failed_run; [done|]. intros l0 l1 l2 x ((? & ? & E & ?) & _). simplify_eq. lia. }
  destruct (queue_step RX_QUEUE_IDX neg dma d1 Hr1 ltac:(by rewrite Q1)) as [(d2 & dma1 & e & -> & Hr2 & Hno)|(d2 & dma1 & rq & l0 & -> & Hr2 & N2 & Q2 & (Z0 & A0 & V0 & I0) & EV0)];
    rewrite Q1 in *; cbn [reset_queue q_size] in *.
  { apply failed_run; [done|]. intros l0 l1 l2 x (_ & Hs & y & z & A0 & _). eapply Hno; [|exact A0]. by apply Hs. }
  destruct (queue_step TX_QUEUE_IDX neg dma1 d2 Hr2 ltac:(by rewrite Q2, Q1)) as [(d3 & dma2 & e & -> & Hr3 & Hno)|(d3 & dma2 & tq & l1 & -> & Hr3 & N3 & Q3 & (Z1 & A1 & V1 & I1) & EV1)];
    rewrite Q2 in *; cbn [Z.eqb TX_QUEUE_IDX RX_QUEUE_IDX] in *; rewrite Q1 in *; cbn [reset_queue q_size] in *.
  { apply failed_run; [done|]. intros l0' l1 l2 x (_ & Hs & y & z & A0' & A1 & _). rewrite A0 in A0'. injection A0' as <- <-. eapply Hno; [|exact A1]. by apply Hs. }
  destruct (queue_step EVENT_QUEUE_IDX neg dma2 d3 Hr3 ltac:(by rewrite Q3, Q2, Q1)) as [(d4 & dma3 & e & -> & Hr4 & Hno)|(d4 & dma3 & eq_ & l2 & -> & Hr4 & N4 & Q4 & (Z2 & A2 & V2 & I2) & EV2)];
    rewrite Q3, Q2 in *; cbn [Z.eqb EVENT_QUEUE_IDX] in *; rewrite Q1 in *; cbn [reset_queue q_size] in *.
  { apply failed_run; [done|]. intros l0' l1' l2 x (_ & Hs & y & z & A0' & A1' & A2). rewrite A0 in A0'. injection A0' as <- <-. rewrite A1 in A1'. injection A1' as <- <-.
    eapply Hno; [|exact A2]. by apply Hs. }
  destruct (fill_all place rq 8 0 rq [] eq_refl ltac:(lia) (new_filling _ _ _ _ _ _ _ _ _ _ place EV0) eq_refl) as (rq' & Eo & HF). unfold owning_new. change (Z.to_nat QUEUE_SIZE) with 8%nat. rewrite Eo. cbn [oq_queue].
  destruct (fi_mode _ _ _ _ HF) as [M1 M2]. rewrite (filled_notifies _ _ HF).
  assert (reaches t (finish_init t d4)) as Hr5 by (unfold finish_init, set_status; eauto with tyn).
  destruct (finish_run d4 Hr4) as (P1 & P2 & P3 & P4).
  destruct Hbell as (B2 & B3 & B4 & B5 & B6 & B7). pose proof (notify_exact t (finish_init t d4) RX_QUEUE_IDX Hr5 B2) as HN.
  assert (d_queues d4 RX_QUEUE_IDX = given QUEUE_SIZE d RX_QUEUE_IDX l0) as Eq0 by (rewrite Q4, Q3, Q2; cbn; unfold given; by rewrite Q1).
  rewrite P3, Eq0, P4 in HN. cbn [given q_notify] in HN. cbn zeta in HN. rewrite (proj2 (Z.ltb_lt _ _) B7) in HN.
  destruct HN as (d5 & -> & G1 & G2 & G3 & G4); [done|done| |done|].
  { destruct Hr4 as [X4 _], Hr as [X0 _]. by rewrite <- X4, X0. }
  eexists _, _, (VOk _). split; [done|]. split_and!.
  - exists l0, l1, l2. split.
    + split; [by exists a, n|]. split; [|by exists dma1, dma2]. intros i Hi. assert (i = 0 \/ i = 1 \/ i = 2) as [->|[->| ->]] by lia; done.
    + intros i. rewrite G2, Q4. unfold EVENT_QUEUE_IDX, TX_QUEUE_IDX, RX_QUEUE_IDX in *.
      destruct (Z.eqb_spec i 2) as [->|H2]; [unfold given; cbn; by rewrite Q3, Q2, Q1|]. rewrite Q3.
      destruct (Z.eqb_spec i 1) as [->|H1]; [unfold given; cbn; by rewrite Q2, Q1|]. rewrite Q2.
      destruct (Z.eqb_spec i 0) as [->|H0]; [unfold given; by rewrite Q1|by rewrite Q1].
  - rewrite G3, P1, N4, N3, N2. exact N1.
  - by rewrite G4.
  - eexists. exact G1.
  - exists a, n. split; [done|]. cbn [ps_guest_cid]. unfold cid_of. by rewrite C1, Eb.
  - rewrite G3, P1, N4, N3, N2, N1. cbn [ps_rx ps_tx ps_event oq_queue].  repeat constructor; congruence.
  - assert (rx_inv (device (socket_of m at_ (mkPciSocket (mkOwning rq' (place <$> seqZ 0 8)) tq eq_ (cid_of a d1)))) None [] (seqZ 0 8) []) as HI by by eapply filled_inv.
    cbn zeta. split; [|split; [by eapply inbox_inv|done]]. split; [by exists [], (seqZ 0 8), []|]. by eapply new_tx.
Qed.
End Agree.
