(* ===== verification/VsockDemo.v ===== *)
(** * Two guests on one host

    Runs of the socket driver with its queues: what the theorems of [VsockProps],
    [VsockNet] and [VsockInit] say, evaluated. *)

From S2P Require Import Prelude Virtqueue VirtqueueProps OwningQueue Pci VirtioPci VirtioPciProps NetInit Vsock VsockManager VsockProps VsockPair VsockNet VsockDevice VsockInit.
Open Scope mach_scope.

(** ** A guest *)

Definition empty_queue (idx : Z) : VirtQueue :=
  match vq_new QUEUE_SIZE false 8 false idx false false 0x100000 with
  | (_, VOk (q, _)) => q
  | _ => mkVq (fun _ => zero_desc) 0 0 (fun _ => 0) 0 0 0 (fun _ => (0, 0)) 0 0 0 0 (fun _ => zero_desc) 0 0 false false (fun _ => None)
  end.
Definition buffer_place (i : Z) : Z := 0x200000 + 0x200 * i.
Definition guest_rx : OwningQueue :=
  match owning_new QUEUE_SIZE RX_SIZE buffer_place (empty_queue 0) with Ret (VOk o) => o | _ => mkOwning (empty_queue 0) [] end.
Definition guest_queues : queues := mkQueues guest_rx (empty_queue 1) (fun _ => 0) 0x300000 [] [].

Lemma guest_place : placed buffer_place 0x300000.
Proof. intros i j Hi Hj. unfold buffer_place. change RX_SIZE with 512. lia. Qed.
Lemma guest_inv : rx_inv guest_queues None [] (seqZ 0 8) [].
Proof.
  destruct (fill_all buffer_place (empty_queue 0) 8 0 (empty_queue 0) [] eq_refl ltac:(lia)) as (q & E & HF); [|done|].
  { apply (new_filling false 8 false 0 false false 0x100000 0x102000 _ (mkLayout 0x100000 0x100080 0x101000)). done. }
  unfold guest_queues, guest_rx, owning_new. change (Z.to_nat QUEUE_SIZE) with 8%nat. rewrite E. eapply filled_inv; [done|exact guest_place].
Qed.
Lemma guest_ok : q_ok guest_queues.
Proof.
  split; [by exists [], (seqZ 0 8), []; apply guest_inv|]. apply (new_tx false 8 false 1 false false 0x100000 0x102000 _ (mkLayout 0x100000 0x100080 0x101000)). done.
Qed.

Definition guest_addr (x : bool) : VsockAddr := if x then mkAddr 4 2000 else mkAddr 3 1000.
Definition guest (x : bool) : VsockConnectionManager queues := new_with_capacity (mkSocket guest_queues (cid (guest_addr x))) 16.

Lemma guest_mgr x : mgr_ok (guest x).
Proof. split; [exact guest_ok|done|]. by repeat constructor. Qed.

(** ** Runs *)

Definition n0 : net := mkNet (mkTwo (mkSide (guest false) [] []) (mkSide (listen 2000 (guest true)) [] [])) (mkTwo [] []).

Lemma guest_inbox : q_inbox guest_queues = [].
Proof. exact (inbox_inv _ _ _ _ _ guest_inv). Qed.
Lemma guest_side x (m : VsockConnectionManager queues) :
  driver m = mkSocket guest_queues (cid (guest_addr x)) -> per_connection_buffer_capacity m = 16 -> connections m = [] ->
  side_ok guest_addr (fun _ => 16) x (mkSide m [] []) /\ (forall k, conn m k = None) /\ inbox (dev m) = [] /\ outbox (dev m) = [].
Proof.
  intros Ed Ec El. assert (dev m = guest_queues) as Eq by (unfold dev; by rewrite Ed).
  assert (forall k, conn m k = None) as Hk by (intros k; unfold conn; by rewrite El).
  split_and!; [split; cbn [mg]|done|rewrite Eq; exact guest_inbox|by rewrite Eq].
  - split; [rewrite Eq; exact guest_ok|by rewrite Ec|rewrite El; by repeat constructor].
  - unfold manager_cid. by rewrite Ed.
  - done.
  - intros k c. by rewrite Hk.
  - exists []. by rewrite Eq.
  - intros b p. rewrite Eq. change (inbox guest_queues) with (q_inbox guest_queues). rewrite guest_inbox. by intros ?%elem_of_nil.
Qed.
Lemma n0_fresh : fresh_net guest_addr (fun _ => 16) n0.
Proof.
  destruct (guest_side false (guest false)) as (S1 & C1 & I1 & O1); [done..|].
  destruct (guest_side true (listen 2000 (guest true))) as (S2 & C2 & I2 & O2); [done..|].
  intros []; (split; [assumption|]); (split; [constructor|]); (split; [auto|]); split_and!; try done; unfold transit; cbn [sides n0 mg negb two_get].
Qed.

(** What happens: a call that returns, or the host takes or delivers a packet. *)
Inductive act := ACall (x : bool) (o : mop) | AFetch (x : bool) | ADeliver (x : bool).
Definition allowed (o : mop) : bool := match o with OConnect _ => false | ORecv _ n => 0 <=? n | _ => true end.
Definition act_step (allowed : mop -> bool) (a : act) (n : net) : option (net (D := queues)) :=
  match a with
  | ACall x o =>
      if allowed o then
        match run_op (pair_key guest_addr x) o (sides n x) with
        | Some s => Some (mkNet (bupd (sides n) x s) (chan n))
        | None => None
        end
      else None
  | AFetch x =>
      match outbox (dev (mg (sides n x))) with
      | p :: _ =>
          match read_header_and_body p with
          | Ok (h, body) =>
              Some (mkNet (bupd (sides n) x (set_dev (host_take (dev (mg (sides n x)))) (sides n x)))
                (bupd (chan n) x (chan n x ++ (if h_dst_cid h =? cid (guest_addr (negb x)) then [(h, body)] else []))))
          | Err _ => None
          end
      | [] => None
      end
  | ADeliver x =>
      match chan n (negb x) with
      | p :: rest =>
          match host_put (packet_bytes p) (dev (mg (sides n x))) with
          | Some d => Some (mkNet (bupd (sides n) x (set_dev d (sides n x))) (bupd (chan n) (negb x) rest))
          | None => None
          end
      | [] => None
      end
  end.
Fixpoint acts (allowed : mop -> bool) (l : list act) (n : net) : option net :=
  match l with [] => Some n | a :: l => match act_step allowed a n with Some n => acts allowed l n | None => None end end.

Lemma act_net a n n' : act_step allowed a n = Some n' -> net_step guest_addr n n'.
Proof.
  destruct a as [x o|x|x]; cbn [act_step]; intros E.
  - destruct (allowed o) eqn:Eo; [|done]. destruct (run_op _ _ _) as [s|] eqn:Er; [|done]. injection E as <-. apply (ns_op _ x o n s); [|done].
    destruct o; split; try done. cbn in *. by apply Z.leb_le.
  - destruct (outbox _) as [|p rest] eqn:Ep; [done|]. destruct (read_header_and_body p) as [[h body]|] eqn:Eh; [|done]. injection E as <-. exact (ns_fetch guest_addr x n p rest h body Ep Eh).
  - destruct (chan n (negb x)) as [|p rest] eqn:Ep; [done|]. destruct (host_put _ _) as [d|] eqn:Ed; [|done]. injection E as <-. exact (ns_deliver guest_addr x n p rest d Ep Ed).
Qed.
Lemma acts_reach l m : forall n n', net_reach guest_addr m n -> acts allowed l n = Some n' -> net_reach guest_addr m n'.
Proof.
  induction l as [|a l IH]; intros n n' Hr; cbn [acts]; [by intros [= <-]|]. destruct (act_step allowed a n) as [n1|] eqn:E; [|done].
  apply IH. eapply nr_step; [done|]. by apply act_net in E.
Qed.

Definition n1 : net :=
  match connect (fst (pair_key guest_addr false)) (snd (pair_key guest_addr false)) (mg (sides n0 false)) with
  | Some (Ret (m, Ok _)) => mkNet (bupd (sides n0) false (set_mg m (sides n0 false))) (chan n0)
  | _ => n0
  end.
Lemma n1_reach : net_reach guest_addr n0 n1.
Proof.
  unfold n1. pose proof (eq_refl : (match connect (fst (pair_key guest_addr false)) (snd (pair_key guest_addr false)) (mg (sides n0 false)) with
    | Some (Ret (m, Ok tt)) => true | _ => false end) = true) as E.
  destruct (connect _ _ _) as [[[m [[]|]]|]|] eqn:Em; try done. by constructor.
Qed.

(** The connection is made; then ten bytes are sent, and seven of them read. *)
Definition hello : list Z := [104; 101; 108; 108; 111; 32; 104; 111; 115; 116].
Definition story : list act :=
  [AFetch false; ADeliver true; ACall true OPoll; AFetch true; ADeliver false; ACall false OPoll;
   ACall false (OSend (pair_key guest_addr false) hello); AFetch false; ADeliver true; ACall true OPoll;
   ACall true (ORecv (pair_key guest_addr true) 7)].

Lemma story_told : exists n, acts allowed story n1 = Some n /\ gsent (sides n false) = hello /\ ggot (sides n true) = take 7 hello.
Proof.
  assert (match acts allowed story n1 with Some n => bool_decide (gsent (sides n false) = hello /\ ggot (sides n true) = take 7 hello) | None => false end = true) as E
    by (vm_compute; reflexivity).
  destruct (acts allowed story n1) as [n|]; [|done]. exists n. apply bool_decide_eq_true in E. done.
Qed.

(** The first side closes the connection while the second has not read yet, and
    connects again: the second side answers with the connection it still has. *)
Definition sixteen : list Z := seqZ 65 16.
Definition own_key : key := pair_key guest_addr false.
Definition deliver_to (x : bool) : list act := [AFetch (negb x); ADeliver x; ACall x OPoll].
Definition again : list act :=
  deliver_to true ++ deliver_to false ++ ACall false (OSend own_key hello) :: deliver_to true
  ++ ACall false (OClose own_key) :: deliver_to true ++ ACall false (OConnect own_key) :: deliver_to true ++ deliver_to false
  ++ [ACall false (OSend own_key sixteen); AFetch false; ADeliver true].

(** Connecting again can lose bytes: the sixteen bytes of the new connection were
    sent within the credit that the second side gave, but its buffer of sixteen
    still holds the ten bytes of the old one.  The call that receives them
    fails, the packet is gone, and both sides still have the connection. *)
Theorem reconnect_loses_bytes : exists n m c,
  acts (fun _ => true) again n1 = Some n /\ gsent (sides n false) = hello ++ sixteen
  /\ poll (mg (sides n true)) = Some (Ret (m, Err (SocketDeviceError (OutputBufferTooShort 16))))
  /\ conn m (pair_key guest_addr true) = Some c /\ s_data c = hello /\ inbox (dev m) = []
  /\ is_Some (conn (mg (sides n false)) own_key).
Proof.
  assert (match acts (fun _ => true) again n1 with
    | Some n =>
        match poll (mg (sides n true)) with
        | Some (Ret (m, Err (SocketDeviceError (OutputBufferTooShort k)))) =>
            match conn m (pair_key guest_addr true) with
            | Some c => bool_decide (k = 16 /\ gsent (sides n false) = hello ++ sixteen /\ s_data c = hello /\ inbox (dev m) = []
                                     /\ is_Some (conn (mg (sides n false)) own_key))
            | None => false
            end
        | _ => false
        end
    | None => false
    end = true) as E by (vm_compute; reflexivity).
  destruct (acts _ again n1) as [n|]; [|done]. exists n. destruct (poll _) as [[[m [a|[ve|e]]]|]|]; try done. exists m.
  destruct e as [| | | |k| | | | | | |]; try done. destruct (conn m _) as [c|]; [|done]. exists c.
  apply bool_decide_eq_true in E as (-> & E1 & E2 & E3 & E4). by split_and!.
Qed.

Lemma guest_addr_ok x : 0 <= cid (guest_addr x) < 2 ^ 64 /\ 0 <= port (guest_addr x) < 2 ^ 32.
Proof. by destruct x. Qed.
Lemma guest_cap_ok (x : bool) : 0 < 16 < 2 ^ 32.
Proof. done. Qed.
Lemma vsock_stream_witness : exists n, net_reach guest_addr n0 n /\ gsent (sides n false) = hello /\ ggot (sides n true) = take 7 hello
  /\ ggot (sides n true) `prefix_of` gsent (sides n false) /\ len (gsent (sides n false)) <= len (ggot (sides n true)) + 16.
Proof.
  destruct story_told as (n & E & H1 & H2). assert (net_reach guest_addr n0 n) as Hr by exact (acts_reach _ _ _ _ n1_reach E).
  exists n. split; [exact Hr|]. split; [exact H1|]. split; [exact H2|].
  pose proof (vsock_stream guest_addr (fun _ => 16) guest_addr_ok guest_cap_ok n0 n false n0_fresh Hr) as (P1 & _ & P2 & _).
  split; [exact P1|]. exact P2.
Defined.

(** A side that has received the ten bytes and read none. *)
Lemma received_told : exists n c, acts allowed (take 10 story) n1 = Some n /\ conn (mg (sides n true)) (pair_key guest_addr true) = Some c
  /\ s_data c = hello /\ s_shut c = false.
Proof.
  assert (match acts allowed (take 10 story) n1 with
    | Some n => match conn (mg (sides n true)) (pair_key guest_addr true) with Some c => bool_decide (s_data c = hello /\ s_shut c = false) | None => false end
    | None => false
    end = true) as E by (vm_compute; reflexivity).
  destruct (acts allowed (take 10 story) n1) as [n|]; [|done]. destruct (conn _ _) as [c|] eqn:Ec; [|done]. exists n, c.
  apply bool_decide_eq_true in E as [E1 E2]. done.
Qed.

(** A device whose transmit queue is always full, and a connection over it. *)
#[local] Instance full_device : SocketDevice unit := {
  rx_pop d := Ret (d, VOk None);
  rx_add _ d := Ret (d, VOk tt);
  tx_send _ d := Some (Ret (d, VErr QueueFull));
}.
Definition peer : key := (mkAddr 4 2000, 1000).
Definition full_conn : Connection := mkConn (mkInfo (fst peer) (snd peer) 16 0 0 16 0 false) (ring_new 16) false.
Definition full_manager : VsockConnectionManager unit := mkManager (mkSocket tt 3) 16 [full_conn] [].
Lemma full_conns : conns_ok 16 [full_conn].
Proof. split; [constructor; [by apply ring_new_ok|done]|]. cbn. apply NoDup_singleton. Qed.

Lemma manager_refines_map_witness :
  (exists n m', acts allowed (take 10 story) n1 = Some n
    /\ recv (guest_addr false) 2000 7 (mg (sides n true)) = Some (Ret (m', Ok (take 7 hello)))
    /\ s_data <$> conn m' (pair_key guest_addr true) = Some (drop 7 hello) /\ mgr_ok m')
  /\ exists m', send (fst peer) (snd peer) hello full_manager = Some (Ret (m', Err (QueueError QueueFull)))
    /\ tx_cnt ∘ s_info <$> conn m' peer = Some 10.
Proof.
  split.
  - destruct received_told as (n & c & E & Hc & Hd & Hs). pose proof (acts_reach _ _ _ _ n1_reach E) as Hr.
    pose proof (so_mgr _ _ _ _ (no_side _ _ _ (net_reach_ok guest_addr (fun _ => 16) guest_addr_ok guest_cap_ok n0 n n0_fresh Hr) true)) as [M1 M2 M3].
    destruct (manager_refines_map (mg (sides n true)) (pair_key guest_addr true) M2 M3) as [H _]. destruct (H _ M1) as (_ & _ & H7 & _).
    specialize (H7 7 ltac:(lia)). rewrite Hc in H7. unfold s_recv in H7. rewrite Hd, Hs in H7. destruct H7 as (m' & E7 & [A1 A2 _ _ _]).
    exists n, m'. split_and!; [exact E|exact E7| |exact A1]. rewrite A2, decide_True by done. done.
  - destruct (manager_refines_map full_manager peer ltac:(done) full_conns) as (_ & _ & H & _).
    destruct (H hello _ ltac:(apply list_elem_of_singleton; reflexivity) tt QueueFull eq_refl) as (m' & E & [_ _ A _]).
    exists m'. split; [exact E|]. by rewrite A.
Defined.

(** ** A device that is started *)

Definition sock_transport : PciTransport := mkPciTransport VirtioPci.SocketDevice (mkDf 0 4 0) 0xfe000000 (0xfe003000, 0x800) 4 0xfe001000 (Some (0xfe002000, 2)).
Definition sock_device : vdev :=
  mkVdev 0xfe000000 0x130000000 0 0 0 0 0 0 (fun i => if i <? 3 then mkVQ 128 i 0 0 0 0 else mkVQ 0 i 0 0 0 0) [] (fun o => if o =? 0x2000 then 3 else 0).

Lemma sock_can_start : can_start sock_transport 0x100000 0x106000 sock_device
  (mkLayout 0x100000 0x100080 0x101000) (mkLayout 0x102000 0x102080 0x103000) (mkLayout 0x104000 0x104080 0x105000).
Proof.
  split; [by exists 0xfe002000, 2|]. split; [|by exists 0x102000, 0x104000].
  intros i Hi. unfold sock_device. cbn [d_queues]. rewrite (proj2 (Z.ltb_lt i 3)) by lia. done.
Qed.
Lemma socket_starts_witness : exists d' s, pci_socket_new sock_transport 1 buffer_place 0x100000 sock_device = Some (Ret (d', 0x106000, VOk s))
  /\ d_status d' = 15 /\ d_accepted d' = 0x130000000 /\ ps_guest_cid s = 3 /\ dev_ok (device (socket_of (fun _ => 0) 0x300000 s)).
Proof.
  destruct (socket_starts sock_transport buffer_place 0x300000 guest_place 0 0x100000 (fun _ => 0) sock_device) as (d' & dma' & r & E & H).
  - by vm_compute.
  - by vm_compute.
  - intros a n [= <- <-]. by vm_compute.
  - by vm_compute.
  - destruct r as [s|e].
    + exists d', s. destruct H as ((l0 & l1 & l2 & (_ & _ & x & y & A0 & A1 & A2) & _) & Ha & Hs & _ & (a & n & Ec & Eg) & _ & Hd & _).
      vm_compute in A0. injection A0 as <- <-. vm_compute in A1. injection A1 as <- <-. vm_compute in A2. injection A2 as <- <-.
      injection Ec as <- <-. split_and!; [exact E|exact Hs|exact Ha|exact Eg|exact Hd].
    + destruct H as [H _]. exfalso.
      exact (H _ _ _ _ sock_can_start).
Defined.
